(* ===== verification/_CoqProject ===== *)
-Q . S2P
Prelude.v
CString.v
Memlayout.v
Mp.v
Seg.v
Apic.v
Spinlock.v
Kalloc.v
Vm.v
PageTable.v
Namespace.v
Pipe.v
Kernel.v
Sleeplock.v
Bio.v
Log.v
Store.v
Commit.v
Crash.v
Ide.v
Boot.v
Txn.v
MntTable.v
Fs.v
Dinode.v
Bitmap.v
FileData.v
InodeOps.v
FileIO.v
Directory.v
File.v
FileTable.v
Loopdev.v
LoopFile.v
Mount.v
MountPoint.v
Mkfs.v
Proc.v
Userarg.v
UserMem.v
Fork.v
Userinit.v
Wait.v
Exec.v
Sysfile.v
Ulib.v
Grep.v
Umalloc.v
Kbd.v
Console.v
ConsoleLines.v
Printf.v
Shell.v
ShellSpec.v
ShellShow.v
ShellRun.v
Uprogs.v
Trap.v
Main.v
Examples.v
