(* ===== verification/Prelude.v ===== *)
(** * Verification of the xv6 kernel with mounts and pid namespaces

    The program is a teaching kernel for x86 (C, under src/) that extends xv6
    by a mount table with loop devices and by pid namespaces.  This library
    translates its parts into Rocq definitions, names kept, and proves what
    makes them correct.

    ** How code is modelled

    Kernel code over a state [S] is a function [K S A := S → outcome S A]: it
    returns a value and a state, calls [panic], waits ([Blocked]), follows a
    bad pointer ([Fault]) or runs out of fuel ([NoFuel]).  A lens ([zoom])
    runs the code of a part on the state of the whole.  [wp m E Q s] says that
    [m] returns with [Q], or panics with a message of [E]; it excludes
    waiting, faults and lack of fuel, so every [wp] theorem is also a
    termination theorem.  Integers are [Z] with the wrap-around of their C type
    written out ([u8], [u16], [u32], [s32]); memory pages and disk blocks are
    lists of bytes; a pointer to an element of a table is the index.

    ** The parts

    Memory and processors.
    - Spinlock.v: spinlock.c on any number of processors, one memory access
      per step.  [spin_mutual_exclusion], [spin_acquire_release],
      [spin_panics_exact].
    - Memlayout.v, Kalloc.v: addresses (mmu.h, memlayout.h) and the page
      allocator (kalloc.c), whose free list runs through the free pages.
      [kinit_frees_all], [kalloc_exclusive].
    - Vm.v, PageTable.v: vm.c on two-level page tables inside those pages, and
      the address spaces they stand for.  [allocuvm_spec], [copyuvm_isolates],
      [setupkvm_freevm]; failures are shown to happen only when the free list
      is short.
    - Seg.v: segment and gate descriptors (mmu.h, [seginit], [switchuvm],
      [tvinit]) as the processor reads them.  [user_entry_points].
    - CString.v: string.c.

    Disk and file system.
    - Kernel.v: the shared data of the file system stack; Sleeplock.v:
      sleeplock.c; Bio.v: bio.c with the linked LRU list, and memide.c, the
      disk that the file system is proved with.  [bget_is_lru],
      [brelse_to_front].
    - Ide.v: ide.c, the driver that the Makefile links by default, with its
      queue and the registers of a controller, which faults when it is used
      while it is busy or without a command.  [ide_refines]: for every
      interleaving of callers and interrupts it does what memide.c does.
    - Log.v: log.c.  Store.v, Txn.v: the interface [store]/[tx] the inode
      layer is proved against: a view of the disk inside a transaction, which
      [bread_spec] and [log_write_spec] discharge.  Commit.v, Crash.v: the
      disk writes of a commit, in order, and recovery.  [commit_atomic] holds
      when the log on the disk is empty; [commit_leaves_header] shows that
      the code does not empty it, and [stale_log_replayed] what a crash in
      any commit then gives.
    - Fs.v: fs.c, and its theorems by layer: Dinode.v (inodes in blocks),
      Bitmap.v ([balloc_spec], [bfree_spec], [balloc_out_of_blocks]),
      FileData.v, InodeOps.v and FileIO.v ([bmap], [readi_spec],
      [writei_spec], [write_read]), Directory.v ([dirlookup_spec],
      [dirlink_spec]: a directory is a function from names to inode numbers;
      [dirlink_self_deadlock]).
    - MntTable.v, Mount.v, MountPoint.v: sysmount.c and the crossing of mount
      points in paths.  [mount_list], [mount_crossing].  Loopdev.v,
      LoopFile.v: loopdev.c, whose blocks are those of a file, so that block
      access and files are mutually recursive.  [loop_read_spec].
    - File.v, FileTable.v: file.c and the allocation of pipes.
      [file_references].  Mkfs.v: mkfs.c.

    Processes and system calls.
    - Namespace.v: namespace.c and pid_namespace.c.  [namespace_references]
      (the counters count the references), [parent_namespace_reused] (a parent
      namespace is not counted).
    - Pipe.v: pipe.c with its sleeping and waking processes, as a step
      relation.  [pipe_fifo], [pipe_no_lost_wakeup],
      [killed_writer_wakes_nobody].
    - Proc.v: proc.c and [unshare]; Userarg.v, UserMem.v: the argument checks
      of syscall.c ([user_arguments_safe]); Fork.v ([fork_spec]), Wait.v
      ([wait_spec], [kill_zero_outside]): processes, memory, files and
      namespaces together.  Userinit.v: the first process.
    - Exec.v: exec.c.  Sysfile.v: the system calls of sysfile.c, sysproc.c,
      sysnamespace.c and the table of syscall.c.
    - Trap.v: trap.c over all of these, with the console, the keyboard and the
      driver of ide.c.  [killed_never_returns], [trap_spec].

    Devices and starting.
    - Kbd.v: kbd.c ([kbdgetc_decodes]); Console.v, ConsoleLines.v: console.c
      as a line editor with sleeping readers ([console_refines],
      [console_no_lost_wakeup]).
    - Mp.v: mp.c ([mpinit_spec]); Apic.v: ioapic.c and lapic.c with the clock
      chip, whose registers hold anything during an update
      ([cmostime_spec], [ioapic_routes]).
    - Boot.v: bootmain.c ([bootmain_loads]).  Main.v: main.c on the whole
      board, ide.c included, from zero tables to the scheduler ([main_boots],
      which ends where [fork_spec] begins).

    User programs.
    - Ulib.v, Umalloc.v, Printf.v: ulib.c, umalloc.c, printf.c
      ([malloc_safe], [printf_atoi], [printf_cprintf]).
    - Grep.v ([grep_match], [grep_prints_matching_lines]); Uprogs.v: wc.c,
      cat.c and the names of ls.c ([wc_counts], [cat_copies], [fmtname_spec]).
    - Shell.v: the parser of sh.c; ShellSpec.v: its grammar
      ([parsecmd_spec]); ShellShow.v ([parse_show]); ShellRun.v: [runcmd] and
      [main] as programs of system calls, run with calls that fail and with
      programs that take input ([shell_session]).
    - Examples.v: the theorems applied to concrete states, and runs.

    ** Parameters

    Code that is not part of the C files enters as classes: [CurProc] (the
    running process, for the file system), [DevSw] (the drivers' table),
    [LoopOps] (the two entry points of loopdev.c that bio.c calls; Loopdev.v
    gives the instance), [Linker] (the addresses the linker chooses), [Code]
    (addresses of assembly routines and the bytes of initcode) and [Hardware]
    (BIOS memory, serial port, trap vectors, other processors, how long the
    drives are busy).  The theorems
    on page tables assume of the linker that the kernel's data segment is
    page-aligned and inside the mapped physical memory; that of [main] also
    that 80 pages are free below 4 MB.

    ** Fuel

    Loops of the C code that are not structural take fuel computed from their
    bounds: the number of blocks, pages, entries or characters left, plus one.
    The theorems show that this is enough.  The nesting of loop devices is the
    fuel of [loop_ops]; one device exists, so two levels suffice.  Loops that
    wait for a device ([mpinit] on its table, the clock chip, the drive) take
    fuel as an argument, and the theorems say how much suffices.

    ** Not modelled

    Assembly (bootasm.S, entry.S, entryother.S, swtch.S, trapasm.S, usys.S,
    initcode.S, the generated vectors): registers and stacks of the processor;
    a context switch is the step to the chosen process.  What a second
    processor runs before it reports to [startothers].  [procdump], the call
    stacks that spin locks record and [panic] itself, which only print or
    halt.  echo.c, init.c, kill.c, ln.c, mkdir.c, mount.c, rm.c, umount.c,
    zombie.c and the main functions of cat.c, ls.c and wc.c, which pass
    arguments to system calls.  The wiring of the file system to ide.c: it runs
    on the [iderw] of memide.c, which [ide_refines] justifies, and the driver
    of ide.c is a separate part of the state in Trap.v and Main.v.  The test
    programs (usertests.c, forktest.c, stressfs.c, pid_namespace_test.c), which
    print what they observe.  File system code runs as one process inside its
    transaction: interleaving is modelled for spin locks, pipes, the console
    and the disk driver, where the code depends on it. *)

From Stdlib Require Import ZArith Lia.
From stdpp Require Import base numbers strings gmap list.

#[global] Open Scope Z_scope.

(** ** Outcomes of kernel code *)

(** What running a piece of kernel code from a state gives: a value and the
    state after it; a call of [panic] with its message; a call of [sleep] (or
    a spin) that does not return before another process runs; an access
    outside an object (a null or out-of-range pointer); or, for a definition
    that recurses through the device layer, no fuel left. *)
Inductive outcome (S A : Type) : Type :=
| Ret (a : A) (s : S)
| Panic (msg : string)
| Blocked (on : string)
| Fault
| NoFuel.
Arguments Ret {S A}.
Arguments Panic {S A}.
Arguments Blocked {S A}.
Arguments Fault {S A}.
Arguments NoFuel {S A}.

(** Kernel code over a state [S]. *)
Definition K (S A : Type) : Type := S → outcome S A.

#[global] Instance K_ret {S} : MRet (K S) := λ A a s, Ret a s.
#[global] Instance K_bind {S} : MBind (K S) := λ A B f m s,
  match m s with
  | Ret a s' => f a s'
  | Panic msg => Panic msg
  | Blocked on => Blocked on
  | Fault => Fault
  | NoFuel => NoFuel
  end.

Definition gets {S A} (f : S → A) : K S A := λ s, Ret (f s) s.
Definition modify {S} (f : S → S) : K S unit := λ s, Ret tt (f s).
Definition panic {S A} (msg : string) : K S A := λ _, Panic msg.
Definition blocked {S A} (on : string) : K S A := λ _, Blocked on.
Definition fault {S A} : K S A := λ _, Fault.
Definition nofuel {S A} : K S A := λ _, NoFuel.

(** The value of an array read or of a pointer dereference. *)
Definition deref {S A} (o : option A) : K S A :=
  match o with
  | Some a => mret a
  | None => fault
  end.

(** [for (x in l) f(x);]. *)
Fixpoint for_each {S A} (l : list A) (f : A → K S unit) : K S unit :=
  match l with
  | [] => mret tt
  | x :: l => f x;; for_each l f
  end.

(** Evaluation of the monadic notation, for symbolic execution. *)
Ltac kred :=
  cbv beta iota delta [mbind mret K_bind K_ret gets modify panic blocked fault nofuel deref].
Ltac kred_in H :=
  cbv beta iota delta [mbind mret K_bind K_ret gets modify panic blocked fault nofuel deref] in H.

(** Two results of one run are one. *)
Ltac same_run :=
  repeat match goal with
  | H : ?m = Ret _ _, H' : ?m = _ |- _ =>
      tryif constr_eq H H' then fail else (rewrite H in H'; injection H' as ?; subst)
  end.

Lemma K_bind_Ret {S A B} (m : K S A) (f : A → K S B) s a s' :
  m s = Ret a s' → (m ≫= f) s = f a s'.
Proof. intros H. unfold mbind, K_bind. by rewrite H. Qed.

Lemma K_bind_Panic {S A B} (m : K S A) (f : A → K S B) s msg : m s = Panic msg → (m ≫= f) s = Panic msg.
Proof. intros H. unfold mbind, K_bind. by rewrite H. Qed.

Lemma K_bind_inv {S A B} (m : K S A) (f : A → K S B) s b s' :
  (m ≫= f) s = Ret b s' → ∃ a s1, m s = Ret a s1 ∧ f a s1 = Ret b s'.
Proof. unfold mbind, K_bind. destruct (m s); naive_solver. Qed.

(** Step through a bind whose first part is known to return. *)
Ltac kstep H := rewrite (K_bind_Ret _ _ _ _ _ H).

(** ** Components of a larger state *)

(** A component's state inside a larger one, with the laws of a field. *)
Record lens (S T : Type) : Type := Lens {
  lget : S → T;
  lset : T → S → S;
}.
Arguments Lens {S T}.
Arguments lget {S T}.
Arguments lset {S T}.

Class LensLaws {S T} (l : lens S T) : Prop := {
  lget_lset : ∀ t s, lget l (lset l t s) = t;
  lset_lget : ∀ s, lset l (lget l s) s = s;
  lset_lset : ∀ t t' s, lset l t (lset l t' s) = lset l t s;
}.

(** Run an operation of a component on the larger state. *)
Definition zoom {S T A} (l : lens S T) (m : K T A) : K S A := λ s,
  match m (lget l s) with
  | Ret a t => Ret a (lset l t s)
  | Panic msg => Panic msg
  | Blocked on => Blocked on
  | Fault => Fault
  | NoFuel => NoFuel
  end.

Lemma zoom_Ret {S T A} (l : lens S T) (m : K T A) s a t :
  m (lget l s) = Ret a t → zoom l m s = Ret a (lset l t s).
Proof. unfold zoom. by intros ->. Qed.

Lemma zoom_Panic {S T A} (l : lens S T) (m : K T A) s msg : m (lget l s) = Panic msg → zoom l m s = Panic msg.
Proof. unfold zoom. by intros ->. Qed.

Lemma zoom_Ret_inv {S T A} (l : lens S T) (m : K T A) s a s' :
  zoom l m s = Ret a s' → ∃ t, m (lget l s) = Ret a t ∧ s' = lset l t s.
Proof. unfold zoom. destruct (m (lget l s)); naive_solver. Qed.

(** ** Spin locks of a component *)

(** A component keeps its spin lock as a boolean field: the code runs on one
    processor, so a lock that is held is held by this processor.  [acquire]
    of a held lock and [release] of a free one panic (spinlock.c; Spinlock.v
    has the whole protocol, with several processors). *)
Definition acquire {S} (l : lens S bool) : K S unit := λ s,
  if lget l s then Panic "acquire" else Ret tt (lset l true s).
Definition release {S} (l : lens S bool) : K S unit := λ s,
  if lget l s then Ret tt (lset l false s) else Panic "release".

(** ** Specifications of operations *)

(** From the state [s] the operation returns, with [Q] of the result and the
    state, or calls [panic] with a message of [E]; it does not block, does
    not leave the objects it works on and does not run out of fuel. *)
Definition wp {S A} (m : K S A) (E : list string) (Q : A → S → Prop) (s : S) : Prop :=
  match m s with
  | Ret a s' => Q a s'
  | Panic msg => msg ∈ E
  | Blocked _ | Fault | NoFuel => False
  end.

Section wp.
Context {S : Type} (E : list string).

Lemma wp_ret {A} (a : A) Q (s : S) : Q a s → wp (mret a) E Q s.
Proof. done. Qed.

Lemma wp_bind {A B} (m : K S A) (f : A → K S B) Q s :
  wp m E (λ a, wp (f a) E Q) s → wp (m ≫= f) E Q s.
Proof. unfold wp, mbind, K_bind. by destruct (m s). Qed.

Lemma wp_mono {A} (m : K S A) (Q Q' : A → S → Prop) s :
  wp m E Q s → (∀ a s', Q a s' → Q' a s') → wp m E Q' s.
Proof. unfold wp. destruct (m s); auto. Qed.

Lemma wp_Ret {A} (m : K S A) (Q : A → S → Prop) s a s' :
  m s = Ret a s' → Q a s' → wp m E Q s.
Proof. unfold wp. by intros ->. Qed.

Lemma wp_Panic {A} msg (Q : A → S → Prop) s : msg ∈ E → wp (panic msg) E Q s.
Proof. done. Qed.

Lemma wp_inv {A} (m : K S A) (Q : A → S → Prop) s a s' :
  wp m E Q s → m s = Ret a s' → Q a s'.
Proof. unfold wp. intros H Hm. by rewrite Hm in H. Qed.

Lemma wp_weaken {A} (E' : list string) (m : K S A) (Q : A → S → Prop) s : E' ⊆ E → wp m E' Q s → wp m E Q s.
Proof. unfold wp. destruct (m s); set_solver. Qed.

Lemma wp_deref {A} (o : option A) a (Q : A → S → Prop) s : o = Some a → Q a s → wp (deref o) E Q s.
Proof. by intros ->. Qed.

Lemma wp_gets {A} (f : S → A) Q s : Q (f s) s → wp (gets f) E Q s.
Proof. done. Qed.

Lemma wp_modify (f : S → S) Q s : Q tt (f s) → wp (modify f) E Q s.
Proof. done. Qed.

(** A loop over a list, with an invariant of the elements left. *)
Lemma wp_for_each {A} (f : A → K S unit) (I : list A → S → Prop) l s :
  (∀ x l s, I (x :: l) s → wp (f x) E (λ _, I l) s) →
  I l s → wp (for_each l f) E (λ _, I []) s.
Proof.
  intros Hf. revert s. induction l as [|x l IH]; intros s HI; cbn [for_each]; [done|].
  apply wp_bind. eapply wp_mono; [by apply Hf|]. intros [] s' H. by apply IH.
Qed.

End wp.

(** The state and the value of a run, for evaluation on concrete states. *)
Definition run_state {S A} (m : K S A) (s : S) : S :=
  match m s with Ret _ s' => s' | _ => s end.
Definition run_value {S A} (m : K S A) (s : S) : option A :=
  match m s with Ret a _ => Some a | _ => None end.
Definition returns {S A} (m : K S A) (s : S) : bool :=
  match m s with Ret _ _ => true | _ => false end.

Lemma run_state_wp {S A} (m : K S A) E Q s :
  returns m s = true → wp m E (λ _, Q) s → Q (run_state m s).
Proof. unfold returns, run_state, wp. by destruct (m s). Qed.
Lemma run_value_wp {S A} (m : K S A) E Q s a :
  run_value m s = Some a → wp m E Q s → Q a (run_state m s).
Proof. unfold run_value, run_state, wp. destruct (m s); naive_solver. Qed.

(** Step through a bind whose first part is known to return. *)
Ltac wp_step H := eapply wp_bind, wp_Ret; [apply H|].

(** ** Machine integers *)

(** C's [uint], [ushort], [uchar] (reduction modulo the width) and [int],
    [short] (two's complement). *)
Definition u32 (x : Z) : Z := x mod 2 ^ 32.
Definition u16 (x : Z) : Z := x mod 2 ^ 16.
Definition u8 (x : Z) : Z := x mod 2 ^ 8.
Definition s32 (x : Z) : Z := (x + 2 ^ 31) mod 2 ^ 32 - 2 ^ 31.
Definition s16 (x : Z) : Z := (x + 2 ^ 15) mod 2 ^ 16 - 2 ^ 15.

Lemma u32_range x : 0 ≤ u32 x < 2 ^ 32.
Proof. apply Z.mod_pos_bound. lia. Qed.
Lemma u32_small x : 0 ≤ x < 2 ^ 32 → u32 x = x.
Proof. apply Z.mod_small. Qed.
Lemma u32_add_l x y : u32 (u32 x + y) = u32 (x + y).
Proof. unfold u32. by rewrite Zplus_mod_idemp_l. Qed.
Lemma u32_sub_l x y : u32 (u32 x - y) = u32 (x - y).
Proof. unfold u32. by rewrite Zminus_mod_idemp_l. Qed.
Lemma u32_add_r x y : u32 (x + u32 y) = u32 (x + y).
Proof. unfold u32. by rewrite Zplus_mod_idemp_r. Qed.

(** Little-endian words in memory. *)
Fixpoint le_bytes (n : nat) (x : Z) : list Z :=
  match n with
  | O => []
  | S n => x mod 256 :: le_bytes n (x / 256)
  end.
Fixpoint le_val (l : list Z) : Z :=
  match l with
  | [] => 0
  | b :: l => b + 256 * le_val l
  end.

Definition is_byte (b : Z) : Prop := 0 ≤ b < 256.
#[global] Instance is_byte_dec b : Decision (is_byte b).
Proof. unfold is_byte. apply _. Defined.

Lemma le_bytes_length n x : length (le_bytes n x) = n.
Proof. revert x. induction n; intros; simpl; auto. Qed.

Lemma le_val_bytes n x : le_val (le_bytes n x) = x mod 256 ^ Z.of_nat n.
Proof.
  revert x. induction n as [|n IH]; intros x; simpl le_bytes; simpl le_val.
  - by rewrite Z.mod_1_r.
  - rewrite IH, Nat2Z.inj_succ, Z.pow_succ_r by lia.
    rewrite (Z.rem_mul_r x 256) by lia. lia.
Qed.

Lemma le_bytes_val l : Forall is_byte l → le_bytes (length l) (le_val l) = l.
Proof.
  induction 1 as [|b l Hb _ IH]; [done|]. unfold is_byte in Hb. simpl. f_equal.
  - symmetry. apply Z.mod_unique with (le_val l); lia.
  - replace ((b + 256 * le_val l) / 256) with (le_val l); [done|].
    apply Z.div_unique with b; lia.
Qed.

Lemma le_bytes_bytes n x : Forall is_byte (le_bytes n x).
Proof.
  revert x. induction n; intros x; simpl; constructor; [|auto].
  unfold is_byte. apply Z.mod_pos_bound. lia.
Qed.

Lemma le_val_range l : Forall is_byte l → 0 ≤ le_val l < 256 ^ Z.of_nat (length l).
Proof.
  induction 1 as [|b l Hb _ IH]; cbn [le_val length]; [lia|].
  unfold is_byte in Hb. rewrite Nat2Z.inj_succ, Z.pow_succ_r by lia. lia.
Qed.

(** ** Arrays *)

(** The development's hints: facts about arrays and integers that its proofs
    use all over. *)
Create HintDb xv6.

Lemma insert_lookup {A} (l : list A) i x y : l !! i = Some y → <[i:=x]> l !! i = Some x.
Proof. intros H. apply list_lookup_insert_eq. by eapply lookup_lt_Some. Qed.

Lemma insert_lookup_ne {A} (l : list A) i j x y : i ≠ j → l !! j = Some y → <[i:=x]> l !! j = Some y.
Proof. intros. by rewrite list_lookup_insert_ne. Qed.

#[export] Hint Resolve lookup_lt_Some insert_lookup insert_lookup_ne u32_range : xv6.

Lemma filter_ne (b : nat) (l : list nat) : b ∉ l → filter (λ i, i ≠ b) l = l.
Proof.
  induction l as [|z l IH]; intros H; [done|]. rewrite filter_cons_True by set_solver.
  f_equal. apply IH. set_solver.
Qed.

Lemma list_alter_insert_same {A} (f : A → A) i x (l : list A) :
  alter f i (<[i:=x]> l) = <[i:=f x]> l.
Proof. revert i. induction l as [|y l IH]; intros [|i]; try done. simpl. f_equal. apply IH. Qed.

Lemma list_alter_Some {A} (f : A → A) i x (l : list A) :
  l !! i = Some x → alter f i l = <[i:=f x]> l.
Proof.
  revert i. induction l as [|y l IH]; intros [|i] H; try done; [by simplify_eq/=|].
  simpl. f_equal. by apply IH.
Qed.

Lemma length_omap_le {A B} (f : A → option B) xs : (length (omap f xs) ≤ length xs)%nat.
Proof. induction xs as [|x xs IH]; cbn; [done|]. destruct (f x); cbn; lia. Qed.

(** Finding in a list where one element has been put at a place that matched
    nothing. *)
Lemma list_find_put {A} (P : A → Prop) `{∀ e, Decision (P e)} (l l' : list A) j e :
  (∀ i, l' !! i = if decide (i = j) then Some e else l !! i) → (∀ d, l !! j = Some d → ¬ P d) →
  (¬ P e → list_find P l' = list_find P l) ∧ (P e → list_find P l = None → list_find P l' = Some (j, e)).
Proof.
  intros Hl Hj. split.
  - intros He. apply option_eq. intros [i d]. rewrite !list_find_Some, Hl.
    assert (Hiff : (∀ i' y, l' !! i' = Some y → (i' < i)%nat → ¬ P y) ↔ (∀ i' y, l !! i' = Some y → (i' < i)%nat → ¬ P y)).
    { split; intros Hall i' y Hy Hi'.
      - destruct (decide (i' = j)) as [->|]; [by apply Hj|]. apply (Hall i'); [|done]. by rewrite Hl, decide_False.
      - rewrite Hl in Hy. destruct (decide (i' = j)); [by simplify_eq|]. by apply (Hall i'). }
    rewrite Hiff. destruct (decide (i = j)) as [->|]; [|done]. split; intros (Hd & HP & _); [by simplify_eq|].
    by destruct (Hj d).
  - intros He Hnone. apply list_find_Some. split; [by rewrite Hl, decide_True|]. split; [done|].
    intros i y Hy Hi. rewrite Hl, decide_False in Hy by lia. rewrite list_find_None, Forall_forall in Hnone.
    apply Hnone. by eapply list_elem_of_lookup_2.
Qed.

Lemma list_lookup_insert_cases {A} (l : list A) i x j y :
  <[i:=x]> l !! j = Some y → (i = j ∧ y = x ∧ (i < length l)%nat) ∨ (i ≠ j ∧ l !! j = Some y).
Proof.
  destruct (decide (i = j)) as [->|].
  - intros H. left. pose proof (lookup_lt_Some _ _ _ H) as Hl. rewrite length_insert in Hl.
    rewrite list_lookup_insert_eq in H by done. naive_solver.
  - rewrite list_lookup_insert_ne by done. auto.
Qed.

(** The little-endian 32-bit word number [i] of a block, and storing it. *)
Definition word (d : list Z) (i : nat) : Z := le_val (take 4 (drop (4 * i) d)).
Definition set_word (d : list Z) (i : nat) (v : Z) : list Z :=
  list_inserts (4 * i) (le_bytes 4 v) d.
#[global] Arguments word : simpl never.
#[global] Arguments set_word : simpl never.

Lemma take_drop_inserts_eq {A} i (k d : list A) : (i + length k ≤ length d)%nat →
  take (length k) (drop i (list_inserts i k d)) = k.
Proof.
  intros H. apply list_eq. intros j. rewrite lookup_take, lookup_drop. case_decide as Hj.
  - rewrite list_lookup_inserts by lia. f_equal. lia.
  - symmetry. apply lookup_ge_None. lia.
Qed.

Lemma take_drop_inserts_ne {A} i j n (k d : list A) : (j + n ≤ i ∨ i + length k ≤ j)%nat →
  take n (drop j (list_inserts i k d)) = take n (drop j d).
Proof.
  intros H. apply list_eq. intros m. rewrite !lookup_take, !lookup_drop. case_decide; [|done].
  destruct H; [apply list_lookup_inserts_lt|apply list_lookup_inserts_ge]; lia.
Qed.

Lemma word_set_eq d i v : (4 * i + 4 ≤ length d)%nat → word (set_word d i v) i = u32 v.
Proof.
  intros H. unfold word, set_word.
  pose proof (take_drop_inserts_eq (4 * i) (le_bytes 4 v) d) as E. rewrite le_bytes_length in E.
  rewrite E by lia. by rewrite le_val_bytes.
Qed.

Lemma word_set_ne d i j v : i ≠ j → word (set_word d i v) j = word d j.
Proof. intros H. unfold word, set_word. rewrite take_drop_inserts_ne; [done|]. rewrite le_bytes_length. lia. Qed.

Lemma set_word_length d i v : length (set_word d i v) = length d.
Proof. apply length_inserts. Qed.

Lemma s32_small x : - 2 ^ 31 ≤ x < 2 ^ 31 → s32 x = x.
Proof. intros. unfold s32. rewrite Z.mod_small by lia. lia. Qed.

Lemma s32_u32 x : s32 (u32 x) = s32 x.
Proof. unfold s32, u32. by rewrite Zplus_mod_idemp_l. Qed.

(** Induction for functions that look at two elements. *)
Lemma list_ind2 {A} (P : list A → Prop) : P [] → (∀ x, P [x]) → (∀ x y l, P l → P (y :: l) → P (x :: y :: l)) → ∀ l, P l.
Proof. intros H0 H1 H2 l. assert (P l ∧ ∀ x, P (x :: l)) as [? _]; [|done]. induction l as [|y l [IH1 IH2]]; auto. Qed.
