(* ===== verification/CString.v ===== *)
(** * CString: the byte and string routines of string.c

    The [mem*] routines work on the memory, a function from addresses to
    bytes.  The [str*] routines work on arrays: a [char*] is the list of the
    characters from where it points to the end of its array, and [None] is an
    access past the end of the array. *)

From Stdlib Require Import ZArith Lia.
From stdpp Require Import base numbers strings gmap list.
From S2P Require Import Prelude.
Open Scope Z_scope.

(** ** Memory *)

Definition memory : Type := Z → Z.

(** [*a = b]. *)
Definition store (m : memory) (a b : Z) : memory := λ a', if a' =? a then b else m a'.

(** The little-endian word of [n] bytes at an address. *)
Definition mword (m : memory) (n : nat) (a : Z) : Z := le_val ((λ i, m (a + Z.of_nat i)) <$> seq 0 n).

Lemma mword_ext m m' n a b : (∀ i, 0 ≤ i < Z.of_nat n → m (a + i) = m' (b + i)) → mword m n a = mword m' n b.
Proof. intros H. unfold mword. f_equal. apply list_fmap_ext. intros k i Hi. apply lookup_seq in Hi. apply H. lia. Qed.

Lemma mword_nonneg m n a : (∀ b, is_byte (m b)) → 0 ≤ mword m n a.
Proof. intros H. apply le_val_range, Forall_fmap, Forall_true. intros i. apply H. Qed.

(** x86.h: [stosb] stores the byte [data], [stosl] the double word, [cnt]
    times from [addr] upwards. *)
Fixpoint stosb (m : memory) (addr data : Z) (cnt : nat) : memory :=
  match cnt with
  | O => m
  | S cnt => stosb (store m addr (u8 data)) (addr + 1) data cnt
  end.

Definition store32 (m : memory) (addr data : Z) : memory :=
  store (store (store (store m addr (u8 data))
    (addr + 1) (u8 (Z.shiftr data 8)))
    (addr + 2) (u8 (Z.shiftr data 16)))
    (addr + 3) (u8 (Z.shiftr data 24)).

Fixpoint stosl (m : memory) (addr data : Z) (cnt : nat) : memory :=
  match cnt with
  | O => m
  | S cnt => stosl (store32 m addr data) (addr + 4) data cnt
  end.

Definition memset (m : memory) (dst c n : Z) : memory :=
  if (dst mod 4 =? 0) && (n mod 4 =? 0) then
    let c := Z.land c 255 in
    stosl m dst
      (Z.lor (Z.lor (Z.lor (Z.shiftl c 24) (Z.shiftl c 16)) (Z.shiftl c 8)) c)
      (Z.to_nat (n / 4))
  else stosb m dst c (Z.to_nat n).

Fixpoint memcmp (m : memory) (s1 s2 : Z) (n : nat) : Z :=
  match n with
  | O => 0
  | S n => if m s1 =? m s2 then memcmp m (s1 + 1) (s2 + 1) n else m s1 - m s2
  end.

(** The two loops of [memmove]: from the ends downwards, and upwards. *)
Fixpoint move_down (m : memory) (d s : Z) (n : nat) : memory :=
  match n with
  | O => m
  | S n => move_down (store m (d - 1) (m (s - 1))) (d - 1) (s - 1) n
  end.
Fixpoint move_up (m : memory) (d s : Z) (n : nat) : memory :=
  match n with
  | O => m
  | S n => move_up (store m d (m s)) (d + 1) (s + 1) n
  end.

Definition memmove (m : memory) (dst src : Z) (n : nat) : memory :=
  if (src <? dst) && (dst <? src + Z.of_nat n)
  then move_down m (dst + Z.of_nat n) (src + Z.of_nat n) n
  else move_up m dst src n.

Definition memcpy (m : memory) (dst src : Z) (n : nat) : memory := memmove m dst src n.

(** ** Strings *)

Fixpoint strncmp (p q : list Z) (n : nat) {struct n} : option Z :=
  match n with
  | O => Some 0
  | S n =>
      match p, q with
      | a :: p, b :: q =>
          if negb (a =? 0) && (a =? b) then strncmp p q n else Some (u8 a - u8 b)
      | _, _ => None
      end
  end.

(** The second loop of [strncpy]. *)
Fixpoint zero_fill (s : list Z) (n : nat) {struct n} : option (list Z) :=
  match n, s with
  | O, _ => Some s
  | S n, _ :: s => cons 0 <$> zero_fill s n
  | S _, [] => None
  end.

Fixpoint strncpy (s t : list Z) (n : nat) {struct n} : option (list Z) :=
  match n with
  | O => Some s
  | S n =>
      match s, t with
      | _ :: s, c :: t => cons c <$> (if c =? 0 then zero_fill s n else strncpy s t n)
      | _, _ => None
      end
  end.

(** The loop of [safestrcpy] with [n = k + 1] left, and [*s = 0] after it. *)
Fixpoint safestrcpy_loop (s t : list Z) (k : nat) {struct k} : option (list Z) :=
  match k with
  | O => match s with _ :: s => Some (0 :: s) | [] => None end
  | S k =>
      match s, t with
      | _ :: s, c :: t =>
          cons c <$> (if c =? 0 then match s with _ :: s => Some (0 :: s) | [] => None end
                      else safestrcpy_loop s t k)
      | _, _ => None
      end
  end.

Definition safestrcpy (s t : list Z) (n : Z) : option (list Z) :=
  if n <=? 0 then Some s else safestrcpy_loop s t (Z.to_nat (n - 1)).

Fixpoint strlen (s : list Z) : option Z :=
  match s with
  | [] => None
  | c :: s => if c =? 0 then Some 0 else Z.succ <$> strlen s
  end.

(** ** Memory: what the loops do *)

Lemma store_eq m a b : store m a b a = b.
Proof. unfold store. by rewrite Z.eqb_refl. Qed.
Lemma store_ne m a b a' : a' ≠ a → store m a b a' = m a'.
Proof. unfold store. intros H. by apply Z.eqb_neq in H as ->. Qed.

Ltac store_cases :=
  repeat match goal with
  | |- context [store _ ?a _ ?b] =>
      destruct (decide (b = a)) as [->|]; [rewrite store_eq|rewrite (store_ne _ a _ b) by done]
  end.

Lemma move_up_spec m d s n a :
  d ≤ s ∨ s + Z.of_nat n ≤ d →
  move_up m d s n a = if decide (d ≤ a < d + Z.of_nat n) then m (s + (a - d)) else m a.
Proof.
  revert m d s. induction n as [|n IH]; intros m d s H; cbn [move_up].
  { rewrite decide_False; [done|lia]. }
  rewrite IH by lia. repeat case_decide; try lia.
  - rewrite store_ne by lia. f_equal. lia.
  - assert (a = d) as -> by lia. rewrite store_eq. f_equal. lia.
  - rewrite store_ne by lia. done.
Qed.

Lemma move_down_spec m d s n a :
  s ≤ d →
  move_down m d s n a =
    if decide (d - Z.of_nat n ≤ a < d) then m (s + (a - d)) else m a.
Proof.
  revert m d s. induction n as [|n IH]; intros m d s H; cbn [move_down].
  { rewrite decide_False; [done|lia]. }
  rewrite IH by lia. repeat case_decide; try lia.
  - rewrite store_ne by lia. f_equal. lia.
  - assert (a = d - 1) as -> by lia. rewrite store_eq. f_equal. lia.
  - rewrite store_ne by lia. done.
Qed.

(** [memmove] copies the [n] bytes at [src] to [dst] and changes nothing
    else, for any overlap of the two ranges: every byte of the destination is
    the byte the source held before the call. *)
Theorem memmove_overlap m dst src n a :
  memmove m dst src n a =
    if decide (dst ≤ a < dst + Z.of_nat n) then m (src + (a - dst)) else m a.
Proof.
  unfold memmove. destruct ((src <? dst) && (dst <? src + Z.of_nat n)) eqn:E.
  - apply andb_true_iff in E as [E1 E2]. rewrite move_down_spec by lia.
    repeat case_decide; try lia; f_equal; lia.
  - rewrite move_up_spec; [done|]. apply andb_false_iff in E as [E|E]; lia.
Qed.

Lemma stosb_spec m addr data cnt a :
  stosb m addr data cnt a =
    if decide (addr ≤ a < addr + Z.of_nat cnt) then u8 data else m a.
Proof.
  revert m addr. induction cnt as [|cnt IH]; intros m addr; cbn [stosb].
  { rewrite decide_False; [done|lia]. }
  rewrite IH. repeat case_decide; try lia.
  - assert (a = addr) as -> by lia. apply store_eq.
  - by rewrite store_ne by lia.
Qed.

(** A word whose four bytes are all [c]: checked for the 256 values of [c]. *)
Definition splat (c : Z) : Z :=
  Z.lor (Z.lor (Z.lor (Z.shiftl c 24) (Z.shiftl c 16)) (Z.shiftl c 8)) c.

Lemma splat_bytes c :
  0 ≤ c < 256 →
  u8 (splat c) = c ∧ u8 (Z.shiftr (splat c) 8) = c ∧
  u8 (Z.shiftr (splat c) 16) = c ∧ u8 (Z.shiftr (splat c) 24) = c.
Proof.
  intros Hc. assert (Forall (λ c,
    u8 (splat c) = c ∧ u8 (Z.shiftr (splat c) 8) = c ∧
    u8 (Z.shiftr (splat c) 16) = c ∧ u8 (Z.shiftr (splat c) 24) = c) (seqZ 0 256)) as H.
  { apply (bool_decide_unpack _). vm_compute. exact I. }
  rewrite Forall_forall in H. apply H, elem_of_seqZ. lia.
Qed.

Lemma stosl_spec m addr data cnt a c :
  u8 data = c → u8 (Z.shiftr data 8) = c → u8 (Z.shiftr data 16) = c →
  u8 (Z.shiftr data 24) = c →
  stosl m addr data cnt a =
    if decide (addr ≤ a < addr + 4 * Z.of_nat cnt) then c else m a.
Proof.
  intros H0 H1 H2 H3. revert m addr.
  induction cnt as [|cnt IH]; intros m addr; cbn [stosl].
  { rewrite decide_False; [done|lia]. }
  rewrite IH. unfold store32. rewrite H0, H1, H2, H3.
  repeat case_decide; try lia.
  - store_cases; try done. lia.
  - rewrite !store_ne by lia. done.
Qed.

(** [memset] fills the [n] bytes at [dst] with the low byte of [c] and
    changes nothing else, whether it stores double words (the aligned case)
    or bytes. *)
Theorem memset_fills m dst c n a :
  0 ≤ n →
  memset m dst c n a = if decide (dst ≤ a < dst + n) then u8 c else m a.
Proof.
  intros Hn. unfold memset. destruct (_ && _) eqn:E.
  - apply andb_true_iff in E as [_ E]. apply Z.eqb_eq in E.
    assert (u8 c = Z.land c 255) as Hc by (unfold u8; by rewrite <-Z.land_ones by lia).
    rewrite Hc. assert (0 ≤ Z.land c 255 < 256).
    { rewrite <-Hc. apply Z.mod_pos_bound. lia. }
    destruct (splat_bytes (Z.land c 255)) as (? & ? & ? & ?); [done|].
    rewrite (stosl_spec _ _ _ _ _ (Z.land c 255)) by done.
    assert (4 * Z.of_nat (Z.to_nat (n / 4)) = n) as ->
      by (rewrite Z2Nat.id by (apply Z.div_pos; lia); pose proof (Z.div_mod n 4); lia).
    done.
  - rewrite stosb_spec, Z2Nat.id by done. done.
Qed.

(** ** Strings: the characters before the end *)

(** The first [n] characters of an array, up to a NUL. *)
Fixpoint cut (n : nat) (l : list Z) : list Z :=
  match n, l with
  | S n, c :: l => if c =? 0 then [] else c :: cut n l
  | _, _ => []
  end.

(** An array that reading a string of at most [n] characters does not run past:
    it has a NUL or at least [n] characters. *)
Definition readable (n : nat) (t : list Z) : Prop := (n ≤ length t)%nat ∨ 0 ∈ t.

Lemma readable_tail n c t : c ≠ 0 → readable (S n) (c :: t) → readable n t.
Proof.
  intros Hc [Ht|Ht]; [left; simpl in Ht; lia|right]. by apply elem_of_cons in Ht as [?|?].
Qed.
Lemma readable_nil n : ¬ readable (S n) [].
Proof. intros [H|H]; [simpl in H; lia|by apply elem_of_nil in H]. Qed.

Lemma strncmp_total p q n :
  readable n p → readable n q → is_Some (strncmp p q n).
Proof.
  revert p q. induction n as [|n IH]; intros [|a p] [|b q] Hp Hq; simpl; eauto;
    try by (exfalso; eapply readable_nil).
  destruct (Z.eqb_spec a 0); [eauto|]. destruct (Z.eqb_spec a b) as [->|]; [|eauto].
  apply IH; by eapply readable_tail.
Qed.

Lemma strncmp_cut p q n :
  readable n p → readable n q → Forall is_byte p → Forall is_byte q →
  strncmp p q n = Some 0 ↔ cut n p = cut n q.
Proof.
  revert p q. induction n as [|n IH]; intros [|a p] [|b q] Hp Hq Bp Bq; simpl in *; try done;
    try by (exfalso; eapply readable_nil).
  apply Forall_cons in Bp as [Ba Bp], Bq as [Bb Bq]. unfold is_byte in *.
  destruct (a =? 0) eqn:Ea; simpl.
  - apply Z.eqb_eq in Ea as ->. unfold u8. rewrite !Z.mod_small by lia.
    destruct (b =? 0) eqn:Eb.
    + apply Z.eqb_eq in Eb as ->. done.
    + apply Z.eqb_neq in Eb. split; intros; simplify_eq; lia.
  - apply Z.eqb_neq in Ea. destruct (a =? b) eqn:E.
    + apply Z.eqb_eq in E as ->. rewrite (proj2 (Z.eqb_neq _ _) Ea).
      rewrite IH by (done || by eapply readable_tail). split; intros; simplify_eq; congruence.
    + apply Z.eqb_neq in E. unfold u8. rewrite !Z.mod_small by lia.
      split; [intros; simplify_eq; lia|]. destruct (b =? 0); intros; simplify_eq.
Qed.

(** [strncmp] of two arrays that have a NUL or at least [n] characters
    returns (it does not run past them), and returns zero exactly when the arrays agree on the
    first [n] characters up to a NUL. *)
Theorem strncmp_eq p q n :
  readable n p → readable n q → Forall is_byte p → Forall is_byte q →
  ∃ r, strncmp p q n = Some r ∧ (r = 0 ↔ cut n p = cut n q).
Proof.
  intros Hp Hq Bp Bq. destruct (strncmp_total p q n Hp Hq) as [r Hr].
  exists r. split; [done|]. rewrite <-strncmp_cut, Hr by done. naive_solver.
Qed.

Lemma zero_fill_spec s n : (n ≤ length s)%nat → zero_fill s n = Some (replicate n 0 ++ drop n s).
Proof.
  revert s. induction n as [|n IH]; intros [|a s] H; simpl in *; try lia; try done.
  rewrite IH by lia. done.
Qed.

Lemma cut_length n l : (length (cut n l) ≤ n)%nat.
Proof.
  revert l. induction n as [|n IH]; intros [|a l]; simpl; try lia.
  destruct (a =? 0); simpl; [lia|]. specialize (IH l). lia.
Qed.

Lemma cut_cons n c l : c ≠ 0 → cut (S n) (c :: l) = c :: cut n l.
Proof. intros H. simpl. by apply Z.eqb_neq in H as ->. Qed.

Lemma strncpy_run s t n :
  (n ≤ length s)%nat → readable n t →
  strncpy s t n = Some (cut n t ++ replicate (n - length (cut n t)) 0 ++ drop n s).
Proof.
  revert s t. induction n as [|n IH]; intros s t Hs Ht.
  { destruct t; done. }
  destruct s as [|a s]; simpl in Hs; [lia|]. destruct t as [|c t].
  { by apply readable_nil in Ht. }
  cbn [strncpy]. destruct (c =? 0) eqn:Ec.
  - apply Z.eqb_eq in Ec as ->. rewrite zero_fill_spec by lia. done.
  - apply Z.eqb_neq in Ec. rewrite IH, cut_cons; [done|done|lia|by eapply readable_tail].
Qed.

(** [strncpy] into an array of at least [n] characters writes the string
    and fills the rest of the [n] characters with NULs, leaving the characters
    after them. *)
Theorem strncpy_pads s t n :
  (n ≤ length s)%nat → readable n t →
  strncpy s t n = Some (cut n t ++ replicate (n - length (cut n t)) 0 ++ drop n s).
Proof. apply strncpy_run. Qed.

Lemma safestrcpy_run s t n :
  0 < n → (Z.to_nat n ≤ length s)%nat → readable (Z.to_nat (n - 1)) t →
  ∃ s', safestrcpy s t n = Some s' ∧ length s' = length s ∧
    cut (Z.to_nat n) s' = cut (Z.to_nat (n - 1)) t ∧
    s' !! length (cut (Z.to_nat (n - 1)) t) = Some 0 ∧
    drop (Z.to_nat n) s' = drop (Z.to_nat n) s.
Proof.
  intros Hn. unfold safestrcpy. rewrite (proj2 (Z.leb_gt _ _)) by lia.
  replace (Z.to_nat n) with (S (Z.to_nat (n - 1))) by lia.
  generalize (Z.to_nat (n - 1)) as k. clear Hn. intros k. revert s t.
  induction k as [|k IH]; intros [|a s] t Hs Ht; simpl in Hs; try lia.
  - exists (0 :: s). by destruct t.
  - destruct t as [|c t].
    { by apply readable_nil in Ht. }
    cbn [safestrcpy_loop]. destruct (c =? 0) eqn:Ec.
    + apply Z.eqb_eq in Ec as ->. destruct s as [|b s]; [simpl in Hs; lia|].
      by exists (0 :: 0 :: s).
    + apply Z.eqb_neq in Ec.
      destruct (IH s t) as (s' & E & Hl & Hc & H0 & Hd); [lia|by eapply readable_tail|].
      exists (c :: s'). rewrite E, !cut_cons, Hc by done. repeat split; simpl; try done. lia.
Qed.

(** [safestrcpy] into an array of at least [n > 0] characters writes the
    first [n - 1] characters of the string and a NUL after them: the array
    holds a NUL-terminated prefix of the source, and nothing past its first
    [n] characters changes. *)
Theorem safestrcpy_terminates s t n :
  0 < n → (Z.to_nat n ≤ length s)%nat → readable (Z.to_nat (n - 1)) t →
  ∃ s', safestrcpy s t n = Some s' ∧ length s' = length s ∧
    cut (Z.to_nat n) s' = cut (Z.to_nat (n - 1)) t ∧
    s' !! length (cut (Z.to_nat (n - 1)) t) = Some 0 ∧
    drop (Z.to_nat n) s' = drop (Z.to_nat n) s.
Proof. apply safestrcpy_run. Qed.
