(* ===== verification/Memlayout.v ===== *)
(** * Memlayout: addresses and pages (memlayout.h, mmu.h)

    The constants and macros on addresses, with C's [uint] arithmetic, and the
    facts about page rounding that the allocator and the page tables use. *)

From Stdlib Require Import ZArith Lia.
From stdpp Require Import base numbers list.
From S2P Require Import Prelude.
Open Scope Z_scope.

Definition EXTMEM : Z := 0x100000.
Definition PHYSTOP : Z := 0xE000000.
Definition DEVSPACE : Z := 0xFE000000.
Definition KERNBASE : Z := 0x80000000.
Definition KERNLINK : Z := KERNBASE + EXTMEM.

Definition V2P (a : Z) : Z := u32 (a - KERNBASE).
Definition P2V (a : Z) : Z := u32 (a + KERNBASE).

Definition PGSIZE : Z := 4096.
Definition PTXSHIFT : Z := 12.
Definition PDXSHIFT : Z := 22.
Definition NPDENTRIES : nat := 1024.

Definition PDX (va : Z) : Z := Z.land (Z.shiftr (u32 va) PDXSHIFT) 0x3FF.
Definition PTX (va : Z) : Z := Z.land (Z.shiftr (u32 va) PTXSHIFT) 0x3FF.
Definition PGADDR (d t o : Z) : Z := u32 (Z.lor (Z.lor (Z.shiftl d PDXSHIFT) (Z.shiftl t PTXSHIFT)) o).
Definition PGROUNDUP (sz : Z) : Z := Z.land (u32 (sz + PGSIZE - 1)) (u32 (Z.lnot (PGSIZE - 1))).
Definition PGROUNDDOWN (a : Z) : Z := Z.land (u32 a) (u32 (Z.lnot (PGSIZE - 1))).

Definition PTE_P : Z := 0x001.
Definition PTE_W : Z := 0x002.
Definition PTE_U : Z := 0x004.
Definition PTE_ADDR (pte : Z) : Z := Z.land (u32 pte) (u32 (Z.lnot 0xFFF)).
Definition PTE_FLAGS (pte : Z) : Z := Z.land (u32 pte) 0xFFF.

(** ** Rounding *)

(** Clearing the low 12 bits of a word. *)
Lemma clear_low_bits x : 0 ≤ x < 2 ^ 32 → Z.land x (u32 (Z.lnot 0xFFF)) = x - x mod PGSIZE.
Proof.
  intros Hx.
  assert (E : Z.land x (u32 (Z.lnot 0xFFF)) = Z.ldiff x (Z.ones 12)).
  { apply Z.bits_inj'. intros n Hn. rewrite Z.land_spec, Z.ldiff_spec.
    change (u32 (Z.lnot 0xFFF)) with (Z.shiftl (Z.ones 20) 12).
    rewrite Z.shiftl_spec, (Z.testbit_ones_nonneg 12) by lia.
    destruct (Z.ltb_spec n 12).
    - rewrite (Z.testbit_neg_r _ (n - 12)) by lia. cbn. by rewrite andb_false_r.
    - rewrite (Z.testbit_ones_nonneg 20) by lia. rewrite andb_true_r.
      destruct (Z.ltb_spec (n - 12) 20); [by rewrite andb_true_r|].
      rewrite (Z.bits_above_log2 x n); [done|lia|].
      destruct (decide (x = 0)) as [->|]; [cbn; lia|]. apply Z.log2_lt_pow2; [lia|].
      assert (2 ^ 32 ≤ 2 ^ n) by (apply Z.pow_le_mono_r; lia). lia. }
  rewrite E, Z.ldiff_ones_r by lia. rewrite Z.shiftr_div_pow2, Z.shiftl_mul_pow2 by lia.
  pose proof (Z.div_mod x PGSIZE). unfold PGSIZE in *. change (2 ^ 12) with 4096. lia.
Qed.

Lemma PGROUNDDOWN_spec a : 0 ≤ a < 2 ^ 32 → PGROUNDDOWN a = a - a mod PGSIZE.
Proof. intros. unfold PGROUNDDOWN. rewrite u32_small by done. by apply clear_low_bits. Qed.

Lemma PTE_ADDR_spec a : 0 ≤ a < 2 ^ 32 → PTE_ADDR a = a - a mod PGSIZE.
Proof. intros. unfold PTE_ADDR. rewrite u32_small by done. by apply clear_low_bits. Qed.

Lemma PGROUNDUP_spec sz :
  0 ≤ sz → sz + PGSIZE - 1 < 2 ^ 32 →
  PGROUNDUP sz mod PGSIZE = 0 ∧ sz ≤ PGROUNDUP sz < sz + PGSIZE.
Proof.
  intros H0 H1.
  assert (E : PGROUNDUP sz = (sz + PGSIZE - 1) / PGSIZE * PGSIZE).
  { unfold PGROUNDUP. rewrite u32_small by (unfold PGSIZE in *; lia).
    change (u32 (Z.lnot (PGSIZE - 1))) with (u32 (Z.lnot 0xFFF)).
    rewrite clear_low_bits by (unfold PGSIZE in *; lia).
    pose proof (Z.div_mod (sz + PGSIZE - 1) PGSIZE). unfold PGSIZE in *. lia. }
  rewrite E. split; [by apply Z.mod_mul|].
  unfold PGSIZE in *. pose proof (Z.div_mod (sz + 4096 - 1) 4096).
  pose proof (Z.mod_pos_bound (sz + 4096 - 1) 4096). lia.
Qed.
