(* ===== verification/Mp.v ===== *)
(** * Mp: the processors of the machine (mp.c, mp.h)

    The tables of the BIOS are in memory, a function from kernel addresses to
    bytes.  [mpinit_spec] describes the scan of the configuration table: an
    entry of unknown type is not skipped, so the scan never ends. *)

From Stdlib Require Import ZArith Lia.
From stdpp Require Import base numbers strings gmap list.
From S2P Require Import Prelude CString Memlayout.
Open Scope Z_scope.

Definition NCPU : nat := 8.
Definition MPPROC : Z := 0.
Definition MPBUS : Z := 1.
Definition MPIOAPIC : Z := 2.
Definition MPIOINTR : Z := 3.
Definition MPLINTR : Z := 4.

(** [sizeof] of the structures of mp.h. *)
Definition MP : Z := 16.
Definition MPCONF : Z := 44.
Definition MPPROC_SIZE : Z := 20.
Definition MPIOAPIC_SIZE : Z := 8.

(** ["_MP_"] and ["PCMP"]. *)
Definition MP_SIGNATURE : list Z := [95; 77; 80; 95].
Definition PCMP_SIGNATURE : list Z := [80; 67; 77; 80].

Record mpstate : Type := MpState {
  cpus : list Z; (** [apicid] of the [NCPU] processors *)
  ncpu : nat;
  ioapicid : Z;
  lapic : Z;
  imcr : Z; (** the port 0x23 *)
}.
Definition set_ioapicid v s := MpState (cpus s) (ncpu s) v (lapic s) (imcr s).
Definition set_lapic v s := MpState (cpus s) (ncpu s) (ioapicid s) v (imcr s).
Definition set_imcr v s := MpState (cpus s) (ncpu s) (ioapicid s) (lapic s) v.

Section Tables.
Context (m : memory).

Fixpoint sum_loop (n : nat) (addr sum : Z) : Z :=
  match n with
  | O => sum
  | S n => sum_loop n (addr + 1) (s32 (sum + m addr))
  end.
Definition sum (addr len : Z) : Z := u8 (sum_loop (Z.to_nat len) addr 0).

(** [memcmp(p, l, length l) == 0]. *)
Definition has_bytes (p : Z) (l : list Z) : bool :=
  bool_decide ((λ i, m (p + Z.of_nat i)) <$> seq 0 (length l) = l).

Fixpoint search_loop (fuel : nat) (p e : Z) : option Z :=
  match fuel with
  | O => None
  | S fuel =>
      if p <? e then
        if has_bytes p MP_SIGNATURE && (sum p MP =? 0) then Some p else search_loop fuel (p + MP) e
      else None
  end.
Definition mpsearch1 (a len : Z) : option Z :=
  let addr := P2V a in
  search_loop (Z.to_nat len) addr (addr + len).

Definition mpsearch : option Z :=
  let bda := P2V 0x400 in
  let p := Z.shiftl (Z.lor (Z.shiftl (m (bda + 0x0F)) 8) (m (bda + 0x0E))) 4 in
  let first :=
    if negb (p =? 0) then mpsearch1 p 1024
    else mpsearch1 (u32 (Z.lor (Z.shiftl (m (bda + 0x14)) 8) (m (bda + 0x13)) * 1024 - 1024)) 1024 in
  match first with
  | Some mp => Some mp
  | None => mpsearch1 0xF0000 0x10000
  end.

(** The fields that are used. *)
Definition mp_physaddr (mp : Z) : Z := mword m 4 (mp + 4).
Definition mp_imcrp (mp : Z) : Z := m (mp + 12).
Definition conf_length (conf : Z) : Z := mword m 2 (conf + 4).
Definition conf_version (conf : Z) : Z := m (conf + 6).
Definition conf_lapicaddr (conf : Z) : Z := mword m 4 (conf + 36).

Definition mpconfig : option (Z * Z) :=
  mp ← mpsearch;
  if mp_physaddr mp =? 0 then None else
  let conf := P2V (mp_physaddr mp) in
  if negb (has_bytes conf PCMP_SIGNATURE) then None else
  if negb (conf_version conf =? 1) && negb (conf_version conf =? 4) then None else
  if negb (sum conf (conf_length conf) =? 0) then None else
  Some (mp, conf).

(** The loop over the entries; the [break] of the default case leaves the
    [switch] only. *)
Fixpoint mpinit_loop (fuel : nat) (p e : Z) (ismp : bool) : K mpstate bool :=
  match fuel with
  | O => nofuel
  | S fuel =>
      if p <? e then
        if m p =? MPPROC then
          s ← gets (λ s, s);
          (if (ncpu s <? NCPU)%nat then
             modify (λ s, MpState (<[ncpu s:=m (p + 1)]> (cpus s)) (S (ncpu s)) (ioapicid s) (lapic s) (imcr s))
           else mret tt);;
          mpinit_loop fuel (p + MPPROC_SIZE) e ismp
        else if m p =? MPIOAPIC then
          modify (set_ioapicid (m (p + 1)));;
          mpinit_loop fuel (p + MPIOAPIC_SIZE) e ismp
        else if (m p =? MPBUS) || (m p =? MPIOINTR) || (m p =? MPLINTR) then mpinit_loop fuel (p + 8) e ismp
        else mpinit_loop fuel p e false
      else mret ismp
  end.

Definition mpinit (fuel : nat) : K mpstate unit :=
  match mpconfig with
  | None => panic "Expect to run on an SMP"
  | Some (mp, conf) =>
      modify (set_lapic (conf_lapicaddr conf));;
      ismp ← mpinit_loop fuel (conf + MPCONF) (conf + conf_length conf) true;
      if negb ismp then panic "Didn't find a suitable machine" else
      if negb (mp_imcrp mp =? 0) then modify (λ s, set_imcr (Z.lor (imcr s) 1) s) else mret tt
  end.
(** ** The search *)

(** A floating pointer structure: signature and checksum. *)
Definition is_mp (p : Z) : bool := has_bytes p MP_SIGNATURE && (sum p MP =? 0).

Lemma search_loop_spec fuel p e : e - p ≤ MP * Z.of_nat fuel →
  match search_loop fuel p e with
  | Some q => ∃ k : nat, q = p + MP * Z.of_nat k ∧ q < e ∧ is_mp q = true ∧ ∀ j : nat, (j < k)%nat → is_mp (p + MP * Z.of_nat j) = false
  | None => ∀ j : nat, p + MP * Z.of_nat j < e → is_mp (p + MP * Z.of_nat j) = false
  end.
Proof.
  unfold MP. revert p. induction fuel as [|fuel IH]; intros p Hf; cbn [search_loop]; [intros j Hj; lia|].
  destruct (Z.ltb_spec p e); [|intros j Hj; lia]. fold (is_mp p). destruct (is_mp p) eqn:Ep.
  { exists 0%nat. rewrite Z.mul_0_r, Z.add_0_r. split; [done|]. split; [done|]. split; [done|]. lia. }
  unfold MP. specialize (IH (p + 16)). destruct (search_loop fuel (p + 16) e) as [q|].
  - destruct IH as (k & Hq & He & Hm & Hall); [lia|]. exists (S k). split; [lia|]. split; [done|]. split; [done|].
    intros [|j] Hj; [by rewrite Z.mul_0_r, Z.add_0_r|]. replace (p + 16 * Z.of_nat (S j)) with (p + 16 + 16 * Z.of_nat j) by lia.
    apply Hall. lia.
  - intros [|j] Hj; [by rewrite Z.mul_0_r, Z.add_0_r|]. replace (p + 16 * Z.of_nat (S j)) with (p + 16 + 16 * Z.of_nat j) by lia.
    apply IH; lia.
Qed.

(** ** The configuration table *)

Inductive entry : Type :=
| EProc (apicid : Z)
| EIoapic (apicno : Z)
| EOther. (** a bus or an interrupt source *)

(** The entry at [p]; [None] is an unknown type. *)
Definition entry_at (p : Z) : option entry :=
  if m p =? MPPROC then Some (EProc (m (p + 1)))
  else if m p =? MPIOAPIC then Some (EIoapic (m (p + 1)))
  else if (m p =? MPBUS) || (m p =? MPIOINTR) || (m p =? MPLINTR) then Some EOther
  else None.
Definition entry_size (x : entry) : Z := match x with EProc _ => MPPROC_SIZE | _ => 8 end.

(** The entries [es] lie one after the other from [p] to [q], each starting
    below [e]. *)
Inductive entries (e : Z) : Z → list entry → Z → Prop :=
| entries_nil p : entries e p [] p
| entries_cons p x es q : p < e → entry_at p = Some x → entries e (p + entry_size x) es q → entries e p (x :: es) q.

Definition procs (es : list entry) : list Z := omap (λ x, match x with EProc i => Some i | _ => None end) es.
Definition ioapics (es : list entry) : list Z := omap (λ x, match x with EIoapic i => Some i | _ => None end) es.

Lemma entries_total e p : ∃ es q, entries e p es q ∧ (e ≤ q ∨ q < e ∧ entry_at q = None).
Proof.
  remember (Z.to_nat (e - p)) as n eqn:Hn. revert p Hn. induction (lt_wf n) as [n _ IH]. intros p ->.
  destruct (Z.lt_ge_cases p e) as [Hp|Hp]; [|exists [], p; split; [constructor|lia]].
  destruct (entry_at p) as [x|] eqn:Ex; [|exists [], p; split; [constructor|by right]].
  assert (0 < entry_size x) by (destruct x; done).
  destruct (IH (Z.to_nat (e - (p + entry_size x))) ltac:(lia) (p + entry_size x) eq_refl) as (es & q & Hes & Hq).
  exists (x :: es), q. split; [by econstructor|done].
Qed.

(** There is only one such sequence. *)
Lemma entries_det e p es q es' q' : entries e p es q → (e ≤ q ∨ entry_at q = None) →
  entries e p es' q' → (e ≤ q' ∨ entry_at q' = None) → es = es' ∧ q = q'.
Proof.
  intros H Hq. revert es'. induction H as [p|p x es q Hp Hx _ IH]; intros es' H' Hq'; destruct H' as [p|p x' es' q' Hp' Hx' H']; try done.
  - destruct Hq; [lia|congruence].
  - destruct Hq'; [lia|congruence].
  - rewrite Hx in Hx'. injection Hx' as <-. by destruct (IH Hq es' H' Hq') as [-> ->].
Qed.

(** What an entry does to the tables of the kernel. *)
Definition enter (x : entry) (s : mpstate) : mpstate :=
  match x with
  | EProc i =>
      if (ncpu s <? NCPU)%nat
      then MpState (<[ncpu s:=i]> (cpus s)) (S (ncpu s)) (ioapicid s) (lapic s) (imcr s) else s
  | EIoapic i => set_ioapicid i s
  | EOther => s
  end.
Definition enter_all (es : list entry) (s : mpstate) : mpstate := fold_left (λ s x, enter x s) es s.

Lemma mpinit_loop_entry fuel p e ismp s x : p < e → entry_at p = Some x →
  mpinit_loop (S fuel) p e ismp s = mpinit_loop fuel (p + entry_size x) e ismp (enter x s).
Proof.
  intros Hp. unfold entry_at. cbn [mpinit_loop]. rewrite (proj2 (Z.ltb_lt _ _) Hp).
  destruct (m p =? MPPROC); [intros [= <-]|destruct (m p =? MPIOAPIC); [intros [= <-]|destruct (_ || _); [intros [= <-]|done]]]; try done.
  erewrite K_bind_Ret; [|reflexivity]. cbn [enter entry_size]. by destruct (ncpu s <? NCPU)%nat.
Qed.

Lemma mpinit_loop_entries e p es q ismp s fuel : entries e p es q →
  mpinit_loop (length es + fuel) p e ismp s = mpinit_loop fuel q e ismp (enter_all es s).
Proof.
  intros Hes. revert s. induction Hes as [|p x es q Hp Hx _ IH]; intros s; [done|].
  cbn [length Nat.add]. rewrite (mpinit_loop_entry _ _ _ _ _ x) by done. apply IH.
Qed.

Lemma mpinit_loop_unknown fuel p e ismp s : p < e → entry_at p = None → mpinit_loop fuel p e ismp s = NoFuel.
Proof.
  intros Hp Hx. revert ismp. induction fuel as [|fuel IH]; intros ismp; [done|].
  cbn [mpinit_loop]. rewrite (proj2 (Z.ltb_lt _ _) Hp). unfold entry_at in Hx.
  destruct (m p =? MPPROC); [done|]. destruct (m p =? MPIOAPIC); [done|]. by destruct (_ || _).
Qed.

(** Running out of fuel earlier is the same. *)
Lemma mpinit_loop_stuck e p es q ismp s fuel : entries e p es q → q < e → entry_at q = None →
  mpinit_loop fuel p e ismp s = NoFuel.
Proof.
  intros Hes Hq Hx. revert s fuel. induction Hes as [|p x es q Hp Hpx _ IH]; intros s fuel; [by apply mpinit_loop_unknown|].
  destruct fuel as [|fuel]; [done|]. rewrite (mpinit_loop_entry _ _ _ _ _ x) by done. by apply IH.
Qed.

(** The processors and the I/O APIC found. *)
Lemma enter_all_spec es s : length (cpus s) = NCPU → (ncpu s ≤ NCPU)%nat →
  let s' := enter_all es s in
  ncpu s' = (NCPU `min` (ncpu s + length (procs es)))%nat ∧ length (cpus s') = NCPU ∧
  take (ncpu s') (cpus s') = take NCPU (take (ncpu s) (cpus s) ++ procs es) ∧
  ioapicid s' = default (ioapicid s) (last (ioapics es)) ∧ lapic s' = lapic s ∧ imcr s' = imcr s.
Proof.
  revert s. induction es as [|x es IH]; intros s Hlen Hn.
  { cbn -[NCPU take Nat.min]. rewrite app_nil_r, Nat.add_0_r. split; [lia|]. split; [done|]. split; [|done]. by rewrite take_take, Nat.min_r by lia. }
  destruct x as [i|i|]; cbn [enter_all fold_left enter].
  - destruct (Nat.ltb_spec (ncpu s) NCPU) as [Hlt|Hge].
    + specialize (IH (MpState (<[ncpu s:=i]> (cpus s)) (S (ncpu s)) (ioapicid s) (lapic s) (imcr s))). cbn [cpus ncpu ioapicid lapic imcr] in IH.
      rewrite length_insert in IH. destruct (IH Hlen ltac:(lia)) as (H1 & H2 & H3 & H4). unfold enter_all in *.
      split; [rewrite H1; cbn [procs omap list_omap length]; fold (procs es); lia|]. split; [done|]. split; [|done].
      rewrite H3. f_equal. rewrite (take_S_r _ _ i) by (apply list_lookup_insert_eq; by rewrite Hlen).
      rewrite take_insert_ge by lia. by rewrite <- app_assoc.
    + destruct (IH s Hlen Hn) as (H1 & H2 & H3 & H4). unfold enter_all in *. assert (Hn8 : ncpu s = NCPU) by lia.
      split; [rewrite H1; cbn [procs omap list_omap length]; fold (procs es); lia|]. split; [done|]. split; [|done].
      rewrite H3, Hn8. rewrite !take_app_le by (rewrite length_take; lia). done.
  - destruct (IH (set_ioapicid i s) Hlen Hn) as (H1 & H2 & H3 & H4 & H5). unfold enter_all in *.
    split; [done|]. split; [done|]. split; [done|]. split; [|done]. rewrite H4. cbn [ioapics omap list_omap ioapicid set_ioapicid]. fold (ioapics es).
    rewrite last_cons. by destruct (last (ioapics es)).
  - apply (IH s Hlen Hn).
Qed.

Lemma mpsearch_valid mp : mpsearch = Some mp → is_mp mp = true.
Proof.
  assert (H1 : ∀ a len, 0 ≤ len → mpsearch1 a len = Some mp → is_mp mp = true).
  { intros a len Hlen H. pose proof (search_loop_spec (Z.to_nat len) (P2V a) (P2V a + len)) as Hs. unfold mpsearch1 in H. rewrite H in Hs.
    destruct Hs as (k & _ & _ & Hm & _); [unfold MP; lia|done]. }
  unfold mpsearch. destruct (negb _).
  - destruct (mpsearch1 _ 1024) eqn:E; [intros [= <-]; by eapply (H1 _ 1024)|apply H1; lia].
  - destruct (mpsearch1 _ 1024) eqn:E; [intros [= <-]; by eapply (H1 _ 1024)|apply H1; lia].
Qed.

Lemma mpconfig_valid mp conf : mpconfig = Some (mp, conf) →
  is_mp mp = true ∧ conf = P2V (mp_physaddr mp) ∧ has_bytes conf PCMP_SIGNATURE = true ∧ sum conf (conf_length conf) = 0.
Proof.
  unfold mpconfig. destruct mpsearch as [mp'|] eqn:Es; [|done]. cbn [mbind option_bind]. destruct (mp_physaddr mp' =? 0); [done|].
  destruct (has_bytes _ _) eqn:Eh; [|done]. cbn [negb]. destruct (_ && _); [done|].
  destruct (Z.eqb_spec (sum (P2V (mp_physaddr mp')) (conf_length (P2V (mp_physaddr mp')))) 0); [|done].
  intros [= <- <-]. split; [by apply mpsearch_valid|done].
Qed.

(** C39: The discovery of processors.  Whatever the memory holds, [mpinit]
    panics when it finds no table, and the table it finds has its signatures
    and checksums right.  The table is a sequence of entries up to its end or
    up to an entry of unknown type.  In the first case [mpinit] returns, with
    the local APIC ids of the first [NCPU] processors in the order of the
    table, the last I/O APIC, and external interrupts masked if the machine
    has the register.  In the second case it loops for ever, so the panic
    after the loop is never reached. *)
Theorem mpinit_spec s : length (cpus s) = NCPU → ncpu s = 0%nat →
  match mpconfig with
  | None => ∀ fuel, mpinit fuel s = Panic "Expect to run on an SMP"
  | Some (mp, conf) =>
      is_mp mp = true ∧ has_bytes conf PCMP_SIGNATURE = true ∧ sum conf (conf_length conf) = 0 ∧
      ∃ es q, entries (conf + conf_length conf) (conf + MPCONF) es q ∧
        if conf + conf_length conf <=? q then
          ∀ fuel, (length es < fuel)%nat → ∃ s', mpinit fuel s = Ret tt s' ∧
            ncpu s' = (NCPU `min` length (procs es))%nat ∧ take (ncpu s') (cpus s') = take NCPU (procs es) ∧
            ioapicid s' = default (ioapicid s) (last (ioapics es)) ∧ lapic s' = conf_lapicaddr conf ∧
            imcr s' = (if mp_imcrp mp =? 0 then imcr s else Z.lor (imcr s) 1)
        else entry_at q = None ∧ ∀ fuel, mpinit fuel s = NoFuel
  end.
Proof.
  intros Hlen Hn. unfold mpinit. destruct mpconfig as [[mp conf]|] eqn:Ec; [|done].
  destruct (mpconfig_valid mp conf Ec) as (Hmp & _ & Hsig & Hsum). do 3 (split; [done|]).
  destruct (entries_total (conf + conf_length conf) (conf + MPCONF)) as (es & q & Hes & Hq). exists es, q. split; [done|].
  set (s1 := set_lapic (conf_lapicaddr conf) s). destruct (Z.leb_spec (conf + conf_length conf) q) as [Hle|Hlt].
  - intros fuel Hf. erewrite K_bind_Ret; [|reflexivity]. fold s1. destruct (enter_all_spec es s1 Hlen) as (H1 & _ & H3 & H4 & H5 & H6); [cbn; rewrite Hn; lia|].
    cbn [ncpu cpus s1 set_lapic] in H1, H3. rewrite Hn in H1, H3. set (s2 := enter_all es s1) in *.
    erewrite K_bind_Ret. 2:{ replace fuel with (length es + S (pred (fuel - length es)))%nat by lia. rewrite (mpinit_loop_entries _ _ _ _ _ _ _ Hes).
      cbn [mpinit_loop]. rewrite (proj2 (Z.ltb_ge _ _) Hle). reflexivity. }
    cbn [negb]. destruct (mp_imcrp mp =? 0); eexists; (split; [reflexivity|]); cbn [ncpu cpus ioapicid lapic imcr set_imcr];
      split_and!; try done; exact (f_equal (λ v, Z.lor v 1) H6).
  - destruct Hq as [Hq|[_ Hx]]; [lia|]. split; [done|]. intros fuel. erewrite K_bind_Ret; [|reflexivity].
    kred. by rewrite (mpinit_loop_stuck _ _ _ _ _ _ fuel Hes Hlt Hx).
Qed.

End Tables.

(** A table of two processors and an I/O APIC. *)
Definition wit_conf : list Z :=
  PCMP_SIGNATURE ++ [92; 0; 4; 132] ++ replicate 28 0 ++ [0; 0; 224; 254] ++ replicate 4 0 ++
  [0; 0] ++ replicate 18 0 ++ [0; 5] ++ replicate 18 0 ++ [2; 7; 0; 0; 0; 0; 0; 0].
Definition wit_mp : list Z := MP_SIGNATURE ++ [16; 0; 15; 0] ++ [1; 4; 129; 0; 0; 0; 0; 0].
Definition wit_memory : memory := λ a, nth (Z.to_nat (a - P2V 0xF0000)) (wit_mp ++ wit_conf) 0.

Lemma mpinit_spec_witness : ∃ s', mpinit wit_memory 100 (MpState (replicate NCPU 0) 0 0 0 0) = Ret tt s' ∧
  ncpu s' = 2%nat ∧ take 2 (cpus s') = [0; 5] ∧ ioapicid s' = 7 ∧ lapic s' = 0xFEE00000.
Proof.
  pose proof (mpinit_spec wit_memory (MpState (replicate NCPU 0) 0 0 0 0) eq_refl eq_refl) as H.
  assert (Hc : mpconfig wit_memory = Some (P2V 0xF0000, P2V 0xF0010)) by (vm_compute; reflexivity). rewrite Hc in H.
  destruct H as (_ & _ & _ & es & q & Hes & H).
  assert (Hes' : entries wit_memory (P2V 0xF0010 + 92) (P2V 0xF0010 + MPCONF) [EProc 0; EProc 5; EIoapic 7] (P2V 0xF0010 + 92)).
  { do 3 (econstructor; [vm_compute; reflexivity|vm_compute; reflexivity|]). constructor. }
  change (conf_length wit_memory (P2V 0xF0010)) with 92 in *.
  assert (es = [EProc 0; EProc 5; EIoapic 7] ∧ q = P2V 0xF0010 + 92) as [-> ->].
  { eapply entries_det; [exact Hes| |exact Hes'|left; lia]. destruct (Z.leb_spec (P2V 0xF0010 + 92) q); [by left|right; apply H]. }
  rewrite (proj2 (Z.leb_le _ _)) in H by lia. destruct (H 100%nat) as (s' & E & H1 & H2 & H3 & H4 & _); [cbn; lia|].
  exists s'. rewrite H1 in H2. by split_and!.
Defined.
