(* ===== verification/Seg.v ===== *)
(** * Seg: segments, gates and the task state (mmu.h, [seginit] and
    [switchuvm] of vm.c, [tvinit] of trap.c)

    A descriptor is the list of the bit fields of its struct, with their
    widths, in the order of declaration; [pack] is its memory as the compiler
    lays it out, from the lowest bit up.  The processor reads the fields at
    the bit positions of its manual.  [user_entry_points] is about what the
    processor reads. *)

From Stdlib Require Import ZArith Lia.
From stdpp Require Import base numbers strings gmap list.
From S2P Require Import Prelude.
Open Scope Z_scope.

Definition SEG_KCODE : Z := 1.
Definition SEG_KDATA : Z := 2.
Definition SEG_UCODE : Z := 3.
Definition SEG_UDATA : Z := 4.
Definition SEG_TSS : Z := 5.
Definition NSEGS : nat := 6.
Definition DPL_USER : Z := 3.
Definition STA_X : Z := 0x8.
Definition STA_W : Z := 0x2.
Definition STA_R : Z := 0x2.
Definition STS_T32A : Z := 0x9.
Definition STS_IG32 : Z := 0xE.
Definition STS_TG32 : Z := 0xF.
Definition T_SYSCALL : Z := 64.

(** ** Bit fields *)

Definition fields : Type := list (Z * Z).
Fixpoint pack (l : fields) : Z :=
  match l with
  | [] => 0
  | (w, x) :: l => x mod 2 ^ w + 2 ^ w * pack l
  end.

Definition segdesc (lim_15_0 base_15_0 base_23_16 type s dpl p lim_19_16 avl rsv1 db g base_31_24 : Z) : fields :=
  [(16, lim_15_0); (16, base_15_0); (8, base_23_16); (4, type); (1, s); (2, dpl); (1, p); (4, lim_19_16);
   (1, avl); (1, rsv1); (1, db); (1, g); (8, base_31_24)].
Definition SEG (type base lim dpl : Z) : fields :=
  segdesc (Z.land (Z.shiftr lim 12) 0xffff) (Z.land base 0xffff) (Z.land (Z.shiftr base 16) 0xff)
    type 1 dpl 1 (Z.shiftr lim 28) 0 0 1 1 (Z.shiftr base 24).
Definition SEG16 (type base lim dpl : Z) : fields :=
  segdesc (Z.land lim 0xffff) (Z.land base 0xffff) (Z.land (Z.shiftr base 16) 0xff)
    type 1 dpl 1 (Z.shiftr lim 16) 0 0 1 0 (Z.shiftr base 24).
(** [d.s = v]. *)
Definition set_s (v : Z) (d : fields) : fields := <[4%nat:=(1, v)]> d.

Definition gatedesc (off_15_0 cs args rsv1 type s dpl p off_31_16 : Z) : fields :=
  [(16, off_15_0); (16, cs); (5, args); (3, rsv1); (4, type); (1, s); (2, dpl); (1, p); (16, off_31_16)].
Definition SETGATE (istrap : bool) (sel off d : Z) : fields :=
  gatedesc (Z.land off 0xffff) sel 0 0 (if istrap then STS_TG32 else STS_IG32) 0 d 1 (Z.shiftr off 16).

(** ** Initialisation *)

(** The fields of [struct cpu] and [struct taskstate] that are set; [sizeof]
    the latter is 104. *)
Record cpu : Type := Cpu {
  c_gdt : list fields;
  c_ss0 : Z;
  c_esp0 : Z;
  c_iomb : Z;
}.
Definition TASKSTATE : Z := 104.
Definition KSTACKSIZE : Z := 4096.
Definition set_gdt (i : Z) (d : fields) (c : cpu) : cpu :=
  Cpu (<[Z.to_nat i:=d]> (c_gdt c)) (c_ss0 c) (c_esp0 c) (c_iomb c).

Definition seginit (c : cpu) : cpu :=
  let c := set_gdt SEG_KCODE (SEG (Z.lor STA_X STA_R) 0 0xffffffff 0) c in
  let c := set_gdt SEG_KDATA (SEG STA_W 0 0xffffffff 0) c in
  let c := set_gdt SEG_UCODE (SEG (Z.lor STA_X STA_R) 0 0xffffffff DPL_USER) c in
  set_gdt SEG_UDATA (SEG STA_W 0 0xffffffff DPL_USER) c.

(** The part of [switchuvm] on the processor; [ts] is the address of the task
    state. *)
Definition switchuvm_seg (ts kstack : Z) (c : cpu) : cpu :=
  let c := set_gdt SEG_TSS (SEG16 STS_T32A ts (TASKSTATE - 1) 0) c in
  let c := set_gdt SEG_TSS (set_s 0 (default [] (c_gdt c !! Z.to_nat SEG_TSS))) c in
  Cpu (c_gdt c) (Z.shiftl SEG_KDATA 3) (u32 (kstack + KSTACKSIZE)) 0xFFFF.

Definition tvinit (vectors : Z → Z) : list fields :=
  let idt := (λ i, SETGATE false (Z.shiftl SEG_KCODE 3) (vectors i) 0) <$> seqZ 0 256 in
  <[Z.to_nat T_SYSCALL:=SETGATE true (Z.shiftl SEG_KCODE 3) (vectors T_SYSCALL) DPL_USER]> idt.

(** ** What the processor reads *)

Definition bits (a w d : Z) : Z := (d / 2 ^ a) mod 2 ^ w.
Definition d_base (d : Z) : Z := bits 16 16 d + 2 ^ 16 * bits 32 8 d + 2 ^ 24 * bits 56 8 d.
Definition d_limit (d : Z) : Z :=
  let l := bits 0 16 d + 2 ^ 16 * bits 48 4 d in
  if bits 55 1 d =? 1 then l * 4096 + 4095 else l.
Definition d_type (d : Z) : Z := bits 40 4 d.
Definition d_s (d : Z) : Z := bits 44 1 d.
Definition d_dpl (d : Z) : Z := bits 45 2 d.
Definition d_present (d : Z) : Z := bits 47 1 d.
Definition g_offset (d : Z) : Z := bits 0 16 d + 2 ^ 16 * bits 48 16 d.
Definition g_selector (d : Z) : Z := bits 16 16 d.

(** The field at a position. *)
Fixpoint position (l : fields) (i : nat) : Z :=
  match i, l with
  | S i, (w, _) :: l => w + position l i
  | _, _ => 0
  end.
Lemma position_nonneg l i : Forall (λ f, 0 ≤ f.1) l → 0 ≤ position l i.
Proof. intros Hl. revert i. induction Hl as [|[w x] l Hw _ IH]; intros [|i]; cbn; try lia. specialize (IH i). cbn in Hw. lia. Qed.
Lemma pack_field l i w x : Forall (λ f, 0 ≤ f.1) l → l !! i = Some (w, x) → bits (position l i) w (pack l) = x mod 2 ^ w.
Proof.
  intros Hl. revert i. induction Hl as [|[w0 x0] l Hw Hl IH]; intros i Hi; [done|]. cbn [fst] in Hw.
  pose proof (Z.pow_pos_nonneg 2 w0 ltac:(lia) Hw). destruct i as [|i]; cbn [position pack] in *.
  - injection Hi as <- <-. unfold bits. rewrite Z.pow_0_r, Z.div_1_r, (Z.mul_comm (2 ^ w0)), Z_mod_plus_full. apply Z.mod_mod. lia.
  - rewrite <- (IH i Hi). unfold bits. pose proof (position_nonneg l i Hl). rewrite Z.pow_add_r by done.
    rewrite <- Z.div_div by (try apply Z.pow_pos_nonneg; lia). do 2 f_equal.
    rewrite Z.add_comm, (Z.mul_comm (2 ^ w0)), Z.div_add_l, Z.div_small by (try apply Z.mod_pos_bound; lia). lia.
Qed.

Lemma widths_seg a b c d e f g h i j k l m : Forall (λ f, 0 ≤ f.1) (segdesc a b c d e f g h i j k l m).
Proof. repeat (constructor; [cbn; lia|]). constructor. Qed.
Lemma widths_gate a b c d e f g h i : Forall (λ f, 0 ≤ f.1) (gatedesc a b c d e f g h i).
Proof. repeat (constructor; [cbn; lia|]). constructor. Qed.

(** The fields of a descriptor where the processor reads them. *)
Lemma segdesc_bits l0 b0 b1 ty s dpl p l1 avl r db g b2 :
  let d := pack (segdesc l0 b0 b1 ty s dpl p l1 avl r db g b2) in
  d_base d = b0 mod 2 ^ 16 + 2 ^ 16 * (b1 mod 2 ^ 8) + 2 ^ 24 * (b2 mod 2 ^ 8) ∧
  d_limit d = (let l := l0 mod 2 ^ 16 + 2 ^ 16 * (l1 mod 2 ^ 4) in if g mod 2 ^ 1 =? 1 then l * 4096 + 4095 else l) ∧
  d_type d = ty mod 2 ^ 4 ∧ d_s d = s mod 2 ^ 1 ∧ d_dpl d = dpl mod 2 ^ 2 ∧ d_present d = p mod 2 ^ 1.
Proof.
  intros d. assert (H : ∀ i w x a, segdesc l0 b0 b1 ty s dpl p l1 avl r db g b2 !! i = Some (w, x) →
    position (segdesc l0 b0 b1 ty s dpl p l1 avl r db g b2) i = a → bits a w d = x mod 2 ^ w).
  { intros i w x a Hi <-. apply pack_field; [apply widths_seg|done]. }
  unfold d_base, d_limit, d_type, d_s, d_dpl, d_present. cbv zeta.
  rewrite (H 0%nat 16 l0 0 eq_refl eq_refl), (H 1%nat 16 b0 16 eq_refl eq_refl), (H 2%nat 8 b1 32 eq_refl eq_refl),
    (H 3%nat 4 ty 40 eq_refl eq_refl), (H 4%nat 1 s 44 eq_refl eq_refl), (H 5%nat 2 dpl 45 eq_refl eq_refl),
    (H 6%nat 1 p 47 eq_refl eq_refl), (H 7%nat 4 l1 48 eq_refl eq_refl), (H 11%nat 1 g 55 eq_refl eq_refl), (H 12%nat 8 b2 56 eq_refl eq_refl).
  done.
Qed.

Lemma gatedesc_bits o0 cs args r ty s dpl p o1 :
  let d := pack (gatedesc o0 cs args r ty s dpl p o1) in
  g_offset d = o0 mod 2 ^ 16 + 2 ^ 16 * (o1 mod 2 ^ 16) ∧ g_selector d = cs mod 2 ^ 16 ∧
  d_type d = ty mod 2 ^ 4 ∧ d_s d = s mod 2 ^ 1 ∧ d_dpl d = dpl mod 2 ^ 2 ∧ d_present d = p mod 2 ^ 1.
Proof.
  intros d. assert (H : ∀ i w x a, gatedesc o0 cs args r ty s dpl p o1 !! i = Some (w, x) →
    position (gatedesc o0 cs args r ty s dpl p o1) i = a → bits a w d = x mod 2 ^ w).
  { intros i w x a Hi <-. apply pack_field; [apply widths_gate|done]. }
  unfold g_offset, g_selector, d_type, d_s, d_dpl, d_present.
  rewrite (H 0%nat 16 o0 0 eq_refl eq_refl), (H 1%nat 16 cs 16 eq_refl eq_refl), (H 4%nat 4 ty 40 eq_refl eq_refl),
    (H 5%nat 1 s 44 eq_refl eq_refl), (H 6%nat 2 dpl 45 eq_refl eq_refl), (H 7%nat 1 p 47 eq_refl eq_refl), (H 8%nat 16 o1 48 eq_refl eq_refl).
  done.
Qed.

(** An address split over the fields is put together again. *)
Lemma split_address x : 0 ≤ x < 2 ^ 32 →
  Z.land x 0xffff mod 2 ^ 16 + 2 ^ 16 * (Z.land (Z.shiftr x 16) 0xff mod 2 ^ 8) + 2 ^ 24 * (Z.shiftr x 24 mod 2 ^ 8) = x ∧
  Z.land x 0xffff mod 2 ^ 16 + 2 ^ 16 * (Z.shiftr x 16 mod 2 ^ 16) = x.
Proof.
  intros Hx. change 0xffff with (Z.ones 16). change 0xff with (Z.ones 8). rewrite !Z.land_ones, !Z.shiftr_div_pow2, !Z.mod_mod by done.
  change (2 ^ 8) with 256. change (2 ^ 16) with 65536. change (2 ^ 24) with 16777216. change (2 ^ 32) with 4294967296 in Hx.
  rewrite (Z.mod_small (x / 16777216)), (Z.mod_small (x / 65536) 65536) by (split; [apply Z.div_pos; lia|apply Z.div_lt_upper_bound; lia]).
  replace (x / 16777216) with (x / 65536 / 256) by (by rewrite Z.div_div by lia).
  pose proof (Z.div_mod x 65536). pose proof (Z.div_mod (x / 65536) 256). lia.
Qed.

Lemma tvinit_lookup vectors i : 0 ≤ i < 256 → tvinit vectors !! Z.to_nat i =
  Some (SETGATE (i =? T_SYSCALL) (Z.shiftl SEG_KCODE 3) (vectors i) (if i =? T_SYSCALL then DPL_USER else 0)).
Proof.
  intros Hi. unfold tvinit. destruct (Z.eqb_spec i T_SYSCALL) as [->|Hne].
  - rewrite list_lookup_insert_eq; [done|]. rewrite length_fmap, length_seqZ. cbn. lia.
  - rewrite list_lookup_insert_ne by (unfold T_SYSCALL in *; lia). by rewrite list_lookup_fmap, lookup_seqZ_lt, Z2Nat.id, Z.add_0_l by lia.
Qed.

(** A user program may raise interrupt [i] with an [int] instruction. *)
Definition user_may_raise (d : Z) : bool := (d_present d =? 1) && (3 <=? d_dpl d).
(** The processor permits the access of a user program to an I/O port: the
    bit of the port is in the task state segment. *)
Definition user_io (limit iomb port : Z) : bool := iomb + port / 8 + 1 <=? limit.

(** C37: The processor's view of the protection the kernel sets up, for all
    addresses of the handlers, of the task state and of the kernel stack.
    Gate [i] enters the kernel's code segment at handler [i]; the only one
    that a user program may raise, and the only one that leaves interrupts
    on, is that of system calls.  Code and data segments are flat, the user's
    with privilege 3 and the kernel's with privilege 0.  The task state
    segment is the task state, an entry from user mode switches to the top of
    the kernel stack, and its port bitmap opens no I/O port to user programs
    (the I/O privilege level in the flags is not part of this). *)
Theorem user_entry_points vectors ts kstack c : (∀ i, 0 ≤ i < 256 → 0 ≤ vectors i < 2 ^ 32) →
  0 ≤ ts < 2 ^ 32 → 0 ≤ kstack < 2 ^ 32 - KSTACKSIZE → length (c_gdt c) = NSEGS →
  let c' := switchuvm_seg ts kstack (seginit c) in
  (∀ i, 0 ≤ i < 256 → ∃ g, tvinit vectors !! Z.to_nat i = Some g ∧
    g_offset (pack g) = vectors i ∧ g_selector (pack g) = 8 * SEG_KCODE ∧ d_present (pack g) = 1 ∧ d_s (pack g) = 0 ∧
    user_may_raise (pack g) = (i =? T_SYSCALL) ∧ d_type (pack g) = (if i =? T_SYSCALL then STS_TG32 else STS_IG32)) ∧
  (∀ i ty dpl, (i, ty, dpl) ∈ [(SEG_KCODE, 0xA, 0); (SEG_KDATA, 2, 0); (SEG_UCODE, 0xA, 3); (SEG_UDATA, 2, 3)] →
    ∃ d, c_gdt c' !! Z.to_nat i = Some d ∧ d_base (pack d) = 0 ∧ d_limit (pack d) = 2 ^ 32 - 1 ∧
      d_type (pack d) = ty ∧ d_dpl (pack d) = dpl ∧ d_s (pack d) = 1 ∧ d_present (pack d) = 1) ∧
  (∃ d, c_gdt c' !! Z.to_nat SEG_TSS = Some d ∧ d_base (pack d) = ts ∧ d_limit (pack d) = TASKSTATE - 1 ∧
    d_type (pack d) = STS_T32A ∧ d_s (pack d) = 0 ∧ d_dpl (pack d) = 0 ∧
    ∀ port, 0 ≤ port → user_io (d_limit (pack d)) (c_iomb c') port = false) ∧
  c_esp0 c' = kstack + KSTACKSIZE ∧ c_ss0 c' = 8 * SEG_KDATA.
Proof.
  intros Hv Hts Hk Hlen c'. assert (∃ g0 g1 g2 g3 g4 g5, c_gdt c = [g0; g1; g2; g3; g4; g5]) as (g0 & g1 & g2 & g3 & g4 & g5 & Hg).
  { destruct (c_gdt c) as [|? [|? [|? [|? [|? [|? [|]]]]]]]; try discriminate. by repeat eexists. }
  split; [|split; [|split]].
  - intros i Hi. eexists. split; [by apply tvinit_lookup|]. unfold user_may_raise, SETGATE.
    match goal with |- context [pack (gatedesc ?a ?b ?c ?d ?e ?f ?g ?h ?k)] => destruct (gatedesc_bits a b c d e f g h k) as (-> & -> & -> & -> & -> & ->) end.
    split; [apply split_address; by apply Hv|]. do 3 (split; [done|]). by destruct (i =? T_SYSCALL).
  - unfold c', switchuvm_seg, seginit. cbn [c_gdt set_gdt]. rewrite Hg. intros i ty dpl Hin. cbn -[pack SEG] in Hin |- *.
    repeat (apply elem_of_cons in Hin as [[= -> -> ->]|Hin]); [..|set_solver]; (eexists; split; [reflexivity|]); vm_compute; done.
  - unfold c', switchuvm_seg, seginit. cbn [c_gdt set_gdt c_iomb]. rewrite Hg. eexists. split; [reflexivity|]. cbn -[pack segdesc Z.land Z.shiftr].
    match goal with |- context [pack ?l] => change l with (segdesc (Z.land 103 65535) (Z.land ts 65535) (Z.land (Z.shiftr ts 16) 255) 9 0 0 1 (Z.shiftr 103 16) 0 0 1 0 (Z.shiftr ts 24)) end.
    match goal with |- context [pack (segdesc ?a ?b ?c ?d ?e ?f ?g ?h ?i ?j ?k ?l ?m)] => destruct (segdesc_bits a b c d e f g h i j k l m) as (-> & -> & -> & -> & -> & _) end.
    split; [by apply split_address|]. do 4 (split; [done|]). intros port Hp.
    match goal with |- user_io ?l _ _ = _ => change l with 103 end. apply Z.leb_gt. pose proof (Z.div_pos port 8). lia.
  - cbn. rewrite u32_small by (unfold KSTACKSIZE in *; lia). done.
Qed.

Lemma user_entry_points_witness :
  let c' := switchuvm_seg 0x80112800 0x8dffe000 (seginit (Cpu (replicate NSEGS []) 0 0 0)) in
  (∃ g, tvinit (λ i, 0x80105000 + 10 * i) !! 64%nat = Some g ∧ user_may_raise (pack g) = true) ∧ c_esp0 c' = 0x8dfff000.
Proof.
  intros c'. destruct (user_entry_points (λ i, 0x80105000 + 10 * i) 0x80112800 0x8dffe000 (Cpu (replicate NSEGS []) 0 0 0)) as (H1 & _ & _ & H4 & _);
    [lia|lia|unfold KSTACKSIZE; lia|reflexivity|].
  split; [|exact H4]. destruct (H1 64) as (g & Hg & _ & _ & _ & _ & Hr & _); [lia|]. by exists g.
Defined.
