(* ===== verification/Apic.v ===== *)
(** * Apic: interrupt controllers and the clock (ioapic.c, lapic.c)

    The I/O APIC is its registers behind the index register.  Writes to the
    local APIC and to ports are kept as the sequence of what was written.
    The clock chip changes while it is read: every access of [cmos_read]
    takes a step of time, and during an update the registers may hold
    anything.  [cmostime_spec] shows that the date returned was
    the date at one moment; [ioapic_routes] is about the redirection table. *)

From Stdlib Require Import ZArith Lia.
From stdpp Require Import base numbers strings list.
From S2P Require Import Prelude Memlayout.
Open Scope Z_scope.

Definition T_IRQ0 : Z := 32.
Definition IRQ_TIMER : Z := 0.
Definition IRQ_IDE : Z := 14.
Definition IRQ_ERROR : Z := 19.
Definition IRQ_SPURIOUS : Z := 31.

(** ** ioapic.c *)

Definition REG_ID : Z := 0x00.
Definition REG_VER : Z := 0x01.
Definition REG_TABLE : Z := 0x10.
Definition INT_DISABLED : Z := 0x00010000.

Record ioapic : Type := IoApic {
  io_reg : Z; (** the index register *)
  io_data : Z → Z; (** the registers *)
}.
Definition ioapicread (reg : Z) : K ioapic Z := λ s,
  Ret (io_data s reg) (IoApic reg (io_data s)).
Definition ioapicwrite (reg data : Z) : K ioapic unit := λ s,
  Ret tt (IoApic reg (λ r, if r =? reg then u32 data else io_data s r)).

(** Mark all interrupts disabled, from number [i] on. *)
Fixpoint mask_loop (n : nat) (i : Z) : K ioapic unit :=
  match n with
  | O => mret tt
  | S n =>
      ioapicwrite (REG_TABLE + 2 * i) (Z.lor INT_DISABLED (T_IRQ0 + i));;
      ioapicwrite (REG_TABLE + 2 * i + 1) 0;;
      mask_loop n (i + 1)
  end.
(** The message for a wrong id is left out. *)
Definition ioapicinit : K ioapic unit :=
  v ← ioapicread REG_VER;
  let maxintr := Z.land (Z.shiftr v 16) 0xFF in
  ioapicread REG_ID;;
  mask_loop (Z.to_nat (maxintr + 1)) 0.
Definition ioapicenable (irq cpunum : Z) : K ioapic unit :=
  ioapicwrite (REG_TABLE + 2 * irq) (T_IRQ0 + irq);;
  ioapicwrite (REG_TABLE + 2 * irq + 1) (Z.shiftl cpunum 24).

(** What the controller does with interrupt [i]: its vector and destination,
    or nothing while it is masked. *)
Definition route (s : ioapic) (i : Z) : option (Z * Z) :=
  let low := io_data s (REG_TABLE + 2 * i) in
  if Z.testbit low 16 then None else Some (Z.land low 0xFF, Z.shiftr (io_data s (REG_TABLE + 2 * i + 1)) 24).

(** The routes after the calls of [ioapicenable], the last one first. *)
Fixpoint routes (calls : list (Z * Z)) (i : Z) : option (Z * Z) :=
  match calls with
  | [] => None
  | (irq, cpu) :: calls => if i =? irq then Some (T_IRQ0 + irq, cpu) else routes calls i
  end.

Lemma mask_loop_run n i s : ∃ s', mask_loop n i s = Ret tt s' ∧
  ∀ r, io_data s' r = if decide (REG_TABLE + 2 * i ≤ r < REG_TABLE + 2 * (i + Z.of_nat n))
    then (if Z.even (r - REG_TABLE) then u32 (Z.lor INT_DISABLED (T_IRQ0 + (r - REG_TABLE) / 2)) else 0) else io_data s r.
Proof.
  revert i s. induction n as [|n IH]; intros i s; cbn [mask_loop].
  { exists s. split; [done|]. intros r. by rewrite decide_False by lia. }
  do 2 (erewrite K_bind_Ret; [|reflexivity]). match goal with |- context [mask_loop n (i + 1) ?s1] => destruct (IH (i + 1) s1) as (s' & -> & Hd) end.
  exists s'. split; [done|]. intros r. rewrite Hd. cbn [io_data]. clear.
  destruct (Z.eqb_spec r (REG_TABLE + 2 * i)) as [->|H0]; [|destruct (Z.eqb_spec r (REG_TABLE + 2 * i + 1)) as [->|H1]].
  - rewrite decide_False by lia. rewrite decide_True by lia. rewrite (proj2 (Z.eqb_neq _ _)) by lia.
    replace (REG_TABLE + 2 * i - REG_TABLE) with (i * 2) by lia. rewrite Z.div_mul, Z.even_mul, orb_true_r by lia. done.
  - rewrite decide_False by lia. rewrite decide_True by lia. replace (REG_TABLE + 2 * i + 1 - REG_TABLE) with (1 + i * 2) by lia.
    rewrite Z.even_add_mul_2 || rewrite Z.even_add, Z.even_mul, orb_true_r. done.
  - repeat case_decide; try lia; done.
Qed.

Lemma ioapicenable_run irq cpu s : 0 ≤ irq < 224 → 0 ≤ cpu < 256 → ∃ s', ioapicenable irq cpu s = Ret tt s' ∧
  ∀ i, 0 ≤ i → route s' i = if i =? irq then Some (T_IRQ0 + irq, cpu) else route s i.
Proof.
  intros Hi Hc. eexists. split; [reflexivity|]. intros i Hi0. unfold route. cbn [io_data].
  rewrite (proj2 (Z.eqb_neq (REG_TABLE + 2 * i) (REG_TABLE + 2 * irq + 1))) by lia.
  rewrite (proj2 (Z.eqb_neq (REG_TABLE + 2 * i + 1) (REG_TABLE + 2 * irq))) by lia.
  destruct (Z.eqb_spec i irq) as [->|Hne].
  - rewrite !Z.eqb_refl. unfold T_IRQ0. rewrite u32_small by lia.
    assert (E : (32 + irq) / 2 ^ 16 = 0) by (apply Z.div_small; lia).
    assert (E2 : Z.testbit (32 + irq) 16 = false) by (apply Z.testbit_false; [lia|]; by rewrite E). rewrite E2.
    change 0xFF with (Z.ones 8). rewrite Z.land_ones, Z.mod_small by lia. rewrite Z.shiftl_mul_pow2, u32_small, Z.shiftr_div_pow2, Z.div_mul by lia. done.
  - rewrite (proj2 (Z.eqb_neq _ _)) by lia. by rewrite (proj2 (Z.eqb_neq _ _)) by lia.
Qed.

(** The redirection table.  After [ioapicinit] and any calls of
    [ioapicenable], exactly the interrupts that were enabled are delivered,
    with the vector that [trap] expects and to the processor of the last
    call. *)
Lemma ioapic_routes s calls : Forall (λ c, 0 ≤ c.1 < 224 ∧ 0 ≤ c.2 < 256) calls →
  let maxintr := Z.land (Z.shiftr (io_data s REG_VER) 16) 0xFF in
  ∃ s', (ioapicinit;; for_each calls (λ c, ioapicenable c.1 c.2)) s = Ret tt s' ∧
    ∀ i, 0 ≤ i ≤ maxintr → route s' i = routes (rev calls) i.
Proof.
  intros Hcalls maxintr.
  destruct (mask_loop_run (Z.to_nat (maxintr + 1)) 0 (IoApic REG_ID (io_data s))) as (s1 & E1 & H1).
  rewrite (K_bind_Ret _ _ s tt s1) by exact E1.
  assert (Hm : ∀ i, 0 ≤ i ≤ maxintr → route s1 i = routes [] i).
  { intros i Hi. unfold route. rewrite H1, decide_True by lia. replace (REG_TABLE + 2 * i - REG_TABLE) with (i * 2) by lia.
    rewrite Z.even_mul, orb_true_r, Z.div_mul by lia.
    assert (Hb : maxintr = Z.shiftr (io_data s REG_VER) 16 mod 2 ^ 8) by (apply (Z.land_ones _ 8); lia).
    pose proof (Z.mod_pos_bound (Z.shiftr (io_data s REG_VER) 16) (2 ^ 8) ltac:(lia)).
    assert (Ht : Z.testbit (u32 (Z.lor INT_DISABLED (T_IRQ0 + i))) 16 = true); [|by rewrite Ht].
    unfold u32. rewrite Z.mod_pow2_bits_low by lia. rewrite Z.lor_spec. done. }
  assert (Hrun : ∀ before s1, (∀ i, 0 ≤ i ≤ maxintr → route s1 i = routes before i) →
    ∃ s', for_each calls (λ c, ioapicenable c.1 c.2) s1 = Ret tt s' ∧ ∀ i, 0 ≤ i ≤ maxintr → route s' i = routes (rev calls ++ before) i).
  { clear -Hcalls. induction Hcalls as [|[irq cpu] calls [Hi Hc] _ IH]; intros before s1 Hm; [by exists s1|].
    cbn [for_each]. destruct (ioapicenable_run irq cpu s1 Hi Hc) as (s2 & E2 & H2). kstep E2.
    destruct (IH ((irq, cpu) :: before) s2) as (s' & E' & H'); [intros i Hi'; rewrite H2 by lia; cbn; by rewrite Hm|].
    exists s'. split; [done|]. intros i Hi'. rewrite H' by done. cbn [rev]. by rewrite <- (assoc_L (++)). }
  destruct (Hrun [] s1 Hm) as (s' & E' & H'). exists s'. split; [done|]. intros i Hi. rewrite H' by done. by rewrite app_nil_r.
Qed.

(** ** lapic.c: the local APIC *)

Definition ID : Z := 0x0020 / 4.
Definition VER : Z := 0x0030 / 4.
Definition TPR : Z := 0x0080 / 4.
Definition EOI : Z := 0x00B0 / 4.
Definition SVR : Z := 0x00F0 / 4.
Definition ENABLE : Z := 0x00000100.
Definition ESR : Z := 0x0280 / 4.
Definition ICRLO : Z := 0x0300 / 4.
Definition INIT : Z := 0x00000500.
Definition STARTUP : Z := 0x00000600.
Definition DELIVS : Z := 0x00001000.
Definition ASSERT : Z := 0x00004000.
Definition LEVEL : Z := 0x00008000.
Definition BCAST : Z := 0x00080000.
Definition ICRHI : Z := 0x0310 / 4.
Definition TIMER : Z := 0x0320 / 4.
Definition X1 : Z := 0x0000000B.
Definition PERIODIC : Z := 0x00020000.
Definition PCINT : Z := 0x0340 / 4.
Definition LINT0 : Z := 0x0350 / 4.
Definition LINT1 : Z := 0x0360 / 4.
Definition ERROR : Z := 0x0370 / 4.
Definition MASKED : Z := 0x00010000.
Definition TICR : Z := 0x0380 / 4.
Definition TDCR : Z := 0x03E0 / 4.
Definition CMOS_PORT : Z := 0x70.
Definition CMOS_RETURN : Z := 0x71.

(** A write to a register, to a port or to a 16-bit word of memory. *)
Inductive effect : Type :=
| WReg (index value : Z)
| WPort (port value : Z)
| WMem16 (addr value : Z).

Record lapic : Type := Lapic {
  la_present : bool; (** the pointer [lapic] is set *)
  la_id : Z;
  la_ver : Z;
  la_busy : nat; (** reads of [ICRLO] that still find a delivery pending *)
  la_log : list effect; (** what was written, in order *)
}.
Definition emit (e : effect) : K lapic unit :=
  modify (λ s, Lapic (la_present s) (la_id s) (la_ver s) (la_busy s) (la_log s ++ [e])).
Definition lapicw (index value : Z) : K lapic unit := emit (WReg index (u32 value)).

Fixpoint delivery_loop (fuel : nat) : K lapic unit :=
  match fuel with
  | O => nofuel
  | S fuel =>
      busy ← gets la_busy;
      match busy with
      | O => mret tt
      | S n =>
          modify (λ s, Lapic (la_present s) (la_id s) (la_ver s) n (la_log s));;
          delivery_loop fuel
      end
  end.

Definition lapicinit : K lapic unit :=
  p ← gets la_present;
  if negb p then mret tt else
  lapicw SVR (Z.lor ENABLE (T_IRQ0 + IRQ_SPURIOUS));;
  lapicw TDCR X1;;
  lapicw TIMER (Z.lor PERIODIC (T_IRQ0 + IRQ_TIMER));;
  lapicw TICR 10000000;;
  lapicw LINT0 MASKED;;
  lapicw LINT1 MASKED;;
  ver ← gets la_ver;
  (if 4 <=? Z.land (Z.shiftr ver 16) 0xFF then lapicw PCINT MASKED else mret tt);;
  lapicw ERROR (T_IRQ0 + IRQ_ERROR);;
  lapicw ESR 0;;
  lapicw ESR 0;;
  lapicw EOI 0;;
  lapicw ICRHI 0;;
  lapicw ICRLO (Z.lor (Z.lor BCAST INIT) LEVEL);;
  busy ← gets la_busy;
  delivery_loop (S busy);;
  lapicw TPR 0.

Definition lapicid : K lapic Z :=
  p ← gets la_present;
  id ← gets la_id;
  mret (if negb p then 0 else Z.shiftr id 24).

Definition lapiceoi : K lapic unit :=
  p ← gets la_present;
  if p : bool then lapicw EOI 0 else mret tt.

(** [for(i = 0; i < 2; i++)] of [lapicstartap]. *)
Definition send_startup (apicid addr : Z) : K lapic unit :=
  lapicw ICRHI (Z.shiftl apicid 24);;
  lapicw ICRLO (Z.lor STARTUP (Z.shiftr addr 12)).
Definition lapicstartap (apicid addr : Z) : K lapic unit :=
  emit (WPort CMOS_PORT 0xF);;
  emit (WPort (CMOS_PORT + 1) 0x0A);;
  let wrv := P2V (Z.lor (Z.shiftl 0x40 4) 0x67) in
  emit (WMem16 wrv 0);;
  emit (WMem16 (wrv + 2) (u16 (Z.shiftr addr 4)));;
  lapicw ICRHI (Z.shiftl apicid 24);;
  lapicw ICRLO (Z.lor (Z.lor INIT LEVEL) ASSERT);;
  lapicw ICRLO (Z.lor INIT LEVEL);;
  send_startup apicid addr;;
  send_startup apicid addr.

(** ** lapic.c: the clock chip *)

Definition CMOS_STATA : Z := 0x0a.
Definition CMOS_STATB : Z := 0x0b.
Definition CMOS_UIP : Z := Z.shiftl 1 7.
Definition SECS : Z := 0x00.
Definition MINS : Z := 0x02.
Definition HOURS : Z := 0x04.
Definition DAY : Z := 0x07.
Definition MONTH : Z := 0x08.
Definition YEAR : Z := 0x09.

(** date.h: [struct rtcdate]. *)
Record rtcdate : Type := RtcDate {
  second : Z; minute : Z; hour : Z; day : Z; month : Z; year : Z;
}.
#[global] Instance rtcdate_eq_dec : EqDecision rtcdate.
Proof. solve_decision. Defined.

Section Clock.
(** The registers of the chip at each moment. *)
Context (rtc : nat → Z → Z).

Definition cmos_read (reg : Z) : K nat Z := λ t, Ret (rtc t reg) (S t).

Definition fill_rtcdate : K nat rtcdate :=
  s ← cmos_read SECS;
  m ← cmos_read MINS;
  h ← cmos_read HOURS;
  d ← cmos_read DAY;
  mo ← cmos_read MONTH;
  y ← cmos_read YEAR;
  mret (RtcDate s m h d mo y).

Fixpoint cmos_loop (fuel : nat) : K nat rtcdate :=
  match fuel with
  | O => nofuel
  | S fuel =>
      t1 ← fill_rtcdate;
      a ← cmos_read CMOS_STATA;
      if negb (Z.land a CMOS_UIP =? 0) then cmos_loop fuel else
      t2 ← fill_rtcdate;
      if decide (t1 = t2) then mret t1 else cmos_loop fuel
  end.

Definition CONV (x : Z) : Z := Z.shiftr x 4 * 10 + Z.land x 0xf.
Definition convert (t : rtcdate) : rtcdate :=
  RtcDate (CONV (second t)) (CONV (minute t)) (CONV (hour t)) (CONV (day t)) (CONV (month t)) (CONV (year t)).

Definition cmostime (fuel : nat) : K nat rtcdate :=
  sb ← cmos_read CMOS_STATB;
  let bcd := Z.land sb (Z.shiftl 1 2) =? 0 in
  t1 ← cmos_loop fuel;
  let t1 := if bcd then convert t1 else t1 in
  mret (RtcDate (second t1) (minute t1) (hour t1) (day t1) (month t1) (year t1 + 2000)).

(** ** The date *)

(** Two decimal digits in one byte. *)
Definition to_bcd (x : Z) : Z := 16 * (x / 10) + x mod 10.
Definition encode (bcd : bool) (x : Z) : Z := if bcd then to_bcd x else x.
Definition encode_date (bcd : bool) (d : rtcdate) : rtcdate :=
  RtcDate (encode bcd (second d)) (encode bcd (minute d)) (encode bcd (hour d)) (encode bcd (day d)) (encode bcd (month d)) (encode bcd (year d)).
Definition two_digits (d : rtcdate) : Prop :=
  Forall (λ x, 0 ≤ x < 100) [second d; minute d; hour d; day d; month d; year d].

Lemma CONV_bcd x : 0 ≤ x < 100 → CONV (to_bcd x) = x.
Proof.
  intros Hx. unfold CONV, to_bcd. change 0xf with (Z.ones 4). rewrite Z.land_ones, Z.shiftr_div_pow2 by lia. change (2 ^ 4) with 16.
  pose proof (Z.mod_pos_bound x 10). pose proof (Z.div_mod x 10).
  assert (E1 : (16 * (x / 10) + x mod 10) / 16 = x / 10) by (symmetry; apply Z.div_unique with (x mod 10); lia).
  assert (E2 : (16 * (x / 10) + x mod 10) mod 16 = x mod 10) by (symmetry; apply Z.mod_unique with (x / 10); lia).
  rewrite E1, E2. lia.
Qed.

Lemma convert_encode d : two_digits d → convert (encode_date true d) = d.
Proof.
  intros H. unfold two_digits in H. rewrite !Forall_cons in H. destruct H as (H1 & H2 & H3 & H4 & H5 & H6 & _).
  destruct d. unfold convert. cbn in *. by rewrite !CONV_bcd.
Qed.

(** The bit that the chip sets while it updates the registers. *)
Definition updating (t : nat) : Prop := Z.land (rtc t CMOS_STATA) CMOS_UIP ≠ 0.

(** Outside updates the chip shows the date [date t], in the form that its
    status register says; during an update the registers are arbitrary.  There
    is at most one update, from [u] to [v], in the time of 13 reads. *)
Record chip (date : nat → rtcdate) (bcd : bool) : Prop := {
  ch_form t : (Z.land (rtc t CMOS_STATB) (Z.shiftl 1 2) =? 0) = bcd;
  ch_shows t : ¬ updating t →
    RtcDate (rtc t SECS) (rtc t MINS) (rtc t HOURS) (rtc t DAY) (rtc t MONTH) (rtc t YEAR) = encode_date bcd (date t);
  ch_digits t : two_digits (date t);
  ch_slow t : ∃ u v, ∀ t', (t ≤ t' ≤ t + 12)%nat →
    ((t' < u)%nat → ¬ updating t' ∧ date t' = date t) ∧
    ((u ≤ t' < v)%nat → updating t') ∧
    ((u ≤ t')%nat → (v ≤ t')%nat → ¬ updating t' ∧ date t' = date (t + 12)%nat);
}.

(** No update from [n] on, for the time of two rounds. *)
Definition quiet (date : nat → rtcdate) (n : nat) : Prop :=
  ∀ t, (n ≤ t < n + 26)%nat → date t = date n ∧ ¬ updating t.

Definition filled (t : nat) : rtcdate :=
  RtcDate (rtc t SECS) (rtc (t + 1) MINS) (rtc (t + 2) HOURS) (rtc (t + 3) DAY) (rtc (t + 4) MONTH) (rtc (t + 5) YEAR).
Lemma fill_run t : fill_rtcdate t = Ret (filled t) (t + 6)%nat.
Proof. unfold fill_rtcdate, cmos_read, filled. kred. by rewrite !(Nat.add_comm t). Qed.

(** Reading while the date does not change. *)
Lemma filled_same date bcd t d : chip date bcd → (∀ t', (t ≤ t' ≤ t + 5)%nat → ¬ updating t' ∧ date t' = d) → filled t = encode_date bcd d.
Proof.
  intros Hc Hd. unfold filled. assert (H : ∀ k, (k ≤ 5)%nat → RtcDate (rtc (t + k) SECS) (rtc (t + k) MINS) (rtc (t + k) HOURS)
    (rtc (t + k) DAY) (rtc (t + k) MONTH) (rtc (t + k) YEAR) = encode_date bcd d).
  { intros k Hk. destruct (Hd (t + k)%nat) as [Hu <-]; [lia|]. by apply (ch_shows _ _ Hc). }
  pose proof (H 0%nat ltac:(lia)) as H0. pose proof (H 1%nat ltac:(lia)) as H1. pose proof (H 2%nat ltac:(lia)) as H2.
  pose proof (H 3%nat ltac:(lia)) as H3. pose proof (H 4%nat ltac:(lia)) as H4. pose proof (H 5%nat ltac:(lia)) as H5.
  rewrite Nat.add_0_r in H0. injection H0 as -> _ _ _ _ _. injection H1 as _ -> _ _ _ _. injection H2 as _ _ -> _ _ _.
  injection H3 as _ _ _ -> _ _. injection H4 as _ _ _ _ -> _. injection H5 as _ _ _ _ _ ->. done.
Qed.

(** Two equal readings around a moment without update show one date. *)
Lemma filled_twice date bcd t : chip date bcd → ¬ updating (t + 6) → filled t = filled (t + 7) →
  ∃ t', (t ≤ t' ≤ t + 12)%nat ∧ filled t = encode_date bcd (date t').
Proof.
  intros Hc Hn E. destruct (ch_slow _ _ Hc t) as (u & v & Hu).
  destruct (Nat.le_gt_cases u (t + 6)) as [Hle|Hgt]; [destruct (Nat.le_gt_cases v (t + 6)) as [Hle'|Hgt']|].
  - exists (t + 12)%nat. split; [lia|]. rewrite E. apply filled_same with date; [done|]. intros t' Ht'. apply (Hu t'); lia.
  - destruct Hn. apply (Hu (t + 6)%nat); lia.
  - exists t. split; [lia|]. apply filled_same with date; [done|]. intros t' Ht'. apply (Hu t'); lia.
Qed.

(** One round of the loop. *)
Lemma cmos_round fuel t : cmos_loop (S fuel) t =
  if negb (Z.land (rtc (t + 6) CMOS_STATA) CMOS_UIP =? 0) then cmos_loop fuel (t + 7)%nat
  else if decide (filled t = filled (t + 7)) then Ret (filled t) (t + 13)%nat else cmos_loop fuel (t + 13)%nat.
Proof.
  cbn [cmos_loop]. kstep (fill_run t). unfold cmos_read at 1. erewrite K_bind_Ret; [|reflexivity].
  replace (S (t + 6)) with (t + 7)%nat by lia. destruct (negb _); [done|]. kstep (fill_run (t + 7)).
  replace (t + 7 + 6)%nat with (t + 13)%nat by lia. by destruct (decide _).
Qed.

Lemma cmos_loop_run date bcd n fuel t : chip date bcd → quiet date n → (t < n + 13)%nat → (1 ≤ fuel)%nat → (n < t + fuel)%nat →
  ∃ t' t'', cmos_loop fuel t = Ret (encode_date bcd (date t')) t'' ∧ (t ≤ t' < t'')%nat.
Proof.
  intros Hc Hq. revert t. induction fuel as [|fuel IH]; intros t Ht H1 Hf; [lia|]. rewrite cmos_round.
  destruct (Z.eqb_spec (Z.land (rtc (t + 6) CMOS_STATA) CMOS_UIP) 0) as [Hu|Hu]; cbn [negb].
  - destruct (decide (filled t = filled (t + 7))) as [E|E].
    + destruct (filled_twice date bcd t Hc) as (t' & Ht' & ->); [intros Hx; exact (Hx Hu)|done|].
      exists t', (t + 13)%nat. split; [done|lia].
    + assert (Hlt : (t < n)%nat).
      { destruct (Nat.le_gt_cases n t); [|done]. destruct E. transitivity (encode_date bcd (date n)); [|symmetry];
          (apply filled_same with date; [done|]; intros t' Ht'; destruct (Hq t'); [lia|done]). }
      destruct (IH (t + 13)%nat) as (u & u' & E' & Hr); [lia..|]. exists u, u'. split; [done|lia].
  - destruct (Nat.le_gt_cases n t); [destruct (proj2 (Hq (t + 6)%nat ltac:(lia)) Hu)|].
    destruct (IH (t + 7)%nat) as (u & u' & E' & Hr); [lia..|]. exists u, u'. split; [done|lia].
Qed.

(** C40: Reading the clock.  For a chip that shows the date in binary or in
    decimal digits outside updates, holds anything in its registers during an
    update, and has at most one update in the time of 13 reads, a call of
    [cmostime] returns once there is no update for the time of two rounds, and
    the date it returns, in full years, is the one that the chip had at one
    moment during the call: never the contents of an update, nor a mixture of
    the fields of two moments. *)
Theorem cmostime_spec date bcd fuel t n : chip date bcd → quiet date n → (t < n + 12)%nat → (n ≤ t + fuel)%nat → (1 ≤ fuel)%nat →
  ∃ t' t'', (t < t' < t'')%nat ∧ cmostime fuel t =
    Ret (RtcDate (second (date t')) (minute (date t')) (hour (date t')) (day (date t')) (month (date t')) (year (date t') + 2000)) t''.
Proof.
  intros Hc Hq Ht Hf H1. unfold cmostime, cmos_read at 1. erewrite K_bind_Ret; [|reflexivity].
  destruct (cmos_loop_run date bcd n fuel (S t) Hc Hq) as (t' & t'' & E & Hr); [lia|lia|lia|]. kstep E. exists t', t''. split; [lia|].
  rewrite (ch_form _ _ Hc). destruct bcd; [by rewrite convert_encode by apply Hc|]. by destruct (date t').
Qed.
End Clock.

(** The chip is updated from time 3 to time 9, from one minute to the next;
    all registers are 0 during the update. *)
Definition wit_date (t : nat) : rtcdate := if (t <? 9)%nat then RtcDate 59 8 7 6 5 24 else RtcDate 0 9 7 6 5 24.
Definition wit_rtc (t : nat) (reg : Z) : Z :=
  let d := encode_date true (wit_date t) in
  let update := (3 <=? t)%nat && (t <? 9)%nat in
  if reg =? CMOS_STATA then (if update then CMOS_UIP else 0) else
  if update then 0 else
  if reg =? SECS then second d else if reg =? MINS then minute d else if reg =? HOURS then hour d else
  if reg =? DAY then day d else if reg =? MONTH then month d else if reg =? YEAR then year d else 0.

Lemma wit_updating t : updating wit_rtc t ↔ (3 ≤ t < 9)%nat.
Proof.
  unfold updating, wit_rtc. change (CMOS_STATA =? CMOS_STATA) with true. cbv zeta iota.
  destruct (Nat.leb_spec 3 t), (Nat.ltb_spec t 9); cbn [andb]; (split; [intros H'|intros H']); try lia; try done; by destruct H'.
Qed.

Lemma cmostime_spec_witness : ∃ t' t'', (0 < t' < t'')%nat ∧ cmostime wit_rtc 30 0%nat =
  Ret (RtcDate (second (wit_date t')) (minute (wit_date t')) (hour (wit_date t')) (day (wit_date t')) (month (wit_date t')) (year (wit_date t') + 2000)) t''.
Proof.
  apply (cmostime_spec wit_rtc wit_date true 30 0 9); [|intros t Ht; split|lia|lia|lia].
  - split.
    + intros t. unfold wit_rtc. by destruct ((3 <=? t)%nat && (t <? 9)%nat).
    + intros t Hu. unfold wit_rtc. destruct ((3 <=? t)%nat && (t <? 9)%nat) eqn:Eu; [|done].
      destruct Hu. apply wit_updating. apply andb_prop in Eu as [?%Nat.leb_le ?%Nat.ltb_lt]. lia.
    + intros t. unfold wit_date. destruct (t <? 9)%nat; repeat (constructor; [cbn; lia|]); constructor.
    + intros t. exists 3%nat, 9%nat. intros t' Ht'. rewrite wit_updating. unfold wit_date. split; [|split]; intros.
      * split; [lia|]. by rewrite !(proj2 (Nat.ltb_lt _ _)) by lia.
      * lia.
      * split; [lia|]. by rewrite !(proj2 (Nat.ltb_ge _ _)) by lia.
  - unfold wit_date. by rewrite (proj2 (Nat.ltb_ge t 9)) by lia.
  - rewrite wit_updating. lia.
Defined.
