(* ===== verification/Spinlock.v ===== *)
(** * Spinlock: the spin locks of spinlock.c on several processors

    The locks and the per-processor state ([ncli], [intena], the interrupt
    flag), and the code of [acquire], [release], [holding], [pushcli] and
    [popcli] as a step relation: one step makes at most one access to a lock,
    so every interleaving of the processors is covered.  [c_held] is a history
    variable: the locks the processor has taken and not yet given back.  The
    call stack that [acquire] records for debugging is not part of the state;
    [getcallerpcs] is a function of the stack.

    The other files run one kernel thread, where a lock that is held is held by
    that thread: there a boolean replaces the lock (Prelude.v). *)

From Stdlib Require Import ZArith Lia.
From stdpp Require Import base numbers strings gmap list relations.
From S2P Require Import Prelude Memlayout.
Open Scope Z_scope.

(** ** State *)

Record spinlock : Type := SpinLock {
  sl_locked : Z;
  sl_cpu : option nat;
}.

(** Where a processor is in [acquire] or [release]; [Idle] is the code that
    calls them.  [HoldLocked] and [HoldCpu] are the two reads of [holding]. *)
Inductive op : Type := Acquire | Release.
Inductive point : Type :=
| Idle
| HoldLocked (o : op) (lk : nat)
| HoldCpu (o : op) (lk : nat)
| Xchg (lk : nat)
| SetCpu (lk : nat)
| ClearCpu (lk : nat)
| Unlock (lk : nat)
| Panicked (msg : string).

Record cpu : Type := Cpu {
  c_if : bool;
  c_ncli : Z;
  c_intena : bool;
  c_pc : point;
  c_held : list nat;
}.

Record machine : Type := Machine {
  m_cpus : list cpu;
  m_locks : list spinlock;
}.

Definition initlock (lk : nat) (m : machine) : machine :=
  Machine (m_cpus m) (<[lk:=SpinLock 0 None]> (m_locks m)).

(** ** Operations of one processor *)

Definition goto (p : point) (c : cpu) : cpu :=
  Cpu (c_if c) (c_ncli c) (c_intena c) p (c_held c).
Definition set_held (l : list nat) (c : cpu) : cpu :=
  Cpu (c_if c) (c_ncli c) (c_intena c) (c_pc c) l.

Definition pushcli (c : cpu) : cpu :=
  Cpu false (c_ncli c + 1) (if c_ncli c =? 0 then c_if c else c_intena c) (c_pc c) (c_held c).

(** [popcli] panics by moving to [Panicked]. *)
Definition popcli (c : cpu) : cpu :=
  if c_if c then goto (Panicked "popcli - interruptible") c else
  if c_ncli c - 1 <? 0 then goto (Panicked "popcli") c else
  Cpu ((c_ncli c - 1 =? 0) && c_intena c) (c_ncli c - 1) (c_intena c) (c_pc c) (c_held c).

(** The rest of [acquire] or [release] after [holding] returned [r], unless
    its [popcli] has panicked. *)
Definition after_holding (o : op) (lk : nat) (r : bool) (c : cpu) : cpu :=
  match c_pc c, o with
  | Panicked _, _ => c
  | _, Acquire => goto (if r then Panicked "acquire" else Xchg lk) c
  | _, Release => goto (if r then ClearCpu lk else Panicked "release") c
  end.

(** The calls: [acquire] disables interrupts and calls [holding]; [release]
    calls [holding].  [holding] calls [pushcli] too. *)
Definition call (o : op) (lk : nat) (c : cpu) : cpu :=
  let c := match o with Acquire => pushcli c | Release => c end in
  goto (HoldLocked o lk) (pushcli c).

(** One access to the lock by processor [i] at its point: the processor and
    the lock after it. *)
Definition access (i : nat) (c : cpu) (l : spinlock) : cpu * spinlock :=
  match c_pc c with
  | HoldLocked o lk =>
      if sl_locked l =? 0 then (after_holding o lk false (popcli c), l)
      else (goto (HoldCpu o lk) c, l)
  | HoldCpu o lk => (after_holding o lk (bool_decide (sl_cpu l = Some i)) (popcli c), l)
  | Xchg lk =>
      if sl_locked l =? 0 then (set_held (lk :: c_held c) (goto (SetCpu lk) c), SpinLock 1 (sl_cpu l))
      else (c, SpinLock 1 (sl_cpu l))
  | SetCpu lk => (goto Idle c, SpinLock (sl_locked l) (Some i))
  | ClearCpu lk => (goto (Unlock lk) c, SpinLock (sl_locked l) None)
  | Unlock lk => (popcli (set_held (filter (.≠ lk) (c_held c)) (goto Idle c)), SpinLock 0 (sl_cpu l))
  | Idle | Panicked _ => (c, l)
  end.

(** The lock a point works on. *)
Definition lock_of (p : point) : option nat :=
  match p with
  | HoldLocked _ lk | HoldCpu _ lk | Xchg lk | SetCpu lk | ClearCpu lk | Unlock lk => Some lk
  | Idle | Panicked _ => None
  end.

(** The steps of the machine: a processor calls [acquire] or [release], makes
    its next access, takes an interrupt (which turns interrupts off) or turns
    interrupts on outside every [pushcli] ([sti] of the scheduler, a return
    from an interrupt). *)
Inductive step : machine → machine → Prop :=
| step_call i c o lk m :
    m_cpus m !! i = Some c → c_pc c = Idle → is_Some (m_locks m !! lk) →
    step m (Machine (<[i:=call o lk c]> (m_cpus m)) (m_locks m))
| step_access i c lk l m :
    m_cpus m !! i = Some c → lock_of (c_pc c) = Some lk → m_locks m !! lk = Some l →
    step m (Machine (<[i:=(access i c l).1]> (m_cpus m)) (<[lk:=(access i c l).2]> (m_locks m)))
| step_intr i c m :
    m_cpus m !! i = Some c → c_pc c = Idle → c_if c = true →
    step m (Machine (<[i:=Cpu false (c_ncli c) (c_intena c) Idle (c_held c)]> (m_cpus m)) (m_locks m))
| step_sti i c m :
    m_cpus m !! i = Some c → c_pc c = Idle → c_ncli c = 0 →
    step m (Machine (<[i:=Cpu true (c_ncli c) (c_intena c) Idle (c_held c)]> (m_cpus m)) (m_locks m)).

(** The machine after [initlock] of every lock. *)
Definition booted (ncpu nlock : nat) : machine :=
  Machine (replicate ncpu (Cpu false 0 false Idle [])) (replicate nlock (SpinLock 0 None)).

Definition reachable (ncpu nlock : nat) (m : machine) : Prop := rtc step (booted ncpu nlock) m.

(** [getcallerpcs(v, pcs)]: [w a] is the word at address [a]. *)
Fixpoint callers (n : nat) (w : Z → Z) (ebp : Z) : list Z :=
  match n with
  | O => []
  | S n =>
      if (ebp =? 0) || (ebp <? KERNBASE) || (ebp =? 0xffffffff) then replicate (S n) 0
      else w (u32 (ebp + 4)) :: callers n w (w ebp)
  end.
Definition getcallerpcs (w : Z → Z) (v : Z) : list Z := callers 10 w (u32 (v - 8)).

(** ** Invariant *)

(** How many [pushcli] the point is inside, besides those of held locks. *)
Definition pushed (p : point) : Z :=
  match p with
  | HoldLocked Acquire _ | HoldCpu Acquire _ => 2
  | HoldLocked Release _ | HoldCpu Release _ => 1
  | Xchg _ => 1
  | Idle | SetCpu _ | ClearCpu _ | Unlock _ | Panicked _ => 0
  end.

Definition not_panicked (p : point) : Prop := match p with Panicked _ => False | _ => True end.

(** The points between the [xchg] that takes a lock and the write of its
    [cpu], and between the clearing of [cpu] and of [locked]. *)
Definition transit (p : point) : option nat :=
  match p with SetCpu lk | Unlock lk => Some lk | _ => None end.

Record cpu_ok (i : nat) (c : cpu) (locks : list spinlock) : Prop := {
  ok_ncli : not_panicked (c_pc c) → c_ncli c = Z.of_nat (length (c_held c)) + pushed (c_pc c);
  ok_if : not_panicked (c_pc c) → 0 < c_ncli c → c_if c = false;
  ok_nodup : NoDup (c_held c);
  ok_held lk : lk ∈ c_held c → ∃ l, locks !! lk = Some l ∧ sl_locked l = 1 ∧
    sl_cpu l = (if decide (transit (c_pc c) = Some lk) then None else Some i);
  ok_cpu lk l : locks !! lk = Some l → sl_cpu l = Some i → lk ∈ c_held c;
  ok_transit lk : transit (c_pc c) = Some lk ∨ c_pc c = ClearCpu lk → lk ∈ c_held c;
  ok_acq lk : c_pc c = Xchg lk → lk ∉ c_held c;
  ok_panic msg : c_pc c = Panicked msg → msg = "acquire"%string ∨ msg = "release"%string;
}.

Record inv (m : machine) : Prop := {
  inv_cpu i c : m_cpus m !! i = Some c → cpu_ok i c (m_locks m);
  inv_one i j ci cj lk : m_cpus m !! i = Some ci → m_cpus m !! j = Some cj →
    lk ∈ c_held ci → lk ∈ c_held cj → i = j;
  inv_lock lk l : m_locks m !! lk = Some l →
    (sl_locked l = 0 ∧ sl_cpu l = None) ∨
    (sl_locked l = 1 ∧ ∃ i c, m_cpus m !! i = Some c ∧ lk ∈ c_held c);
}.

(** The other processors when processor [i] changes one lock. *)
Lemma cpu_ok_other m i c lk l l' j cj :
  inv m → m_cpus m !! i = Some c → m_cpus m !! j = Some cj → i ≠ j → m_locks m !! lk = Some l →
  l' = l ∨ (sl_locked l = 0 ∧ sl_cpu l' = sl_cpu l) ∨
    (lk ∈ c_held c ∧ ∀ n, sl_cpu l' = Some n → n = i) →
  cpu_ok j cj (<[lk:=l']> (m_locks m)).
Proof.
  intros HI Hi Hj Hij Hl H. destruct (inv_cpu _ HI _ _ Hj) as [? ? ? Hheld Hcpu ? ? ?].
  split; try done.
  - intros k Hk. destruct (Hheld k Hk) as (l0 & Hl0 & Hlk & Hc). destruct (decide (k = lk)) as [->|Hne].
    + exists l'. rewrite list_lookup_insert_eq by (by eapply lookup_lt_Some). simplify_eq.
      destruct H as [->|[[? ?]|[? _]]]; [done|lia|].
      destruct Hij. by eapply (inv_one _ HI).
    + exists l0. by rewrite list_lookup_insert_ne.
  - intros k l0 Hk Hc. destruct (decide (k = lk)) as [->|Hne].
    + rewrite list_lookup_insert_eq in Hk by (by eapply lookup_lt_Some). simplify_eq.
      destruct H as [->|[[? Heq]|[? He]]]; [by eapply Hcpu| |naive_solver].
      eapply Hcpu; [done|congruence].
    + rewrite list_lookup_insert_ne in Hk by done. by eapply Hcpu.
Qed.

(** A step of processor [i] that changes one lock. *)
Lemma inv_update m i c c' lk l l' :
  inv m → m_cpus m !! i = Some c → m_locks m !! lk = Some l →
  l' = l ∨ (sl_locked l = 0 ∧ sl_cpu l' = sl_cpu l) ∨
    (lk ∈ c_held c ∧ ∀ n, sl_cpu l' = Some n → n = i) →
  cpu_ok i c' (<[lk:=l']> (m_locks m)) →
  (∀ k, k ∈ c_held c' → k ∈ c_held c ∨ (k = lk ∧ sl_locked l = 0)) →
  (∀ k, k ∈ c_held c → k ∈ c_held c' ∨ (k = lk ∧ sl_locked l' = 0)) →
  (sl_locked l' = 0 ∧ sl_cpu l' = None) ∨ (sl_locked l' = 1 ∧ lk ∈ c_held c') ∨ l' = l →
  inv (Machine (<[i:=c']> (m_cpus m)) (<[lk:=l']> (m_locks m))).
Proof.
  intros HI Hi Hl Hoth Hok Hsub Hsup Hlk.
  assert (Hnone : sl_locked l = 0 → ∀ j cj, m_cpus m !! j = Some cj → lk ∉ c_held cj).
  { intros H0 j cj Hj Hk. destruct (ok_held _ _ _ (inv_cpu _ HI _ _ Hj) _ Hk) as (? & ? & ? & _).
    simplify_eq. lia. }
  split; cbn [m_cpus m_locks].
  - intros j cj Hj. apply list_lookup_insert_cases in Hj as [(<- & -> & _)|[Hne Hj]]; [done|].
    exact (cpu_ok_other m i c lk l l' j cj HI Hi Hj Hne Hl Hoth).
  - intros j1 j2 c1 c2 k H1 H2 Hk1 Hk2.
    apply list_lookup_insert_cases in H1 as [(<- & -> & _)|[Hne1 H1]];
      apply list_lookup_insert_cases in H2 as [(<- & -> & _)|[Hne2 H2]]; try done.
    + apply Hsub in Hk1 as [Hk1|[-> H0]]; [by eapply (inv_one _ HI)|by destruct (Hnone H0 _ _ H2)].
    + apply Hsub in Hk2 as [Hk2|[-> H0]]; [by eapply (inv_one _ HI)|by destruct (Hnone H0 _ _ H1)].
    + by eapply (inv_one _ HI).
  - intros k l0 Hk. apply list_lookup_insert_cases in Hk as [(<- & -> & _)|[Hne Hk]].
    + destruct Hlk as [?|[[? ?]| ->]]; [by left| |].
      * right. split; [done|]. exists i, c'. by eauto with xv6.
      * destruct (inv_lock _ HI _ _ Hl) as [?|(H1 & j & cj & Hj & Hk)]; [by left|].
        right. split; [done|]. destruct (decide (j = i)) as [->|Hji].
        -- simplify_eq. exists i, c'. split; [by eauto with xv6|].
           apply Hsup in Hk as [?|[? ?]]; [done|lia].
        -- exists j, cj. by rewrite list_lookup_insert_ne.
    + destruct (inv_lock _ HI _ _ Hk) as [?|(H1 & j & cj & Hj & Hkj)]; [by left|].
      right. split; [done|]. destruct (decide (j = i)) as [->|Hji].
      * simplify_eq. exists i, c'. split; [by eauto with xv6|].
        apply Hsup in Hkj as [?|[? ?]]; done.
      * exists j, cj. by rewrite list_lookup_insert_ne.
Qed.

(** A step of processor [i] that changes no lock. *)
Lemma inv_local m i c c' :
  inv m → m_cpus m !! i = Some c → cpu_ok i c' (m_locks m) → c_held c' = c_held c →
  inv (Machine (<[i:=c']> (m_cpus m)) (m_locks m)).
Proof.
  intros HI Hi Hok Hh.
  assert (Hold : ∀ j cj, <[i:=c']> (m_cpus m) !! j = Some cj →
    ∃ cj', m_cpus m !! j = Some cj' ∧ c_held cj' = c_held cj).
  { intros j cj Hj. apply list_lookup_insert_cases in Hj as [(<- & -> & _)|[Hne Hj]]; eauto. }
  split; cbn [m_cpus m_locks].
  - intros j cj Hj. apply list_lookup_insert_cases in Hj as [(<- & -> & _)|[Hne Hj]]; [done|].
    by apply (inv_cpu _ HI).
  - intros j1 j2 c1 c2 k H1 H2 Hk1 Hk2.
    destruct (Hold _ _ H1) as (d1 & H1' & E1), (Hold _ _ H2) as (d2 & H2' & E2).
    rewrite <- E1 in Hk1. rewrite <- E2 in Hk2. exact (inv_one _ HI _ _ _ _ _ H1' H2' Hk1 Hk2).
  - intros k l Hl. destruct (inv_lock _ HI _ _ Hl) as [?|(? & j & cj & Hj & Hk)]; [by left|].
    right. split; [done|]. destruct (decide (j = i)) as [->|Hji].
    + simplify_eq. exists i, c'. rewrite Hh. by eauto with xv6.
    + exists j, cj. by rewrite list_lookup_insert_ne.
Qed.

(** Processor [i] after an access to [lk]: what is left to show. *)
Lemma cpu_ok_intro i c c' locks lk l l' :
  cpu_ok i c locks → locks !! lk = Some l →
  lock_of (c_pc c) = Some lk → lock_of (c_pc c') = Some lk ∨ lock_of (c_pc c') = None →
  (not_panicked (c_pc c') → c_ncli c' = Z.of_nat (length (c_held c')) + pushed (c_pc c')) →
  (not_panicked (c_pc c') → 0 < c_ncli c' → c_if c' = false) →
  NoDup (c_held c') →
  (∀ k, k ≠ lk → k ∈ c_held c' ↔ k ∈ c_held c) →
  (lk ∈ c_held c' → sl_locked l' = 1 ∧
    sl_cpu l' = if decide (transit (c_pc c') = Some lk) then None else Some i) →
  (sl_cpu l' = Some i → lk ∈ c_held c') →
  (transit (c_pc c') = Some lk ∨ c_pc c' = ClearCpu lk → lk ∈ c_held c') →
  (c_pc c' = Xchg lk → lk ∉ c_held c') →
  (∀ msg, c_pc c' = Panicked msg → msg = "acquire"%string ∨ msg = "release"%string) →
  cpu_ok i c' (<[lk:=l']> locks).
Proof.
  intros [_ _ _ Hheld Hcpu _ _ _] Hl Hpc Hpc' H1 H2 H3 Hk H5 H6 H7 H8 H9.
  assert (Htr : ∀ k, transit (c_pc c) = Some k → k = lk) by (destruct (c_pc c); naive_solver).
  assert (Htr' : ∀ k, transit (c_pc c') = Some k ∨ c_pc c' = ClearCpu k ∨ c_pc c' = Xchg k → k = lk)
    by (destruct (c_pc c'); naive_solver).
  split; try done.
  - intros k Hin. destruct (decide (k = lk)) as [->|Hne].
    + exists l'. rewrite list_lookup_insert_eq by (by eapply lookup_lt_Some). naive_solver.
    + destruct (Hheld k) as (l0 & ? & ? & Hc); [by apply Hk|].
      exists l0. rewrite list_lookup_insert_ne by done. repeat split; [done..|].
      rewrite Hc. rewrite !decide_False by naive_solver. done.
  - intros k l0 Hk0 Hc. apply list_lookup_insert_cases in Hk0 as [(<- & -> & _)|[Hne Hk0]]; [auto|].
    apply Hk; [done|]. by eapply Hcpu.
  - intros k Hor. assert (k = lk) as -> by naive_solver. auto.
  - intros k Hx. assert (k = lk) as -> by naive_solver. auto.
Qed.

Lemma popcli_run c :
  c_if c = false → 0 < c_ncli c →
  popcli c = Cpu ((c_ncli c - 1 =? 0) && c_intena c) (c_ncli c - 1) (c_intena c) (c_pc c) (c_held c).
Proof.
  intros Hif Hn. unfold popcli. rewrite Hif. destruct (Z.ltb_spec (c_ncli c - 1) 0); [lia|done].
Qed.

(** [holding] runs with interrupts off, so its [popcli] does not panic. *)
Lemma after_holding_run i c locks o lk r : cpu_ok i c locks → c_pc c = HoldLocked o lk ∨ c_pc c = HoldCpu o lk →
  after_holding o lk r (popcli c) =
    goto (match o with Acquire => if r then Panicked "acquire" else Xchg lk | Release => if r then ClearCpu lk else Panicked "release" end)
      (popcli c).
Proof.
  intros Hok Hpc. assert (Hnp : not_panicked (c_pc c) ∧ 0 < pushed (c_pc c)) by (by destruct Hpc as [-> | ->], o).
  destruct Hnp as [Hnp Hp]. pose proof (ok_ncli _ _ _ Hok Hnp) as Hn. assert (Hpos : 0 < c_ncli c) by lia.
  rewrite (popcli_run c (ok_if _ _ _ Hok Hnp Hpos) Hpos). unfold after_holding. cbn [c_pc]. by destruct Hpc as [-> | ->], o.
Qed.

Lemma filter_ne_length (k : nat) l :
  NoDup l → k ∈ l → Z.of_nat (length (filter (.≠ k) l)) = Z.of_nat (length l) - 1.
Proof.
  induction l as [|x l IH]; intros Hnd Hin; [by apply elem_of_nil in Hin|].
  apply NoDup_cons in Hnd as [Hx Hnd]. rewrite filter_cons. destruct (decide (x ≠ k)) as [Hne|He].
  - apply elem_of_cons in Hin as [->|Hin]; [done|]. cbn [length]. specialize (IH Hnd Hin). lia.
  - assert (x = k) as -> by (destruct (decide (x = k)); tauto).
    rewrite filter_ne by done. cbn [length]. lia.
Qed.

(** Interrupts are off after a [popcli] that leaves the counter positive. *)
Lemma still_off n b : 0 < n → (n =? 0) && b = false.
Proof. intros. by destruct (Z.eqb_spec n 0); [lia|]. Qed.

Section access.
Context (m : machine) (i : nat) (c : cpu) (lk : nat) (l : spinlock).
Hypothesis HI : inv m.
Hypothesis Hi : m_cpus m !! i = Some c.
Hypothesis Hl : m_locks m !! lk = Some l.

Let after (c' : cpu) (l' : spinlock) : machine :=
  Machine (<[i:=c']> (m_cpus m)) (<[lk:=l']> (m_locks m)).

(** [holding] is exact. *)
Lemma held_locked : lk ∈ c_held c → transit (c_pc c) = None → sl_locked l = 1 ∧ sl_cpu l = Some i.
Proof using HI Hi Hl.
  intros Hin Ht. destruct (ok_held _ _ _ (inv_cpu _ HI _ _ Hi) _ Hin) as (l0 & ? & ? & Hc).
  simplify_eq. rewrite Ht in Hc. rewrite decide_False in Hc by done. done.
Qed.

Lemma inv_holding o r :
  c_pc c = HoldLocked o lk ∨ c_pc c = HoldCpu o lk → (r = true ↔ lk ∈ c_held c) →
  inv (after (after_holding o lk r (popcli c)) l).
Proof using HI Hi Hl.
  intros Hpc Hr. pose proof (inv_cpu _ HI _ _ Hi) as Hok.
  assert (Ht : transit (c_pc c) = None ∧ not_panicked (c_pc c)) by (destruct Hpc as [-> | ->]; done).
  destruct Ht as [Ht Hnp]. pose proof (ok_ncli _ _ _ Hok Hnp) as Hn. pose proof (ok_if _ _ _ Hok Hnp) as Hf.
  assert (Hp : pushed (c_pc c) = match o with Acquire => 2 | Release => 1 end)
    by (destruct Hpc as [-> | ->], o; done).
  assert (Hpos : 0 < c_ncli c) by (destruct o; lia).
  rewrite (after_holding_run i c _ o lk r Hok Hpc), (popcli_run c (Hf Hpos) Hpos).
  pose proof (held_locked) as Hhl. pose proof (ok_cpu _ _ _ Hok _ _ Hl) as Hcpu.
  assert (Hlen : lk ∈ c_held c → (0 < length (c_held c))%nat)
    by (destruct (c_held c); [by rewrite elem_of_nil|cbn; lia]).
  eapply inv_update; [exact HI|exact Hi|exact Hl|by left| | | |by right; right].
  2-3: intros k; by destruct o, r; cbn; auto.
  eapply (cpu_ok_intro i c); [exact Hok|exact Hl|by destruct Hpc as [-> | ->]|..].
  - destruct o, r; cbn; auto.
  - destruct o, r; cbn; intros; lia.
  - destruct o, r; cbn; intros; by apply still_off.
  - destruct o, r; apply (ok_nodup _ _ _ Hok).
  - by destruct o, r.
  - intros Hin. assert (Hin' : lk ∈ c_held c) by (by destruct o, r).
    destruct (Hhl Hin' Ht). by destruct o, r; cbn; rewrite decide_False by done.
  - intros Hc. by destruct o, r; apply Hcpu.
  - intros [H|H]; destruct o, r; try done. by apply Hr.
  - intros H; destruct o, r; try done. cbn. intros Hin%Hr. done.
  - intros msg H; destruct o, r; cbn in H; simplify_eq; auto.
Qed.

Lemma inv_update_own c' l' :
  lock_of (c_pc c) = Some lk → lock_of (c_pc c') = Some lk ∨ lock_of (c_pc c') = None →
  not_panicked (c_pc c') → pushed (c_pc c') = 0 → c_ncli c' = Z.of_nat (length (c_held c')) →
  (0 < c_ncli c' → c_if c' = false) → NoDup (c_held c') →
  (∀ k, k ≠ lk → k ∈ c_held c' ↔ k ∈ c_held c) →
  lk ∈ c_held c ∨ (sl_locked l = 0 ∧ sl_cpu l' = sl_cpu l) →
  (lk ∈ c_held c' ∧ sl_locked l' = 1 ∧
     sl_cpu l' = if decide (transit (c_pc c') = Some lk) then None else Some i) ∨
  (c_pc c' = Idle ∧ lk ∉ c_held c' ∧ sl_locked l' = 0 ∧ sl_cpu l' = None) →
  inv (after c' l').
Proof using HI Hi Hl.
  intros Hpc Hpc' Hnp Hp Hn Hf Hnd Hk Hown Hlk. pose proof (inv_cpu _ HI _ _ Hi) as Hok.
  assert (Hcpu : ∀ n, sl_cpu l' = Some n → n = i)
    by (destruct Hlk as [(_ & _ & ->)|(_ & _ & _ & ->)]; [case_decide|]; naive_solver).
  eapply inv_update; [exact HI|exact Hi|exact Hl|..].
  - destruct Hown as [?|?]; auto.
  - eapply (cpu_ok_intro i c); [exact Hok|exact Hl|done|done| |auto|done|done|..].
    + intros _. rewrite Hp, Hn. lia.
    + destruct Hlk as [(_ & ? & ?)|(_ & ? & _)]; done.
    + destruct Hlk as [(? & _)|(_ & _ & _ & ->)]; done.
    + destruct Hlk as [(? & _)|(-> & _)]; [done|by intros [?|?]].
    + intros Hx. by rewrite Hx in Hp.
    + intros msg Hm. by rewrite Hm in Hnp.
  - intros k Hin. destruct (decide (k = lk)) as [->|Hne]; [destruct Hown as [?|[? _]]; auto|].
    left. by apply Hk.
  - intros k Hin. destruct (decide (k = lk)) as [->|Hne].
    + destruct Hlk as [(? & _)|(_ & _ & ? & _)]; auto.
    + left. by apply Hk.
  - destruct Hlk as [(? & ? & _)|(_ & _ & ? & ?)]; auto.
Qed.

Lemma inv_access : lock_of (c_pc c) = Some lk → inv (after (access i c l).1 (access i c l).2).
Proof using HI Hi Hl.
  intros Hpc. pose proof (inv_cpu _ HI _ _ Hi) as Hok. unfold access.
  pose proof held_locked as Hhl. pose proof (ok_cpu _ _ _ Hok _ _ Hl) as Hcpu.
  pose proof (ok_ncli _ _ _ Hok) as Hn. pose proof (ok_if _ _ _ Hok) as Hf.
  pose proof (ok_nodup _ _ _ Hok) as Hnd.
  destruct (c_pc c) as [|o lk'|o lk'|lk'|lk'|lk'|lk'|msg] eqn:Epc; cbn in Hpc; simplify_eq.
  - destruct (Z.eqb_spec (sl_locked l) 0) as [H0|H0]; cbn.
    + apply inv_holding; [by left|]. split; [done|]. intros Hin. destruct (Hhl Hin); [done|lia].
    + unfold after. rewrite (list_insert_id _ _ _ Hl). apply (inv_local _ _ c); [done|done| |done].
      destruct Hok as [_ _ ? Hheld ? _ _ _]. split; cbn; try done; rewrite ?Epc in *; auto.
      by intros k [?|?].
  - apply inv_holding; [by right|]. rewrite bool_decide_eq_true. split; [done|].
    intros Hin. by destruct (Hhl Hin).
  - pose proof (ok_acq _ _ _ Hok _ Epc) as Hnin. specialize (Hn I). specialize (Hf I). cbn in Hn.
    destruct (inv_lock _ HI _ _ Hl) as [[H0 Hc]|(H1 & _)]; rewrite ?H0, ?H1; cbn.
    + apply inv_update_own; cbn; rewrite ?Epc; auto; try lia.
      * by apply NoDup_cons.
      * set_solver.
      * left. rewrite decide_True by done. set_solver.
    + replace (SpinLock 1 (sl_cpu l)) with l by (destruct l; cbn in *; by subst).
      unfold after. rewrite (list_insert_id _ _ _ Hl), (list_insert_id _ _ _ Hi). by destruct m.
  - specialize (Hn I). specialize (Hf I). cbn in Hn. pose proof (ok_transit _ _ _ Hok lk) as Hin. rewrite Epc in Hin.
    specialize (Hin (or_introl eq_refl)).
    destruct (ok_held _ _ _ Hok _ Hin) as (l0 & ? & H1 & _). simplify_eq.
    apply inv_update_own; cbn; rewrite ?Epc; auto; try lia.
  - specialize (Hn I). specialize (Hf I). cbn in Hn. pose proof (ok_transit _ _ _ Hok lk) as Hin. rewrite Epc in Hin.
    specialize (Hin (or_intror eq_refl)). destruct (Hhl Hin) as [H1 _]; [done|].
    apply inv_update_own; cbn; rewrite ?Epc; auto; try lia.
    left. by rewrite decide_True.
  - specialize (Hn I). specialize (Hf I). cbn in Hn. pose proof (ok_transit _ _ _ Hok lk) as Hin. rewrite Epc in Hin.
    specialize (Hin (or_introl eq_refl)).
    destruct (ok_held _ _ _ Hok _ Hin) as (l0 & ? & H1 & Hc). simplify_eq.
    rewrite Epc in Hc. cbn in Hc. rewrite decide_True in Hc by done.
    assert (Hpos : 0 < c_ncli c) by (destruct (c_held c); [by apply elem_of_nil in Hin|cbn in *; lia]).
    cbn. rewrite popcli_run by (cbn; auto). cbn.
    apply inv_update_own; cbn; rewrite ?Epc; auto.
    + rewrite filter_ne_length by done. lia.
    + intros. by apply still_off.
    + by apply NoDup_filter.
    + intros k Hk. rewrite list_elem_of_filter. tauto.
    + right. rewrite list_elem_of_filter. tauto.
Qed.
End access.

Lemma booted_inv ncpu nlock : inv (booted ncpu nlock).
Proof.
  split; cbn [booted m_cpus m_locks].
  - intros i c [-> _]%lookup_replicate. split; cbn; try done; [constructor|set_solver| |by intros ? [?|?]].
    by intros lk l [-> _]%lookup_replicate.
  - intros i j ci cj lk [-> _]%lookup_replicate. set_solver.
  - intros lk l [-> _]%lookup_replicate. by left.
Qed.

Lemma inv_step m m' : inv m → step m m' → inv m'.
Proof.
  intros HI Hs. destruct Hs as [i c o lk m Hi Hpc [l Hl]|i c lk l m Hi Hpc Hl|i c m Hi Hpc Hif|i c m Hi Hpc Hn0].
  - pose proof (inv_cpu _ HI _ _ Hi) as [Hn Hf Hnd Hheld Hcpu Ht Ha Hp]. rewrite Hpc in *. cbn in *.
    specialize (Hn I). apply (inv_local _ _ c); [done|done| |by destruct o].
    destruct o; split; cbn; try done; rewrite ?Hpc; try lia; auto; by intros k [?|?].
  - by apply inv_access.
  - pose proof (inv_cpu _ HI _ _ Hi) as [Hn Hf Hnd Hheld Hcpu Ht Ha Hp]. rewrite Hpc in *.
    apply (inv_local _ _ c); [done|done| |done]. by split; cbn.
  - pose proof (inv_cpu _ HI _ _ Hi) as [Hn Hf Hnd Hheld Hcpu Ht Ha Hp]. rewrite Hpc in *.
    apply (inv_local _ _ c); [done|done| |done]. split; cbn; try done. lia.
Qed.

Lemma reachable_inv ncpu nlock m : reachable ncpu nlock m → inv m.
Proof.
  intros Hr. eapply (rtc_ind_r inv); [apply booted_inv| |exact Hr]. intros; by eapply inv_step.
Qed.

(** ** A processor running alone *)

(** Processor [i] runs from its point to the end of the call: [n] accesses at
    most. *)
Fixpoint run (n : nat) (i : nat) (m : machine) : machine :=
  match n with
  | O => m
  | S n =>
      match m_cpus m !! i with
      | Some c =>
          match lock_of (c_pc c) ≫= λ lk, pair lk <$> m_locks m !! lk with
          | Some (lk, l) =>
              run n i (Machine (<[i:=(access i c l).1]> (m_cpus m)) (<[lk:=(access i c l).2]> (m_locks m)))
          | None => m
          end
      | None => m
      end
  end.

(** A call of [acquire] or [release]: five accesses are enough when nobody
    else has the lock. *)
Definition exec (o : op) (lk i : nat) (m : machine) : machine :=
  match m_cpus m !! i with
  | Some c => run 5 i (Machine (<[i:=call o lk c]> (m_cpus m)) (m_locks m))
  | None => m
  end.

#[local] Arguments run : simpl never.
#[local] Arguments popcli : simpl never.

Lemma run_step n i m c lk l :
  m_cpus m !! i = Some c → lock_of (c_pc c) = Some lk → m_locks m !! lk = Some l →
  run (S n) i m =
    run n i (Machine (<[i:=(access i c l).1]> (m_cpus m)) (<[lk:=(access i c l).2]> (m_locks m))).
Proof. intros Hi Hpc Hl. unfold run; fold run. rewrite Hi, Hpc. cbn. by rewrite Hl. Qed.

Lemma run_rtc n i m : rtc step m (run n i m).
Proof.
  revert m. induction n as [|n IH]; intros m; [done|]. unfold run; fold run.
  destruct (m_cpus m !! i) as [c|] eqn:Hi; [|done].
  destruct (lock_of (c_pc c)) as [lk|] eqn:Hpc; cbn; [|done].
  destruct (m_locks m !! lk) as [l|] eqn:Hl; cbn; [|done].
  eapply rtc_l; [by eapply step_access|]. apply IH.
Qed.

Lemma run_idle n i m c : m_cpus m !! i = Some c → c_pc c = Idle → run n i m = m.
Proof. intros Hi Hpc. destruct n; [done|]. unfold run. by rewrite Hi, Hpc. Qed.

(** One access of a run, when the tables were just updated. *)
Lemma run_insert n i lk c l cpus locks c0 l0 :
  cpus !! i = Some c0 → locks !! lk = Some l0 → lock_of (c_pc c) = Some lk →
  run (S n) i (Machine (<[i:=c]> cpus) (<[lk:=l]> locks)) =
    run n i (Machine (<[i:=(access i c l).1]> cpus) (<[lk:=(access i c l).2]> locks)).
Proof.
  intros Hi Hl Hpc.
  rewrite (run_step n i _ c lk l); cbn [m_cpus m_locks]; [|by eauto with xv6..|by eauto with xv6].
  by rewrite !list_insert_insert_eq.
Qed.

Lemma exec_acquire m i c lk l :
  inv m → m_cpus m !! i = Some c → c_pc c = Idle → m_locks m !! lk = Some l → sl_locked l = 0 →
  exec Acquire lk i m =
    Machine (<[i:=Cpu false (c_ncli c + 1) (if c_ncli c =? 0 then c_if c else c_intena c) Idle (lk :: c_held c)]> (m_cpus m))
      (<[lk:=SpinLock 1 (Some i)]> (m_locks m)).
Proof.
  intros HI Hi Hpc Hl H0. unfold exec. rewrite Hi.
  pose proof (ok_ncli _ _ _ (inv_cpu _ HI _ _ Hi)) as Hn. rewrite Hpc in Hn. specialize (Hn I). cbn in Hn.
  rewrite <- (list_insert_id _ _ _ Hl) at 1.
  rewrite (run_insert _ _ _ _ _ _ _ c l) by done. cbn. rewrite H0. cbn.
  rewrite popcli_run by (cbn; done || lia). cbn.
  rewrite (run_insert _ _ _ _ _ _ _ c l) by done. cbn. rewrite H0. cbn.
  rewrite (run_insert _ _ _ _ _ _ _ c l) by done. cbn.
  erewrite run_idle; [|by eauto with xv6|done].
  unfold goto, set_held. cbn. rewrite still_off by lia.
  replace (c_ncli c + 1 =? 0) with false by lia. do 4 f_equal. lia.
Qed.

Lemma exec_release m i c lk l :
  inv m → m_cpus m !! i = Some c → c_pc c = Idle → m_locks m !! lk = Some l → lk ∈ c_held c →
  exec Release lk i m =
    Machine (<[i:=Cpu ((c_ncli c - 1 =? 0) && c_intena c) (c_ncli c - 1) (c_intena c) Idle (filter (.≠ lk) (c_held c))]> (m_cpus m))
      (<[lk:=SpinLock 0 None]> (m_locks m)).
Proof.
  intros HI Hi Hpc Hl Hin. unfold exec. rewrite Hi.
  pose proof (inv_cpu _ HI _ _ Hi) as Hok.
  pose proof (ok_ncli _ _ _ Hok) as Hn. pose proof (ok_if _ _ _ Hok) as Hf. rewrite Hpc in *.
  specialize (Hn I). specialize (Hf I). cbn in Hn.
  assert (Hpos : 0 < c_ncli c) by (destruct (c_held c); [by apply elem_of_nil in Hin|cbn in *; lia]).
  destruct (held_locked m i c lk l HI Hi Hl Hin) as [H1 Hc]; [by rewrite Hpc|].
  rewrite <- (list_insert_id _ _ _ Hl) at 1.
  rewrite (run_insert _ _ _ _ _ _ _ c l) by done. cbn. rewrite H1. cbn.
  rewrite (run_insert _ _ _ _ _ _ _ c l) by done. cbn. rewrite bool_decide_true by done.
  rewrite popcli_run by (cbn; done || lia). cbn.
  rewrite (run_insert _ _ _ _ _ _ _ c l) by done. cbn.
  rewrite (run_insert _ _ _ _ _ _ _ c l) by done. cbn.
  rewrite popcli_run by (cbn; first [lia | apply still_off; lia]). cbn.
  erewrite run_idle; [|by eauto with xv6|done].
  replace (c_ncli c =? 0) with false by lia. do 3 f_equal; [|lia].
  by replace (c_ncli c + 1 - 1 - 1) with (c_ncli c - 1) by lia.
Qed.

(** ** Properties *)

(** C17: mutual exclusion.  However the accesses of the processors interleave,
    no two of them have the same lock.  A lock that a processor has is marked
    as locked, and names that processor, except from the [xchg] that takes the
    lock to the write of [cpu] and from the clearing of [cpu] to that of
    [locked], where it names none; a lock that names a processor is one it
    has.  Interrupts are off on a processor that has a lock. *)
Theorem spin_mutual_exclusion ncpu nlock m i j ci cj lk :
  reachable ncpu nlock m → m_cpus m !! i = Some ci → m_cpus m !! j = Some cj →
  lk ∈ c_held ci → lk ∈ c_held cj →
  i = j ∧ (∃ l, m_locks m !! lk = Some l ∧ sl_locked l = 1 ∧
    sl_cpu l = if decide (transit (c_pc ci) = Some lk) then None else Some i) ∧
  (∀ k l, m_locks m !! k = Some l → sl_cpu l = Some i → k ∈ c_held ci) ∧
  (not_panicked (c_pc ci) → c_if ci = false).
Proof.
  intros HI%reachable_inv Hi Hj Hki Hkj. pose proof (inv_cpu _ HI _ _ Hi) as Hok.
  split_and!; [by eapply (inv_one _ HI)| |apply (ok_cpu _ _ _ Hok)|].
  - destruct (ok_held _ _ _ Hok _ Hki) as (l & ? & ? & ?). eauto.
  - intros Hnp. apply (ok_if _ _ _ Hok Hnp). rewrite (ok_ncli _ _ _ Hok Hnp).
    assert (0 ≤ pushed (c_pc ci)) by (by destruct (c_pc ci) as [|[]|[]| | | | |]).
    destruct (c_held ci); [by apply elem_of_nil in Hki|]. cbn [length]. lia.
Qed.

(** The checks of the code are exact.  In every reachable state, [acquire]
    panics only on a processor that has the lock already, [release] only on
    one that does not have it, and the counting of [pushcli] and [popcli]
    never panics. *)
Theorem spin_panics_exact ncpu nlock m i c lk l msg :
  reachable ncpu nlock m → m_cpus m !! i = Some c → m_locks m !! lk = Some l →
  lock_of (c_pc c) = Some lk → c_pc (access i c l).1 = Panicked msg →
  (msg = "acquire"%string ∧ c_pc c = HoldCpu Acquire lk ∧ lk ∈ c_held c) ∨
  (msg = "release"%string ∧ (c_pc c = HoldLocked Release lk ∨ c_pc c = HoldCpu Release lk) ∧
   lk ∉ c_held c).
Proof.
  intros HI%reachable_inv Hi Hl Hpc Hp.
  pose proof (inv_access m i c lk l HI Hi Hl Hpc) as HI'.
  destruct (ok_panic _ _ _ (inv_cpu _ HI' _ _ (insert_lookup _ _ _ _ Hi)) _ Hp) as [-> | ->].
  all: pose proof (held_locked m i c lk l HI Hi Hl) as Hhl; pose proof (λ o r, after_holding_run i c _ o lk r (inv_cpu _ HI _ _ Hi)) as Hpop;
    pose proof (ok_cpu _ _ _ (inv_cpu _ HI _ _ Hi) _ _ Hl) as Hcpu; unfold access in Hp;
    destruct (c_pc c) as [|o k|o k|k|k|k|k|?] eqn:Epc; cbn in Hpc; simplify_eq; rewrite ?(Hpop o) in Hp by auto.
  all: try (destruct o). all: cbn in Hp; try case_bool_decide; try destruct (Z.eqb_spec (sl_locked l) 0).
  all: cbn in Hp; try done; try congruence; auto.
  all: try (right; split_and!; [done|auto|intros Hin; destruct (Hhl Hin); [done|congruence || lia]]).
  all: unfold popcli in Hp; cbn in Hp; repeat case_match; cbn in *; congruence.
Qed.

(** [acquire] of a free lock on a processor that is not disturbed returns
    with the lock taken and interrupts off; the [release] after it gives the
    lock back and restores the interrupt flag and the nesting count, and
    nothing else has changed. *)
Theorem spin_acquire_release ncpu nlock m i c lk l :
  reachable ncpu nlock m → m_cpus m !! i = Some c → c_pc c = Idle →
  m_locks m !! lk = Some l → sl_locked l = 0 →
  let m' := exec Acquire lk i m in
  let c' := Cpu (c_if c) (c_ncli c) (if c_ncli c =? 0 then c_if c else c_intena c) Idle (c_held c) in
  (∃ d, m_cpus m' !! i = Some d ∧ c_pc d = Idle ∧ c_held d = lk :: c_held c ∧ c_if d = false) ∧
  m_locks m' !! lk = Some (SpinLock 1 (Some i)) ∧
  exec Release lk i m' = Machine (<[i:=c']> (m_cpus m)) (<[lk:=SpinLock 0 None]> (m_locks m)).
Proof.
  intros Hr Hi Hpc Hl H0 m' c'. pose proof (reachable_inv _ _ _ Hr) as HI.
  pose proof (inv_cpu _ HI _ _ Hi) as Hok.
  assert (Hnin : lk ∉ c_held c).
  { intros Hin. destruct (ok_held _ _ _ Hok _ Hin) as (? & ? & ? & _). simplify_eq. lia. }
  pose proof (ok_ncli _ _ _ Hok) as Hn. pose proof (ok_if _ _ _ Hok) as Hf. rewrite Hpc in *.
  specialize (Hn I). specialize (Hf I). cbn in Hn.
  pose proof (exec_acquire m i c lk l HI Hi Hpc Hl H0) as He. fold m' in He.
  assert (HI' : inv m').
  { unfold m'. apply (reachable_inv ncpu nlock). unfold reachable. etrans; [exact Hr|].
    unfold exec. rewrite Hi. eapply rtc_l; [by eapply step_call|]. apply run_rtc. }
  assert (Hd := insert_lookup (m_cpus m) i (Cpu false (c_ncli c + 1)
    (if c_ncli c =? 0 then c_if c else c_intena c) Idle (lk :: c_held c)) _ Hi).
  assert (Hk := insert_lookup (m_locks m) lk (SpinLock 1 (Some i)) _ Hl).
  split_and!; [rewrite He; eauto|by rewrite He|].
  erewrite exec_release; [|exact HI'|by rewrite He|done|by rewrite He|set_solver].
  rewrite He. cbn [m_cpus m_locks c_ncli c_intena c_held]. rewrite !list_insert_insert_eq.
  unfold c'. do 3 f_equal.
  - replace (c_ncli c + 1 - 1) with (c_ncli c) by lia.
    destruct (Z.eqb_spec (c_ncli c) 0); [done|]. symmetry. apply Hf. lia.
  - lia.
  - rewrite filter_cons_False by (by intros []). by apply filter_ne.
Qed.

(** ** Examples *)

Definition ex_taken : machine := exec Acquire 0 0 (booted 2 1).

Lemma ex_taken_reachable : reachable 2 1 ex_taken.
Proof.
  unfold reachable, ex_taken, exec. cbn [m_cpus booted replicate lookup list_lookup].
  eapply rtc_l; [|apply run_rtc]. eapply (step_call 0); [done|done|by eexists].
Qed.

(** The processor with the lock calls [acquire] again and has read [locked]. *)
Definition ex_again : machine :=
  let m := ex_taken in
  match m_cpus m !! 0%nat with
  | Some c => run 1 0 (Machine (<[0%nat:=call Acquire 0 c]> (m_cpus m)) (m_locks m))
  | None => m
  end.

Lemma ex_again_reachable : reachable 2 1 ex_again.
Proof.
  unfold reachable. etrans; [apply ex_taken_reachable|]. unfold ex_again.
  eapply rtc_l; [|apply run_rtc]. eapply (step_call 0); [vm_compute; reflexivity..|by eexists].
Qed.

Lemma spin_mutual_exclusion_witness :
  ∃ l, m_locks ex_taken !! 0%nat = Some l ∧ sl_locked l = 1 ∧ sl_cpu l = Some 0%nat.
Proof.
  exact (proj1 (proj2 (spin_mutual_exclusion 2 1 ex_taken 0 0 (Cpu false 1 false Idle [0%nat]) (Cpu false 1 false Idle [0%nat]) 0
    ex_taken_reachable eq_refl eq_refl (list_elem_of_here _ _) (list_elem_of_here _ _)))).
Defined.

Lemma spin_panics_exact_witness :
  ("acquire" = "acquire"%string ∧ HoldCpu Acquire 0 = HoldCpu Acquire 0 ∧ 0%nat ∈ [0%nat]) ∨
  ("acquire" = "release"%string ∧ (HoldCpu Acquire 0 = HoldLocked Release 0 ∨
     HoldCpu Acquire 0 = HoldCpu Release 0) ∧ 0%nat ∉ [0%nat]).
Proof.
  exact (spin_panics_exact 2 1 ex_again 0 (Cpu false 3 false (HoldCpu Acquire 0) [0%nat]) 0
    (SpinLock 1 (Some 0%nat)) "acquire" ex_again_reachable eq_refl eq_refl eq_refl eq_refl).
Defined.

Lemma spin_acquire_release_witness :
  exec Release 0 1 (exec Acquire 0 1 (booted 2 1)) =
    Machine (<[1%nat:=Cpu false 0 false Idle []]> (m_cpus (booted 2 1))) [SpinLock 0 None].
Proof.
  exact (proj2 (proj2 (spin_acquire_release 2 1 (booted 2 1) 1 (Cpu false 0 false Idle []) 0
    (SpinLock 0 None) (rtc_refl _ _) eq_refl eq_refl eq_refl eq_refl))).
Defined.
