(* ===== verification/Kalloc.v ===== *)
(** * Kalloc: the page allocator of kalloc.c

    Physical memory is a table of pages, by the address the kernel uses for
    them; the free list runs through the first word of the free pages, as in
    the code.  The invariant [kmem_ok] reads the list off the memory. *)

From Stdlib Require Import ZArith Lia.
From stdpp Require Import base numbers strings gmap list.
From S2P Require Import Prelude Memlayout.
Open Scope Z_scope.

(** ** State *)

(** [kmem] and the pages.  Locks as in Prelude.v. *)
Record kmem : Type := KMem {
  km_lock : bool;
  km_use_lock : bool;
  km_freelist : Z;
  km_pages : gmap Z (list Z);
}.

Definition set_km_lock (v : bool) (m : kmem) : kmem :=
  KMem v (km_use_lock m) (km_freelist m) (km_pages m).
Definition set_km_use_lock (v : bool) (m : kmem) : kmem :=
  KMem (km_lock m) v (km_freelist m) (km_pages m).
Definition set_km_freelist (v : Z) (m : kmem) : kmem :=
  KMem (km_lock m) (km_use_lock m) v (km_pages m).
Definition set_km_pages (v : gmap Z (list Z)) (m : kmem) : kmem :=
  KMem (km_lock m) (km_use_lock m) (km_freelist m) v.

Definition km_lock_l : lens kmem bool := Lens km_lock set_km_lock.

(** Symbols of the linker script (kernel.ld): the first address after the
    kernel, and the start of its writable data. *)
Class Linker : Type := {
  kend : Z;
  kdata : Z;
}.

(** ** Operations *)

Section kalloc.
Context {LK : Linker}.

(** [if (kmem.use_lock) acquire(&kmem.lock);] *)
Definition lock_kmem : K kmem unit :=
  b ← gets km_use_lock;
  if b : bool then acquire km_lock_l else mret tt.
Definition unlock_kmem : K kmem unit :=
  b ← gets km_use_lock;
  if b : bool then release km_lock_l else mret tt.

Definition page_addr (v : Z) : bool :=
  (v mod PGSIZE =? 0) && (kend <=? v) && (V2P v <? PHYSTOP).

(** A page with every byte [c]. *)
Definition fill_page (c : Z) : list Z := replicate (Z.to_nat PGSIZE) c.

#[global] Arguments fill_page : simpl never.

Definition write_page (v : Z) (d : list Z) : K kmem unit :=
  modify (λ m, set_km_pages (<[v:=d]> (km_pages m)) m).

Definition kfree (v : Z) : K kmem unit :=
  if negb (page_addr v) then panic "kfree" else
  write_page v (fill_page 1);;
  lock_kmem;;
  f ← gets km_freelist;
  d ← gets (λ m, km_pages m !! v);
  d ← deref d;
  write_page v (set_word d 0 f);;
  modify (set_km_freelist v);;
  unlock_kmem.

(** The result is 0 when there is no free page. *)
Definition kalloc : K kmem Z :=
  lock_kmem;;
  r ← gets km_freelist;
  (if r =? 0 then mret tt
   else d ← gets (λ m, km_pages m !! r);
        d ← deref d;
        modify (set_km_freelist (word d 0)));;
  unlock_kmem;;
  mret r.

(** The loop of [freerange]: one round for every page up to [vend]. *)
Fixpoint freerange_loop (fuel : nat) (p vend : Z) : K kmem unit :=
  if u32 (p + PGSIZE) <=? vend then
    match fuel with
    | O => nofuel
    | S fuel => kfree p;; freerange_loop fuel (u32 (p + PGSIZE)) vend
    end
  else mret tt.
Definition freerange (vstart vend : Z) : K kmem unit :=
  let p := PGROUNDUP vstart in
  freerange_loop (Z.to_nat ((vend - p) / PGSIZE)) p vend.

Definition kinit1 (vstart vend : Z) : K kmem unit :=
  modify (set_km_lock false);;
  modify (set_km_use_lock false);;
  freerange vstart vend.
Definition kinit2 (vstart vend : Z) : K kmem unit :=
  freerange vstart vend;;
  modify (set_km_use_lock true).

(** ** The free list *)

Lemma fill_page_length c : length (fill_page c) = Z.to_nat PGSIZE.
Proof. apply length_replicate. Qed.

(** [l] is the list from [p] through the first words of the pages. *)
Fixpoint free_chain (pages : gmap Z (list Z)) (p : Z) (l : list Z) : Prop :=
  match l with
  | [] => p = 0
  | q :: l => p = q ∧ ∃ d, pages !! q = Some d ∧ length d = Z.to_nat PGSIZE ∧ free_chain pages (word d 0) l
  end.

Record kmem_ok (m : kmem) (l : list Z) : Prop := {
  km_unlocked : km_lock m = false;
  km_chain : free_chain (km_pages m) (km_freelist m) l;
  km_nodup : NoDup l;
  km_addr : Forall (λ v, page_addr v = true ∧ 0 < v < 2 ^ 32) l;
}.

Lemma free_chain_other pages p l v d :
  v ∉ l → free_chain pages p l → free_chain (<[v:=d]> pages) p l.
Proof.
  revert p. induction l as [|q l IH]; intros p Hv; [done|]. apply not_elem_of_cons in Hv as [Hq Hv].
  cbn. intros (-> & e & He & Hlen & Hc). split; [done|]. exists e.
  rewrite lookup_insert_ne by done. auto.
Qed.

Lemma lock_kmem_run m : km_lock m = false → lock_kmem m = Ret tt (set_km_lock (km_use_lock m) m).
Proof.
  destruct m as [k u f p]; cbn. intros ->. unfold lock_kmem, acquire, gets. kred. cbn. by destruct u.
Qed.

Lemma unlock_kmem_run m : km_lock m = km_use_lock m → unlock_kmem m = Ret tt (set_km_lock false m).
Proof.
  destruct m as [k u f p]; cbn. intros ->. unfold unlock_kmem, release, gets. kred. cbn. by destruct u.
Qed.

(** [kfree] of a page that is not free puts it at the head of the list; the
    contents of every other page stay. *)
Lemma kfree_run m l v :
  kmem_ok m l → page_addr v = true → 0 < v < 2 ^ 32 → v ∉ l →
  let m' := KMem false (km_use_lock m) v (<[v:=set_word (fill_page 1) 0 (km_freelist m)]> (km_pages m)) in
  kfree v m = Ret tt m' ∧ kmem_ok m' (v :: l).
Proof.
  intros [Hu Hc Hnd Hp] Ha Hr Hv m'.
  assert (Hf : u32 (km_freelist m) = km_freelist m).
  { destruct l as [|q l]; cbn in Hc; [by rewrite Hc|]. destruct Hc as [-> _].
    apply Forall_cons in Hp as [[_ ?] _]. apply u32_small. lia. }
  split.
  - unfold kfree. rewrite Ha. cbn [negb]. unfold write_page. kred.
    rewrite lock_kmem_run by done. cbn. rewrite lookup_insert_eq. cbn.
    rewrite unlock_kmem_run by done. unfold set_km_lock. cbn. by rewrite insert_insert_eq.
  - split; cbn; [done| |by apply NoDup_cons|by apply Forall_cons].
    split; [done|]. eexists. rewrite lookup_insert_eq. split; [done|].
    rewrite set_word_length. split; [apply fill_page_length|].
    rewrite word_set_eq by (rewrite fill_page_length; unfold PGSIZE; lia).
    rewrite Hf. by apply free_chain_other.
Qed.

(** [kalloc] takes the head of the list. *)
Lemma kalloc_run m l :
  kmem_ok m l →
  match l with
  | [] => kalloc m = Ret 0 m
  | v :: l => ∃ m', kalloc m = Ret v m' ∧ kmem_ok m' l ∧
      km_pages m' = km_pages m ∧ km_use_lock m' = km_use_lock m
  end.
Proof.
  intros [Hu Hc Hnd Hp]. unfold kalloc. kred. rewrite lock_kmem_run by done. cbn.
  destruct l as [|v l]; cbn in Hc.
  - rewrite Hc. cbn. rewrite unlock_kmem_run by done. unfold set_km_lock. cbn.
    destruct m; cbn in *. by subst.
  - destruct Hc as (-> & d & Hd & Hlen & Hc). apply Forall_cons in Hp as [[Ha ?] Hp].
    apply NoDup_cons in Hnd as [? Hnd].
    destruct (Z.eqb_spec v 0); [lia|]. cbn. rewrite Hd. cbn. rewrite unlock_kmem_run by done.
    eexists. split; [done|]. unfold set_km_lock. cbn. by split_and!.
Qed.

(** ** Initialisation *)

(** The addresses of [n] pages from [p] on. *)
Definition pages_from (p : Z) (n : nat) : list Z := (λ i, p + PGSIZE * Z.of_nat i) <$> seq 0 n.

Lemma pages_from_S p n : pages_from p (S n) = p :: pages_from (p + PGSIZE) n.
Proof.
  unfold pages_from. cbn [seq fmap list_fmap]. f_equal; [lia|].
  rewrite <- fmap_S_seq, <- list_fmap_compose. apply list_fmap_ext. intros i x _. cbn. lia.
Qed.

Lemma elem_of_pages_from v p n :
  v ∈ pages_from p n ↔ ∃ i, 0 ≤ i < Z.of_nat n ∧ v = p + PGSIZE * i.
Proof.
  unfold pages_from. rewrite list_elem_of_fmap. split.
  - intros (i & -> & Hi%elem_of_seq). exists (Z.of_nat i). split; lia.
  - intros (i & Hi & ->). exists (Z.to_nat i). rewrite elem_of_seq. split; [f_equal; f_equal|]; lia.
Qed.

(** The pages of a range. *)
Lemma elem_of_range v p vend :
  p mod PGSIZE = 0 →
  v ∈ pages_from p (Z.to_nat ((vend - p) / PGSIZE)) ↔ v mod PGSIZE = 0 ∧ p ≤ v ∧ v + PGSIZE ≤ vend.
Proof.
  intros Hp. rewrite elem_of_pages_from. unfold PGSIZE in *. split.
  - intros (i & Hi & ->). split_and!; [|lia|].
    + rewrite Z.mul_comm, Z.mod_add by lia. done.
    + pose proof (Z.mul_div_le (vend - p) 4096). lia.
  - intros (Hv & ? & ?). exists ((v - p) / 4096).
    assert (v - p = 4096 * ((v - p) / 4096)).
    { apply Z_div_exact_full_2; [lia|]. rewrite Zminus_mod, Hv, Hp. done. }
    split; [|lia]. split; [lia|].
    assert ((v - p) / 4096 + 1 ≤ (vend - p) / 4096) by (apply Z.div_le_lower_bound; lia). lia.
Qed.

(** The addresses the kernel uses for physical memory below [PHYSTOP]. *)
Lemma page_addr_true v :
  v mod PGSIZE = 0 → kend ≤ v → KERNBASE ≤ v < P2V PHYSTOP → page_addr v = true ∧ 0 < v < 2 ^ 32.
Proof.
  change (P2V PHYSTOP) with 0x8E000000. unfold page_addr, V2P, KERNBASE, PHYSTOP. intros -> ? ?.
  rewrite u32_small by lia. split; [|lia]. rewrite !andb_true_iff, Z.leb_le, Z.ltb_lt. lia.
Qed.

Lemma freerange_loop_run n p vend m l :
  kmem_ok m l → p mod PGSIZE = 0 → n = Z.to_nat ((vend - p) / PGSIZE) →
  kend ≤ p → KERNBASE ≤ p ≤ P2V PHYSTOP → vend ≤ P2V PHYSTOP → (∀ v, v ∈ l → v < p ∨ vend ≤ v) →
  ∃ m', freerange_loop n p vend m = Ret tt m' ∧ km_use_lock m' = km_use_lock m ∧
    kmem_ok m' (reverse (pages_from p n) ++ l) ∧ ∀ w, w ∉ pages_from p n → km_pages m' !! w = km_pages m !! w.
Proof.
  change (P2V PHYSTOP) with 0x8E000000. unfold PGSIZE. revert p m l.
  induction n as [|n IH]; intros p m l Hm Hp Hn Hk Hb He Hl; cbn [freerange_loop];
    unfold PGSIZE; rewrite u32_small by (unfold KERNBASE in *; lia).
  - destruct (Z.leb_spec (p + 4096) vend) as [Hle|_]; [|by exists m].
    assert (1 ≤ (vend - p) / 4096) by (apply Z.div_le_lower_bound; lia). lia.
  - pose proof (Z.mul_div_le (vend - p) 4096).
    destruct (Z.leb_spec (p + 4096) vend) as [Hle|?]; [|lia].
    destruct (page_addr_true p) as [Ha Hr]; [done|done|change (P2V PHYSTOP) with 0x8E000000; lia|].
    destruct (kfree_run m l p Hm Ha Hr) as [Hf Hm']; [intros Hin; apply Hl in Hin; lia|].
    destruct (IH (p + 4096) _ (p :: l) Hm') as (m2 & Hrun & Hu & Hm2 & Hfr).
    + rewrite <- Zplus_mod_idemp_l, Hp. done.
    + replace (vend - (p + 4096)) with (vend - p + (-1) * 4096) by lia.
      rewrite Z.div_add by lia. lia.
    + lia.
    + lia.
    + lia.
    + intros v [->|Hv]%elem_of_cons; [lia|]. apply Hl in Hv. lia.
    + exists m2. rewrite (K_bind_Ret _ _ _ _ _ Hf). split; [done|]. split; [done|].
      rewrite pages_from_S, reverse_cons, <- app_assoc. split; [done|].
      intros w [? ?]%not_elem_of_cons. rewrite Hfr by done. cbn. by rewrite lookup_insert_ne.
Qed.

Lemma freerange_run vstart vend m l :
  kmem_ok m l → kend ≤ vstart → KERNBASE ≤ vstart → vstart + PGSIZE ≤ P2V PHYSTOP →
  vend ≤ P2V PHYSTOP → (∀ v, v ∈ l → v < vstart ∨ vend ≤ v) →
  ∃ m', freerange vstart vend m = Ret tt m' ∧ km_use_lock m' = km_use_lock m ∧
    (∀ w, w < vstart ∨ vend ≤ w → km_pages m' !! w = km_pages m !! w) ∧
    ∃ l', kmem_ok m' l' ∧
      ∀ v, v ∈ l' ↔ v ∈ l ∨ (v mod PGSIZE = 0 ∧ vstart ≤ v ∧ v + PGSIZE ≤ vend).
Proof.
  change (P2V PHYSTOP) with 0x8E000000. intros Hm Hk Hb Hs He Hl.
  destruct (PGROUNDUP_spec vstart) as [Hal Hle]; [unfold KERNBASE in *; lia|unfold PGSIZE in *; lia|].
  destruct (freerange_loop_run (Z.to_nat ((vend - PGROUNDUP vstart) / PGSIZE)) (PGROUNDUP vstart) vend m l)
    as (m' & Hrun & Hu & Hm' & Hfr); [done|done|done|lia| |done| |].
  - change (P2V PHYSTOP) with 0x8E000000. unfold PGSIZE, KERNBASE in *. lia.
  - intros v Hv. apply Hl in Hv. lia.
  - exists m'. split; [done|]. split; [done|]. split.
    { intros w Hw. apply Hfr. rewrite elem_of_range by done. unfold PGSIZE in *. lia. }
    eexists. split; [exact Hm'|]. intros v. rewrite elem_of_app, elem_of_reverse, elem_of_range by done.
    assert (v mod PGSIZE = 0 → PGROUNDUP vstart ≤ v ↔ vstart ≤ v); [|tauto].
    intros Hv. split; [lia|]. intros Hge. destruct (decide (PGROUNDUP vstart ≤ v)); [done|].
    assert (0 < PGROUNDUP vstart - v < PGSIZE) by lia.
    assert ((PGROUNDUP vstart - v) mod PGSIZE = 0) as Hz by (rewrite Zminus_mod, Hal, Hv; done).
    rewrite Z.mod_small in Hz by lia. lia.
Qed.

(** ** Pages in use *)

(** Clients of the allocator: [A] is the set of pages handed out.  A client
    may write its pages in any way, and frees only a page it has. *)
Inductive kstep : kmem * gset Z → kmem * gset Z → Prop :=
| kstep_alloc m A v m' : kalloc m = Ret v m' → kstep (m, A) (m', if decide (v = 0) then A else {[v]} ∪ A)
| kstep_free m A v m' : v ∈ A → kfree v m = Ret tt m' → kstep (m, A) (m', A ∖ {[v]})
| kstep_write m A v d m' :
    v ∈ A → length d = Z.to_nat PGSIZE → write_page v d m = Ret tt m' → kstep (m, A) (m', A).

Definition kinv (l0 : list Z) (s : kmem * gset Z) : Prop :=
  ∃ l, kmem_ok s.1 l ∧ (∀ v, v ∈ l0 ↔ v ∈ l ∨ v ∈ s.2) ∧ (∀ v, v ∈ l → v ∉ s.2).

Lemma kstep_kinv l0 s s' :
  Forall (λ v, page_addr v = true ∧ 0 < v < 2 ^ 32) l0 → kinv l0 s → kstep s s' → kinv l0 s'.
Proof.
  intros Hl0 (l & Hm & Hall & Hdis) Hs. destruct Hs as [m A v m' Ha|m A v m' Hv Hf|m A v d m' Hv Hd Hw];
    cbn [fst snd] in *.
  - pose proof (kalloc_run m l Hm) as Hr. destruct l as [|w l].
    + rewrite Ha in Hr. simplify_eq. exists []. by rewrite decide_True by done.
    + destruct Hr as (m2 & Hr & Hm2 & _). rewrite Ha in Hr. simplify_eq.
      pose proof (km_nodup _ _ Hm) as [Hw _]%NoDup_cons.
      pose proof (km_addr _ _ Hm) as [[_ Hpos] _]%Forall_cons.
      exists l. rewrite decide_False by lia. cbn. split; [done|]. split; [set_solver|].
      intros u Hu. assert (u ∉ A) by (apply Hdis; set_solver). set_solver.
  - assert (Hv0 : v ∈ l0) by (apply Hall; by right). rewrite Forall_forall in Hl0.
    apply Hl0 in Hv0 as [Hpa Hr].
    destruct (kfree_run m l v Hm Hpa Hr) as [Hf' Hm2]; [intros Hin; by apply (Hdis v)|].
    rewrite Hf in Hf'. simplify_eq. exists (v :: l). cbn. split; [done|]. split.
    + intros u. rewrite Hall. destruct (decide (u = v)); set_solver.
    + intros u Hu. apply elem_of_cons in Hu as [->|Hu]; [set_solver|]. apply Hdis in Hu. set_solver.
  - unfold write_page, modify in Hw. simplify_eq. exists l. cbn. split; [|done].
    destruct Hm as [? Hc ? ?]. split; try done. cbn. apply free_chain_other; [|done].
    intros Hin. by apply (Hdis v).
Qed.

Lemma ksteps_kinv m0 l0 s : kmem_ok m0 l0 → rtc kstep (m0, ∅) s → kinv l0 s.
Proof.
  intros Hm Hs. eapply (rtc_ind_r (kinv l0)); [| |exact Hs].
  - exists l0. cbn. split; [done|]. split; set_solver.
  - intros x y _ Hxy Hx. by eapply kstep_kinv; [apply (km_addr _ _ Hm)|..].
Qed.

(** ** Properties *)

(** [kinit1] then [kinit2], called as [main] calls them, free every page
    from the end of the kernel to [PHYSTOP] exactly once and nothing else,
    and leave the allocator using its lock. *)
Theorem kinit_frees_all m :
  KERNBASE ≤ kend → kend + PGSIZE ≤ P2V (4 * 1024 * 1024) →
  km_freelist m = 0 →
  ∃ m' l, (kinit1 kend (P2V (4 * 1024 * 1024));; kinit2 (P2V (4 * 1024 * 1024)) (P2V PHYSTOP)) m = Ret tt m' ∧
    km_use_lock m' = true ∧ kmem_ok m' l ∧
    ∀ v, v ∈ l ↔ v mod PGSIZE = 0 ∧ kend ≤ v ∧ v + PGSIZE ≤ P2V PHYSTOP.
Proof.
  change (P2V PHYSTOP) with 0x8E000000. change (P2V (4 * 1024 * 1024)) with 0x80400000.
  intros Hb He Hf. set (m1 := set_km_use_lock false (set_km_lock false m)).
  assert (Hm1 : kmem_ok m1 []) by (split; cbn; [done|done|constructor|done]).
  destruct (freerange_run kend 0x80400000 m1 []) as (m2 & Hr2 & Hu2 & _ & l2 & Hm2 & Hl2);
    [done|done|done|change (P2V PHYSTOP) with 0x8E000000; lia|by vm_compute|set_solver|].
  destruct (freerange_run 0x80400000 0x8E000000 m2 l2) as (m3 & Hr3 & Hu3 & _ & l3 & Hm3 & Hl3);
    [done|unfold PGSIZE in *; lia|by vm_compute|by vm_compute|done| |].
  { intros v Hv. rewrite Hl2 in Hv. destruct Hv as [Hv|Hv]; [set_solver|]. unfold PGSIZE in *. lia. }
  exists (set_km_use_lock true m3), l3. split_and!; [|done| |].
  - unfold kinit1, kinit2, modify. kred. fold m1. by rewrite Hr2, Hr3.
  - destruct Hm3. by split.
  - intros v. rewrite Hl3, Hl2. split.
    + intros [[?|?]|?]; [set_solver|unfold PGSIZE in *; lia..].
    + intros (Hv & ? & ?). destruct (decide (v + PGSIZE ≤ 0x80400000)); [set_solver|].
      right. split_and!; [done| |done].
      destruct (decide (0x80400000 ≤ v)); [done|].
      assert (Hz : (0x80400000 - v) mod PGSIZE = 0) by (rewrite Zminus_mod, Hv; done).
      unfold PGSIZE in *. rewrite Z.mod_small in Hz by lia. lia.
Qed.

(** C18: however clients allocate, free and write their pages, [kalloc] returns
    a page that is not in use, with no page changed, and returns 0 only when
    every page is in use; [kfree] of a page in use returns.  Writing to pages
    in use cannot damage the free list. *)
Theorem kalloc_exclusive m0 l0 m A :
  kmem_ok m0 l0 → rtc kstep (m0, ∅) (m, A) →
  ((∀ v, v ∈ l0 → v ∈ A) ∧ kalloc m = Ret 0 m ∨
   ∃ v m', kalloc m = Ret v m' ∧ v ≠ 0 ∧ v ∈ l0 ∧ v ∉ A ∧ km_pages m' = km_pages m) ∧
  ∀ v, v ∈ A → ∃ m', kfree v m = Ret tt m' ∧ kalloc m' ≠ Ret 0 m'.
Proof.
  intros Hm0 Hs. destruct (ksteps_kinv _ _ _ Hm0 Hs) as (l & Hm & Hall & Hdis). cbn in *.
  pose proof (km_addr _ _ Hm0) as Hl0. rewrite Forall_forall in Hl0. split.
  - pose proof (kalloc_run m l Hm) as Hr. destruct l as [|v l]; [left; set_solver|right].
    destruct Hr as (m' & Hr & _ & Hp & _). exists v, m'.
    pose proof (km_addr _ _ Hm) as [[_ Hpos] _]%Forall_cons.
    split_and!; [done|lia|set_solver|apply Hdis; set_solver|done].
  - intros v Hv. destruct (Hl0 v) as [Hpa Hr]; [set_solver|].
    destruct (kfree_run m l v Hm Hpa Hr) as [Hf Hm2]; [intros Hin; by apply (Hdis v)|].
    eexists. split; [exact Hf|]. destruct (kalloc_run _ _ Hm2) as (m' & -> & _).
    intros ?. simplify_eq. lia.
Qed.

End kalloc.

(** ** Examples *)

(** A kernel that ends at [0x80110000], with two free pages. *)
Definition ex_linker : Linker := {| kend := 0x80110000; kdata := 0x80108000 |}.
Definition ex_kmem : kmem :=
  match (kfree (LK:=ex_linker) 0x80200000;; kfree (LK:=ex_linker) 0x80300000) (KMem false false 0 ∅) with
  | Ret _ m => m
  | _ => KMem false false 0 ∅
  end.

Lemma ex_kmem_ok : kmem_ok (LK:=ex_linker) ex_kmem [0x80300000; 0x80200000].
Proof.
  destruct (kfree_run (LK:=ex_linker) (KMem false false 0 ∅) [] 0x80200000) as [E1 H1];
    [split; [done|done|constructor|done]|done|done|set_solver|].
  destruct (kfree_run (LK:=ex_linker) _ _ 0x80300000 H1) as [E2 H2];
    [done|done|by intros ?%list_elem_of_singleton|].
  unfold ex_kmem. rewrite (K_bind_Ret _ _ _ _ _ E1), E2. exact H2.
Qed.

Lemma kalloc_exclusive_witness :
  ∃ v m', kalloc ex_kmem = Ret v m' ∧ v ≠ 0 ∧ v ∈ [0x80300000; 0x80200000] ∧ v ∉ (∅ : gset Z) ∧
    km_pages m' = km_pages ex_kmem.
Proof.
  destruct (proj1 (kalloc_exclusive (LK:=ex_linker) ex_kmem _ ex_kmem ∅ ex_kmem_ok (rtc_refl _ _)))
    as [[H _]|H]; [|exact H].
  destruct (not_elem_of_empty (C:=gset Z) 0x80300000). apply H. left.
Defined.

Lemma kinit_frees_all_witness :
  ∃ m' l, (kinit1 (LK:=ex_linker) 0x80110000 (P2V (4 * 1024 * 1024));;
           kinit2 (LK:=ex_linker) (P2V (4 * 1024 * 1024)) (P2V PHYSTOP)) (KMem false false 0 ∅) = Ret tt m' ∧
    km_use_lock m' = true ∧ kmem_ok (LK:=ex_linker) m' l ∧
    ∀ v, v ∈ l ↔ v mod PGSIZE = 0 ∧ 0x80110000 ≤ v ∧ v + PGSIZE ≤ P2V PHYSTOP.
Proof.
  apply (kinit_frees_all (LK:=ex_linker)); [by vm_compute|by vm_compute|reflexivity].
Defined.
