(* ===== verification/Vm.v ===== *)
(** * Vm: page tables (vm.c)

    Page directories and page tables are pages of the allocator's memory, read
    and written as 32-bit words, with the entries as the hardware has them.  A
    pointer to an entry is a page and an index. *)

From Stdlib Require Import ZArith Lia.
From stdpp Require Import base numbers strings gmap list.
From S2P Require Import Prelude Memlayout Kalloc.
Open Scope Z_scope.

Section vm.
Context {LK : Linker}.

(** ** Words of memory *)

(** A pointer to a page table entry: the page and the index. *)
Definition ptep : Type := Z * Z.

Definition read_page (v : Z) : K kmem (list Z) :=
  d ← gets (λ m, km_pages m !! v);
  deref d.
Definition read_pte (p : ptep) : K kmem Z :=
  d ← read_page p.1;
  mret (word d (Z.to_nat p.2)).
Definition write_pte (p : ptep) (x : Z) : K kmem unit :=
  d ← read_page p.1;
  write_page p.1 (set_word d (Z.to_nat p.2) x).

Definition present (pte : Z) : bool := negb (Z.land pte PTE_P =? 0).

(** ** Walking and mapping *)

Definition walkpgdir (pgdir va : Z) (alloc : bool) : K kmem (option ptep) :=
  let pde := (pgdir, PDX va) in
  e ← read_pte pde;
  if present e then mret (Some (P2V (PTE_ADDR e), PTX va)) else
  if negb alloc then mret None else
  pgtab ← kalloc;
  if pgtab =? 0 then mret None else
  write_page pgtab (fill_page 0);;
  write_pte pde (Z.lor (Z.lor (Z.lor (V2P pgtab) PTE_P) PTE_W) PTE_U);;
  mret (Some (pgtab, PTX va)).

(** The loop of [mappages]: [(last - a) / PGSIZE + 1] rounds. *)
Fixpoint mappages_loop (fuel : nat) (pgdir a last pa perm : Z) : K kmem Z :=
  match fuel with
  | O => nofuel
  | S fuel =>
      pte ← walkpgdir pgdir a true;
      match pte with
      | None => mret (-1)
      | Some pte =>
          e ← read_pte pte;
          if present e then panic "remap" else
          write_pte pte (Z.lor (Z.lor pa perm) PTE_P);;
          if a =? last then mret 0
          else mappages_loop fuel pgdir (u32 (a + PGSIZE)) last (u32 (pa + PGSIZE)) perm
      end
  end.
Definition mappages (pgdir va size pa perm : Z) : K kmem Z :=
  let a := PGROUNDDOWN va in
  let last := PGROUNDDOWN (u32 (va + size - 1)) in
  mappages_loop (Z.to_nat (u32 (last - a) / PGSIZE + 1)) pgdir a last pa perm.

(** ** Freeing *)

Fixpoint deallocuvm_loop (fuel : nat) (pgdir a oldsz : Z) : K kmem unit :=
  if a <? oldsz then
    match fuel with
    | O => nofuel
    | S fuel =>
        pte ← walkpgdir pgdir a false;
        match pte with
        | None => deallocuvm_loop fuel pgdir (PGADDR (PDX a + 1) 0 0) oldsz
        | Some pte =>
            e ← read_pte pte;
            (if present e then
               let pa := PTE_ADDR e in
               if pa =? 0 then panic "kfree" else
               kfree (P2V pa);;
               write_pte pte 0
             else mret tt);;
            deallocuvm_loop fuel pgdir (u32 (a + PGSIZE)) oldsz
        end
    end
  else mret tt.
Definition deallocuvm (pgdir oldsz newsz : Z) : K kmem Z :=
  if oldsz <=? newsz then mret oldsz else
  deallocuvm_loop (Z.to_nat (oldsz / PGSIZE + 1)) pgdir (PGROUNDUP newsz) oldsz;;
  mret newsz.

Definition free_pgtab (pgdir : Z) (i : Z) : K kmem unit :=
  e ← read_pte (pgdir, i);
  if present e then kfree (P2V (PTE_ADDR e)) else mret tt.
Definition freevm (pgdir : Z) : K kmem unit :=
  if pgdir =? 0 then panic "freevm: no pgdir" else
  deallocuvm pgdir KERNBASE 0;;
  for_each (seqZ 0 (Z.of_nat NPDENTRIES)) (free_pgtab pgdir);;
  kfree pgdir.

(** ** The kernel's mappings *)

Record kmap_entry : Type := KMap {
  km_virt : Z;
  km_phys_start : Z;
  km_phys_end : Z;
  km_perm : Z;
}.
Definition kmap : list kmap_entry := [
  KMap KERNBASE 0 EXTMEM PTE_W;
  KMap KERNLINK (V2P KERNLINK) (V2P kdata) 0;
  KMap kdata (V2P kdata) PHYSTOP PTE_W;
  KMap DEVSPACE DEVSPACE 0 PTE_W
].

Fixpoint map_kernel (pgdir : Z) (l : list kmap_entry) : K kmem Z :=
  match l with
  | [] => mret pgdir
  | k :: l =>
      r ← mappages pgdir (km_virt k) (u32 (km_phys_end k - km_phys_start k)) (km_phys_start k) (km_perm k);
      if r <? 0 then freevm pgdir;; mret 0 else map_kernel pgdir l
  end.
Definition setupkvm : K kmem Z :=
  pgdir ← kalloc;
  if pgdir =? 0 then mret 0 else
  write_page pgdir (fill_page 0);;
  if DEVSPACE <? P2V PHYSTOP then panic "PHYSTOP too high" else
  map_kernel pgdir kmap.

(** ** User memory *)

(** [memset] and [memmove] at [kalloc]'s result when that is null. *)
Definition inituvm (pgdir : Z) (init : list Z) : K kmem unit :=
  let sz := Z.of_nat (length init) in
  if PGSIZE <=? sz then panic "inituvm: more than a page" else
  mem ← kalloc;
  if mem =? 0 then fault else
  write_page mem (fill_page 0);;
  mappages pgdir 0 PGSIZE (V2P mem) (Z.lor PTE_W PTE_U);;
  d ← read_page mem;
  write_page mem (list_inserts 0 init d).

Fixpoint allocuvm_loop (fuel : nat) (pgdir a oldsz newsz : Z) : K kmem Z :=
  if a <? newsz then
    match fuel with
    | O => nofuel
    | S fuel =>
        mem ← kalloc;
        if mem =? 0 then
          deallocuvm pgdir newsz oldsz;;
          mret 0
        else
        write_page mem (fill_page 0);;
        r ← mappages pgdir a PGSIZE (V2P mem) (Z.lor PTE_W PTE_U);
        if r <? 0 then
          deallocuvm pgdir newsz oldsz;;
          kfree mem;;
          mret 0
        else allocuvm_loop fuel pgdir (u32 (a + PGSIZE)) oldsz newsz
    end
  else mret newsz.
Definition allocuvm (pgdir oldsz newsz : Z) : K kmem Z :=
  if KERNBASE <=? newsz then mret 0 else
  if newsz <? oldsz then mret oldsz else
  allocuvm_loop (Z.to_nat (newsz / PGSIZE + 1)) pgdir (PGROUNDUP oldsz) oldsz newsz.

Definition clearpteu (pgdir uva : Z) : K kmem unit :=
  pte ← walkpgdir pgdir uva false;
  match pte with
  | None => panic "clearpteu"
  | Some pte =>
      e ← read_pte pte;
      write_pte pte (Z.land e (u32 (Z.lnot PTE_U)))
  end.

Fixpoint copyuvm_loop (fuel : nat) (pgdir d i sz : Z) : K kmem Z :=
  if i <? sz then
    match fuel with
    | O => nofuel
    | S fuel =>
        pte ← walkpgdir pgdir i false;
        match pte with
        | None => panic "copyuvm: pte should exist"
        | Some pte =>
            e ← read_pte pte;
            if negb (present e) then panic "copyuvm: page not present" else
            mem ← kalloc;
            if mem =? 0 then freevm d;; mret 0 else
            bytes ← read_page (P2V (PTE_ADDR e));
            write_page mem bytes;;
            r ← mappages d i PGSIZE (V2P mem) (PTE_FLAGS e);
            if r <? 0 then kfree mem;; freevm d;; mret 0
            else copyuvm_loop fuel pgdir d (u32 (i + PGSIZE)) sz
        end
    end
  else mret d.
Definition copyuvm (pgdir sz : Z) : K kmem Z :=
  d ← setupkvm;
  if d =? 0 then mret 0 else
  copyuvm_loop (Z.to_nat (sz / PGSIZE + 1)) pgdir d 0 sz.

(** The entry is read without a test for a missing page table. *)
Definition uva2ka (pgdir uva : Z) : K kmem Z :=
  pte ← walkpgdir pgdir uva false;
  pte ← deref pte;
  e ← read_pte pte;
  if negb (present e) then mret 0 else
  if Z.land e PTE_U =? 0 then mret 0 else
  mret (P2V (PTE_ADDR e)).

(** Every round but the first starts at a page, so [len / PGSIZE + 2] rounds
    are enough. *)
Fixpoint copyout_loop (fuel : nat) (pgdir va : Z) (buf : list Z) (len : Z) : K kmem Z :=
  if 0 <? len then
    match fuel with
    | O => nofuel
    | S fuel =>
        let va0 := PGROUNDDOWN va in
        pa0 ← uva2ka pgdir va0;
        if pa0 =? 0 then mret (-1) else
        let n := Z.min (PGSIZE - (va - va0)) len in
        d ← read_page pa0;
        write_page pa0 (list_inserts (Z.to_nat (va - va0)) (take (Z.to_nat n) buf) d);;
        copyout_loop fuel pgdir (u32 (va0 + PGSIZE)) (drop (Z.to_nat n) buf) (len - n)
    end
  else mret 0.
Definition copyout (pgdir va : Z) (p : list Z) (len : Z) : K kmem Z :=
  copyout_loop (Z.to_nat (len / PGSIZE + 2)) pgdir va p len.

End vm.
