(* ===== verification/PageTable.v ===== *)
(** * PageTable: address spaces over page tables

    The page tables of Vm.v as partial maps from page numbers to entries.
    [pt_ok] is the shape of a page directory with its tables, [space_ok] adds
    the pages of the user half; the operations of vm.c are shown to implement
    operations on the map [uent] from page numbers to permissions and
    contents. *)

From Stdlib Require Import ZArith Lia.
From stdpp Require Import base numbers strings gmap list.
From S2P Require Import Prelude Memlayout Kalloc Vm.
Open Scope Z_scope.

(** ** Bits of addresses and entries *)

Lemma lor_aligned a f : a mod PGSIZE = 0 → 0 ≤ f < PGSIZE → Z.lor a f = a + f.
Proof.
  intros Ha Hf. assert (Hz : Z.land a f = 0).
  { apply Z.bits_inj'. intros n Hn. rewrite Z.land_spec, Z.bits_0. destruct (Z.ltb_spec n 12).
    - replace a with (Z.shiftl (a / PGSIZE) 12).
      + rewrite Z.shiftl_spec_low by done. done.
      + rewrite Z.shiftl_mul_pow2 by lia. pose proof (Z.div_mod a PGSIZE). unfold PGSIZE in *. change (2 ^ 12) with 4096. lia.
    - rewrite (Z.bits_above_log2 f n), andb_false_r; [done|lia|].
      destruct (decide (f = 0)) as [->|]; [cbn; lia|]. apply Z.log2_lt_pow2; [lia|].
      unfold PGSIZE in *. assert (2 ^ 12 ≤ 2 ^ n) by (apply Z.pow_le_mono_r; lia). lia. }
  pose proof (Z.add_lor_land a f). lia.
Qed.

(** The entry that maps a page at physical address [pa]. *)
Definition mk_pte (pa perm : Z) : Z := Z.lor (Z.lor pa perm) PTE_P.

Lemma lor_flags perm : 0 ≤ perm < PGSIZE → 0 ≤ Z.lor perm PTE_P < PGSIZE.
Proof.
  intros Hp. split; [apply Z.lor_nonneg; unfold PTE_P; lia|]. unfold PGSIZE in *.
  change 4096 with (2 ^ 12). destruct (decide (Z.lor perm PTE_P = 0)) as [->|]; [done|].
  apply Z.log2_lt_pow2. { pose proof (Z.lor_nonneg perm PTE_P). unfold PTE_P in *. lia. }
  rewrite Z.log2_lor by (unfold PTE_P; lia). apply Z.max_lub_lt; [|done].
  destruct (decide (perm = 0)) as [->|]; [done|]. apply Z.log2_lt_pow2; lia.
Qed.

Lemma mk_pte_add pa perm : pa mod PGSIZE = 0 → 0 ≤ perm < PGSIZE → mk_pte pa perm = pa + Z.lor perm PTE_P.
Proof. intros. unfold mk_pte. rewrite <- Z.lor_assoc. by apply lor_aligned; [|apply lor_flags]. Qed.

Lemma land_low a f : a mod PGSIZE = 0 → 0 ≤ f < PGSIZE → Z.land (a + f) 0xFFF = f.
Proof.
  intros Ha Hf. change 0xFFF with (Z.ones 12). rewrite Z.land_ones by lia. change (2 ^ 12) with PGSIZE.
  rewrite <- Zplus_mod_idemp_l, Ha. by apply Z.mod_small.
Qed.

Lemma present_flags e : present e = negb (Z.land (Z.land e 0xFFF) PTE_P =? 0).
Proof. unfold present. by rewrite <- Z.land_assoc. Qed.

Lemma mk_pte_spec pa perm :
  0 ≤ pa < 2 ^ 32 → pa mod PGSIZE = 0 → 0 ≤ perm < PGSIZE →
  u32 (mk_pte pa perm) = mk_pte pa perm ∧ present (mk_pte pa perm) = true ∧
  PTE_ADDR (mk_pte pa perm) = pa ∧ PTE_FLAGS (mk_pte pa perm) = Z.lor perm PTE_P.
Proof.
  intros Hr Ha Hp. rewrite mk_pte_add by done. pose proof (lor_flags perm Hp) as Hf.
  assert (pa + PGSIZE ≤ 2 ^ 32).
  { pose proof (Z.div_mod pa PGSIZE). unfold PGSIZE in *. lia. }
  assert (Hu : u32 (pa + Z.lor perm PTE_P) = pa + Z.lor perm PTE_P) by (apply u32_small; lia).
  split_and!.
  - done.
  - rewrite present_flags, land_low by done. destruct (Z.eqb_spec (Z.land (Z.lor perm PTE_P) PTE_P) 0) as [E|]; [|done].
    rewrite Z.land_lor_distr_l, Z.lor_eq_0_iff in E. by destruct E.
  - rewrite PTE_ADDR_spec by lia. rewrite <- Zplus_mod_idemp_l, Ha, Z.add_0_l, Z.mod_small by done. lia.
  - unfold PTE_FLAGS. rewrite Hu. by apply land_low.
Qed.

Lemma V2P_P2V v : 0 ≤ v < 2 ^ 32 → P2V (V2P v) = v.
Proof.
  intros Hv. unfold P2V, V2P. rewrite u32_add_l. replace (v - KERNBASE + KERNBASE) with v by lia.
  by apply u32_small.
Qed.

Lemma V2P_aligned v : v mod PGSIZE = 0 → 0 ≤ V2P v < 2 ^ 32 ∧ V2P v mod PGSIZE = 0.
Proof.
  intros Hv. split; [apply u32_range|]. unfold V2P, u32, PGSIZE in *.
  rewrite Z.mod_mod_divide by (by exists (2 ^ 20)). rewrite Zminus_mod, Hv. done.
Qed.

(** The directory and table index of the page with number [i]. *)
Lemma PDX_page a : 0 ≤ a < 2 ^ 32 → PDX a = a / PGSIZE / 1024.
Proof.
  intros Ha. unfold PDX, PDXSHIFT, PGSIZE. rewrite u32_small by done.
  rewrite Z.shiftr_div_pow2, Z.div_div by lia. change (2 ^ 22) with (4096 * 1024).
  change 0x3FF with (Z.ones 10). rewrite Z.land_ones by lia. apply Z.mod_small.
  split; [apply Z.div_pos; lia|]. apply Z.div_lt_upper_bound; lia.
Qed.
Lemma PTX_page a : 0 ≤ a < 2 ^ 32 → PTX a = (a / PGSIZE) mod 1024.
Proof.
  intros Ha. unfold PTX, PTXSHIFT, PGSIZE. rewrite u32_small by done.
  rewrite Z.shiftr_div_pow2 by lia. change (2 ^ 12) with 4096.
  change 0x3FF with (Z.ones 10). by rewrite Z.land_ones by lia.
Qed.

Lemma dir_index n : 0 ≤ n < 2 ^ 20 → 0 ≤ n / 1024 < 1024.
Proof. intros. split; [apply Z.div_pos|apply Z.div_lt_upper_bound]; lia. Qed.

Lemma word_fill_0 i : word (fill_page 0) i = 0.
Proof.
  unfold word, fill_page. rewrite drop_replicate, take_replicate.
  induction (Init.Nat.min 4 _) as [|n IH]; [done|]. cbn [replicate le_val]. lia.
Qed.

Section pagetable.
Context {LK : Linker}.

(** ** Directories and tables *)

(** Entry [i] of the page [v]; the table of directory entry [i]; the entry of
    the page with number [n]. *)
Definition pde (m : kmem) (v i : Z) : Z :=
  match km_pages m !! v with
  | Some d => word d (Z.to_nat i)
  | None => 0
  end.
Definition tab (m : kmem) (pd i : Z) : option Z :=
  if present (pde m pd i) then Some (P2V (PTE_ADDR (pde m pd i))) else None.
Definition pte_of (m : kmem) (pd n : Z) : Z :=
  match tab m pd (n / 1024) with
  | Some t => pde m t (n mod 1024)
  | None => 0
  end.

(** A page of memory that is not on the free list [l]. *)
Definition in_use (m : kmem) (l : list Z) (v : Z) : Prop :=
  page_addr v = true ∧ 0 < v < 2 ^ 32 ∧ v ∉ l ∧
  ∃ d, km_pages m !! v = Some d ∧ length d = Z.to_nat PGSIZE.

Record pt_ok (m : kmem) (l : list Z) (pd : Z) : Prop := {
  pt_mem : kmem_ok m l;
  pt_dir : in_use m l pd;
  pt_tab i t : 0 ≤ i < 1024 → tab m pd i = Some t → in_use m l t ∧ t ≠ pd;
  pt_inj i j t : 0 ≤ i < 1024 → 0 ≤ j < 1024 → tab m pd i = Some t → tab m pd j = Some t → i = j;
}.

(** The pages of the directory itself. *)
Definition pt_owned (m : kmem) (pd v : Z) : Prop := v = pd ∨ ∃ i, 0 ≤ i < 1024 ∧ tab m pd i = Some v.

(** The directory may take pages from the free list, and no other page
    changes. *)
Record pstep (pd : Z) (m : kmem) (l : list Z) (m' : kmem) (l' : list Z) : Prop := {
  ps_ok : pt_ok m' l' pd;
  ps_free : l' `suffix_of` l;
  ps_frame v : v ∉ l → ¬ pt_owned m pd v → km_pages m' !! v = km_pages m !! v;
  ps_owned v : v ∈ l' ∨ pt_owned m' pd v ↔ v ∈ l ∨ pt_owned m pd v;
}.

Lemma pstep_refl pd m l : pt_ok m l pd → pstep pd m l m l.
Proof. intros. by split. Qed.

Lemma pstep_trans pd m1 l1 m2 l2 m3 l3 : pstep pd m1 l1 m2 l2 → pstep pd m2 l2 m3 l3 → pstep pd m1 l1 m3 l3.
Proof.
  intros [A1 A2 A3 A4] [B1 B2 B3 B4]. split; [done|by etrans| |].
  - intros v Hl Ho. assert (v ∉ l2 ∧ ¬ pt_owned m2 pd v) as [? ?] by (specialize (A4 v); tauto).
    by rewrite B3, A3.
  - intros v. rewrite B4. apply A4.
Qed.

Lemma page_aligned v : page_addr v = true → v mod PGSIZE = 0.
Proof. unfold page_addr. rewrite !andb_true_iff, Z.eqb_eq. tauto. Qed.

Lemma pde_insert m v w d i :
  pde (set_km_pages (<[v:=d]> (km_pages m)) m) w i = if decide (w = v) then word d (Z.to_nat i) else pde m w i.
Proof.
  unfold pde. cbn. destruct (decide (w = v)) as [->|]; [by rewrite lookup_insert_eq|by rewrite lookup_insert_ne].
Qed.

(** Writing a page in use. *)
Lemma kmem_ok_write m l v d : kmem_ok m l → v ∉ l → kmem_ok (set_km_pages (<[v:=d]> (km_pages m)) m) l.
Proof. intros [? ? ? ?] Hv. split; try done. cbn. by apply free_chain_other. Qed.
Lemma in_use_write m l v d w :
  in_use m l w → length d = Z.to_nat PGSIZE → in_use (set_km_pages (<[v:=d]> (km_pages m)) m) l w.
Proof.
  intros (? & ? & ? & e & ? & ?) Hd. do 3 (split; [done|]). cbn. destruct (decide (w = v)) as [->|].
  - exists d. by rewrite lookup_insert_eq.
  - exists e. by rewrite lookup_insert_ne.
Qed.

Lemma read_pte_run m l v i : in_use m l v → read_pte (v, i) m = Ret (pde m v i) m.
Proof. intros (_ & _ & _ & d & Hd & _). unfold read_pte, read_page, pde. kred. cbn. by rewrite Hd. Qed.

Lemma write_pte_run m l v i x :
  in_use m l v → 0 ≤ i < 1024 →
  ∃ d, length d = Z.to_nat PGSIZE ∧ write_pte (v, i) x m = Ret tt (set_km_pages (<[v:=d]> (km_pages m)) m) ∧
    ∀ j, 0 ≤ j → word d (Z.to_nat j) = if decide (j = i) then u32 x else pde m v j.
Proof.
  intros (_ & _ & _ & d & Hd & Hlen) Hi. exists (set_word d (Z.to_nat i) x). split_and!.
  - by rewrite set_word_length.
  - unfold write_pte, read_page, write_page. kred. cbn. by rewrite Hd.
  - intros j Hj. unfold pde. rewrite Hd. destruct (decide (j = i)) as [->|].
    + rewrite word_set_eq; [done|]. rewrite Hlen. unfold PGSIZE. lia.
    + rewrite word_set_ne by lia. done.
Qed.

Lemma write_frame m m' v i x w : write_pte (v, i) x m = Ret tt m' → w ≠ v → km_pages m' !! w = km_pages m !! w.
Proof.
  unfold write_pte, read_page, write_page. kred. cbn. destruct (km_pages m !! v); [|done].
  intros [= <-] Hne. cbn. by rewrite lookup_insert_ne.
Qed.

Lemma walk_existing m l pd a alloc t :
  pt_ok m l pd → tab m pd (PDX a) = Some t → walkpgdir pd a alloc m = Ret (Some (t, PTX a)) m.
Proof.
  intros Hp Ht. unfold walkpgdir. rewrite (K_bind_Ret _ _ _ _ _ (read_pte_run _ _ _ _ (pt_dir _ _ _ Hp))).
  unfold tab in Ht. destruct (present (pde m pd (PDX a))); [|done]. by injection Ht as ->.
Qed.

Lemma walk_missing m l pd a :
  pt_ok m l pd → tab m pd (PDX a) = None → walkpgdir pd a false m = Ret None m.
Proof.
  intros Hp Ht. unfold walkpgdir. rewrite (K_bind_Ret _ _ _ _ _ (read_pte_run _ _ _ _ (pt_dir _ _ _ Hp))).
  unfold tab in Ht. by destruct (present (pde m pd (PDX a))).
Qed.

(** Writing an entry of a table. *)
Lemma set_pte_run m l pd n t x :
  pt_ok m l pd → 0 ≤ n < 2 ^ 20 → tab m pd (n / 1024) = Some t →
  ∃ m', write_pte (t, n mod 1024) x m = Ret tt m' ∧ pstep pd m l m' l ∧
    (∀ i, tab m' pd i = tab m pd i) ∧
    ∀ k, 0 ≤ k < 2 ^ 20 → pte_of m' pd k = if decide (k = n) then u32 x else pte_of m pd k.
Proof.
  intros Hp Hn Ht. pose proof (dir_index n ltac:(done)) as Hdir.
  destruct (pt_tab _ _ _ Hp _ _ Hdir Ht) as [Hu Hne].
  destruct (write_pte_run m l t (n mod 1024) x Hu) as (d & Hd & Hrun & Hw); [apply Z.mod_pos_bound; lia|].
  eexists. split; [exact Hrun|].
  assert (Htab : ∀ i, tab (set_km_pages (<[t:=d]> (km_pages m)) m) pd i = tab m pd i).
  { intros i. unfold tab. by rewrite pde_insert, decide_False by done. }
  split_and!; [split| |].
  - destruct Hp as [P1 P2 P3 P4]. split.
    + apply kmem_ok_write; [done|apply Hu].
    + by apply in_use_write.
    + intros i t' Hi. rewrite Htab. intros Ht'. destruct (P3 i t' Hi Ht'). split; [by apply in_use_write|done].
    + intros i j t' Hi Hj. rewrite !Htab. by apply P4.
  - done.
  - intros v Hl Ho. cbn. rewrite lookup_insert_ne; [done|]. intros ->. apply Ho. right. eauto.
  - intros v. unfold pt_owned. setoid_rewrite Htab. done.
  - done.
  - intros k Hk. pose proof (dir_index k ltac:(done)) as Hk'.
    unfold pte_of. rewrite Htab. destruct (decide (k = n)) as [->|Hkn].
    + rewrite Ht, pde_insert, decide_True by done. rewrite Hw, decide_True by (try apply Z.mod_pos_bound; done). done.
    + destruct (tab m pd (k / 1024)) as [t'|] eqn:Et; [|done]. rewrite pde_insert.
      destruct (decide (t' = t)) as [->|]; [|done].
      pose proof (pt_inj _ _ _ Hp _ _ _ Hk' Hdir Et Ht) as E.
      rewrite Hw by (apply Z.mod_pos_bound; lia). rewrite decide_False; [done|].
      intros E'. apply Hkn. rewrite (Z.div_mod k 1024), (Z.div_mod n 1024) by lia. lia.
Qed.

Lemma pgtab_entry a : Z.lor (Z.lor (Z.lor a PTE_P) PTE_W) PTE_U = mk_pte a (Z.lor PTE_W PTE_U).
Proof. unfold mk_pte. rewrite <- !Z.lor_assoc. done. Qed.

(** The memory after a new, empty table is entered at directory entry [i]. *)
Lemma new_table_mem m m1 v l' pd i :
  pt_ok m (v :: l') pd → kmem_ok m1 l' → km_pages m1 = km_pages m → 0 ≤ i < 1024 →
  ∃ m', (write_page v (fill_page 0);; write_pte (pd, i) (Z.lor (Z.lor (Z.lor (V2P v) PTE_P) PTE_W) PTE_U)) m1 = Ret tt m' ∧
    kmem_ok m' l' ∧ v ≠ pd ∧ in_use m' l' v ∧ (∀ w, in_use m (v :: l') w → w ≠ v ∧ in_use m' l' w) ∧
    (∀ w, w ≠ pd → w ≠ v → km_pages m' !! w = km_pages m !! w) ∧ (∀ j, pde m' v j = 0) ∧
    (∀ j, 0 ≤ j < 1024 → tab m' pd j = if decide (j = i) then Some v else tab m pd j).
Proof.
  intros [P1 P2 _ _] Hm1 Hpg Hi.
  pose proof (km_addr _ _ P1) as [[Hpa Hvr] _]%Forall_cons. pose proof (km_nodup _ _ P1) as [Hvl _]%NoDup_cons.
  assert (Huse : ∀ w, in_use m (v :: l') w → w ≠ v ∧ in_use m1 l' w).
  { intros w (? & ? & Hw & ?). apply not_elem_of_cons in Hw as [? ?]. rewrite <- Hpg in *. by split. }
  destruct (Huse pd P2) as [Hne Hpd].
  set (m2 := set_km_pages (<[v:=fill_page 0]> (km_pages m1)) m1).
  assert (Huse2 : ∀ w, in_use m1 l' w → in_use m2 l' w) by (intros; apply in_use_write; [done|apply fill_page_length]).
  assert (Huv : in_use m2 l' v).
  { do 3 (split; [done|]). exists (fill_page 0). cbn. by rewrite lookup_insert_eq, fill_page_length. }
  destruct (write_pte_run m2 l' pd i (Z.lor (Z.lor (Z.lor (V2P v) PTE_P) PTE_W) PTE_U) (Huse2 _ Hpd) Hi)
    as (d & Hd & Hrun & Hw).
  destruct (V2P_aligned v) as [HVr HVa]; [by apply page_aligned|].
  destruct (mk_pte_spec (V2P v) (Z.lor PTE_W PTE_U)) as (M1 & M2 & M3 & _); [done|done|done|].
  eexists. split; [unfold write_page; kred; fold m2; exact Hrun|]. split_and!.
  - apply kmem_ok_write; [by apply kmem_ok_write|apply Hpd].
  - done.
  - by apply in_use_write.
  - intros w Hw'. destruct (Huse w Hw'). split; [done|]. apply in_use_write; [by apply Huse2|done].
  - intros w ??. cbn. rewrite !lookup_insert_ne by done. by rewrite Hpg.
  - intros j. rewrite pde_insert, decide_False by done. unfold m2. rewrite pde_insert, decide_True by done. apply word_fill_0.
  - intros j Hj. unfold tab. rewrite pde_insert, decide_True, Hw by (done || lia).
    destruct (decide (j = i)) as [->|]; [rewrite pgtab_entry, M1, M2, M3, V2P_P2V by lia; done|].
    unfold m2. rewrite pde_insert, decide_False by done. unfold pde. by rewrite Hpg.
Qed.

Lemma new_table m m1 v l' pd i :
  pt_ok m (v :: l') pd → kmem_ok m1 l' → km_pages m1 = km_pages m → 0 ≤ i < 1024 → tab m pd i = None →
  ∃ m', (write_page v (fill_page 0);; write_pte (pd, i) (Z.lor (Z.lor (Z.lor (V2P v) PTE_P) PTE_W) PTE_U)) m1 = Ret tt m' ∧
    pstep pd m (v :: l') m' l' ∧ tab m' pd i = Some v ∧
    ∀ n, 0 ≤ n < 2 ^ 20 → pte_of m' pd n = pte_of m pd n.
Proof.
  intros Hp Hm1 Hpg Hi Hti.
  destruct (new_table_mem m m1 v l' pd i Hp Hm1 Hpg Hi) as (m' & Hrun & Hm' & Hne & Huv & Huse & Hpages & Hz & Htab).
  destruct Hp as [P1 P2 P3 P4]. exists m'. split; [exact Hrun|].
  assert (Hold : ∀ j t, 0 ≤ j < 1024 → tab m pd j = Some t → t ≠ v ∧ t ≠ pd ∧ in_use m' l' t).
  { intros j t Hj Ht. destruct (P3 j t Hj Ht) as [Ht1 ?]. destruct (Huse _ Ht1). done. }
  split_and!; [split; [split| | |]|by rewrite Htab, decide_True|].
  - done.
  - by apply Huse.
  - intros j t Hj. rewrite Htab by done. destruct (decide (j = i)); [by intros [= <-]|].
    intros Ht. by destruct (Hold j t Hj Ht) as (? & ? & ?).
  - intros j k t Hj Hk. rewrite !Htab by done. destruct (decide (j = i)), (decide (k = i)); try congruence.
    + intros [= <-] Ht. by destruct (Hold k _ Hk Ht) as [? _].
    + intros Ht [= <-]. by destruct (Hold j _ Hj Ht) as [? _].
    + by apply P4.
  - by apply suffix_cons_r.
  - intros w [? ?]%not_elem_of_cons Ho. apply Hpages; [|done]. intros ->. apply Ho. by left.
  - intros w. unfold pt_owned. rewrite elem_of_cons. split.
    + intros [?|[->|(j & Hj & Ht)]]; [by auto|by auto|]. rewrite Htab in Ht by done.
      destruct (decide (j = i)); [naive_solver|right; right; eauto].
    + intros [[->|?]|[->|(j & Hj & Ht)]]; [|by auto|by auto|].
      * right. right. exists i. by rewrite Htab, decide_True.
      * right. right. exists j. rewrite Htab, decide_False by (done || congruence). done.
  - intros n Hn. pose proof (dir_index n Hn) as Hn'. unfold pte_of. rewrite Htab by done.
    destruct (decide (n / 1024 = i)) as [->|]; [by rewrite Hti, Hz|].
    destruct (tab m pd (n / 1024)) as [t|] eqn:Et; [|done]. destruct (Hold _ _ Hn' Et) as (? & ? & _).
    unfold pde. by rewrite Hpages.
Qed.

(** [walkpgdir] with allocation: the entries stay, and no entry is found only
    when there is no memory. *)
Lemma walk_alloc m l pd a :
  pt_ok m l pd → 0 ≤ a < 2 ^ 32 →
  ∃ r m' l', walkpgdir pd a true m = Ret r m' ∧ pstep pd m l m' l' ∧
    (∀ n, 0 ≤ n < 2 ^ 20 → pte_of m' pd n = pte_of m pd n) ∧
    match r with
    | Some p => tab m' pd (a / PGSIZE / 1024) = Some p.1 ∧ p.2 = (a / PGSIZE) mod 1024
    | None => l' = []
    end.
Proof.
  intros Hp Ha. rewrite <- PDX_page, <- PTX_page by done.
  assert (Hi : 0 ≤ PDX a < 1024).
  { rewrite PDX_page by done. apply dir_index. unfold PGSIZE.
    split; [apply Z.div_pos|apply Z.div_lt_upper_bound]; lia. }
  destruct (tab m pd (PDX a)) as [t|] eqn:Et.
  { exists (Some (t, PTX a)), m, l. rewrite (walk_existing m l pd a true t) by done.
    split_and!; try done; by apply pstep_refl. }
  unfold walkpgdir. rewrite (K_bind_Ret _ _ _ _ _ (read_pte_run _ _ _ _ (pt_dir _ _ _ Hp))).
  pose proof Et as Et'. unfold tab in Et'. destruct (present (pde m pd (PDX a))); [done|]. cbn [negb].
  pose proof (kalloc_run m l (pt_mem _ _ _ Hp)) as Hk. destruct l as [|v l'].
  { exists None, m, []. rewrite (K_bind_Ret _ _ _ _ _ Hk). split_and!; try done; by apply pstep_refl. }
  destruct Hk as (m1 & Hk & Hm1 & Hpg & _). rewrite (K_bind_Ret _ _ _ _ _ Hk).
  pose proof (km_addr _ _ (pt_mem _ _ _ Hp)) as [[_ Hvr] _]%Forall_cons.
  destruct (Z.eqb_spec v 0); [lia|].
  destruct (new_table m m1 v l' pd (PDX a) Hp Hm1 Hpg Hi Et) as (m' & Hrun & Hstep & Ht & Hpte).
  exists (Some (v, PTX a)), m', l'. split_and!; try done.
  revert Hrun. unfold mbind, K_bind. repeat case_match; naive_solver.
Qed.

(** ** Mapping *)

(** The entries [p], ..., [p + k - 1] map the physical pages from [pa] on. *)
Definition mapped_at (m m' : kmem) (pd p k pa perm : Z) : Prop :=
  ∀ j, 0 ≤ j < 2 ^ 20 →
    pte_of m' pd j = if decide (p ≤ j < p + k) then mk_pte (pa + (j - p) * PGSIZE) perm else pte_of m pd j.

Lemma page_range p : 0 ≤ p < 2 ^ 20 → 0 ≤ p * PGSIZE < 2 ^ 32 ∧ p * PGSIZE / PGSIZE = p.
Proof. intros. unfold PGSIZE. split; [lia|]. apply Z.div_mul. lia. Qed.

(** One round of the loop. *)
Lemma map_page_run m l pd p pa perm :
  pt_ok m l pd → 0 ≤ p < 2 ^ 20 → present (pte_of m pd p) = false →
  0 ≤ pa < 2 ^ 32 → pa mod PGSIZE = 0 → 0 ≤ perm < PGSIZE →
  (∃ m', walkpgdir pd (p * PGSIZE) true m = Ret None m' ∧ pstep pd m l m' [] ∧
     ∀ j, 0 ≤ j < 2 ^ 20 → pte_of m' pd j = pte_of m pd j) ∨
  ∃ pt m1 e m' l', walkpgdir pd (p * PGSIZE) true m = Ret (Some pt) m1 ∧ read_pte pt m1 = Ret e m1 ∧
    present e = false ∧ write_pte pt (mk_pte pa perm) m1 = Ret tt m' ∧ pstep pd m l m' l' ∧
    mapped_at m m' pd p 1 pa perm.
Proof.
  intros Hp Hr Hnp Hpa Hal Hperm. destruct (page_range p Hr) as [Ha Hdiv].
  destruct (walk_alloc m l pd _ Hp Ha) as (r & m1 & l1 & Hw & Hs & Hpte & Hcase). rewrite Hdiv in Hcase.
  destruct r as [[t ix]|]; [right|left; subst; eauto]. cbn in Hcase. destruct Hcase as [Ht ->].
  pose proof (ps_ok _ _ _ _ _ Hs) as Hp1.
  destruct (pt_tab _ _ _ Hp1 _ _ (dir_index p Hr) Ht) as [Hu _].
  destruct (set_pte_run m1 l1 pd p t (mk_pte pa perm) Hp1 Hr Ht) as (m' & Hset & Hs' & _ & Hpte').
  exists (t, p mod 1024), m1, (pde m1 t (p mod 1024)), m', l1. split_and!; try done.
  - by eapply read_pte_run.
  - rewrite <- Hpte in Hnp by done. unfold pte_of in Hnp. by rewrite Ht in Hnp.
  - by eapply pstep_trans.
  - intros j Hj. rewrite Hpte' by done. destruct (mk_pte_spec pa perm) as (-> & _); [done..|].
    destruct (decide (j = p)) as [->|]; [rewrite decide_True by lia; f_equal; lia|].
    rewrite decide_False by lia. by apply Hpte.
Qed.

Lemma mapped_at_cons m m1 m2 pd p k pa perm :
  0 ≤ k → mapped_at m m1 pd p 1 pa perm → mapped_at m1 m2 pd (p + 1) k (pa + PGSIZE) perm →
  mapped_at m m2 pd p (k + 1) pa perm.
Proof.
  intros Hk H1 H2 j Hj. rewrite H2, H1 by done.
  repeat case_decide; try lia; try done; f_equal; unfold PGSIZE; lia.
Qed.

Lemma mappages_loop_run n m l pd p pa perm :
  pt_ok m l pd → (0 < n)%nat → 0 ≤ p → p + Z.of_nat n ≤ 2 ^ 20 →
  (∀ j, p ≤ j < p + Z.of_nat n → present (pte_of m pd j) = false) →
  0 ≤ pa → pa + Z.of_nat n * PGSIZE ≤ 2 ^ 32 → pa mod PGSIZE = 0 → 0 ≤ perm < PGSIZE →
  ∃ r m' l' k,
    mappages_loop n pd (p * PGSIZE) ((p + Z.of_nat n - 1) * PGSIZE) pa perm m = Ret r m' ∧
    pstep pd m l m' l' ∧ 0 ≤ k ∧ mapped_at m m' pd p k pa perm ∧
    (r = 0 ∧ k = Z.of_nat n ∨ r = -1 ∧ k < Z.of_nat n ∧ l' = []).
Proof.
  revert m l p pa. induction n as [|n IH]; intros m l p pa Hp Hn Hp0 Hpn Hnp Hpa Hpan Hal Hperm; [lia|].
  cbn [mappages_loop].
  destruct (map_page_run m l pd p pa perm) as [(m' & Hw & Hs & Hpte)|(pt & m1 & e & m2 & l2 & Hw & Hr & He & Hset & Hs & Hmap)];
    [done|lia|apply Hnp; lia|unfold PGSIZE in *; lia|done|done| |].
  { exists (-1), m', [], 0. rewrite (K_bind_Ret _ _ _ _ _ Hw). split_and!; try done.
    - intros j Hj. rewrite decide_False by lia. by apply Hpte.
    - right. split_and!; [done|lia|done]. }
  rewrite (K_bind_Ret _ _ _ _ _ Hw), (K_bind_Ret _ _ _ _ _ Hr), He.
  change (Z.lor (Z.lor pa perm) PTE_P) with (mk_pte pa perm). rewrite (K_bind_Ret _ _ _ _ _ Hset).
  destruct (Z.eqb_spec (p * PGSIZE) ((p + Z.of_nat (S n) - 1) * PGSIZE)) as [E|E].
  { assert (n = 0%nat) as -> by (unfold PGSIZE in E; lia). exists 0, m2, l2, 1. split_and!; try done. by left. }
  assert (0 < n)%nat by (unfold PGSIZE in E; destruct n; lia).
  destruct (IH m2 l2 (p + 1) (pa + PGSIZE)) as (r & m3 & l3 & k & Hrun & Hs3 & Hk & Hmap3 & Hcase).
  - apply (ps_ok _ _ _ _ _ Hs).
  - done.
  - lia.
  - lia.
  - intros j Hj. rewrite Hmap by lia. rewrite decide_False by lia. apply Hnp. lia.
  - unfold PGSIZE in *. lia.
  - unfold PGSIZE in *. lia.
  - rewrite <- Zplus_mod_idemp_l, Hal. done.
  - done.
  - exists r, m3, l3, (k + 1). split_and!; [|by eapply pstep_trans|lia|by eapply mapped_at_cons|].
    + rewrite !u32_small by (unfold PGSIZE in *; lia).
      replace (p * PGSIZE + PGSIZE) with ((p + 1) * PGSIZE) by lia.
      replace (p + Z.of_nat (S n) - 1) with (p + 1 + Z.of_nat n - 1) by lia. exact Hrun.
    + destruct Hcase as [[-> ->]|(-> & ? & ->)]; [left|right]; (split_and!; [done|lia..|done]) || (split; [done|lia]).
Qed.

(** [mappages] of [n] pages from page [p] on. *)
Lemma mappages_pages n pd p pa perm :
  0 < n → 0 ≤ p → p + n ≤ 2 ^ 20 →
  mappages pd (p * PGSIZE) (n * PGSIZE) pa perm = mappages_loop (Z.to_nat n) pd (p * PGSIZE) ((p + n - 1) * PGSIZE) pa perm.
Proof.
  intros Hn Hp0 Hpn. unfold mappages.
  assert (Hm : ∀ q, q * PGSIZE mod PGSIZE = 0) by (intros; unfold PGSIZE; apply Z.mod_mul; lia).
  assert (Hrd : PGROUNDDOWN (p * PGSIZE) = p * PGSIZE).
  { rewrite PGROUNDDOWN_spec by (unfold PGSIZE; lia). rewrite Hm. lia. }
  assert (Hlast : PGROUNDDOWN (u32 (p * PGSIZE + n * PGSIZE - 1)) = (p + n - 1) * PGSIZE).
  { rewrite u32_small by (unfold PGSIZE; lia). rewrite PGROUNDDOWN_spec by (unfold PGSIZE; lia).
    replace (p * PGSIZE + n * PGSIZE - 1) with (PGSIZE - 1 + (p + n - 1) * PGSIZE) by (unfold PGSIZE; lia).
    rewrite Z.mod_add, Z.mod_small by (unfold PGSIZE; lia). lia. }
  rewrite Hrd, Hlast. replace ((p + n - 1) * PGSIZE - p * PGSIZE) with ((n - 1) * PGSIZE) by (unfold PGSIZE; lia).
  rewrite u32_small by (unfold PGSIZE; lia). unfold PGSIZE at 2. rewrite Z.div_mul by lia.
  by replace (n - 1 + 1) with n by lia.
Qed.

Lemma mappages_run n m l pd p pa perm :
  pt_ok m l pd → 0 < n → 0 ≤ p → p + n ≤ 2 ^ 20 →
  (∀ j, p ≤ j < p + n → present (pte_of m pd j) = false) →
  0 ≤ pa → pa + n * PGSIZE ≤ 2 ^ 32 → pa mod PGSIZE = 0 → 0 ≤ perm < PGSIZE →
  ∃ r m' l' k,
    mappages pd (p * PGSIZE) (n * PGSIZE) pa perm m = Ret r m' ∧
    pstep pd m l m' l' ∧ 0 ≤ k ∧ mapped_at m m' pd p k pa perm ∧
    (r = 0 ∧ k = n ∨ r = -1 ∧ k < n ∧ l' = []).
Proof.
  intros Hp Hn Hp0 Hpn Hnp Hpa Hpan Hal Hperm.
  destruct (mappages_loop_run (Z.to_nat n) m l pd p pa perm) as (r & m' & l' & k & Hrun & H);
    try done; try (rewrite ?Z2Nat.id by lia; done || lia).
  exists r, m', l', k. rewrite Z2Nat.id in * by lia. by rewrite mappages_pages.
Qed.

(** ** Address spaces *)

(** Pages of the user half. *)
Definition NUSER : Z := 0x80000.

(** The page behind entry [i]; the permissions and contents of the page the
    process sees at page number [i]. *)
Definition upage (m : kmem) (pd i : Z) : option Z :=
  if present (pte_of m pd i) then Some (P2V (PTE_ADDR (pte_of m pd i))) else None.
Definition uent (m : kmem) (pd i : Z) : option (Z * list Z) :=
  match upage m pd i with
  | Some v => (λ d, (PTE_FLAGS (pte_of m pd i), d)) <$> km_pages m !! v
  | None => None
  end.

Definition owned (m : kmem) (pd v : Z) : Prop := pt_owned m pd v ∨ ∃ i, 0 ≤ i < NUSER ∧ upage m pd i = Some v.

Record space_ok (m : kmem) (l : list Z) (pd : Z) : Prop := {
  sp_pt : pt_ok m l pd;
  sp_page i v : 0 ≤ i < NUSER → upage m pd i = Some v → in_use m l v ∧ ¬ pt_owned m pd v;
  sp_inj i j v : 0 ≤ i < NUSER → 0 ≤ j < NUSER → upage m pd i = Some v → upage m pd j = Some v → i = j;
}.

(** The space exchanges pages with the free list, and no other page changes. *)
Record sstep (pd : Z) (m : kmem) (l : list Z) (m' : kmem) (l' : list Z) : Prop := {
  ss_ok : space_ok m' l' pd;
  ss_frame v : v ∉ l → ¬ owned m pd v → km_pages m' !! v = km_pages m !! v;
  ss_owned v : v ∈ l' ∨ owned m' pd v ↔ v ∈ l ∨ owned m pd v;
}.

Lemma sstep_refl pd m l : space_ok m l pd → sstep pd m l m l.
Proof. intros. by split. Qed.

Lemma sstep_trans pd m1 l1 m2 l2 m3 l3 : sstep pd m1 l1 m2 l2 → sstep pd m2 l2 m3 l3 → sstep pd m1 l1 m3 l3.
Proof.
  intros [A1 A2 A3] [B1 B2 B3]. split; [done| |].
  - intros v Hl Ho. assert (v ∉ l2 ∧ ¬ owned m2 pd v) as [? ?] by (specialize (A3 v); tauto).
    by rewrite B2, A2.
  - intros v. rewrite B3. apply A3.
Qed.

Lemma user_range i : 0 ≤ i < NUSER → 0 ≤ i < 2 ^ 20.
Proof. unfold NUSER. lia. Qed.

(** What entries and pages determine. *)
Lemma upage_ext m m' pd i : pte_of m' pd i = pte_of m pd i → upage m' pd i = upage m pd i.
Proof. unfold upage. by intros ->. Qed.
Lemma uent_ext m m' pd i :
  pte_of m' pd i = pte_of m pd i → (∀ v, upage m pd i = Some v → km_pages m' !! v = km_pages m !! v) →
  uent m' pd i = uent m pd i.
Proof.
  intros He Hp. unfold uent. rewrite (upage_ext m m'), He by done. destruct (upage m pd i); [|done]. by rewrite Hp.
Qed.

(** A step of the directory that keeps the user entries. *)
Lemma pstep_sstep pd m l m' l' :
  space_ok m l pd → pstep pd m l m' l' → (∀ i, 0 ≤ i < NUSER → pte_of m' pd i = pte_of m pd i) →
  sstep pd m l m' l' ∧ ∀ i, 0 ≤ i < NUSER → uent m' pd i = uent m pd i.
Proof.
  intros [S1 S2 S3] Hs He. pose proof Hs as [P1 P2 P3 P4].
  assert (Hkeep : ∀ i v, 0 ≤ i < NUSER → upage m pd i = Some v → km_pages m' !! v = km_pages m !! v).
  { intros i v Hi Hv. destruct (S2 i v Hi Hv) as [(_ & _ & ? & _) ?]. by apply P3. }
  split; [split|].
  - split; [done| |].
    + intros i v Hi. rewrite (upage_ext m) by auto. intros Hv. destruct (S2 i v Hi Hv) as [Hu Ho].
      destruct Hu as (? & ? & Hl & Hd). specialize (P4 v). split; [|tauto].
      do 2 (split; [done|]). split; [tauto|]. by rewrite (Hkeep i v Hi Hv).
    + intros i j v Hi Hj. rewrite (upage_ext m m' pd i), (upage_ext m m' pd j) by auto. by apply S3.
  - intros v Hl Ho. apply P3; [done|]. intros ?. apply Ho. by left.
  - intros v. unfold owned. assert (∀ w, (∃ i, 0 ≤ i < NUSER ∧ upage m' pd i = Some w) ↔ ∃ i, 0 ≤ i < NUSER ∧ upage m pd i = Some w) as ->.
    { intros w. split; intros (i & Hi & Hw); exists i; (split; [done|]); [rewrite <- (upage_ext m m')|rewrite (upage_ext m)]; auto. }
    specialize (P4 v). tauto.
  - intros i Hi. apply uent_ext; [auto|]. intros v. by apply Hkeep.
Qed.

(** Changes of memory outside the directory, and outside the space. *)
Lemma tables_same m m' pd :
  (∀ w, pt_owned m pd w → km_pages m' !! w = km_pages m !! w) →
  (∀ i, 0 ≤ i < 1024 → tab m' pd i = tab m pd i) ∧ (∀ n, 0 ≤ n < 2 ^ 20 → pte_of m' pd n = pte_of m pd n).
Proof.
  intros Hw. assert (Ht : ∀ i, tab m' pd i = tab m pd i).
  { intros i. unfold tab, pde. rewrite Hw by (by left). done. }
  split; [done|]. intros n Hn. unfold pte_of. rewrite Ht. destruct (tab m pd (n / 1024)) as [t|] eqn:E; [|done].
  unfold pde. rewrite Hw; [done|]. right. exists (n / 1024). split; [by apply dir_index|done].
Qed.

Lemma in_use_same m l m' l' v : in_use m l v → v ∉ l' → km_pages m' !! v = km_pages m !! v → in_use m' l' v.
Proof. intros (? & ? & _ & d) ? He. do 3 (split; [done|]). by rewrite He. Qed.

Lemma pt_same m l m' l' pd :
  pt_ok m l pd → kmem_ok m' l' → (∀ w, pt_owned m pd w → w ∉ l' ∧ km_pages m' !! w = km_pages m !! w) →
  pt_ok m' l' pd ∧ ∀ w, pt_owned m' pd w ↔ pt_owned m pd w.
Proof.
  intros [P1 P2 P3 P4] Hm Hw. destruct (tables_same m m' pd) as [Ht _]; [by apply Hw|].
  assert (Ho : ∀ w, pt_owned m' pd w ↔ pt_owned m pd w).
  { intros w. unfold pt_owned. split; (intros [->|(i & Hi & E)]; [by left|right; exists i]);
      (split; [done|]); [by rewrite <- Ht|by rewrite Ht]. }
  split; [|done]. split; [done| | |].
  - apply (in_use_same m l); [done|apply Hw; by left..].
  - intros i t Hi. rewrite Ht by done. intros E. destruct (P3 i t Hi E) as [? ?]. split; [|done].
    apply (in_use_same m l); [done|apply Hw; right; eauto..].
  - intros i j t Hi Hj. rewrite (Ht i), (Ht j) by done. by apply P4.
Qed.

Lemma space_same m l m' l' pd :
  space_ok m l pd → kmem_ok m' l' → (∀ w, owned m pd w → w ∉ l' ∧ km_pages m' !! w = km_pages m !! w) →
  space_ok m' l' pd ∧ (∀ w, owned m' pd w ↔ owned m pd w) ∧
  (∀ n, 0 ≤ n < 2 ^ 20 → pte_of m' pd n = pte_of m pd n) ∧ (∀ i, 0 ≤ i < NUSER → uent m' pd i = uent m pd i).
Proof.
  intros [S1 S2 S3] Hm Hw. destruct (pt_same m l m' l' pd S1 Hm) as [Hp Hpo]; [intros w ?; apply Hw; by left|].
  destruct (tables_same m m' pd) as [_ Hn]; [intros w ?; apply Hw; by left|].
  assert (Hu : ∀ i, 0 ≤ i < NUSER → upage m' pd i = upage m pd i).
  { intros i Hi. apply upage_ext, Hn. by apply user_range. }
  split_and!.
  - split; [done| |].
    + intros i v Hi. rewrite Hu by done. intros E. destruct (S2 i v Hi E). split; [|by rewrite Hpo].
      apply (in_use_same m l); [done|apply Hw; right; eauto..].
    + intros i j v Hi Hj. rewrite (Hu i), (Hu j) by done. by apply S3.
  - intros w. unfold owned. rewrite Hpo. split; (intros [?|(i & Hi & E)]; [by left|right; exists i]);
      (split; [done|]); [by rewrite <- Hu|by rewrite Hu].
  - done.
  - intros i Hi. apply uent_ext; [by apply Hn, user_range|]. intros v Hv. apply Hw. right. eauto.
Qed.

Lemma owned_in_use m l pd w : space_ok m l pd → owned m pd w → in_use m l w.
Proof.
  intros [S1 S2 _] [[->|(i & Hi & E)]|(i & Hi & E)]; [apply S1|by eapply (pt_tab _ _ _ S1)|by eapply S2].
Qed.

(** A free page, taken and filled, is outside the space. *)
Lemma hold_page m v l pd d :
  space_ok m (v :: l) pd → length d = Z.to_nat PGSIZE →
  ∃ m1, kalloc m = Ret v m1 ∧ v ≠ 0 ∧
    let m' := set_km_pages (<[v:=d]> (km_pages m1)) m1 in
    space_ok m' l pd ∧ in_use m' l v ∧ km_pages m1 = km_pages m ∧ ¬ owned m' pd v ∧
    (∀ w, owned m' pd w ↔ owned m pd w) ∧
    (∀ n, 0 ≤ n < 2 ^ 20 → pte_of m' pd n = pte_of m pd n) ∧ (∀ i, 0 ≤ i < NUSER → uent m' pd i = uent m pd i).
Proof.
  intros Hs Hd. pose proof (pt_mem _ _ _ (sp_pt _ _ _ Hs)) as Hm.
  destruct (kalloc_run m (v :: l) Hm) as (m1 & Hk & Hm1 & Hpg & _). exists m1.
  pose proof (km_addr _ _ Hm) as [[Hpa Hvr] _]%Forall_cons. pose proof (km_nodup _ _ Hm) as [Hvl _]%NoDup_cons.
  split; [done|]. split; [lia|]. intros m'.
  assert (Hno : ∀ w, owned m pd w → w ≠ v ∧ w ∉ l).
  { intros w Hw%(owned_in_use _ _ _ _ Hs). destruct Hw as (_ & _ & Hw & _). by apply not_elem_of_cons in Hw. }
  destruct (space_same m (v :: l) m' l pd Hs) as (H1 & H2 & H3 & H4).
  - by apply kmem_ok_write.
  - intros w Hw. destruct (Hno w Hw). split; [done|]. cbn. rewrite lookup_insert_ne by done. by rewrite Hpg.
  - split; [done|]. split.
    { do 3 (split; [done|]). exists d. cbn. by rewrite lookup_insert_eq. }
    split; [done|]. split; [|done]. rewrite H2. intros ?%Hno. tauto.
Qed.

(** The space after such a page is entered at page number [i]. *)
Lemma user_mapped m l pd m' l' v i :
  space_ok m l pd → in_use m l v → ¬ owned m pd v → 0 ≤ i < NUSER → upage m pd i = None →
  pstep pd m l m' l' → upage m' pd i = Some v →
  (∀ j, 0 ≤ j < NUSER → j ≠ i → pte_of m' pd j = pte_of m pd j) →
  space_ok m' l' pd ∧ (∀ w, w ∈ l' ∨ owned m' pd w ↔ w ∈ l ∨ owned m pd w ∨ w = v) ∧
  ∀ j, 0 ≤ j < NUSER → j ≠ i → uent m' pd j = uent m pd j.
Proof.
  intros [S1 S2 S3] Hv Hno Hi Hnone [P1 P2 P3 P4] Hui Hej.
  assert (Hnov : ¬ pt_owned m pd v) by (intros ?; apply Hno; by left).
  assert (Huj : ∀ j, 0 ≤ j < NUSER → j ≠ i → upage m' pd j = upage m pd j) by (intros; apply upage_ext; auto).
  assert (Hkeep : ∀ w, in_use m l w → ¬ pt_owned m pd w → in_use m' l' w ∧ ¬ pt_owned m' pd w).
  { intros w Hw ?. pose proof Hw as (_ & _ & ? & _). specialize (P4 w). split; [|tauto].
    apply (in_use_same m l); [done|tauto|by apply P3]. }
  assert (Hi' : ∀ j w, 0 ≤ j < NUSER → upage m' pd j = Some w → j = i ∧ w = v ∨ j ≠ i ∧ upage m pd j = Some w).
  { intros j w Hj Hw. destruct (decide (j = i)) as [->|]; [left; split; congruence|right]. by rewrite <- Huj. }
  split_and!.
  - split; [done| |].
    + intros j w Hj Hw. destruct (Hi' j w Hj Hw) as [[-> ->]|[? Hw']]; [by apply Hkeep|].
      destruct (S2 j w Hj Hw'). by apply Hkeep.
    + intros j1 j2 w Hj1 Hj2 H1 H2.
      destruct (Hi' _ _ Hj1 H1) as [[-> ->]|[? H1']], (Hi' _ _ Hj2 H2) as [[-> ?]|[? H2']]; try done.
      * destruct Hno. right. eauto.
      * subst. destruct Hno. right. eauto.
      * by eapply S3.
  - intros w. assert ((∃ j, 0 ≤ j < NUSER ∧ upage m' pd j = Some w) ↔
      (∃ j, 0 ≤ j < NUSER ∧ upage m pd j = Some w) ∨ w = v) as Hup.
    { split.
      - intros (j & Hj & Hw). destruct (Hi' j w Hj Hw) as [[-> ->]|[? ?]]; [by right|left; eauto].
      - intros [(j & Hj & Hw)| ->]; [|eauto]. destruct (decide (j = i)) as [->|]; [congruence|].
        exists j. by rewrite Huj. }
    unfold owned. rewrite Hup. specialize (P4 w). tauto.
  - intros j Hj Hne. apply uent_ext; [auto|]. intros w Hw. destruct (S2 j w Hj Hw) as [Hw1 ?].
    apply P3; [apply Hw1|done].
Qed.

(** Mapping a held page at page number [i]. *)
Lemma map_held m l pd v d i perm :
  space_ok m l pd → in_use m l v → ¬ owned m pd v → km_pages m !! v = Some d →
  0 ≤ i < NUSER → upage m pd i = None → 0 ≤ perm < PGSIZE →
  ∃ r m' l', mappages pd (i * PGSIZE) PGSIZE (V2P v) perm m = Ret r m' ∧
    ((r = -1 ∧ l' = [] ∧ sstep pd m l m' l' ∧ ∀ j, 0 ≤ j < NUSER → uent m' pd j = uent m pd j) ∨
     (r = 0 ∧ space_ok m' l' pd ∧ upage m' pd i = Some v ∧
      (∀ w, w ∉ l → ¬ owned m pd w → km_pages m' !! w = km_pages m !! w) ∧
      (∀ w, w ∈ l' ∨ owned m' pd w ↔ w ∈ l ∨ owned m pd w ∨ w = v) ∧
      ∀ j, 0 ≤ j < NUSER → uent m' pd j = if decide (j = i) then Some (Z.lor perm PTE_P, d) else uent m pd j)).
Proof.
  intros Hs Hv Hno Hd Hi Hnone Hperm. pose proof Hv as (Hpa & Hvr & Hvl & _).
  destruct (V2P_aligned v) as [HVr HVa]; [by apply page_aligned|].
  assert (HVp : V2P v + 1 * PGSIZE ≤ 2 ^ 32).
  { pose proof (Z.div_mod (V2P v) PGSIZE). unfold PGSIZE in *. lia. }
  destruct (mappages_run 1 m l pd i (V2P v) perm (sp_pt _ _ _ Hs)) as (r & m' & l' & k & Hrun & Hps & Hk & Hmap & Hcase);
    [lia|lia|unfold NUSER in Hi; lia| |lia|done|done|done|].
  { intros j Hj. replace j with i by lia. unfold upage in Hnone. by destruct (present (pte_of m pd i)). }
  rewrite Z.mul_1_l in Hrun. exists r, m', l'. split; [done|].
  destruct Hcase as [[-> ->]|(-> & ? & ->)]; [right|left].
  2:{ do 2 (split; [done|]). apply pstep_sstep; [done|done|]. intros j Hj. rewrite Hmap by (by apply user_range).
      by rewrite decide_False by lia. }
  split; [done|]. destruct (mk_pte_spec (V2P v) perm) as (_ & M2 & M3 & M4); [done..|].
  assert (Hei : pte_of m' pd i = mk_pte (V2P v) perm).
  { rewrite Hmap by (by apply user_range). rewrite decide_True by lia. f_equal. lia. }
  assert (Hui : upage m' pd i = Some v) by (unfold upage; rewrite Hei, M2, M3, V2P_P2V by lia; done).
  destruct (user_mapped m l pd m' l' v i Hs Hv Hno Hi Hnone Hps Hui) as (H1 & H2 & H3).
  { intros j Hj Hne. rewrite Hmap by (by apply user_range). by rewrite decide_False by lia. }
  pose proof (ps_frame _ _ _ _ _ Hps) as P3. split_and!; [done|done| |done|].
  - intros w Hl Ho. apply P3; [done|]. intros ?. apply Ho. by left.
  - intros j Hj. destruct (decide (j = i)) as [->|]; [|by apply H3].
    unfold uent. rewrite Hui, Hei, M4, P3 by (done || intros ?; apply Hno; by left). by rewrite Hd.
Qed.

(** ** Unmapping *)

(** The space after the page of entry [i] went to the free list. *)
Lemma user_unmapped m l pd m' v i :
  space_ok m l pd → 0 ≤ i < NUSER → upage m pd i = Some v →
  pt_ok m' (v :: l) pd → (∀ w, pt_owned m' pd w ↔ pt_owned m pd w) →
  (∀ w, ¬ pt_owned m pd w → w ≠ v → km_pages m' !! w = km_pages m !! w) →
  (∀ j, 0 ≤ j < NUSER → pte_of m' pd j = if decide (j = i) then 0 else pte_of m pd j) →
  sstep pd m l m' (v :: l) ∧
  ∀ j, 0 ≤ j < NUSER → uent m' pd j = if decide (j = i) then None else uent m pd j.
Proof.
  intros [S1 S2 S3] Hi Hv Hp Hpo Hpg He. destruct (S2 i v Hi Hv) as [Hv1 Hv2].
  assert (Hui : upage m' pd i = None) by (unfold upage; by rewrite He, decide_True by done).
  assert (Huj : ∀ j w, 0 ≤ j < NUSER → upage m' pd j = Some w ↔ j ≠ i ∧ upage m pd j = Some w).
  { intros j w Hj. destruct (decide (j = i)) as [->|]; [rewrite Hui; naive_solver|].
    rewrite (upage_ext m) by (by rewrite He, decide_False by done). naive_solver. }
  assert (Hne : ∀ j w, 0 ≤ j < NUSER → j ≠ i → upage m pd j = Some w → w ≠ v).
  { intros j w Hj Hji Hw ->. by apply Hji, (S3 j i v). }
  split; [split|].
  - split; [done| |].
    + intros j w Hj [? Hw]%Huj; [|done]. destruct (S2 j w Hj Hw) as [Hw1 ?]. rewrite Hpo. split; [|done].
      pose proof (Hne j w Hj ltac:(done) Hw). apply (in_use_same m l); [done|apply not_elem_of_cons; split; [done|apply Hw1]|auto].
    + intros j1 j2 w Hj1 Hj2 [? ?]%Huj [? ?]%Huj; [by eapply S3|done..].
  - intros w Hl Ho. apply Hpg; [intros ?; apply Ho; by left|]. intros ->. apply Ho. right. eauto.
  - intros w. unfold owned. rewrite Hpo, elem_of_cons. split.
    + intros [[->|?]|[?|(j & Hj & [? ?]%Huj)]]; [|by auto|by auto| |done]; right; right; eauto.
    + intros [?|[?|(j & Hj & Hw)]]; [by auto|by auto|]. destruct (decide (j = i)) as [->|].
      * left. left. congruence.
      * right. right. exists j. split; [done|]. by apply Huj.
  - intros j Hj. destruct (decide (j = i)) as [->|]; [unfold uent; by rewrite Hui|].
    apply uent_ext; [by rewrite He, decide_False by done|]. intros w Hw.
    apply Hpg; [by eapply S2|by eapply Hne].
Qed.

Lemma unmap_run m l pd v i t :
  space_ok m l pd → 0 ≤ i < NUSER → upage m pd i = Some v → tab m pd (i / 1024) = Some t →
  ∃ m', (kfree v;; write_pte (t, i mod 1024) 0) m = Ret tt m' ∧ sstep pd m l m' (v :: l) ∧
    ∀ j, 0 ≤ j < NUSER → uent m' pd j = if decide (j = i) then None else uent m pd j.
Proof.
  intros Hs Hi Hv Ht. pose proof Hs as [S1 S2 _]. destruct (S2 i v Hi Hv) as [(Hpa & Hvr & Hvl & _) Hv2].
  destruct (kfree_run m l v (pt_mem _ _ _ S1) Hpa Hvr Hvl) as [Hf Hm1]. rewrite (K_bind_Ret _ _ _ _ _ Hf).
  set (m1 := KMem _ _ _ _) in *.
  assert (Hsame : ∀ w, pt_owned m pd w → w ∉ v :: l ∧ km_pages m1 !! w = km_pages m !! w).
  { intros w Hw. assert (w ≠ v) by (intros ->; done).
    destruct (owned_in_use m l pd w Hs) as (_ & _ & ? & _); [by left|].
    split; [by apply not_elem_of_cons|]. cbn. by rewrite lookup_insert_ne. }
  destruct (pt_same m l m1 (v :: l) pd S1 Hm1 Hsame) as [Hp1 Hpo1].
  destruct (tables_same m m1 pd) as [Htab1 Hpte1]; [by apply Hsame|].
  destruct (set_pte_run m1 (v :: l) pd i t 0 Hp1) as (m' & Hset & [Hp' _ Hfr Hown] & Htab' & Hpte'); [by apply user_range| |].
  { rewrite Htab1; [done|]. by apply dir_index, user_range. }
  assert (Hpo : ∀ w, pt_owned m' pd w ↔ pt_owned m pd w).
  { intros w. rewrite <- Hpo1. unfold pt_owned. setoid_rewrite Htab'. done. }
  exists m'. split; [done|]. apply (user_unmapped m l pd m' v i); try done.
  - intros w Hw Hne. assert (¬ pt_owned m1 pd w) by (by rewrite Hpo1).
    rewrite (write_frame m1 m' t (i mod 1024) 0 w Hset).
    + cbn. by rewrite lookup_insert_ne.
    + intros ->. apply Hw. right. exists (i / 1024). split; [by apply dir_index, user_range|done].
  - intros j Hj. rewrite Hpte' by (by apply user_range). destruct (decide (j = i)); [done|].
    by apply Hpte1, user_range.
Qed.

(** The number of pages that [sz] bytes take. *)
Definition npages (sz : Z) : Z := (sz + PGSIZE - 1) / PGSIZE.

Lemma npages_lt p sz : p * PGSIZE < sz ↔ p < npages sz.
Proof.
  unfold npages, PGSIZE. split; intros.
  - apply Z.lt_le_trans with (p + 1); [lia|]. apply Z.div_le_lower_bound; lia.
  - pose proof (Z.mul_div_le (sz + 4096 - 1) 4096). lia.
Qed.
Lemma npages_mono a b : a ≤ b → npages a ≤ npages b.
Proof. intros. unfold npages, PGSIZE. apply Z.div_le_mono; lia. Qed.
Lemma npages_range sz : 0 ≤ sz ≤ KERNBASE → 0 ≤ npages sz ≤ NUSER.
Proof.
  intros Hsz. split; [unfold npages, PGSIZE; apply Z.div_pos; lia|].
  etrans; [by apply npages_mono, (proj2 Hsz)|]. done.
Qed.
Lemma PGROUNDUP_npages sz : 0 ≤ sz ≤ KERNBASE → PGROUNDUP sz = npages sz * PGSIZE.
Proof.
  intros Hsz. unfold PGROUNDUP, npages. rewrite u32_small by (unfold PGSIZE, KERNBASE in *; lia).
  change (u32 (Z.lnot (PGSIZE - 1))) with (u32 (Z.lnot 0xFFF)).
  rewrite clear_low_bits by (unfold PGSIZE, KERNBASE in *; lia).
  pose proof (Z.div_mod (sz + PGSIZE - 1) PGSIZE). unfold PGSIZE in *. lia.
Qed.

Lemma PGADDR_dir d : 0 ≤ d < 1024 → PGADDR d 0 0 = d * 1024 * PGSIZE.
Proof.
  intros Hd. unfold PGADDR, PDXSHIFT, PTXSHIFT. rewrite !Z.lor_0_r, Z.shiftl_mul_pow2 by lia.
  unfold PGSIZE. rewrite u32_small by lia. lia.
Qed.

Lemma missing_table m pd i : 0 ≤ i → tab m pd (i / 1024) = None → upage m pd i = None.
Proof. intros Hi Ht. unfold upage, pte_of. by rewrite Ht. Qed.

(** ** [deallocuvm] *)

(** The kernel image starts above [KERNBASE]. *)
Context (kend_above : KERNBASE < kend).

Lemma in_use_pa m l v : in_use m l v → v = P2V (V2P v) ∧ V2P v ≠ 0.
Proof.
  intros (Hpa & Hr & _). rewrite V2P_P2V by lia. split; [done|]. unfold page_addr in Hpa.
  rewrite !andb_true_iff, Z.leb_le in Hpa. destruct Hpa as [[_ Hk] _]. unfold V2P, KERNBASE in *.
  rewrite u32_small by lia. lia.
Qed.

(** Finding the entry of a user page. *)
Lemma walk_user m l pd p t :
  space_ok m l pd → 0 ≤ p < NUSER → tab m pd (p / 1024) = Some t →
  walkpgdir pd (p * PGSIZE) false m = Ret (Some (t, p mod 1024)) m ∧
  read_pte (t, p mod 1024) m = Ret (pte_of m pd p) m.
Proof.
  intros Hs Hp Et. destruct (page_range p (user_range p Hp)) as [Hr Hdiv]. split.
  - replace (p mod 1024) with (PTX (p * PGSIZE)) by (rewrite PTX_page, Hdiv by done; done).
    eapply walk_existing; [apply Hs|]. by rewrite PDX_page, Hdiv.
  - unfold pte_of. rewrite Et. eapply read_pte_run.
    by apply (pt_tab _ _ _ (sp_pt _ _ _ Hs) _ _ (dir_index _ (user_range _ Hp)) Et).
Qed.

(** One page of the loop. *)
Lemma dealloc_page_run m l pd p :
  space_ok m l pd → 0 ≤ p < NUSER →
  (tab m pd (p / 1024) = None ∧ walkpgdir pd (p * PGSIZE) false m = Ret None m) ∨
  ∃ pt e m' l', walkpgdir pd (p * PGSIZE) false m = Ret (Some pt) m ∧ read_pte pt m = Ret e m ∧
    (if present e then
       if PTE_ADDR e =? 0 then panic "kfree" else kfree (P2V (PTE_ADDR e));; write_pte pt 0
     else mret tt) m = Ret tt m' ∧
    sstep pd m l m' l' ∧
    ∀ j, 0 ≤ j < NUSER → uent m' pd j = if decide (j = p) then None else uent m pd j.
Proof.
  intros Hs Hp. destruct (tab m pd (p / 1024)) as [t|] eqn:Et; [right|left].
  2:{ destruct (page_range p (user_range p Hp)) as [Hr Hdiv]. split; [done|].
      eapply walk_missing; [apply Hs|]. by rewrite PDX_page, Hdiv. }
  exists (t, p mod 1024), (pte_of m pd p). destruct (walk_user m l pd p t Hs Hp Et) as [Hw Hread].
  destruct (present (pte_of m pd p)) eqn:Ep.
  - assert (Hu : upage m pd p = Some (P2V (PTE_ADDR (pte_of m pd p)))) by (unfold upage; by rewrite Ep).
    destruct (sp_page _ _ _ Hs p _ Hp Hu) as [Huse _].
    destruct (Z.eqb_spec (PTE_ADDR (pte_of m pd p)) 0) as [E|].
    { destruct (in_use_pa _ _ _ Huse) as [_ H0]. by rewrite E in H0. }
    destruct (unmap_run m l pd _ p t Hs Hp Hu Et) as (m' & Hrun & Hss & Hent). eexists m', _. done.
  - exists m, l. split_and!; try done. intros j Hj. case_decide; [|done]. subst. unfold uent, upage. by rewrite Ep.
Qed.

Lemma dealloc_loop_run n m l pd p oldsz :
  space_ok m l pd → 0 ≤ p ≤ NUSER → 0 ≤ oldsz ≤ KERNBASE → npages oldsz - p ≤ Z.of_nat n →
  ∃ m' l', deallocuvm_loop n pd (p * PGSIZE) oldsz m = Ret tt m' ∧ sstep pd m l m' l' ∧
    ∀ j, 0 ≤ j < NUSER → uent m' pd j = if decide (p ≤ j < npages oldsz) then None else uent m pd j.
Proof.
  revert m l p. induction n as [|n IH]; intros m l p Hs Hp Hsz Hn; cbn [deallocuvm_loop];
    pose proof (npages_lt p oldsz) as Hlt; pose proof (npages_range oldsz Hsz) as Hr;
    destruct (Z.ltb_spec (p * PGSIZE) oldsz) as [Ha|Ha]; try lia.
  1, 3: exists m, l; split_and!; [done|by apply sstep_refl|]; intros j Hj; rewrite decide_False by lia; done.
  assert (Hpu : 0 ≤ p < NUSER) by lia.
  destruct (dealloc_page_run m l pd p Hs Hpu) as [[Et Hw]|(pt & e & m1 & l1 & Hw & Hread & Hrun & Hss & Hent)].
  - rewrite (K_bind_Ret _ _ _ _ _ Hw). destruct (page_range p (user_range p Hpu)) as [Hrg Hdiv].
    assert (Hd : 0 ≤ p / 1024 + 1 ≤ 512).
    { pose proof (Z.div_pos p 1024). assert (p / 1024 < 512) by (apply Z.div_lt_upper_bound; unfold NUSER in *; lia). lia. }
    rewrite PDX_page, Hdiv, PGADDR_dir by lia.
    pose proof (Z.div_mod p 1024). pose proof (Z.mod_pos_bound p 1024).
    destruct (IH m l ((p / 1024 + 1) * 1024)) as (m' & l' & Hrun & Hss & Hent);
      [done|unfold NUSER in *; lia|done|lia|].
    exists m', l'. split_and!; [done|done|]. intros j Hj. rewrite Hent by done.
    destruct (decide (p ≤ j < npages oldsz)) as [Hin|]; [|rewrite decide_False by lia; done].
    destruct (decide ((p / 1024 + 1) * 1024 ≤ j < npages oldsz)); [done|].
    assert (j / 1024 = p / 1024) as E by (symmetry; apply (Z.div_unique _ _ _ (j - 1024 * (p / 1024))); lia).
    unfold uent. rewrite missing_table; [done|lia|by rewrite E].
  - rewrite (K_bind_Ret _ _ _ _ _ Hw), (K_bind_Ret _ _ _ _ _ Hread). cbv zeta. rewrite (K_bind_Ret _ _ _ _ _ Hrun).
    rewrite u32_small by (unfold NUSER, PGSIZE in *; lia). replace (p * PGSIZE + PGSIZE) with ((p + 1) * PGSIZE) by lia.
    destruct (IH m1 l1 (p + 1)) as (m' & l' & Hrun' & Hss' & Hent'); [apply Hss|lia|done|lia|].
    exists m', l'. split_and!; [done|by eapply sstep_trans|]. intros j Hj. rewrite Hent', Hent by done.
    repeat case_decide; done || lia.
Qed.

(** [deallocuvm] unmaps and frees the pages between the sizes. *)
Lemma deallocuvm_run m l pd oldsz newsz :
  space_ok m l pd → 0 ≤ newsz ≤ oldsz → oldsz ≤ KERNBASE →
  ∃ m' l', deallocuvm pd oldsz newsz m = Ret newsz m' ∧ sstep pd m l m' l' ∧
    ∀ j, 0 ≤ j < NUSER → uent m' pd j = if decide (npages newsz ≤ j < npages oldsz) then None else uent m pd j.
Proof.
  intros Hs Hn Ho. unfold deallocuvm. destruct (Z.leb_spec oldsz newsz).
  - exists m, l. replace newsz with oldsz by lia. split_and!; [done|by apply sstep_refl|].
    intros j Hj. by rewrite decide_False by lia.
  - rewrite PGROUNDUP_npages by lia. pose proof (npages_range newsz ltac:(lia)).
    destruct (dealloc_loop_run (Z.to_nat (oldsz / PGSIZE + 1)) m l pd (npages newsz) oldsz) as (m' & l' & Hrun & H');
      [done|done|lia| |].
    + assert (npages oldsz ≤ oldsz / PGSIZE + 1).
      { unfold npages, PGSIZE. apply Z.lt_succ_r. apply Z.div_lt_upper_bound; [lia|].
        pose proof (Z.div_mod oldsz 4096). pose proof (Z.mod_pos_bound oldsz 4096). lia. }
      pose proof (npages_range oldsz ltac:(lia)). lia.
    + exists m', l'. by rewrite (K_bind_Ret _ _ _ _ _ Hrun).
Qed.

(** ** [allocuvm] *)

Lemma uent_None m l pd i : space_ok m l pd → 0 ≤ i < NUSER → uent m pd i = None → upage m pd i = None.
Proof.
  intros Hs Hi He. unfold uent in He. destruct (upage m pd i) as [v|] eqn:E; [|done].
  destruct (sp_page _ _ _ Hs i v Hi E) as [(_ & _ & _ & d & Hd & _) _]. by rewrite Hd in He.
Qed.

(** A held page goes back. *)
(** The free list has run dry while [pd] grew out of [m]: all that was free or
    owned is now owned, but for one page that is held, and there are no user
    pages from [N] on. *)
Definition exhausted (pd : Z) (m : kmem) (l : list Z) (N : Z) : Prop := ∃ mx v,
  space_ok mx [] pd ∧ (∀ w, w ∈ l ∨ owned m pd w → owned mx pd w ∨ w = v) ∧ ∀ j, N ≤ j < NUSER → uent mx pd j = None.

Lemma exhausted_now m pd N :
  space_ok m [] pd → (∀ j, N ≤ j < NUSER → uent m pd j = None) → exhausted pd m [] N.
Proof. intros Hs Hn. exists m, pd. split_and!; [done| |done]. intros w [[]%elem_of_nil|]; auto. Qed.

Lemma exhausted_step pd m l m1 l1 N : sstep pd m l m1 l1 → exhausted pd m1 l1 N → exhausted pd m l N.
Proof.
  intros Hss (mx & v & Hs & Ho & Hn). exists mx, v. split_and!; [done| |done]. intros w Hw.
  apply Ho, Hss, Hw.
Qed.

(** So the free list was short: the directory, its 1024 tables, the user pages
    and the page that is held are all there was. *)
Lemma exhausted_short pd m l N :
  NoDup l → 0 ≤ N ≤ NUSER → exhausted pd m l N → Z.of_nat (length l) ≤ N + 1026.
Proof.
  intros Hnd HN (mx & v & Hs & Ho & Hn).
  set (all := pd :: v :: omap (tab mx pd) (seqZ 0 1024) ++ omap (upage mx pd) (seqZ 0 N)).
  assert (Hsub : l ⊆+ all).
  { apply NoDup_submseteq; [done|]. intros w Hw. unfold all. rewrite !elem_of_cons, elem_of_app, !list_elem_of_omap.
    destruct (Ho w (or_introl Hw)) as [[[?|(i & Hi & Hti)]|(i & Hi & Hui)]|?]; [by left| | |by right; left].
    - right. right. left. exists i. split; [by apply elem_of_seqZ|done].
    - right. right. right. exists i. split; [|done]. apply elem_of_seqZ.
      destruct (decide (N ≤ i)); [|lia]. rewrite (uent_None mx [] pd i) in Hui; [done|done|done|]. apply Hn. lia. }
  apply submseteq_length in Hsub. unfold all in Hsub. cbn [length] in Hsub. rewrite length_app in Hsub.
  pose proof (length_omap_le (tab mx pd) (seqZ 0 1024)). pose proof (length_omap_le (upage mx pd) (seqZ 0 N)).
  rewrite length_seqZ in *. lia.
Qed.

Lemma release_held pd m v l m2 m4 l4 :
  sstep pd m2 l m4 l4 → in_use m2 l v → ¬ owned m2 pd v →
  (∀ w, owned m2 pd w ↔ owned m pd w) → (∀ w, w ≠ v → km_pages m2 !! w = km_pages m !! w) →
  ∃ m5, kfree v m4 = Ret tt m5 ∧ sstep pd m (v :: l) m5 (v :: l4) ∧
    ∀ i, 0 ≤ i < NUSER → uent m5 pd i = uent m4 pd i.
Proof.
  intros [Hs Hfr Hown] (Hpa & Hvr & Hvl & _) Hno Ho2 Hpg.
  assert (v ∉ l4 ∧ ¬ owned m4 pd v) as [Hv4 Hno4] by (specialize (Hown v); tauto).
  destruct (kfree_run m4 l4 v (pt_mem _ _ _ (sp_pt _ _ _ Hs)) Hpa Hvr Hv4) as [Hf Hm5].
  set (m5 := KMem _ _ _ _) in *. exists m5. split; [done|].
  destruct (space_same m4 l4 m5 (v :: l4) pd Hs Hm5) as (H1 & H2 & _ & H4).
  { intros w Hw. assert (w ≠ v) by (intros ->; done). destruct (owned_in_use m4 l4 pd w Hs Hw) as (_ & _ & ? & _).
    split; [by apply not_elem_of_cons|]. cbn. by rewrite lookup_insert_ne. }
  split; [|done]. split; [done| |].
  - intros w [? ?]%not_elem_of_cons Hw. cbn. rewrite lookup_insert_ne by done.
    rewrite Hfr, Hpg by (done || by rewrite Ho2). done.
  - intros w. rewrite H2, !elem_of_cons. specialize (Hown w). specialize (Ho2 w). tauto.
Qed.

(** Taking a page with contents [d] from the allocator into the space. *)
Lemma take_page m l pd i d perm :
  space_ok m l pd → 0 ≤ i < NUSER → uent m pd i = None → length d = Z.to_nat PGSIZE → 0 ≤ perm < PGSIZE →
  (l = [] ∧ kalloc m = Ret 0 m) ∨
  ∃ v m1 m2 r m3 l3, kalloc m = Ret v m1 ∧ v ≠ 0 ∧ km_pages m1 = km_pages m ∧ write_page v d m1 = Ret tt m2 ∧
    mappages pd (i * PGSIZE) PGSIZE (V2P v) perm m2 = Ret r m3 ∧
    ((r = 0 ∧ sstep pd m l m3 l3 ∧
      ∀ j, 0 ≤ j < NUSER → uent m3 pd j = if decide (j = i) then Some (Z.lor perm PTE_P, d) else uent m pd j) ∨
     (r = -1 ∧ space_ok m3 l3 pd ∧ (∀ j, 0 ≤ j < NUSER → uent m3 pd j = uent m pd j) ∧
      (∀ N, 0 ≤ N → (∀ j, N ≤ j < NUSER → uent m pd j = None) → exhausted pd m l N) ∧
      ∀ m4 l4, sstep pd m3 l3 m4 l4 → ∃ m5 l5, kfree v m4 = Ret tt m5 ∧ sstep pd m l m5 l5 ∧
        ∀ j, 0 ≤ j < NUSER → uent m5 pd j = uent m4 pd j)).
Proof.
  intros Hs Hi Hnone Hd Hperm. destruct l as [|v l1].
  { left. split; [done|]. apply (kalloc_run m []), Hs. }
  right. destruct (hold_page m v l1 pd d Hs Hd) as (m1 & Hk & Hv0 & Hs2 & Huse & Hpg & Hno & Hown & Hpte & Hent).
  set (m2 := set_km_pages (<[v:=d]> (km_pages m1)) m1) in *.
  assert (Hpg2 : ∀ w, w ≠ v → km_pages m2 !! w = km_pages m !! w).
  { intros w Hw. cbn. rewrite lookup_insert_ne by done. by rewrite Hpg. }
  destruct (map_held m2 l1 pd v d i perm) as (r & m3 & l3 & Hmap & Hcase); try done.
  { cbn. by rewrite lookup_insert_eq. }
  { eapply uent_None; [done|done|]. by rewrite Hent. }
  exists v, m1, m2, r, m3, l3. do 5 (split; [done|]).
  destruct Hcase as [(-> & -> & Hss & He)|(-> & Hs3 & _ & Hfr & Ho3 & He)]; [right|left]; (split; [done|]).
  - split; [apply Hss|]. split; [intros j Hj; rewrite He, Hent by done; done|]. split.
    { intros N HN Hn. exists m3, v. split_and!; [apply Hss| |intros j Hj; rewrite He, Hent by lia; by apply Hn].
      intros w Hw. rewrite elem_of_cons, <- Hown in Hw. pose proof (ss_owned _ _ _ _ _ Hss w) as Hsw.
      rewrite elem_of_nil in Hsw. tauto. }
    intros m4 l4 Hss4.
    destruct (release_held pd m v l1 m2 m4 l4) as (m5 & ? & ? & ?); try done; [by eapply sstep_trans|].
    by exists m5, (v :: l4).
  - split.
    + split; [done| |].
      * intros w [? ?]%not_elem_of_cons ?. rewrite Hfr, Hpg2 by (done || by rewrite Hown). done.
      * intros w. rewrite Ho3, Hown, elem_of_cons. tauto.
    + intros j Hj. rewrite He by done. case_decide; [done|]. by apply Hent.
Qed.

Lemma alloc_loop_run n m l pd p oldsz newsz :
  space_ok m l pd → npages oldsz ≤ p → 0 ≤ oldsz ≤ newsz → newsz < KERNBASE →
  npages newsz - p ≤ Z.of_nat n → (∀ j, p ≤ j < NUSER → uent m pd j = None) →
  ∃ r m' l', allocuvm_loop n pd (p * PGSIZE) oldsz newsz m = Ret r m' ∧ sstep pd m l m' l' ∧
    ((r = newsz ∧ ∀ j, 0 ≤ j < NUSER → uent m' pd j =
        if decide (p ≤ j < npages newsz) then Some (Z.lor (Z.lor PTE_W PTE_U) PTE_P, fill_page 0) else uent m pd j) ∨
     (r = 0 ∧ exhausted pd m l (npages newsz) ∧ ∀ j, 0 ≤ j < NUSER → uent m' pd j =
        if decide (npages oldsz ≤ j < npages newsz) then None else uent m pd j)).
Proof.
  revert m l p. induction n as [|n IH]; intros m l p Hs Hop Ho Hnk Hn Hnone; cbn [allocuvm_loop];
    pose proof (npages_lt p newsz) as Hlt; pose proof (npages_range newsz ltac:(lia)) as Hr;
    pose proof (npages_range oldsz ltac:(lia)) as Hro;
    destruct (Z.ltb_spec (p * PGSIZE) newsz) as [Ha|Ha]; try lia.
  1, 3: exists newsz, m, l; split_and!; [done|by apply sstep_refl|left; split; [done|]];
    intros j Hj; by rewrite decide_False by lia.
  destruct (take_page m l pd p (fill_page 0) (Z.lor PTE_W PTE_U))
    as [[-> Hk]|(v & m1 & m2 & r & m3 & l3 & Hk & Hv0 & _ & Hw & Hmap & Hcase)];
    [done|lia|apply Hnone; lia|apply fill_page_length|done|..].
  - rewrite (K_bind_Ret _ _ _ _ _ Hk).
    destruct (deallocuvm_run m [] pd newsz oldsz) as (m' & l' & Hd & Hss & He); [done|lia|lia|].
    exists 0, m', l'. cbn [Z.eqb]. rewrite (K_bind_Ret _ _ _ _ _ Hd).
    assert (exhausted pd m [] (npages newsz)) by (apply exhausted_now; [done|intros; apply Hnone; lia]). auto 6.
  - rewrite (K_bind_Ret _ _ _ _ _ Hk). destruct (Z.eqb_spec v 0) as [|_]; [done|].
    rewrite (K_bind_Ret _ _ _ _ _ Hw), (K_bind_Ret _ _ _ _ _ Hmap).
    destruct Hcase as [(-> & Hss & He)|(-> & Hs3 & He & Hex & Hrel)]; cbn [Z.ltb Z.compare].
    + rewrite u32_small by (unfold KERNBASE, PGSIZE in *; lia).
      replace (p * PGSIZE + PGSIZE) with ((p + 1) * PGSIZE) by lia.
      destruct (IH m3 l3 (p + 1)) as (r & m' & l' & Hrun & Hss' & Hcase); [apply Hss|lia|done|done|lia| |].
      { intros j Hj. rewrite He, decide_False by lia. apply Hnone. lia. }
      exists r, m', l'. split_and!; [done|by eapply sstep_trans|].
      destruct Hcase as [[-> He']|(-> & Hex & He')]; [left|right]; (split; [done|]); [|split; [by eapply exhausted_step|]];
        intros j Hj; rewrite He', He by done; repeat case_decide; done || lia.
    + destruct (deallocuvm_run m3 l3 pd newsz oldsz) as (m4 & l4 & Hd & Hss4 & He4); [done|lia|lia|].
      destruct (Hrel m4 l4 Hss4) as (m5 & l5 & Hf & Hss & He5).
      rewrite (K_bind_Ret _ _ _ _ _ Hd), (K_bind_Ret _ _ _ _ _ Hf). exists 0, m5, l5. split_and!; [done|done|].
      right. split; [done|]. split; [apply Hex; [lia|intros; apply Hnone; lia]|].
      intros j Hj. by rewrite He5, He4, He by done.
Qed.

Lemma npages_le sz : 0 ≤ sz → npages sz ≤ sz / PGSIZE + 1.
Proof.
  intros Hsz. unfold npages, PGSIZE. apply Z.lt_succ_r. apply Z.div_lt_upper_bound; [lia|].
  pose proof (Z.div_mod sz 4096). pose proof (Z.mod_pos_bound sz 4096). lia.
Qed.

(** ** [freevm] *)

(** The tables of the directory entries [ks] go to the free list. *)
Lemma free_tables_run ks m l pd m0 :
  kmem_ok m l → NoDup ks → (∀ i, i ∈ ks → 0 ≤ i < 1024) → in_use m l pd → (∀ i, pde m pd i = pde m0 pd i) →
  (∀ i t, i ∈ ks → tab m0 pd i = Some t → in_use m l t ∧ t ≠ pd) →
  (∀ i j t, i ∈ ks → j ∈ ks → tab m0 pd i = Some t → tab m0 pd j = Some t → i = j) →
  ∃ m' l', for_each ks (free_pgtab pd) m = Ret tt m' ∧ kmem_ok m' l' ∧ in_use m' l' pd ∧
    (∀ v, v ∈ l' ↔ v ∈ l ∨ ∃ i, i ∈ ks ∧ tab m0 pd i = Some v) ∧
    (∀ v, v ∉ l' → km_pages m' !! v = km_pages m !! v).
Proof.
  revert m l. induction ks as [|i ks IH]; intros m l Hm Hnd Hr Hpd Hpde Htab Hinj; cbn [for_each].
  { exists m, l. split_and!; try done. intros v. split; [by left|]. intros [?|(i & Hi & _)]; [done|].
    by apply elem_of_nil in Hi. }
  apply NoDup_cons in Hnd as [Hi Hnd].
  assert (Hrd : free_pgtab pd i m = (if present (pde m0 pd i) then kfree (P2V (PTE_ADDR (pde m0 pd i))) else mret tt) m).
  { unfold free_pgtab. rewrite (K_bind_Ret _ _ _ _ _ (read_pte_run _ _ _ _ Hpd)), Hpde. done. }
  destruct (tab m0 pd i) as [t|] eqn:Et; unfold tab in Et; destruct (present (pde m0 pd i)) eqn:Ep; try done.
  - injection Et as Et. rewrite Et in Hrd. assert (Ht : tab m0 pd i = Some t) by (unfold tab; rewrite Ep; congruence).
    destruct (Htab i t) as [(Hpa & Htr & Htl & Hex) Hne]; [left|done|].
    destruct (kfree_run m l t Hm Hpa Htr Htl) as [Hf Hm1]. rewrite Hf in Hrd. rewrite (K_bind_Ret _ _ _ _ _ Hrd).
    set (m1 := KMem _ _ _ _) in *.
    assert (Hfr : ∀ w, w ≠ t → km_pages m1 !! w = km_pages m !! w) by (intros; cbn; by rewrite lookup_insert_ne).
    assert (Huse : ∀ w, w ≠ t → in_use m l w → in_use m1 (t :: l) w).
    { intros w Hw Hu. apply (in_use_same m l); [done| |by apply Hfr]. apply not_elem_of_cons. split; [done|apply Hu]. }
    destruct (IH m1 (t :: l)) as (m' & l' & Hrun & Hm' & Hpd' & Hl' & Hfr'); try done.
    + intros j Hj. apply Hr. by right.
    + by apply Huse.
    + intros j. unfold pde. by rewrite Hfr; [apply Hpde|].
    + intros j t' Hj Ht'. destruct (Htab j t') as [Hu ?]; [by right|done|]. split; [|done]. apply Huse; [|done].
      intros ->. apply Hi. by rewrite (Hinj i j t); [|left|right|..].
    + intros j k t' Hj Hk. apply Hinj; by right.
    + exists m', l'. split_and!; try done.
      * intros v. rewrite Hl', elem_of_cons. split.
        -- intros [[->|?]|(j & Hj & ?)]; [|by left|].
           ++ right. exists i. split; [left|done].
           ++ right. exists j. split; [by right|done].
        -- intros [?|(j & Hj & ?)]; [by auto|]. apply elem_of_cons in Hj as [->|Hj]; [left; left; congruence|right; eauto].
      * intros v Hv. rewrite Hfr' by done. apply Hfr. intros ->. apply Hv. apply Hl'. left. left.
  - rewrite (K_bind_Ret _ _ _ _ _ Hrd).
    destruct (IH m l) as (m' & l' & Hrun & Hm' & Hpd' & Hl' & Hfr'); try done.
    + intros j Hj. apply Hr. by right.
    + intros j t' Hj. apply Htab. by right.
    + intros j k t' Hj Hk. apply Hinj; by right.
    + exists m', l'. split_and!; try done. intros v. rewrite Hl'. split; (intros [?|(j & Hj & Ht)]; [by left|right; exists j]).
      * split; [by right|done].
      * split; [|done]. apply elem_of_cons in Hj as [->|]; [|done]. unfold tab in Ht. by rewrite Ep in Ht.
Qed.

(** [freevm] gives every page of the space back, and touches no other. *)
Lemma freevm_run m l pd :
  space_ok m l pd →
  ∃ m' l', freevm pd m = Ret tt m' ∧ kmem_ok m' l' ∧ (∀ v, v ∈ l' ↔ v ∈ l ∨ owned m pd v) ∧
    ∀ v, v ∉ l' → km_pages m' !! v = km_pages m !! v.
Proof.
  intros Hs. pose proof (pt_dir _ _ _ (sp_pt _ _ _ Hs)) as (_ & Hpr & _). unfold freevm.
  destruct (Z.eqb_spec pd 0); [lia|].
  destruct (deallocuvm_run m l pd KERNBASE 0) as (m1 & l1 & Hd & [Hs1 Hfr1 Ho1] & He); [done|done|done|].
  rewrite (K_bind_Ret _ _ _ _ _ Hd). pose proof (sp_pt _ _ _ Hs1) as [P1 P2 P3 P4].
  assert (Hel : ∀ i, i ∈ seqZ 0 (Z.of_nat NPDENTRIES) → 0 ≤ i < 1024).
  { intros i. rewrite elem_of_seqZ. unfold NPDENTRIES. lia. }
  destruct (free_tables_run (seqZ 0 (Z.of_nat NPDENTRIES)) m1 l1 pd m1) as (m2 & l2 & Hrun & Hm2 & Hpd2 & Hl2 & Hfr2); eauto.
  { apply NoDup_seqZ. }
  rewrite (K_bind_Ret _ _ _ _ _ Hrun). destruct Hpd2 as (Hpa & Hr & Hpl & _).
  destruct (kfree_run m2 l2 pd Hm2 Hpa Hr Hpl) as [Hf Hm3]. set (m3 := KMem _ _ _ _) in *.
  assert (Hnone : ∀ v, ¬ ∃ i, 0 ≤ i < NUSER ∧ upage m1 pd i = Some v).
  { intros v (i & Hi & Hv). rewrite (uent_None m1 l1 pd i Hs1 Hi) in Hv; [done|]. rewrite He by done.
    by rewrite decide_True by (change (npages KERNBASE) with NUSER; change (npages 0) with 0; lia). }
  assert (Hall : ∀ v, v ∈ pd :: l2 ↔ v ∈ l ∨ owned m pd v).
  { intros v. rewrite <- Ho1, elem_of_cons, Hl2. unfold owned, pt_owned. specialize (Hnone v).
    setoid_rewrite elem_of_seqZ. change (0 + Z.of_nat NPDENTRIES) with 1024. tauto. }
  exists m3, (pd :: l2). split_and!; try done. intros v Hv. pose proof Hv as [? ?]%not_elem_of_cons.
  rewrite Hall in Hv. cbn. rewrite lookup_insert_ne, Hfr2, Hfr1 by (done || tauto || congruence). done.
Qed.

(** ** [setupkvm] *)

(** The pages of an entry of [kmap], and the page table entry it asks for at
    page number [n]. *)
Definition kfirst (k : kmap_entry) : Z := km_virt k / PGSIZE.
Definition kcount (k : kmap_entry) : Z := u32 (km_phys_end k - km_phys_start k) / PGSIZE.
Fixpoint kmap_pte (ks : list kmap_entry) (n : Z) : option Z :=
  match ks with
  | [] => None
  | k :: ks =>
      if decide (kfirst k ≤ n < kfirst k + kcount k)
      then Some (mk_pte (km_phys_start k + (n - kfirst k) * PGSIZE) (km_perm k))
      else kmap_pte ks n
  end.

(** Regions of whole pages in increasing order, from [lo] on. *)
Fixpoint regions (lo : Z) (ks : list kmap_entry) : Prop :=
  match ks with
  | [] => True
  | k :: ks =>
      lo ≤ kfirst k ∧ km_virt k = kfirst k * PGSIZE ∧ u32 (km_phys_end k - km_phys_start k) = kcount k * PGSIZE ∧
      0 < kcount k ∧ kfirst k + kcount k ≤ 2 ^ 20 ∧ 0 ≤ km_phys_start k ∧ km_phys_start k mod PGSIZE = 0 ∧
      km_phys_start k + kcount k * PGSIZE ≤ 2 ^ 32 ∧ 0 ≤ km_perm k < PGSIZE ∧
      regions (kfirst k + kcount k) ks
  end.

Lemma kmap_pte_below lo ks n : regions lo ks → n < lo → kmap_pte ks n = None.
Proof.
  revert lo. induction ks as [|k ks IH]; intros lo; [done|]. intros (? & _ & _ & ? & _ & _ & _ & _ & _ & ?) Hn.
  cbn [kmap_pte]. rewrite decide_False by lia. eapply IH; [done|lia].
Qed.

Lemma map_kernel_run ks lo m l pd :
  space_ok m l pd → NUSER ≤ lo → regions lo ks → (∀ n, lo ≤ n < 2 ^ 20 → present (pte_of m pd n) = false) →
  ∃ r m' l', map_kernel pd ks m = Ret r m' ∧
    ((r = pd ∧ sstep pd m l m' l' ∧ (∀ i, 0 ≤ i < NUSER → uent m' pd i = uent m pd i) ∧
      ∀ n, 0 ≤ n < 2 ^ 20 → pte_of m' pd n = default (pte_of m pd n) (kmap_pte ks n)) ∨
     (r = 0 ∧ kmem_ok m' l' ∧ (∀ v, v ∈ l' ↔ v ∈ l ∨ owned m pd v) ∧
      (∀ v, v ∉ l' → km_pages m' !! v = km_pages m !! v) ∧
      ((∀ i, 0 ≤ i < NUSER → uent m pd i = None) → exhausted pd m l 0))).
Proof.
  revert lo m l. induction ks as [|k ks IH]; intros lo m l Hs Hlo Hreg Hnp; cbn [map_kernel].
  { exists pd, m, l. split; [done|]. left. split_and!; try done. }
  destruct Hreg as (R1 & R2 & R3 & R4 & R5 & R6 & R7 & R8 & R9 & Hreg).
  destruct (mappages_run (kcount k) m l pd (kfirst k) (km_phys_start k) (km_perm k))
    as (r & m1 & l1 & c & Hrun & Hps & Hc & Hmap & Hcase);
    [apply Hs|done|unfold NUSER in *; lia|done|intros; apply Hnp; lia|done|done|done|done|].
  rewrite R2, R3. rewrite (K_bind_Ret _ _ _ _ _ Hrun).
  assert (Hcn : c ≤ kcount k) by lia.
  destruct (pstep_sstep pd m l m1 l1 Hs Hps) as [Hss He].
  { intros i Hi. rewrite Hmap by (by apply user_range). by rewrite decide_False by lia. }
  destruct Hcase as [[-> ->]|(-> & ? & ->)]; cbn [Z.ltb Z.compare].
  - destruct (IH (kfirst k + kcount k) m1 l1) as (r & m' & l' & Hrun' & Hcase'); [apply Hss|lia|done| |].
    { intros n Hn. rewrite Hmap, decide_False by (unfold NUSER in *; lia). apply Hnp. lia. }
    exists r, m', l'. split; [done|]. destruct Hcase' as [(-> & Hss' & He' & Hp')|(-> & Hm' & Hl' & Hfr' & Hex)]; [left|right];
      (split; [done|]).
    + split; [by eapply sstep_trans|]. split; [intros i Hi; rewrite He', He by done; done|].
      intros n Hn. rewrite Hp', Hmap by done. cbn [kmap_pte]. destruct (decide (kfirst k ≤ n < kfirst k + kcount k)); [|done].
      rewrite (kmap_pte_below _ _ n Hreg) by lia. done.
    + split; [done|]. split; [intros v; rewrite Hl'; apply Hss|]. split.
      * intros v Hv. rewrite Hfr' by done. rewrite Hl' in Hv. pose proof (ss_owned _ _ _ _ _ Hss v). apply Hss; tauto.
      * intros Hn. eapply exhausted_step, Hex; [done|]. intros i Hi. rewrite He by done. by apply Hn.
  - destruct (freevm_run m1 [] pd) as (m' & l' & Hf & Hm' & Hl' & Hfr'); [apply Hss|].
    rewrite (K_bind_Ret _ _ _ _ _ Hf). exists 0, m', l'. split; [done|]. right. split_and!; [done|done| | |].
    + intros v. rewrite Hl'. apply Hss.
    + intros v Hv. rewrite Hfr' by done. rewrite Hl' in Hv. pose proof (ss_owned _ _ _ _ _ Hss v). apply Hss; tauto.
    + intros Hn. eapply exhausted_step, exhausted_now; [done|apply Hss|]. intros i Hi. rewrite He by done. by apply Hn.
Qed.

(** A zeroed page is an empty address space. *)
Lemma empty_space m l v :
  kmem_ok m l → in_use m l v → km_pages m !! v = Some (fill_page 0) →
  space_ok m l v ∧ (∀ n, pte_of m v n = 0) ∧ (∀ i, uent m v i = None) ∧ ∀ w, owned m v w ↔ w = v.
Proof.
  intros Hm Hv Hz. assert (Ht : ∀ i, tab m v i = None).
  { intros i. unfold tab, pde. by rewrite Hz, word_fill_0. }
  assert (Hp : ∀ n, pte_of m v n = 0) by (intros n; unfold pte_of; by rewrite Ht).
  assert (Hu : ∀ i, upage m v i = None) by (intros i; unfold upage; by rewrite Hp).
  split; [split; [split|..]|]; try done.
  - intros i t _. by rewrite Ht.
  - intros i j t _ _. by rewrite Ht.
  - intros i w _. by rewrite Hu.
  - intros i j w _ _. by rewrite Hu.
  - split; [done|]. split; [intros i; unfold uent; by rewrite Hu|]. intros w. unfold owned, pt_owned.
    split; [|by auto]. intros [[?|(i & _ & E)]|(i & _ & E)]; [done| |]; [by rewrite Ht in E|by rewrite Hu in E].
Qed.

(** Where the linker puts the kernel's data. *)
Context (kdata_aligned : kdata mod PGSIZE = 0) (kdata_above : KERNLINK < kdata < P2V PHYSTOP).

Lemma regions_cons lo k ks p n :
  km_virt k = p * PGSIZE → u32 (km_phys_end k - km_phys_start k) = n * PGSIZE →
  lo ≤ p → 0 < n → p + n ≤ 2 ^ 20 → 0 ≤ km_phys_start k → km_phys_start k mod PGSIZE = 0 →
  km_phys_start k + n * PGSIZE ≤ 2 ^ 32 → 0 ≤ km_perm k < PGSIZE → regions (p + n) ks → regions lo (k :: ks).
Proof.
  intros Hp Hn. assert (kfirst k = p) as E1 by (unfold kfirst; rewrite Hp; unfold PGSIZE; apply Z.div_mul; lia).
  assert (kcount k = n) as E2 by (unfold kcount; rewrite Hn; unfold PGSIZE; apply Z.div_mul; lia).
  intros. cbn [regions]. rewrite E1, E2. done.
Qed.

Lemma kmap_regions : regions NUSER kmap.
Proof.
  assert (Hk : kdata = kdata / PGSIZE * PGSIZE) by (pose proof (Z.div_mod kdata PGSIZE); unfold PGSIZE in *; lia).
  set (q := kdata / PGSIZE) in *. change (P2V PHYSTOP) with 0x8E000000 in *. unfold KERNLINK, KERNBASE, EXTMEM, PGSIZE in *.
  assert (HV : V2P kdata = (q - 0x80000) * 4096) by (unfold V2P, KERNBASE; rewrite u32_small by lia; lia).
  unfold kmap. rewrite HV.
  apply (regions_cons _ _ _ 0x80000 0x100); try done.
  apply (regions_cons _ _ _ 0x80100 (q - 0x80100)); try done.
  { change (V2P KERNLINK) with 0x100000. cbn [km_phys_end km_phys_start]. unfold PGSIZE. rewrite u32_small by lia. lia. }
  { lia. }
  { lia. }
  { cbn [km_phys_start]. change (V2P KERNLINK) with 0x100000. unfold PGSIZE. lia. }
  apply (regions_cons _ _ _ q (0x8E000 - q)); cbn [km_virt km_phys_end km_phys_start km_perm]; try done.
  { unfold PHYSTOP, PGSIZE. rewrite u32_small by lia. lia. }
  { lia. }
  { lia. }
  { lia. }
  { lia. }
  { unfold PGSIZE. apply Z.mod_mul. lia. }
  { unfold PGSIZE. lia. }
  apply (regions_cons _ _ _ 0xFE000 0x2000); try done. lia.
Qed.

(** [setupkvm] makes an address space with the kernel's mappings and nothing
    in the user half; without memory it leaves everything as it was. *)
Lemma setupkvm_run m l :
  kmem_ok m l →
  ∃ r m' l', setupkvm m = Ret r m' ∧ (∀ v, v ∉ l → km_pages m' !! v = km_pages m !! v) ∧
    ((r = 0 ∧ kmem_ok m' l' ∧ (∀ v, v ∈ l' ↔ v ∈ l) ∧ Z.of_nat (length l) ≤ 1026) ∨
     (r ≠ 0 ∧ space_ok m' l' r ∧ (∀ v, v ∈ l' ∨ owned m' r v ↔ v ∈ l) ∧
      (∀ i, 0 ≤ i < NUSER → uent m' r i = None) ∧
      ∀ n, 0 ≤ n < 2 ^ 20 → pte_of m' r n = default 0 (kmap_pte kmap n))).
Proof.
  intros Hm. pose proof (kalloc_run m l Hm) as Hk. unfold setupkvm. destruct l as [|v l].
  { exists 0, m, []. rewrite (K_bind_Ret _ _ _ _ _ Hk). split_and!; [done|done|]. left. done. }
  destruct Hk as (m1 & Hk & Hm1 & Hpg & _). rewrite (K_bind_Ret _ _ _ _ _ Hk).
  pose proof (km_addr _ _ Hm) as [[Hpa Hvr] _]%Forall_cons. pose proof (km_nodup _ _ Hm) as [Hvl _]%NoDup_cons.
  destruct (Z.eqb_spec v 0); [lia|]. set (m2 := set_km_pages (<[v:=fill_page 0]> (km_pages m1)) m1).
  rewrite (K_bind_Ret _ _ _ _ m2) by done. change (DEVSPACE <? P2V PHYSTOP) with false.
  assert (Hz : km_pages m2 !! v = Some (fill_page 0)) by (cbn; by rewrite lookup_insert_eq).
  assert (Hpg2 : ∀ w, w ≠ v → km_pages m2 !! w = km_pages m !! w).
  { intros w Hw. cbn. rewrite lookup_insert_ne by done. by rewrite Hpg. }
  destruct (empty_space m2 l v) as (Hs & Hp & He & Ho); [by apply kmem_ok_write| |done|].
  { do 3 (split; [done|]). exists (fill_page 0). by rewrite fill_page_length. }
  destruct (map_kernel_run kmap NUSER m2 l v Hs) as (r & m' & l' & Hrun & Hcase); [done|apply kmap_regions| |].
  { intros j _. by rewrite Hp. }
  exists r, m', l'. split; [exact Hrun|]. destruct Hcase as [(-> & [H1 H2 H3] & H4 & H5)|(-> & H1 & H2 & H3 & H4)].
  - split.
    + intros w [? ?]%not_elem_of_cons. rewrite H2, Hpg2 by (done || by rewrite Ho). done.
    + right. split_and!; [lia|done| | |].
      * intros w. rewrite H3, Ho, elem_of_cons. tauto.
      * intros i Hi. by rewrite H4.
      * intros j Hj. by rewrite H5, Hp.
  - split.
    + intros w [? ?]%not_elem_of_cons. rewrite H3, Hpg2 by (done || rewrite H2, Ho; tauto). done.
    + left. split_and!; [done|done|intros w; rewrite H2, Ho, elem_of_cons; tauto|].
      apply (exhausted_short v m2 (v :: l) 0); [apply Hm|unfold NUSER; lia|].
      destruct H4 as (mx & u & E1 & E2 & E3); [intros; apply He|]. exists mx, u. split_and!; [done| |done].
      intros w Hw. apply E2. rewrite elem_of_cons, Ho in Hw. rewrite Ho. tauto.
Qed.

(** ** [copyuvm] *)

Lemma PTE_FLAGS_range e : 0 ≤ PTE_FLAGS e < PGSIZE.
Proof. unfold PTE_FLAGS. change 0xFFF with (Z.ones 12). rewrite Z.land_ones by lia. by apply Z.mod_pos_bound. Qed.

Lemma flags_present e : present e = true → Z.lor (PTE_FLAGS e) PTE_P = PTE_FLAGS e.
Proof.
  intros Hp. assert (Hb : Z.testbit e 0 = true).
  { destruct (Z.testbit e 0) eqn:E; [done|]. unfold present in Hp. assert (Z.land e PTE_P = 0) as H0; [|by rewrite H0 in Hp].
    apply Z.bits_inj'. intros n Hn. rewrite Z.land_spec, Z.bits_0. destruct (decide (n = 0)) as [->|]; [by rewrite E|].
    rewrite (Z.bits_above_log2 PTE_P) by (unfold PTE_P; cbn; lia). apply andb_false_r. }
  apply Z.bits_inj'. intros n Hn. rewrite Z.lor_spec. destruct (decide (n = 0)) as [->|].
  - unfold PTE_FLAGS, u32. rewrite Z.land_spec, Z.mod_pow2_bits_low, Hb by lia. done.
  - rewrite (Z.bits_above_log2 PTE_P) by (unfold PTE_P; cbn; lia). apply orb_false_r.
Qed.

(** A page the process sees. *)
Lemma uent_Some m l pd i f d :
  space_ok m l pd → 0 ≤ i < NUSER → uent m pd i = Some (f, d) →
  ∃ t v, walkpgdir pd (i * PGSIZE) false m = Ret (Some (t, i mod 1024)) m ∧
    read_pte (t, i mod 1024) m = Ret (pte_of m pd i) m ∧ present (pte_of m pd i) = true ∧
    f = PTE_FLAGS (pte_of m pd i) ∧ v = P2V (PTE_ADDR (pte_of m pd i)) ∧ upage m pd i = Some v ∧
    km_pages m !! v = Some d ∧ in_use m l v ∧ length d = Z.to_nat PGSIZE.
Proof.
  intros Hs Hi He. unfold uent in He. destruct (upage m pd i) as [v|] eqn:Eu; [|done].
  destruct (km_pages m !! v) as [d'|] eqn:Ed; [|done]. cbn in He. injection He as <- <-.
  destruct (tab m pd (i / 1024)) as [t|] eqn:Et; [|rewrite missing_table in Eu by (done || lia); done].
  destruct (walk_user m l pd i t Hs Hi Et) as [Hw Hr]. exists t, v.
  destruct (sp_page _ _ _ Hs i v Hi Eu) as [Hu _]. pose proof Hu as (_ & _ & _ & d2 & Hd2 & Hl2).
  pose proof Eu as Eu'. unfold upage in Eu'. destruct (present (pte_of m pd i)); [|done].
  split_and!; congruence || done.
Qed.

(** Writing a page the process sees. *)
Lemma space_write m l pd i v f d d' :
  space_ok m l pd → 0 ≤ i < NUSER → uent m pd i = Some (f, d) → upage m pd i = Some v → length d' = Z.to_nat PGSIZE →
  let m' := set_km_pages (<[v:=d']> (km_pages m)) m in
  sstep pd m l m' l ∧ (∀ w, owned m' pd w ↔ owned m pd w) ∧
  ∀ j, 0 ≤ j < NUSER → uent m' pd j = if decide (j = i) then Some (f, d') else uent m pd j.
Proof.
  intros Hs Hi He Hv Hd m'. pose proof Hs as [S1 S2 S3]. destruct (S2 i v Hi Hv) as [Huse Hno].
  assert (Hpg : ∀ w, w ≠ v → km_pages m' !! w = km_pages m !! w) by (intros; cbn; by rewrite lookup_insert_ne).
  assert (Hm' : kmem_ok m' l) by (apply kmem_ok_write; [apply S1|apply Huse]).
  assert (Hpo : ∀ w, pt_owned m pd w → w ∉ l ∧ km_pages m' !! w = km_pages m !! w).
  { intros w Hw. destruct (owned_in_use m l pd w Hs) as (_ & _ & ? & _); [by left|]. split; [done|].
    apply Hpg. by intros ->. }
  destruct (pt_same m l m' l pd S1 Hm' Hpo) as [Hp' Ho']. destruct (tables_same m m' pd) as [_ Hpte]; [by apply Hpo|].
  assert (Hu : ∀ j, 0 ≤ j < NUSER → upage m' pd j = upage m pd j) by (intros; apply upage_ext, Hpte, user_range; done).
  assert (Hown : ∀ w, owned m' pd w ↔ owned m pd w).
  { intros w. unfold owned. rewrite Ho'. split; (intros [?|(j & Hj & E)]; [by left|right; exists j]);
      (split; [done|]); [by rewrite <- Hu|by rewrite Hu]. }
  split; [split|split; [done|]].
  - split; [done| |].
    + intros j w Hj. rewrite Hu by done. intros Hw. destruct (S2 j w Hj Hw). split; [|by rewrite Ho'].
      by apply in_use_write.
    + intros j1 j2 w Hj1 Hj2. rewrite (Hu j1), (Hu j2) by done. by apply S3.
  - intros w _ Hw. apply Hpg. intros ->. apply Hw. right. eauto.
  - intros w. by rewrite Hown.
  - intros j Hj. destruct (decide (j = i)) as [->|Hne].
    + unfold uent in *. rewrite Hu by done. rewrite Hv in He |- *. rewrite Hpte by (by apply user_range).
      cbn. rewrite lookup_insert_eq. destruct (km_pages m !! v); [|done]. by injection He as <- _.
    + apply uent_ext; [by apply Hpte, user_range|]. intros w Hw. apply Hpg. intros ->. by apply Hne, (S3 j i v).
Qed.

Lemma walk_addr pd a alloc : 0 ≤ a < 2 ^ 32 → walkpgdir pd a alloc = walkpgdir pd (a / PGSIZE * PGSIZE) alloc.
Proof.
  intros Ha. assert (Hp : 0 ≤ a / PGSIZE < 2 ^ 20).
  { unfold PGSIZE. split; [apply Z.div_pos|apply Z.div_lt_upper_bound]; lia. }
  destruct (page_range _ Hp) as [Hr Hd]. unfold walkpgdir.
  by rewrite !PDX_page, !PTX_page, Hd by done.
Qed.

(** A step of one space leaves a separate one as it is. *)
Definition separate (m : kmem) (pd c : Z) : Prop := ∀ v, owned m pd v → ¬ owned m c v.

Lemma other_space pd c m l m' l' :
  space_ok m l pd → separate m pd c → sstep c m l m' l' →
  space_ok m' l' pd ∧ separate m' pd c ∧ (∀ w, owned m' pd w ↔ owned m pd w) ∧
  ∀ i, 0 ≤ i < NUSER → uent m' pd i = uent m pd i.
Proof.
  intros Hs Hsep [H1 H2 H3].
  assert (Hw : ∀ w, owned m pd w → (w ∉ l' ∧ ¬ owned m' c w) ∧ km_pages m' !! w = km_pages m !! w).
  { intros w Hw. destruct (owned_in_use _ _ _ _ Hs Hw) as (_ & _ & ? & _). pose proof (Hsep w Hw).
    split; [specialize (H3 w); tauto|by apply H2]. }
  destruct (space_same m l m' l' pd Hs) as (G1 & G2 & _ & G4).
  - apply H1.
  - intros w Ho. by destruct (Hw w Ho) as [[? ?] ?].
  - split_and!; try done. intros w Ho. rewrite G2 in Ho. by destruct (Hw w Ho) as [[? ?] ?].
Qed.

Lemma copy_loop_run n m l pd c p sz :
  space_ok m l pd → space_ok m l c → separate m pd c → 0 ≤ p → 0 ≤ sz ≤ KERNBASE → npages sz - p ≤ Z.of_nat n →
  (∀ j, p ≤ j < npages sz → is_Some (uent m pd j)) → (∀ j, p ≤ j < NUSER → uent m c j = None) →
  ∃ r m' l', copyuvm_loop n pd c (p * PGSIZE) sz m = Ret r m' ∧
    ((r = c ∧ sstep c m l m' l' ∧
      ∀ j, 0 ≤ j < NUSER → uent m' c j = if decide (p ≤ j < npages sz) then uent m pd j else uent m c j) ∨
     (r = 0 ∧ kmem_ok m' l' ∧ (∀ v, v ∈ l' ↔ v ∈ l ∨ owned m c v) ∧
      (∀ v, v ∉ l' → km_pages m' !! v = km_pages m !! v) ∧ exhausted c m l (npages sz))).
Proof.
  revert m l p. induction n as [|n IH]; intros m l p Hs Hc Hsep Hp Hsz Hn Hent Hcn; cbn [copyuvm_loop];
    pose proof (npages_lt p sz) as Hlt; pose proof (npages_range sz Hsz) as Hr;
    destruct (Z.ltb_spec (p * PGSIZE) sz) as [Ha|Ha]; try lia.
  1, 3: exists c, m, l; split; [done|left]; split_and!; [done|by apply sstep_refl|];
    intros j Hj; by rewrite decide_False by lia.
  destruct (Hent p) as [[f d] Hpd]; [lia|]. pose proof (Hcn p ltac:(lia)) as Hcd. assert (Hpu : 0 ≤ p < NUSER) by lia.
  destruct (uent_Some m l pd p f d Hs Hpu Hpd) as (t & w & Hw & Hread & Hpres & -> & Hwv & Hup & Hpg & Hwu & Hlen).
  rewrite (K_bind_Ret _ _ _ _ _ Hw), (K_bind_Ret _ _ _ _ _ Hread), Hpres. cbn [negb]. rewrite <- Hwv.
  destruct (take_page m l c p d (PTE_FLAGS (pte_of m pd p)) Hc Hpu Hcd Hlen (PTE_FLAGS_range _))
    as [[-> Hk]|(v & m1 & m2 & r & m3 & l3 & Hk & Hv0 & Hpg1 & Hwr & Hmap & Hcase)]; rewrite (K_bind_Ret _ _ _ _ _ Hk).
  { destruct (freevm_run m [] c Hc) as (m' & l' & Hf & H'). exists 0, m', l'. cbn [Z.eqb].
    rewrite (K_bind_Ret _ _ _ _ _ Hf).
    assert (exhausted c m [] (npages sz)) by (apply exhausted_now; [done|intros; apply Hcn; lia]). naive_solver. }
  destruct (Z.eqb_spec v 0) as [|_]; [done|].
  assert (Hrd : read_page w m1 = Ret d m1) by (unfold read_page; kred; by rewrite Hpg1, Hpg).
  rewrite (K_bind_Ret _ _ _ _ _ Hrd), (K_bind_Ret _ _ _ _ _ Hwr), (K_bind_Ret _ _ _ _ _ Hmap).
  destruct Hcase as [(-> & Hss & He)|(-> & Hs3 & He & Hex & Hrel)]; cbn [Z.ltb Z.compare].
  - rewrite u32_small by (unfold NUSER, PGSIZE in *; lia). replace (p * PGSIZE + PGSIZE) with ((p + 1) * PGSIZE) by lia.
    destruct (other_space pd c m l m3 l3 Hs Hsep Hss) as (Hs' & Hsep' & _ & Hent').
    destruct (IH m3 l3 (p + 1)) as (r & m' & l' & Hrun & Hcase); [done|apply Hss|done|lia|done|lia| | |].
    { intros j Hj. rewrite Hent' by lia. apply Hent. lia. }
    { intros j Hj. rewrite He, decide_False by lia. apply Hcn. lia. }
    exists r, m', l'. split; [exact Hrun|]. destruct Hcase as [(-> & Hss' & He')|(-> & H1 & H2 & H3 & Hex)]; [left|right];
      (split; [done|]).
    + split; [by eapply sstep_trans|]. intros j Hj. rewrite He', He, Hent' by done. rewrite flags_present by done.
      repeat case_decide; congruence || lia.
    + split; [done|]. split; [intros u; rewrite H2; apply Hss|]. split; [|by eapply exhausted_step].
      intros u Hu. rewrite H3 by done. rewrite H2 in Hu. pose proof (ss_owned _ _ _ _ _ Hss u). apply Hss; tauto.
  - destruct (Hrel m3 l3 (sstep_refl _ _ _ Hs3)) as (m5 & l5 & Hkf & Hss & _). rewrite (K_bind_Ret _ _ _ _ _ Hkf).
    destruct (freevm_run m5 l5 c) as (m' & l' & Hf & Hm' & Hl' & Hfr'); [apply Hss|]. rewrite (K_bind_Ret _ _ _ _ _ Hf).
    exists 0, m', l'. split; [done|]. right.
    split_and!; [done|done|intros u; rewrite Hl'; apply Hss| |apply Hex; [lia|intros; apply Hcn; lia]]. intros u Hu. rewrite Hfr' by done. rewrite Hl' in Hu. pose proof (ss_owned _ _ _ _ _ Hss u). apply Hss; tauto.
Qed.

Lemma copyuvm_run m l pd sz :
  space_ok m l pd → 0 ≤ sz ≤ KERNBASE → (∀ j, 0 ≤ j < npages sz → is_Some (uent m pd j)) →
  ∃ r m' l', copyuvm pd sz m = Ret r m' ∧ space_ok m' l' pd ∧
    (∀ v, v ∉ l → km_pages m' !! v = km_pages m !! v) ∧ (∀ v, owned m' pd v ↔ owned m pd v) ∧
    (∀ j, 0 ≤ j < NUSER → uent m' pd j = uent m pd j) ∧
    ((r = 0 ∧ (∀ v, v ∈ l' ↔ v ∈ l) ∧ Z.of_nat (length l) ≤ npages sz + 1026) ∨
     (r ≠ 0 ∧ space_ok m' l' r ∧ separate m' pd r ∧
      (∀ j, 0 ≤ j < NUSER → uent m' r j = if decide (j < npages sz) then uent m pd j else None) ∧
      ∀ v, v ∈ l' ∨ owned m' r v ↔ v ∈ l)).
Proof.
  intros Hs Hsz Hent. destruct (setupkvm_run m l) as (c & m1 & l1 & Hrun & Hfr & Hcase); [apply Hs|].
  assert (Hsame : ∀ m' l', kmem_ok m' l' → (∀ v, v ∉ l → km_pages m' !! v = km_pages m !! v) → (∀ v, v ∈ l' → v ∈ l) →
    space_ok m' l' pd ∧ (∀ w, owned m' pd w ↔ owned m pd w) ∧ ∀ j, 0 ≤ j < NUSER → uent m' pd j = uent m pd j).
  { intros m' l' Hm' Hpg Hsub. destruct (space_same m l m' l' pd Hs Hm') as (? & ? & _ & ?); [|done].
    intros w Hw. destruct (owned_in_use _ _ _ _ Hs Hw) as (_ & _ & ? & _). auto. }
  unfold copyuvm. rewrite (K_bind_Ret _ _ _ _ _ Hrun).
  pose proof (npages_range sz Hsz) as Hnr.
  destruct Hcase as [(-> & Hm1 & Hl1 & Hsh)|(Hc0 & Hc & Hown & Hnone & _)].
  { destruct (Hsame m1 l1 Hm1 Hfr) as (? & ? & ?); [by apply Hl1|]. exists 0, m1, l1. split_and!; [done..|].
    left. split_and!; [done|done|lia]. }
  destruct (Z.eqb_spec c 0); [done|]. destruct (Hsame m1 l1) as (Hs1 & Ho1 & He1); [apply Hc|done|intros; apply Hown; auto|].
  assert (Hsep : separate m1 pd c).
  { intros w Hw Hwc. rewrite Ho1 in Hw. destruct (owned_in_use _ _ _ _ Hs Hw) as (_ & _ & Hwl & _). apply Hwl, Hown. auto. }
  destruct (copy_loop_run (Z.to_nat (sz / PGSIZE + 1)) m1 l1 pd c 0 sz Hs1 Hc Hsep) as (r & m' & l' & Hrun' & Hcase');
    [lia|done|pose proof (npages_le sz); lia|intros j Hj; rewrite He1 by lia; by apply Hent|done|].
  exists r, m', l'. split; [exact Hrun'|]. destruct Hcase' as [(-> & Hss & He)|(-> & Hm' & Hl' & Hfr' & mx & u & E1 & E2 & E3)].
  - destruct (other_space pd c m1 l1 m' l' Hs1 Hsep Hss) as (H1 & H2 & H3 & H4). split_and!; [done| | | |].
    + intros v Hv. rewrite (ss_frame _ _ _ _ _ Hss), Hfr by (done || intros ?; apply Hv, Hown; auto). done.
    + intros v. by rewrite H3, Ho1.
    + intros j Hj. by rewrite H4, He1 by done.
    + right. split_and!; [done|apply Hss|done| |].
      * intros j Hj. rewrite He, Hnone, He1 by done. repeat case_decide; done || lia.
      * intros v. rewrite <- Hown. apply Hss.
  - assert (Hpg : ∀ v, v ∉ l → km_pages m' !! v = km_pages m !! v).
    { intros v Hv. rewrite Hfr', Hfr by (done || rewrite Hl', Hown; done). done. }
    destruct (Hsame m' l') as (? & ? & ?); [done|done|intros v Hv; apply Hown, Hl', Hv|].
    split_and!; [done|done|done|done|]. left. split_and!; [done|intros v; by rewrite Hl', Hown|].
    apply (exhausted_short c m1 l); [apply Hs|done|]. exists mx, u. split_and!; [done| |done].
    intros w Hw. apply E2. specialize (Hown w). tauto.
Qed.

(** ** Properties *)

(** C6: [allocuvm] grows the memory of a process by zeroed pages that it may
    write and that nobody else uses, and leaves the pages it had.  It returns
    0 only when the size reaches the kernel or the free list has no more pages
    than the directory, its tables and the pages of the new size can take, and
    then the process sees the same memory as before; page tables that were
    made on the way may stay in the directory.  Pages are exchanged only
    between the free list and the directory, so none is lost. *)
Theorem allocuvm_spec m l pd oldsz newsz :
  space_ok m l pd → 0 ≤ oldsz ≤ newsz → (∀ j, npages oldsz ≤ j < NUSER → uent m pd j = None) →
  ∃ r m' l', allocuvm pd oldsz newsz m = Ret r m' ∧ sstep pd m l m' l' ∧
    ((r = newsz ∧ newsz < KERNBASE ∧ ∀ j, 0 ≤ j < NUSER → uent m' pd j =
        if decide (npages oldsz ≤ j < npages newsz) then Some (Z.lor (Z.lor PTE_W PTE_U) PTE_P, fill_page 0)
        else uent m pd j) ∨
     (r = 0 ∧ (newsz < KERNBASE → Z.of_nat (length l) ≤ npages newsz + 1026) ∧
      ∀ j, 0 ≤ j < NUSER → uent m' pd j = uent m pd j)).
Proof.
  intros Hs Ho Hnone. unfold allocuvm. destruct (Z.leb_spec KERNBASE newsz).
  { exists 0, m, l. split_and!; [done|by apply sstep_refl|]. right. split_and!; [done|lia|done]. }
  destruct (Z.ltb_spec newsz oldsz); [lia|]. rewrite PGROUNDUP_npages by lia.
  pose proof (npages_range newsz ltac:(lia)) as Hnr.
  destruct (alloc_loop_run (Z.to_nat (newsz / PGSIZE + 1)) m l pd (npages oldsz) oldsz newsz)
    as (r & m' & l' & Hrun & Hss & Hcase); [done|lia|lia|done| |intros; apply Hnone; lia|].
  { pose proof (npages_le newsz). pose proof (npages_range oldsz ltac:(lia)). lia. }
  exists r, m', l'. split_and!; [done|done|]. destruct Hcase as [[-> He]|(-> & Hex & He)]; [left|right].
  - done.
  - split; [done|]. split; [intros _; apply (exhausted_short pd m l); [apply Hs|done|done]|]. intros j Hj. rewrite He by done. case_decide; [|done]. symmetry. apply Hnone. lia.
Qed.

(** C5: [copyuvm] gives a child its own memory: the child sees exactly the pages
    and permissions of the parent below [sz], no page belongs to both, and
    the parent's memory stays as it is.  It fails only when the free list is
    shorter than what the child can need, and then nothing is kept. *)
Theorem copyuvm_isolates m l pd sz :
  space_ok m l pd → 0 ≤ sz ≤ KERNBASE → (∀ j, 0 ≤ j < npages sz → is_Some (uent m pd j)) →
  ∃ r m' l', copyuvm pd sz m = Ret r m' ∧ space_ok m' l' pd ∧
    (∀ v, v ∉ l → km_pages m' !! v = km_pages m !! v) ∧ (∀ v, owned m' pd v ↔ owned m pd v) ∧
    (∀ j, 0 ≤ j < NUSER → uent m' pd j = uent m pd j) ∧
    ((r = 0 ∧ (∀ v, v ∈ l' ↔ v ∈ l) ∧ Z.of_nat (length l) ≤ npages sz + 1026) ∨
     (r ≠ 0 ∧ space_ok m' l' r ∧ separate m' pd r ∧
      (∀ j, 0 ≤ j < NUSER → uent m' r j = if decide (j < npages sz) then uent m pd j else None) ∧
      ∀ v, v ∈ l' ∨ owned m' r v ↔ v ∈ l)).
Proof. apply copyuvm_run. Qed.

(** [setupkvm] makes an address space whose kernel half maps exactly what
    [kmap] asks for and whose user half is empty, out of free pages; with
    at most 1026 free pages it may return 0, and then every page is free again.  [freevm] of any address
    space frees its pages, tables and directory, and touches nothing else. *)
Theorem setupkvm_freevm m l :
  kmem_ok m l →
  (∃ r m' l', setupkvm m = Ret r m' ∧ (∀ v, v ∉ l → km_pages m' !! v = km_pages m !! v) ∧
    ((r = 0 ∧ kmem_ok m' l' ∧ (∀ v, v ∈ l' ↔ v ∈ l) ∧ Z.of_nat (length l) ≤ 1026) ∨
     (r ≠ 0 ∧ space_ok m' l' r ∧ (∀ v, v ∈ l' ∨ owned m' r v ↔ v ∈ l) ∧
      (∀ i, 0 ≤ i < NUSER → uent m' r i = None) ∧
      ∀ n, 0 ≤ n < 2 ^ 20 → pte_of m' r n = default 0 (kmap_pte kmap n)))) ∧
  (∀ pd, space_ok m l pd → ∃ m' l', freevm pd m = Ret tt m' ∧ kmem_ok m' l' ∧
    (∀ v, v ∈ l' ↔ v ∈ l ∨ owned m pd v) ∧ ∀ v, v ∉ l' → km_pages m' !! v = km_pages m !! v).
Proof. intros Hm. split; [by apply setupkvm_run|]. intros pd. apply freevm_run. Qed.

End pagetable.

(** ** Examples *)

(** An empty address space, a kernel stack and two free pages. *)
Definition ex_pd : Z := 0x80400000.
Definition ex_kstack : Z := 0x80500000.
Definition ex_mem1 : kmem := set_km_pages (<[ex_kstack:=fill_page 0]> (km_pages ex_kmem)) ex_kmem.
Definition ex_mem : kmem := set_km_pages (<[ex_pd:=fill_page 0]> (km_pages ex_mem1)) ex_mem1.

Lemma ex_mem_ok :
  space_ok (LK:=ex_linker) ex_mem [0x80300000; 0x80200000] ex_pd ∧ (∀ j, uent ex_mem ex_pd j = None) ∧
  ¬ owned ex_mem ex_pd ex_kstack.
Proof.
  assert (Hpd : ∀ v, v = ex_pd ∨ v = ex_kstack → v ∉ [0x80300000; 0x80200000]).
  { intros v Hv ?%list_elem_of_In. cbn in *. unfold ex_pd, ex_kstack in *. lia. }
  destruct (empty_space (LK:=ex_linker) ex_mem [0x80300000; 0x80200000] ex_pd) as (H1 & _ & H3 & H4).
  - apply (kmem_ok_write ex_mem1); [|auto]. apply kmem_ok_write; [apply ex_kmem_ok|auto].
  - split; [reflexivity|]. split; [done|]. split; [auto|]. exists (fill_page 0). split; [|reflexivity].
    cbn. by rewrite lookup_insert_eq.
  - cbn. by rewrite lookup_insert_eq.
  - split_and!; [done|done|]. rewrite H4. unfold ex_pd, ex_kstack. lia.
Qed.

Lemma allocuvm_spec_witness :
  ∃ m' l', allocuvm (LK:=ex_linker) ex_pd 0 4096 ex_mem = Ret 4096 m' ∧
    sstep (LK:=ex_linker) ex_pd ex_mem [0x80300000; 0x80200000] m' l' ∧
    uent m' ex_pd 0 = Some (7, fill_page 0).
Proof.
  destruct (allocuvm_spec (LK:=ex_linker) eq_refl ex_mem [0x80300000; 0x80200000] ex_pd 0 4096)
    as (r & m' & l' & Hrun & Hss & [(-> & _ & He)|[-> _]]).
  - apply ex_mem_ok.
  - lia.
  - intros. apply ex_mem_ok.
  - exists m', l'. split; [exact Hrun|]. split; [exact Hss|]. rewrite He by (split; reflexivity || discriminate). reflexivity.
  - exfalso. vm_compute in Hrun. discriminate Hrun.
Defined.

Lemma ex_mem_grown :
  ∃ m l, space_ok (LK:=ex_linker) m l ex_pd ∧ uent m ex_pd 0 = Some (7, fill_page 0) ∧
    km_pages m !! ex_kstack = Some (fill_page 0) ∧ ex_kstack ∉ l.
Proof.
  destruct ex_mem_ok as (H1 & H2 & H3).
  destruct (alloc_loop_run (LK:=ex_linker) eq_refl 2 ex_mem [0x80300000; 0x80200000] ex_pd 0 0 4096)
    as (r & m & l & Hrun & Hss & Hcase); [done|done|lia|done|done|done|].
  destruct Hcase as [[-> He]|[-> _]]; [|vm_compute in Hrun; discriminate Hrun].
  assert (Hk : ex_kstack ∉ [0x80300000; 0x80200000]) by (intros ?%list_elem_of_In; cbn in *; unfold ex_kstack in *; lia).
  exists m, l. split; [apply Hss|]. split; [by rewrite He by (split; reflexivity || discriminate)|]. split.
  - rewrite (ss_frame _ _ _ _ _ Hss) by done.
    cbn. rewrite lookup_insert_ne by (unfold ex_pd, ex_kstack; lia). by rewrite lookup_insert_eq.
  - pose proof (ss_owned _ _ _ _ _ Hss ex_kstack). tauto.
Qed.

Lemma copyuvm_isolates_witness :
  ∃ m r m', uent m ex_pd 0 = Some (7, fill_page 0) ∧ copyuvm (LK:=ex_linker) ex_pd 4096 m = Ret r m' ∧
    uent m' ex_pd 0 = Some (7, fill_page 0) ∧ (r ≠ 0 → uent m' r 0 = Some (7, fill_page 0)).
Proof.
  destruct ex_mem_grown as (m & l & Hs & He & _ & _).
  destruct (copyuvm_isolates (LK:=ex_linker) eq_refl eq_refl (conj eq_refl eq_refl) m l ex_pd 4096 Hs)
    as (r & m' & l' & Hrun & _ & _ & _ & Hp & Hcase).
  - split; discriminate.
  - intros j Hj. change (npages 4096) with 1 in Hj. replace j with 0 by lia. rewrite He. by eexists.
  - exists m, r, m'. split; [exact He|]. split; [exact Hrun|]. split; [rewrite Hp by done; exact He|].
    intros Hr. destruct Hcase as [[-> _]|(_ & _ & _ & Hc & _)]; [done|]. rewrite Hc by done. exact He.
Defined.

Lemma setupkvm_freevm_witness :
  ∃ m' l', freevm (LK:=ex_linker) ex_pd ex_mem = Ret tt m' ∧ kmem_ok (LK:=ex_linker) m' l' ∧ ex_pd ∈ l'.
Proof.
  destruct (setupkvm_freevm (LK:=ex_linker) eq_refl eq_refl (conj eq_refl eq_refl) ex_mem [0x80300000; 0x80200000])
    as [_ Hf]; [apply ex_mem_ok|].
  destruct (Hf ex_pd (proj1 ex_mem_ok)) as (m' & l' & Hrun & Hm & Hl & _). exists m', l'.
  split; [exact Hrun|]. split; [exact Hm|]. apply Hl. right. left. left. reflexivity.
Defined.
