(* ===== verification/Namespace.v ===== *)
(** * Namespace: pid namespaces (pid_namespace.c, namespace.c)

    The tables of pid namespaces and of namespace proxies with their locks.
    Pointers are table indices.  [unshare], which works on the running
    process, is in Proc.v. *)

From Stdlib Require Import ZArith Lia.
From stdpp Require Import base numbers strings gmap list relations.
From S2P Require Import Prelude.
Open Scope Z_scope.

(** ** State *)

Definition NNAMESPACE : nat := 10.
Definition PID_NAMESPACE_MAX_DEPTH : nat := 4.
Definition PID_NS : Z := 1.

Record pid_namespace : Type := PidNamespace {
  pn_count : Z;
  pn_parent : option nat;
  pn_lock : bool;
  pn_next_pid : Z;
  pn_depth : Z;
  pn_is_pid_1_killed : bool;
}.
Definition set_pn_count (v : Z) (p : pid_namespace) : pid_namespace :=
  PidNamespace v (pn_parent p) (pn_lock p) (pn_next_pid p) (pn_depth p) (pn_is_pid_1_killed p).
Definition set_pn_lock (v : bool) (p : pid_namespace) : pid_namespace :=
  PidNamespace (pn_count p) (pn_parent p) v (pn_next_pid p) (pn_depth p) (pn_is_pid_1_killed p).
Definition set_pn_next_pid (v : Z) (p : pid_namespace) : pid_namespace :=
  PidNamespace (pn_count p) (pn_parent p) (pn_lock p) v (pn_depth p) (pn_is_pid_1_killed p).
Definition set_pn_is_pid_1_killed (v : bool) (p : pid_namespace) : pid_namespace :=
  PidNamespace (pn_count p) (pn_parent p) (pn_lock p) (pn_next_pid p) (pn_depth p) v.

Record nsproxy : Type := NsProxy {
  ns_count : Z;
  ns_pid_ns : option nat;
}.
Definition set_ns_count (v : Z) (n : nsproxy) : nsproxy := NsProxy v (ns_pid_ns n).
Definition set_ns_pid_ns (v : option nat) (n : nsproxy) : nsproxy := NsProxy (ns_count n) v.

(** [nstable] and [pid_ns_table]. *)
Record nstate : Type := NState {
  nt_lock : bool;
  nt_nsproxy : list nsproxy;
  pt_lock : bool;
  pt_pid_namespaces : list pid_namespace;
}.
Definition set_nt_lock (v : bool) (s : nstate) : nstate :=
  NState v (nt_nsproxy s) (pt_lock s) (pt_pid_namespaces s).
Definition set_nt_nsproxy (v : list nsproxy) (s : nstate) : nstate :=
  NState (nt_lock s) v (pt_lock s) (pt_pid_namespaces s).
Definition set_pt_lock (v : bool) (s : nstate) : nstate :=
  NState (nt_lock s) (nt_nsproxy s) v (pt_pid_namespaces s).
Definition set_pt_pid_namespaces (v : list pid_namespace) (s : nstate) : nstate :=
  NState (nt_lock s) (nt_nsproxy s) (pt_lock s) v.

Definition nt_lock_l : lens nstate bool := Lens nt_lock set_nt_lock.
Definition pt_lock_l : lens nstate bool := Lens pt_lock set_pt_lock.

(** What the loader leaves in the tables. *)
Definition bss_pid_namespace : pid_namespace := PidNamespace 0 None false 0 0 false.
Definition bss_nstate : nstate :=
  NState false (replicate NNAMESPACE (NsProxy 0 None)) false (replicate NNAMESPACE bss_pid_namespace).

(** ** Pid namespaces *)

Definition getpidns (i : nat) : K nstate pid_namespace :=
  o ← gets (λ s, pt_pid_namespaces s !! i);
  deref o.
Definition updpidns (i : nat) (f : pid_namespace → pid_namespace) : K nstate unit :=
  modify (λ s, set_pt_pid_namespaces (alter f i (pt_pid_namespaces s)) s).

Definition set_pid_namespace (i : nat) (count : Z) (parent : option nat) (next_pid depth : Z)
    (is_pid_1_killed : bool) : K nstate unit :=
  updpidns i (λ p, PidNamespace count parent (pn_lock p) next_pid depth is_pid_1_killed).

Definition init_pid_namespaces : K nstate unit :=
  modify (set_pt_lock false);;
  for_each (seq 0 NNAMESPACE) (λ i,
    updpidns i (set_pn_lock false);;
    set_pid_namespace i 0 None 0 0 false).

Definition check_is_pid_namespace_legal (i : nat) : K nstate bool :=
  p ← getpidns i;
  mret (pn_depth p <? Z.of_nat PID_NAMESPACE_MAX_DEPTH).

Definition increase_pid_namespace_count (i : nat) : K nstate nat :=
  acquire pt_lock_l;;
  updpidns i (λ p, set_pn_count (pn_count p + 1) p);;
  release pt_lock_l;;
  mret i.

Definition remove_from_pid_namespace (i : nat) : K nstate unit :=
  acquire pt_lock_l;;
  updpidns i (λ p, set_pn_count (pn_count p - 1) p);;
  p ← getpidns i;
  if pn_count p <? 0 then panic "remove_from_pid_namespace: this pid_namespace is never used" else
  release pt_lock_l.

(** The loop of [create_new_pid_namespace]: the first entry not in use. *)
Fixpoint free_pid_namespace (i : nat) (l : list pid_namespace) : option nat :=
  match l with
  | [] => None
  | p :: l => if pn_count p =? 0 then Some i else free_pid_namespace (S i) l
  end.
Definition create_new_pid_namespace (parent : option nat) : K nstate nat :=
  acquire pt_lock_l;;
  l ← gets pt_pid_namespaces;
  match free_pid_namespace 0 l with
  | Some i =>
      (match parent with
       | None => set_pid_namespace i 1 parent 1 1 false
       | Some q => p ← getpidns q; set_pid_namespace i 1 parent 1 (pn_depth p + 1) false
       end);;
      release pt_lock_l;;
      mret i
  | None =>
      release pt_lock_l;;
      panic "all pid_namespaces are occupied"
  end.

(** The lock of one namespace. *)
Definition pn_lock_l (i : nat) : lens nstate bool :=
  Lens (λ s, match pt_pid_namespaces s !! i with Some p => pn_lock p | None => false end)
    (λ v s, set_pt_pid_namespaces (alter (set_pn_lock v) i (pt_pid_namespaces s)) s).

Definition alloc_new_pid (i : nat) : K nstate Z :=
  acquire (pn_lock_l i);;
  p ← getpidns i;
  updpidns i (λ p, set_pn_next_pid (s32 (pn_next_pid p + 1)) p);;
  release (pn_lock_l i);;
  mret (pn_next_pid p).

(** ** Namespace proxies *)

Definition getns (i : nat) : K nstate nsproxy :=
  o ← gets (λ s, nt_nsproxy s !! i);
  deref o.
Definition updns (i : nat) (f : nsproxy → nsproxy) : K nstate unit :=
  modify (λ s, set_nt_nsproxy (alter f i (nt_nsproxy s)) s).

Definition ns_init : K nstate unit :=
  modify (set_nt_lock false);;
  init_pid_namespaces.

Fixpoint free_nsproxy_entry (i : nat) (l : list nsproxy) : option nat :=
  match l with
  | [] => None
  | n :: l => if ns_count n =? 0 then Some i else free_nsproxy_entry (S i) l
  end.
Definition create_nsproxy (pid_ns : option nat) (is_lock_required : bool) : K nstate nat :=
  (if is_lock_required then acquire nt_lock_l else mret tt);;
  l ← gets nt_nsproxy;
  match free_nsproxy_entry 0 l with
  | Some i =>
      updns i (set_ns_count 1);;
      p ← (match pid_ns with
           | None => create_new_pid_namespace None
           | Some q => increase_pid_namespace_count q
           end);
      updns i (set_ns_pid_ns (Some p));;
      (if is_lock_required then release nt_lock_l else mret tt);;
      mret i
  | None => panic "namespace out of max!"
  end.

Definition free_nsproxy (i : nat) : K nstate unit :=
  acquire nt_lock_l;;
  release nt_lock_l.

Definition put_nsproxy (i : nat) : K nstate unit :=
  acquire nt_lock_l;;
  updns i (λ n, set_ns_count (ns_count n - 1) n);;
  n ← getns i;
  (if ns_count n =? 0 then
     p ← deref (ns_pid_ns n);
     remove_from_pid_namespace p;;
     updns i (set_ns_pid_ns None)
   else mret tt);;
  release nt_lock_l.

Definition get_nsproxy (i : nat) : K nstate unit :=
  acquire nt_lock_l;;
  updns i (λ n, set_ns_count (ns_count n + 1) n);;
  release nt_lock_l.

(** ** References *)

(** How often [i] is in [R], and how many proxies point to namespace [q]. *)
Definition times (i : nat) (R : list nat) : Z := Z.of_nat (length (filter (.= i) R)).
Definition points (q : nat) (n : nsproxy) : bool := bool_decide (ns_pid_ns n = Some q).
Definition users (q : nat) (l : list nsproxy) : Z := foldr (λ n c, Z.b2z (points q n) + c) 0 l.

#[global] Arguments users : simpl never.
#[global] Arguments times : simpl never.

(** [R] lists the proxy of every process, and [H] the namespace of every
    process that has unshared one for its children: the counters count them. *)
Record ns_inv (s : nstate) (R H : list nat) : Prop := {
  nv_lock : nt_lock s = false;
  nv_pid_lock : pt_lock s = false;
  nv_proxies : length (nt_nsproxy s) = NNAMESPACE;
  nv_spaces : length (pt_pid_namespaces s) = NNAMESPACE;
  nv_R : Forall (λ i, (i < NNAMESPACE)%nat) R;
  nv_H : Forall (λ q, (q < NNAMESPACE)%nat) H;
  nv_proxy i n : nt_nsproxy s !! i = Some n →
    ns_count n = times i R ∧
    (if ns_count n =? 0 then ns_pid_ns n = None else ∃ q, ns_pid_ns n = Some q ∧ (q < NNAMESPACE)%nat);
  nv_pid q p : pt_pid_namespaces s !! q = Some p → pn_count p = users q (nt_nsproxy s) + times q H;
}.

Lemma times_cons i j R : times i (j :: R) = (if decide (j = i) then 1 else 0) + times i R.
Proof.
  unfold times. destruct (decide (j = i)).
  - rewrite filter_cons_True by done. cbn [length]. lia.
  - rewrite filter_cons_False by done. lia.
Qed.

Lemma times_nonneg i R : 0 ≤ times i R.
Proof. unfold times. lia. Qed.

Lemma times_pos i R : i ∈ R → 0 < times i R.
Proof.
  intros Hi. unfold times. destruct (filter (.= i) R) as [|x l] eqn:E; [|cbn; lia].
  assert (i ∈ filter (.= i) R) by (by apply list_elem_of_filter). rewrite E in H. by apply elem_of_nil in H.
Qed.

(** Removing one reference. *)
Lemma times_split i R1 R2 j : times j (R1 ++ i :: R2) = (if decide (i = j) then 1 else 0) + times j (R1 ++ R2).
Proof.
  unfold times. rewrite !filter_app, !length_app. destruct (decide (i = j)).
  - rewrite filter_cons_True by done. cbn [length]. lia.
  - rewrite filter_cons_False by done. lia.
Qed.

Lemma users_cons q n l : users q (n :: l) = Z.b2z (points q n) + users q l.
Proof. done. Qed.

Lemma users_nonneg q l : 0 ≤ users q l.
Proof. induction l as [|n l IH]; [done|]. rewrite users_cons. destruct (points q n); cbn [Z.b2z]; lia. Qed.

Lemma users_insert q l i n n' :
  l !! i = Some n → users q (<[i:=n']> l) = users q l - Z.b2z (points q n) + Z.b2z (points q n').
Proof.
  revert i. induction l as [|x l IH]; intros [|i] Hi; try done.
  - cbn in Hi. simplify_eq. cbn [insert list_insert]. rewrite !users_cons. lia.
  - cbn in Hi. change (<[S i:=n']> (x :: l)) with (x :: <[i:=n']> l).
    rewrite !users_cons, (IH i Hi). lia.
Qed.

Lemma users_points q l i n : l !! i = Some n → ns_pid_ns n = Some q → 0 < users q l.
Proof.
  revert i. induction l as [|x l IH]; intros [|i] Hi Hn; try done; cbn in Hi; rewrite users_cons.
  - simplify_eq. unfold points. rewrite bool_decide_true by done. pose proof (users_nonneg q l). cbn [Z.b2z]. lia.
  - specialize (IH i Hi Hn). destruct (points q x); cbn [Z.b2z]; lia.
Qed.

Lemma free_pid_namespace_spec k l :
  match free_pid_namespace k l with
  | Some i => ∃ j p, i = (k + j)%nat ∧ l !! j = Some p ∧ pn_count p = 0
  | None => Forall (λ p, pn_count p ≠ 0) l
  end.
Proof.
  revert k. induction l as [|p l IH]; intros k; cbn; [done|].
  destruct (Z.eqb_spec (pn_count p) 0).
  - exists 0%nat, p. split_and!; [lia|done|done].
  - specialize (IH (S k)). destruct (free_pid_namespace (S k) l) as [i|]; [|by constructor].
    destruct IH as (j & p' & -> & ? & ?). exists (S j), p'. split_and!; [lia|done|done].
Qed.

Lemma free_nsproxy_entry_spec k l :
  match free_nsproxy_entry k l with
  | Some i => ∃ j n, i = (k + j)%nat ∧ l !! j = Some n ∧ ns_count n = 0
  | None => Forall (λ n, ns_count n ≠ 0) l
  end.
Proof.
  revert k. induction l as [|n l IH]; intros k; cbn; [done|].
  destruct (Z.eqb_spec (ns_count n) 0).
  - exists 0%nat, n. split_and!; [lia|done|done].
  - specialize (IH (S k)). destruct (free_nsproxy_entry (S k) l) as [i|]; [|by constructor].
    destruct IH as (j & n' & -> & ? & ?). exists (S j), n'. split_and!; [lia|done|done].
Qed.

(** A change of one proxy and one namespace. *)
Lemma ns_inv_change s R H R' H' i n n' q x x' :
  ns_inv s R H → nt_nsproxy s !! i = Some n → pt_pid_namespaces s !! q = Some x →
  Forall (λ i, (i < NNAMESPACE)%nat) R' → Forall (λ q, (q < NNAMESPACE)%nat) H' →
  (∀ j, j ≠ i → times j R' = times j R) → ns_count n' = times i R' →
  (if ns_count n' =? 0 then ns_pid_ns n' = None else ∃ q, ns_pid_ns n' = Some q ∧ (q < NNAMESPACE)%nat) →
  (∀ r, r ≠ q → points r n' = points r n ∧ times r H' = times r H) →
  pn_count x' = pn_count x + (Z.b2z (points q n') - Z.b2z (points q n)) + (times q H' - times q H) →
  ns_inv (NState false (<[i:=n']> (nt_nsproxy s)) false (<[q:=x']> (pt_pid_namespaces s))) R' H'.
Proof.
  intros [I1 I2 I3 I4 I5 I6 I7 I8] Hi Hq HR HH Ht Hn Hpt Hr Hx. split; cbn; try done.
  - by rewrite length_insert.
  - by rewrite length_insert.
  - intros j m Hj. apply list_lookup_insert_cases in Hj as [(<- & -> & _)|[Hne Hj]]; [done|].
    rewrite Ht by done. by apply I7.
  - intros r y Hy. rewrite (users_insert _ _ _ _ _ Hi).
    apply list_lookup_insert_cases in Hy as [(<- & -> & _)|[Hne Hy]].
    + rewrite Hx, (I8 _ _ Hq). lia.
    + destruct (Hr r) as [-> ->]; [done|]. rewrite (I8 _ _ Hy). lia.
Qed.

Lemma proxy_exists s R H i : ns_inv s R H → (i < NNAMESPACE)%nat → ∃ n, nt_nsproxy s !! i = Some n.
Proof. intros Hs Hi. apply lookup_lt_is_Some. by rewrite (nv_proxies _ _ _ Hs). Qed.
Lemma space_exists s R H q : ns_inv s R H → (q < NNAMESPACE)%nat → ∃ x, pt_pid_namespaces s !! q = Some x.
Proof. intros Hs Hq. apply lookup_lt_is_Some. by rewrite (nv_spaces _ _ _ Hs). Qed.

(** [create_new_pid_namespace] with the table unlocked. *)
Lemma create_pid_run s parent :
  pt_lock s = false → (∀ q, parent = Some q → is_Some (pt_pid_namespaces s !! q)) →
  (Forall (λ p, pn_count p ≠ 0) (pt_pid_namespaces s) ∧
   create_new_pid_namespace parent s = Panic "all pid_namespaces are occupied") ∨
  ∃ i x x', pt_pid_namespaces s !! i = Some x ∧ pn_count x = 0 ∧ pn_count x' = 1 ∧
    pn_next_pid x' = 1 ∧ pn_parent x' = parent ∧ pn_lock x' = pn_lock x ∧
    create_new_pid_namespace parent s =
      Ret i (NState (nt_lock s) (nt_nsproxy s) false (<[i:=x']> (pt_pid_namespaces s))).
Proof.
  destruct s as [l1 px l2 sp]; cbn. intros -> Hpar. unfold create_new_pid_namespace, acquire, release. kred. cbn.
  pose proof (free_pid_namespace_spec 0 sp) as Hf.
  destruct (free_pid_namespace 0 sp) as [i|]; [right|by left].
  destruct Hf as (j & x & -> & Hx & Hc). rewrite Nat.add_0_l.
  destruct parent as [q|].
  - destruct (Hpar q eq_refl) as [y Hy]. exists j, x. eexists. split_and!; [done|done| | | | |].
    5:{ unfold getpidns, set_pid_namespace, updpidns. kred. cbn. rewrite Hy. cbn.
        rewrite (list_alter_Some _ _ _ _ Hx). done. }
    all: done.
  - exists j, x. eexists. split_and!; [done|done| | | | |].
    5:{ unfold set_pid_namespace, updpidns. kred. cbn. rewrite (list_alter_Some _ _ _ _ Hx). done. }
    all: done.
Qed.

Lemma increase_run s q x :
  pt_lock s = false → pt_pid_namespaces s !! q = Some x →
  increase_pid_namespace_count q s = Ret q (NState (nt_lock s) (nt_nsproxy s) false
    (<[q:=set_pn_count (pn_count x + 1) x]> (pt_pid_namespaces s))).
Proof.
  destruct s as [l1 px l2 sp]; cbn. intros -> Hx. unfold increase_pid_namespace_count, updpidns, acquire, release.
  kred. cbn. by rewrite (list_alter_Some _ _ _ _ Hx).
Qed.

Lemma remove_run s q x :
  pt_lock s = false → pt_pid_namespaces s !! q = Some x → 0 < pn_count x →
  remove_from_pid_namespace q s = Ret tt (NState (nt_lock s) (nt_nsproxy s) false
    (<[q:=set_pn_count (pn_count x - 1) x]> (pt_pid_namespaces s))).
Proof.
  destruct s as [l1 px l2 sp]; cbn. intros -> Hx Hc.
  unfold remove_from_pid_namespace, updpidns, getpidns, acquire, release. kred. cbn.
  rewrite (list_alter_Some _ _ _ _ Hx), (insert_lookup _ _ _ _ Hx). cbn.
  destruct (Z.ltb_spec (pn_count x - 1) 0); [lia|done].
Qed.

(** The namespace a new proxy gets: a new one, or the one given. *)
Lemma proxy_space_run s pid_ns :
  pt_lock s = false → (∀ q, pid_ns = Some q → is_Some (pt_pid_namespaces s !! q)) →
  (Forall (λ p, pn_count p ≠ 0) (pt_pid_namespaces s) ∧ pid_ns = None ∧
   create_new_pid_namespace None s = Panic "all pid_namespaces are occupied") ∨
  ∃ q x x', pt_pid_namespaces s !! q = Some x ∧ pn_count x' = pn_count x + 1 ∧ (pid_ns = None ∨ pid_ns = Some q) ∧
    (match pid_ns with
     | None => create_new_pid_namespace None
     | Some q => increase_pid_namespace_count q
     end) s = Ret q (NState (nt_lock s) (nt_nsproxy s) false (<[q:=x']> (pt_pid_namespaces s))).
Proof.
  intros Hl Hq. destruct pid_ns as [q|].
  - right. destruct (Hq q eq_refl) as [x Hx]. exists q, x. eexists. split_and!; [done| |by right|by apply increase_run].
    done.
  - destruct (create_pid_run s None Hl) as [[? ?]|(i & x & x' & Hx & Hc & Hc' & _ & _ & _ & Hr)]; [done|by left|].
    right. exists i, x, x'. split_and!; [done|lia|by left|done].
Qed.

Lemma create_nsproxy_run s R H pid_ns :
  ns_inv s R H → (∀ q, pid_ns = Some q → (q < NNAMESPACE)%nat) →
  (∃ msg, create_nsproxy pid_ns true s = Panic msg) ∨
  ∃ i s', create_nsproxy pid_ns true s = Ret i s' ∧ i ∉ R ∧ ns_inv s' (i :: R) H.
Proof.
  intros Hs Hq. unfold create_nsproxy, acquire, release.
  rewrite (K_bind_Ret _ _ s tt (set_nt_lock true s)) by (cbn; by rewrite (nv_lock _ _ _ Hs)).
  kred. cbn [nt_nsproxy set_nt_lock]. pose proof (free_nsproxy_entry_spec 0 (nt_nsproxy s)) as Hf.
  destruct (free_nsproxy_entry 0 (nt_nsproxy s)) as [i|]; [|left; by eexists].
  destruct Hf as (j & n & -> & Hn & Hc). rewrite Nat.add_0_l.
  destruct (nv_proxy _ _ _ Hs _ _ Hn) as [Ht Hp]. rewrite Hc in *. cbn in Hp.
  assert (Hj : (j < NNAMESPACE)%nat) by (rewrite <- (nv_proxies _ _ _ Hs); by eapply lookup_lt_Some).
  cbn [updns modify]. rewrite (list_alter_Some _ _ _ _ Hn).
  set (s1 := set_nt_nsproxy (<[j:=set_ns_count 1 n]> (nt_nsproxy s)) (set_nt_lock true s)).
  destruct (proxy_space_run s1 pid_ns) as [(_ & -> & ->)|(q & x & x' & Hx & Hcx & _ & Hrun)].
  - apply (nv_pid_lock _ _ _ Hs).
  - intros q ->. apply (space_exists _ _ _ _ Hs), Hq. done.
  - left. by eexists.
  - right. rewrite Hrun. cbn [updns modify nt_nsproxy s1 set_nt_nsproxy set_nt_lock].
    rewrite (list_alter_Some _ _ _ _ (insert_lookup _ _ _ _ Hn)), list_insert_insert_eq. cbn.
    exists j. eexists. split; [done|]. split.
    { intros Hin%times_pos. lia. }
    change (pt_pid_namespaces s1) with (pt_pid_namespaces s) in *.
    assert (Hqs : (q < NNAMESPACE)%nat) by (rewrite <- (nv_spaces _ _ _ Hs); by eapply lookup_lt_Some).
    eapply (ns_inv_change s R H (j :: R) H j n _ q x x'); try done.
    + apply Forall_cons. split; [done|apply (nv_R _ _ _ Hs)].
    + apply (nv_H _ _ _ Hs).
    + intros k Hk. rewrite times_cons, decide_False by done. lia.
    + rewrite times_cons, decide_True by done. cbn. lia.
    + cbn. by exists q.
    + intros r Hr. unfold points. cbn. rewrite Hp. split; [|done].
      apply bool_decide_ext. split; [by intros [=]|done].
    + unfold points. cbn. rewrite Hp, (bool_decide_true (Some q = Some q)), (bool_decide_false (None = Some q)) by done. cbn. lia.
Qed.

(** The namespace of a process with proxy [i]. *)
Definition space_of (s : nstate) (i : nat) : option nat := nt_nsproxy s !! i ≫= ns_pid_ns.

Lemma get_nsproxy_run s R H i :
  ns_inv s R H → i ∈ R → ∃ s', get_nsproxy i s = Ret tt s' ∧ ns_inv s' (i :: R) H ∧
    pt_pid_namespaces s' = pt_pid_namespaces s ∧ ∀ j, space_of s' j = space_of s j.
Proof.
  intros Hs Hi. pose proof (nv_R _ _ _ Hs) as HR. rewrite Forall_forall in HR.
  destruct (proxy_exists _ _ _ i Hs (HR i Hi)) as [n Hn]. destruct (space_exists _ _ _ 0 Hs) as [x Hx]; [unfold NNAMESPACE; lia|].
  destruct (nv_proxy _ _ _ Hs _ _ Hn) as [Ht Hp]. pose proof (times_pos _ _ Hi) as Hpos.
  exists (NState false (<[i:=set_ns_count (ns_count n + 1) n]> (nt_nsproxy s)) false
    (<[0%nat:=x]> (pt_pid_namespaces s))). split.
  - rewrite (list_insert_id _ _ _ Hx). destruct s as [l1 px l2 sp]. destruct Hs as [Hl1 Hl2 _ _ _ _ _ _]. cbn in *. subst.
    unfold get_nsproxy, updns, acquire, release. kred. cbn. by rewrite (list_alter_Some _ _ _ _ Hn).
  - split; [|split; [by cbn; rewrite (list_insert_id _ _ _ Hx)|]].
    2:{ intros j. unfold space_of. cbn. destruct (decide (i = j)) as [<-|]; [|by rewrite list_lookup_insert_ne].
        by rewrite (insert_lookup _ _ _ _ Hn), Hn. }
    eapply (ns_inv_change s R H (i :: R) H i n _ 0%nat x x); try done.
    + apply Forall_cons. split; [by apply HR|apply (nv_R _ _ _ Hs)].
    + apply (nv_H _ _ _ Hs).
    + intros k Hk. rewrite times_cons, decide_False by done. lia.
    + rewrite times_cons, decide_True by done. cbn. lia.
    + cbn. destruct (Z.eqb_spec (ns_count n) 0); [lia|]. by destruct (Z.eqb_spec (ns_count n + 1) 0); [lia|].
    + unfold points. cbn. lia.
Qed.

Lemma put_nsproxy_run s R1 R2 H i :
  ns_inv s (R1 ++ i :: R2) H → ∃ s', put_nsproxy i s = Ret tt s' ∧ ns_inv s' (R1 ++ R2) H.
Proof.
  intros Hs. pose proof (nv_R _ _ _ Hs) as HR. apply Forall_app in HR as [HR1 [Hi HR2]%Forall_cons].
  destruct (proxy_exists _ _ _ i Hs Hi) as [n Hn]. destruct (nv_proxy _ _ _ Hs _ _ Hn) as [Ht Hp].
  rewrite times_split, decide_True in Ht by done. pose proof (times_nonneg i (R1 ++ R2)) as Hnn.
  assert (Hcnt : (ns_count n =? 0) = false) by lia. rewrite Hcnt in Hp. destruct Hp as (q & Hq & Hql).
  destruct (space_exists _ _ _ q Hs Hql) as [x Hx]. pose proof (nv_pid _ _ _ Hs _ _ Hx) as Hpc.
  pose proof (users_points q _ _ _ Hn Hq) as Hup. pose proof (times_nonneg q H) as HtH.
  assert (Hother : ∀ j, j ≠ i → times j (R1 ++ R2) = times j (R1 ++ i :: R2)).
  { intros j Hj. rewrite times_split, decide_False by done. lia. }
  destruct s as [l1 px l2 sp] eqn:Es. pose proof Hs as [Hl1 Hl2 _ _ _ HH _ _]. cbn in *. subst l1 l2.
  unfold put_nsproxy, updns, getns, acquire. kred. cbn. rewrite (list_alter_Some _ _ _ _ Hn), (insert_lookup _ _ _ _ Hn).
  cbn. rewrite Ht. replace (1 + times i (R1 ++ R2) - 1) with (times i (R1 ++ R2)) by lia.
  destruct (Z.eqb_spec (times i (R1 ++ R2)) 0) as [H0|H0].
  - rewrite Hq. cbn. erewrite remove_run; [|done|exact Hx|lia]. cbn.
    rewrite (list_alter_Some _ _ _ _ (insert_lookup _ _ _ _ Hn)), list_insert_insert_eq.
    unfold release. cbn. eexists. split; [done|].
    eapply (ns_inv_change _ _ H (R1 ++ R2) H i n _ q x _ Hs); try done.
    + by apply Forall_app.
    + cbn. rewrite H0. done.
    + intros r Hr. split; [|done]. unfold points. cbn. rewrite Hq. symmetry. apply bool_decide_ext.
      split; [by intros [=]|done].
    + unfold points. cbn. rewrite Hq, (bool_decide_true (Some q = Some q)), (bool_decide_false (None = Some q)) by done. cbn. lia.
  - unfold release. cbn. eexists. split; [done|].
    rewrite <- (list_insert_id _ _ _ Hx).
    eapply (ns_inv_change _ _ H (R1 ++ R2) H i n _ q x x Hs); try done.
    + by apply Forall_app.
    + cbn. destruct (Z.eqb_spec (times i (R1 ++ R2)) 0); [lia|]. by exists q.
    + unfold points. cbn. lia.
Qed.

(** A new proxy of a namespace that exists. *)
Lemma create_nsproxy_some s R H q :
  ns_inv s R H → (q < NNAMESPACE)%nat →
  (free_nsproxy_entry 0 (nt_nsproxy s) = None ∧ create_nsproxy (Some q) true s = Panic "namespace out of max!") ∨
  ∃ i x s', create_nsproxy (Some q) true s = Ret i s' ∧ i ∉ R ∧ ns_inv s' (i :: R) H ∧
    pt_pid_namespaces s !! q = Some x ∧ (i < NNAMESPACE)%nat ∧
    pt_pid_namespaces s' = <[q:=set_pn_count (pn_count x + 1) x]> (pt_pid_namespaces s) ∧
    nt_nsproxy s' = <[i:=NsProxy 1 (Some q)]> (nt_nsproxy s).
Proof.
  intros Hs Hq. destruct (space_exists _ _ _ q Hs Hq) as [x Hx].
  assert (Hrun : create_nsproxy (Some q) true s = match free_nsproxy_entry 0 (nt_nsproxy s) with
    | Some i => Ret i (NState false (<[i:=NsProxy 1 (Some q)]> (nt_nsproxy s)) false
        (<[q:=set_pn_count (pn_count x + 1) x]> (pt_pid_namespaces s)))
    | None => Panic "namespace out of max!" end).
  { unfold create_nsproxy, acquire, release.
    rewrite (K_bind_Ret _ _ s tt (set_nt_lock true s)) by (cbn; by rewrite (nv_lock _ _ _ Hs)).
    kred. cbn [nt_nsproxy set_nt_lock]. pose proof (free_nsproxy_entry_spec 0 (nt_nsproxy s)) as Hf.
    destruct (free_nsproxy_entry 0 (nt_nsproxy s)) as [i|]; [|done]. destruct Hf as (j & n & -> & Hn & _).
    rewrite Nat.add_0_l. cbn [updns modify]. rewrite (list_alter_Some _ _ _ _ Hn).
    rewrite (increase_run _ q x); [|apply (nv_pid_lock _ _ _ Hs)|done].
    cbn. rewrite (list_alter_Some _ _ _ _ (insert_lookup _ _ _ _ Hn)), list_insert_insert_eq. done. }
  destruct (create_nsproxy_run s R H (Some q) Hs) as [[msg Hp]|(i & s' & Hi & HiR & Hinv)]; [by intros ? [= <-]| |];
    rewrite Hrun in *; destruct (free_nsproxy_entry 0 (nt_nsproxy s)) as [j|]; try done; [by left|].
  right. injection Hi as -> <-. exists i, x. eexists. split; [done|]. split_and!; try done.
  pose proof (nv_R _ _ _ Hinv) as [? _]%Forall_cons. done.
Qed.

(** [unshare] takes the lock itself: the same as asking for it. *)
Lemma create_nsproxy_locked pid_ns s :
  (acquire nt_lock_l;; i ← create_nsproxy pid_ns false; release nt_lock_l;; mret i) s = create_nsproxy pid_ns true s.
Proof.
  unfold create_nsproxy. unfold mbind, K_bind, acquire, release. cbn.
  destruct (nt_lock s); [done|]. cbn.
  destruct (free_nsproxy_entry 0 (nt_nsproxy s)); [|done]. cbn.
  by destruct ((match pid_ns with Some q => increase_pid_namespace_count q | None => create_new_pid_namespace None end) _).
Qed.

(** ** The life of the tables *)

(** What the kernel does to the tables, with [R] and [H] as above: [userinit]
    makes the first proxy; [fork] gives the child a reference to the proxy of
    its parent, or a new proxy of the namespace the parent unshared; [unshare]
    makes a new proxy for the namespace of the caller, drops the old one and
    may make a child namespace; [exit] drops both references. *)
Inductive nstep : nstate * list nat * list nat → nstate * list nat * list nat → Prop :=
  | step_userinit s R H i s' :
      create_nsproxy None true s = Ret i s' → nstep (s, R, H) (s', i :: R, H)
  | step_fork_share s R H i s' :
      i ∈ R → get_nsproxy i s = Ret tt s' → nstep (s, R, H) (s', i :: R, H)
  | step_fork_child s R H q i s' :
      q ∈ H → create_nsproxy (Some q) true s = Ret i s' → nstep (s, R, H) (s', i :: R, H)
  | step_unshare_proxy s R H i j s' :
      i ∈ R → create_nsproxy (space_of s i) true s = Ret j s' → nstep (s, R, H) (s', j :: R, H)
  | step_unshare_pid s R H i q c s' :
      i ∈ R → space_of s i = Some q → create_new_pid_namespace (Some q) s = Ret c s' →
      nstep (s, R, H) (s', R, c :: H)
  | step_put s R1 i R2 H s' :
      put_nsproxy i s = Ret tt s' → nstep (s, R1 ++ i :: R2, H) (s', R1 ++ R2, H)
  | step_remove s R H1 q H2 s' :
      remove_from_pid_namespace q s = Ret tt s' → nstep (s, R, H1 ++ q :: H2) (s', R, H1 ++ H2)
  | step_pid s R H q v s' :
      (q < NNAMESPACE)%nat → alloc_new_pid q s = Ret v s' → nstep (s, R, H) (s', R, H).

Lemma ns_inv_bss : ns_inv bss_nstate [] [].
Proof.
  split; try done; try by apply Forall_nil.
  - intros i n [-> _]%lookup_replicate. done.
  - intros q p [-> Hq]%lookup_replicate.
    do 10 (destruct q as [|q]; [done|]). unfold NNAMESPACE in Hq. lia.
Qed.

Lemma space_of_range s R H i q : ns_inv s R H → space_of s i = Some q → (q < NNAMESPACE)%nat.
Proof.
  intros Hs. unfold space_of. destruct (nt_nsproxy s !! i) as [n|] eqn:Hn; [|done]. cbn. intros Hq.
  destruct (nv_proxy _ _ _ Hs _ _ Hn) as [_ Hp]. destruct (ns_count n =? 0); [congruence|].
  destruct Hp as (r & ? & ?). congruence.
Qed.

(** A change of one namespace only. *)
Lemma ns_inv_space s R H H' q x x' :
  ns_inv s R H → pt_pid_namespaces s !! q = Some x → Forall (λ q, (q < NNAMESPACE)%nat) H' →
  (∀ r, r ≠ q → times r H' = times r H) →
  pn_count x' = pn_count x + (times q H' - times q H) →
  ns_inv (NState (nt_lock s) (nt_nsproxy s) false (<[q:=x']> (pt_pid_namespaces s))) R H'.
Proof.
  intros Hs Hx HH Hr Hc. rewrite (nv_lock _ _ _ Hs). destruct (proxy_exists _ _ _ 0 Hs) as [n Hn]; [unfold NNAMESPACE; lia|].
  destruct (nv_proxy _ _ _ Hs _ _ Hn) as [Ht Hp].
  rewrite <- (list_insert_id _ _ _ Hn). eapply (ns_inv_change s R H R H' 0%nat n n q x x'); try done.
  - apply (nv_R _ _ _ Hs).
  - by auto.
  - lia.
Qed.

Lemma alloc_new_pid_inv s q x v s' :
  pt_pid_namespaces s !! q = Some x → alloc_new_pid q s = Ret v s' →
  v = pn_next_pid x ∧
  s' = NState (nt_lock s) (nt_nsproxy s) (pt_lock s)
    (<[q:=set_pn_lock false (set_pn_next_pid (s32 (pn_next_pid x + 1)) x)]> (pt_pid_namespaces s)).
Proof.
  destruct s as [l1 px l2 sp]. cbn. intros Hx.
  unfold alloc_new_pid, acquire, release, getpidns, updpidns. unfold mbind, K_bind. cbn. rewrite Hx.
  destruct (pn_lock x); [done|]. cbn.
  rewrite !(list_alter_Some _ _ _ _ Hx), (insert_lookup _ _ _ _ Hx). cbn.
  rewrite !(list_alter_Some _ _ _ _ (insert_lookup _ _ _ _ Hx)), !list_insert_insert_eq.
  rewrite (insert_lookup _ _ _ _ Hx). cbn.
  rewrite !(list_alter_Some _ _ _ _ (insert_lookup _ _ _ _ Hx)), !list_insert_insert_eq. by intros [= <- <-].
Qed.

Lemma nstep_inv s R H s' R' H' : nstep (s, R, H) (s', R', H') → ns_inv s R H → ns_inv s' R' H'.
Proof.
  intros Hstep Hs. pose proof (nv_H _ _ _ Hs) as HH. inversion Hstep; subst; clear Hstep.
  - destruct (create_nsproxy_run s R H' None Hs) as [[??]|(?&?&?&_&?)]; [done|congruence|by same_run].
  - destruct (get_nsproxy_run s R H' i Hs) as (?&?&?&_); [done|by same_run].
  - rewrite Forall_forall in HH.
    destruct (create_nsproxy_run s R H' (Some q) Hs) as [[??]|(?&?&?&_&?)]; [naive_solver|congruence|by same_run].
  - destruct (create_nsproxy_run s R H' (space_of s i) Hs) as [[??]|(?&?&?&_&?)];
      [intros; by eapply space_of_range|congruence|by same_run].
  - destruct (create_pid_run s (Some q) (nv_pid_lock _ _ _ Hs)) as [[? ?]|(j & x & x' & Hx & Hc & Hc' & _ & _ & _ & Hr)].
    + intros r [= <-]. eapply space_exists; [done|by eapply space_of_range].
    + congruence.
    + assert (j = c ∧ s' = NState (nt_lock s) (nt_nsproxy s) false (<[j:=x']> (pt_pid_namespaces s))) as [-> ->] by (split; congruence).
      eapply ns_inv_space; [done|done| | |].
      * apply Forall_cons. split; [|done]. rewrite <- (nv_spaces _ _ _ Hs). by eapply lookup_lt_Some.
      * intros r Hne. rewrite times_cons, decide_False by done. done.
      * rewrite times_cons, decide_True by done. lia.
  - destruct (put_nsproxy_run s R1 R2 H' i Hs) as (?&?&?); by same_run.
  - apply Forall_app in HH as [HH1 [Hq HH2]%Forall_cons]. destruct (space_exists _ _ _ q Hs Hq) as [x Hx].
    pose proof (nv_pid _ _ _ Hs _ _ Hx) as Hc. rewrite times_split, decide_True in Hc by done.
    pose proof (users_nonneg q (nt_nsproxy s)). pose proof (times_nonneg q (H1 ++ H2)).
    rewrite (remove_run s q x) in * by (try done; try apply (nv_pid_lock _ _ _ Hs); lia). simplify_eq.
    eapply ns_inv_space; [done|done|by apply Forall_app| |].
    + intros r Hr. rewrite times_split, decide_False by done. done.
    + rewrite times_split, decide_True by done. cbn. lia.
  - destruct (space_exists _ _ _ q Hs) as [x Hx]; [done|].
    revert select (alloc_new_pid _ _ = _). intros [_ ->]%(alloc_new_pid_inv _ _ _ _ _ Hx).
    rewrite (nv_pid_lock _ _ _ Hs). eapply ns_inv_space; [done|done|done|done|cbn; lia].
Qed.

Lemma nstep_reachable s R H : rtc nstep (bss_nstate, [], []) (s, R, H) → ns_inv s R H.
Proof.
  intros Hr. remember (bss_nstate, [], []) as c eqn:Ec. remember (s, R, H) as d eqn:Ed.
  assert (∀ c', c' = c → ns_inv c'.1.1 c'.1.2 c'.2) as Hc by (intros ? ->; subst; apply ns_inv_bss).
  clear Ec. specialize (Hc c eq_refl). revert s R H Ed.
  induction Hr as [c|[[s0 R0] H0] [[s1 R1] H1] d Hstep Hr IH]; intros s R H ->; [done|].
  cbn in *. eapply IH; [|done]. cbn. by eapply nstep_inv.
Qed.

(** What a process and an unshared namespace rely on. *)
Lemma space_in_use s R H i : ns_inv s R H → i ∈ R → ∃ n q x,
  nt_nsproxy s !! i = Some n ∧ ns_count n = times i R ∧ ns_pid_ns n = Some q ∧
  pt_pid_namespaces s !! q = Some x ∧ 0 < pn_count x.
Proof.
  intros Hs Hi. pose proof (nv_R _ _ _ Hs) as HR. rewrite Forall_forall in HR.
  destruct (proxy_exists _ _ _ i Hs (HR i Hi)) as [n Hn]. destruct (nv_proxy _ _ _ Hs _ _ Hn) as [Ht Hp].
  pose proof (times_pos _ _ Hi). destruct (Z.eqb_spec (ns_count n) 0); [lia|]. destruct Hp as (q & Hq & Hql).
  destruct (space_exists _ _ _ q Hs Hql) as [x Hx]. exists n, q, x. split_and!; try done.
  rewrite (nv_pid _ _ _ Hs _ _ Hx). pose proof (users_points q _ _ _ Hn Hq). pose proof (times_nonneg q H). lia.
Qed.
Lemma held_in_use s R H q : ns_inv s R H → q ∈ H → ∃ x, pt_pid_namespaces s !! q = Some x ∧ 0 < pn_count x.
Proof.
  intros Hs Hq. pose proof (nv_H _ _ _ Hs) as HH. rewrite Forall_forall in HH.
  destruct (space_exists _ _ _ q Hs (HH q Hq)) as [x Hx]. exists x. split; [done|].
  rewrite (nv_pid _ _ _ Hs _ _ Hx). pose proof (users_nonneg q (nt_nsproxy s)). pose proof (times_pos _ _ Hq). lia.
Qed.

(** C21: In every state the kernel reaches, the counters are the numbers of
    references: a proxy's is the number of processes that have it, and it has
    a namespace exactly while that is not 0; a namespace's is the number of
    proxies that point to it plus the number of processes that have unshared
    it for their children.  So the namespace of a process is in use; dropping
    a reference never panics; and a new proxy or namespace is one that no
    process uses. *)
Theorem namespace_references s R H :
  rtc nstep (bss_nstate, [], []) (s, R, H) →
  (∀ i n, nt_nsproxy s !! i = Some n → ns_count n = times i R ∧ (is_Some (ns_pid_ns n) ↔ ns_count n ≠ 0)) ∧
  (∀ q p, pt_pid_namespaces s !! q = Some p → pn_count p = users q (nt_nsproxy s) + times q H) ∧
  (∀ i, i ∈ R → ∃ n q x,
     nt_nsproxy s !! i = Some n ∧ ns_count n = times i R ∧ ns_pid_ns n = Some q ∧
     pt_pid_namespaces s !! q = Some x ∧ 0 < pn_count x ∧ ∃ s', put_nsproxy i s = Ret tt s') ∧
  (∀ q, q ∈ H → ∃ s', remove_from_pid_namespace q s = Ret tt s') ∧
  (∀ pid_ns i s', (∀ q, pid_ns = Some q → (q < NNAMESPACE)%nat) →
     create_nsproxy pid_ns true s = Ret i s' → i ∉ R) ∧
  (∀ parent c s', (∀ q, parent = Some q → (q < NNAMESPACE)%nat) →
     create_new_pid_namespace parent s = Ret c s' → c ∉ H ∧ ∀ i, i ∈ R → space_of s i ≠ Some c).
Proof.
  intros Hs%nstep_reachable. split_and!.
  - intros i n Hn. destruct (nv_proxy _ _ _ Hs _ _ Hn) as [Hc Hp]. split; [done|].
    destruct (Z.eqb_spec (ns_count n) 0) as [E|E]; [rewrite Hp; split; [by intros []|done]|].
    destruct Hp as (q & -> & _). split; [done|by eexists].
  - apply (nv_pid _ _ _ Hs).
  - intros i Hi. destruct (space_in_use _ _ _ _ Hs Hi) as (n & q & x & Hn & Hc & Hq & Hx & Hpos).
    apply list_elem_of_split in Hi as (R1 & R2 & ->).
    destruct (put_nsproxy_run _ _ _ _ _ Hs) as (s' & Hput & _). naive_solver.
  - intros q Hq. destruct (held_in_use _ _ _ _ Hs Hq) as (x & Hx & Hpos).
    rewrite (remove_run s q x) by (done || apply (nv_pid_lock _ _ _ Hs)). eauto.
  - intros pid_ns i s' Hr Hrun. destruct (create_nsproxy_run _ _ _ _ Hs Hr) as [[? ?]|(?&?&?&?&?)]; [congruence|].
    by same_run.
  - intros parent c s' Hr Hrun.
    destruct (create_pid_run s parent (nv_pid_lock _ _ _ Hs)) as [[? ?]|(j & x & x' & Hx & Hc & _ & _ & _ & _ & ?)].
    { intros q Hq. eapply space_exists; eauto. }
    { congruence. }
    same_run. split.
    + intros (y & Hy & ?)%(held_in_use _ _ _ _ Hs). simplify_eq. lia.
    + intros i (n & q & y & Hn & _ & Hq & Hy & ?)%(space_in_use _ _ _ _ Hs). unfold space_of. rewrite Hn. cbn.
      rewrite Hq. intros [= ->]. simplify_eq. lia.
Qed.

(** Each step computes the next state. *)
Ltac nstep_eval step := eapply rtc_l; [eapply step; vm_compute; reflexivity|].

Lemma namespace_references_witness :
  ∃ s, rtc nstep (bss_nstate, [], []) (s, [0%nat; 0%nat], [1%nat]) ∧ ns_count <$> nt_nsproxy s !! 0%nat = Some 2 ∧
    pn_count <$> pt_pid_namespaces s !! 1%nat = Some 1 ∧ ∃ s', put_nsproxy 0 s = Ret tt s'.
Proof.
  assert (∃ s, rtc nstep (bss_nstate, [], []) (s, [0%nat; 0%nat], [1%nat]) ∧ length (nt_nsproxy s) = 10%nat ∧ length (pt_pid_namespaces s) = 10%nat ∧
    users 1 (nt_nsproxy s) = 0) as (s & Hr & Hl1 & Hl2 & Hu).
  { eexists. split.
    - nstep_eval step_userinit. eapply rtc_l; [eapply (step_fork_share _ _ _ 0%nat); [left|vm_compute; reflexivity]|].
      eapply rtc_l; [eapply (step_unshare_pid _ _ _ 0%nat); [left|vm_compute; reflexivity..]|]. apply rtc_refl.
    - split; [|split]; vm_compute; reflexivity. }
  exists s. split; [exact Hr|]. destruct (namespace_references _ _ _ Hr) as (Hn & Hp & Hput & _).
  split; [|split].
  - destruct (lookup_lt_is_Some_2 (nt_nsproxy s) 0) as [n E]; [rewrite Hl1; lia|]. rewrite E. cbn. by destruct (Hn _ _ E) as [-> _].
  - destruct (lookup_lt_is_Some_2 (pt_pid_namespaces s) 1) as [p E]; [rewrite Hl2; lia|]. rewrite E. cbn. by rewrite (Hp _ _ E), Hu.
  - destruct (Hput 0%nat) as (n & q & x & _ & _ & _ & _ & _ & Hs); [left|exact Hs].
Defined.

(** A namespace does not count as a user of its parent. With a process in a
    namespace [2] whose parent is [1], [1] can be free, and the next
    [unshare] hands it out again: the parent of [2] is then a namespace that
    has nothing to do with it. *)
Theorem parent_namespace_reused :
  ∃ s R H i x y s', rtc nstep (bss_nstate, [], []) (s, R, H) ∧ i ∈ R ∧
    space_of s i = Some 2%nat ∧ pt_pid_namespaces s !! 2%nat = Some x ∧ pn_parent x = Some 1%nat ∧
    pt_pid_namespaces s !! 1%nat = Some y ∧ pn_count y = 0 ∧
    create_new_pid_namespace (Some 0%nat) s = Ret 1%nat s'.
Proof.
  do 7 eexists. split.
  { nstep_eval step_userinit.
    eapply rtc_l; [eapply (step_unshare_pid _ _ _ 0%nat); [left|vm_compute; reflexivity..]|].
    eapply rtc_l; [eapply (step_fork_child _ _ _ 1%nat); [left|vm_compute; reflexivity]|].
    eapply rtc_l; [eapply (step_unshare_pid _ _ _ 1%nat); [left|vm_compute; reflexivity..]|].
    eapply rtc_l; [eapply (step_fork_child _ _ _ 2%nat); [left|vm_compute; reflexivity]|].
    eapply rtc_l; [eapply (step_put _ [2%nat] 1%nat [0%nat]); vm_compute; reflexivity|].
    eapply rtc_l; [eapply (step_remove _ _ [] 2%nat [1%nat]); vm_compute; reflexivity|].
    eapply rtc_l; [eapply (step_remove _ _ [] 1%nat []); vm_compute; reflexivity|].
    apply rtc_refl. }
  split; [left|]. split_and!; vm_compute; reflexivity.
Qed.
