(* ===== verification/Pipe.v ===== *)
(** * Pipe: the ring buffer of pipe.c

    The operations on one pipe, and processes that use it.  [sleep] inside
    [pipewrite] and [piperead] is a result of its own, with the point to
    resume from, so that the sleeps, the wakeups and the interleaving of
    readers and writers are part of the model.  [p_woken] is a history
    variable: the [wakeup] calls made.  Allocation ([pipealloc]) and the
    freeing of the page are in File.v, with the file table. *)

From Stdlib Require Import ZArith Lia.
From stdpp Require Import base numbers strings gmap list relations.
From S2P Require Import Prelude.
Open Scope Z_scope.

(** ** State *)

Definition PIPESIZE : Z := 512.

(** The channels processes sleep on: [&p->nread] and [&p->nwrite]. *)
Inductive chan : Type := ChanRead | ChanWrite.
#[global] Instance chan_eq_dec : EqDecision chan.
Proof. solve_decision. Defined.

Record pipe : Type := Pipe {
  p_lock : bool;
  p_data : list Z;
  p_nread : Z;
  p_nwrite : Z;
  p_readopen : bool;
  p_writeopen : bool;
  p_woken : list chan;
}.

Definition set_p_lock (v : bool) (p : pipe) : pipe :=
  Pipe v (p_data p) (p_nread p) (p_nwrite p) (p_readopen p) (p_writeopen p) (p_woken p).
Definition set_p_woken (v : list chan) (p : pipe) : pipe :=
  Pipe (p_lock p) (p_data p) (p_nread p) (p_nwrite p) (p_readopen p) (p_writeopen p) v.
Definition p_lock_l : lens pipe bool := Lens p_lock set_p_lock.

(** What an operation that may sleep gives: its result, or the channel it
    sleeps on and the number of bytes done. *)
Inductive result (A : Type) : Type :=
| Done (a : A)
| Sleep (c : chan) (i : Z).
Arguments Done {A}.
Arguments Sleep {A}.

(** ** Operations *)

Definition wakeup (c : chan) : K pipe unit := modify (λ p, set_p_woken (p_woken p ++ [c]) p).

(** [p->data[p->nwrite++ % PIPESIZE] = b;] *)
Definition put (b : Z) (p : pipe) : pipe :=
  Pipe (p_lock p) (<[Z.to_nat (p_nwrite p mod PIPESIZE):=b]> (p_data p)) (p_nread p)
    (u32 (p_nwrite p + 1)) (p_readopen p) (p_writeopen p) (p_woken p).

(** The loop of [pipewrite] from byte [i] on: [src] are the bytes left. *)
Fixpoint pipewrite_loop (killed : bool) (n i : Z) (src : list Z) : K pipe (result Z) :=
  match src with
  | [] =>
      wakeup ChanRead;;
      release p_lock_l;;
      mret (Done n)
  | b :: src =>
      p ← gets id;
      if p_nwrite p =? u32 (p_nread p + PIPESIZE) then
        if negb (p_readopen p) || killed then
          release p_lock_l;;
          mret (Done (-1))
        else
          wakeup ChanRead;;
          release p_lock_l;;
          mret (Sleep ChanWrite i)
      else
        modify (put b);;
        pipewrite_loop killed n (i + 1) src
  end.

(** [pipewrite(p, addr, n)], and its rest after a sleep at byte [i]. *)
Definition pipewrite_from (killed : bool) (addr : list Z) (n i : Z) : K pipe (result Z) :=
  acquire p_lock_l;;
  pipewrite_loop killed n i (drop (Z.to_nat i) (take (Z.to_nat n) addr)).
Definition pipewrite (killed : bool) (addr : list Z) (n : Z) : K pipe (result Z) :=
  pipewrite_from killed addr n 0.

(** The copy loop of [piperead]: the bytes it gives, [n] at most. *)
Fixpoint piperead_copy (n : nat) : K pipe (list Z) :=
  match n with
  | O => mret []
  | S n =>
      p ← gets id;
      if p_nread p =? p_nwrite p then mret [] else
      b ← deref (p_data p !! Z.to_nat (p_nread p mod PIPESIZE));
      modify (λ p, Pipe (p_lock p) (p_data p) (u32 (p_nread p + 1)) (p_nwrite p) (p_readopen p)
                     (p_writeopen p) (p_woken p));;
      r ← piperead_copy n;
      mret (b :: r)
  end.

(** [piperead(p, addr, n)]: the value returned and the bytes stored at
    [addr].  After a sleep it starts again, with the lock. *)
Definition piperead (killed : bool) (n : Z) : K pipe (result (Z * list Z)) :=
  acquire p_lock_l;;
  p ← gets id;
  if (p_nread p =? p_nwrite p) && p_writeopen p then
    if killed then
      release p_lock_l;;
      mret (Done (-1, []))
    else
      release p_lock_l;;
      mret (Sleep ChanRead 0)
  else
    out ← piperead_copy (Z.to_nat n);
    wakeup ChanWrite;;
    release p_lock_l;;
    mret (Done (Z.of_nat (length out), out)).

(** [pipeclose]: [true] when the page has to be freed. *)
Definition pipeclose (writable : bool) : K pipe bool :=
  acquire p_lock_l;;
  (if writable then
     modify (λ p, Pipe (p_lock p) (p_data p) (p_nread p) (p_nwrite p) (p_readopen p) false (p_woken p));;
     wakeup ChanRead
   else
     modify (λ p, Pipe (p_lock p) (p_data p) (p_nread p) (p_nwrite p) false (p_writeopen p) (p_woken p));;
     wakeup ChanWrite);;
  p ← gets id;
  release p_lock_l;;
  mret (negb (p_readopen p) && negb (p_writeopen p)).

(** ** The contents of a pipe *)

Definition count (p : pipe) : Z := u32 (p_nwrite p - p_nread p).
Definition slot (p : pipe) (j : nat) : nat := Z.to_nat ((p_nread p + Z.of_nat j) mod PIPESIZE).
(** The bytes written and not yet read, oldest first. *)
Definition contents (p : pipe) : list Z := (λ j, p_data p !!! slot p j) <$> seq 0 (Z.to_nat (count p)).

Record pipe_ok (p : pipe) : Prop := {
  pk_len : length (p_data p) = Z.to_nat PIPESIZE;
  pk_nread : 0 ≤ p_nread p < 2 ^ 32;
  pk_nwrite : 0 ≤ p_nwrite p < 2 ^ 32;
  pk_count : count p ≤ PIPESIZE;
}.

Lemma contents_length p : Z.of_nat (length (contents p)) = count p.
Proof. unfold contents. rewrite length_fmap, length_seq. pose proof (u32_range (p_nwrite p - p_nread p)). unfold count. lia. Qed.

Lemma count_range p : 0 ≤ count p < 2 ^ 32.
Proof. apply u32_range. Qed.

(** The tests of the code, with the counters modulo [2 ^ 32]. *)
Lemma full_test p : pipe_ok p →
  (p_nwrite p =? u32 (p_nread p + PIPESIZE)) = (count p =? PIPESIZE).
Proof.
  intros [_ Hr Hw Hc]. unfold count, u32, PIPESIZE in *. apply eq_true_iff_eq. rewrite !Z.eqb_eq.
  Z.div_mod_to_equations. lia.
Qed.

Lemma empty_test p : pipe_ok p → (p_nread p =? p_nwrite p) = (count p =? 0).
Proof.
  intros [_ Hr Hw Hc]. unfold count, u32, PIPESIZE in *. apply eq_true_iff_eq. rewrite !Z.eqb_eq.
  Z.div_mod_to_equations. lia.
Qed.

(** Adding in the counters and in the ring agree because [PIPESIZE] divides
    [2 ^ 32]. *)
Lemma u32_mod_pipe x : u32 x mod PIPESIZE = x mod PIPESIZE.
Proof.
  unfold u32, PIPESIZE. apply Z.mod_mod_divide. by exists 8388608.
Qed.

Lemma count_put b p : pipe_ok p → count p < PIPESIZE → count (put b p) = count p + 1.
Proof.
  intros [_ Hr Hw _] Hc. unfold count, put, u32, PIPESIZE in *. cbn.
  Z.div_mod_to_equations. lia.
Qed.

Lemma put_ok b p : pipe_ok p → count p < PIPESIZE → pipe_ok (put b p).
Proof.
  intros Hok Hc. pose proof (count_put b p Hok Hc). destruct Hok. split; cbn; try done.
  - by rewrite length_insert.
  - apply u32_range.
  - lia.
Qed.

(** Different bytes of the contents are in different slots. *)
Lemma slot_inj p i j : (i < 512)%nat → (j < 512)%nat → slot p i = slot p j → i = j.
Proof. unfold slot, PIPESIZE. intros. Z.div_mod_to_equations. lia. Qed.

Lemma slot_range p j : (slot p j < Z.to_nat PIPESIZE)%nat.
Proof. unfold slot, PIPESIZE. pose proof (Z.mod_pos_bound (p_nread p + Z.of_nat j) 512). lia. Qed.

Lemma contents_put b p : pipe_ok p → count p < PIPESIZE → contents (put b p) = contents p ++ [b].
Proof.
  intros Hok Hc. pose proof (count_range p) as Hcr. unfold contents. rewrite count_put by done.
  replace (Z.to_nat (count p + 1)) with (Z.to_nat (count p) + 1)%nat by lia.
  rewrite seq_app, fmap_app. cbn [seq fmap list_fmap Nat.add].
  assert (Hslot : Z.to_nat (p_nwrite p mod PIPESIZE) = slot p (Z.to_nat (count p))).
  { unfold slot. rewrite Z2Nat.id by lia. unfold count. f_equal.
    rewrite <- Zplus_mod_idemp_r, u32_mod_pipe, Zplus_mod_idemp_r. f_equal. lia. }
  f_equal.
  - apply list_fmap_ext. intros i j Hj%lookup_seq. destruct Hj as [-> Hj]. unfold put. cbn [p_data].
    change (slot (Pipe _ _ _ _ _ _ _) (0 + i)) with (slot p i).
    rewrite Hslot, list_lookup_total_insert_ne; [done|].
    intros He%slot_inj; unfold PIPESIZE in *; lia.
  - f_equal. unfold put. cbn [p_data].
    change (slot (Pipe _ _ _ _ _ _ _) ?j) with (slot p j).
    rewrite Hslot. apply list_lookup_total_insert_eq. rewrite (pk_len _ Hok). apply slot_range.
Qed.

(** Taking the oldest byte. *)
Definition take_byte (p : pipe) : pipe :=
  Pipe (p_lock p) (p_data p) (u32 (p_nread p + 1)) (p_nwrite p) (p_readopen p) (p_writeopen p) (p_woken p).

Lemma count_take p : pipe_ok p → 0 < count p → count (take_byte p) = count p - 1.
Proof.
  intros [_ Hr Hw _] Hc. unfold count, take_byte, u32 in *. cbn. Z.div_mod_to_equations. lia.
Qed.

Lemma take_ok p : pipe_ok p → 0 < count p → pipe_ok (take_byte p).
Proof.
  intros Hok Hc. pose proof (count_take p Hok Hc). destruct Hok. split; cbn; try done.
  - apply u32_range.
  - lia.
Qed.

Lemma contents_take p : pipe_ok p → 0 < count p →
  ∃ b, p_data p !! Z.to_nat (p_nread p mod PIPESIZE) = Some b ∧ contents p = b :: contents (take_byte p).
Proof.
  intros Hok Hc. exists (p_data p !!! slot p 0). split.
  - unfold slot. rewrite Z.add_0_r. apply list_lookup_lookup_total_lt.
    rewrite (pk_len _ Hok). pose proof (slot_range p 0) as H. unfold slot in H. by rewrite Z.add_0_r in H.
  - unfold contents. rewrite count_take by done.
    replace (Z.to_nat (count p)) with (S (Z.to_nat (count p - 1))) by lia.
    cbn [seq fmap list_fmap]. f_equal. rewrite <- fmap_S_seq, <- list_fmap_compose.
    apply list_fmap_ext. intros i j _. cbn. f_equal. unfold slot, take_byte. cbn [p_nread]. f_equal.
    rewrite <- (Zplus_mod_idemp_l (u32 _)), u32_mod_pipe, Zplus_mod_idemp_l. f_equal. lia.
Qed.

(** ** What the operations do *)

Definition ends (p : pipe) : bool * bool := (p_readopen p, p_writeopen p).

(** The loop of [pipewrite] stores as many bytes as there is room for.  When
    it stores all it returns; else it gives up (nobody can read, or the
    process was killed) or sleeps on a full pipe, after waking readers. *)
Lemma pipewrite_loop_run killed n src : ∀ i p,
  pipe_ok p → p_lock p = true →
  let room := Z.to_nat (PIPESIZE - count p) in
  ∃ p', pipe_ok p' ∧ p_lock p' = false ∧ ends p' = ends p ∧
    contents p' = contents p ++ take room src ∧
    if decide (length src ≤ room)%nat then
      pipewrite_loop killed n i src p = Ret (Done n) p' ∧ p_woken p' = p_woken p ++ [ChanRead]
    else if negb (p_readopen p) || killed then
      pipewrite_loop killed n i src p = Ret (Done (-1)) p' ∧ p_woken p' = p_woken p ∧ count p' = PIPESIZE
    else
      pipewrite_loop killed n i src p = Ret (Sleep ChanWrite (i + Z.of_nat room)) p' ∧
      p_woken p' = p_woken p ++ [ChanRead] ∧ count p' = PIPESIZE.
Proof.
  induction src as [|b src IH]; intros i p Hok Hl room.
  - exists (set_p_lock false (set_p_woken (p_woken p ++ [ChanRead]) p)).
    rewrite take_nil, app_nil_r, decide_True by (cbn; lia).
    split_and!; [by destruct Hok|done..| |done]. cbn. unfold release. kred. cbn. by rewrite Hl.
  - cbn [pipewrite_loop]. pose proof (pk_count _ Hok) as Hc. pose proof (full_test p Hok) as Hf.
    destruct (Z.eqb_spec (count p) PIPESIZE) as [Hfull|Hnf].
    + assert (room = 0%nat) as -> by (subst room; lia).
      destruct (negb (p_readopen p) || killed) eqn:Hgive.
      * exists (set_p_lock false p). rewrite take_0, app_nil_r, decide_False by (cbn; lia). split_and!; [by destruct Hok|done..| |done|done].
        kred. cbn. rewrite Hf, Hgive. unfold release. kred. cbn. by rewrite Hl.
      * exists (set_p_lock false (set_p_woken (p_woken p ++ [ChanRead]) p)).
        rewrite take_0, app_nil_r, decide_False by (cbn; lia). split_and!; [by destruct Hok|done..| |done|done].
        kred. cbn. rewrite Hf, Hgive. unfold release. kred. cbn. rewrite Hl, Z.add_0_r. done.
    + assert (Hlt : count p < PIPESIZE) by lia.
      destruct (IH (i + 1) (put b p)) as (p' & Hok' & Hl' & He' & Hc' & Hrun); [by apply put_ok|done|].
      rewrite (count_put b p Hok Hlt) in Hrun, Hc'. pose proof (count_range p) as Hcr.
      replace (Z.to_nat (PIPESIZE - (count p + 1))) with (room - 1)%nat in * by (subst room; lia).
      assert (Hroom : (1 ≤ room)%nat) by (subst room; lia).
      exists p'. split_and!; [done|done|done| |].
      * rewrite Hc', contents_put by done. rewrite <- app_assoc. f_equal.
        destruct room as [|room']; [lia|]. cbn. by rewrite Nat.sub_0_r.
      * kred. unfold id. rewrite Hf. cbn [length].
        destruct (decide (length src ≤ room - 1)%nat); [rewrite decide_True by lia; done|].
        rewrite decide_False by lia. change (p_readopen (put b p)) with (p_readopen p) in Hrun.
        destruct (negb (p_readopen p) || killed); [done|].
        replace (i + Z.of_nat room) with (i + 1 + Z.of_nat (room - 1)) by lia. done.
Qed.

Lemma piperead_copy_run n : ∀ p, pipe_ok p →
  ∃ p', piperead_copy n p = Ret (take n (contents p)) p' ∧ pipe_ok p' ∧ p_lock p' = p_lock p ∧
    ends p' = ends p ∧ p_woken p' = p_woken p ∧ contents p' = drop n (contents p).
Proof.
  induction n as [|n IH]; intros p Hok.
  - exists p. by rewrite take_0, drop_0.
  - cbn [piperead_copy]. kred. unfold id. rewrite (empty_test p Hok).
    pose proof (count_range p) as Hcr.
    destruct (Z.eqb_spec (count p) 0) as [H0|H0].
    + exists p. assert (contents p = []) as ->; [|done].
      apply length_zero_iff_nil. pose proof (contents_length p). lia.
    + destruct (contents_take p Hok) as (b & Hb & Hcont); [lia|]. rewrite Hb. cbn.
      destruct (IH (take_byte p)) as (p' & Hrun & Hok' & ? & ? & ? & Hc'); [apply take_ok; [done|lia]|].
      exists p'. unfold take_byte in Hrun. rewrite Hrun, Hcont. cbn. done.
Qed.

Lemma piperead_run killed n p :
  pipe_ok p → p_lock p = false →
  ∃ p', pipe_ok p' ∧ p_lock p' = false ∧ ends p' = ends p ∧
    if (count p =? 0) && p_writeopen p then
      piperead killed n p = Ret (if killed then Done (-1, []) else Sleep ChanRead 0) p' ∧
      p_woken p' = p_woken p ∧ contents p' = contents p
    else
      let out := take (Z.to_nat n) (contents p) in
      piperead killed n p = Ret (Done (Z.of_nat (length out), out)) p' ∧
      p_woken p' = p_woken p ++ [ChanWrite] ∧ contents p' = drop (Z.to_nat n) (contents p).
Proof.
  intros Hok Hl. unfold piperead, acquire. kred. cbn [lget p_lock_l]. rewrite Hl. cbn [lset p_lock_l id].
  assert (Hok1 : pipe_ok (set_p_lock true p)) by (by destruct Hok).
  unfold id. rewrite (empty_test _ Hok1). change (count (set_p_lock true p)) with (count p).
  change (p_writeopen (set_p_lock true p)) with (p_writeopen p).
  destruct ((count p =? 0) && p_writeopen p).
  - exists (set_p_lock false p). split_and!; [by destruct Hok|done|done| |done|done].
    by destruct killed.
  - destruct (piperead_copy_run (Z.to_nat n) _ Hok1) as (p' & Hrun & Hok' & Hl' & He & Hw & Hc).
    exists (set_p_lock false (set_p_woken (p_woken p' ++ [ChanWrite]) p')).
    split_and!; [by destruct Hok'|done|done| | |done].
    + rewrite Hrun. cbn. unfold release. kred. cbn. rewrite Hl'. done.
    + cbn. by rewrite Hw.
Qed.

(** ** Processes using a pipe *)

(** A process outside the pipe, or asleep in [pipewrite] or [piperead]; the
    flag says whether a [wakeup] has made it runnable again. *)
Inductive process : Type :=
| Run
| InWrite (addr : list Z) (n i : Z) (woken : bool)
| InRead (n : Z) (woken : bool).

(** [y_written] and [y_read] are history variables: the bytes stored in the
    pipe and the bytes given to readers, in order. *)
Record psys : Type := PSys {
  y_pipe : pipe;
  y_procs : list process;
  y_written : list Z;
  y_read : list Z;
}.

Definition wake (c : chan) (t : process) : process :=
  match c, t with
  | ChanWrite, InWrite addr n i _ => InWrite addr n i true
  | ChanRead, InRead n _ => InRead n true
  | _, _ => t
  end.
Definition wake_all (cs : list chan) (ts : list process) : list process :=
  foldl (λ ts c, wake c <$> ts) ts cs.

#[global] Arguments wake_all : simpl never.

Definition after_write (addr : list Z) (n : Z) (r : result Z) : process :=
  match r with Done _ => Run | Sleep _ i => InWrite addr n i false end.
Definition after_read (n : Z) (r : result (Z * list Z)) : process :=
  match r with Done _ => Run | Sleep _ _ => InRead n false end.
Definition bytes_read (r : result (Z * list Z)) : list Z :=
  match r with Done (_, out) => out | Sleep _ _ => [] end.

Definition in_write (t : process) : bool := match t with InWrite _ _ _ _ => true | _ => false end.
Definition in_read (t : process) : bool := match t with InRead _ _ => true | _ => false end.

(** A process calls [pipewrite] or [piperead], or goes on after a wakeup, or
    the last descriptor of an end is closed (nobody is using it then).
    [kills] says whether processes can be killed. *)
Inductive ystep (kills : bool) : psys → psys → Prop :=
| ystep_write killed t addr n i r p' s :
    (killed = true → kills = true) → p_writeopen (y_pipe s) = true →
    (y_procs s !! t = Some Run ∧ i = 0 ∨ y_procs s !! t = Some (InWrite addr n i true)) →
    pipewrite_from killed addr n i (set_p_woken [] (y_pipe s)) = Ret r p' →
    ystep kills s (PSys p' (<[t:=after_write addr n r]> (wake_all (p_woken p') (y_procs s)))
      (y_written s ++ take (Z.to_nat (count p' - count (y_pipe s))) (drop (Z.to_nat i) (take (Z.to_nat n) addr)))
      (y_read s))
| ystep_read killed t n r p' s :
    (killed = true → kills = true) → p_readopen (y_pipe s) = true →
    y_procs s !! t = Some Run ∨ y_procs s !! t = Some (InRead n true) →
    piperead killed n (set_p_woken [] (y_pipe s)) = Ret r p' →
    ystep kills s (PSys p' (<[t:=after_read n r]> (wake_all (p_woken p') (y_procs s)))
      (y_written s) (y_read s ++ bytes_read r))
| ystep_close (writable : bool) r p' s :
    (if writable then p_writeopen (y_pipe s) = true ∧ Forall (λ t, in_write t = false) (y_procs s)
     else p_readopen (y_pipe s) = true ∧ Forall (λ t, in_read t = false) (y_procs s)) →
    pipeclose writable (set_p_woken [] (y_pipe s)) = Ret r p' →
    ystep kills s (PSys p' (wake_all (p_woken p') (y_procs s)) (y_written s) (y_read s)).

(** A new pipe, as [pipealloc] sets it up in a page with contents [d]. *)
Definition new_pipe (d : list Z) : pipe := Pipe false d 0 0 true true [].
Definition started (d : list Z) (nproc : nat) : psys := PSys (new_pipe d) (replicate nproc Run) [] [].

Definition stream_ok (s : psys) : Prop :=
  pipe_ok (y_pipe s) ∧ p_lock (y_pipe s) = false ∧ y_written s = y_read s ++ contents (y_pipe s).

(** The sleepers that have not been woken. *)
Record sleepers_ok (s : psys) : Prop := {
  sl_write t addr n i : y_procs s !! t = Some (InWrite addr n i false) →
    count (y_pipe s) = PIPESIZE ∧ p_readopen (y_pipe s) = true;
  sl_read t n : y_procs s !! t = Some (InRead n false) →
    count (y_pipe s) = 0 ∧ p_writeopen (y_pipe s) = true;
  sl_readopen t n b : y_procs s !! t = Some (InRead n b) → p_readopen (y_pipe s) = true;
}.

Lemma wake_all_lookup cs ts t x :
  wake_all cs ts !! t = Some x → ∃ y, ts !! t = Some y ∧
    (x = y ∨ x = wake ChanRead y ∨ x = wake ChanWrite y) ∧ (∀ c, c ∈ cs → x = wake c x).
Proof.
  unfold wake_all. revert ts x. induction cs as [|c cs IH] using rev_ind; intros ts x.
  - intros H. exists x. split; [done|]. split; [by left|]. set_solver.
  - rewrite foldl_app. cbn. rewrite list_lookup_fmap.
    destruct (foldl _ ts cs !! t) as [z|] eqn:Hz; [|done]. cbn. intros [= <-].
    destruct (IH _ _ Hz) as (y & Hy & Hor & Hcs). exists y. split; [done|].
    split.
    + destruct Hor as [->|[->| ->]], c, y; cbn; auto.
    + intros c' [Hc'|Hc'%list_elem_of_singleton]%elem_of_app.
      * pose proof (Hcs c' Hc') as E. destruct c, c', z; cbn in *; congruence.
      * subst c'. by destruct c, z.
Qed.

(** What one call of [pipewrite] does, from any point of its loop. *)
Lemma pipewrite_from_run killed addr n i p :
  pipe_ok p → p_lock p = false →
  let src := drop (Z.to_nat i) (take (Z.to_nat n) addr) in
  ∃ r p', pipewrite_from killed addr n i p = Ret r p' ∧ pipe_ok p' ∧ p_lock p' = false ∧ ends p' = ends p ∧
    contents p' = contents p ++ take (Z.to_nat (count p' - count p)) src ∧
    (p_woken p' = p_woken p ++ [ChanRead] ∧ (∀ c j, r = Sleep c j → count p' = PIPESIZE ∧ p_readopen p = true) ∨
     r = Done (-1) ∧ p_woken p' = p_woken p ∧ negb (p_readopen p) || killed = true).
Proof.
  intros Hok Hl src. unfold pipewrite_from, acquire. kred. cbn [lget p_lock_l]. rewrite Hl. cbn [lset p_lock_l].
  assert (Hok1 : pipe_ok (set_p_lock true p)) by (by destruct Hok).
  destruct (pipewrite_loop_run killed n src i _ Hok1 eq_refl) as (p' & Hok' & Hl' & He & Hc & Hrun).
  change (count (set_p_lock true p)) with (count p) in *. change (contents (set_p_lock true p)) with (contents p) in *.
  change (p_readopen (set_p_lock true p)) with (p_readopen p) in *.
  change (p_woken (set_p_lock true p)) with (p_woken p) in *.
  set (room := Z.to_nat (PIPESIZE - count p)) in *.
  assert (Htake : take (Z.to_nat (count p' - count p)) src = take room src).
  { rewrite <- !contents_length, Hc, length_app, length_take.
    replace (Z.to_nat _) with (room `min` length src)%nat by lia.
    destruct (Nat.min_spec room (length src)) as [[_ ->]|[? ->]]; [done|]. rewrite !take_ge by lia. done. }
  fold src.
  destruct (decide (length src ≤ room)%nat).
  - destruct Hrun as [-> ?]. eexists _, p'. rewrite Htake. split_and!; try done. left. split; [done|]. by intros.
  - destruct (negb (p_readopen p) || killed) eqn:Hg.
    + destruct Hrun as (-> & ? & ?). eexists _, p'. rewrite Htake. split_and!; try done. by right.
    + destruct Hrun as (-> & ? & ?). eexists _, p'. rewrite Htake. split_and!; try done. left. split; [done|].
      intros c j _. split; [done|]. by destruct (p_readopen p).
Qed.

Lemma pipeclose_run writable p :
  p_lock p = false →
  pipeclose writable p =
    Ret (negb (if writable then p_readopen p else false) && negb (if writable then false else p_writeopen p))
      (Pipe false (p_data p) (p_nread p) (p_nwrite p) (if writable then p_readopen p else false)
         (if writable then false else p_writeopen p)
         (p_woken p ++ [if writable then ChanRead else ChanWrite])).
Proof. intros Hl. destruct p; cbn in Hl. subst. destruct writable; done. Qed.

Lemma stream_step kills s s' : stream_ok s → ystep kills s s' → stream_ok s'.
Proof.
  intros (Hok & Hl & Hst) Hs.
  assert (Hok0 : pipe_ok (set_p_woken [] (y_pipe s))) by (by destruct Hok).
  destruct Hs as [killed t addr n i r p' s _ _ _ Hr|killed t n r p' s _ _ _ Hr|w r p' s _ Hr]; cbn in *.
  - destruct (pipewrite_from_run killed addr n i _ Hok0 Hl) as (r' & p2 & Hr' & Hok' & Hl' & _ & Hc & _).
    rewrite Hr in Hr'. simplify_eq. split_and!; [done..|]. cbn.
    change (contents (set_p_woken [] (y_pipe s))) with (contents (y_pipe s)) in Hc.
    change (count (set_p_woken [] (y_pipe s))) with (count (y_pipe s)) in Hc.
    by rewrite Hc, Hst, <- app_assoc.
  - destruct (piperead_run killed n _ Hok0 Hl) as (p2 & Hok' & Hl' & _ & Hif).
    change (contents (set_p_woken [] (y_pipe s))) with (contents (y_pipe s)) in Hif.
    destruct (_ && _) in Hif; destruct Hif as (Hr' & _ & Hc); rewrite Hr in Hr'; simplify_eq;
      (split_and!; [done..|]); cbn.
    + rewrite Hc, Hst. destruct killed; cbn; by rewrite app_nil_r.
    + rewrite Hc, Hst, <- app_assoc. by rewrite take_drop.
  - rewrite pipeclose_run in Hr by done. simplify_eq. split_and!; [|done|done]. by destruct Hok.
Qed.

Lemma stream_reachable kills d nproc s :
  length d = Z.to_nat PIPESIZE → rtc (ystep kills) (started d nproc) s → stream_ok s.
Proof.
  intros Hd Hs. eapply (rtc_ind_r stream_ok); [| |exact Hs].
  - split_and!; [|done..]. by split.
  - intros; by eapply stream_step.
Qed.

(** A process of the table after [wake_all] of [cs]. *)
Lemma wake_all_write cs ts t addr n i :
  wake_all cs ts !! t = Some (InWrite addr n i false) →
  ts !! t = Some (InWrite addr n i false) ∧ ChanWrite ∉ cs.
Proof.
  intros (y & Hy & Hor & Hcs)%wake_all_lookup. split.
  - destruct Hor as [<-|[H|H]]; [done|..]; destruct y; cbn in H; simplify_eq; done.
  - intros Hin. by specialize (Hcs _ Hin).
Qed.

Lemma wake_all_read cs ts t n b :
  wake_all cs ts !! t = Some (InRead n b) →
  ∃ b', ts !! t = Some (InRead n b') ∧ (b = false → b' = false ∧ ChanRead ∉ cs).
Proof.
  intros (y & Hy & Hor & Hcs)%wake_all_lookup.
  assert (∃ b', y = InRead n b' ∧ (b = false → b' = false)) as (b' & -> & Hb).
  { destruct Hor as [<-|[H|H]]; [by eexists|..]; destruct y; cbn in H; simplify_eq; by eexists. }
  exists b'. split; [done|]. intros ->. split; [auto|]. intros Hin. by specialize (Hcs _ Hin).
Qed.

(** The invariant of the sleepers from what an operation of process [t] does
    to the pipe. *)
Lemma sleepers_update s t x p' w rd :
  sleepers_ok s → p_readopen p' = p_readopen (y_pipe s) → p_writeopen p' = p_writeopen (y_pipe s) →
  (∀ addr n i, x = InWrite addr n i false → count p' = PIPESIZE ∧ p_readopen p' = true) →
  (∀ n b, x = InRead n b → count p' = 0 ∧ p_writeopen p' = true ∧ p_readopen p' = true) →
  (ChanWrite ∉ p_woken p' → count (y_pipe s) = PIPESIZE → p_readopen p' = true → count p' = PIPESIZE) →
  (ChanRead ∉ p_woken p' → count (y_pipe s) = 0 → p_writeopen p' = true → p_readopen p' = true → count p' = 0) →
  sleepers_ok (PSys p' (<[t:=x]> (wake_all (p_woken p') (y_procs s))) w rd).
Proof.
  intros [Hw Hr Hro] Ero Ewo Hxw Hxr Hcw Hcr. split; cbn [y_procs y_pipe].
  - intros j addr n i Hj. apply list_lookup_insert_cases in Hj as [(<- & <- & _)|[_ Hj]]; [eauto|].
    apply wake_all_write in Hj as [Hj Hnin]. destruct (Hw _ _ _ _ Hj) as [? Hop].
    rewrite <- Ero in Hop. auto.
  - intros j n Hj. apply list_lookup_insert_cases in Hj as [(<- & <- & _)|[_ Hj]].
    { destruct (Hxr n false eq_refl) as (? & ? & _). done. }
    apply wake_all_read in Hj as (b' & Hj & Hb). destruct (Hb eq_refl) as [-> Hnin].
    destruct (Hr _ _ Hj) as [? Hop]. rewrite <- Ewo in Hop. pose proof (Hro _ _ _ Hj) as Hop'.
    rewrite <- Ero in Hop'. auto.
  - intros j n b Hj. apply list_lookup_insert_cases in Hj as [(<- & <- & _)|[_ Hj]].
    { by destruct (Hxr n b eq_refl) as (_ & _ & ?). }
    apply wake_all_read in Hj as (b' & Hj & _). rewrite Ero. by eapply Hro.
Qed.

Lemma sleepers_step s s' : stream_ok s → sleepers_ok s → ystep false s s' → sleepers_ok s'.
Proof.
  intros (Hok & Hl & _) Hsl Hs.
  assert (Hok0 : pipe_ok (set_p_woken [] (y_pipe s))) by (by destruct Hok).
  destruct Hs as [killed t addr n i r p' s Hk _ _ Hr|killed t n r p' s Hk Hro _ Hr|w r p' s Hcl Hr]; cbn in *.
  - destruct killed; [by specialize (Hk eq_refl)|].
    destruct (pipewrite_from_run false addr n i _ Hok0 Hl) as (r' & p2 & Hr' & Hok' & Hl' & He & Hc & Hor).
    pose proof (f_equal fst He) as He1. pose proof (f_equal snd He) as He2. cbn in He1, He2, Hor.
    clear He. rewrite Hr in Hr'. simplify_eq.
    assert (Hge : count (y_pipe s) ≤ count p2).
    { pose proof (f_equal (λ l, Z.of_nat (length l)) Hc) as E. cbn in E.
      rewrite length_app, Nat2Z.inj_add, !contents_length in E.
      change (count (set_p_woken [] (y_pipe s))) with (count (y_pipe s)) in E. lia. }
    pose proof (pk_count _ Hok') as Hle.
    apply sleepers_update; [done|done|done| |by destruct r'|lia|].
    + intros addr' n' i' E. destruct Hor as [[_ Hsleep]|(-> & _)]; [|done].
      destruct r' as [|c j]; [done|]. rewrite He1. by eapply Hsleep.
    + intros Hnin _ _ Hop. destruct Hor as [[Hw _]|(_ & _ & Hg)]; [rewrite Hw in Hnin; set_solver|].
      rewrite He1 in Hop. by rewrite Hop in Hg.
  - destruct killed; [by specialize (Hk eq_refl)|].
    destruct (piperead_run false n _ Hok0 Hl) as (p2 & Hok' & Hl' & He & Hif).
    pose proof (f_equal fst He) as He1. pose proof (f_equal snd He) as He2. cbn in He1, He2.
    change (contents (set_p_woken [] (y_pipe s))) with (contents (y_pipe s)) in Hif.
    change (count (set_p_woken [] (y_pipe s))) with (count (y_pipe s)) in Hif.
    change (p_writeopen (set_p_woken [] (y_pipe s))) with (p_writeopen (y_pipe s)) in Hif.
    destruct (Z.eqb_spec (count (y_pipe s)) 0) as [H0|H0], (p_writeopen (y_pipe s)) eqn:Hwo; cbn in Hif;
      destruct Hif as (Hr' & Hw & Hc); rewrite Hr in Hr'; simplify_eq; cbn in Hw.
    + assert (count p2 = count (y_pipe s)) as Hcnt by (by rewrite <- !contents_length, Hc).
      apply sleepers_update; [done|congruence|congruence|done| |lia|lia].
      intros n' b _. split_and!; [lia|done|congruence].
    + apply sleepers_update; [done|congruence|congruence|done|done| |congruence].
      intros Hnin. rewrite Hw in Hnin. set_solver.
    + apply sleepers_update; [done|congruence|congruence|done|done| |lia].
      intros Hnin. rewrite Hw in Hnin. set_solver.
    + apply sleepers_update; [done|congruence|congruence|done|done| |lia].
      intros Hnin. rewrite Hw in Hnin. set_solver.
  - rewrite pipeclose_run in Hr by done. simplify_eq. destruct Hsl as [Hw Hrd Hro]. cbn.
    split; cbn [y_procs y_pipe p_readopen p_writeopen p_woken app].
    + intros j addr n i [Hj Hnin]%wake_all_write. destruct w; [|set_solver].
      destruct Hcl as [_ Hcl]. by apply (Forall_lookup_1 _ _ _ _ Hcl) in Hj.
    + intros j n (b' & Hj & Hb)%wake_all_read. destruct (Hb eq_refl) as [-> Hnin]. destruct w; [set_solver|].
      destruct Hcl as [_ Hcl]. by apply (Forall_lookup_1 _ _ _ _ Hcl) in Hj.
    + intros j n b (b' & Hj & _)%wake_all_read. destruct w; [by eapply Hro|].
      destruct Hcl as [_ Hcl]. by apply (Forall_lookup_1 _ _ _ _ Hcl) in Hj.
Qed.

Lemma sleepers_reachable d nproc s :
  length d = Z.to_nat PIPESIZE → rtc (ystep false) (started d nproc) s → sleepers_ok s.
Proof.
  intros Hd Hs. eapply (rtc_ind_r (λ s, stream_ok s ∧ sleepers_ok s)); [| |exact Hs].
  - split; [by apply (stream_reachable false d nproc)|].
    split; intros; cbn in *; by apply lookup_replicate in H as [??].
  - intros x y _ Hxy [? ?]. split; [by eapply stream_step|by eapply sleepers_step].
Qed.

(** ** Properties *)

(** C22: a pipe is a bounded FIFO.  Whatever processes write, read, sleep, are
    killed and close their ends, in any order, the bytes given to readers
    followed by the bytes in the ring are exactly the bytes stored by writers,
    in order; the counters wrap around at [2 ^ 32] without effect. *)
Theorem pipe_fifo kills d nproc s :
  length d = Z.to_nat PIPESIZE → rtc (ystep kills) (started d nproc) s →
  y_written s = y_read s ++ contents (y_pipe s) ∧ Z.of_nat (length (contents (y_pipe s))) ≤ PIPESIZE.
Proof.
  intros Hd Hs. destruct (stream_reachable _ _ _ _ Hd Hs) as (Hok & _ & Hst).
  rewrite contents_length. split; [done|apply Hok].
Qed.

(** C23: no wakeup is lost while nobody is killed.  In every reachable state, a
    writer that sleeps and was not woken sees a full pipe, and the next
    [piperead] of any process returns bytes and wakes it; a reader that
    sleeps and was not woken sees an empty pipe, and the next [pipewrite]
    stores bytes and wakes it.  So a reader and a writer never both wait. *)
Theorem pipe_no_lost_wakeup d nproc s :
  length d = Z.to_nat PIPESIZE → rtc (ystep false) (started d nproc) s →
  (∀ t addr n i, y_procs s !! t = Some (InWrite addr n i false) →
     Z.of_nat (length (contents (y_pipe s))) = PIPESIZE ∧ p_readopen (y_pipe s) = true ∧
     ∀ m, ∃ p', piperead false m (y_pipe s) =
         Ret (Done (Z.of_nat (length (take (Z.to_nat m) (contents (y_pipe s)))),
                    take (Z.to_nat m) (contents (y_pipe s)))) p' ∧ ChanWrite ∈ p_woken p') ∧
  (∀ t n, y_procs s !! t = Some (InRead n false) →
     contents (y_pipe s) = [] ∧ p_writeopen (y_pipe s) = true ∧
     ∀ addr m, 0 < m ≤ Z.of_nat (length addr) →
       ∃ r p', pipewrite false addr m (y_pipe s) = Ret r p' ∧ contents p' ≠ [] ∧ ChanRead ∈ p_woken p').
Proof.
  intros Hd Hs. destruct (stream_reachable _ _ _ _ Hd Hs) as (Hok & Hl & _).
  destruct (sleepers_reachable _ _ _ Hd Hs) as [Hw Hr Hro]. split.
  - intros t addr n i Ht. destruct (Hw _ _ _ _ Ht) as [Hc Hop]. rewrite contents_length. split_and!; [done..|].
    intros m. destruct (piperead_run false m _ Hok Hl) as (p' & _ & _ & _ & Hif).
    rewrite Hc in Hif. cbn in Hif. destruct Hif as (-> & Hwk & _). exists p'. split; [done|].
    rewrite Hwk. set_solver.
  - intros t n Ht. destruct (Hr _ _ Ht) as [Hc Hop]. pose proof (Hro _ _ _ Ht) as Hrd.
    pose proof (contents_length (y_pipe s)) as Hlen. rewrite Hc in Hlen.
    assert (Hnil : contents (y_pipe s) = []) by (apply length_zero_iff_nil; lia).
    split_and!; [done..|]. intros addr m Hm. unfold pipewrite.
    unfold pipewrite_from, acquire. kred. cbn [lget p_lock_l]. rewrite Hl. cbn [lset p_lock_l].
    assert (Hok1 : pipe_ok (set_p_lock true (y_pipe s))) by (by destruct Hok).
    destruct (pipewrite_loop_run false m (drop (Z.to_nat 0) (take (Z.to_nat m) addr)) 0 _ Hok1 eq_refl)
      as (p' & _ & _ & _ & Hcont & Hrun).
    change (contents (set_p_lock true (y_pipe s))) with (contents (y_pipe s)) in *.
    change (count (set_p_lock true (y_pipe s))) with (count (y_pipe s)) in *.
    assert (Hne : contents p' ≠ []).
    { rewrite Hcont, Hnil, Hc. cbn [app]. intros E%(f_equal length). rewrite length_take, length_drop, length_take in E.
      unfold PIPESIZE in E. cbn in E. lia. }
    cbn [p_readopen set_p_lock] in Hrun. rewrite Hrd in Hrun. cbn [negb orb] in Hrun.
    case_decide; [destruct Hrun as [-> Hwk]|destruct Hrun as (-> & Hwk & _)];
      (eexists _, p'; split_and!; [done..|]; rewrite Hwk; set_solver).
Qed.

(** ** Examples *)

Definition ex_data : list Z := replicate (Z.to_nat PIPESIZE) 0.
Definition ex_bytes : list Z := replicate 513 7.

(** A reader calls [piperead] on the new pipe and sleeps. *)
Definition ex_asleep : psys :=
  match piperead false 10 (new_pipe ex_data) with
  | Ret r p => PSys p [Run; InRead 10 false] [] []
  | _ => started ex_data 2
  end.

Lemma ex_asleep_steps kills : rtc (ystep kills) (started ex_data 2) ex_asleep.
Proof.
  eapply rtc_l; [|apply rtc_refl].
  exact (ystep_read kills false 1 10 (Sleep ChanRead 0) (new_pipe ex_data) (started ex_data 2)
    (λ H, False_ind _ (diff_false_true H)) eq_refl (or_introl eq_refl) eq_refl).
Qed.

(** One process writes three bytes and the other reads two. *)
Definition ex_wrote : pipe := run_state (pipewrite_from false [1; 2; 3] 3 0) (set_p_woken [] (new_pipe ex_data)).
Definition ex_took : pipe := run_state (piperead false 2) (set_p_woken [] ex_wrote).
Definition ex_stream : psys := PSys ex_took [Run; Run] [1; 2; 3] [1; 2].

Lemma ex_wrote_run : pipewrite_from false [1; 2; 3] 3 0 (set_p_woken [] (new_pipe ex_data)) = Ret (Done 3) ex_wrote.
Proof. vm_compute. reflexivity. Qed.
Lemma ex_took_run : piperead false 2 (set_p_woken [] ex_wrote) = Ret (Done (2, [1; 2])) ex_took.
Proof. vm_compute. reflexivity. Qed.
Lemma ex_wrote_after : p_readopen ex_wrote = true ∧ p_woken ex_wrote = [ChanRead] ∧ count ex_wrote = 3 ∧
  p_woken ex_took = [ChanWrite].
Proof. vm_compute. done. Qed.

Lemma ex_stream_steps kills : rtc (ystep kills) (started ex_data 2) ex_stream.
Proof.
  destruct ex_wrote_after as (E1 & E2 & E3 & E4).
  pose proof (ystep_write kills false 0 [1; 2; 3] 3 0 (Done 3) ex_wrote (started ex_data 2)
    (λ H, False_ind _ (diff_false_true H)) eq_refl (or_introl (conj eq_refl eq_refl)) ex_wrote_run) as S1.
  pose proof (ystep_read kills false 1 2 (Done (2, [1; 2])) ex_took (PSys ex_wrote [Run; Run] [1; 2; 3] [])
    (λ H, False_ind _ (diff_false_true H)) E1 (or_introl eq_refl) ex_took_run) as S2.
  rewrite E2, E3 in S1. rewrite E4 in S2. eapply rtc_l; [exact S1|]. eapply rtc_l; [exact S2|apply rtc_refl].
Qed.

Lemma pipe_fifo_witness : [1; 2; 3] = [1; 2] ++ contents ex_took.
Proof. exact (proj1 (pipe_fifo false ex_data 2 ex_stream eq_refl (ex_stream_steps false))). Defined.

Lemma pipe_no_lost_wakeup_witness :
  ∃ r p', pipewrite false [1; 2; 3] 3 (y_pipe ex_asleep) = Ret r p' ∧ contents p' ≠ [] ∧ ChanRead ∈ p_woken p'.
Proof.
  apply (proj2 (pipe_no_lost_wakeup ex_data 2 ex_asleep eq_refl (ex_asleep_steps false)) 1%nat 10 eq_refl).
  vm_compute. split; [reflexivity|discriminate].
Defined.

(** A writer that is killed while it fills the pipe returns [-1] without
    waking the readers: a process asleep in [piperead] is left asleep although
    the pipe holds [PIPESIZE] bytes. *)
Theorem killed_writer_wakes_nobody :
  ∃ s, rtc (ystep true) (started ex_data 2) s ∧
    y_procs s !! 1%nat = Some (InRead 10 false) ∧ length (contents (y_pipe s)) = 512%nat.
Proof.
  destruct (pipewrite_from true ex_bytes 513 0 (set_p_woken [] (y_pipe ex_asleep))) as [r p'| | | |] eqn:E;
    [|vm_compute in E; discriminate..].
  eexists. split.
  - etrans; [apply (ex_asleep_steps true)|]. eapply rtc_l; [|apply rtc_refl].
    refine (ystep_write true true 0 ex_bytes 513 0 r p' ex_asleep _ _ _ E);
      [reflexivity|vm_compute; reflexivity|left; split; vm_compute; reflexivity].
  - cbn [y_procs y_pipe]. vm_compute in E. injection E as <- <-. by vm_compute.
Qed.
