(* ===== verification/Kernel.v ===== *)
(** * Kernel: the data of the file-system stack

    The structures of param.h, fs.h, buf.h, file.h, log.h, loopdev.h and
    sysmount.h, and the state the file-system code shares.  A pointer to an
    element of a table is the element's index, a null pointer is [None]; the
    buffer list's head, [bcache.head], is the index [NBUF]. *)

From Stdlib Require Import ZArith Lia.
From stdpp Require Import base numbers strings gmap list.
From S2P Require Import Prelude.
Open Scope Z_scope.

(** ** Constants: param.h, fs.h, buf.h, stat.h, loopdev.h, sysmount.h *)

Definition NINODE : nat := 50.
Definition NDEV : Z := 10.
Definition ROOTDEV : Z := 1.
Definition MAXOPBLOCKS : Z := 10.
Definition LOGSIZE : Z := MAXOPBLOCKS * 3.
Definition NBUF : nat := 30.
Definition FSSIZE : Z := 1000.

Definition ROOTINO : Z := 1.
Definition BSIZE : Z := 512.
Definition NDIRECT : Z := 12.
Definition NINDIRECT : Z := BSIZE / 4.
Definition MAXFILE : Z := NDIRECT + NINDIRECT.
Definition IPB : Z := BSIZE / 64.
Definition BPB : Z := BSIZE * 8.
Definition DIRSIZ : nat := 14.

Definition B_VALID : Z := 2.
Definition B_DIRTY : Z := 4.

Definition T_DIR : Z := 1.
Definition T_FILE : Z := 2.
Definition T_DEV : Z := 3.

Definition NLOOPDEV : nat := 1.
Definition LOOPDEV_MASK : Z := 32.
Definition NMNT : nat := 10.

(** ** Structures *)

(** sleeplock.h: [struct sleeplock]. *)
Record sleeplock : Type := SleepLock {
  sl_locked : bool; (** is the lock held? *)
  sl_pid : Z; (** process holding it *)
}.

(** buf.h: [struct buf]; its [prev] and [next] are in [bcache] below. *)
Record buf : Type := Buf {
  b_flags : Z;
  b_dev : Z;
  b_blockno : Z;
  b_lock : sleeplock;
  b_refcnt : Z;
  b_data : list Z;
}.
Definition set_b_flags (v : Z) (r : buf) : buf :=
  {| b_flags := v; b_dev := b_dev r; b_blockno := b_blockno r; b_lock := b_lock r;
     b_refcnt := b_refcnt r; b_data := b_data r |}.
Definition set_b_dev (v : Z) (r : buf) : buf :=
  {| b_flags := b_flags r; b_dev := v; b_blockno := b_blockno r; b_lock := b_lock r;
     b_refcnt := b_refcnt r; b_data := b_data r |}.
Definition set_b_blockno (v : Z) (r : buf) : buf :=
  {| b_flags := b_flags r; b_dev := b_dev r; b_blockno := v; b_lock := b_lock r;
     b_refcnt := b_refcnt r; b_data := b_data r |}.
Definition set_b_lock (v : sleeplock) (r : buf) : buf :=
  {| b_flags := b_flags r; b_dev := b_dev r; b_blockno := b_blockno r; b_lock := v;
     b_refcnt := b_refcnt r; b_data := b_data r |}.
Definition set_b_refcnt (v : Z) (r : buf) : buf :=
  {| b_flags := b_flags r; b_dev := b_dev r; b_blockno := b_blockno r; b_lock :=
     b_lock r; b_refcnt := v; b_data := b_data r |}.
Definition set_b_data (v : list Z) (r : buf) : buf :=
  {| b_flags := b_flags r; b_dev := b_dev r; b_blockno := b_blockno r; b_lock :=
     b_lock r; b_refcnt := b_refcnt r; b_data := v |}.

(** bio.c: [bcache]. *)
Record bcache : Type := BCache {
  bc_lock : bool;
  bc_buf : list buf; (** [NBUF] buffers *)
  bc_next : list nat; (** [next] of buffer [b], and of the head at [NBUF] *)
  bc_prev : list nat; (** [prev], likewise *)
}.
Definition set_bc_lock (v : bool) (r : bcache) : bcache :=
  {| bc_lock := v; bc_buf := bc_buf r; bc_next := bc_next r; bc_prev := bc_prev r |}.
Definition set_bc_buf (v : list buf) (r : bcache) : bcache :=
  {| bc_lock := bc_lock r; bc_buf := v; bc_next := bc_next r; bc_prev := bc_prev r |}.
Definition set_bc_next (v : list nat) (r : bcache) : bcache :=
  {| bc_lock := bc_lock r; bc_buf := bc_buf r; bc_next := v; bc_prev := bc_prev r |}.
Definition set_bc_prev (v : list nat) (r : bcache) : bcache :=
  {| bc_lock := bc_lock r; bc_buf := bc_buf r; bc_next := bc_next r; bc_prev := v |}.

(** log.h: [struct logheader]. *)
Record logheader : Type := LogHeader {
  lh_n : Z;
  lh_block : list Z; (** [LOGSIZE] block numbers *)
}.
Definition set_lh_n (v : Z) (r : logheader) : logheader :=
  {| lh_n := v; lh_block := lh_block r |}.
Definition set_lh_block (v : list Z) (r : logheader) : logheader :=
  {| lh_n := lh_n r; lh_block := v |}.

(** log.h: [struct log]. *)
Record logst : Type := LogSt {
  log_lock : bool;
  log_start : Z;
  log_size : Z;
  log_outstanding : Z; (** how many FS system calls are executing *)
  log_committing : bool; (** in [commit()], please wait *)
  log_dev : Z;
  log_lh : logheader;
}.
Definition set_log_lock (v : bool) (r : logst) : logst :=
  {| log_lock := v; log_start := log_start r; log_size := log_size r;
     log_outstanding := log_outstanding r; log_committing := log_committing r;
     log_dev := log_dev r; log_lh := log_lh r |}.
Definition set_log_start (v : Z) (r : logst) : logst :=
  {| log_lock := log_lock r; log_start := v; log_size := log_size r; log_outstanding
     := log_outstanding r; log_committing := log_committing r; log_dev := log_dev r;
     log_lh := log_lh r |}.
Definition set_log_size (v : Z) (r : logst) : logst :=
  {| log_lock := log_lock r; log_start := log_start r; log_size := v;
     log_outstanding := log_outstanding r; log_committing := log_committing r;
     log_dev := log_dev r; log_lh := log_lh r |}.
Definition set_log_outstanding (v : Z) (r : logst) : logst :=
  {| log_lock := log_lock r; log_start := log_start r; log_size := log_size r;
     log_outstanding := v; log_committing := log_committing r; log_dev := log_dev r;
     log_lh := log_lh r |}.
Definition set_log_committing (v : bool) (r : logst) : logst :=
  {| log_lock := log_lock r; log_start := log_start r; log_size := log_size r;
     log_outstanding := log_outstanding r; log_committing := v; log_dev := log_dev
     r; log_lh := log_lh r |}.
Definition set_log_dev (v : Z) (r : logst) : logst :=
  {| log_lock := log_lock r; log_start := log_start r; log_size := log_size r;
     log_outstanding := log_outstanding r; log_committing := log_committing r;
     log_dev := v; log_lh := log_lh r |}.
Definition set_log_lh (v : logheader) (r : logst) : logst :=
  {| log_lock := log_lock r; log_start := log_start r; log_size := log_size r;
     log_outstanding := log_outstanding r; log_committing := log_committing r;
     log_dev := log_dev r; log_lh := v |}.

(** fs.h: [struct superblock]. *)
Record superblock : Type := SuperBlock {
  sb_size : Z; (** size of the image, in blocks *)
  sb_nblocks : Z; (** data blocks *)
  sb_ninodes : Z; (** inodes *)
  sb_nlog : Z; (** log blocks *)
  sb_logstart : Z; (** first log block *)
  sb_inodestart : Z; (** first inode block *)
  sb_bmapstart : Z; (** first free-map block *)
}.

(** file.h: [struct inode]. *)
Record inode : Type := Inode {
  i_dev : Z;
  i_inum : Z;
  i_ref : Z;
  i_lock : sleeplock;
  i_valid : bool; (** has been read from disk? *)
  i_type : Z; (** copy of the disk inode from here on *)
  i_major : Z;
  i_minor : Z;
  i_nlink : Z;
  i_size : Z;
  i_addrs : list Z; (** [NDIRECT + 1] block numbers *)
}.
Definition set_i_dev (v : Z) (r : inode) : inode :=
  {| i_dev := v; i_inum := i_inum r; i_ref := i_ref r; i_lock := i_lock r; i_valid
     := i_valid r; i_type := i_type r; i_major := i_major r; i_minor := i_minor r;
     i_nlink := i_nlink r; i_size := i_size r; i_addrs := i_addrs r |}.
Definition set_i_inum (v : Z) (r : inode) : inode :=
  {| i_dev := i_dev r; i_inum := v; i_ref := i_ref r; i_lock := i_lock r; i_valid :=
     i_valid r; i_type := i_type r; i_major := i_major r; i_minor := i_minor r;
     i_nlink := i_nlink r; i_size := i_size r; i_addrs := i_addrs r |}.
Definition set_i_ref (v : Z) (r : inode) : inode :=
  {| i_dev := i_dev r; i_inum := i_inum r; i_ref := v; i_lock := i_lock r; i_valid
     := i_valid r; i_type := i_type r; i_major := i_major r; i_minor := i_minor r;
     i_nlink := i_nlink r; i_size := i_size r; i_addrs := i_addrs r |}.
Definition set_i_lock (v : sleeplock) (r : inode) : inode :=
  {| i_dev := i_dev r; i_inum := i_inum r; i_ref := i_ref r; i_lock := v; i_valid :=
     i_valid r; i_type := i_type r; i_major := i_major r; i_minor := i_minor r;
     i_nlink := i_nlink r; i_size := i_size r; i_addrs := i_addrs r |}.
Definition set_i_valid (v : bool) (r : inode) : inode :=
  {| i_dev := i_dev r; i_inum := i_inum r; i_ref := i_ref r; i_lock := i_lock r;
     i_valid := v; i_type := i_type r; i_major := i_major r; i_minor := i_minor r;
     i_nlink := i_nlink r; i_size := i_size r; i_addrs := i_addrs r |}.
Definition set_i_type (v : Z) (r : inode) : inode :=
  {| i_dev := i_dev r; i_inum := i_inum r; i_ref := i_ref r; i_lock := i_lock r;
     i_valid := i_valid r; i_type := v; i_major := i_major r; i_minor := i_minor r;
     i_nlink := i_nlink r; i_size := i_size r; i_addrs := i_addrs r |}.
Definition set_i_major (v : Z) (r : inode) : inode :=
  {| i_dev := i_dev r; i_inum := i_inum r; i_ref := i_ref r; i_lock := i_lock r;
     i_valid := i_valid r; i_type := i_type r; i_major := v; i_minor := i_minor r;
     i_nlink := i_nlink r; i_size := i_size r; i_addrs := i_addrs r |}.
Definition set_i_minor (v : Z) (r : inode) : inode :=
  {| i_dev := i_dev r; i_inum := i_inum r; i_ref := i_ref r; i_lock := i_lock r;
     i_valid := i_valid r; i_type := i_type r; i_major := i_major r; i_minor := v;
     i_nlink := i_nlink r; i_size := i_size r; i_addrs := i_addrs r |}.
Definition set_i_nlink (v : Z) (r : inode) : inode :=
  {| i_dev := i_dev r; i_inum := i_inum r; i_ref := i_ref r; i_lock := i_lock r;
     i_valid := i_valid r; i_type := i_type r; i_major := i_major r; i_minor :=
     i_minor r; i_nlink := v; i_size := i_size r; i_addrs := i_addrs r |}.
Definition set_i_size (v : Z) (r : inode) : inode :=
  {| i_dev := i_dev r; i_inum := i_inum r; i_ref := i_ref r; i_lock := i_lock r;
     i_valid := i_valid r; i_type := i_type r; i_major := i_major r; i_minor :=
     i_minor r; i_nlink := i_nlink r; i_size := v; i_addrs := i_addrs r |}.
Definition set_i_addrs (v : list Z) (r : inode) : inode :=
  {| i_dev := i_dev r; i_inum := i_inum r; i_ref := i_ref r; i_lock := i_lock r;
     i_valid := i_valid r; i_type := i_type r; i_major := i_major r; i_minor :=
     i_minor r; i_nlink := i_nlink r; i_size := i_size r; i_addrs := v |}.

(** fs.c: [icache]. *)
Record icache : Type := ICache {
  ic_lock : bool;
  ic_inode : list inode; (** [NINODE] inodes *)
}.
Definition set_ic_lock (v : bool) (r : icache) : icache :=
  {| ic_lock := v; ic_inode := ic_inode r |}.
Definition set_ic_inode (v : list inode) (r : icache) : icache :=
  {| ic_lock := ic_lock r; ic_inode := v |}.

(** loopdev.h: [struct loopdev]. *)
Record loopdev : Type := LoopDev {
  ld_used : bool;
  ld_ip : option nat;
}.
Definition set_ld_used (v : bool) (r : loopdev) : loopdev :=
  {| ld_used := v; ld_ip := ld_ip r |}.
Definition set_ld_ip (v : option nat) (r : loopdev) : loopdev :=
  {| ld_used := ld_used r; ld_ip := v |}.

(** loopdev.c: [gloopdev]. *)
Record gloopdev : Type := GLoopDev {
  gl_lock : bool;
  gl_table : list loopdev; (** [NLOOPDEV] devices *)
}.
Definition set_gl_lock (v : bool) (r : gloopdev) : gloopdev :=
  {| gl_lock := v; gl_table := gl_table r |}.
Definition set_gl_table (v : list loopdev) (r : gloopdev) : gloopdev :=
  {| gl_lock := gl_lock r; gl_table := v |}.

(** sysmount.h: [struct mntent]. *)
Record mntent : Type := MntEnt {
  m_devno : Z;
  m_mnti : option nat;
  m_refcnt : Z;
  m_next : option nat;
}.
Definition set_m_devno (v : Z) (r : mntent) : mntent :=
  {| m_devno := v; m_mnti := m_mnti r; m_refcnt := m_refcnt r; m_next := m_next r |}.
Definition set_m_mnti (v : option nat) (r : mntent) : mntent :=
  {| m_devno := m_devno r; m_mnti := v; m_refcnt := m_refcnt r; m_next := m_next r |}.
Definition set_m_refcnt (v : Z) (r : mntent) : mntent :=
  {| m_devno := m_devno r; m_mnti := m_mnti r; m_refcnt := v; m_next := m_next r |}.
Definition set_m_next (v : option nat) (r : mntent) : mntent :=
  {| m_devno := m_devno r; m_mnti := m_mnti r; m_refcnt := m_refcnt r; m_next := v |}.

(** sysmount.h: [gmnt]. *)
Record gmntst : Type := GMnt {
  g_lock : bool; (** guards the counts and [pmntlist] *)
  g_table : list mntent; (** [NMNT] entries *)
  g_pmntlist : option nat;
  g_prootmnt : option nat;
}.
Definition set_g_lock (v : bool) (r : gmntst) : gmntst :=
  {| g_lock := v; g_table := g_table r; g_pmntlist := g_pmntlist r; g_prootmnt :=
     g_prootmnt r |}.
Definition set_g_table (v : list mntent) (r : gmntst) : gmntst :=
  {| g_lock := g_lock r; g_table := v; g_pmntlist := g_pmntlist r; g_prootmnt :=
     g_prootmnt r |}.
Definition set_g_pmntlist (v : option nat) (r : gmntst) : gmntst :=
  {| g_lock := g_lock r; g_table := g_table r; g_pmntlist := v; g_prootmnt :=
     g_prootmnt r |}.
Definition set_g_prootmnt (v : option nat) (r : gmntst) : gmntst :=
  {| g_lock := g_lock r; g_table := g_table r; g_pmntlist := g_pmntlist r;
     g_prootmnt := v |}.

(** The state of the file-system stack. *)
Record kernel : Type := Kernel {
  k_disk : list (list Z); (** the blocks of the disk, device [ROOTDEV] *)
  k_bc : bcache;
  k_log : logst;
  k_loop_log : logst;
  k_is_loop_mounted : bool;
  k_sb : superblock;
  k_ic : icache;
  k_ldev : gloopdev;
  k_mnt : gmntst;
  k_writes : list (Z * list Z); (** history: the disk writes, latest first; no operation reads it *)
}.
Definition set_k_disk (v : list (list Z)) (r : kernel) : kernel :=
  {| k_disk := v; k_bc := k_bc r; k_log := k_log r; k_loop_log := k_loop_log r;
     k_is_loop_mounted := k_is_loop_mounted r; k_sb := k_sb r; k_ic := k_ic r;
     k_ldev := k_ldev r; k_mnt := k_mnt r; k_writes := k_writes r |}.
Definition set_k_bc (v : bcache) (r : kernel) : kernel :=
  {| k_disk := k_disk r; k_bc := v; k_log := k_log r; k_loop_log := k_loop_log r;
     k_is_loop_mounted := k_is_loop_mounted r; k_sb := k_sb r; k_ic := k_ic r;
     k_ldev := k_ldev r; k_mnt := k_mnt r; k_writes := k_writes r |}.
Definition set_k_log (v : logst) (r : kernel) : kernel :=
  {| k_disk := k_disk r; k_bc := k_bc r; k_log := v; k_loop_log := k_loop_log r;
     k_is_loop_mounted := k_is_loop_mounted r; k_sb := k_sb r; k_ic := k_ic r;
     k_ldev := k_ldev r; k_mnt := k_mnt r; k_writes := k_writes r |}.
Definition set_k_loop_log (v : logst) (r : kernel) : kernel :=
  {| k_disk := k_disk r; k_bc := k_bc r; k_log := k_log r; k_loop_log := v;
     k_is_loop_mounted := k_is_loop_mounted r; k_sb := k_sb r; k_ic := k_ic r;
     k_ldev := k_ldev r; k_mnt := k_mnt r; k_writes := k_writes r |}.
Definition set_k_is_loop_mounted (v : bool) (r : kernel) : kernel :=
  {| k_disk := k_disk r; k_bc := k_bc r; k_log := k_log r; k_loop_log := k_loop_log
     r; k_is_loop_mounted := v; k_sb := k_sb r; k_ic := k_ic r; k_ldev := k_ldev r;
     k_mnt := k_mnt r; k_writes := k_writes r |}.
Definition set_k_sb (v : superblock) (r : kernel) : kernel :=
  {| k_disk := k_disk r; k_bc := k_bc r; k_log := k_log r; k_loop_log := k_loop_log
     r; k_is_loop_mounted := k_is_loop_mounted r; k_sb := v; k_ic := k_ic r; k_ldev
     := k_ldev r; k_mnt := k_mnt r; k_writes := k_writes r |}.
Definition set_k_ic (v : icache) (r : kernel) : kernel :=
  {| k_disk := k_disk r; k_bc := k_bc r; k_log := k_log r; k_loop_log := k_loop_log
     r; k_is_loop_mounted := k_is_loop_mounted r; k_sb := k_sb r; k_ic := v; k_ldev
     := k_ldev r; k_mnt := k_mnt r; k_writes := k_writes r |}.
Definition set_k_ldev (v : gloopdev) (r : kernel) : kernel :=
  {| k_disk := k_disk r; k_bc := k_bc r; k_log := k_log r; k_loop_log := k_loop_log
     r; k_is_loop_mounted := k_is_loop_mounted r; k_sb := k_sb r; k_ic := k_ic r;
     k_ldev := v; k_mnt := k_mnt r; k_writes := k_writes r |}.
Definition set_k_mnt (v : gmntst) (r : kernel) : kernel :=
  {| k_disk := k_disk r; k_bc := k_bc r; k_log := k_log r; k_loop_log := k_loop_log
     r; k_is_loop_mounted := k_is_loop_mounted r; k_sb := k_sb r; k_ic := k_ic r;
     k_ldev := k_ldev r; k_mnt := v; k_writes := k_writes r |}.
Definition set_k_writes (v : list (Z * list Z)) (r : kernel) : kernel :=
  {| k_disk := k_disk r; k_bc := k_bc r; k_log := k_log r; k_loop_log := k_loop_log
     r; k_is_loop_mounted := k_is_loop_mounted r; k_sb := k_sb r; k_ic := k_ic r;
     k_ldev := k_ldev r; k_mnt := k_mnt r; k_writes := v |}.

(** ** The running process *)

(** What the file-system code uses of [myproc()]: the process id that sleep
    locks record, and the current directory. *)
Class CurProc : Type := {
  cur_pid : Z;
  cur_cwd : nat;
}.

(** ** Lenses *)

Definition bc_lock_l : lens bcache bool := Lens bc_lock set_bc_lock.
#[global] Instance bc_lock_l_laws : LensLaws bc_lock_l.
Proof. split; by intros; repeat (destruct s; simpl). Qed.
Definition ic_lock_l : lens icache bool := Lens ic_lock set_ic_lock.
#[global] Instance ic_lock_l_laws : LensLaws ic_lock_l.
Proof. split; by intros; repeat (destruct s; simpl). Qed.
Definition log_lock_l : lens logst bool := Lens log_lock set_log_lock.
#[global] Instance log_lock_l_laws : LensLaws log_lock_l.
Proof. split; by intros; repeat (destruct s; simpl). Qed.
Definition gl_lock_l : lens gloopdev bool := Lens gl_lock set_gl_lock.
#[global] Instance gl_lock_l_laws : LensLaws gl_lock_l.
Proof. split; by intros; repeat (destruct s; simpl). Qed.
Definition g_lock_l : lens gmntst bool := Lens g_lock set_g_lock.
#[global] Instance g_lock_l_laws : LensLaws g_lock_l.
Proof. split; by intros; repeat (destruct s; simpl). Qed.
Definition bc_l : lens kernel bcache := Lens k_bc set_k_bc.
#[global] Instance bc_l_laws : LensLaws bc_l.
Proof. split; by intros; repeat (destruct s; simpl). Qed.
Definition log_l : lens kernel logst := Lens k_log set_k_log.
#[global] Instance log_l_laws : LensLaws log_l.
Proof. split; by intros; repeat (destruct s; simpl). Qed.
Definition loop_log_l : lens kernel logst := Lens k_loop_log set_k_loop_log.
#[global] Instance loop_log_l_laws : LensLaws loop_log_l.
Proof. split; by intros; repeat (destruct s; simpl). Qed.
Definition ic_l : lens kernel icache := Lens k_ic set_k_ic.
#[global] Instance ic_l_laws : LensLaws ic_l.
Proof. split; by intros; repeat (destruct s; simpl). Qed.
Definition ldev_l : lens kernel gloopdev := Lens k_ldev set_k_ldev.
#[global] Instance ldev_l_laws : LensLaws ldev_l.
Proof. split; by intros; repeat (destruct s; simpl). Qed.
Definition mnt_l : lens kernel gmntst := Lens k_mnt set_k_mnt.
#[global] Instance mnt_l_laws : LensLaws mnt_l.
Proof. split; by intros; repeat (destruct s; simpl). Qed.

(** ** The kernel's zeroed memory *)

(** What the loader leaves in the variables the initialisation routines start
    from. *)
Definition bss_sleeplock : sleeplock := SleepLock false 0.
Definition zero_block : list Z := replicate (Z.to_nat BSIZE) 0.
Definition bss_bcache : bcache :=
  BCache false (replicate NBUF (Buf 0 0 0 bss_sleeplock 0 zero_block))
    (replicate (S NBUF) 0%nat) (replicate (S NBUF) 0%nat).
Definition bss_log : logst := LogSt false 0 0 0 false 0 (LogHeader 0 (replicate (Z.to_nat LOGSIZE) 0)).
Definition bss_inode : inode :=
  Inode 0 0 0 bss_sleeplock false 0 0 0 0 0 (replicate 13 0).
Definition bss_icache : icache := ICache false (replicate NINODE bss_inode).
Definition bss_gloopdev : gloopdev := GLoopDev false (replicate NLOOPDEV (LoopDev false None)).
Definition bss_gmnt : gmntst := GMnt false (replicate NMNT (MntEnt 0 None 0 None)) None None.
Definition bss_kernel (disk : list (list Z)) : kernel :=
  Kernel disk bss_bcache bss_log bss_log false (SuperBlock 0 0 0 0 0 0 0) bss_icache bss_gloopdev
    bss_gmnt [].
