(* ===== verification/Sleeplock.v ===== *)
(** * Sleeplock: the sleep locks of sleeplock.c

    A sleep lock records whether it is held and by which process.  In a run of
    one process, a lock that is held is not released while the process waits
    for it: [acquiresleep] of a held lock is [Blocked].  The spin lock
    [lk->lk] brackets each routine and [wakeup(lk)] moves sleeping processes
    to [RUNNABLE] (Proc.v); neither changes the sleep lock. *)

From Stdlib Require Import ZArith Lia.
From stdpp Require Import base numbers strings gmap list.
From S2P Require Import Prelude Kernel.
Open Scope Z_scope.

Definition initsleeplock : sleeplock := SleepLock false 0.

Section sleeplock.
Context {S : Type} {CP : CurProc}.

(** The lock a pointer denotes: how to read it and how to write it. *)
Variable rd : S → option sleeplock.
Variable wr : sleeplock → S → S.

Definition acquiresleep : K S unit := λ s,
  match rd s with
  | None => Fault
  | Some lk =>
      if sl_locked lk then Blocked "acquiresleep"
      else Ret tt (wr (SleepLock true cur_pid) s)
  end.

Definition releasesleep : K S unit := λ s,
  match rd s with
  | None => Fault
  | Some _ => Ret tt (wr (SleepLock false 0) s)
  end.

Definition holdingsleep : K S bool := λ s,
  match rd s with
  | None => Fault
  | Some lk => Ret (sl_locked lk && (sl_pid lk =? cur_pid)) s
  end.

End sleeplock.
