(* ===== verification/Bio.v ===== *)
(** * Bio: the buffer cache of bio.c and the disk driver of memide.c

    The cache is the array of buffers with the circular list through [next]
    and [prev], most recently used first.  [bread] and [bwrite] reach a loop
    device through the class [LoopOps], the two routines of loopdev.c that
    read and write its blocks: Loopdev.v gives the instances, from the inode
    layer that itself uses [bread]. *)

From Stdlib Require Import ZArith Lia.
From stdpp Require Import base numbers strings gmap list.
From S2P Require Import Prelude Kernel Sleeplock.
Open Scope Z_scope.

(** ** Buffers and links *)

Definition getbuf (b : nat) : K bcache buf := λ s, deref (bc_buf s !! b) s.
Definition updbuf (b : nat) (f : buf → buf) : K bcache unit := λ s,
  match bc_buf s !! b with
  | Some x => Ret tt (set_bc_buf (<[b:=f x]> (bc_buf s)) s)
  | None => Fault
  end.
Definition buf_lock (b : nat) (s : bcache) : option sleeplock := b_lock <$> bc_buf s !! b.
Definition set_buf_lock (b : nat) (lk : sleeplock) (s : bcache) : bcache :=
  set_bc_buf (alter (set_b_lock lk) b (bc_buf s)) s.

(** [b->next], [b->prev] and the assignments to them. *)
Definition next (b : nat) : K bcache nat := λ s, deref (bc_next s !! b) s.
Definition prev (b : nat) : K bcache nat := λ s, deref (bc_prev s !! b) s.
Definition set_next (b v : nat) : K bcache unit := λ s,
  match bc_next s !! b with
  | Some _ => Ret tt (set_bc_next (<[b:=v]> (bc_next s)) s)
  | None => Fault
  end.
Definition set_prev (b v : nat) : K bcache unit := λ s,
  match bc_prev s !! b with
  | Some _ => Ret tt (set_bc_prev (<[b:=v]> (bc_prev s)) s)
  | None => Fault
  end.

(** [&bcache.head]. *)
Definition head : nat := NBUF.

(** ** Initialisation *)

(** One round of the loop of [binit]: link [b] at the front. *)
Definition link_front (b : nat) : K bcache unit :=
  h ← next head; set_next b h;;
  set_prev b head;;
  h ← next head; set_prev h b;;
  set_next head b.

Fixpoint binit_loop (bs : list nat) : K bcache unit :=
  match bs with
  | [] => mret tt
  | b :: bs =>
      link_front b;;
      updbuf b (set_b_lock initsleeplock);;
      binit_loop bs
  end.

Definition binit : K bcache unit :=
  modify (set_bc_lock false);;
  set_prev head head;;
  set_next head head;;
  binit_loop (seq 0 NBUF).

(** ** Looking up a buffer *)

(** The loops of [bget], along [next] and along [prev] from [b] to the head.
    [S NBUF] rounds are enough for a list of [NBUF] buffers. *)
Fixpoint find_cached (fuel : nat) (b : nat) (dev blockno : Z) : K bcache (option nat) :=
  match fuel with
  | O => nofuel
  | S fuel =>
      if decide (b = head) then mret None else
      x ← getbuf b;
      if (b_dev x =? dev) && (b_blockno x =? blockno) then mret (Some b)
      else n ← next b; find_cached fuel n dev blockno
  end.

Fixpoint find_unused (fuel : nat) (b : nat) : K bcache (option nat) :=
  match fuel with
  | O => nofuel
  | S fuel =>
      if decide (b = head) then mret None else
      x ← getbuf b;
      if (b_refcnt x =? 0) && (Z.land (b_flags x) B_DIRTY =? 0) then mret (Some b)
      else p ← prev b; find_unused fuel p
  end.

Definition recycle (dev blockno : Z) (x : buf) : buf :=
  set_b_refcnt 1 (set_b_flags 0 (set_b_blockno blockno (set_b_dev dev x))).

Section bio.
Context {CP : CurProc}.

Definition bget (dev blockno : Z) : K bcache nat :=
  acquire bc_lock_l;;
  b ← next head;
  cached ← find_cached (S NBUF) b dev blockno;
  match cached with
  | Some b =>
      updbuf b (λ x, set_b_refcnt (u32 (b_refcnt x + 1)) x);;
      release bc_lock_l;;
      acquiresleep (buf_lock b) (set_buf_lock b);;
      mret b
  | None =>
      b ← prev head;
      unused ← find_unused (S NBUF) b;
      match unused with
      | Some b =>
          updbuf b (recycle dev blockno);;
          release bc_lock_l;;
          acquiresleep (buf_lock b) (set_buf_lock b);;
          mret b
      | None => panic "bget: no buffers"
      end
  end.

(** Move [b] to the front of the list. *)
Definition relink (b : nat) : K bcache unit :=
  n ← next b; p ← prev b; set_prev n p;;
  p ← prev b; n ← next b; set_next p n;;
  link_front b.

Definition brelse (b : nat) : K bcache unit :=
  held ← holdingsleep (buf_lock b);
  if negb held then panic "brelse" else
  releasesleep (buf_lock b) (set_buf_lock b);;
  acquire bc_lock_l;;
  updbuf b (λ x, set_b_refcnt (u32 (b_refcnt x - 1)) x);;
  x ← getbuf b;
  (if b_refcnt x =? 0 then relink b else mret tt);;
  release bc_lock_l.

(** ** The disk: memide.c *)

Definition iderw (b : nat) : K kernel unit :=
  held ← zoom bc_l (holdingsleep (buf_lock b));
  if negb held then panic "iderw: buf not locked" else
  x ← zoom bc_l (getbuf b);
  if Z.land (b_flags x) (Z.lor B_VALID B_DIRTY) =? B_VALID
  then panic "iderw: nothing to do" else
  if negb (b_dev x =? 1) then panic "iderw: request not for disk 1" else
  disksize ← gets (λ s, Z.of_nat (length (k_disk s)));
  if disksize <=? b_blockno x then panic "iderw: block out of range" else
  let p := Z.to_nat (b_blockno x) in
  (if negb (Z.land (b_flags x) B_DIRTY =? 0) then
     zoom bc_l (updbuf b (λ x, set_b_flags (Z.land (b_flags x) (Z.lnot B_DIRTY)) x));;
     modify (λ s, set_k_writes ((b_blockno x, b_data x) :: k_writes s)
                    (set_k_disk (<[p:=b_data x]> (k_disk s)) s))
   else
     d ← (λ s, deref (k_disk s !! p) s);
     zoom bc_l (updbuf b (set_b_data d)));;
  zoom bc_l (updbuf b (λ x, set_b_flags (Z.lor (b_flags x) B_VALID) x)).

(** loopdev.c: [isloopdev]. *)
Definition isloopdev (devno : Z) : Z := Z.land (Z.shiftr devno 5) 1.

(** ** Reading, writing and releasing blocks *)

End bio.

(** loopdev.c's [loopdev_read] and [loopdev_write]. *)
Class LoopOps : Type := {
  loopdev_read : nat → K kernel unit;
  loopdev_write : nat → K kernel unit;
}.

Section loop.
Context {CP : CurProc} {LO : LoopOps}.

Definition bread (dev blockno : Z) : K kernel nat :=
  b ← zoom bc_l (bget dev blockno);
  x ← zoom bc_l (getbuf b);
  (if Z.land (b_flags x) B_VALID =? 0 then
     if negb (isloopdev dev =? 0) then loopdev_read b else iderw b
   else mret tt);;
  mret b.

Definition bwrite (b : nat) : K kernel unit :=
  held ← zoom bc_l (holdingsleep (buf_lock b));
  if negb held then panic "bwrite" else
  zoom bc_l (updbuf b (λ x, set_b_flags (Z.lor (b_flags x) B_DIRTY) x));;
  x ← zoom bc_l (getbuf b);
  if negb (isloopdev (b_dev x) =? 0) then loopdev_write b else iderw b.

End loop.

(** ** The list of buffers *)

(** [chain nx x l y]: following the links [nx] from [x] passes the nodes [l]
    and arrives at [y]. *)
Fixpoint chain (nx : list nat) (x : nat) (l : list nat) (y : nat) : Prop :=
  match l with
  | [] => nx !! x = Some y
  | z :: l => nx !! x = Some z ∧ chain nx z l y
  end.

Lemma chain_app nx x l1 z l2 y :
  chain nx x (l1 ++ z :: l2) y ↔ chain nx x l1 z ∧ chain nx z l2 y.
Proof. revert x. induction l1 as [|w l1 IH]; intros x; simpl; [done|]. rewrite IH. tauto. Qed.

Lemma chain_insert nx k v x l y :
  k ∉ x :: l → chain (<[k:=v]> nx) x l y ↔ chain nx x l y.
Proof.
  revert x. induction l as [|z l IH]; intros x Hk; simpl;
    rewrite list_lookup_insert_ne by set_solver; [done|].
  rewrite IH by set_solver. done.
Qed.

(** The last node of [x :: l]. *)
Fixpoint last_of (x : nat) (l : list nat) : nat :=
  match l with
  | [] => x
  | z :: l => last_of z l
  end.

Lemma last_of_app x l1 z l2 : last_of x (l1 ++ z :: l2) = last_of z l2.
Proof. revert x. induction l1; simpl; auto. Qed.

Lemma last_of_elem x l : last_of x l ∈ x :: l.
Proof. revert x. induction l as [|z l IH]; intros x; simpl; [set_solver|]. set_solver. Qed.

Lemma chain_last nx x l y : chain nx x l y → nx !! last_of x l = Some y.
Proof. revert x. induction l as [|z l IH]; intros x; simpl; [done|]. intros [_ H]. by apply IH. Qed.

Lemma chain_lookup nx x l y z : chain nx x l y → z ∈ x :: l → is_Some (nx !! z).
Proof.
  revert x. induction l as [|w l IH]; intros x; simpl.
  - intros H ->%list_elem_of_singleton. eauto.
  - intros [H1 H2] [->|Hz]%elem_of_cons; eauto.
Qed.

(** Redirecting the last link. *)
Lemma chain_set_last nx x l y v :
  NoDup (x :: l) → chain nx x l y → chain (<[last_of x l:=v]> nx) x l v.
Proof.
  revert x. induction l as [|z l IH]; intros x Hd; simpl.
  - intros H. apply list_lookup_insert_eq. by eapply lookup_lt_Some.
  - intros [H1 H2]. apply NoDup_cons in Hd as [Hx Hd]. split; [|by apply IH].
    rewrite list_lookup_insert_ne; [done|]. pose proof (last_of_elem z l). set_solver.
Qed.

(** Starting at a node with the same successor. *)
Lemma chain_start nx nx' x x' l y :
  nx' !! x' = nx !! x → (∀ z, z ∈ l → nx' !! z = nx !! z) →
  chain nx x l y → chain nx' x' l y.
Proof.
  revert x x'. induction l as [|z l IH]; intros x x' Hx Hl; simpl; [congruence|].
  intros [H1 H2]. split; [congruence|]. apply (IH z); [set_solver|set_solver|done].
Qed.

(** Taking a node out of a chain. *)
Lemma chain_remove nx h l1 b l2 n :
  NoDup (h :: l1 ++ b :: l2) → chain nx h (l1 ++ b :: l2) h → nx !! b = Some n →
  chain (<[last_of h l1:=n]> nx) h (l1 ++ l2) h.
Proof.
  intros Hd Hc Hn. apply chain_app in Hc as [H1 H2].
  rewrite app_comm_cons in Hd. apply NoDup_app in Hd as (Hd1 & Hd12 & _).
  pose proof (last_of_elem h l1) as Hlast.
  apply (chain_set_last _ _ _ _ n) in H1; [|done].
  apply (chain_insert _ (last_of h l1) n) in H2; [|naive_solver].
  destruct l2 as [|z l2].
  - rewrite app_nil_r. simpl in H2. rewrite list_lookup_insert_ne, Hn in H2 by set_solver.
    by simplify_eq.
  - destruct H2 as [H2 H3]. rewrite list_lookup_insert_ne, Hn in H2 by set_solver.
    simplify_eq. apply chain_app. done.
Qed.

(** The circular list holds the nodes [l], in this order from the head. *)
Definition dll (s : bcache) (l : list nat) : Prop :=
  NoDup (head :: l) ∧ chain (bc_next s) head l head ∧ chain (bc_prev s) head (reverse l) head.

Lemma dll_next_head s l : dll s l → bc_next s !! head = Some (hd head l).
Proof. intros (_ & H & _). destruct l; simpl in H; naive_solver. Qed.

Lemma hd_last_rev l x : hd x l = last_of x (reverse l).
Proof. destruct l as [|z l]; [done|]. by rewrite reverse_cons, last_of_app. Qed.

Lemma NoDup_cons_rev (h : nat) l : NoDup (h :: l) → NoDup (h :: reverse l).
Proof. by rewrite reverse_Permutation. Qed.

(** The list operations, on well-linked lists. *)
Lemma next_run s b n : bc_next s !! b = Some n → next b s = Ret n s.
Proof. unfold next, deref. by intros ->. Qed.
Lemma prev_run s b n : bc_prev s !! b = Some n → prev b s = Ret n s.
Proof. unfold prev, deref. by intros ->. Qed.
Lemma set_next_run s b v : is_Some (bc_next s !! b) →
  set_next b v s = Ret tt (set_bc_next (<[b:=v]> (bc_next s)) s).
Proof. unfold set_next. by intros [? ->]. Qed.
Lemma set_prev_run s b v : is_Some (bc_prev s !! b) →
  set_prev b v s = Ret tt (set_bc_prev (<[b:=v]> (bc_prev s)) s).
Proof. unfold set_prev. by intros [? ->]. Qed.

(** The state with other links. *)
Definition with_links (nx pv : list nat) (s : bcache) : bcache :=
  set_bc_prev pv (set_bc_next nx s).

Lemma link_front_run s l b :
  dll s l → b ∉ head :: l → (b < length (bc_next s))%nat → (b < length (bc_prev s))%nat →
  ∃ nx pv, link_front b s = Ret tt (with_links nx pv s) ∧
    dll (with_links nx pv s) (b :: l) ∧
    length nx = length (bc_next s) ∧ length pv = length (bc_prev s).
Proof.
  intros Hs Hb Hbn Hbp. pose proof (dll_next_head _ _ Hs) as Hh.
  destruct Hs as (Hd & Hn & Hp). set (f := hd head l) in *.
  assert (f = last_of head (reverse l)) as Hf by apply hd_last_rev.
  assert (f ∈ head :: l) as Hfl.
  { rewrite Hf. pose proof (last_of_elem head (reverse l)) as H.
    rewrite elem_of_cons, elem_of_reverse in H. set_solver. }
  assert (is_Some (bc_prev s !! f)) as [f' Hf'].
  { rewrite Hf. rewrite (chain_last _ _ _ _ Hp). eauto. }
  assert (b ≠ f ∧ b ≠ head) as [Hbf Hbh] by set_solver.
  exists (<[head:=b]> (<[b:=f]> (bc_next s))), (<[f:=b]> (<[b:=head]> (bc_prev s))).
  split; [|split; [|by rewrite !length_insert]].
  - unfold link_front.
    rewrite (K_bind_Ret _ _ _ _ _ (next_run _ _ _ Hh)).
    erewrite K_bind_Ret; [|by apply set_next_run, lookup_lt_is_Some_2].
    erewrite K_bind_Ret; [|by apply set_prev_run, lookup_lt_is_Some_2]. simpl.
    erewrite K_bind_Ret; [|apply next_run; simpl; by rewrite list_lookup_insert_ne].
    erewrite K_bind_Ret; [|apply set_prev_run; simpl; rewrite list_lookup_insert_ne by done; eauto].
    rewrite set_next_run; [done|]. simpl. rewrite list_lookup_insert_ne by done. eauto.
  - split; [|split]; simpl.
    + apply NoDup_cons in Hd as [Hd1 Hd2]. apply NoDup_cons. split; [set_solver|].
      apply NoDup_cons. set_solver.
    + split.
      * apply list_lookup_insert_eq. rewrite length_insert. by eapply lookup_lt_Some.
      * apply (chain_start (bc_next s) _ head); [| |done].
        -- rewrite list_lookup_insert_ne, list_lookup_insert_eq, Hh by done. done.
        -- intros z Hz. apply NoDup_cons in Hd as [Hd _].
           rewrite !list_lookup_insert_ne by set_solver. done.
    + rewrite reverse_cons. apply chain_app. split.
      * rewrite Hf. eapply chain_set_last; [by apply NoDup_cons_rev|].
        apply chain_insert; [|done]. rewrite elem_of_cons, elem_of_reverse. set_solver.
      * simpl. rewrite list_lookup_insert_ne by done. by apply list_lookup_insert_eq.
Qed.

Lemma relink_run s l1 b l2 :
  dll s (l1 ++ b :: l2) →
  ∃ nx pv, relink b s = Ret tt (with_links nx pv s) ∧
    dll (with_links nx pv s) (b :: l1 ++ l2) ∧
    length nx = length (bc_next s) ∧ length pv = length (bc_prev s).
Proof.
  intros (Hd & Hn & Hp).
  assert (NoDup (head :: reverse l2 ++ b :: reverse l1)) as Hdr.
  { apply NoDup_cons_rev in Hd. by rewrite reverse_app, reverse_cons, <-app_assoc in Hd. }
  rewrite reverse_app, reverse_cons, <-app_assoc in Hp. simpl in Hp.
  assert (is_Some (bc_next s !! b)) as [n Hbn] by (eapply chain_lookup; [done|set_solver]).
  assert (is_Some (bc_prev s !! b)) as [p Hbp] by (eapply chain_lookup; [done|set_solver]).
  pose proof (chain_remove _ _ _ _ _ _ Hd Hn Hbn) as Hn'.
  pose proof (chain_remove _ _ _ _ _ _ Hdr Hp Hbp) as Hp'.
  rewrite <-reverse_app in Hp'.
  assert (p = last_of head l1) as Hpe.
  { clear -Hp Hbp. apply chain_app in Hp as [_ H]. rewrite <-(reverse_involutive l1) in *.
    generalize dependent (reverse l1). intros l. rewrite reverse_involutive.
    destruct l; simpl; intros; [|rewrite reverse_cons, last_of_app; simpl; naive_solver].
    naive_solver. }
  assert (n = last_of head (reverse l2)) as Hne.
  { rewrite <-hd_last_rev. clear -Hn Hbn. apply chain_app in Hn as [_ H].
    destruct l2; simpl in *; naive_solver. }
  assert (b ≠ p ∧ b ≠ n) as [? ?].
  { rewrite Hpe, Hne. pose proof (last_of_elem head l1). pose proof (last_of_elem head (reverse l2)).
    apply NoDup_cons in Hd as [Hd1 Hd]. apply NoDup_app in Hd as (_ & Hd2 & Hd).
    apply NoDup_cons in Hd as [Hd3 _]. rewrite elem_of_cons, elem_of_reverse in *.
    set_solver. }
  rewrite <-Hpe in Hn'. rewrite <-Hne in Hp'.
  set (s1 := with_links (<[p:=n]> (bc_next s)) (<[n:=p]> (bc_prev s)) s).
  destruct (link_front_run s1 (l1 ++ l2) b) as (nx & pv & E & Hdll & L1 & L2).
  { split; [|done]. apply NoDup_cons in Hd as [Hd1 Hd]. apply NoDup_cons.
    rewrite NoDup_app, NoDup_cons in Hd. rewrite NoDup_app. set_solver. }
  { apply NoDup_cons in Hd as [Hd1 Hd]. rewrite NoDup_app, NoDup_cons in Hd. set_solver. }
  { simpl. rewrite length_insert. by eapply lookup_lt_Some. }
  { simpl. rewrite length_insert. by eapply lookup_lt_Some. }
  exists nx, pv. split; [|split; [done|simpl in *; by rewrite !length_insert in *]].
  unfold relink.
  rewrite (K_bind_Ret _ _ _ _ _ (next_run _ _ _ Hbn)).
  rewrite (K_bind_Ret _ _ _ _ _ (prev_run _ _ _ Hbp)).
  erewrite K_bind_Ret; [|apply set_prev_run].
  2:{ rewrite Hne. rewrite (chain_last (bc_prev s) head (reverse l2) b); eauto.
      by apply chain_app in Hp as [? _]. }
  erewrite K_bind_Ret; [|apply prev_run; simpl; by rewrite list_lookup_insert_ne].
  erewrite K_bind_Ret; [|apply next_run; exact Hbn].
  erewrite K_bind_Ret; [|apply set_next_run].
  2:{ simpl. rewrite Hpe, (chain_last (bc_next s) head l1 b); eauto.
      by apply chain_app in Hn as [? _]. }
  exact E.
Qed.

(** ** The cache: invariant and lookup *)

Definition has_key (s : bcache) (dev blockno : Z) (b : nat) : bool :=
  match bc_buf s !! b with
  | Some x => (b_dev x =? dev) && (b_blockno x =? blockno)
  | None => false
  end.
Definition is_unused (s : bcache) (b : nat) : bool :=
  match bc_buf s !! b with
  | Some x => (b_refcnt x =? 0) && (Z.land (b_flags x) B_DIRTY =? 0)
  | None => false
  end.

(** The buffers of the cache are on the list once each, in the order [l], and
    no two of them hold the same block of a device.  Device 0 is the device
    of the buffers that were never used. *)
Record cache_ok (s : bcache) (l : list nat) : Prop := {
  co_lock : bc_lock s = false;
  co_len : length (bc_buf s) = NBUF;
  co_next : length (bc_next s) = S NBUF;
  co_prev : length (bc_prev s) = S NBUF;
  co_dll : dll s l;
  co_perm : l ≡ₚ seq 0 NBUF;
  co_uniq : ∀ i j x y, bc_buf s !! i = Some x → bc_buf s !! j = Some y →
    b_dev x ≠ 0 → b_dev x = b_dev y → b_blockno x = b_blockno y → i = j;
}.

Lemma cache_ok_elem s l b : cache_ok s l → b ∈ l ↔ (b < NBUF)%nat.
Proof. intros H. rewrite (co_perm _ _ H), elem_of_seq. lia. Qed.

Lemma cache_ok_lookup s l b : cache_ok s l → b ∈ l → is_Some (bc_buf s !! b).
Proof.
  intros H Hb. apply lookup_lt_is_Some. rewrite (co_len _ _ H). by apply (cache_ok_elem _ _ _ H).
Qed.

Lemma getbuf_run s b x : bc_buf s !! b = Some x → getbuf b s = Ret x s.
Proof. unfold getbuf, deref. by intros ->. Qed.
Lemma updbuf_run s b f x : bc_buf s !! b = Some x →
  updbuf b f s = Ret tt (set_bc_buf (<[b:=f x]> (bc_buf s)) s).
Proof. unfold updbuf. by intros ->. Qed.

Lemma find_cached_run fuel s x l dev blockno :
  chain (bc_next s) x l head → head ∉ l → Forall (λ b, is_Some (bc_buf s !! b)) l →
  (length l < fuel)%nat →
  find_cached fuel (hd head l) dev blockno s = Ret (List.find (has_key s dev blockno) l) s.
Proof.
  revert fuel x. induction l as [|b l IH]; intros fuel x Hc Hh Hb Hf;
    (destruct fuel as [|fuel]; [simpl in Hf; lia|]); cbn [find_cached hd List.find].
  { by rewrite decide_True. }
  destruct Hc as [Hx Hc]. apply Forall_cons in Hb as [[y Hy] Hb].
  rewrite decide_False by set_solver.
  rewrite (K_bind_Ret _ _ _ _ _ (getbuf_run _ _ _ Hy)).
  unfold has_key at 1. rewrite Hy.
  destruct (_ && _); [done|].
  assert (bc_next s !! b = Some (hd head l)) as Hn by (destruct l; simpl in Hc; naive_solver).
  rewrite (K_bind_Ret _ _ _ _ _ (next_run _ _ _ Hn)).
  apply (IH _ b); [done|set_solver|done|simpl in Hf; lia].
Qed.

Lemma find_unused_run fuel s x l :
  chain (bc_prev s) x l head → head ∉ l → Forall (λ b, is_Some (bc_buf s !! b)) l →
  (length l < fuel)%nat →
  find_unused fuel (hd head l) s = Ret (List.find (is_unused s) l) s.
Proof.
  revert fuel x. induction l as [|b l IH]; intros fuel x Hc Hh Hb Hf;
    (destruct fuel as [|fuel]; [simpl in Hf; lia|]); cbn [find_unused hd List.find].
  { by rewrite decide_True. }
  destruct Hc as [Hx Hc]. apply Forall_cons in Hb as [[y Hy] Hb].
  rewrite decide_False by set_solver.
  rewrite (K_bind_Ret _ _ _ _ _ (getbuf_run _ _ _ Hy)).
  unfold is_unused at 1. rewrite Hy.
  destruct (_ && _); [done|].
  assert (bc_prev s !! b = Some (hd head l)) as Hn by (destruct l; simpl in Hc; naive_solver).
  rewrite (K_bind_Ret _ _ _ _ _ (prev_run _ _ _ Hn)).
  apply (IH _ b); [done|set_solver|done|simpl in Hf; lia].
Qed.

#[global] Arguments find_cached : simpl never.
#[global] Arguments find_unused : simpl never.

(** The state with buffer [b] set. *)
Definition put_buf (b : nat) (x : buf) (s : bcache) : bcache :=
  set_bc_buf (<[b:=x]> (bc_buf s)) s.

Section bio_proofs.
Context {CP : CurProc}.

(** Take the sleep lock of a buffer; [f] is what [bget] did to it. *)
Definition lock_buf (f : buf → buf) (b : nat) (s : bcache) : outcome bcache nat :=
  match bc_buf s !! b with
  | Some x =>
      if sl_locked (b_lock x) then Blocked "acquiresleep"
      else Ret b (put_buf b (set_b_lock (SleepLock true cur_pid) (f x)) s)
  | None => Fault
  end.

(** What [bget] means on the list: the first buffer of the list that holds
    the block, or else the least recently used buffer that is neither
    referenced nor dirty, recycled. *)
Definition bget_lru (dev blockno : Z) (l : list nat) (s : bcache) : outcome bcache nat :=
  match List.find (has_key s dev blockno) l with
  | Some b => lock_buf (λ x, set_b_refcnt (u32 (b_refcnt x + 1)) x) b s
  | None =>
      match List.find (is_unused s) (reverse l) with
      | Some b => lock_buf (recycle dev blockno) b s
      | None => Panic "bget: no buffers"
      end
  end.

Lemma bget_tail s b x f :
  bc_lock s = false → bc_buf s !! b = Some x →
  (∀ x, b_lock (f x) = b_lock x) →
  (updbuf b f;; release bc_lock_l;;
   acquiresleep (buf_lock b) (set_buf_lock b);; mret b) (set_bc_lock true s) =
  lock_buf f b s.
Proof.
  intros Hl Hx Hf. unfold lock_buf. rewrite Hx.
  erewrite K_bind_Ret; [|by apply updbuf_run].
  erewrite K_bind_Ret; [|reflexivity]. unfold mbind, K_bind, acquiresleep, buf_lock.
  cbn -[lookup insert]. rewrite list_lookup_insert_eq by (by eapply lookup_lt_Some).
  simpl. rewrite Hf. destruct (sl_locked _); [done|]. unfold mret, K_ret. f_equal.
  destruct s; simpl in *; subst. unfold put_buf, set_buf_lock, set_bc_buf, set_bc_lock. simpl.
  f_equal. by rewrite list_alter_insert_same.
Qed.

Lemma bget_run s l dev blockno :
  cache_ok s l → bget dev blockno s = bget_lru dev blockno l s.
Proof.
  intros H. unfold bget, bget_lru, acquire. unfold mbind at 1, K_bind at 1. simpl.
  rewrite (co_lock _ _ H). cbv iota.
  destruct (co_dll _ _ H) as (Hd & Hn & Hp). apply NoDup_cons in Hd as [Hh Hd].
  assert (Forall (λ b, is_Some (bc_buf (set_bc_lock true s) !! b)) l) as Hb.
  { apply Forall_forall. intros b Hb. exact (cache_ok_lookup s l b H Hb). }
  assert (length l < S NBUF)%nat as Hlen.
  { rewrite (co_perm _ _ H), length_seq. unfold NBUF. lia. }
  erewrite K_bind_Ret; [|apply next_run, dll_next_head; exact (co_dll _ _ H)].
  erewrite K_bind_Ret; [|by eapply find_cached_run].
  change (has_key (set_bc_lock true s)) with (has_key s).
  destruct (List.find (has_key s dev blockno) l) as [b|] eqn:E.
  - apply find_some in E as [E _]. apply list_elem_of_In in E.
    destruct (cache_ok_lookup _ _ _ H E) as [x Hx]. by eapply bget_tail; [exact (co_lock _ _ H)|..].
  - erewrite K_bind_Ret; [|apply prev_run; simpl].
    2:{ assert (bc_prev s !! head = Some (hd head (reverse l))); [|done].
        destruct (reverse l); simpl in Hp; naive_solver. }
    erewrite K_bind_Ret; [|eapply find_unused_run; [exact Hp|by rewrite elem_of_reverse| |by rewrite length_reverse]].
    2:{ by rewrite reverse_Permutation. }
    change (is_unused (set_bc_lock true s)) with (is_unused s).
    destruct (List.find (is_unused s) (reverse l)) as [b|] eqn:E2; [|done].
    apply find_some in E2 as [E2 _]. apply list_elem_of_In in E2. rewrite elem_of_reverse in E2.
    destruct (cache_ok_lookup _ _ _ H E2) as [x Hx]. by eapply bget_tail; [exact (co_lock _ _ H)|..].
Qed.

Lemma put_buf_lookup s b x y :
  bc_buf s !! b = Some x → bc_buf (put_buf b y s) !! b = Some y.
Proof. intros H. apply list_lookup_insert_eq. by eapply lookup_lt_Some. Qed.

Lemma cache_ok_put s l b x y :
  cache_ok s l → bc_buf s !! b = Some x → b_dev y = b_dev x → b_blockno y = b_blockno x →
  cache_ok (put_buf b y s) l.
Proof.
  intros H Hx Hd Hn. destruct H as [H1 H2 H3 H4 H5 H6 H7].
  split; try done; [by cbn; rewrite length_insert|].
  intros i j u v Hu Hv.
  destruct (list_lookup_insert_cases _ _ _ _ _ Hu) as [(<- & -> & _)|[? Hu']];
  destruct (list_lookup_insert_cases _ _ _ _ _ Hv) as [(<- & -> & _)|[? Hv']]; try done.
  - rewrite Hd, Hn. by apply H7.
  - rewrite Hd, Hn. intros. by eapply H7.
  - by apply H7.
Qed.

Lemma find_none_key s l dev blockno b x :
  cache_ok s l → List.find (has_key s dev blockno) l = None → bc_buf s !! b = Some x →
  ¬ (b_dev x = dev ∧ b_blockno x = blockno).
Proof.
  intros H Hf Hx [<- <-]. assert (b ∈ l) as Hb.
  { apply (cache_ok_elem _ _ _ H). rewrite <-(co_len _ _ H). by eapply lookup_lt_Some. }
  apply list_elem_of_In in Hb. pose proof (find_none _ _ Hf _ Hb) as Hk.
  unfold has_key in Hk. rewrite Hx, !Z.eqb_refl in Hk. done.
Qed.

Lemma cache_ok_recycle s l dev blockno b x y :
  cache_ok s l → List.find (has_key s dev blockno) l = None → bc_buf s !! b = Some x →
  b_dev y = dev → b_blockno y = blockno → cache_ok (put_buf b y s) l.
Proof.
  intros H Hf Hx Hd Hn. pose proof (λ i z, find_none_key _ _ _ _ i z H Hf) as Hnone.
  destruct H as [H1 H2 H3 H4 H5 H6 H7].
  split; try done; [by cbn; rewrite length_insert|].
  intros i j u v Hu Hv.
  destruct (list_lookup_insert_cases _ _ _ _ _ Hu) as [(<- & -> & _)|[? Hu']];
  destruct (list_lookup_insert_cases _ _ _ _ _ Hv) as [(<- & -> & _)|[? Hv']]; try done.
  - intros _ E1 E2. destruct (Hnone _ _ Hv'). split; congruence.
  - intros _ E1 E2. destruct (Hnone _ _ Hu'). split; congruence.
  - by apply H7.
Qed.

Lemma cache_ok_links s l l' nx pv :
  cache_ok s l → dll (with_links nx pv s) l' → l' ≡ₚ l →
  length nx = length (bc_next s) → length pv = length (bc_prev s) →
  cache_ok (with_links nx pv s) l'.
Proof.
  intros [H1 H2 H3 H4 H5 H6 H7] Hd Hp Hnx Hpv.
  split; try done; cbn; [congruence|congruence|by rewrite Hp].
Qed.

(** The list with [b] moved to the front. *)
Definition to_front (b : nat) (l : list nat) : list nat := b :: filter (λ i, i ≠ b) l.

Lemma to_front_split b l1 l2 :
  NoDup (l1 ++ b :: l2) → to_front b (l1 ++ b :: l2) = b :: l1 ++ l2.
Proof.
  intros H. unfold to_front. f_equal. rewrite filter_app, filter_cons_False by auto.
  apply NoDup_app in H as (_ & H12 & H2). apply NoDup_cons in H2 as [H2 _].
  f_equal; apply filter_ne; set_solver.
Qed.

(** The buffer as [brelse] leaves it. *)
Definition released (x : buf) : buf :=
  set_b_refcnt (u32 (b_refcnt x - 1)) (set_b_lock (SleepLock false 0) x).

Lemma brelse_run s l b x :
  cache_ok s l → bc_buf s !! b = Some x → b_lock x = SleepLock true cur_pid →
  ∃ nx pv, brelse b s = Ret tt (with_links nx pv (put_buf b (released x) s)) ∧
    cache_ok (with_links nx pv (put_buf b (released x) s))
      (if u32 (b_refcnt x - 1) =? 0 then to_front b l else l).
Proof.
  intros H Hx Hl. set (s1 := put_buf b (released x) s).
  assert (cache_ok s1 l) as H1 by (by eapply cache_ok_put).
  assert (∃ nx pv, (if u32 (b_refcnt x - 1) =? 0 then relink b else mret tt)
      (set_bc_lock true s1) = Ret tt (with_links nx pv (set_bc_lock true s1)) ∧
    cache_ok (with_links nx pv s1) (if u32 (b_refcnt x - 1) =? 0 then to_front b l else l))
    as (nx & pv & E & Hok).
  { destruct (_ =? 0).
    - assert (b ∈ l) as Hb.
      { apply (cache_ok_elem _ _ _ H). rewrite <-(co_len _ _ H). by eapply lookup_lt_Some. }
      apply list_elem_of_split in Hb as (l1 & l2 & ->).
      destruct (relink_run (set_bc_lock true s1) l1 b l2 (co_dll _ _ H1))
        as (nx & pv & E & Hd & ? & ?).
      exists nx, pv. split; [done|]. rewrite to_front_split.
      + eapply cache_ok_links; try done. by rewrite Permutation_middle.
      + destruct (co_dll _ _ H) as [Hnd _]. by apply NoDup_cons in Hnd as [_ ?].
    - exists (bc_next s1), (bc_prev s1). split; [done|]. by destruct s1. }
  exists nx, pv. split; [|done].
  assert (b < length (bc_buf s))%nat as Hlt by (by eapply lookup_lt_Some).
  unfold brelse. erewrite K_bind_Ret.
  2:{ unfold holdingsleep, buf_lock. rewrite Hx. simpl. rewrite Hl. simpl. by rewrite Z.eqb_refl. }
  cbn [negb]. erewrite K_bind_Ret.
  2:{ unfold releasesleep, buf_lock, set_buf_lock. rewrite Hx. simpl.
      by erewrite list_alter_Some by done. }
  erewrite K_bind_Ret; [|unfold acquire; simpl; by rewrite (co_lock _ _ H)].
  erewrite K_bind_Ret; [|apply updbuf_run; by apply list_lookup_insert_eq].
  erewrite K_bind_Ret; [|apply getbuf_run; apply list_lookup_insert_eq; cbn; by rewrite length_insert].
  erewrite K_bind_Ret; [|etrans; [|exact E]].
  2:{ cbn -[relink u32]. unfold s1, put_buf. cbn -[relink u32].
      rewrite list_insert_insert_eq. done. }
  unfold release. cbn. f_equal. destruct s; cbn in *.
  unfold s1, put_buf, with_links, set_bc_prev, set_bc_next, set_bc_lock. cbn.
  pose proof (co_lock _ _ H) as Hlk. cbn in Hlk. by subst.
Qed.

Lemma binit_run : ∃ s,
  binit bss_bcache = Ret tt s ∧ bc_buf s = bc_buf bss_bcache ∧ cache_ok s (reverse (seq 0 NBUF)).
Proof.
  eexists. split; [vm_compute; reflexivity|]. split; [reflexivity|]. split.
  1-4: reflexivity.
  - split; [apply (bool_decide_unpack _); vm_compute; exact I|]. vm_compute. split; repeat split.
  - apply reverse_Permutation.
  - intros i j x y Hx _ Hd. change (replicate NBUF (Buf 0 0 0 bss_sleeplock 0 zero_block) !! i = Some x) in Hx.
    apply lookup_replicate in Hx as [-> _]. done.
Qed.

(** On a well-formed cache the pointer code of [bget] is the LRU lookup
    [bget_lru]: it returns the cached buffer when there is one, else recycles
    the least recently used buffer that nobody references and whose contents
    are not waiting to be committed, and panics only when there is none. *)
Theorem bget_is_lru s l dev blockno :
  cache_ok s l → bget dev blockno s = bget_lru dev blockno l s.
Proof. apply bget_run. Qed.

(** [brelse] of a buffer this process holds drops its lock and one
    reference; when that was the last reference the buffer becomes the most
    recently used one, and the others keep their order.  The cache stays
    well-formed and no other buffer changes. *)
Theorem brelse_to_front s l b x :
  cache_ok s l → bc_buf s !! b = Some x → b_lock x = SleepLock true cur_pid →
  ∃ nx pv, brelse b s = Ret tt (with_links nx pv (put_buf b (released x) s)) ∧
    cache_ok (with_links nx pv (put_buf b (released x) s))
      (if u32 (b_refcnt x - 1) =? 0 then to_front b l else l).
Proof. apply brelse_run. Qed.

End bio_proofs.
