(* ===== verification/Log.v ===== *)
(** * Log: the redo log of log.c

    Two logs share one lock: [log] for the disk and [loop_log] for a mounted
    loop device.  The routines that log.c has in two copies, one per log, are
    one definition here over the log they use. *)

From Stdlib Require Import ZArith Lia.
From stdpp Require Import base numbers strings gmap list.
From S2P Require Import Prelude Kernel Sleeplock Bio.
Open Scope Z_scope.

Section log.
Context {CP : CurProc} {LO : LoopOps}.

(** ** Buffers as the log uses them *)

Definition bdata (b : nat) : K kernel (list Z) :=
  x ← zoom bc_l (getbuf b); mret (b_data x).
Definition set_bdata (b : nat) (d : list Z) : K kernel unit :=
  zoom bc_l (updbuf b (set_b_data d)).
Definition brelse_k (b : nat) : K kernel unit := zoom bc_l (brelse b).

(** ** The superblock: fs.c *)

Definition parse_sb (d : list Z) : superblock :=
  SuperBlock (word d 0) (word d 1) (word d 2) (word d 3) (word d 4) (word d 5) (word d 6).

Definition readsb (dev : Z) : K kernel superblock :=
  bp ← bread dev 1;
  d ← bdata bp;
  brelse_k bp;;
  mret (parse_sb d).

(** ** The log header *)

(** [lh->n] and [lh->block[i]] of a header block. *)
Definition hdr_n (d : list Z) : Z := s32 (word d 0).
Definition hdr_block (d : list Z) (i : nat) : Z := s32 (word d (S i)).

(** [l.lh.block[i] = v]. *)
Definition set_log_block (L : lens kernel logst) (i : nat) (v : Z) : K kernel unit := λ k,
  let l := lget L k in
  match lh_block (log_lh l) !! i with
  | Some _ =>
      Ret tt (lset L (set_log_lh
        (set_lh_block (<[i:=v]> (lh_block (log_lh l))) (log_lh l)) l) k)
  | None => Fault
  end.
Definition set_log_n (L : lens kernel logst) (n : Z) : K kernel unit :=
  modify (λ k, lset L (set_log_lh (set_lh_n n (log_lh (lget L k))) (lget L k)) k).

Definition log_of (L : lens kernel logst) : K kernel logst := gets (lget L).
Definition log_block (L : lens kernel logst) (i : nat) : K kernel Z :=
  l ← log_of L; deref (lh_block (log_lh l) !! i).

Definition read_head : K kernel unit :=
  l ← log_of log_l;
  b ← bread (log_dev l) (u32 (log_start l));
  d ← bdata b;
  set_log_n log_l (hdr_n d);;
  for_each (seq 0 (Z.to_nat (hdr_n d))) (λ i, set_log_block log_l i (hdr_block d i));;
  brelse_k b.

(** The header block [write_head] leaves in the buffer. *)
Fixpoint put_blocks (d : list Z) (i : nat) (bs : list Z) : list Z :=
  match bs with
  | [] => d
  | v :: bs => put_blocks (set_word d (S i) v) (S i) bs
  end.
Definition put_header (d : list Z) (lh : logheader) : list Z :=
  put_blocks (set_word d 0 (lh_n lh)) 0 (take (Z.to_nat (lh_n lh)) (lh_block lh)).

Definition write_head_of (L : lens kernel logst) : K kernel unit :=
  l ← log_of L;
  b ← bread (log_dev l) (u32 (log_start l));
  d ← bdata b;
  set_bdata b (put_header d (log_lh l));;
  bwrite b;;
  brelse_k b.

Definition write_head : K kernel unit := write_head_of log_l.

Definition check_loop_mounted (msg : string) : K kernel unit :=
  m ← gets k_is_loop_mounted;
  if negb m then panic msg else mret tt.

Definition write_head_loop : K kernel unit :=
  check_loop_mounted "[write_head_loop] loop dev not mounted";;
  write_head_of loop_log_l.

(** ** Copying blocks between the log and their homes *)

(** One round of [install_trans]: log block [tail] to its home. *)
Definition install_block (L : lens kernel logst) (tail : nat) : K kernel unit :=
  l ← log_of L;
  lbuf ← bread (log_dev l) (u32 (log_start l + Z.of_nat tail + 1));
  home ← log_block L tail;
  dbuf ← bread (log_dev l) (u32 home);
  d ← bdata lbuf;
  set_bdata dbuf d;;
  bwrite dbuf;;
  brelse_k lbuf;;
  brelse_k dbuf.

Definition install_trans_of (L : lens kernel logst) : K kernel unit :=
  l ← log_of L;
  for_each (seq 0 (Z.to_nat (lh_n (log_lh l)))) (install_block L).

Definition install_trans : K kernel unit := install_trans_of log_l.

Definition install_trans_loop : K kernel unit :=
  check_loop_mounted "[install_trans_loop] loop dev not mounted";;
  install_trans_of loop_log_l.

(** One round of [write_log]: cached block [tail] to the log. *)
Definition write_log_block (L : lens kernel logst) (tail : nat) : K kernel unit :=
  l ← log_of L;
  to ← bread (log_dev l) (u32 (log_start l + Z.of_nat tail + 1));
  home ← log_block L tail;
  from ← bread (log_dev l) (u32 home);
  d ← bdata from;
  set_bdata to d;;
  bwrite to;;
  brelse_k from;;
  brelse_k to.

Definition write_log_of (L : lens kernel logst) : K kernel unit :=
  l ← log_of L;
  for_each (seq 0 (Z.to_nat (lh_n (log_lh l)))) (write_log_block L).

Definition write_log : K kernel unit := write_log_of log_l.

Definition write_log_loop : K kernel unit :=
  check_loop_mounted "[write_log_loop] loop dev not mounted";;
  write_log_of loop_log_l.

(** ** Recovery and commit *)

Definition recover_from_log : K kernel unit :=
  read_head;;
  install_trans;;
  set_log_n log_l 0;;
  set_log_n loop_log_l 0;;
  write_head.

Definition initlog (dev : Z) : K kernel unit :=
  (* sizeof(struct logheader) >= BSIZE *)
  (if BSIZE <=? 4 + 4 * LOGSIZE then panic "initlog: too big logheader" else mret tt);;
  modify (λ k, set_k_log (set_log_lock false (k_log k)) k);;
  sb ← readsb dev;
  modify (λ k, set_k_log (set_log_dev dev (set_log_size (s32 (sb_nlog sb))
    (set_log_start (s32 (sb_logstart sb)) (k_log k)))) k);;
  modify (λ k, set_k_loop_log (set_log_dev (Z.lor 0 LOOPDEV_MASK) (set_log_size (s32 (sb_nlog sb))
    (set_log_start (s32 (sb_logstart sb)) (k_loop_log k)))) k);;
  recover_from_log.

Definition commit : K kernel unit :=
  m ← gets k_is_loop_mounted;
  ll ← log_of loop_log_l;
  (if m && (0 <? lh_n (log_lh ll)) then
     write_log_loop;;
     write_head_loop;;
     install_trans_loop;;
     write_head_loop
   else mret tt);;
  m ← gets k_is_loop_mounted;
  ll ← log_of loop_log_l;
  l ← log_of log_l;
  if m && (0 <? lh_n (log_lh ll)) && (lh_n (log_lh l) =? 0)
  then panic "[commit] loop_log is written but log is not written!" else
  (if 0 <? lh_n (log_lh l) then
     write_log;;
     write_head;;
     install_trans;;
     write_head
   else mret tt);;
  set_log_n log_l 0;;
  set_log_n loop_log_l 0.

(** ** Transactions *)

Definition acquire_log : K kernel unit := zoom log_l (acquire log_lock_l).
Definition release_log : K kernel unit := zoom log_l (release log_lock_l).

Definition add_outstanding (d : Z) (l : logst) : logst :=
  set_log_outstanding (log_outstanding l + d) l.

(** The space an operation more would need exceeds the log. *)
Definition log_full (l : logst) : bool :=
  LOGSIZE <? lh_n (log_lh l) + (log_outstanding l + 1) * MAXOPBLOCKS.

Definition begin_op : K kernel unit :=
  acquire_log;;
  m ← gets k_is_loop_mounted;
  l ← log_of log_l;
  ll ← log_of loop_log_l;
  if log_committing l || (m && log_committing ll) then blocked "begin_op: committing"
  else if log_full l || (m && log_full ll) then blocked "begin_op: log space"
  else
    modify (λ k, set_k_log (add_outstanding 1 (k_log k)) k);;
    modify (λ k, set_k_loop_log (add_outstanding 1 (k_loop_log k)) k);;
    release_log.

Definition set_committing (c : bool) : K kernel unit :=
  modify (λ k, set_k_loop_log (set_log_committing c (k_loop_log k))
                 (set_k_log (set_log_committing c (k_log k)) k)).

Definition end_op : K kernel unit :=
  acquire_log;;
  modify (λ k, set_k_log (add_outstanding (-1) (k_log k)) k);;
  modify (λ k, set_k_loop_log (add_outstanding (-1) (k_loop_log k)) k);;
  l ← log_of log_l;
  ll ← log_of loop_log_l;
  if log_committing l || log_committing ll then panic "log is committing" else
  let do_commit := (log_outstanding l =? 0) && (log_outstanding ll =? 0) in
  (if do_commit then set_committing true else mret tt);;
  release_log;;
  if do_commit then
    commit;;
    acquire_log;;
    set_committing false;;
    release_log
  else mret tt.

(** [for (i = 0; i < n; i++) if (block[i] == blockno) break;] *)
Fixpoint absorb_index (bs : list Z) (blockno : Z) : nat :=
  match bs with
  | [] => O
  | v :: bs => if u32 v =? blockno then O else S (absorb_index bs blockno)
  end.

Definition log_write_of (L : lens kernel logst) (b : nat) : K kernel unit :=
  l ← log_of L;
  if (LOGSIZE <=? lh_n (log_lh l)) || (log_size l - 1 <=? lh_n (log_lh l))
  then panic "too big a transaction" else
  if log_outstanding l <? 1 then panic "log_write outside of trans" else
  acquire_log;;
  x ← zoom bc_l (getbuf b);
  let n := lh_n (log_lh l) in
  let i := absorb_index (take (Z.to_nat n) (lh_block (log_lh l))) (b_blockno x) in
  set_log_block L i (s32 (b_blockno x));;
  (if Z.of_nat i =? n then set_log_n L (n + 1) else mret tt);;
  zoom bc_l (updbuf b (λ x, set_b_flags (Z.lor (b_flags x) B_DIRTY) x));;
  release_log.

Definition log_write (b : nat) : K kernel unit :=
  x ← zoom bc_l (getbuf b);
  if isloopdev (b_dev x) =? 0 then log_write_of log_l b else log_write_of loop_log_l b.

End log.
