(* ===== verification/Store.v ===== *)
(** * Store: what the buffer cache promises to the code above it

    [store k D H]: the blocks of the disk, as the running transaction sees
    them, are [D]; [H] gives the buffers the process holds, with the block of
    each and the contents its buffer has now.  The routines of bio.c and
    log.c are specified by what they do to [D] and [H]: this is the interface
    the inode layer is proved against. *)

From Stdlib Require Import ZArith Lia.
From stdpp Require Import base numbers strings gmap list.
From S2P Require Import Prelude Kernel Sleeplock Bio Log.
Open Scope Z_scope.

(** A buffer held: its device, its block and its contents. *)
Abbreviation held := (Z * Z * list Z)%type.

Section store.
Context {CP : CurProc}.

(** The states of a buffer's flags: not read, read, to be committed. *)
Definition flags_ok (f : Z) : Prop := f = 0 ∨ f = B_VALID ∨ f = Z.lor B_VALID B_DIRTY.

Definition in_disk (k : kernel) (bno : Z) : Prop := 0 ≤ bno < Z.of_nat (length (k_disk k)).

Definition buf_ok (k : kernel) (D : list (list Z)) (h : option held) (x : buf) : Prop :=
  flags_ok (b_flags x) ∧ length (b_data x) = Z.to_nat BSIZE ∧
  match h with
  | Some (dev, bno, d) =>
      b_dev x = dev ∧ b_blockno x = bno ∧ b_data x = d ∧
      b_lock x = SleepLock true cur_pid ∧ b_refcnt x = 1 ∧
      (dev = ROOTDEV → in_disk k bno ∧ b_flags x ≠ 0)
  | None =>
      b_lock x = SleepLock false 0 ∧ b_refcnt x = 0 ∧
      (b_dev x = ROOTDEV → b_flags x ≠ 0 →
       in_disk k (b_blockno x) ∧ D !! Z.to_nat (b_blockno x) = Some (b_data x))
  end.

#[global] Instance sleeplock_eq_dec : EqDecision sleeplock.
Proof. solve_decision. Defined.

(** Buffer [x] holds changes to block [bno] that are not on the disk yet. *)
Definition dirty_for (bno : Z) (x : buf) : Prop :=
  b_dev x = ROOTDEV ∧ b_blockno x = bno ∧ b_flags x = Z.lor B_VALID B_DIRTY.

#[global] Instance dirty_for_dec bno x : Decision (dirty_for bno x).
Proof. unfold dirty_for. apply _. Defined.

(** The blocks the log names. *)
Definition logged (l : logst) : list Z := take (Z.to_nat (lh_n (log_lh l))) (lh_block (log_lh l)).

(** The log: nobody holds its lock, its blocks are distinct and there is room
    for their numbers. *)
Record log_inv (l : logst) : Prop := {
  li_lock : log_lock l = false;
  li_n : 0 ≤ lh_n (log_lh l) ≤ LOGSIZE;
  li_len : length (lh_block (log_lh l)) = Z.to_nat LOGSIZE;
  li_nodup : NoDup (logged l);
}.

Record store (k : kernel) (D : list (list Z)) (H : gmap nat held) : Prop := {
  st_cache : ∃ l, cache_ok (k_bc k) l;
  st_log : log_inv (k_log k);
  st_logged : ∀ bno, bno ∈ logged (k_log k) → in_disk k bno;
  st_dirty : ∀ b x bno, bc_buf (k_bc k) !! b = Some x → dirty_for bno x → bno ∈ logged (k_log k);
  st_small : Z.of_nat (length (k_disk k)) < 2 ^ 31;
  st_len : length D = length (k_disk k);
  st_blocks : Forall (λ d, length d = Z.to_nat BSIZE) D;
  st_disk : Forall (λ d, length d = Z.to_nat BSIZE) (k_disk k);
  st_buf : ∀ b x, bc_buf (k_bc k) !! b = Some x → buf_ok k D (H !! b) x;
  st_dom : ∀ b h, H !! b = Some h → is_Some (bc_buf (k_bc k) !! b);
  st_clean : ∀ bno : nat,
    (∀ b x, bc_buf (k_bc k) !! b = Some x → ¬ dirty_for (Z.of_nat bno) x) →
    D !! bno = k_disk k !! bno;
}.

(** The block is not held. *)
Definition not_held (H : gmap nat held) (dev bno : Z) : Prop :=
  ∀ b h, H !! b = Some h → h.1 ≠ (dev, bno).

(** ** Running the buffer operations *)

Lemma set_k_bc_same k : set_k_bc (k_bc k) k = k.
Proof. by destruct k. Qed.

(** The state with buffer [b] set. *)
Definition kput (b : nat) (y : buf) (k : kernel) : kernel := set_k_bc (put_buf b y (k_bc k)) k.

Lemma kput_kput b y z k : kput b y (kput b z k) = kput b y k.
Proof. unfold kput, put_buf. destruct k; cbn. by rewrite list_insert_insert_eq. Qed.

Lemma kput_lookup k b x y :
  bc_buf (k_bc k) !! b = Some x → bc_buf (k_bc (kput b y k)) !! b = Some y.
Proof. intros H. by eapply put_buf_lookup. Qed.

Lemma kget_run k b x : bc_buf (k_bc k) !! b = Some x → zoom bc_l (getbuf b) k = Ret x k.
Proof.
  intros H. erewrite zoom_Ret; [|by apply getbuf_run]. cbn. by rewrite set_k_bc_same.
Qed.

Lemma kupd_run k b f x : bc_buf (k_bc k) !! b = Some x →
  zoom bc_l (updbuf b f) k = Ret tt (kput b (f x) k).
Proof. intros H. by erewrite zoom_Ret by (by apply updbuf_run). Qed.

Lemma kheld_run k b x : bc_buf (k_bc k) !! b = Some x → b_lock x = SleepLock true cur_pid →
  zoom bc_l (holdingsleep (buf_lock b)) k = Ret true k.
Proof.
  intros H Hl. erewrite zoom_Ret.
  2:{ unfold holdingsleep, buf_lock. cbn. rewrite H. cbn. rewrite Hl. cbn. by rewrite Z.eqb_refl. }
  cbn. by rewrite set_k_bc_same.
Qed.

Lemma bdata_run k b x : bc_buf (k_bc k) !! b = Some x → bdata b k = Ret (b_data x) k.
Proof. intros H. unfold bdata. by rewrite (K_bind_Ret _ _ _ _ _ (kget_run _ _ _ H)). Qed.

Lemma iderw_read_run k b x d :
  bc_buf (k_bc k) !! b = Some x → b_lock x = SleepLock true cur_pid →
  b_flags x = 0 → b_dev x = ROOTDEV → in_disk k (b_blockno x) →
  k_disk k !! Z.to_nat (b_blockno x) = Some d →
  iderw b k = Ret tt (kput b (set_b_flags B_VALID (set_b_data d x)) k).
Proof.
  intros Hx Hl Hf Hdev Hin Hd. unfold iderw.
  rewrite (K_bind_Ret _ _ _ _ _ (kheld_run _ _ _ Hx Hl)). cbn [negb].
  rewrite (K_bind_Ret _ _ _ _ _ (kget_run _ _ _ Hx)). rewrite Hf, Hdev.
  change (Z.land 0 (Z.lor B_VALID B_DIRTY) =? B_VALID) with false.
  change (ROOTDEV =? 1) with true. cbn [negb].
  erewrite K_bind_Ret; [|reflexivity].
  unfold in_disk in Hin. rewrite (proj2 (Z.leb_gt _ _)) by lia.
  erewrite K_bind_Ret.
  2:{ change (Z.land 0 B_DIRTY =? 0) with true. cbn [negb]. erewrite K_bind_Ret; [|unfold deref; by rewrite Hd].
      by apply kupd_run. }
  erewrite kupd_run; [|by eapply kput_lookup]. rewrite kput_kput. cbn. by rewrite Hf.
Qed.

Lemma iderw_write_run k b x :
  bc_buf (k_bc k) !! b = Some x → b_lock x = SleepLock true cur_pid →
  b_flags x = Z.lor B_VALID B_DIRTY → b_dev x = ROOTDEV → in_disk k (b_blockno x) →
  iderw b k = Ret tt (kput b (set_b_flags B_VALID x)
    (set_k_writes ((b_blockno x, b_data x) :: k_writes k)
      (set_k_disk (<[Z.to_nat (b_blockno x):=b_data x]> (k_disk k)) k))).
Proof.
  intros Hx Hl Hf Hdev Hin. unfold iderw.
  rewrite (K_bind_Ret _ _ _ _ _ (kheld_run _ _ _ Hx Hl)). cbn [negb].
  rewrite (K_bind_Ret _ _ _ _ _ (kget_run _ _ _ Hx)). rewrite Hf, Hdev.
  change (Z.land (Z.lor B_VALID B_DIRTY) (Z.lor B_VALID B_DIRTY) =? B_VALID) with false.
  change (ROOTDEV =? 1) with true. cbn [negb]. erewrite K_bind_Ret; [|reflexivity].
  unfold in_disk in Hin. rewrite (proj2 (Z.leb_gt _ _)) by lia.
  change (Z.land (Z.lor B_VALID B_DIRTY) B_DIRTY =? 0) with false. cbn [negb].
  erewrite K_bind_Ret; [|erewrite K_bind_Ret; [reflexivity|by apply kupd_run]].
  erewrite kupd_run; [|cbn; by eapply put_buf_lookup].
  f_equal. unfold kput, put_buf. destruct k; cbn. rewrite list_insert_insert_eq, Hf. done.
Qed.

(** ** The specifications *)

(** The panics of a cache or a log that is full. *)
Definition full_panics : list string := ["bget: no buffers"; "too big a transaction"]%string.

Lemma in_disk_lookup k D H bno :
  store k D H → in_disk k bno →
  ∃ d, D !! Z.to_nat bno = Some d ∧ length d = Z.to_nat BSIZE.
Proof.
  intros Hs [H1 H2]. destruct (lookup_lt_is_Some_2 D (Z.to_nat bno)) as [d Hd].
  { rewrite (st_len _ _ _ Hs). lia. }
  exists d. split; [done|]. pose proof (st_blocks _ _ _ Hs) as HF.
  rewrite Forall_lookup in HF. by eapply HF.
Qed.

Lemma in_disk_kput k b y bno : in_disk (kput b y k) bno ↔ in_disk k bno.
Proof. done. Qed.

(** Replacing one buffer. *)
Lemma store_put k D H b x y h :
  store k D H → bc_buf (k_bc k) !! b = Some x →
  (∃ l, cache_ok (put_buf b y (k_bc k)) l) → buf_ok k D h y →
  (∀ bno, dirty_for bno y → dirty_for bno x) →
  (∀ bno : nat, dirty_for (Z.of_nat bno) x → dirty_for (Z.of_nat bno) y ∨ D !! bno = k_disk k !! bno) →
  store (kput b y k) D (partial_alter (λ _, h) b H).
Proof.
  intros Hs Hx Hc Hy Hdl Hd. destruct Hs as [S1 L1 L2 L3 L4 S2 S3 S4 S5 S6 S7].
  split; try done.
  - intros i z bno Hz. destruct (list_lookup_insert_cases _ _ _ _ _ Hz) as [(<- & -> & _)|[Hi Hz']];
      [|by eapply L3]. intros Hd'. by eapply L3, Hdl.
  - intros i z Hz. destruct (list_lookup_insert_cases _ _ _ _ _ Hz) as [(<- & -> & _)|[Hi Hz']].
    + by rewrite lookup_partial_alter_eq.
    + rewrite lookup_partial_alter_ne by done. by apply S5.
  - intros i z Hz. cbn. apply lookup_lt_is_Some. rewrite length_insert. apply lookup_lt_is_Some.
    destruct (decide (b = i)) as [<-|]; [eauto|].
    rewrite lookup_partial_alter_ne in Hz by done. by eapply S6.
  - intros bno Hno. cbn in Hno. destruct (decide (dirty_for (Z.of_nat bno) x)) as [Hdx|Hdx].
    + destruct (Hd bno Hdx) as [Hdy|?]; [|done]. destruct (Hno b y); [|done].
      apply list_lookup_insert_eq. by eapply lookup_lt_Some.
    + apply S7. intros i z Hz. destruct (decide (b = i)) as [<-|Hi]; [congruence|].
      apply (Hno i). by rewrite list_lookup_insert_ne.
Qed.


Lemma has_key_true s dev bno b :
  has_key s dev bno b = true →
  ∃ x, bc_buf s !! b = Some x ∧ b_dev x = dev ∧ b_blockno x = bno.
Proof.
  unfold has_key. destruct (bc_buf s !! b) as [x|]; [|done].
  intros [H1 H2]%andb_true_iff. exists x. apply Z.eqb_eq in H1, H2. done.
Qed.

(** No buffer became dirty. *)
Definition clean_mono (k k' : kernel) : Prop := ∀ b y,
  bc_buf (k_bc k') !! b = Some y → b_flags y = Z.lor B_VALID B_DIRTY →
  ∃ x, bc_buf (k_bc k) !! b = Some x ∧ b_flags x = Z.lor B_VALID B_DIRTY ∧
    b_dev x = b_dev y ∧ b_blockno x = b_blockno y.

#[global] Instance clean_mono_refl : Reflexive clean_mono.
Proof. intros k b y. eauto. Qed.
#[global] Instance clean_mono_trans : Transitive clean_mono.
Proof.
  intros k1 k2 k3 H12 H23 b z Hz Fz. destruct (H23 _ _ Hz Fz) as (y & Hy & Fy & <- & <-). by apply H12.
Qed.

Lemma clean_mono_put k k' b x y :
  bc_buf (k_bc k) !! b = Some x → bc_buf (k_bc k') = <[b:=y]> (bc_buf (k_bc k)) →
  (b_flags y = Z.lor B_VALID B_DIRTY → b_flags x = Z.lor B_VALID B_DIRTY ∧
    b_dev x = b_dev y ∧ b_blockno x = b_blockno y) →
  clean_mono k k'.
Proof.
  intros Hx E Hy i z Hz Fz. rewrite E in Hz.
  destruct (list_lookup_insert_cases _ _ _ _ _ Hz) as [(<- & -> & _)|[? ?]]; [|by eauto].
  exists x. destruct (Hy Fz). done.
Qed.

(** There is a buffer for block [bno]: the block is cached, or some buffer can
    be recycled. *)
Definition has_room (k : kernel) (bno : Z) : Prop := ∃ b x,
  bc_buf (k_bc k) !! b = Some x ∧
  ((b_dev x = ROOTDEV ∧ b_blockno x = bno) ∨ (b_refcnt x = 0 ∧ Z.land (b_flags x) B_DIRTY = 0)).

Lemma has_room_find k l bno :
  cache_ok (k_bc k) l → has_room k bno → List.find (has_key (k_bc k) ROOTDEV bno) l = None →
  List.find (is_unused (k_bc k)) (reverse l) ≠ None.
Proof.
  intros Hc (b & x & Hx & Hr) Hn Hu. destruct Hr as [Hr|[Hr Hf]].
  - by eapply find_none_key.
  - assert (b ∈ l) as Hb.
    { apply (cache_ok_elem _ _ _ Hc). rewrite <-(co_len _ _ Hc). by eapply lookup_lt_Some. }
    apply elem_of_reverse, list_elem_of_In in Hb. pose proof (find_none _ _ Hu _ Hb) as E.
    unfold is_unused in E. by rewrite Hx, Hr, Hf in E.
Qed.

(** The buffer [bread] hands out for block [bno] of the disk. *)
Definition taken (bno : Z) (d : list Z) (x : buf) : buf :=
  Buf (if b_flags x =? 0 then B_VALID else b_flags x) ROOTDEV bno
    (SleepLock true cur_pid) 1 d.

Section bread.
Context {LO : LoopOps}.

Lemma bread_tail k b y d :
  bc_buf (k_bc k) !! b = Some y → b_lock y = SleepLock true cur_pid → b_dev y = ROOTDEV →
  b_refcnt y = 1 → flags_ok (b_flags y) → in_disk k (b_blockno y) →
  (b_flags y = 0 → k_disk k !! Z.to_nat (b_blockno y) = Some d) →
  (b_flags y ≠ 0 → b_data y = d) →
  (x ← zoom bc_l (getbuf b);
   (if Z.land (b_flags x) B_VALID =? 0 then
      if negb (isloopdev ROOTDEV =? 0) then loopdev_read b else iderw b
    else mret tt);; mret b) k =
  Ret b (kput b (taken (b_blockno y) d y) k).
Proof.
  intros Hy Hl Hd Hr Hf Hin Hread Hdata. rewrite (K_bind_Ret _ _ _ _ _ (kget_run _ _ _ Hy)).
  change (isloopdev ROOTDEV =? 0) with true. cbn [negb].
  destruct Hf as [Hf|Hf].
  - specialize (Hread Hf). rewrite Hf. change (Z.land 0 B_VALID =? 0) with true.
    erewrite K_bind_Ret; [|by apply (iderw_read_run _ _ y d)].
    unfold mret, K_ret. do 2 f_equal. unfold taken. rewrite Hf. destruct y; cbn in *. by subst.
  - assert (Z.land (b_flags y) B_VALID =? 0 = false) as -> by (by destruct Hf as [-> | ->]).
    assert (b_flags y ≠ 0) as Hn by (by destruct Hf as [-> | ->]).
    specialize (Hdata Hn). erewrite K_bind_Ret; [|reflexivity]. unfold mret, K_ret. f_equal.
    assert (taken (b_blockno y) d y = y) as ->.
    { unfold taken. rewrite (proj2 (Z.eqb_neq _ _) Hn). destruct y; cbn in *. by subst. }
    unfold kput, put_buf. rewrite list_insert_id by done. by destruct k as [? []].
Qed.

Lemma bread_store_gen E k D H bno d :
  ("bget: no buffers"%string ∈ E ∨ has_room k bno) → store k D H → not_held H ROOTDEV bno → in_disk k bno → D !! Z.to_nat bno = Some d →
  wp (bread ROOTDEV bno) E (λ b k',
    k' = set_k_bc (k_bc k') k ∧ clean_mono k k' ∧ H !! b = None ∧
    store k' D (<[b:=(ROOTDEV, bno, d)]> H)) k.
Proof.
  intros HE Hs Hnh Hin HD. destruct (st_cache _ _ _ Hs) as [l Hc]. unfold bread.
  apply wp_bind. unfold wp at 1, zoom. cbn [lget bc_l]. rewrite (bget_run _ l) by done.
  assert (∀ b x y, bc_buf (k_bc k) !! b = Some x → H !! b = None →
    b_lock y = SleepLock true cur_pid → b_dev y = ROOTDEV → b_blockno y = bno → b_refcnt y = 1 →
    flags_ok (b_flags y) →
    (b_flags y = 0 → k_disk k !! Z.to_nat bno = Some d) → (b_flags y ≠ 0 → b_data y = d) →
    (∃ l, cache_ok (put_buf b (taken bno d y) (k_bc k)) l) →
    (b_flags (taken bno d y) = Z.lor B_VALID B_DIRTY → b_flags x = Z.lor B_VALID B_DIRTY ∧
       b_dev x = ROOTDEV ∧ b_blockno x = bno) →
    (∀ n : nat, dirty_for (Z.of_nat n) x →
       dirty_for (Z.of_nat n) (taken bno d y) ∨ D !! n = k_disk k !! n) →
    wp (x ← zoom bc_l (getbuf b);
      (if Z.land (b_flags x) B_VALID =? 0 then
        if negb (isloopdev ROOTDEV =? 0) then loopdev_read b else iderw b
       else mret tt);; mret b) E (λ b k',
       k' = set_k_bc (k_bc k') k ∧ clean_mono k k' ∧ H !! b = None ∧
       store k' D (<[b:=(ROOTDEV, bno, d)]> H)) (kput b y k)) as Hfin.
  { intros b x y Hx Hb Y1 Y2 Y3 Y4 Y5 Y6 Y7 Hc' Hdx Hdirty. subst bno.
    eapply wp_Ret; [eapply bread_tail; try done; by eapply kput_lookup|].
    rewrite kput_kput. split; [by destruct k|].
    split; [eapply clean_mono_put; [done..|]; intros Hf; by destruct (Hdx Hf) as (? & ? & ?)|]. split; [done|].
    eapply (store_put _ _ _ _ _ _ (Some (ROOTDEV, b_blockno y, d))); try done.
    2:{ intros n (_ & E2 & E3). destruct (Hdx E3) as (? & ? & ?). cbn in E2. split_and!; congruence. }
    destruct (in_disk_lookup _ _ _ _ Hs Hin) as (d' & Hd' & Hlen). simplify_eq.
    unfold buf_ok, taken. cbn. split; [|split; [done|]].
    - destruct (Z.eqb_spec (b_flags y) 0); [right; left; done|done].
    - repeat split; try done; intros; try (destruct Hin; done).
      destruct (Z.eqb_spec (b_flags y) 0); done. }
  unfold bget_lru. destruct (List.find _ l) as [b|] eqn:Ef.
  - apply find_some in Ef as [_ (x & Hx & Hxd & Hxb)%has_key_true].
    pose proof (st_buf _ _ _ Hs _ _ Hx) as (Hxf & Hxl & Hxh).
    destruct (H !! b) as [[[dev' bno'] d']|] eqn:Hb.
    { destruct Hxh as (? & ? & _). exfalso. apply (Hnh _ _ Hb). cbn. congruence. }
    destruct Hxh as (Hlk & Hrc & Hdata). unfold lock_buf. rewrite Hx, Hlk, Hrc. cbn [sl_locked].
    change (u32 (0 + 1)) with 1. eapply (Hfin b x); try done.
    + cbn. intros Hf. rewrite <-HD. symmetry. apply (st_clean _ _ _ Hs). intros i z Hz (Hz1 & Hz2 & Hz3).
      assert (i = b) as ->.
      { eapply (co_uniq _ _ Hc); try done; [rewrite Hz1; done|congruence|]. rewrite Hz2, Hxb.
        destruct Hin. lia. }
      simplify_eq. rewrite Hf in Hz3. done.
    + cbn. intros Hf. destruct (Hdata Hxd Hf) as [_ Hd']. rewrite Hxb in Hd'. congruence.
    + exists l. eapply cache_ok_put; try done; by destruct x.
    + unfold taken. cbn. rewrite Hxd, Hxb. destruct (Z.eqb_spec (b_flags x) 0); naive_solver.
    + intros n (H1 & H2 & H3). left. unfold taken, dirty_for. cbn. rewrite H3. cbn. by rewrite <-Hxb.
  - destruct (List.find (is_unused _) _) as [b|] eqn:E2; [|destruct HE as [HE|HE]; [done|by destruct (has_room_find _ _ _ Hc HE Ef)]].
    apply find_some in E2 as [_ E2]. unfold is_unused in E2.
    destruct (bc_buf (k_bc k) !! b) as [x|] eqn:Hx; [|done].
    apply andb_true_iff in E2 as [E2 E3]. apply Z.eqb_eq in E2, E3.
    pose proof (st_buf _ _ _ Hs _ _ Hx) as (Hxf & Hxl & Hxh).
    destruct (H !! b) as [[[dev' bno'] d']|] eqn:Hb.
    { destruct Hxh as (_ & _ & _ & _ & Hrc & _). lia. }
    destruct Hxh as (Hlk & Hrc & Hdata). unfold lock_buf. rewrite Hx, Hlk. cbn [sl_locked].
    eapply (Hfin b x); try done.
    + by left.
    + intros _. rewrite <-HD. symmetry. apply (st_clean _ _ _ Hs). intros i z Hz (Hz1 & Hz2 & Hz3).
      eapply (find_none_key _ _ _ _ _ _ Hc Ef Hz). split; [done|]. rewrite Hz2. destruct Hin. lia.
    + exists l. eapply cache_ok_recycle; try done.
    + intros n (_ & _ & H3). rewrite H3 in E3. done.
Qed.

Lemma bread_store k D H bno d :
  store k D H → not_held H ROOTDEV bno → in_disk k bno → D !! Z.to_nat bno = Some d →
  wp (bread ROOTDEV bno) full_panics (λ b k',
    k' = set_k_bc (k_bc k') k ∧ clean_mono k k' ∧ H !! b = None ∧
    store k' D (<[b:=(ROOTDEV, bno, d)]> H)) k.
Proof. apply bread_store_gen. left. by left. Qed.

(** ** What the store operations leave alone *)

(** Only the cache and the log's list of blocks differ: [k'] is [k] after some
    operations of the buffer layer inside a transaction. *)
Record kframe (k k' : kernel) : Prop := {
  fr_kernel : k' = set_k_bc (k_bc k') (set_k_log (k_log k') k);
  fr_log : k_log k' = set_log_lh (log_lh (k_log k')) (k_log k);
}.

#[global] Instance kframe_refl : Reflexive kframe.
Proof. intros k. split; [by destruct k|by destruct k as [? ? []]]. Qed.

#[global] Instance kframe_trans : Transitive kframe.
Proof.
  intros [d1 bc1 l1 ll1 m1 sb1 ic1 ld1 mn1 w1] [d2 bc2 l2 ll2 m2 sb2 ic2 ld2 mn2 w2]
    [d3 bc3 l3 ll3 m3 sb3 ic3 ld3 mn3 w3] [H1 H2] [H3 H4].
  unfold set_k_bc, set_k_log, set_log_lh in *. destruct l1, l2, l3; cbn in *. simplify_eq. split; cbn; unfold set_k_bc, set_k_log, set_log_lh; cbn; congruence.
Qed.

Lemma kframe_bc k bc : kframe k (set_k_bc bc k).
Proof. split; [by destruct k|by destruct k as [? ? []]]. Qed.

Lemma kframe_disk k k' : kframe k k' → k_disk k' = k_disk k.
Proof. intros [E _]. by rewrite E. Qed.
Lemma kframe_outstanding k k' : kframe k k' → log_outstanding (k_log k') = log_outstanding (k_log k).
Proof. intros [_ E]. by rewrite E. Qed.
Lemma kframe_log_size k k' : kframe k k' → log_size (k_log k') = log_size (k_log k).
Proof. intros [_ E]. by rewrite E. Qed.
Lemma kframe_in_disk k k' bno : kframe k k' → in_disk k bno → in_disk k' bno.
Proof. intros H. unfold in_disk. by rewrite (kframe_disk _ _ H). Qed.

(** ** Releasing and changing a buffer *)

Lemma store_held k D H b dev bno d :
  store k D H → H !! b = Some (dev, bno, d) →
  ∃ x, bc_buf (k_bc k) !! b = Some x ∧ b_dev x = dev ∧ b_blockno x = bno ∧ b_data x = d ∧
    b_lock x = SleepLock true cur_pid ∧ b_refcnt x = 1 ∧ flags_ok (b_flags x) ∧
    length d = Z.to_nat BSIZE ∧ (dev = ROOTDEV → in_disk k bno ∧ b_flags x ≠ 0).
Proof.
  intros Hs Hb. destruct (st_dom _ _ _ Hs _ _ Hb) as [x Hx]. exists x.
  pose proof (st_buf _ _ _ Hs _ _ Hx) as Ho. rewrite Hb in Ho.
  destruct Ho as (? & ? & ? & ? & ? & ? & ? & ?). subst. done.
Qed.

Lemma bdata_store k D H b dev bno d :
  store k D H → H !! b = Some (dev, bno, d) → bdata b k = Ret d k.
Proof.
  intros Hs Hb. destruct (store_held _ _ _ _ _ _ _ Hs Hb) as (x & Hx & _ & _ & <- & _).
  by apply bdata_run.
Qed.

Lemma set_bdata_store k D H b dev bno d d' :
  store k D H → H !! b = Some (dev, bno, d) → length d' = Z.to_nat BSIZE →
  ∃ k', set_bdata b d' k = Ret tt k' ∧ k' = set_k_bc (k_bc k') k ∧ clean_mono k k' ∧ store k' D (<[b:=(dev, bno, d')]> H).
Proof.
  intros Hs Hb Hl. destruct (store_held _ _ _ _ _ _ _ Hs Hb)
    as (x & Hx & ? & ? & ? & ? & ? & ? & ? & ?).
  eexists. split; [unfold set_bdata; by apply kupd_run|]. split; [by destruct k|].
  split; [by eapply clean_mono_put|].
  destruct (st_cache _ _ _ Hs) as [l Hc].
  apply (store_put _ _ _ _ x _ (Some (dev, bno, d'))); try done.
  - exists l. by eapply cache_ok_put.
  - intros n Hn. by left.
Qed.

Lemma brelse_store k D H b dev bno d :
  store k D H → H !! b = Some (dev, bno, d) → (dev = ROOTDEV → D !! Z.to_nat bno = Some d) →
  ∃ k', brelse_k b k = Ret tt k' ∧ k' = set_k_bc (k_bc k') k ∧ clean_mono k k' ∧ store k' D (delete b H).
Proof.
  intros Hs Hb HD. destruct (store_held _ _ _ _ _ _ _ Hs Hb)
    as (x & Hx & Hd & Hn & Hdata & Hl & Hr & Hf & Hlen & Hroot).
  destruct (st_cache _ _ _ Hs) as [l Hc].
  destruct (brelse_run _ _ _ _ Hc Hx Hl) as (nx & pv & E & Hok).
  eexists. split; [unfold brelse_k; by apply zoom_Ret|]. split; [by destruct k|].
  split; [by eapply clean_mono_put|].
  assert (store (kput b (released x) k) D (partial_alter (λ _, None) b H)) as [].
  { apply (store_put _ _ _ _ x _ None); try done.
    - exists l. by eapply cache_ok_put.
    - unfold buf_ok, released. cbn. rewrite Hr, Hn, Hdata, Hd. split_and!; try done.
      intros ->. split; [by apply Hroot|by apply HD].
    - intros n Hn'. by left. }
  split; try done. eauto.
Qed.

(** ** Writing a block *)

(** Setting one held buffer together with the block it holds, on the disk or
    in the log. *)
Lemma store_block k D H b x y bno d k' :
  store k D H → H !! b = Some (ROOTDEV, bno, d) → bc_buf (k_bc k) !! b = Some x →
  k_bc k' = put_buf b y (k_bc k) → b_data y = d → b_dev y = ROOTDEV → b_blockno y = bno →
  b_lock y = b_lock x → b_refcnt y = b_refcnt x → flags_ok (b_flags y) → b_flags y ≠ 0 →
  log_inv (k_log k') → (∀ n, n ∈ logged (k_log k') → in_disk k n) →
  logged (k_log k) ⊆ logged (k_log k') →
  (dirty_for bno y → bno ∈ logged (k_log k')) →
  k_disk k' = (if decide (dirty_for bno y) then k_disk k else <[Z.to_nat bno:=d]> (k_disk k)) →
  store k' (<[Z.to_nat bno:=d]> D) H.
Proof.
  intros Hs Hb Hx Ebc Yd Ydev Yb Yl Yr Yf Yn Hli Hent Hsub Hdirty Edisk.
  destruct (store_held _ _ _ _ _ _ _ Hs Hb) as (x' & Hx' & Xdev & Xb & Xd & Xl & Xr & Xf & Hlen & Hroot).
  rewrite Hx in Hx'. injection Hx' as <-. destruct (Hroot eq_refl) as [Hin Xn].
  assert (length (k_disk k') = length (k_disk k)) as Edl.
  { rewrite Edisk. case_decide; [done|]. by rewrite length_insert. }
  assert (∀ n, in_disk k' n ↔ in_disk k n) as Ein by (intros n; unfold in_disk; by rewrite Edl).
  destruct (st_cache _ _ _ Hs) as [l Hc].
  split.
  - exists l. rewrite Ebc. eapply cache_ok_put; try done; congruence.
  - done.
  - intros n Hn. by apply Ein, Hent.
  - rewrite Ebc. intros i z n Hz Hd'.
    destruct (list_lookup_insert_cases _ _ _ _ _ Hz) as [(<- & -> & _)|[Hi Hz']].
    + assert (n = bno) as -> by (destruct Hd' as (_ & ? & _); congruence). auto.
    + apply Hsub. by eapply (st_dirty _ _ _ Hs).
  - rewrite Edl. apply (st_small _ _ _ Hs).
  - by rewrite length_insert, Edl, (st_len _ _ _ Hs).
  - apply Forall_insert; [apply (st_blocks _ _ _ Hs)|]. done.
  - rewrite Edisk. case_decide; [apply (st_disk _ _ _ Hs)|].
    apply Forall_insert; [apply (st_disk _ _ _ Hs)|]. done.
  - rewrite Ebc. intros i z Hz.
    destruct (list_lookup_insert_cases _ _ _ _ _ Hz) as [(<- & -> & _)|[Hi Hz']].
    + rewrite Hb. unfold buf_ok. rewrite Yd, Yl, Yr, Ein. by split_and!.
    + pose proof (st_buf _ _ _ Hs _ _ Hz') as (Z1 & Z2 & Z3). split; [done|]. split; [done|].
      destruct (H !! i) as [[[]]|]; [by rewrite Ein|]. rewrite Ein.
      destruct Z3 as (? & ? & Z4). split; [done|]. split; [done|]. intros Zd Zf.
      destruct (Z4 Zd Zf) as [Zin ZD]. split; [done|].
      rewrite list_lookup_insert_ne; [done|]. intros Hne. apply Hi.
      eapply (co_uniq _ _ Hc); try done; [by rewrite Xdev|congruence|].
      unfold in_disk in *. lia.
  - rewrite Ebc. intros i h Hi. cbn. apply lookup_lt_is_Some. rewrite length_insert.
    apply lookup_lt_is_Some. by eapply (st_dom _ _ _ Hs).
  - intros n Hn. rewrite Ebc in Hn. unfold in_disk in Hin.
    destruct (decide (Z.to_nat bno = n)) as [<-|Hne].
    + rewrite Edisk. case_decide as Hdy.
      * destruct (Hn b y); [by apply list_lookup_insert_eq; eapply lookup_lt_Some|].
        by rewrite Z2Nat.id by lia.
      * by rewrite !list_lookup_insert_eq by (rewrite ?(st_len _ _ _ Hs); lia).
    + rewrite list_lookup_insert_ne by done. rewrite Edisk.
      transitivity (k_disk k !! n); [|case_decide; [done|by rewrite list_lookup_insert_ne]].
      apply (st_clean _ _ _ Hs). intros i z Hz Hzd. destruct (decide (b = i)) as [<-|Hi].
      * simplify_eq. destruct Hzd as (_ & ? & _). lia.
      * apply (Hn i z); [|done]. cbn. by rewrite list_lookup_insert_ne.
Qed.

(** The state after a block went to the disk. *)
Definition disk_write (bno : Z) (d : list Z) (k : kernel) : kernel :=
  set_k_writes ((bno, d) :: k_writes k) (set_k_disk (<[Z.to_nat bno:=d]> (k_disk k)) k).

Lemma bwrite_store k D H b bno d :
  store k D H → H !! b = Some (ROOTDEV, bno, d) →
  ∃ bc, bwrite b k = Ret tt (set_k_bc bc (disk_write bno d k)) ∧
    clean_mono k (set_k_bc bc (disk_write bno d k)) ∧
    (∀ i z, bc_buf bc !! i = Some z → ¬ dirty_for bno z) ∧
    store (set_k_bc bc (disk_write bno d k)) (<[Z.to_nat bno:=d]> D) H.
Proof.
  intros Hs Hb. destruct (store_held _ _ _ _ _ _ _ Hs Hb)
    as (x & Hx & Hd & Hn & Hdata & Hl & Hr & Hf & Hlen & Hroot).
  destruct (Hroot eq_refl) as [Hin Hx0].
  set (x1 := set_b_flags (Z.lor (b_flags x) B_DIRTY) x).
  assert (b_flags x1 = Z.lor B_VALID B_DIRTY) as Hf1 by (by destruct Hf as [|[Hf|Hf]]; cbn; rewrite ?Hf).
  exists (put_buf b (set_b_flags B_VALID x1) (k_bc k)). split.
  - unfold bwrite. rewrite (K_bind_Ret _ _ _ _ _ (kheld_run _ _ _ Hx Hl)). cbn [negb].
    erewrite K_bind_Ret; [|by apply kupd_run].
    erewrite K_bind_Ret; [|by eapply kget_run, kput_lookup]. fold x1.
    change (b_dev x1) with (b_dev x). rewrite Hd. change (isloopdev ROOTDEV =? 0) with true. cbn [negb].
    erewrite iderw_write_run; [|by eapply kput_lookup|done..|by cbn; rewrite Hn].
    f_equal. change (b_blockno x1) with (b_blockno x). change (b_data x1) with (b_data x).
    rewrite Hn, Hdata. unfold kput, put_buf, disk_write. destruct k; cbn. by rewrite list_insert_insert_eq.
  - split; [by eapply clean_mono_put|]. split; [|eapply store_block; try done].
    { intros i z Hz (H1 & H2 & H3). destruct (st_cache _ _ _ Hs) as [l Hc].
      destruct (list_lookup_insert_cases _ _ _ _ _ Hz) as [(<- & -> & _)|[Hi Hz']]; [done|].
      apply Hi. eapply (co_uniq _ _ Hc); try done; first [by rewrite Hd|congruence]. }
    + by right; left.
    + apply (st_log _ _ _ Hs).
    + apply (st_logged _ _ _ Hs).
    + by intros (_ & _ & ?).
    + rewrite decide_False; [done|]. by intros (_ & _ & ?).
Qed.

Lemma absorb_index_spec bs bno :
  (∃ v, bs !! absorb_index bs bno = Some v ∧ u32 v = bno) ∨
  (absorb_index bs bno = length bs ∧ ∀ v, v ∈ bs → u32 v ≠ bno).
Proof.
  induction bs as [|v bs IH]; cbn [absorb_index]; [right; set_solver|].
  destruct (Z.eqb_spec (u32 v) bno); [left; by exists v|].
  destruct IH as [(w & ? & ?)|[-> ?]]; [left; by exists w|right]. split; [done|]. set_solver.
Qed.

(** The log with block [bno] recorded: unchanged when the log has it. *)
Definition log_add (bno : Z) (l : logst) : logst :=
  let i := absorb_index (logged l) bno in
  let lh := set_lh_block (<[i:=bno]> (lh_block (log_lh l))) (log_lh l) in
  set_log_lh (if Z.of_nat i =? lh_n (log_lh l) then set_lh_n (lh_n (log_lh l) + 1) lh else lh) l.

Lemma logged_length l : log_inv l → length (logged l) = Z.to_nat (lh_n (log_lh l)).
Proof.
  intros Hl. unfold logged. pose proof (li_n _ Hl). apply length_take_le. rewrite (li_len _ Hl).
  unfold LOGSIZE, MAXOPBLOCKS in *. lia.
Qed.

Lemma log_add_logged l bno :
  log_inv l → (∀ n, n ∈ logged l → 0 ≤ n < 2 ^ 31) → 0 ≤ bno < 2 ^ 31 → lh_n (log_lh l) < LOGSIZE →
  logged (log_add bno l) = (if decide (bno ∈ logged l) then logged l else logged l ++ [bno]).
Proof.
  intros Hl Hr Hb Hn. pose proof (li_n _ Hl). pose proof (logged_length _ Hl) as Hll.
  pose proof (li_len _ Hl) as Hlen. unfold log_add.
  assert (∀ v, v ∈ logged l → u32 v = v) as Hu by (intros v Hv; apply u32_small; specialize (Hr v Hv); lia).
  destruct (absorb_index_spec (logged l) bno) as [(v & Hv & Ev)|[Ei Hno]].
  - rewrite Hu in Ev by (by eapply list_elem_of_lookup_2). subst v.
    rewrite decide_True by (by eapply list_elem_of_lookup_2).
    pose proof (lookup_lt_Some _ _ _ Hv). rewrite (proj2 (Z.eqb_neq _ _)) by lia.
    unfold logged at 1. cbn. rewrite list_insert_id; [done|].
    apply lookup_take_Some in Hv as [Hv _]. done.
  - rewrite decide_False by (intros Hin; apply (Hno _ Hin); auto).
    rewrite Ei, Hll, Z2Nat.id, Z.eqb_refl by lia. unfold logged. cbn.
    rewrite Z2Nat.inj_add by lia. rewrite Nat.add_1_r.
    erewrite take_S_r.
    2:{ apply list_lookup_insert_eq. rewrite Hlen. unfold LOGSIZE, MAXOPBLOCKS in *. lia. }
    by rewrite take_insert_ge by lia.
Qed.

Lemma log_add_inv l bno :
  log_inv l → (∀ n, n ∈ logged l → 0 ≤ n < 2 ^ 31) → 0 ≤ bno < 2 ^ 31 → lh_n (log_lh l) < LOGSIZE →
  log_inv (log_add bno l).
Proof.
  intros Hl Hr Hb Hn. pose proof (li_n _ Hl). split.
  - apply (li_lock _ Hl).
  - unfold log_add. cbn. destruct (_ =? _); cbn; lia.
  - unfold log_add. cbn. destruct (_ =? _); cbn; by rewrite length_insert, (li_len _ Hl).
  - rewrite log_add_logged by done. case_decide; [apply (li_nodup _ Hl)|].
    apply NoDup_app. split_and!; [apply (li_nodup _ Hl)|set_solver|apply NoDup_singleton].
Qed.

Lemma log_write_run k b x :
  log_inv (k_log k) → bc_buf (k_bc k) !! b = Some x → b_dev x = ROOTDEV → 0 ≤ b_blockno x < 2 ^ 31 →
  1 ≤ log_outstanding (k_log k) →
  log_write b k =
  if (LOGSIZE <=? lh_n (log_lh (k_log k))) || (log_size (k_log k) - 1 <=? lh_n (log_lh (k_log k)))
  then Panic "too big a transaction"
  else Ret tt (kput b (set_b_flags (Z.lor (b_flags x) B_DIRTY) x)
                 (set_k_log (log_add (b_blockno x) (k_log k)) k)).
Proof.
  intros Hl Hx Hd Hb Ho. unfold log_write. rewrite (K_bind_Ret _ _ _ _ _ (kget_run _ _ _ Hx)), Hd.
  change (isloopdev ROOTDEV =? 0) with true. unfold log_write_of, log_of.
  erewrite K_bind_Ret; [|reflexivity]. cbn [lget log_l].
  destruct (_ || _) eqn:E; [done|]. apply orb_false_iff in E as [E1 E2].
  rewrite (proj2 (Z.ltb_ge _ _)) by lia.
  erewrite K_bind_Ret; [|unfold acquire_log, zoom, acquire; cbn; by rewrite (li_lock _ Hl)].
  erewrite K_bind_Ret; [|by apply kget_run]. fold (logged (k_log k)).
  rewrite s32_small by lia. pose proof (logged_length _ Hl) as Hll.
  assert (absorb_index (logged (k_log k)) (b_blockno x) < length (lh_block (log_lh (k_log k))))%nat as Hi.
  { destruct (absorb_index_spec (logged (k_log k)) (b_blockno x)) as [(v & Hv & _)|[-> _]];
      [apply lookup_lt_Some in Hv|]; pose proof (li_n _ Hl); rewrite (li_len _ Hl);
      unfold LOGSIZE, MAXOPBLOCKS in *; lia. }
  apply lookup_lt_is_Some in Hi as [v Hv].
  erewrite K_bind_Ret; [|unfold set_log_block; cbn; by rewrite Hv]. unfold log_add.
  destruct (_ =? _); (erewrite K_bind_Ret; [|reflexivity]);
    (erewrite K_bind_Ret; [|by apply kupd_run]);
    unfold release_log, zoom, release; cbn; f_equal; destruct k as [? ? []]; cbn in *;
    pose proof (li_lock _ Hl) as Hk; cbn in Hk; by subst.
Qed.

(** [log_write] of a held buffer makes its contents the contents of the
    block for the rest of the transaction: the block is recorded in the log,
    once, and the buffer is pinned.  The one way not to return is a
    transaction that fills the log. *)
Lemma log_write_store k D H b bno d :
  store k D H → H !! b = Some (ROOTDEV, bno, d) → 1 ≤ log_outstanding (k_log k) →
  wp (log_write b) full_panics (λ _ k',
    kframe k k' ∧ k_log k' = log_add bno (k_log k) ∧ store k' (<[Z.to_nat bno:=d]> D) H) k.
Proof.
  intros Hs Hb Ho. destruct (store_held _ _ _ _ _ _ _ Hs Hb)
    as (x & Hx & Hd & Hn & Hdata & Hl & Hr & Hf & Hlen & Hroot).
  destruct (Hroot eq_refl) as [Hin Hx0]. pose proof (st_small _ _ _ Hs) as Hsz.
  pose proof (st_log _ _ _ Hs) as Hli. assert (0 ≤ bno < 2 ^ 31) as Hrng by (unfold in_disk in Hin; lia).
  unfold wp. erewrite log_write_run; try done; [|by rewrite Hn].
  destruct (_ || _) eqn:E; [right; left|]. rewrite Hn. split_and!.
  { split; [by destruct k|]. destruct k as [? ? []]. done. }
  { by destruct k. }
  assert (∀ n, n ∈ logged (k_log k) → 0 ≤ n < 2 ^ 31) as Hent.
  { intros n Hl'. apply (st_logged _ _ _ Hs) in Hl'. unfold in_disk in Hl'. lia. }
  assert (lh_n (log_lh (k_log k)) < LOGSIZE) as Hlt by (apply orb_false_iff in E as [E _]; lia).
  pose proof (log_add_logged _ _ Hli Hent Hrng Hlt) as El.
  eapply store_block; try done; cbn [k_log kput set_k_log set_k_bc k_bc].
  - cbn. destruct Hf as [|[Hf|Hf]]; [done|right; right; by rewrite Hf..].
  - cbn. by destruct Hf as [|[Hf|Hf]]; rewrite ?Hf.
  - by apply log_add_inv.
  - rewrite El. intros n. case_decide; [by apply st_logged with D H|].
    rewrite elem_of_app, list_elem_of_singleton. intros [Hl'| ->]; [by apply (st_logged _ _ _ Hs)|done].
  - rewrite El. case_decide; set_solver.
  - intros _. rewrite El. case_decide; set_solver.
  - rewrite decide_True; [done|]. unfold dirty_for. cbn.
    split_and!; [done..|]. by destruct Hf as [|[Hf|Hf]]; rewrite ?Hf.
Qed.

(** C12: [bread] of a block of the disk that the process does not hold returns
    a buffer, locked for the process, with the contents the running
    transaction gives that block, whatever the cache held before; only the
    cache changes.  The one way not to return is a cache with every buffer
    referenced or dirty. *)
Theorem bread_spec k D H bno d :
  store k D H → not_held H ROOTDEV bno → in_disk k bno → D !! Z.to_nat bno = Some d →
  wp (bread ROOTDEV bno) full_panics (λ b k',
    k' = set_k_bc (k_bc k') k ∧ clean_mono k k' ∧ H !! b = None ∧
    store k' D (<[b:=(ROOTDEV, bno, d)]> H)) k.
Proof. apply bread_store. Qed.

(** C13: [log_write] of a held buffer makes its contents the contents of the
    block for the rest of the transaction and pins the buffer.  The log names
    the block once, however often it is written.  The one way not to return
    is a transaction that fills the log. *)
Theorem log_write_spec k D H b bno d :
  store k D H → H !! b = Some (ROOTDEV, bno, d) → 1 ≤ log_outstanding (k_log k) →
  wp (log_write b) full_panics (λ _ k', kframe k k' ∧ store k' (<[Z.to_nat bno:=d]> D) H ∧
    logged (k_log k') = if decide (bno ∈ logged (k_log k)) then logged (k_log k) else logged (k_log k) ++ [bno]) k.
Proof.
  intros Hs Hb Ho. pose proof (log_write_store _ _ _ _ _ _ Hs Hb Ho) as Hw.
  destruct (store_held _ _ _ _ _ _ _ Hs Hb) as (x & Hx & Hd & Hn & _ & _ & _ & _ & _ & Hroot).
  destruct (Hroot eq_refl) as [Hin _]. pose proof (st_small _ _ _ Hs). unfold in_disk in Hin.
  assert (∀ n, n ∈ logged (k_log k) → 0 ≤ n < 2 ^ 31) as Hent.
  { intros n Hl'. apply (st_logged _ _ _ Hs) in Hl'. unfold in_disk in Hl'. lia. }
  unfold wp in *. rewrite (log_write_run k b x) in * by (rewrite ?Hn; first [apply Hs|done|lia]).
  destruct (_ || _) eqn:E; [done|]. destruct Hw as (F & L & S). split; [done|]. split; [done|].
  rewrite L. apply orb_false_iff in E as [E _]. apply log_add_logged; [apply Hs|done|lia|lia].
Qed.

End bread.

End store.
