(* ===== verification/Commit.v ===== *)
(** * Commit: the disk writes of a commit

    What [commit] of log.c writes to the disk, in order, and the state it
    leaves: the log in memory empty, the cache and the disk in agreement. *)

From Stdlib Require Import ZArith Lia.
From stdpp Require Import base numbers strings gmap list.
From S2P Require Import Prelude Kernel Sleeplock Bio Log Store.
Open Scope Z_scope.

Section commit.
Context {CP : CurProc} {LO : LoopOps}.

(** ** There is a buffer for every block of a commit *)

(** The dirty buffers are buffers of the disk: no loop device is mounted. *)
Definition root_dirty (k : kernel) : Prop := ∀ b x,
  bc_buf (k_bc k) !! b = Some x → b_flags x = Z.lor B_VALID B_DIRTY → b_dev x = ROOTDEV.

Lemma root_dirty_mono k k' : clean_mono k k' → root_dirty k → root_dirty k'.
Proof. intros Hm Hr b y Hy Fy. destruct (Hm _ _ Hy Fy) as (x & Hx & Fx & <- & _). by eapply Hr. Qed.

Lemma buf_root k D H b x :
  store k D H → root_dirty k → (∀ b h, H !! b = Some h → h.1.1 = ROOTDEV) →
  bc_buf (k_bc k) !! b = Some x → ¬ (b_refcnt x = 0 ∧ Z.land (b_flags x) B_DIRTY = 0) →
  b_dev x = ROOTDEV ∧ ((∃ d, H !! b = Some (ROOTDEV, b_blockno x, d)) ∨ b_blockno x ∈ logged (k_log k)).
Proof.
  intros Hs Hr HH Hx Hu. pose proof (st_buf _ _ _ Hs _ _ Hx) as (Hf & _ & Ho).
  destruct (H !! b) as [[[dev bno] d]|] eqn:Hb.
  - pose proof (HH _ _ Hb) as Hd. cbn in Hd. subst dev.
    destruct Ho as (Hd & <- & _). split; [done|]. left. by exists d.
  - destruct Ho as (_ & Hrc & _).
    assert (b_flags x = Z.lor B_VALID B_DIRTY) as Hd.
    { destruct Hf as [Hf|[Hf|Hf]]; [exfalso; apply Hu; by rewrite Hf..|done]. }
    pose proof (Hr _ _ Hx Hd) as Hroot. split; [done|]. right. by eapply (st_dirty _ _ _ Hs).
Qed.

(** A buffer is available while the held and the logged blocks are fewer than
    the buffers. *)
Lemma room k D H bno :
  store k D H → root_dirty k → (∀ b h, H !! b = Some h → h.1.1 = ROOTDEV) →
  (size H + length (filter (λ n, n ≠ bno) (logged (k_log k))) < NBUF)%nat → has_room k bno.
Proof.
  intros Hs Hr HH Hlt. destruct (st_cache _ _ _ Hs) as [l Hc].
  set (P x := (b_dev x = ROOTDEV ∧ b_blockno x = bno) ∨ (b_refcnt x = 0 ∧ Z.land (b_flags x) B_DIRTY = 0)).
  destruct (decide (Exists P (bc_buf (k_bc k)))) as [He|He].
  { apply list.Exists_exists in He as (x & Hx & HP). apply list_elem_of_lookup in Hx as [b Hx].
    exists b, x. done. }
  exfalso. rewrite <-Forall_Exists_neg, Forall_lookup in He.
  assert (∀ b x, bc_buf (k_bc k) !! b = Some x → b_blockno x ≠ bno ∧ b_dev x = ROOTDEV ∧
    ((∃ d, H !! b = Some (ROOTDEV, b_blockno x, d)) ∨ b_blockno x ∈ logged (k_log k))) as Hb.
  { intros b x Hx. specialize (He b x Hx). unfold P in He.
    destruct (buf_root k D H b x) as [Hd ?]; auto. naive_solver. }
  assert (NoDup (b_blockno <$> bc_buf (k_bc k))) as Hnd.
  { apply NoDup_alt. intros i j n Hi Hj. rewrite list_lookup_fmap in Hi, Hj.
    apply fmap_Some in Hi as (x & Hx & ->), Hj as (y & Hy & E).
    eapply (co_uniq _ _ Hc i j x y); try done; destruct (Hb _ _ Hx) as (_ & -> & _); [done|].
    by destruct (Hb _ _ Hy) as (_ & -> & _). }
  assert (length (b_blockno <$> bc_buf (k_bc k)) ≤
    length (((λ h, h.2.1.2) <$> map_to_list H) ++ filter (λ n, n ≠ bno) (logged (k_log k))))%nat as Hle.
  { apply submseteq_length, NoDup_submseteq; [done|]. intros n Hn.
    apply list_elem_of_fmap in Hn as (x & -> & Hx). apply list_elem_of_lookup in Hx as [b Hx].
    destruct (Hb _ _ Hx) as (Hne & _ & [[d Hh]|Hl]); apply elem_of_app.
    - left. apply list_elem_of_fmap. exists (b, (ROOTDEV, b_blockno x, d)). split; [done|].
      by apply elem_of_map_to_list.
    - right. by apply list_elem_of_filter. }
  rewrite length_fmap, (co_len _ _ Hc), length_app, length_fmap, length_map_to_list in Hle. lia.
Qed.

(** [bread] with nothing held always finds a buffer. *)
Lemma bread_ret k D bno :
  store k D ∅ → root_dirty k → (length (logged (k_log k)) < NBUF)%nat → in_disk k bno →
  wp (bread ROOTDEV bno) [] (λ b k', k' = set_k_bc (k_bc k') k ∧ clean_mono k k' ∧
    store k' D {[b := (ROOTDEV, bno, default [] (D !! Z.to_nat bno))]}) k.
Proof.
  intros Hs Hr Hl Hin. destruct (in_disk_lookup _ _ _ _ Hs Hin) as (d & Hd & _). rewrite Hd.
  eapply wp_mono; [eapply (bread_store_gen [] k D ∅ bno d); [right|done..]|].
  - eapply room; try done. rewrite map_size_empty.
    pose proof (length_filter (λ n, n ≠ bno) (logged (k_log k))). lia.
  - intros b k' (? & ? & _ & ?). by rewrite insert_empty in *.
Qed.

(** ** Sequences of disk writes *)

(** A disk as a list of blocks; its block number [bno]. *)
Definition blk (D : list (list Z)) (bno : Z) : list Z := default [] (D !! Z.to_nat bno).

Definition apply_writes (ws : list (Z * list Z)) (D : list (list Z)) : list (list Z) :=
  foldl (λ D w, <[Z.to_nat w.1:=w.2]> D) D ws.

Lemma apply_writes_app ws1 ws2 D :
  apply_writes (ws1 ++ ws2) D = apply_writes ws2 (apply_writes ws1 D).
Proof. apply foldl_app. Qed.

Lemma apply_writes_cons w ws D :
  apply_writes (w :: ws) D = apply_writes ws (<[Z.to_nat w.1:=w.2]> D).
Proof. done. Qed.

Lemma apply_writes_length ws D : length (apply_writes ws D) = length D.
Proof.
  revert D. induction ws as [|w ws IH]; intros D; [done|]. cbn. unfold apply_writes in IH.
  by rewrite IH, length_insert.
Qed.

Lemma apply_writes_other ws D (n : nat) :
  n ∉ (λ w, Z.to_nat w.1) <$> ws → apply_writes ws D !! n = D !! n.
Proof.
  revert D. induction ws as [|w ws IH]; intros D Hn; [done|]. cbn. unfold apply_writes in IH.
  rewrite fmap_cons, not_elem_of_cons in Hn. destruct Hn as [Hw Hn].
  rewrite IH by done. by apply list_lookup_insert_ne.
Qed.

(** From [k] to [k'] the disk received the writes [ws], in this order, and
    nothing else changed but the cache. *)
Record writes_to (ws : list (Z * list Z)) (k k' : kernel) : Prop := {
  wt_kernel : k' = set_k_bc (k_bc k') (set_k_disk (k_disk k') (set_k_writes (k_writes k') k));
  wt_writes : k_writes k' = reverse ws ++ k_writes k;
  wt_disk : k_disk k' = apply_writes ws (k_disk k);
  wt_clean : clean_mono k k';
  wt_flushed : ∀ b y bno, bc_buf (k_bc k') !! b = Some y → dirty_for bno y → bno ∉ ws.*1;
}.

Lemma writes_to_bc k k' : k' = set_k_bc (k_bc k') k → clean_mono k k' → writes_to [] k k'.
Proof. intros E Hc. split; [|by rewrite E|by rewrite E|done|]; [rewrite E; by destruct k|set_solver]. Qed.

Lemma writes_to_trans ws1 ws2 k1 k2 k3 :
  writes_to ws1 k1 k2 → writes_to ws2 k2 k3 → writes_to (ws1 ++ ws2) k1 k3.
Proof.
  intros [E1 W1 D1 C1 F1] [E2 W2 D2 C2 F2]. split.
  - rewrite E2, E1. by destruct k1.
  - by rewrite W2, W1, reverse_app, (assoc_L (++)).
  - by rewrite D2, D1, apply_writes_app.
  - by transitivity k2.
  - intros b z bno Hz Dz. rewrite fmap_app, not_elem_of_app. split; [|by eapply F2].
    destruct Dz as (Z1 & Z2 & Z3). destruct (C2 _ _ Hz Z3) as (y & Hy & Y1 & Y2 & Y3).
    eapply F1; [done|]. split_and!; congruence.
Qed.

Lemma writes_to_disk_write bno d bc k :
  clean_mono k (set_k_bc bc (disk_write bno d k)) →
  (∀ i z, bc_buf bc !! i = Some z → ¬ dirty_for bno z) →
  writes_to [(bno, d)] k (set_k_bc bc (disk_write bno d k)).
Proof. intros Hc Hd. split; try done. intros b y n Hy Hn. cbn in *. rewrite list_elem_of_singleton. intros ->. by eapply Hd. Qed.

Lemma writes_to_log ws k k' : writes_to ws k k' → k_log k' = k_log k.
Proof. intros [E _ _ _ _]. by rewrite E. Qed.
Lemma writes_to_loop_log ws k k' : writes_to ws k k' → k_loop_log k' = k_loop_log k.
Proof. intros [E _ _ _ _]. by rewrite E. Qed.
Lemma writes_to_in_disk ws k k' bno : writes_to ws k k' → in_disk k bno → in_disk k' bno.
Proof. intros H. unfold in_disk. by rewrite (wt_disk _ _ _ H), apply_writes_length. Qed.

Lemma blk_Some k D H bno : store k D H → in_disk k bno → D !! Z.to_nat bno = Some (blk D bno).
Proof. intros Hs Hin. destruct (in_disk_lookup _ _ _ _ Hs Hin) as (d & Hd & _). unfold blk. by rewrite Hd. Qed.

(** A loop whose rounds each write one block. *)
Lemma wp_writes_loop (f : nat → K kernel unit) (w : nat → Z * list Z) k D l :
  (∀ l1 i l2 k', l = l1 ++ i :: l2 → writes_to (w <$> l1) k k' →
    store k' (apply_writes (w <$> l1) D) ∅ →
    wp (f i) [] (λ _ k'', writes_to [w i] k' k'' ∧
      store k'' (apply_writes [w i] (apply_writes (w <$> l1) D)) ∅) k') →
  store k D ∅ →
  wp (for_each l f) [] (λ _ k', writes_to (w <$> l) k k' ∧ store k' (apply_writes (w <$> l) D) ∅) k.
Proof.
  intros Hf Hs. eapply wp_mono.
  - apply (wp_for_each _ _ (λ rest k', ∃ l1, l = l1 ++ rest ∧ writes_to (w <$> l1) k k' ∧
      store k' (apply_writes (w <$> l1) D) ∅)).
    + intros i l2 k' (l1 & El & Hw & Hs'). eapply wp_mono; [by eapply Hf|].
      intros [] k'' [Hw' Hs'']. exists (l1 ++ [i]). rewrite fmap_app.
      split; [by rewrite <-(assoc_L (++))|]. split; [by eapply writes_to_trans|].
      by rewrite apply_writes_app.
    + exists []. split; [done|]. split; [|done]. apply writes_to_bc; [by destruct k|done].
  - intros [] k' (l1 & -> & H). by rewrite app_nil_r.
Qed.

(** ** Copying one block *)

(** What one round of [write_log] or [install_trans] does once it holds the
    two buffers. *)
Lemma copy_run k D H src dst bs bd d e :
  store k D H → H !! src = Some (ROOTDEV, bs, d) → H !! dst = Some (ROOTDEV, bd, e) →
  src ≠ dst → bs ≠ bd → D !! Z.to_nat bs = Some d →
  ∃ k', (x ← bdata src; set_bdata dst x;; bwrite dst;; brelse_k src;; brelse_k dst) k = Ret tt k' ∧
    writes_to [(bd, d)] k k' ∧
    store k' (apply_writes [(bd, d)] D) (delete dst (delete src H)).
Proof.
  intros Hs Hsrc Hdst Hne Hneb HD.
  destruct (store_held _ _ _ _ _ _ _ Hs Hsrc) as (x & _ & _ & _ & _ & _ & _ & _ & Hlen & Hroot).
  destruct (store_held _ _ _ _ _ _ _ Hs Hdst) as (y & _ & _ & _ & _ & _ & _ & _ & _ & Hrootd).
  destruct (Hroot eq_refl) as [Hin _], (Hrootd eq_refl) as [Hind _].
  rewrite (K_bind_Ret _ _ _ _ _ (bdata_store _ _ _ _ _ _ _ Hs Hsrc)).
  destruct (set_bdata_store _ _ _ _ _ _ _ d Hs Hdst Hlen) as (k1 & E1 & F1 & C1 & S1).
  rewrite (K_bind_Ret _ _ _ _ _ E1).
  destruct (bwrite_store _ _ _ dst bd d S1) as (bc & E2 & C2 & N2 & S2); [by simplify_map_eq|].
  rewrite (K_bind_Ret _ _ _ _ _ E2).
  destruct (brelse_store _ _ _ src ROOTDEV bs d S2) as (k3 & E3 & F3 & C3 & S3).
  { by simplify_map_eq. }
  { intros _. rewrite list_lookup_insert_ne; [done|]. unfold in_disk in *. lia. }
  rewrite (K_bind_Ret _ _ _ _ _ E3).
  destruct (brelse_store _ _ _ dst ROOTDEV bd d S3) as (k4 & E4 & F4 & C4 & S4).
  { by simplify_map_eq. }
  { intros _. apply list_lookup_insert_eq. rewrite (st_len _ _ _ Hs). unfold in_disk in *. lia. }
  exists k4. split; [done|]. split.
  - change [(bd, d)] with ([] ++ [(bd, d)] ++ [] ++ []).
    eapply writes_to_trans; [by apply writes_to_bc|].
    eapply writes_to_trans; [by apply writes_to_disk_write|].
    eapply writes_to_trans; by apply writes_to_bc.
  - rewrite delete_insert_ne, delete_insert_eq in S4 by done. done.
Qed.

(** Taking the buffers of a log block and of a home block. *)
Lemma two_breads_wp {A} (f : nat → nat → K kernel A) Q k D lb i home :
  store k D ∅ → root_dirty k → (length (logged (k_log k)) < NBUF)%nat →
  in_disk k lb → lh_block (log_lh (k_log k)) !! i = Some home → u32 home = home →
  home ∈ logged (k_log k) → lb ≠ home →
  (∀ b1 b2 k', b1 ≠ b2 → writes_to [] k k' →
    store k' D {[b1 := (ROOTDEV, lb, blk D lb); b2 := (ROOTDEV, home, blk D home)]} →
    wp (f b1 b2) [] Q k') →
  wp (b1 ← bread ROOTDEV lb; h ← log_block log_l i; b2 ← bread ROOTDEV (u32 h); f b1 b2) [] Q k.
Proof.
  intros Hs Hr Hlt Hlb Hi Eu Hhome Hne Hf.
  pose proof (st_logged _ _ _ Hs _ Hhome) as Hin.
  assert (length (filter (λ n, n ≠ home) (logged (k_log k))) < length (logged (k_log k)))%nat as Hlf.
  { apply list_elem_of_split in Hhome as (l1 & l2 & ->). rewrite filter_app, filter_cons_False by auto.
    rewrite !length_app. cbn. pose proof (length_filter (λ n, n ≠ home) l1).
    pose proof (length_filter (λ n, n ≠ home) l2). lia. }
  apply wp_bind. eapply wp_mono.
  { eapply (bread_store_gen [] k D ∅ lb (blk D lb)); [right|done|done|done|by eapply blk_Some].
    eapply room; try done. rewrite map_size_empty.
    pose proof (length_filter (λ n, n ≠ lb) (logged (k_log k))). lia. }
  intros b1 k1 (F1 & C1 & _ & S1). apply wp_bind, wp_Ret with home k1.
  { unfold log_block, log_of. erewrite K_bind_Ret by reflexivity. cbn. by rewrite F1; cbn; rewrite Hi. }
  rewrite Eu. apply wp_bind. eapply wp_mono.
  { eapply (bread_store_gen [] k1 D _ home (blk D home)); [right|done|..].
    - eapply room; [done|by eapply root_dirty_mono| |].
      + intros b h [[_ <-]|[_ ?]]%lookup_insert_Some; [done|]. by simplify_map_eq.
      + rewrite insert_empty, map_size_singleton, F1. cbn. lia.
    - intros b h [[_ <-]|[_ ?]]%lookup_insert_Some; [naive_solver|]. by simplify_map_eq.
    - by rewrite F1.
    - by apply (blk_Some _ _ _ _ Hs). }
  intros b2 k2 (F2 & C2 & Hn & S2). apply (Hf b1 b2).
  - intros ->. by simplify_map_eq.
  - change (@nil (Z * list Z)) with (@nil (Z * list Z) ++ []). eapply writes_to_trans; by apply writes_to_bc.
  - rewrite insert_insert_ne in S2; [by rewrite insert_empty in S2|]. intros ->. by simplify_map_eq.
Qed.

(** ** The phases of a commit *)

(** A log ready to be committed: the log area is on the disk, past the
    superblock, has room for the blocks of the log, and is not a home. *)
Record log_ready (k : kernel) : Prop := {
  lr_dev : log_dev (k_log k) = ROOTDEV;
  lr_start : 2 ≤ log_start (k_log k);
  lr_area : log_start (k_log k) + log_size (k_log k) ≤ Z.of_nat (length (k_disk k));
  lr_n : lh_n (log_lh (k_log k)) < log_size (k_log k);
  lr_nbuf : (length (logged (k_log k)) < NBUF)%nat;
  lr_home : ∀ n, n ∈ logged (k_log k) →
    ¬ log_start (k_log k) ≤ n < log_start (k_log k) + log_size (k_log k);
  lr_dirty : root_dirty k;
}.

Lemma writes_to_ready ws k k' : writes_to ws k k' → log_ready k → log_ready k'.
Proof.
  intros Hw [H1 H2 H3 H4 H5 H6 H7]. pose proof (writes_to_log _ _ _ Hw) as El.
  split; rewrite ?El; try done.
  - by rewrite (wt_disk _ _ _ Hw), apply_writes_length.
  - eapply root_dirty_mono; [apply Hw|done].
Qed.

(** Home of log block [i], and the block of the log it is copied to. *)
Definition home (l : logst) (i : nat) : Z := nth i (lh_block (log_lh l)) 0.
Definition log_slot (l : logst) (i : nat) : Z := log_start l + Z.of_nat i + 1.
Definition log_n (l : logst) : nat := Z.to_nat (lh_n (log_lh l)).

(** The writes of [write_log] and of [install_trans]: the contents [D] go to
    the log, and from the log to their homes. *)
Definition log_writes (l : logst) (D : list (list Z)) : list (Z * list Z) :=
  (λ i, (log_slot l i, blk D (home l i))) <$> seq 0 (log_n l).
Definition home_writes (l : logst) (D : list (list Z)) : list (Z * list Z) :=
  (λ i, (home l i, blk D (home l i))) <$> seq 0 (log_n l).

Definition install_writes (l : logst) (D : list (list Z)) : list (Z * list Z) :=
  (λ i, (home l i, blk D (log_slot l i))) <$> seq 0 (log_n l).

Lemma install_home_writes l D D0 :
  (∀ i, (i < log_n l)%nat → blk D (log_slot l i) = blk D0 (home l i)) →
  install_writes l D = home_writes l D0.
Proof.
  intros H. apply list_fmap_ext. intros n i Hi. apply lookup_seq in Hi as [-> Hi]. f_equal. by apply H.
Qed.

Lemma home_lookup l i : log_inv l → (i < log_n l)%nat →
  lh_block (log_lh l) !! i = Some (home l i) ∧ home l i ∈ logged l.
Proof.
  intros Hl Hi. pose proof (logged_length _ Hl) as Hlen. unfold log_n in Hi.
  destruct (lookup_lt_is_Some_2 (logged l) i) as [v Hv]; [lia|].
  assert (lh_block (log_lh l) !! i = Some v) as Hb by (by apply lookup_take_Some in Hv as [? _]).
  assert (home l i = v) as -> by (by apply nth_lookup_Some). split; [done|]. by eapply list_elem_of_lookup_2.
Qed.

Lemma log_slot_ok k D H i : store k D H → log_ready k → (i < log_n (k_log k))%nat →
  in_disk k (log_slot (k_log k) i) ∧ u32 (log_slot (k_log k) i) = log_slot (k_log k) i ∧
  log_start (k_log k) < log_slot (k_log k) i < log_start (k_log k) + log_size (k_log k).
Proof.
  intros Hs Hr Hi. pose proof (lr_start _ Hr). pose proof (lr_area _ Hr). pose proof (lr_n _ Hr).
  pose proof (st_small _ _ _ Hs). pose proof (li_n _ (st_log _ _ _ Hs)).
  unfold log_slot, log_n, in_disk in *. split; [lia|]. split; [apply u32_small; lia|lia].
Qed.

Lemma home_ok k D H i : store k D H → log_ready k → (i < log_n (k_log k))%nat →
  home (k_log k) i ∈ logged (k_log k) ∧ in_disk k (home (k_log k) i) ∧
  u32 (home (k_log k) i) = home (k_log k) i ∧
  ∀ j, (j < log_n (k_log k))%nat → log_slot (k_log k) j ≠ home (k_log k) i.
Proof.
  intros Hs Hr Hi. destruct (home_lookup _ _ (st_log _ _ _ Hs) Hi) as [_ Hh].
  pose proof (st_logged _ _ _ Hs _ Hh) as Hin. pose proof (st_small _ _ _ Hs).
  split_and!; [done|done|apply u32_small; unfold in_disk in *; lia|].
  intros j Hj E. destruct (log_slot_ok _ _ _ _ Hs Hr Hj) as (_ & _ & ?).
  apply (lr_home _ Hr _ Hh). lia.
Qed.

Lemma write_log_block_wp k D i :
  store k D ∅ → log_ready k → (i < log_n (k_log k))%nat →
  wp (write_log_block log_l i) [] (λ _ k',
    writes_to [(log_slot (k_log k) i, blk D (home (k_log k) i))] k k' ∧
    store k' (apply_writes [(log_slot (k_log k) i, blk D (home (k_log k) i))] D) ∅) k.
Proof.
  intros Hs Hr Hi. destruct (home_ok _ _ _ _ Hs Hr Hi) as (Hh & Hin & Eh & Hne).
  destruct (log_slot_ok _ _ _ _ Hs Hr Hi) as (Hsl & Esl & _). specialize (Hne _ Hi).
  unfold write_log_block. apply wp_bind, wp_gets. cbn [lget log_l].
  fold (log_slot (k_log k) i). rewrite Esl, (lr_dev _ Hr).
  eapply (two_breads_wp _ _ k D); [done|apply Hr|apply Hr|done|apply home_lookup; [apply Hs|done]|done..|].
  intros b1 b2 k1 Hb Hw Hs1.
  destruct (copy_run k1 D _ b2 b1 (home (k_log k) i) (log_slot (k_log k) i) (blk D (home (k_log k) i))
    (blk D (log_slot (k_log k) i)) Hs1) as (k' & E & Hw' & Hs'); try by simplify_map_eq.
  { by apply (blk_Some _ _ _ _ Hs). }
  eapply wp_Ret; [exact E|]. split; [by apply (writes_to_trans [] _ _ _ _ Hw Hw')|].
  by rewrite delete_insert_ne, delete_singleton_eq, delete_insert_id in Hs' by done.
Qed.

Lemma install_block_wp k D i :
  store k D ∅ → log_ready k → (i < log_n (k_log k))%nat →
  wp (install_block log_l i) [] (λ _ k',
    writes_to [(home (k_log k) i, blk D (log_slot (k_log k) i))] k k' ∧
    store k' (apply_writes [(home (k_log k) i, blk D (log_slot (k_log k) i))] D) ∅) k.
Proof.
  intros Hs Hr Hi. destruct (home_ok _ _ _ _ Hs Hr Hi) as (Hh & Hin & Eh & Hne).
  destruct (log_slot_ok _ _ _ _ Hs Hr Hi) as (Hsl & Esl & _). specialize (Hne _ Hi).
  unfold install_block. apply wp_bind, wp_gets. cbn [lget log_l].
  fold (log_slot (k_log k) i). rewrite Esl, (lr_dev _ Hr).
  eapply (two_breads_wp _ _ k D); [done|apply Hr|apply Hr|done|apply home_lookup; [apply Hs|done]|done..|].
  intros b1 b2 k1 Hb Hw Hs1.
  destruct (copy_run k1 D _ b1 b2 (log_slot (k_log k) i) (home (k_log k) i) (blk D (log_slot (k_log k) i))
    (blk D (home (k_log k) i)) Hs1) as (k' & E & Hw' & Hs'); try by simplify_map_eq.
  { by apply (blk_Some _ _ _ _ Hs). }
  eapply wp_Ret; [exact E|]. split; [by apply (writes_to_trans [] _ _ _ _ Hw Hw')|].
  by rewrite delete_insert_id, delete_singleton_eq in Hs' by (by simplify_map_eq).
Qed.

Lemma seq_split_lt n (l1 : list nat) i l2 : seq 0 n = l1 ++ i :: l2 →
  (i < n)%nat ∧ Forall (λ j, j < n)%nat l1.
Proof.
  intros E. assert (∀ j, j ∈ l1 ++ i :: l2 → (j < n)%nat) as Hj.
  { intros j. rewrite <-E, elem_of_seq. lia. }
  split; [apply Hj; set_solver|]. apply Forall_forall. intros j Hl. apply Hj. set_solver.
Qed.

Lemma blk_apply_other ws D bno :
  Forall (λ w, 0 ≤ w.1 ∧ w.1 ≠ bno) ws → 0 ≤ bno → blk (apply_writes ws D) bno = blk D bno.
Proof.
  intros Hw Hb. unfold blk. rewrite apply_writes_other; [done|].
  rewrite list_elem_of_fmap. intros (w & E & Hin). rewrite Forall_forall in Hw.
  destruct (Hw _ Hin). lia.
Qed.

Lemma write_log_wp k D :
  store k D ∅ → log_ready k →
  wp write_log [] (λ _ k', writes_to (log_writes (k_log k) D) k k' ∧
    store k' (apply_writes (log_writes (k_log k) D) D) ∅) k.
Proof.
  intros Hs Hr. unfold write_log, write_log_of. apply wp_bind, wp_gets.
  apply wp_writes_loop; [|done]. cbn [lget log_l]. fold (log_n (k_log k)).
  intros l1 i l2 k' El Hw Hs'. apply seq_split_lt in El as [Hi Hl1].
  pose proof (writes_to_log _ _ _ Hw) as Elog.
  pose proof (write_log_block_wp k' _ i Hs' (writes_to_ready _ _ _ Hw Hr)) as H.
  rewrite Elog in H. rewrite blk_apply_other in H; [by apply H| |].
  - apply Forall_fmap, (Forall_impl _ _ _ Hl1). intros j Hj. cbn.
    destruct (log_slot_ok _ _ _ _ Hs Hr Hj) as (? & _). split; [unfold in_disk in *; lia|].
    by apply (home_ok _ _ _ _ Hs Hr Hi).
  - destruct (home_ok _ _ _ _ Hs Hr Hi) as (_ & ? & _). unfold in_disk in *. lia.
Qed.

Lemma install_trans_wp k D :
  store k D ∅ → log_ready k →
  wp install_trans [] (λ _ k', writes_to (install_writes (k_log k) D) k k' ∧
    store k' (apply_writes (install_writes (k_log k) D) D) ∅) k.
Proof.
  intros Hs Hr. unfold install_trans, install_trans_of. apply wp_bind, wp_gets.
  apply wp_writes_loop; [|done]. cbn [lget log_l]. fold (log_n (k_log k)).
  intros l1 i l2 k' El Hw Hs'. apply seq_split_lt in El as [Hi Hl1].
  pose proof (writes_to_log _ _ _ Hw) as Elog.
  pose proof (install_block_wp k' _ i Hs' (writes_to_ready _ _ _ Hw Hr)) as H.
  rewrite Elog in H. rewrite blk_apply_other in H; [by apply H| |].
  - apply Forall_fmap, (Forall_impl _ _ _ Hl1). intros j Hj. cbn.
    destruct (home_ok _ _ _ _ Hs Hr Hj) as (_ & ? & _ & Hne). split; [unfold in_disk in *; lia|].
    intros E. by apply (Hne i).
  - destruct (log_slot_ok _ _ _ _ Hs Hr Hi) as (? & _). unfold in_disk in *. lia.
Qed.

Lemma put_blocks_length d i bs : length (put_blocks d i bs) = length d.
Proof.
  revert d i. induction bs as [|v bs IH]; intros d i; [done|]. cbn [put_blocks]. by rewrite IH, set_word_length.
Qed.
Lemma put_header_length d lh : length (put_header d lh) = length d.
Proof. unfold put_header. by rewrite put_blocks_length, set_word_length. Qed.

Lemma log_start_ok k D H : store k D H → log_ready k →
  in_disk k (log_start (k_log k)) ∧ u32 (log_start (k_log k)) = log_start (k_log k).
Proof.
  intros Hs Hr. pose proof (lr_start _ Hr). pose proof (lr_area _ Hr). pose proof (lr_n _ Hr).
  pose proof (st_small _ _ _ Hs). pose proof (li_n _ (st_log _ _ _ Hs)).
  unfold in_disk in *. split; [lia|]. apply u32_small. lia.
Qed.

Lemma write_head_wp k D :
  store k D ∅ → log_ready k →
  let w := (log_start (k_log k), put_header (blk D (log_start (k_log k))) (log_lh (k_log k))) in
  wp write_head [] (λ _ k', writes_to [w] k k' ∧ store k' (apply_writes [w] D) ∅) k.
Proof.
  intros Hs Hr. destruct (log_start_ok _ _ _ Hs Hr) as [Hin Eu].
  unfold write_head, write_head_of. apply wp_bind, wp_gets. cbn [lget log_l].
  rewrite (lr_dev _ Hr), Eu. apply wp_bind.
  eapply wp_mono; [apply (bread_ret _ D); [done|apply Hr|apply Hr|done]|].
  intros b k1 (F1 & C1 & S1). fold (blk D (log_start (k_log k))) in S1.
  wp_step (bdata_store _ _ _ b _ _ _ S1 (lookup_singleton_eq b _)).
  destruct (in_disk_lookup _ _ _ _ Hs Hin) as (d & Hd & Hlen).
  assert (blk D (log_start (k_log k)) = d) as Eb by (unfold blk; by rewrite Hd).
  rewrite Eb in S1 |- *.
  destruct (set_bdata_store _ _ _ b _ _ _ (put_header d (log_lh (k_log k))) S1 (lookup_singleton_eq b _))
    as (k2 & E2 & F2 & C2 & S2); [by rewrite put_header_length|].
  wp_step E2. rewrite insert_singleton_eq in S2.
  destruct (bwrite_store _ _ _ b _ _ S2 (lookup_singleton_eq b _)) as (bc & E3 & C3 & N3 & S3).
  wp_step E3. destruct (brelse_store _ _ _ b _ _ _ S3 (lookup_singleton_eq b _)) as (k4 & E4 & F4 & C4 & S4).
  { intros _. apply list_lookup_insert_eq. rewrite (st_len _ _ _ Hs). unfold in_disk in *. lia. }
  eapply wp_Ret; [exact E4|]. rewrite delete_singleton_eq in S4. split; [|done].
  refine (writes_to_trans [] [_] _ _ _ (writes_to_bc _ _ F1 C1) _).
  refine (writes_to_trans [] [_] _ _ _ (writes_to_bc _ _ F2 C2) _).
  refine (writes_to_trans [_] [] _ _ _ (writes_to_disk_write _ _ _ _ C3 N3) _).
  by apply writes_to_bc.
Qed.

(** ** A whole commit *)

(** The header block [write_head] writes over the header [h]. *)
Definition new_header (l : logst) (D : list (list Z)) : list Z :=
  put_header (blk D (log_start l)) (log_lh l).

(** What a commit of the contents [D] writes, in order. *)
Definition commit_writes (l : logst) (D : list (list Z)) : list (Z * list Z) :=
  if 0 <? lh_n (log_lh l) then
    log_writes l D ++ [(log_start l, new_header l D)] ++ home_writes l D ++
    [(log_start l, put_header (new_header l D) (log_lh l))]
  else [].

(** [log.lh.n = 0; loop_log.lh.n = 0;] *)
Definition clear_logs (k : kernel) : kernel :=
  let clear l := set_log_lh (set_lh_n 0 (log_lh l)) l in
  set_k_loop_log (clear (k_loop_log k)) (set_k_log (clear (k_log k)) k).

Lemma blk_insert D bno d : 0 ≤ bno < Z.of_nat (length D) → blk (<[Z.to_nat bno:=d]> D) bno = d.
Proof. intros. unfold blk. by rewrite list_lookup_insert_eq by lia. Qed.

Lemma writes_ok k D : store k D ∅ → log_ready k →
  Forall (λ w, 0 ≤ w.1 ∧ w.1 ≠ log_start (k_log k)) (log_writes (k_log k) D) ∧
  Forall (λ w, 0 ≤ w.1 ∧ w.1 ≠ log_start (k_log k)) (home_writes (k_log k) D).
Proof.
  intros Hs Hr. split; apply Forall_fmap, Forall_forall; intros i Hi;
    apply elem_of_seq in Hi as [_ Hi]; cbn.
  - destruct (log_slot_ok _ _ _ i Hs Hr Hi) as (? & _ & ?). unfold in_disk in *. lia.
  - destruct (home_ok _ _ _ i Hs Hr Hi) as (Hh & ? & _). pose proof (lr_home _ Hr _ Hh).
    pose proof (lr_n _ Hr). pose proof (li_n _ (st_log _ _ _ Hs)). unfold in_disk in *. lia.
Qed.

Lemma blk_log_writes k D X i : store k D ∅ → log_ready k → (i < log_n (k_log k))%nat →
  length X = length D →
  blk (apply_writes (log_writes (k_log k) D) X) (log_slot (k_log k) i) = blk D (home (k_log k) i).
Proof.
  intros Hs Hr Hi HX. unfold log_writes. assert (seq 0 (log_n (k_log k)) =
    seq 0 i ++ i :: seq (S i) (log_n (k_log k) - S i)) as ->.
  { change (i :: seq (S i) (log_n (k_log k) - S i)) with (seq (0 + i) (S (log_n (k_log k) - S i))).
    rewrite <-seq_app. f_equal. lia. }
  rewrite fmap_app, fmap_cons, apply_writes_app, apply_writes_cons.
  rewrite blk_apply_other.
  - destruct (log_slot_ok _ _ _ i Hs Hr Hi) as (Hin & _). cbn. apply blk_insert.
    rewrite apply_writes_length, HX, (st_len _ _ _ Hs). done.
  - apply Forall_fmap, Forall_forall. intros j [Hj1 Hj2]%elem_of_seq. cbn.
    pose proof (lr_start _ Hr). unfold log_slot. lia.
  - pose proof (lr_start _ Hr). unfold log_slot. lia.
Qed.

(** The four phases, when the log names some blocks. *)
Lemma commit_phases_wp k D :
  store k D ∅ → log_ready k → 0 < lh_n (log_lh (k_log k)) →
  wp (write_log;; write_head;; install_trans;; write_head) [] (λ _ k',
    writes_to (commit_writes (k_log k) D) k k' ∧
    store k' (apply_writes (commit_writes (k_log k) D) D) ∅) k.
Proof.
  intros Hs Hr Hn. destruct (writes_ok _ _ Hs Hr) as [W1 W3]. pose proof (lr_start _ Hr) as Hst.
  unfold commit_writes. rewrite (proj2 (Z.ltb_lt _ _)) by done. set (l := k_log k) in *.
  apply wp_bind. eapply wp_mono; [by apply write_log_wp|]. intros [] k1 [Hw1 S1]. fold l in Hw1, S1.
  pose proof (writes_to_ready _ _ _ Hw1 Hr) as R1. pose proof (writes_to_log _ _ _ Hw1) as L1. fold l in L1.
  destruct (log_start_ok _ _ _ Hs Hr) as [Hin _]. fold l in Hin. unfold in_disk in Hin.
  apply wp_bind. eapply wp_mono; [by apply write_head_wp|]. rewrite L1.
  rewrite blk_apply_other by (done || lia). fold (new_header l D).
  intros [] k2 [Hw2 S2]. pose proof (writes_to_ready _ _ _ Hw2 R1) as R2.
  pose proof (writes_to_log _ _ _ Hw2) as L2. rewrite L1 in L2.
  apply wp_bind. eapply wp_mono; [by eapply (install_trans_wp k2)|].
  rewrite L2, (install_home_writes _ _ D).
  2:{ intros i Hi. rewrite blk_apply_other.
    - by apply blk_log_writes.
    - apply Forall_singleton. cbn. unfold log_slot. lia.
    - unfold log_slot. lia. }
  intros [] k3 [Hw3 S3]. pose proof (writes_to_ready _ _ _ Hw3 R2) as R3.
  pose proof (writes_to_log _ _ _ Hw3) as L3. rewrite L2 in L3.
  eapply wp_mono; [by apply write_head_wp|]. rewrite L3.
  rewrite blk_apply_other by (done || lia). cbn [apply_writes foldl fst snd].
  rewrite blk_insert by (rewrite apply_writes_length, (st_len _ _ _ Hs); lia).
  intros [] k4 [Hw4 S4]. split.
  - repeat (eapply writes_to_trans; [done|]). done.
  - by rewrite !apply_writes_app.
Qed.

Lemma store_no_dirty k D H :
  store k D H → (∀ b x bno, bc_buf (k_bc k) !! b = Some x → ¬ dirty_for bno x) → D = k_disk k.
Proof. intros Hs Hd. apply list_eq. intros n. apply (st_clean _ _ _ Hs). intros b x Hx. by eapply Hd. Qed.

Lemma store_clear k D H :
  store k D H → (∀ b x bno, bc_buf (k_bc k) !! b = Some x → ¬ dirty_for bno x) → store (clear_logs k) D H.
Proof.
  intros [S1 L1 L2 L3 L4 S2 S3 S4 S5 S6 S7] Hd. destruct L1 as [A1 A2 A3 A4]. split; try done.
  - split; try done. cbn. apply NoDup_nil_2.
  - cbn. set_solver.
  - intros b x bno Hx Hdx. by destruct (Hd b x bno Hx).
Qed.

Lemma commit_flushes k k' D :
  store k D ∅ → log_ready k → writes_to (commit_writes (k_log k) D) k k' →
  ∀ b x bno, bc_buf (k_bc k') !! b = Some x → ¬ dirty_for bno x.
Proof.
  intros Hs Hr Hw b x bno Hx Hd. pose proof (wt_flushed _ _ _ Hw _ _ _ Hx Hd) as Hno.
  destruct Hd as (D1 & D2 & D3). destruct (wt_clean _ _ _ Hw _ _ Hx D3) as (y & Hy & Y1 & Y2 & Y3).
  assert (bno ∈ logged (k_log k)) as Hl by (eapply (st_dirty _ _ _ Hs); [done|split_and!; congruence]).
  apply Hno. apply list_elem_of_lookup in Hl as [i Hi]. pose proof (lookup_lt_Some _ _ _ Hi) as Hlt.
  rewrite (logged_length _ (st_log _ _ _ Hs)) in Hlt. unfold commit_writes.
  rewrite (proj2 (Z.ltb_lt _ _)) by lia. rewrite !fmap_app, !elem_of_app. right; right; left.
  unfold home_writes. rewrite <-list_fmap_compose. apply list_elem_of_fmap. exists i.
  split; [|apply elem_of_seq; unfold log_n; lia]. cbn. symmetry. apply nth_lookup_Some.
  by apply lookup_take_Some in Hi as [? _].
Qed.

(** No loop device takes part in the transaction. *)
Definition loop_idle (k : kernel) : Prop :=
  k_is_loop_mounted k && (0 <? lh_n (log_lh (k_loop_log k))) = false.

Lemma commit_wp k D :
  store k D ∅ → log_ready k → loop_idle k →
  wp commit [] (λ _ k', ∃ k1,
    writes_to (commit_writes (k_log k) D) k k1 ∧ k' = clear_logs k1 ∧
    k_disk k' = apply_writes (commit_writes (k_log k) D) D ∧ store k' (k_disk k') ∅) k.
Proof.
  intros Hs Hr Hl. unfold commit. apply wp_bind, wp_gets, wp_bind, wp_gets.
  cbn [lget loop_log_l log_l]. unfold loop_idle in Hl. rewrite Hl.
  apply wp_bind, wp_ret, wp_bind, wp_gets, wp_bind, wp_gets, wp_bind, wp_gets.
  cbn [lget loop_log_l log_l]. rewrite Hl. cbn [andb].
  apply wp_bind. apply wp_mono with (λ _ k1, writes_to (commit_writes (k_log k) D) k k1 ∧
    store k1 (apply_writes (commit_writes (k_log k) D) D) ∅).
  { destruct (Z.ltb_spec 0 (lh_n (log_lh (k_log k)))) as [Hn|Hn]; [by apply commit_phases_wp|].
    apply wp_ret. unfold commit_writes. rewrite (proj2 (Z.ltb_ge _ _)) by done.
    split; [|done]. apply writes_to_bc; [by destruct k|done]. }
  intros [] k1 [Hw S1]. apply wp_bind, wp_modify, wp_modify.
  pose proof (commit_flushes _ _ _ Hs Hr Hw) as Hno. pose proof (store_no_dirty _ _ _ S1 Hno) as HD.
  exists k1. split_and!; [done|by destruct k1|by cbn|]. cbn. rewrite <-HD. by apply store_clear.
Qed.

End commit.
