(* ===== verification/Crash.v ===== *)
(** * Crash: recovery and the atomicity of a commit

    [initlog] of log.c on a disk found at boot, and crashes: a disk that
    received the first writes of a commit is recovered to the state before or
    after the transaction, when the log on the disk was empty.  It is not
    empty after a commit: the header stays, and a crash in the next commit
    replays new log blocks to the homes of the old header. *)

From Stdlib Require Import ZArith Lia.
From stdpp Require Import base numbers strings gmap list.
From S2P Require Import Prelude Kernel Sleeplock Bio Log Store Commit.
Open Scope Z_scope.

(** ** The header block *)

Lemma word_put_blocks d i bs j :
  (4 * (i + length bs) + 4 ≤ length d)%nat →
  word (put_blocks d i bs) j =
  match (if decide (i < j)%nat then bs !! (j - S i)%nat else None) with
  | Some v => u32 v
  | None => word d j
  end.
Proof.
  revert d i. induction bs as [|v bs IH]; intros d i Hl; cbn [put_blocks].
  { case_decide; [|done]. by rewrite lookup_nil. }
  cbn in Hl. rewrite IH by (rewrite set_word_length; lia).
  destruct (decide (S i < j)%nat).
  - rewrite decide_True by lia. replace (j - S i)%nat with (S (j - S (S i)))%nat by lia. cbn.
    destruct (bs !! _); [done|]. apply word_set_ne. lia.
  - case_decide.
    + assert (j = S i) as -> by lia. rewrite Nat.sub_diag. cbn. apply word_set_eq. lia.
    + apply word_set_ne. lia.
Qed.

Lemma put_header_fields d lh :
  length d = Z.to_nat BSIZE → 0 ≤ lh_n lh ≤ LOGSIZE →
  hdr_n (put_header d lh) = lh_n lh ∧
  ∀ i v, (i < Z.to_nat (lh_n lh))%nat → lh_block lh !! i = Some v → 0 ≤ v < 2 ^ 31 →
    hdr_block (put_header d lh) i = v.
Proof.
  intros Hd Hn. unfold LOGSIZE, MAXOPBLOCKS, BSIZE in *.
  assert (4 * (0 + length (take (Z.to_nat (lh_n lh)) (lh_block lh))) + 4
    ≤ length (set_word d 0 (lh_n lh)))%nat as Hl.
  { rewrite set_word_length, length_take, Hd. lia. }
  unfold hdr_n, hdr_block, put_header. split.
  - rewrite word_put_blocks by done. rewrite decide_False by lia.
    rewrite word_set_eq, s32_u32, s32_small by (rewrite ?Hd; lia). done.
  - intros i v Hi Hv Hr. rewrite word_put_blocks by done. rewrite decide_True by lia.
    replace (S i - 1)%nat with i by lia. rewrite lookup_take_lt, Hv by done.
    by rewrite s32_u32, s32_small by lia.
Qed.

(** ** Recovery *)

(** The superblock gives the log area. *)
Record layout_ok (start size : Z) (disk : list (list Z)) : Prop := {
  ly_start : 2 ≤ start;
  ly_size : 0 < size;
  ly_area : start + size ≤ Z.of_nat (length disk);
  ly_len : Z.of_nat (length disk) < 2 ^ 31;
  ly_blocks : Forall (λ d, length d = Z.to_nat BSIZE) disk;
  ly_sb_start : sb_logstart (parse_sb (blk disk 1)) = start;
  ly_sb_size : sb_nlog (parse_sb (blk disk 1)) = size;
}.

(** The homes the header [h] names. *)
Definition hdr_homes (h : list Z) : list Z := hdr_block h <$> seq 0 (Z.to_nat (hdr_n h)).

(** A header that [write_head] or [mkfs] left. *)
Record header_ok (start size : Z) (disk : list (list Z)) : Prop := {
  ho_n : 0 ≤ hdr_n (blk disk start) < size;
  ho_max : hdr_n (blk disk start) < Z.of_nat NBUF;
  ho_home : ∀ n, n ∈ hdr_homes (blk disk start) →
    0 ≤ n < Z.of_nat (length disk) ∧ ¬ start ≤ n < start + size;
  ho_nodup : NoDup (hdr_homes (blk disk start));
}.

(** The disk after recovery: the blocks of the log at their homes, and an
    empty header. *)
Definition recovery_writes (start : Z) (disk : list (list Z)) : list (Z * list Z) :=
  (λ i, (hdr_block (blk disk start) i, blk disk (start + Z.of_nat i + 1))) <$>
    seq 0 (Z.to_nat (hdr_n (blk disk start))).
Definition recovered (start : Z) (disk : list (list Z)) : list (list Z) :=
  <[Z.to_nat start := set_word (blk disk start) 0 0]>
    (apply_writes (recovery_writes start disk) disk).

Section recovery.
Context {CP : CurProc} {LO : LoopOps}.

Lemma store_set_log k D H l :
  store k D H → log_inv l → (∀ n, n ∈ logged l → in_disk k n) →
  (∀ b x bno, bc_buf (k_bc k) !! b = Some x → ¬ dirty_for bno x) → store (set_k_log l k) D H.
Proof.
  intros [S1 L1 L2 L3 L4 S2 S3 S4 S5 S6 S7] Hl Hi Hd. split; try done.
  intros b x bno Hx Hdx. by destruct (Hd b x bno Hx).
Qed.

(** The loop of [read_head]. *)
Lemma read_blocks_run (f : nat → Z) m i k :
  (i + m ≤ length (lh_block (log_lh (k_log k))))%nat →
  ∃ bl, for_each (seq i m) (λ j, set_log_block log_l j (f j)) k =
      Ret tt (set_k_log (set_log_lh (set_lh_block bl (log_lh (k_log k))) (k_log k)) k) ∧
    length bl = length (lh_block (log_lh (k_log k))) ∧
    (∀ j, bl !! j = if decide (i ≤ j < i + m)%nat then Some (f j) else lh_block (log_lh (k_log k)) !! j).
Proof.
  revert i k. induction m as [|m IH]; intros i k Hl.
  { exists (lh_block (log_lh (k_log k))). split; [by destruct k as [? ? [? ? ? ? ? ? []]]|].
    split; [done|]. intros j. by rewrite decide_False by lia. }
  cbn [seq for_each]. destruct (lookup_lt_is_Some_2 (lh_block (log_lh (k_log k))) i) as [v Hv]; [lia|].
  erewrite K_bind_Ret; [|unfold set_log_block; cbn; by rewrite Hv].
  match goal with |- context [for_each _ _ ?k1] => destruct (IH (S i) k1) as (bl & E & Hlen & Hbl) end.
  { cbn. rewrite length_insert. lia. }
  exists bl. split; [rewrite E; f_equal; by destruct k as [? ? []]|]. cbn in Hlen, Hbl.
  rewrite length_insert in Hlen. split; [done|]. intros j. rewrite Hbl.
  case_decide; [by rewrite decide_True by lia|].
  destruct (decide (i = j)) as [<-|].
  - rewrite decide_True by lia. apply list_lookup_insert_eq. lia.
  - rewrite list_lookup_insert_ne by done. by rewrite decide_False by lia.
Qed.

Definition no_dirty (k : kernel) : Prop := ∀ b x,
  bc_buf (k_bc k) !! b = Some x → b_flags x ≠ Z.lor B_VALID B_DIRTY.

Lemma no_dirty_mono k k' : clean_mono k k' → no_dirty k → no_dirty k'.
Proof. intros Hm Hn b y Hy Fy. destruct (Hm _ _ Hy Fy) as (x & Hx & Fx & _). by eapply Hn. Qed.
Lemma no_dirty_root k : no_dirty k → root_dirty k.
Proof. intros Hn b x Hx Fx. by destruct (Hn b x). Qed.
Lemma no_dirty_for k : no_dirty k → ∀ b x bno, bc_buf (k_bc k) !! b = Some x → ¬ dirty_for bno x.
Proof. intros Hn b x bno Hx (_ & _ & Fx). by destruct (Hn b x). Qed.

Lemma hdr_logged n bl l h :
  n = hdr_n h → 0 ≤ n → length bl = Z.to_nat LOGSIZE → n ≤ LOGSIZE →
  (∀ i, (i < Z.to_nat n)%nat → bl !! i = Some (hdr_block h i)) →
  logged (set_log_lh (LogHeader n bl) l) = hdr_homes h.
Proof.
  intros -> Hn Hl Hle Hbl. unfold logged, hdr_homes. cbn. apply list_eq. intros i.
  rewrite lookup_take, list_lookup_fmap. case_decide as Hi.
  - rewrite Hbl by done. by rewrite lookup_seq_lt by lia.
  - by rewrite lookup_seq_ge by lia.
Qed.

Lemma read_head_wp k disk start size :
  store k disk ∅ → no_dirty k → layout_ok start size disk → header_ok start size disk →
  log_dev (k_log k) = ROOTDEV → log_start (k_log k) = start → logged (k_log k) = [] → size ≤ LOGSIZE →
  wp read_head [] (λ _ k', ∃ bl, let l := set_log_lh (LogHeader (hdr_n (blk disk start)) bl) (k_log k) in
    k' = set_k_bc (k_bc k') (set_k_log l k) ∧ logged l = hdr_homes (blk disk start) ∧
    no_dirty k' ∧ store k' disk ∅) k.
Proof.
  intros Hs Hn [Y1 Y2 Y3 Y4 Y5 _ _] [O1 O2 O3 O4] Hdev Hst Hlg Hsz.
  assert (in_disk k start) as Hin by (unfold in_disk; rewrite <-(st_len _ _ _ Hs); lia).
  unfold read_head. apply wp_bind, wp_gets. cbn [lget log_l]. rewrite Hdev, Hst, u32_small by lia.
  apply wp_bind. eapply wp_mono; [eapply (bread_ret _ disk); try done|].
  { by apply no_dirty_root. } { rewrite Hlg. cbn. unfold NBUF. lia. }
  intros b k1 (F1 & C1 & S1). fold (blk disk start) in S1. set (h := blk disk start) in *.
  wp_step (bdata_store _ _ _ b _ _ _ S1 (lookup_singleton_eq b _)).
  apply wp_bind, wp_modify. pose proof (li_len _ (st_log _ _ _ S1)) as Hlen.
  assert (hdr_n h ≤ LOGSIZE) as Hle by lia.
  match goal with |- wp _ _ _ ?s => destruct (read_blocks_run (hdr_block h) (Z.to_nat (hdr_n h)) 0 s)
    as (bl & E & Hbl & Hv) end.
  { cbn. rewrite Hlen. lia. }
  cbn in Hbl. rewrite Hlen in Hbl. wp_step E. clear E. cbn.
  set (l := set_log_lh (LogHeader (hdr_n h) bl) (k_log k)).
  assert (logged l = hdr_homes h) as El.
  { apply hdr_logged; try done; [lia|]. intros i Hi. rewrite Hv. by rewrite decide_True by lia. }
  assert (k_log k1 = k_log k) as Ek by (by rewrite F1).
  match goal with |- wp _ _ _ ?s => assert (s = set_k_log l k1) as ->
    by (unfold l; rewrite <-Ek; destruct k1 as [? ? [? ? ? ? ? ? []]]; done) end.
  assert (store (set_k_log l k1) disk {[b := (ROOTDEV, start, h)]}) as S2.
  { apply store_set_log; [done| | |by apply no_dirty_for; eapply no_dirty_mono].
    - split; [|cbn; lia|done|by rewrite El]. cbn. rewrite <-Ek. apply (st_log _ _ _ S1).
    - intros n. rewrite El. intros Hn'%O3. unfold in_disk. cbn. rewrite <-(st_len _ _ _ S1). lia. }
  destruct (brelse_store _ _ _ b _ _ _ S2 (lookup_singleton_eq b _)) as (k2 & E2 & F2 & C2 & S3).
  { intros _. by apply (blk_Some _ _ _ _ Hs). }
  eapply wp_Ret; [exact E2|]. exists bl. rewrite delete_singleton_eq in S3. split_and!; try done.
  - rewrite F2, F1. by destruct k.
  - eapply (no_dirty_mono (set_k_log l k1)); [done|]. exact (no_dirty_mono _ _ C1 Hn).
Qed.

Lemma logged_zero l lh : logged (set_log_lh (set_lh_n 0 lh) l) = [].
Proof. done. Qed.

Lemma recovery_install start disk bl l :
  log_start l = start → 0 ≤ hdr_n (blk disk start) →
  (∀ i, (i < Z.to_nat (hdr_n (blk disk start)))%nat → bl !! i = Some (hdr_block (blk disk start) i)) →
  install_writes (set_log_lh (LogHeader (hdr_n (blk disk start)) bl) l) disk = recovery_writes start disk.
Proof.
  intros <- Hn Hbl. apply list_fmap_ext. intros m i Hi. apply lookup_seq in Hi as [-> Hi].
  unfold home, log_slot. cbn. f_equal. apply nth_lookup_Some. by apply Hbl.
Qed.

(** What recovery leaves. *)
Record recovered_state (start size : Z) (disk : list (list Z)) (k' : kernel) : Prop := {
  rs_disk : k_disk k' = recovered start disk;
  rs_store : store k' (k_disk k') ∅;
  rs_dirty : no_dirty k';
  rs_ready : log_ready k';
  rs_start : log_start (k_log k') = start;
  rs_size : log_size (k_log k') = size;
  rs_n : lh_n (log_lh (k_log k')) = 0;
}.

Lemma hdr_homes_length h : length (hdr_homes h) = Z.to_nat (hdr_n h).
Proof. unfold hdr_homes. by rewrite length_fmap, length_seq. Qed.

Lemma logged_blocks l h bl : logged (set_log_lh (LogHeader (hdr_n h) bl) l) = hdr_homes h →
  ∀ i, (i < Z.to_nat (hdr_n h))%nat → bl !! i = Some (hdr_block h i).
Proof.
  intros El i Hi. assert (logged (set_log_lh (LogHeader (hdr_n h) bl) l) !! i = Some (hdr_block h i)) as H.
  { rewrite El. unfold hdr_homes. by rewrite list_lookup_fmap, lookup_seq_lt. }
  by apply lookup_take_Some in H as [? _].
Qed.

Lemma recovery_writes_ok start size disk :
  0 ≤ start → 0 < size → header_ok start size disk →
  Forall (λ w, 0 ≤ w.1 ∧ w.1 ≠ start) (recovery_writes start disk).
Proof.
  intros Hst Hsz [_ _ O3 _]. apply Forall_fmap, Forall_forall. intros i [_ Hi]%elem_of_seq. cbn.
  destruct (O3 (hdr_block (blk disk start) i)); [|lia].
  apply list_elem_of_fmap. exists i. split; [done|]. apply elem_of_seq. lia.
Qed.

Lemma log_ready_clear k : log_ready k → 0 < log_size (k_log k) → log_ready (clear_logs k).
Proof.
  intros [H1 H2 H3 H4 H5 H6 H7] Hsz.
  split; try done; unfold clear_logs; cbn [k_log set_k_loop_log set_k_log]; rewrite ?logged_zero.
  - cbn. unfold NBUF. lia.
  - set_solver.
Qed.

Lemma recover_from_log_wp k disk start size :
  store k disk ∅ → no_dirty k → layout_ok start size disk → header_ok start size disk →
  log_dev (k_log k) = ROOTDEV → log_start (k_log k) = start → log_size (k_log k) = size →
  logged (k_log k) = [] → size ≤ LOGSIZE →
  wp recover_from_log [] (λ _, recovered_state start size disk) k.
Proof.
  intros Hs Hn Hly Hho Hdev Hst Hsz Hlg Hmax. pose proof Hho as [O1 O2 O3 O4]. pose proof Hly as [Y1 Y2 Y3 Y4 _ _ _].
  unfold recover_from_log. apply wp_bind. eapply wp_mono; [by eapply read_head_wp|].
  intros [] k1 (bl & F1 & El & N1 & S1). set (h := blk disk start) in *.
  set (l := set_log_lh (LogHeader (hdr_n h) bl) (k_log k)) in *.
  assert (k_log k1 = l) as Ek by (by rewrite F1).
  assert (length (k_disk k1) = length disk) as Edl by (by rewrite (st_len _ _ _ S1)).
  assert (log_ready k1) as R1.
  { split; rewrite ?Ek, ?El, ?Edl; cbn; rewrite ?Hst, ?Hsz; try done; try lia.
    - rewrite hdr_homes_length. lia.
    - apply O3.
    - by apply no_dirty_root. }
  apply wp_bind. eapply wp_mono; [by eapply install_trans_wp|].
  assert (install_writes l disk = recovery_writes start disk) as Ei.
  { apply recovery_install; [done|apply O1|by eapply logged_blocks]. }
  rewrite Ek, Ei.
  intros [] k2 [Hw2 S2]. apply wp_bind, wp_modify, wp_bind, wp_modify.
  match goal with |- wp _ _ _ ?s => assert (s = clear_logs k2) as -> by (by destruct k2) end.
  pose proof (no_dirty_mono _ _ (wt_clean _ _ _ Hw2) N1) as N2.
  pose proof (store_clear _ _ _ S2 (no_dirty_for _ N2)) as S3.
  pose proof (writes_to_ready _ _ _ Hw2 R1) as R2. pose proof (writes_to_log _ _ _ Hw2) as E2. rewrite Ek in E2.
  assert (log_ready (clear_logs k2)) as R3.
  { apply log_ready_clear; [done|]. rewrite E2. cbn. lia. }
  eapply wp_mono; [by apply write_head_wp|]. cbn [clear_logs k_log set_k_loop_log set_k_log].
  cbn [log_start log_lh set_log_lh]. rewrite E2. change (log_start l) with (log_start (k_log k)). rewrite Hst.
  rewrite blk_apply_other; [|apply (recovery_writes_ok start size disk); [lia..|done]|lia]. fold h.
  intros [] k3 [Hw3 S4].
  pose proof (no_dirty_mono _ _ (wt_clean _ _ _ Hw3) N2) as N3. pose proof (no_dirty_for _ N3) as N3'.
  pose proof (store_no_dirty _ _ _ S4 N3') as Ed. pose proof (writes_to_log _ _ _ Hw3) as E3.
  split; try done; rewrite ?E3; cbn; rewrite ?E2; cbn; try done.
  - by rewrite <-Ed.
  - by eapply writes_to_ready.
Qed.

Lemma readsb_wp k disk :
  store k disk ∅ → no_dirty k → logged (k_log k) = [] → in_disk k 1 →
  wp (readsb ROOTDEV) [] (λ sb k', sb = parse_sb (blk disk 1) ∧
    k' = set_k_bc (k_bc k') k ∧ no_dirty k' ∧ store k' disk ∅) k.
Proof.
  intros Hs Hn Hlg Hin. unfold readsb. apply wp_bind. eapply wp_mono; [eapply (bread_ret _ disk); try done|].
  { by apply no_dirty_root. } { rewrite Hlg. cbn. unfold NBUF. lia. }
  intros b k1 (F1 & C1 & S1). fold (blk disk 1) in S1.
  wp_step (bdata_store _ _ _ b _ _ _ S1 (lookup_singleton_eq b _)).
  destruct (brelse_store _ _ _ b _ _ _ S1 (lookup_singleton_eq b _)) as (k2 & E2 & F2 & C2 & S2).
  { intros _. by apply (blk_Some _ _ _ _ Hs). }
  wp_step E2. apply wp_ret. rewrite delete_singleton_eq in S2. split_and!; try done.
  - rewrite F2, F1. by destruct k.
  - eapply no_dirty_mono; [|exact Hn]. by transitivity k1.
Qed.

Lemma initlog_wp k disk start size :
  store k disk ∅ → no_dirty k → logged (k_log k) = [] →
  layout_ok start size disk → header_ok start size disk → size ≤ LOGSIZE →
  wp (initlog ROOTDEV) [] (λ _, recovered_state start size disk) k.
Proof.
  intros Hs Hn Hlg Hly Hho Hmax. pose proof Hly as [Y1 Y2 Y3 Y4 Y5 Y6 Y7].
  unfold initlog. change (BSIZE <=? 4 + 4 * LOGSIZE) with false.
  apply wp_bind, wp_ret, wp_bind, wp_modify.
  assert (set_k_log (set_log_lock false (k_log k)) k = k) as ->.
  { pose proof (li_lock _ (st_log _ _ _ Hs)). destruct k as [? ? []]. cbn in *. by subst. }
  apply wp_bind. eapply wp_mono; [apply (readsb_wp _ disk); try done|].
  { unfold in_disk. rewrite <-(st_len _ _ _ Hs). lia. }
  intros sb k1 (-> & F1 & N1 & S1). rewrite Y6, Y7, !s32_small by lia.
  assert (logged (k_log k1) = []) as Hlg1 by (by rewrite F1).
  apply wp_bind, wp_modify, wp_bind, wp_modify. cbn [k_loop_log set_k_log].
  apply recover_from_log_wp; try done.
  set (l := set_log_dev ROOTDEV _).
  assert (store (set_k_log l k1) disk ∅) as [].
  { apply store_set_log; [done| | |by apply no_dirty_for].
    - destruct (st_log _ _ _ S1) as [A1 A2 A3 A4]. split; [exact A1|exact A2|exact A3|exact A4].
    - intros n. change (logged l) with (logged (k_log k1)). rewrite Hlg1. set_solver. }
  by split.
Qed.

(** ** Crashes *)

(** The machine after a reboot, with the buffer cache set up ([main] of
    main.c calls [binit]): nothing but the disk survives. *)
Definition reboot (disk : list (list Z)) : kernel :=
  match binit bss_bcache with
  | Ret _ s => set_k_bc s (bss_kernel disk)
  | _ => bss_kernel disk
  end.

Lemma reboot_store disk :
  Z.of_nat (length disk) < 2 ^ 31 → Forall (λ d, length d = Z.to_nat BSIZE) disk →
  store (reboot disk) disk ∅ ∧ no_dirty (reboot disk).
Proof.
  intros Hl Hb. unfold reboot. destruct binit_run as (s & -> & Eb & Hok).
  assert (∀ b x, bc_buf s !! b = Some x → x = Buf 0 0 0 bss_sleeplock 0 zero_block) as Hx.
  { intros b x. rewrite Eb. by intros [-> _]%lookup_replicate. }
  split; [split|]; try done.
  - by eexists.
  - split; try done. apply NoDup_nil_2.
  - cbn. set_solver.
  - intros b x bno ->%Hx. by intros (? & _).
  - intros b x ->%Hx. rewrite lookup_empty. split; [by left|]. split; [apply length_replicate|]. done.
  - intros b x ->%Hx. done.
Qed.

(** A write to distinct blocks: each block has what was written to it. *)
Lemma blk_apply_lookup ws X i (w : Z * list Z) :
  ws !! i = Some w → NoDup ws.*1 → Forall (λ n, 0 ≤ n < Z.of_nat (length X)) ws.*1 →
  blk (apply_writes ws X) w.1 = w.2.
Proof.
  revert X i. induction ws as [|w' ws IH]; intros X [|i] Hi Hnd Hr; try done.
  - injection Hi as ->. rewrite fmap_cons in Hnd, Hr.
    apply NoDup_cons in Hnd as [Hni _]. apply Forall_cons in Hr as [Hw Hr].
    rewrite apply_writes_cons, blk_apply_other; [by apply blk_insert| |lia].
    rewrite Forall_fmap, Forall_forall in Hr. apply Forall_forall. intros v Hv. specialize (Hr v Hv). cbn in Hr.
    split; [lia|]. intros E. apply Hni. rewrite <-E. by apply list_elem_of_fmap_2.
  - rewrite fmap_cons in Hnd, Hr. apply NoDup_cons in Hnd as [_ Hnd]. apply Forall_cons in Hr as [_ Hr].
    rewrite apply_writes_cons.
    apply (IH _ i); [done..|]. by rewrite length_insert.
Qed.

Lemma recovery_homes start disk : (recovery_writes start disk).*1 = hdr_homes (blk disk start).
Proof. unfold recovery_writes, hdr_homes. by rewrite <-list_fmap_compose. Qed.
Lemma recovery_lookup start disk i bno :
  hdr_homes (blk disk start) !! i = Some bno →
  recovery_writes start disk !! i = Some (bno, blk disk (start + Z.of_nat i + 1)).
Proof.
  unfold recovery_writes, hdr_homes. rewrite !list_lookup_fmap.
  destruct (seq _ _ !! i) as [j|] eqn:E; [|done]. apply lookup_seq in E as [-> _]. cbn. by intros [= <-].
Qed.

Lemma blk_in_writes (D X : list (list Z)) ns bno :
  bno ∈ ns → Forall (λ n, 0 ≤ n < Z.of_nat (length X)) ns →
  blk (apply_writes ((λ n, (n, blk D n)) <$> ns) X) bno = blk D bno.
Proof.
  revert X. induction ns as [|n ns IH]; intros X Hin Hr; [set_solver|].
  apply Forall_cons in Hr as [Hn Hr]. rewrite fmap_cons, apply_writes_cons.
  destruct (decide (bno ∈ ns)) as [H|H].
  - apply IH; [done|]. by rewrite length_insert.
  - assert (bno = n) as -> by set_solver. rewrite blk_apply_other; [by apply blk_insert|..|lia].
    apply Forall_fmap. apply Forall_forall. intros m Hm. cbn.
    rewrite Forall_forall in Hr. specialize (Hr m Hm). split; [lia|set_solver].
Qed.

Lemma home_writes_logged l D : log_inv l → home_writes l D = (λ n, (n, blk D n)) <$> logged l.
Proof.
  intros Hl. apply list_eq. intros i. unfold home_writes. rewrite !list_lookup_fmap.
  destruct (decide (i < log_n l)%nat) as [Hi|Hi].
  - rewrite lookup_seq_lt by done. cbn. destruct (home_lookup _ _ Hl Hi) as [Hh _].
    unfold logged. by rewrite lookup_take_lt, Hh by done.
  - rewrite lookup_seq_ge by lia. cbn. rewrite (proj2 (lookup_ge_None _ _)); [done|].
    rewrite logged_length by done. unfold log_n in Hi. lia.
Qed.

Lemma blk_unlogged k D H bno : store k D H → 0 ≤ bno → bno ∉ logged (k_log k) → blk D bno = blk (k_disk k) bno.
Proof.
  intros Hs Hb Hn. unfold blk. rewrite (st_clean _ _ _ Hs); [done|]. rewrite Z2Nat.id by done.
  intros b x Hx Hd. apply Hn. by eapply (st_dirty _ _ _ Hs).
Qed.

Lemma crash_layout start size disk ws :
  layout_ok start size disk → Forall (λ w, 0 ≤ w.1 ∧ w.1 ≠ 1 ∧ length w.2 = Z.to_nat BSIZE) ws →
  layout_ok start size (apply_writes ws disk).
Proof.
  intros [Y1 Y2 Y3 Y4 Y5 Y6 Y7] Hw.
  assert (blk (apply_writes ws disk) 1 = blk disk 1) as E.
  { apply blk_apply_other; [|lia]. eapply Forall_impl; [done|]. cbn. naive_solver. }
  split; rewrite ?E, ?apply_writes_length; try done.
  clear E Y3 Y4 Y6 Y7. revert disk Y5. induction ws as [|w ws IH]; intros disk Y5; [done|].
  apply Forall_cons in Hw as [(_ & _ & Hw) Hws]. apply IH; [done|]. by apply Forall_insert.
Qed.

(** A transaction [D] about to be committed on the disk [k_disk k]. *)
Section crash.
Context (k : kernel) (D : list (list Z)).
Context (Hs : store k D ∅) (Hr : log_ready k).
Abbreviation l := (k_log k).
Abbreviation start := (log_start (k_log k)).
Abbreviation size := (log_size (k_log k)).
Context (Hly : layout_ok start size (k_disk k)) (Hsb : 1 ∉ logged l).

Lemma blk_length bno : in_disk k bno → length (blk D bno) = Z.to_nat BSIZE.
Proof. intros Hin. destruct (in_disk_lookup _ _ _ _ Hs Hin) as (d & Hd & ?). unfold blk. by rewrite Hd. Qed.

Lemma commit_writes_ok :
  Forall (λ w, 0 ≤ w.1 ∧ w.1 ≠ 1 ∧ length w.2 = Z.to_nat BSIZE) (commit_writes l D).
Proof.
  pose proof (lr_start _ Hr). destruct (log_start_ok _ _ _ Hs Hr) as [Hin _].
  unfold commit_writes. destruct (_ <? _); [|done]. rewrite !Forall_app, !Forall_singleton. split_and!; cbn.
  - apply Forall_fmap, Forall_forall. intros i [_ Hi]%elem_of_seq. cbn in *.
    destruct (home_ok _ _ _ i Hs Hr Hi) as (_ & ? & _). rewrite blk_length by done. unfold log_slot. lia.
  - lia.
  - lia.
  - unfold new_header. by rewrite put_header_length, blk_length.
  - apply Forall_fmap, Forall_forall. intros i [_ Hi]%elem_of_seq. cbn in *.
    destruct (home_ok _ _ _ i Hs Hr Hi) as (Hh & Hi' & _). rewrite blk_length by done.
    split_and!; [unfold in_disk in Hi'; lia| |done]. intros E. apply Hsb. by rewrite <-E.
  - lia.
  - lia.
  - unfold new_header. by rewrite !put_header_length, blk_length.
Qed.

(** A crash before the header is written. *)
Lemma crash_before p bno :
  hdr_n (blk (k_disk k) start) = 0 → (p ≤ log_n l)%nat →
  let c := apply_writes (take p (log_writes l D)) (k_disk k) in
  header_ok start size c ∧
  (0 ≤ bno → ¬ start ≤ bno < start + size → blk (recovered start c) bno = blk (k_disk k) bno).
Proof.
  intros H0 Hp c. destruct (writes_ok _ _ Hs Hr) as [W1 _]. pose proof (ly_start _ _ _ Hly).
  assert (blk c start = blk (k_disk k) start) as Eh by (apply blk_apply_other; [by apply Forall_take|lia]).
  split.
  - unfold hdr_homes. split; rewrite ?Eh, ?H0; [pose proof (ly_size _ _ _ Hly); lia|unfold NBUF; lia| |].
    + unfold hdr_homes. rewrite H0. cbn. set_solver.
    + unfold hdr_homes. rewrite H0. apply NoDup_nil_2.
  - intros Hb Ho. pose proof (ly_size _ _ _ Hly).
    assert (recovered start c = apply_writes [(start, set_word (blk (k_disk k) start) 0 0)] c) as ->.
    { unfold recovered, recovery_writes. by rewrite Eh, H0. }
    rewrite blk_apply_other by (rewrite ?Forall_singleton; cbn; lia).
    apply blk_apply_other; [|done]. apply Forall_take, Forall_fmap, Forall_forall.
    intros i [_ Hi]%elem_of_seq. cbn in *. destruct (log_slot_ok _ _ _ i Hs Hr Hi) as (_ & _ & ?). lia.
Qed.

(** Slot [i] of the log area after the first [p] writes of a commit. *)
Lemma log_prefix_slot p i : (p ≤ log_n l)%nat →
  blk (apply_writes (take p (log_writes l D)) (k_disk k)) (log_slot l i) =
  if decide (i < p)%nat then blk D (home l i) else blk (k_disk k) (log_slot l i).
Proof.
  intros Hp. pose proof (ly_start _ _ _ Hly). case_decide as Hi.
  - rewrite <-(blk_log_writes k D (k_disk k) i Hs Hr) by (lia || by rewrite (st_len _ _ _ Hs)).
    rewrite <-(take_drop p (log_writes l D)) at 2. rewrite apply_writes_app. symmetry.
    apply blk_apply_other; [|unfold log_slot; lia]. unfold log_writes.
    rewrite <-fmap_drop, drop_seq. apply Forall_fmap, Forall_forall.
    intros j [Hj _]%elem_of_seq. cbn in *. unfold log_slot. lia.
  - apply blk_apply_other; [|unfold log_slot; lia]. unfold log_writes.
    rewrite <-fmap_take, take_seq. apply Forall_fmap, Forall_forall.
    intros j [_ Hj]%elem_of_seq. cbn in *. unfold log_slot. lia.
Qed.

(** A crash before the header is written, with a header of an earlier commit
    on the disk: recovery copies the log area to the homes of that header. *)
Lemma crash_stale p :
  let h := blk (k_disk k) start in
  let c := apply_writes (take p (log_writes l D)) (k_disk k) in
  header_ok start size (k_disk k) → (p ≤ log_n l)%nat →
  header_ok start size c ∧
  (∀ i bno, hdr_homes h !! i = Some bno → blk (recovered start c) bno =
    if decide (i < p)%nat then blk D (home l i) else blk (k_disk k) (log_slot l i)) ∧
  (∀ bno, 0 ≤ bno → ¬ start ≤ bno < start + size → bno ∉ hdr_homes h →
    blk (recovered start c) bno = blk (k_disk k) bno).
Proof.
  intros h c [Hn Hm Hho Hnd] Hp. destruct (writes_ok _ _ Hs Hr) as [W1 _]. pose proof (ly_start _ _ _ Hly).
  assert (blk c start = h) as Eh by (apply blk_apply_other; [by apply Forall_take|lia]).
  assert (length c = length (k_disk k)) as El by apply apply_writes_length.
  assert ((recovery_writes start c).*1 = hdr_homes h) as Ef by (rewrite <-Eh; apply recovery_homes).
  assert (recovered start c = apply_writes [(start, set_word h 0 0)] (apply_writes (recovery_writes start c) c))
    as Er by (unfold recovered; by rewrite Eh).
  split; [split; rewrite ?Eh, ?El; done|split].
  - intros i bno Hi. pose proof (list_elem_of_lookup_2 _ _ _ Hi) as Hin. apply Hho in Hin as [Hb Ho].
    pose proof (ly_size _ _ _ Hly). rewrite Er, blk_apply_other by (rewrite ?Forall_singleton; cbn; lia).
    rewrite <-(log_prefix_slot p i Hp). fold c.
    apply (blk_apply_lookup (recovery_writes start c) c i (bno, blk c (log_slot l i))); rewrite ?Ef, ?El; try done.
    + apply recovery_lookup. by rewrite Eh.
    + apply Forall_forall. intros n Hn'. by apply Hho.
  - intros bno Hb Ho Hni. pose proof (ly_size _ _ _ Hly).
    rewrite Er, blk_apply_other by (rewrite ?Forall_singleton; cbn; lia).
    rewrite blk_apply_other; [apply blk_apply_other; [|done]| |done].
    + apply Forall_take, Forall_fmap, Forall_forall. intros i [_ Hi]%elem_of_seq. cbn in *.
      destruct (log_slot_ok _ _ _ i Hs Hr Hi) as (_ & _ & ?). lia.
    + apply Forall_forall. intros w Hw. assert (w.1 ∈ hdr_homes h) as Hwh.
      { rewrite <-Ef. by apply list_elem_of_fmap_2. }
      destruct (Hho _ Hwh) as [? _]. split; [lia|]. by intros <-.
Qed.

(** The disk once the header is written, [rest] of the commit later. *)
Definition after_header (rest : list (Z * list Z)) : list (list Z) :=
  apply_writes rest (apply_writes [(start, new_header l D)] (apply_writes (log_writes l D) (k_disk k))).

(** The writes after the header, the first [q] of them. *)
Definition rest_writes (q : nat) : list (Z * list Z) :=
  take q (home_writes l D ++ [(start, put_header (new_header l D) (log_lh l))]).

Lemma rest_writes_cases q :
  (∃ q', rest_writes q = take q' (home_writes l D)) ∨
  rest_writes q = home_writes l D ++ [(start, put_header (new_header l D) (log_lh l))].
Proof.
  unfold rest_writes. rewrite take_app. destruct (q - length (home_writes l D))%nat as [|n] eqn:E.
  - left. exists q. by rewrite app_nil_r.
  - right. rewrite take_ge by lia. by destruct n.
Qed.

(** The rest of a commit leaves the blocks of the log as they are. *)
Lemma rest_writes_area q bno :
  start < bno < start + size → Forall (λ w, 0 ≤ w.1 ∧ w.1 ≠ bno) (rest_writes q).
Proof.
  intros Hb. apply Forall_take, Forall_app. pose proof (lr_start _ Hr). split.
  - apply Forall_fmap, Forall_forall. intros i [_ Hi]%elem_of_seq. cbn in *.
    destruct (home_ok _ _ _ i Hs Hr Hi) as (Hh & Hi' & _). pose proof (lr_home _ Hr _ Hh).
    unfold in_disk in *. lia.
  - apply Forall_singleton. cbn. lia.
Qed.

Lemma after_header_header q :
  ∃ d, length d = Z.to_nat BSIZE ∧ blk (after_header (rest_writes q)) start = put_header d (log_lh l).
Proof.
  destruct (log_start_ok _ _ _ Hs Hr) as [Hin _]. destruct (writes_ok _ _ Hs Hr) as [_ W3].
  pose proof (blk_length _ Hin) as Hlen. unfold in_disk in Hin. unfold after_header.
  destruct (rest_writes_cases q) as [[q' ->]| ->].
  - exists (blk D start). split; [done|]. rewrite blk_apply_other by (lia || by apply Forall_take).
    rewrite apply_writes_cons. apply blk_insert. rewrite apply_writes_length. cbn. lia.
  - exists (new_header l D). split; [unfold new_header; by rewrite put_header_length|].
    rewrite apply_writes_app, apply_writes_cons. apply blk_insert. rewrite !apply_writes_length. cbn. lia.
Qed.

Lemma after_header_slot q i : (i < log_n l)%nat →
  blk (after_header (rest_writes q)) (log_slot l i) = blk D (home l i).
Proof.
  intros Hi. destruct (log_slot_ok _ _ _ i Hs Hr Hi) as (Hin & _ & Ha). unfold in_disk in Hin.
  unfold after_header. rewrite blk_apply_other by (lia || by apply rest_writes_area).
  rewrite blk_apply_other by (rewrite ?Forall_singleton; cbn; pose proof (lr_start _ Hr); lia).
  apply blk_log_writes; try done. by rewrite (st_len _ _ _ Hs).
Qed.

Lemma after_header_fields q :
  let h := blk (after_header (rest_writes q)) start in
  hdr_n h = lh_n (log_lh l) ∧ hdr_homes h = logged l ∧
  recovery_writes start (after_header (rest_writes q)) = home_writes l D.
Proof.
  intros h. destruct (after_header_header q) as (d & Hd & E). fold h in E. pose proof (st_log _ _ _ Hs) as Hl.
  pose proof (li_n _ Hl) as Hn. destruct (put_header_fields d (log_lh l) Hd Hn) as [E1 E2].
  rewrite <-E in E1, E2.
  assert (∀ i, (i < log_n l)%nat → hdr_block h i = home l i) as Eh.
  { intros i Hi. destruct (home_lookup _ _ Hl Hi) as [Hb _]. apply E2; [done..|].
    destruct (home_ok _ _ _ i Hs Hr Hi) as (_ & Hin & _). pose proof (st_small _ _ _ Hs).
    unfold in_disk in Hin. lia. }
  split; [done|]. split.
  - apply list_eq. intros i. unfold hdr_homes. rewrite list_lookup_fmap, E1. fold (log_n l).
    destruct (decide (i < log_n l)%nat) as [Hi|Hi].
    + rewrite lookup_seq_lt by done. cbn. rewrite Eh by done. destruct (home_lookup _ _ Hl Hi) as [Hb _].
      unfold logged. by rewrite lookup_take_lt, Hb by done.
    + rewrite lookup_seq_ge by lia. cbn. rewrite (proj2 (lookup_ge_None _ _)); [done|].
      rewrite logged_length by done. unfold log_n in Hi. lia.
  - unfold recovery_writes. fold h. rewrite E1. fold (log_n l). apply list_fmap_ext.
    intros m i Hi. apply lookup_seq in Hi as [-> Hi]. rewrite Eh by done. f_equal.
    by apply after_header_slot.
Qed.

(** A crash after the header is written. *)
Lemma crash_after q bno :
  header_ok start size (after_header (rest_writes q)) ∧
  (0 ≤ bno → ¬ start ≤ bno < start + size →
   blk (recovered start (after_header (rest_writes q))) bno = blk D bno).
Proof.
  destruct (after_header_fields q) as (En & Eh & Ew). pose proof (st_log _ _ _ Hs) as Hl.
  pose proof (li_n _ Hl) as Hn. pose proof (logged_length _ Hl) as Hlen. pose proof (lr_nbuf _ Hr).
  assert (length (after_header (rest_writes q)) = length (k_disk k)) as El.
  { unfold after_header. by rewrite !apply_writes_length. }
  split; [split; rewrite ?En, ?Eh|].
  - pose proof (lr_n _ Hr). lia.
  - lia.
  - intros n Hin. rewrite El. split; [by apply (st_logged _ _ _ Hs)|by apply (lr_home _ Hr)].
  - apply Hl.
  - intros Hb Ho. pose proof (lr_n _ Hr). pose proof (lr_start _ Hr). unfold recovered. rewrite Ew.
    set (h := set_word _ _ _). set (X := apply_writes (home_writes l D) _).
    change (<[Z.to_nat start:=h]> X) with (apply_writes [(start, h)] X).
    rewrite blk_apply_other by (rewrite ?Forall_singleton; cbn; lia).
    unfold X. rewrite home_writes_logged by done. destruct (decide (bno ∈ logged l)) as [Hin|Hout].
    + apply blk_in_writes; [done|]. apply Forall_forall. rewrite El. apply (st_logged _ _ _ Hs).
    + assert (Forall (λ w, 0 ≤ w.1 ∧ w.1 ≠ bno) (home_writes l D)) as Hh.
      { rewrite home_writes_logged by done. apply Forall_fmap, Forall_forall. intros n Hn'. cbn.
        destruct (st_logged _ _ _ Hs _ Hn'). split; [lia|]. by intros ->. }
      rewrite <-home_writes_logged by done. rewrite blk_apply_other by done. unfold after_header.
      rewrite (blk_unlogged _ _ _ _ Hs) by done. rewrite !blk_apply_other; try done.
      * apply Forall_fmap, Forall_forall. intros i [_ Hi]%elem_of_seq. cbn in *.
        destruct (log_slot_ok _ _ _ i Hs Hr Hi) as (_ & _ & ?). lia.
      * apply Forall_singleton. cbn. lia.
      * apply Forall_take, Forall_app. split; [done|]. apply Forall_singleton. cbn. lia.
Qed.

Lemma take_commit_writes p :
  (∃ p', (p' ≤ log_n l)%nat ∧ take p (commit_writes l D) = take p' (log_writes l D) ∧
    (log_n l < p → logged l = [])%nat) ∨
  ((log_n l < p)%nat ∧ ∃ q, apply_writes (take p (commit_writes l D)) (k_disk k) = after_header (rest_writes q)).
Proof.
  unfold commit_writes. pose proof (li_n _ (st_log _ _ _ Hs)) as Hn.
  assert (length (log_writes l D) = log_n l) as Hlw by (unfold log_writes; by rewrite length_fmap, length_seq).
  destruct (Z.ltb_spec 0 (lh_n (log_lh l))).
  - destruct (decide (p ≤ log_n l)%nat) as [Hp|Hp].
    + left. exists p. split; [done|]. split; [|lia]. apply take_app_le. lia.
    + right. split; [lia|]. rewrite take_app_ge by lia. rewrite Hlw.
      destruct (p - log_n l)%nat as [|q] eqn:E; [lia|]. exists q. by rewrite apply_writes_app.
  - left. exists 0%nat. split; [lia|]. rewrite take_nil. split; [done|]. intros _.
    apply length_zero_iff_nil. rewrite (logged_length _ (st_log _ _ _ Hs)). lia.
Qed.

Lemma take_commit_log p :
  0 < lh_n (log_lh l) → (p ≤ log_n l)%nat → take p (commit_writes l D) = take p (log_writes l D).
Proof.
  intros Hn Hp. unfold commit_writes. rewrite (proj2 (Z.ltb_lt _ _)) by done. apply take_app_le.
  unfold log_writes. by rewrite length_fmap, length_seq.
Qed.

End crash.

Lemma commit_writes_after k D :
  store k D ∅ → 0 < lh_n (log_lh (k_log k)) → ∃ q,
  apply_writes (commit_writes (k_log k) D) (k_disk k) = after_header k D (rest_writes k D q).
Proof.
  intros Hs Hn. destruct (take_commit_writes k D Hs (length (commit_writes (k_log k) D)))
    as [(p' & Hp & E & _)|(_ & q & E)]; rewrite take_ge in E by done; [|by exists q].
  exfalso. apply (f_equal length) in E. unfold commit_writes in E.
  rewrite (proj2 (Z.ltb_lt _ _)) in E by done. rewrite !length_app, length_take in E. cbn in E. lia.
Qed.

(** [commit] does not erase the transaction from the log: the header it
    leaves on the disk still names every block of the transaction, because
    the second [write_head] runs before [log.lh.n = 0]. *)
Theorem commit_leaves_header k D :
  store k D ∅ → log_ready k → loop_idle k → 0 < lh_n (log_lh (k_log k)) →
  wp commit [] (λ _ k',
    lh_n (log_lh (k_log k')) = 0 ∧
    hdr_n (blk (k_disk k') (log_start (k_log k))) = lh_n (log_lh (k_log k)) ∧
    hdr_homes (blk (k_disk k') (log_start (k_log k))) = logged (k_log k)) k.
Proof.
  intros Hs Hr Hi Hn. eapply wp_mono; [by apply commit_wp|].
  intros [] k' (k1 & Hw & -> & _ & _). split; [done|]. cbn [clear_logs k_disk set_k_loop_log set_k_log].
  rewrite (wt_disk _ _ _ Hw). destruct (commit_writes_after k D Hs Hn) as [q ->].
  by destruct (after_header_fields k D Hs Hr q) as (E1 & E2 & _).
Qed.

(** C1: commits are atomic when the log on the disk is empty.  [commit] always
    returns; if the machine stops after any number [p] of the disk writes it
    made and boots again, [initlog] returns and leaves, outside the log area,
    exactly the disk from before the transaction (when the header was not
    written) or exactly the contents the transaction gave every block. *)
Theorem commit_atomic k D :
  store k D ∅ → log_ready k → loop_idle k → log_size (k_log k) ≤ LOGSIZE →
  layout_ok (log_start (k_log k)) (log_size (k_log k)) (k_disk k) → 1 ∉ logged (k_log k) →
  hdr_n (blk (k_disk k) (log_start (k_log k))) = 0 →
  wp commit [] (λ _ k', ∃ ws,
    k_writes k' = reverse ws ++ k_writes k ∧ k_disk k' = apply_writes ws (k_disk k) ∧
    ∀ p, wp (initlog ROOTDEV) [] (λ _ k'', ∀ bno,
      0 ≤ bno → ¬ log_start (k_log k) ≤ bno < log_start (k_log k) + log_size (k_log k) →
      blk (k_disk k'') bno = blk (if decide (p ≤ log_n (k_log k))%nat then k_disk k else D) bno)
      (reboot (apply_writes (take p ws) (k_disk k)))) k.
Proof.
  intros Hs Hr Hi Hmax Hly Hsb H0. eapply wp_mono; [by apply commit_wp|].
  intros [] k' (k1 & Hw & -> & _ & _). exists (commit_writes (k_log k) D).
  split_and!; [apply Hw|apply Hw|]. intros p.
  set (c := apply_writes (take p (commit_writes (k_log k) D)) (k_disk k)).
  assert (layout_ok (log_start (k_log k)) (log_size (k_log k)) c) as Hlc.
  { apply crash_layout; [done|]. by apply Forall_take, commit_writes_ok. }
  assert (header_ok (log_start (k_log k)) (log_size (k_log k)) c ∧
    ∀ bno, 0 ≤ bno → ¬ log_start (k_log k) ≤ bno < log_start (k_log k) + log_size (k_log k) →
    blk (recovered (log_start (k_log k)) c) bno =
    blk (if decide (p ≤ log_n (k_log k))%nat then k_disk k else D) bno) as [Hh Hb].
  { unfold c. destruct (take_commit_writes k D Hs p) as [(p' & Hp & -> & Hnil)|(Hp & q & ->)].
    - split; [by eapply (crash_before k D Hs Hr Hly Hsb p' 0)|]. intros bno H1 H2.
      destruct (crash_before k D Hs Hr Hly Hsb p' bno H0 Hp) as [_ ->]; [|done..].
      case_decide; [done|]. symmetry. eapply blk_unlogged; [done..|]. rewrite Hnil by lia. set_solver.
    - split; [by apply (crash_after k D Hs Hr q 0)|]. intros bno H1 H2.
      rewrite decide_False by lia. by apply (crash_after k D Hs Hr q bno). }
  destruct (reboot_store c) as [Hsc Hnc]; [apply Hlc|apply Hlc|].
  eapply wp_mono; [apply (initlog_wp _ c); try done|]. intros [] k'' Hrs. rewrite (rs_disk _ _ _ _ Hrs). done.
Qed.

(** The disk recovered from a crash after the first [p] writes of the commit
    of [k], whose transaction gives the blocks the contents [D].  Before the
    header is written: the homes of the old header have what the slots of the
    log area then hold, and the other blocks are as before.  After: the
    blocks are those of the transaction. *)
Definition replay_outcome (k : kernel) (D : list (list Z)) (p : nat) (disk : list (list Z)) : Prop :=
  let l := k_log k in
  let old := hdr_homes (blk (k_disk k) (log_start l)) in
  let outside bno := 0 ≤ bno ∧ ¬ log_start l ≤ bno < log_start l + log_size l in
  if decide (p ≤ log_n l)%nat
  then (∀ i bno, old !! i = Some bno → blk disk bno =
          if decide (i < p)%nat then blk D (home l i) else blk (k_disk k) (log_slot l i)) ∧
       (∀ bno, outside bno → bno ∉ old → blk disk bno = blk (k_disk k) bno)
  else ∀ bno, outside bno → blk disk bno = blk D bno.

(** C14: what the log keeps is replayed.  Take any commit that logs some block
    on a disk whose header is any header a commit or [mkfs] left.  [commit]
    returns; it leaves on the disk a header that still names every block of
    its transaction, again such a header, so the next commit starts from a
    log in use.  If the machine stops after the first [p] disk writes of the
    commit and boots again, [initlog] returns, and: after the header was
    written, every block outside the log area has the contents the
    transaction gave it; before, every block named by the old header at
    position [i] gets what the log's slot [i] then holds, which for [i < p] is
    the new contents of the [i]-th block of the new transaction, and every
    other block is as before the commit.  So a crash between the first log
    write and the header write overwrites the first home of the previous
    transaction with a block of the new one. *)
Theorem stale_log_replayed k D :
  let l := k_log k in let start := log_start l in let size := log_size l in
  store k D ∅ → log_ready k → loop_idle k → log_size l ≤ LOGSIZE →
  layout_ok start size (k_disk k) → 1 ∉ logged l → 0 < lh_n (log_lh l) →
  header_ok start size (k_disk k) →
  wp commit [] (λ _ k', ∃ ws,
    k_writes k' = reverse ws ++ k_writes k ∧ k_disk k' = apply_writes ws (k_disk k) ∧
    hdr_homes (blk (k_disk k') start) = logged l ∧ header_ok start size (k_disk k') ∧
    ∀ p, wp (initlog ROOTDEV) [] (λ _ k'', replay_outcome k D p (k_disk k''))
      (reboot (apply_writes (take p ws) (k_disk k)))) k.
Proof.
  cbv zeta. set (start := log_start (k_log k)). set (size := log_size (k_log k)).
  intros Hs Hr Hi Hmax Hly Hsb Hn Hh. eapply wp_mono; [by apply commit_wp|].
  intros [] k' (k1 & Hw & -> & _ & _). exists (commit_writes (k_log k) D).
  cbn [clear_logs k_disk k_writes set_k_loop_log set_k_log].
  split; [apply Hw|]. split; [apply Hw|]. rewrite (wt_disk _ _ _ Hw).
  destruct (commit_writes_after k D Hs Hn) as [q0 Eq0]. rewrite Eq0.
  split; [by apply (after_header_fields k D Hs Hr q0)|]. split; [by apply (crash_after k D Hs Hr q0 0)|].
  intros p. set (c := apply_writes (take p (commit_writes (k_log k) D)) (k_disk k)).
  assert (layout_ok start size c) as Hlc.
  { apply crash_layout; [done|]. by apply Forall_take, commit_writes_ok. }
  assert (header_ok start size c ∧ replay_outcome k D p (recovered start c)) as [Hhc Hb].
  { unfold c, replay_outcome. case_decide as Hp.
    - rewrite (take_commit_log k D p Hn Hp).
      destruct (crash_stale k D Hs Hr Hly p Hh Hp) as (C1 & C2 & C3).
      split_and!; [done|exact C2|]. intros bno [H1 H2]. by apply C3.
    - destruct (take_commit_writes k D Hs p) as [(p' & _ & _ & Hnil)|(_ & q & ->)].
      + exfalso. pose proof (logged_length _ (st_log _ _ _ Hs)) as Hlen. rewrite Hnil in Hlen by lia.
        cbn in Hlen. lia.
      + destruct (crash_after k D Hs Hr q 0) as [C1 _]. split; [done|].
        intros bno [H1 H2]. by apply (crash_after k D Hs Hr q bno). }
  destruct (reboot_store c) as [Hsc Hnc]; [apply Hlc|apply Hlc|].
  eapply wp_mono; [by apply (initlog_wp _ c)|]. intros [] k'' Hrs. by rewrite (rs_disk _ _ _ _ Hrs).
Qed.

(** ** The bounds of a transaction *)

Lemma store_log_ext k D H l ll :
  store k D H → log_lh l = log_lh (k_log k) → log_lock l = false →
  store (set_k_loop_log ll (set_k_log l k)) D H.
Proof.
  intros [S1 [A1 A2 A3 A4] L2 L3 L4 S2 S3 S4 S5 S6 S7] El Hl.
  assert (logged l = logged (k_log k)) as Elg by (unfold logged; by rewrite El).
  split; try done; cbn; rewrite ?Elg; try done. split; rewrite ?El, ?Elg; done.
Qed.

(** The operations in progress and the operation [d] more. *)
Definition outstand (d : Z) (k : kernel) : kernel :=
  set_k_loop_log (add_outstanding d (k_loop_log k)) (set_k_log (add_outstanding d (k_log k)) k).

(** [begin_op] waits while a commit runs and while the operation could
    overfill a log that is in use; otherwise it returns with the operation
    counted in both logs, and then the blocks logged and [MAXOPBLOCKS] for
    every operation in progress fit the log. *)
Theorem begin_op_reserves k :
  log_lock (k_log k) = false →
  let wait := log_committing (k_log k) || k_is_loop_mounted k && log_committing (k_loop_log k) in
  let full := log_full (k_log k) || k_is_loop_mounted k && log_full (k_loop_log k) in
  (wait = true ∧ begin_op k = Blocked "begin_op: committing") ∨
  (wait = false ∧ full = true ∧ begin_op k = Blocked "begin_op: log space") ∨
  (begin_op k = Ret tt (outstand 1 k) ∧
   lh_n (log_lh (k_log k)) + log_outstanding (k_log (outstand 1 k)) * MAXOPBLOCKS ≤ LOGSIZE ∧
   (k_is_loop_mounted k = true →
    lh_n (log_lh (k_loop_log k)) + log_outstanding (k_loop_log (outstand 1 k)) * MAXOPBLOCKS ≤ LOGSIZE)).
Proof.
  intros Hl wait full. unfold begin_op. unfold acquire_log, release_log, zoom, acquire, release.
  kred. cbn [lget lset log_l log_lock_l]. rewrite Hl. cbn.
  fold wait. destruct wait; [by left|right].
  unfold log_full. cbn. fold (log_full (k_log k)) (log_full (k_loop_log k)).
  fold full. destruct full eqn:E; [by left|right].
  apply orb_false_iff in E as [E1 E2]. apply Z.ltb_ge in E1. split; [|split; [done|]].
  - f_equal. destruct k as [? ? [] ?]. cbn in *. by subst.
  - intros Hm. rewrite Hm in E2. cbn in E2. by apply Z.ltb_ge in E2.
Qed.

(** No operation is in progress. *)
Record idle (k : kernel) : Prop := {
  id_out : log_outstanding (k_log k) = 0;
  id_loop_out : log_outstanding (k_loop_log k) = 0;
  id_committing : log_committing (k_log k) = false;
  id_loop_committing : log_committing (k_loop_log k) = false;
  id_n : lh_n (log_lh (k_log k)) = 0;
  id_loop_n : lh_n (log_lh (k_loop_log k)) = 0;
}.

Lemma begin_op_run k : log_lock (k_log k) = false → idle k → begin_op k = Ret tt (outstand 1 k).
Proof.
  intros Hl [I1 I2 I3 I4 I5 I6]. unfold begin_op, acquire_log, release_log, zoom, acquire, release.
  kred. cbn [lget lset log_l log_lock_l]. rewrite Hl. cbn. rewrite I3, I4. unfold log_full. cbn.
  rewrite I1, I2, I5, I6, andb_false_r. cbn. rewrite andb_false_r. f_equal.
  destruct k as [? ? [] ?]. cbn in *. by subst.
Qed.

Definition commit_flag (c : bool) (k : kernel) : kernel :=
  set_k_loop_log (set_log_committing c (k_loop_log k)) (set_k_log (set_log_committing c (k_log k)) k).

Lemma end_op_run k :
  log_lock (k_log k) = false → log_committing (k_log k) = false → log_committing (k_loop_log k) = false →
  log_outstanding (k_log k) = 1 → log_outstanding (k_loop_log k) = 1 →
  end_op k = (commit;; acquire_log;; set_committing false;; release_log) (commit_flag true (outstand (-1) k)).
Proof.
  intros Hl Hc Hlc Ho Hlo. unfold end_op. erewrite K_bind_Ret.
  2:{ unfold acquire_log, zoom, acquire. cbn. by rewrite Hl. }
  do 4 (erewrite K_bind_Ret; [|reflexivity]). cbn. rewrite Hc, Hlc, Ho, Hlo. cbn.
  erewrite K_bind_Ret; [|reflexivity]. erewrite K_bind_Ret; [|reflexivity].
  f_equal. destruct k as [? ? [] []]. cbn in *. by subst.
Qed.

Lemma end_commit_run k : log_lock (k_log k) = false →
  (acquire_log;; set_committing false;; release_log) k = Ret tt (commit_flag false k).
Proof.
  intros Hl. unfold acquire_log, release_log, zoom, acquire, release. kred. cbn. rewrite Hl. cbn.
  f_equal. destruct k as [? ? [] []]. cbn in *. by subst.
Qed.

Lemma log_ready_ext k l ll :
  log_ready k → log_lh l = log_lh (k_log k) → log_dev l = log_dev (k_log k) →
  log_start l = log_start (k_log k) → log_size l = log_size (k_log k) →
  log_ready (set_k_loop_log ll (set_k_log l k)).
Proof.
  intros [H1 H2 H3 H4 H5 H6 H7] E1 E2 E3 E4.
  assert (logged l = logged (k_log k)) as E by (unfold logged; by rewrite E1).
  split; cbn; rewrite ?E, ?E1, ?E2, ?E3, ?E4; done.
Qed.

(** [end_op] of the last operation commits: the blocks of the transaction are
    on the disk. *)
Lemma end_op_wp k D :
  store k D ∅ → log_ready k → loop_idle k → log_committing (k_log k) = false →
  log_committing (k_loop_log k) = false → log_outstanding (k_log k) = 1 →
  log_outstanding (k_loop_log k) = 1 →
  wp end_op [] (λ _ k', k_disk k' = apply_writes (commit_writes (k_log k) D) D ∧
    store k' (k_disk k') ∅ ∧ idle k' ∧ log_ready k' ∧
    k' = set_k_bc (k_bc k') (set_k_writes (k_writes k') (set_k_disk (k_disk k')
           (clear_logs (outstand (-1) k))))) k.
Proof.
  intros Hs Hr Hi Hc Hlc Ho Hlo. pose proof (li_lock _ (st_log _ _ _ Hs)) as Hl.
  unfold wp. rewrite end_op_run by done. set (k1 := commit_flag true (outstand (-1) k)).
  assert (store k1 D ∅) as S1 by (by repeat apply store_log_ext).
  assert (log_ready k1) as R1 by (by repeat apply log_ready_ext).
  change (wp (commit;; acquire_log;; set_committing false;; release_log) []
    (λ _ k', k_disk k' = apply_writes (commit_writes (k_log k) D) D ∧
    store k' (k_disk k') ∅ ∧ idle k' ∧ log_ready k' ∧
    k' = set_k_bc (k_bc k') (set_k_writes (k_writes k') (set_k_disk (k_disk k')
           (clear_logs (outstand (-1) k))))) k1).
  apply wp_bind. eapply wp_mono; [by apply (commit_wp k1 D)|].
  intros [] k2 (k1' & Hw & E2 & Ed & S2).
  change (commit_writes (k_log k1) D) with (commit_writes (k_log k) D) in *.
  assert (k_log k2 = k_log (clear_logs k1)) as El.
  { rewrite E2. cbn. by rewrite (writes_to_log _ _ _ Hw). }
  assert (k_loop_log k2 = k_loop_log (clear_logs k1)) as Ell.
  { rewrite E2. cbn. by rewrite (writes_to_loop_log _ _ _ Hw). }
  eapply wp_Ret; [apply end_commit_run; by rewrite El|]. split_and!.
  - done.
  - apply store_log_ext; [done|done|]. cbn. by rewrite El.
  - split; cbn; rewrite ?El, ?Ell; cbn; try done; lia.
  - apply log_ready_ext; try done. rewrite E2. pose proof (writes_to_ready _ _ _ Hw R1) as R2.
    apply log_ready_clear; [done|]. pose proof (lr_n _ R1). pose proof (li_n _ (st_log _ _ _ S1)).
    rewrite (writes_to_log _ _ _ Hw). lia.
  - unfold commit_flag. rewrite El, Ell. rewrite E2, (wt_kernel _ _ _ Hw).
    destruct k as [? ? [] []]. cbn in *. by subst.
Qed.

(** ** One block updated in a transaction *)

Definition update (bno : Z) (d : list Z) : K kernel unit :=
  b ← bread ROOTDEV bno; set_bdata b d;; log_write b;; brelse_k b.

(** ** A small disk *)

(** A disk of 12 blocks with a log of 4 blocks from block 2. *)
Definition small_disk : list (list Z) :=
  <[1%nat := concat (le_bytes 4 <$> [12; 4; 1; 4; 2; 6; 7]) ++ replicate 484 0]> (replicate 12 zero_block).
Definition fill (v : Z) : list Z := replicate (Z.to_nat BSIZE) v.

End recovery.
