(* ===== verification/Ide.v ===== *)
(** * Ide: the disk driver of ide.c

    The driver talks to the two drives of an ATA controller through its
    registers: [ata_status], [ata_out], [ata_data] and [ata_in] are the
    documented effect of the register accesses and data transfers of a PIO
    command on one sector.  A drive is busy for some time after a command and
    after the data of a write, which reaches the disk only at the end of that
    time.  What the documentation leaves undefined faults: writing a register
    or a command while the drive is busy or has data to transfer, fetching
    data before it is ready, sending data that no command asked for.

    [iderw] is cut at its [sleep]: [iderw_start] runs up to it and
    [iderw_wake] from there on, after the [wakeup] of [ideintr].  The queue is
    linked through the buffers.  [ide_refines] shows that whatever the
    processes and the controller interleave, the requests are served in the
    order of submission, each as [iderw] of memide.c (Bio.v) does it, which
    the buffer cache and the file system are proved with. *)

From Stdlib Require Import ZArith Lia.
From stdpp Require Import base numbers strings gmap list.
From S2P Require Import Prelude Kernel Sleeplock Bio Log Store.
From S2P Require Import Apic.
Open Scope Z_scope.

Definition SECTOR_SIZE : Z := 512.
Definition IDE_BSY : Z := 0x80.
Definition IDE_DRDY : Z := 0x40.
Definition IDE_DF : Z := 0x20.
Definition IDE_ERR : Z := 0x01.
Definition IDE_CMD_READ : Z := 0x20.
Definition IDE_CMD_WRITE : Z := 0x30.
Definition IDE_CMD_RDMUL : Z := 0xc4.
Definition IDE_CMD_WRMUL : Z := 0xc5.

(** ** The controller *)

(** What the drive works on: a read has its sector to be fetched, a write
    waits for its data, a store brings the data to the disk. *)
Inductive atacmd : Type :=
| AtaIdle
| AtaRead (drive sector : Z)
| AtaWrite (drive sector : Z)
| AtaStore (drive sector : Z) (d : list Z).

Record ata : Type := Ata {
  a_count : Z; (** register 0x1f2 *)
  a_lba0 : Z;
  a_lba1 : Z;
  a_lba2 : Z;
  a_head : Z; (** register 0x1f6 *)
  a_cmd : atacmd;
  a_busy : nat; (** how long the drive is still busy *)
  a_present : Z → bool; (** the drives there are *)
  a_disk : Z → list (list Z); (** the sectors of a drive *)
}.

Definition a_drive (a : ata) : Z := Z.land (Z.shiftr (a_head a) 4) 1.
Definition a_sector (a : ata) : Z :=
  a_lba0 a + Z.shiftl (a_lba1 a) 8 + Z.shiftl (a_lba2 a) 16 + Z.shiftl (Z.land (a_head a) 15) 24.

(** The drive gets a command or goes on with another state of it. *)
Definition ata_set (c : atacmd) (n : nat) (a : ata) : ata :=
  Ata (a_count a) (a_lba0 a) (a_lba1 a) (a_lba2 a) (a_head a) c n (a_present a) (a_disk a).
Definition set_a_disk (d : Z → list (list Z)) (a : ata) : ata :=
  Ata (a_count a) (a_lba0 a) (a_lba1 a) (a_lba2 a) (a_head a) (a_cmd a) (a_busy a) (a_present a) d.

Definition ata_fetch (a : ata) : option (list Z) :=
  match a_cmd a with
  | AtaRead drive sector => a_disk a drive !! Z.to_nat sector
  | _ => None
  end.

Definition set_sector (drive sector : Z) (d : list Z) (disk : Z → list (list Z)) : Z → list (list Z) :=
  λ x, if x =? drive then <[Z.to_nat sector:=d]> (disk x) else disk x.

(** The end of the busy time. *)
Definition ata_finish (a : ata) : ata :=
  match a_cmd a with
  | AtaStore drive sector d => set_a_disk (set_sector drive sector d (a_disk a)) (ata_set AtaIdle 0 a)
  | c => ata_set c 0 a
  end.

(** A moment passes. *)
Definition ata_tick (a : ata) : ata :=
  match a_busy a with
  | S (S n) => ata_set (a_cmd a) (S n) a
  | _ => ata_finish a
  end.

(** The status register: 0 with no drive, then busy, then ready, with an
    error when the sector to be read does not exist. *)
Definition ata_status (a : ata) : Z :=
  if negb (a_present a (a_drive a)) then 0 else
  match a_busy a with
  | S _ => IDE_BSY
  | O =>
      match a_cmd a with
      | AtaRead _ _ => if ata_fetch a then IDE_DRDY else Z.lor IDE_DRDY IDE_ERR
      | _ => IDE_DRDY
      end
  end.

(** The drive is neither busy nor has data to transfer. *)
Definition ata_free (a : ata) : bool :=
  match a_busy a, a_cmd a with
  | O, AtaIdle => true
  | O, AtaRead _ _ => if ata_fetch a then false else true
  | _, _ => false
  end.

(** [insl] of a sector. *)
Definition ata_in (a : ata) : option (list Z * ata) :=
  match a_busy a with
  | O => d ← ata_fetch a; Some (d, ata_set AtaIdle 0 a)
  | S _ => None
  end.

Section Controller.
(** How long a drive is busy with a command on a sector. *)
Context (latency : Z → Z → nat).

(** The registers that hold their value. *)
Definition ata_reg (port v : Z) (a : ata) : ata :=
  Ata (if port =? 0x1f2 then v else a_count a) (if port =? 0x1f3 then v else a_lba0 a) (if port =? 0x1f4 then v else a_lba1 a)
    (if port =? 0x1f5 then v else a_lba2 a) (if port =? 0x1f6 then v else a_head a) (a_cmd a) (a_busy a) (a_present a) (a_disk a).

(** A write to a register.  The device control register 0x3f6 may be written
    at any time.  The drive asks for the data of a write at once, which the
    driver counts on: it does not wait between the command and the data. *)
Definition ata_out (port v : Z) (a : ata) : option ata :=
  if port =? 0x3f6 then Some a else
  if negb (ata_free a) then None else
  if negb (port =? 0x1f7) then Some (ata_reg port v a) else
  if negb (a_count a =? 1) then None else
  if v =? IDE_CMD_READ then Some (ata_set (AtaRead (a_drive a) (a_sector a)) (latency (a_drive a) (a_sector a)) a) else
  if v =? IDE_CMD_WRITE then Some (ata_set (AtaWrite (a_drive a) (a_sector a)) 0 a) else
  None.

(** [outsl] of a sector: the data of a write. *)
Definition ata_data (d : list Z) (a : ata) : option ata :=
  match a_busy a, a_cmd a with
  | O, AtaWrite drive sector => Some (ata_set (AtaStore drive sector d) (latency drive sector) a)
  | _, _ => None
  end.

End Controller.

(** ** The driver *)

Record ide : Type := Ide {
  id_lock : bool;
  id_queue : option nat;
  id_qnext : list (option nat); (** [qnext] of the buffers *)
  id_buf : list buf;
  id_havedisk1 : bool;
  id_ata : ata;
  id_woken : list nat; (** the buffers that [wakeup] was called with *)
}.
Definition set_id_lock v s := Ide v (id_queue s) (id_qnext s) (id_buf s) (id_havedisk1 s) (id_ata s) (id_woken s).
Definition set_id_queue v s := Ide (id_lock s) v (id_qnext s) (id_buf s) (id_havedisk1 s) (id_ata s) (id_woken s).
Definition set_id_qnext v s := Ide (id_lock s) (id_queue s) v (id_buf s) (id_havedisk1 s) (id_ata s) (id_woken s).
Definition set_id_buf v s := Ide (id_lock s) (id_queue s) (id_qnext s) v (id_havedisk1 s) (id_ata s) (id_woken s).
Definition set_id_havedisk1 v s := Ide (id_lock s) (id_queue s) (id_qnext s) (id_buf s) v (id_ata s) (id_woken s).
Definition set_id_ata v s := Ide (id_lock s) (id_queue s) (id_qnext s) (id_buf s) (id_havedisk1 s) v (id_woken s).
Definition set_id_woken v s := Ide (id_lock s) (id_queue s) (id_qnext s) (id_buf s) (id_havedisk1 s) (id_ata s) v.
Definition id_lock_l : lens ide bool := Lens id_lock set_id_lock.

Section Driver.
Context (latency : Z → Z → nat).

(** An access to the controller. *)
Definition on_ata {A} (f : ata → option (A * ata)) : K ide A := λ s,
  match f (id_ata s) with
  | Some (x, a) => Ret x (set_id_ata a s)
  | None => Fault
  end.
Definition outb (port v : Z) : K ide unit := on_ata (λ a, pair () <$> ata_out latency port v a).
Definition outsl (d : list Z) : K ide unit := on_ata (λ a, pair () <$> ata_data latency d a).
Definition insl : K ide (list Z) := on_ata ata_in.

(** [inb(0x1f7)], which takes a moment. *)
Definition inb_status : K ide Z := on_ata (λ a, Some (ata_status a, ata_tick a)).

Fixpoint idewait_loop (fuel : nat) : K ide Z :=
  match fuel with
  | O => nofuel
  | S fuel =>
      r ← inb_status;
      if Z.land r (Z.lor IDE_BSY IDE_DRDY) =? IDE_DRDY then mret r else idewait_loop fuel
  end.

Definition idewait (checkerr : bool) : K ide Z :=
  busy ← gets (λ s, a_busy (id_ata s));
  r ← idewait_loop (S busy);
  mret (if checkerr && negb (Z.land r (Z.lor IDE_DF IDE_ERR) =? 0) then -1 else 0).

Fixpoint probe (n : nat) : K ide unit :=
  match n with
  | O => mret tt
  | S n =>
      r ← inb_status;
      if negb (r =? 0) then modify (set_id_havedisk1 true) else probe n
  end.

(** The driver's state and the interrupt controller. *)
Definition ide_l : lens (ide * ioapic) ide := Lens fst (λ v s, (v, snd s)).
Definition ide_ioapic_l : lens (ide * ioapic) ioapic := Lens snd (λ v s, (fst s, v)).

Definition ideinit (ncpu : Z) : K (ide * ioapic) unit :=
  zoom ide_l (modify (set_id_lock false));;
  zoom ide_ioapic_l (ioapicenable IRQ_IDE (ncpu - 1));;
  zoom ide_l (idewait false);;
  zoom ide_l (outb 0x1f6 (Z.lor 0xe0 (Z.shiftl 1 4)));;
  zoom ide_l (probe 1000);;
  zoom ide_l (outb 0x1f6 (Z.lor 0xe0 (Z.shiftl 0 4))).

Definition ide_get (b : nat) : K ide buf := λ s, deref (id_buf s !! b) s.
Definition ide_set (b : nat) (x : buf) : K ide unit := modify (λ s, set_id_buf (<[b:=x]> (id_buf s)) s).

(** The test for a null [b] is at the calls. *)
Definition idestart (b : nat) : K ide unit :=
  x ← ide_get b;
  if FSSIZE <=? b_blockno x then panic "incorrect blockno" else
  let sector_per_block := BSIZE / SECTOR_SIZE in
  let sector := b_blockno x * sector_per_block in
  let read_cmd := if sector_per_block =? 1 then IDE_CMD_READ else IDE_CMD_RDMUL in
  let write_cmd := if sector_per_block =? 1 then IDE_CMD_WRITE else IDE_CMD_WRMUL in
  if 7 <? sector_per_block then panic "idestart" else
  idewait false;;
  outb 0x3f6 0;;
  outb 0x1f2 sector_per_block;;
  outb 0x1f3 (Z.land sector 0xff);;
  outb 0x1f4 (Z.land (Z.shiftr sector 8) 0xff);;
  outb 0x1f5 (Z.land (Z.shiftr sector 16) 0xff);;
  outb 0x1f6 (Z.lor (Z.lor 0xe0 (Z.shiftl (Z.land (b_dev x) 1) 4)) (Z.land (Z.shiftr sector 24) 0x0f));;
  if negb (Z.land (b_flags x) B_DIRTY =? 0) then
    outb 0x1f7 write_cmd;;
    outsl (b_data x)
  else outb 0x1f7 read_cmd.

(** The part of [ideintr] from reading the data to [wakeup]. *)
Definition ide_complete (b : nat) : K ide unit :=
  x ← ide_get b;
  (if Z.land (b_flags x) B_DIRTY =? 0 then
     r ← idewait true;
     if 0 <=? r then
       d ← insl;
       ide_set b (set_b_data d x)
     else mret tt
   else mret tt);;
  x ← ide_get b;
  ide_set b (set_b_flags (Z.land (Z.lor (b_flags x) B_VALID) (Z.lnot B_DIRTY)) x);;
  modify (λ s, set_id_woken (id_woken s ++ [b]) s).

Definition ideintr : K ide unit :=
  acquire id_lock_l;;
  q ← gets id_queue;
  match q with
  | None => release id_lock_l
  | Some b =>
      n ← gets (λ s, id_qnext s !! b);
      n ← deref n;
      modify (set_id_queue n);;
      ide_complete b;;
      (match n with
       | Some n => idestart n
       | None => mret tt
       end);;
      release id_lock_l
  end.

(** The loop over [pp]: the buffer of the queue from [p] on whose [qnext] is
    null. *)
Fixpoint queue_end (fuel : nat) (p : nat) : K ide nat :=
  match fuel with
  | O => nofuel
  | S fuel =>
      n ← gets (λ s, id_qnext s !! p);
      n ← deref n;
      match n with
      | None => mret p
      | Some n => queue_end fuel n
      end
  end.

(** The last loop of [iderw] and its [release]: [false] when it sleeps, which
    releases the lock too. *)
Definition iderw_wait (b : nat) : K ide bool :=
  x ← ide_get b;
  release id_lock_l;;
  mret (Z.land (b_flags x) (Z.lor B_VALID B_DIRTY) =? B_VALID).

(** [iderw]: append [b] to [idequeue]. *)
Definition ide_append (b : nat) : K ide unit :=
  modify (λ s, set_id_qnext (<[b:=None]> (id_qnext s)) s);;
  q ← gets id_queue;
  len ← gets (λ s, length (id_qnext s));
  match q with
  | None => modify (set_id_queue (Some b))
  | Some p =>
      e ← queue_end (S len) p;
      modify (λ s, set_id_qnext (<[e:=Some b]> (id_qnext s)) s)
  end.

(** [iderw] by process [pid], up to the first test of the last loop. *)
Definition iderw_start (pid : Z) (b : nat) : K ide bool :=
  x ← ide_get b;
  if negb (sl_locked (b_lock x) && (sl_pid (b_lock x) =? pid)) then panic "iderw: buf not locked" else
  if Z.land (b_flags x) (Z.lor B_VALID B_DIRTY) =? B_VALID then panic "iderw: nothing to do" else
  have ← gets id_havedisk1;
  if negb (b_dev x =? 0) && negb have then panic "iderw: ide disk 1 not present" else
  acquire id_lock_l;;
  ide_append b;;
  q ← gets id_queue;
  (if decide (q = Some b) then idestart b else mret tt);;
  iderw_wait b.

(** [iderw] goes on after its [sleep], which has taken the lock again. *)
Definition iderw_wake (b : nat) : K ide bool :=
  acquire id_lock_l;;
  iderw_wait b.

(** ** Waiting for the drive *)

Lemma set_id_ata_ata a a' s : set_id_ata a (set_id_ata a' s) = set_id_ata a s.
Proof. done. Qed.
Lemma set_id_ata_same s : set_id_ata (id_ata s) s = s.
Proof. by destruct s. Qed.

Definition drives (a : ata) : Prop := a_present a 0 = true ∧ a_present a 1 = true.

Lemma drives_selected a : drives a → a_present a (a_drive a) = true.
Proof.
  intros [H0 H1]. unfold a_drive. change 1 with (Z.ones 1). rewrite Z.land_ones by done.
  pose proof (Z.mod_pos_bound (Z.shiftr (a_head a) 4) (2 ^ 1)).
  assert (Z.shiftr (a_head a) 4 mod 2 ^ 1 = 0 ∨ Z.shiftr (a_head a) 4 mod 2 ^ 1 = 1) as [-> | ->] by lia; done.
Qed.

Definition read_failed (a : ata) : bool :=
  match a_cmd a with
  | AtaRead _ _ => negb (bool_decide (is_Some (ata_fetch a)))
  | _ => false
  end.

Lemma finish_drives a : drives a → drives (ata_finish a).
Proof. unfold ata_finish. by destruct (a_cmd a). Qed.
Lemma finish_failed a : read_failed (ata_finish a) = read_failed a.
Proof. unfold ata_finish, read_failed, ata_fetch. by destruct (a_cmd a) eqn:E; cbn; rewrite ?E. Qed.
Lemma finish_finish a : ata_finish (ata_finish a) = ata_finish a.
Proof. unfold ata_finish at 2 3. by destruct (a_cmd a). Qed.

(** A moment does not change what the end will be. *)
Lemma tick_finish a : ata_finish (ata_tick a) = ata_finish a.
Proof. unfold ata_tick. destruct (a_busy a) as [|[|n]]; [apply finish_finish..|]. by destruct a. Qed.
Lemma tick_busy a : a_busy (ata_tick a) = pred (a_busy a).
Proof. unfold ata_tick, ata_finish. destruct (a_busy a) as [|[|n]]; [by destruct (a_cmd a)..|done]. Qed.
Lemma tick_drives a : drives a → drives (ata_tick a).
Proof. unfold ata_tick. destruct (a_busy a) as [|[|n]]; [apply finish_drives..|done]. Qed.
Lemma tick_failed a : read_failed (ata_tick a) = read_failed a.
Proof. unfold ata_tick. destruct (a_busy a) as [|[|n]]; [apply finish_failed..|]. by destruct a. Qed.

Lemma status_ready a : drives a → a_busy a = 0%nat →
  ata_status a = if read_failed a then Z.lor IDE_DRDY IDE_ERR else IDE_DRDY.
Proof.
  intros Hd Hb. unfold ata_status. rewrite (drives_selected _ Hd), Hb. unfold read_failed. cbn [negb].
  destruct (a_cmd a); try done. by destruct (ata_fetch a).
Qed.
Lemma status_busy a n : drives a → a_busy a = S n → ata_status a = IDE_BSY.
Proof. intros Hd Hb. unfold ata_status. by rewrite (drives_selected _ Hd), Hb. Qed.

Lemma idewait_loop_run n s : drives (id_ata s) → a_busy (id_ata s) = n →
  idewait_loop (S n) s =
    Ret (if read_failed (id_ata s) then Z.lor IDE_DRDY IDE_ERR else IDE_DRDY) (set_id_ata (ata_finish (id_ata s)) s).
Proof.
  assert (Heq : ∀ fuel, idewait_loop (S fuel) = (r ← inb_status;
    if Z.land r (Z.lor IDE_BSY IDE_DRDY) =? IDE_DRDY then mret r else idewait_loop fuel)) by done.
  revert s. induction n as [|n IH]; intros s Hd Hb; rewrite Heq.
  - erewrite K_bind_Ret; [|reflexivity]. rewrite status_ready by done. unfold ata_tick. rewrite Hb.
    by destruct (read_failed (id_ata s)).
  - erewrite K_bind_Ret; [|reflexivity]. rewrite (status_busy _ n) by done.
    change (Z.land IDE_BSY (Z.lor IDE_BSY IDE_DRDY) =? IDE_DRDY) with false. cbv iota.
    rewrite IH; [|by apply tick_drives|cbn [id_ata set_id_ata]; by rewrite tick_busy, Hb].
    cbn [id_ata set_id_ata]. by rewrite tick_failed, tick_finish.
Qed.

Lemma idewait_run ce s : drives (id_ata s) →
  idewait ce s = Ret (if ce && read_failed (id_ata s) then -1 else 0) (set_id_ata (ata_finish (id_ata s)) s).
Proof.
  intros Hd. unfold idewait. erewrite K_bind_Ret; [|reflexivity].
  rewrite (K_bind_Ret _ _ _ _ _ (idewait_loop_run _ s Hd eq_refl)).
  by destruct ce, (read_failed (id_ata s)).
Qed.

(** ** Starting a request *)

(** The registers name the sector. *)
Lemma sector_registers n : 0 ≤ n < 2 ^ 24 →
  Z.land n 0xff + Z.shiftl (Z.land (Z.shiftr n 8) 0xff) 8 + Z.shiftl (Z.land (Z.shiftr n 16) 0xff) 16 = n ∧
  Z.shiftr n 24 = 0.
Proof.
  intros Hn. change 0xff with (Z.ones 8). rewrite !Z.land_ones, !Z.shiftl_mul_pow2, !Z.shiftr_div_pow2 by done.
  split; [|by apply Z.div_small]. change (2 ^ 8) with 256. change (2 ^ 16) with 65536. change (2 ^ 24) with 16777216 in Hn.
  rewrite (Z.mod_small (n / 65536)) by (split; [by apply Z.div_pos; lia|by apply Z.div_lt_upper_bound; lia]).
  replace (n / 65536) with (n / 256 / 256) by (by rewrite Z.div_div by lia).
  pose proof (Z.div_mod n 256). pose proof (Z.div_mod (n / 256) 256). lia.
Qed.

Definition is_write (x : buf) : bool := negb (Z.land (b_flags x) B_DIRTY =? 0).

(** The drive takes a command once it is no longer busy. *)
Definition quiet (a : ata) : Prop := ata_free (ata_finish a) = true.

(** The controller works on the request [x], from disks [disk]. *)
Definition working (x : buf) (disk : list (list Z)) (a : ata) : Prop :=
  drives a ∧
  if is_write x then quiet a ∧ a_disk (ata_finish a) 1 = <[Z.to_nat (b_blockno x):=b_data x]> disk
  else a_cmd a = AtaRead 1 (b_blockno x) ∧ a_disk a 1 = disk.

Lemma ata_out_reg port v a : ata_free a = true → port =? 0x3f6 = false → port =? 0x1f7 = false →
  ata_out latency port v a = Some (ata_reg port v a).
Proof. intros Hf H1 H2. unfold ata_out. by rewrite Hf, H1, H2. Qed.

Lemma outb_reg port v s : ata_free (id_ata s) = true → port =? 0x3f6 = false → port =? 0x1f7 = false →
  outb port v s = Ret tt (set_id_ata (ata_reg port v (id_ata s)) s).
Proof. intros Hf H1 H2. unfold outb, on_ata. by rewrite ata_out_reg. Qed.

(** A command to a drive that is free. *)
Lemma ata_out_command v a : ata_free a = true → a_count a = 1 →
  ata_out latency 0x1f7 v a =
    if v =? IDE_CMD_READ then Some (ata_set (AtaRead (a_drive a) (a_sector a)) (latency (a_drive a) (a_sector a)) a) else
    if v =? IDE_CMD_WRITE then Some (ata_set (AtaWrite (a_drive a) (a_sector a)) 0 a) else None.
Proof. intros Hf Hn. unfold ata_out. by rewrite Hf, Hn. Qed.

Lemma idestart_run b x s : id_buf s !! b = Some x → b_dev x = 1 → 0 ≤ b_blockno x < FSSIZE →
  drives (id_ata s) → quiet (id_ata s) →
  ∃ a, idestart b s = Ret tt (set_id_ata a s) ∧ working x (a_disk (ata_finish (id_ata s)) 1) a.
Proof.
  intros Hx Hdev Hb Hd Hq. unfold idestart. erewrite K_bind_Ret; [|unfold ide_get; by rewrite Hx].
  rewrite (proj2 (Z.leb_gt _ _)) by lia. change (BSIZE / SECTOR_SIZE) with 1. cbv zeta.
  change (1 =? 1) with true. change (7 <? 1) with false. cbv iota.
  kstep (idewait_run false s Hd). rewrite Z.mul_1_r, Hdev. unfold quiet in Hq. apply finish_drives in Hd.
  unfold FSSIZE in Hb. destruct (sector_registers (b_blockno x)) as [Hsec ->]; [lia|].
  set (a := ata_finish (id_ata s)) in *.
  set (r3 := Z.lor (Z.lor 0xe0 _) _).
  assert (H3 : Z.land (Z.shiftr r3 4) 1 = 1 ∧ Z.land r3 15 = 0) by done. clearbody r3.
  revert Hsec. generalize (Z.land (b_blockno x) 255) (Z.land (Z.shiftr (b_blockno x) 8) 255) (Z.land (Z.shiftr (b_blockno x) 16) 255).
  intros r0 r1 r2 Hsec. destruct H3 as [H3 H3'].
  erewrite (K_bind_Ret (outb 0x3f6 0)); [|reflexivity].
  do 5 (erewrite K_bind_Ret; [|apply outb_reg; [exact Hq|reflexivity|reflexivity]]).
  set (a5 := Ata 1 r0 r1 r2 r3 (a_cmd a) (a_busy a) (a_present a) (a_disk a)).
  match goal with |- ∃ _, ?m ?s5 = _ ∧ _ => change s5 with (set_id_ata a5 s) end.
  assert (Hreg : a_drive a5 = 1 ∧ a_sector a5 = b_blockno x).
  { unfold a_drive, a_sector. cbn [a_lba0 a_lba1 a_lba2 a_head a5]. rewrite H3, H3'. change (Z.shiftl 0 24) with 0. lia. }
  assert (Hcmd : ∀ v, outb 0x1f7 v (set_id_ata a5 s) =
    match (if v =? IDE_CMD_READ then Some (ata_set (AtaRead 1 (b_blockno x)) (latency 1 (b_blockno x)) a5) else
    if v =? IDE_CMD_WRITE then Some (ata_set (AtaWrite 1 (b_blockno x)) 0 a5) else None) with
    | Some a => Ret tt (set_id_ata a s) | None => Fault end).
  { intros v. unfold outb, on_ata. cbn [id_ata set_id_ata]. rewrite ata_out_command by done. rewrite (proj1 Hreg), (proj2 Hreg).
    destruct (v =? IDE_CMD_READ); [done|]. by destruct (v =? IDE_CMD_WRITE). }
  unfold working, is_write. destruct (negb (Z.land (b_flags x) B_DIRTY =? 0)).
  - erewrite K_bind_Ret; [|rewrite Hcmd; reflexivity]. eexists. split; [reflexivity|]. split; [done|]. split; done.
  - rewrite Hcmd. eexists. split; [reflexivity|]. split; [done|]. split; done.
Qed.

(** ** The queue *)

(** The queue [Q] is linked from [q]. *)
Fixpoint linked_queue (next : list (option nat)) (q : option nat) (Q : list nat) : Prop :=
  match Q with
  | [] => q = None
  | b :: Q => q = Some b ∧ ∃ n, next !! b = Some n ∧ linked_queue next n Q
  end.

Lemma linked_insert_ne next q Q b v : b ∉ Q → linked_queue next q Q → linked_queue (<[b:=v]> next) q Q.
Proof.
  revert q. induction Q as [|c Q IH]; intros q Hb H; [done|]. destruct H as (-> & n & Hn & H).
  split; [done|]. exists n. rewrite list_lookup_insert_ne by set_solver. split; [done|]. apply IH; [set_solver|done].
Qed.

Lemma linked_bound next q Q : linked_queue next q Q → NoDup Q → (length Q ≤ length next)%nat.
Proof.
  intros H Hnd. cut (Q ⊆+ seq 0 (length next)).
  { intros Hs%submseteq_length. by rewrite length_seq in Hs. }
  apply NoDup_submseteq; [done|].
  intros b Hb. apply elem_of_seq. split; [lia|]. revert q H. clear Hnd.
  induction Q as [|c Q IH]; intros q H; [set_solver|]. destruct H as (_ & n & Hn & H).
  apply elem_of_cons in Hb as [->|Hb]; [|by eapply IH]. apply lookup_lt_Some in Hn. lia.
Qed.

(** The loop finds the end of the queue, and a link from there appends. *)
Lemma queue_end_run fuel p Q s : linked_queue (id_qnext s) (Some p) (p :: Q) → NoDup (p :: Q) → (length Q < fuel)%nat →
  ∃ e, queue_end fuel p s = Ret e s ∧ e ∈ p :: Q ∧
    ∀ b, b ∉ p :: Q → id_qnext s !! b = Some None → linked_queue (<[e:=Some b]> (id_qnext s)) (Some p) (p :: Q ++ [b]).
Proof.
  revert p Q. induction fuel as [|fuel IH]; intros p Q (_ & n & Hn & H) Hnd Hf; [lia|].
  cbn [queue_end]. erewrite K_bind_Ret; [|reflexivity]. rewrite Hn. kred.
  destruct Q as [|c Q].
  - cbn in H. subst n. exists p. split; [done|]. split; [set_solver|]. intros b Hb Hn'. split; [done|]. exists (Some b).
    split; [by eapply insert_lookup|]. split; [done|]. exists None. rewrite list_lookup_insert_ne by set_solver. done.
  - pose proof H as (-> & _). apply NoDup_cons in Hnd as [Hp Hnd].
    destruct (IH c Q H Hnd) as (e & He & Hin & Happ); [cbn in Hf; lia|].
    exists e. split; [done|]. split; [set_solver|]. intros b Hb Hn'. split; [done|]. exists (Some c).
    rewrite list_lookup_insert_ne by set_solver. split; [done|]. apply Happ; [set_solver|done].
Qed.

Lemma ide_append_run b Q s : linked_queue (id_qnext s) (id_queue s) Q → NoDup Q → b ∉ Q → (b < length (id_qnext s))%nat →
  ∃ next, ide_append b s = Ret tt (set_id_queue (hd_error (Q ++ [b])) (set_id_qnext next s)) ∧
    length next = length (id_qnext s) ∧ linked_queue next (hd_error (Q ++ [b])) (Q ++ [b]).
Proof.
  intros Hl Hnd Hb Hlen. unfold ide_append. erewrite K_bind_Ret; [|reflexivity].
  set (s1 := set_id_qnext _ s). assert (Hb1 : id_qnext s1 !! b = Some None) by (by apply list_lookup_insert_eq).
  apply (linked_insert_ne _ _ _ b None Hb) in Hl. change (linked_queue (id_qnext s1) (id_queue s1) Q) in Hl.
  erewrite K_bind_Ret; [|reflexivity]. erewrite K_bind_Ret; [|reflexivity].
  destruct Q as [|p Q].
  - cbn in Hl. change (id_queue s1) with (id_queue s). rewrite Hl. exists (id_qnext s1).
    split; [done|]. split; [apply length_insert|]. split; [done|]. by exists None.
  - pose proof Hl as (Hq & _). rewrite Hq in *.
    pose proof (linked_bound _ _ _ Hl Hnd) as Hbound. cbn [length] in Hbound.
    destruct (queue_end_run (S (length (id_qnext s1))) p Q s1 Hl Hnd) as (e & Ee & _ & Happ); [lia|].
    kstep Ee. exists (<[e:=Some b]> (id_qnext s1)). split; [|split; [rewrite length_insert; apply length_insert|by apply Happ]].
    cbn. destruct s. cbn in Hq. by subst.
Qed.

End Driver.

(** ** The specification *)

(** The specification serves a queue of requests: it keeps the queue, the
    buffers whose processes are in [iderw], the buffers woken, and the kernel
    state as memide.c changes it. *)
Record spec : Type := Spec {
  sp_queue : list nat;
  sp_wait : list nat;
  sp_woken : list nat;
  sp_kernel : kernel;
}.

(** What happens: process [pid] calls [iderw] for a buffer, the controller
    interrupts, a process in [iderw] wakes up, time passes, a process changes a
    buffer outside [iderw]. *)
Inductive event : Type :=
| Submit (pid : Z) (b : nat)
| Intr
| Wake (b : nat)
| Elapse
| Update (b : nat) (x : buf).

(** The process that holds the buffer. *)
Definition holder (k : kernel) (b : nat) : CurProc :=
  {| cur_pid := match bc_buf (k_bc k) !! b with Some x => sl_pid (b_lock x) | None => 0 end; cur_cwd := 0 |}.

(** The result is whether the process is out of [iderw]. *)
Definition spec_event (e : event) : K spec bool := λ t,
  let '(Spec Q W wk k) := t in
  match e with
  | Submit _ b => Ret false (Spec (Q ++ [b]) (b :: W) wk k)
  | Intr =>
      match Q with
      | [] => Ret true t
      | b :: Q =>
          match @iderw (holder k b) b k with
          | Ret _ k' => Ret true (Spec Q W (wk ++ [b]) k')
          | _ => Fault
          end
      end
  | Wake b => if bool_decide (b ∈ Q) then Ret false t else Ret true (Spec Q (filter (λ c, c ≠ b) W) wk k)
  | Elapse => Ret true t
  | Update b x => Ret true (Spec Q W wk (kput b x k))
  end.

Definition ide_event (latency : Z → Z → nat) (e : event) : K ide bool :=
  match e with
  | Submit pid b => iderw_start latency pid b
  | Intr => ideintr latency;; mret true
  | Wake b => iderw_wake b
  | Elapse => modify (λ s, set_id_ata (ata_tick (id_ata s)) s);; mret true
  | Update b x => ide_set b x;; mret true
  end.

(** Running events, with the results. *)
Fixpoint run_events {S} (f : event → K S bool) (es : list event) : K S (list bool) :=
  match es with
  | [] => mret []
  | e :: es => r ← f e; rs ← run_events f es; mret (r :: rs)
  end.

(** A buffer to be read or written, of the root disk, that process [pid]
    holds. *)
Record request (k : kernel) (pid : Z) (x : buf) : Prop := {
  rq_flags : b_flags x = 0 ∨ b_flags x = Z.lor B_VALID B_DIRTY;
  rq_dev : b_dev x = ROOTDEV;
  rq_lock : b_lock x = SleepLock true pid;
  rq_size : b_blockno x < FSSIZE;
  rq_block : in_disk k (b_blockno x);
}.

(** What the kernel does: a buffer is submitted by the process that holds it
    and not changed while that process is in [iderw]. *)
Definition permitted (t : spec) (e : event) : Prop :=
  match e with
  | Submit pid b => b ∉ sp_wait t ∧ ∃ x, bc_buf (k_bc (sp_kernel t)) !! b = Some x ∧ request (sp_kernel t) pid x
  | Intr => True
  | Wake b => b ∈ sp_wait t
  | Elapse => True
  | Update b _ => b ∉ sp_wait t
  end.
Fixpoint permitted_all (t : spec) (es : list event) : Prop :=
  match es with
  | [] => True
  | e :: es => permitted t e ∧ permitted_all (run_state (spec_event e) t) es
  end.

(** The controller works on the head of the queue, or on nothing but the end
    of a write. *)
Definition device (Q : list nat) (bufs : list buf) (disk : list (list Z)) (a : ata) : Prop :=
  match Q with
  | [] => quiet a ∧ a_disk (ata_finish a) ROOTDEV = disk
  | b :: _ => ∀ x, bufs !! b = Some x → working x disk a
  end.

(** The driver's state [s] implements [t]. *)
Record implements (s : ide) (t : spec) : Prop := {
  im_lock : id_lock s = false;
  im_have : id_havedisk1 s = true;
  im_drives : drives (id_ata s);
  im_bufs : id_buf s = bc_buf (k_bc (sp_kernel t));
  im_len : length (id_qnext s) = length (id_buf s);
  im_links : linked_queue (id_qnext s) (id_queue s) (sp_queue t);
  im_nodup : NoDup (sp_queue t);
  im_waiting : ∀ b, b ∈ sp_queue t → b ∈ sp_wait t;
  im_requests : ∀ b, b ∈ sp_queue t → ∃ x pid, id_buf s !! b = Some x ∧ request (sp_kernel t) pid x;
  im_done : ∀ b, b ∈ sp_wait t → b ∉ sp_queue t → ∃ x, id_buf s !! b = Some x ∧ b_flags x = B_VALID;
  im_woken : id_woken s = sp_woken t;
  im_device : device (sp_queue t) (id_buf s) (k_disk (sp_kernel t)) (id_ata s);
}.

Section Refinement.
Context (latency : Z → Z → nat).

Lemma request_is_write k pid x : request k pid x → is_write x = negb (b_flags x =? 0).
Proof. intros [[E|E] _ _ _ _]; unfold is_write; by rewrite E. Qed.

(** memide.c serves the head. *)
Definition served (x : buf) (k : kernel) : buf :=
  if is_write x then set_b_flags B_VALID x
  else set_b_flags B_VALID (set_b_data (default [] (k_disk k !! Z.to_nat (b_blockno x))) x).
Definition served_disk (x : buf) (k : kernel) : list (list Z) :=
  if is_write x then <[Z.to_nat (b_blockno x):=b_data x]> (k_disk k) else k_disk k.

Lemma iderw_served k b pid x : bc_buf (k_bc k) !! b = Some x → request k pid x →
  ∃ k', @iderw (holder k b) b k = Ret tt k' ∧
    bc_buf (k_bc k') = <[b:=served x k]> (bc_buf (k_bc k)) ∧ k_disk k' = served_disk x k.
Proof.
  intros Hx Hr. pose proof (request_is_write _ _ _ Hr) as Hw. destruct Hr as [Hf Hdev Hl Hsz Hin].
  assert (Hl' : b_lock x = SleepLock true (@cur_pid (holder k b))) by (cbn; by rewrite Hx, Hl).
  unfold served, served_disk. rewrite Hw. destruct Hf as [Hf|Hf]; rewrite Hf; cbn [Z.eqb negb].
  - destruct (lookup_lt_is_Some_2 (k_disk k) (Z.to_nat (b_blockno x))) as [d Hd]; [unfold in_disk in Hin; lia|].
    rewrite Hd. eexists. split; [by eapply iderw_read_run|]. done.
  - eexists. split; [by eapply iderw_write_run|]. done.
Qed.

Lemma served_flags x k : b_flags (served x k) = B_VALID.
Proof. unfold served. by destruct (is_write x). Qed.

Lemma served_disk_length x k : length (served_disk x k) = length (k_disk k).
Proof. unfold served_disk. destruct (is_write x); [apply length_insert|done]. Qed.

Lemma request_frame k k' pid x : length (k_disk k') = length (k_disk k) → request k pid x → request k' pid x.
Proof. intros H []. split; try done. unfold in_disk. by rewrite H. Qed.

(** The driver completes the request that the controller works on. *)
Lemma ide_complete_run b x k pid s : id_buf s !! b = Some x → request k pid x → working x (k_disk k) (id_ata s) →
  ∃ a, ide_complete b s = Ret tt (set_id_woken (id_woken s ++ [b])
         (set_id_buf (<[b:=served x k]> (id_buf s)) (set_id_ata a s))) ∧
    drives a ∧ quiet a ∧ a_disk (ata_finish a) 1 = served_disk x k.
Proof.
  intros Hx Hr [Hd Hw]. pose proof (request_is_write _ _ _ Hr) as Hwr. unfold ide_complete.
  erewrite K_bind_Ret; [|unfold ide_get; by rewrite Hx]. unfold served, served_disk. rewrite Hwr in *.
  destruct Hr as [[Hf|Hf] Hdev Hl Hsz Hin]; rewrite Hf in *; cbn [Z.eqb negb] in *.
  - destruct Hw as [Hc Hdisk]. unfold in_disk in Hin.
    destruct (lookup_lt_is_Some_2 (k_disk k) (Z.to_nat (b_blockno x))) as [d Hlk]; [lia|].
    assert (Hfetch : ata_fetch (id_ata s) = Some d) by (unfold ata_fetch; by rewrite Hc, Hdisk).
    rewrite Hlk. cbn [default].
    exists (ata_set AtaIdle 0 (id_ata s)). split; [|by split].
    change (Z.land 0 B_DIRTY =? 0) with true. cbv iota.
    erewrite K_bind_Ret.
    2:{ kstep (idewait_run true s Hd). unfold read_failed. rewrite Hc, Hfetch, bool_decide_true by eauto.
        change (0 <=? _) with true. cbv iota.
        replace (ata_finish (id_ata s)) with (ata_set (a_cmd (id_ata s)) 0 (id_ata s)) by (unfold ata_finish; by rewrite Hc).
        erewrite K_bind_Ret; [reflexivity|]. unfold insl, on_ata, ata_in. cbn [id_ata set_id_ata a_busy ata_set].
        change (ata_fetch (ata_set _ _ _)) with (ata_fetch (id_ata s)). rewrite Hfetch. reflexivity. }
    erewrite K_bind_Ret; [|unfold ide_get; cbn; by erewrite list_lookup_insert_eq by (by eapply lookup_lt_Some)].
    unfold ide_set. kred. cbn. rewrite Hf. by rewrite list_insert_insert_eq.
  - exists (id_ata s). split; [|done].
    change (Z.land (Z.lor B_VALID B_DIRTY) B_DIRTY =? 0) with false. cbv iota. erewrite K_bind_Ret; [|reflexivity].
    erewrite K_bind_Ret; [|unfold ide_get; by rewrite Hx]. rewrite Hf. by destruct s.
Qed.

(** The end of [ideintr]: the next request is started. *)
Lemma start_next s k n Q : linked_queue (id_qnext s) n Q → drives (id_ata s) →
  quiet (id_ata s) ∧ a_disk (ata_finish (id_ata s)) ROOTDEV = k_disk k →
  (∀ b, b ∈ Q → ∃ x pid, id_buf s !! b = Some x ∧ request k pid x) →
  ∃ a, (match n with Some n => idestart latency n | None => mret tt end) s = Ret tt (set_id_ata a s) ∧
    drives a ∧ device Q (id_buf s) (k_disk k) a.
Proof.
  intros Hlinks Hd [Hq Hdisk] Hreq. destruct Q as [|c Q]; [cbn in Hlinks; subst n|destruct Hlinks as (-> & _)].
  - exists (id_ata s). by rewrite set_id_ata_same.
  - destruct (Hreq c) as (y & pid & Hy & [_ Hyd _ Hys Hyb]); [set_solver|].
    destruct (idestart_run latency c y s Hy Hyd) as (a & Ea & Hwork); [unfold in_disk in Hyb; lia|done|done|].
    exists a. split; [done|]. split; [by apply Hwork|]. intros x Hx. rewrite Hy in Hx. injection Hx as <-.
    by rewrite <- Hdisk.
Qed.

(** The interrupt that ends the request of [b]. *)
Lemma intr_run s t b Q : implements s t → sp_queue t = b :: Q →
  ∃ s' t', spec_event Intr t = Ret true t' ∧ ideintr latency s = Ret tt s' ∧ implements s' t'.
Proof.
  intros Hi HQ. destruct t as [Q0 W wk k]. cbn in HQ. subst Q0. pose proof Hi as [Hlk Hhave Hdr Hbufs Hlen Hlinks Hnd Hwait Hreq Hdone Hwk Hdev].
  cbn [sp_queue sp_wait sp_woken sp_kernel] in *.
  destruct (Hreq b) as (x & pid & Hx & Hr); [set_solver|]. destruct Hlinks as (Hq & n & Hn & Hlinks).
  apply NoDup_cons in Hnd as [Hb Hnd]. specialize (Hdev x Hx).
  destruct (iderw_served k b pid x) as (k' & Ek & Hbk & Hdk); [by rewrite <- Hbufs|done|].
  destruct (ide_complete_run b x k pid (set_id_queue n (set_id_lock true s)) Hx Hr Hdev) as (a & Ec & Hda & Hdisk).
  set (s2 := set_id_woken _ _) in Ec.
  assert (Hreq' : ∀ c, c ∈ Q → ∃ y pid', id_buf s2 !! c = Some y ∧ request k' pid' y).
  { intros c Hc. destruct (Hreq c) as (y & pid' & Hy & Hry); [set_solver|]. exists y, pid'. cbn.
    rewrite list_lookup_insert_ne by set_solver. split; [done|]. eapply request_frame; [|done].
    by rewrite Hdk, served_disk_length. }
  destruct (start_next s2 k' n Q Hlinks Hda) as (a' & Ea & Hda' & Hwork); [by rewrite Hdk|done|].
  exists (set_id_lock false (set_id_ata a' s2)), (Spec Q W (wk ++ [b]) k'). cbn [spec_event]. rewrite Ek.
  split; [done|]. split.
  { unfold ideintr. erewrite K_bind_Ret; [|unfold acquire; cbn; by rewrite Hlk]. erewrite K_bind_Ret; [|reflexivity].
    cbn [id_queue set_id_lock]. rewrite Hq. erewrite K_bind_Ret; [|reflexivity]. cbn [id_qnext set_id_lock]. rewrite Hn.
    erewrite K_bind_Ret; [|reflexivity]. erewrite K_bind_Ret; [|reflexivity].
    change (lset id_lock_l true s) with (set_id_lock true s). kstep Ec. by kstep Ea. }
  split; cbn; try done.
  - by rewrite Hbk, Hbufs.
  - by rewrite length_insert.
  - set_solver.
  - intros c Hc HcQ. destruct (decide (c = b)) as [->|].
    + exists (served x k). split; [by eapply insert_lookup|apply served_flags].
    + rewrite list_lookup_insert_ne by done. apply Hdone; set_solver.
  - by rewrite Hwk.
Qed.

(** A call of [iderw] queues its request and sleeps. *)
Lemma submit_run s t pid b : implements s t → permitted t (Submit pid b) →
  ∃ s' t', spec_event (Submit pid b) t = Ret false t' ∧ iderw_start latency pid b s = Ret false s' ∧ implements s' t'.
Proof.
  intros Hi (HbW & x & Hx & Hr). destruct t as [Q W wk k].
  pose proof Hi as [Hlk Hhave Hdr Hbufs Hlen Hlinks Hnd Hwait Hreq Hdone Hwk Hdev].
  cbn [sp_queue sp_wait sp_woken sp_kernel] in *. rewrite <- Hbufs in Hx.
  assert (HbQ : b ∉ Q) by set_solver.
  destruct (ide_append_run b Q (set_id_lock true s) Hlinks Hnd HbQ) as (next & Eapp & Hnlen & Hnlinks).
  { cbn. rewrite Hlen. by eapply lookup_lt_Some. }
  set (s2 := set_id_queue _ _) in Eapp.
  assert (Hstart : ∃ a, (if decide (id_queue s2 = Some b) then idestart latency b else mret tt) s2 = Ret tt (set_id_ata a s2) ∧
    drives a ∧ device (Q ++ [b]) (id_buf s) (k_disk k) a).
  { destruct Q as [|p Q].
    - rewrite decide_True by done. apply (start_next s2 k (Some b) [b]); [|done|done|].
      + by destruct Hnlinks.
      + intros c ->%list_elem_of_singleton. eauto.
    - rewrite decide_False by (cbn; set_solver). exists (id_ata s2). by rewrite set_id_ata_same. }
  destruct Hstart as (a & Ea & Hda & Hdev').
  exists (set_id_lock false (set_id_ata a s2)), (Spec (Q ++ [b]) (b :: W) wk k).
  split; [done|]. pose proof Hr as [Hf Hd Hlock _ _]. split.
  { unfold iderw_start. erewrite K_bind_Ret; [|unfold ide_get; by rewrite Hx]. rewrite Hlock. cbn [sl_locked sl_pid].
    rewrite Z.eqb_refl. cbn [andb negb].
    replace (Z.land (b_flags x) (Z.lor B_VALID B_DIRTY) =? B_VALID) with false by (by destruct Hf as [-> | ->]).
    erewrite K_bind_Ret; [|reflexivity]. rewrite Hhave, andb_false_r.
    erewrite K_bind_Ret; [|unfold acquire; cbn; by rewrite Hlk]. change (lset id_lock_l true s) with (set_id_lock true s).
    kstep Eapp. erewrite K_bind_Ret; [|reflexivity]. kstep Ea.
    unfold iderw_wait. erewrite K_bind_Ret; [|unfold ide_get; cbn; by rewrite Hx].
    erewrite K_bind_Ret; [|reflexivity]. by destruct Hf as [-> | ->]. }
  split; cbn; try done.
  - by rewrite Hnlen.
  - apply NoDup_app. split; [done|]. split; [set_solver|apply NoDup_singleton].
  - set_solver.
  - intros c [Hc| ->%list_elem_of_singleton]%elem_of_app; eauto.
  - intros c Hc HcQ. apply Hdone; set_solver.
Qed.

(** A process that wakes up is done exactly when its request is. *)
Lemma wake_run s t b : implements s t → permitted t (Wake b) →
  ∃ t', spec_event (Wake b) t = Ret (bool_decide (b ∉ sp_queue t)) t' ∧
    iderw_wake b s = Ret (bool_decide (b ∉ sp_queue t)) s ∧ implements s t'.
Proof.
  intros Hi Hp. assert (Hw : ∀ x, id_buf s !! b = Some x →
    iderw_wake b s = Ret (Z.land (b_flags x) (Z.lor B_VALID B_DIRTY) =? B_VALID) s).
  { intros x Hx. unfold iderw_wake, iderw_wait, acquire, release, ide_get. kred. cbn. rewrite (im_lock _ _ Hi). cbn. rewrite Hx. cbn.
    pose proof (im_lock _ _ Hi). destruct s; cbn in *. by subst. }
  cbn in Hp. destruct t as [Q W wk k]. cbn [spec_event sp_queue]. destruct (decide (b ∈ Q)) as [HbQ|HbQ].
  - rewrite bool_decide_true, bool_decide_false by naive_solver.
    destruct (im_requests _ _ Hi b HbQ) as (x & pid & Hx & Hr). exists (Spec Q W wk k). split; [done|].
    split; [|done]. rewrite (Hw x Hx). by destruct (rq_flags _ _ _ Hr) as [-> | ->].
  - rewrite bool_decide_false, bool_decide_true by done.
    destruct (im_done _ _ Hi b Hp HbQ) as (x & Hx & Hf). eexists. split; [done|].
    split; [rewrite (Hw x Hx); by rewrite Hf|]. destruct Hi as [H1 H2 H3 H4 H5 H6 H7 Hwait Hreq Hdone H8 H9]. split; cbn in *; try done.
    + intros c Hc. apply list_elem_of_filter. split; [naive_solver|auto].
    + intros c [_ Hc]%list_elem_of_filter HcQ. auto.
Qed.

Lemma update_run s t b x : implements s t → permitted t (Update b x) →
  ∃ t', spec_event (Update b x) t = Ret true t' ∧ implements (set_id_buf (<[b:=x]> (id_buf s)) s) t'.
Proof.
  intros Hi Hp. destruct t as [Q W wk k]. eexists. split; [done|]. cbn in Hp.
  destruct Hi as [H1 H2 H3 Hbufs H5 H6 H7 Hwait Hreq Hdone H8 Hdev]. split; cbn in *; try done.
  - by rewrite Hbufs.
  - by rewrite length_insert.
  - intros c Hc. rewrite list_lookup_insert_ne by set_solver. destruct (Hreq c Hc) as (y & pid & Hy & Hr).
    exists y, pid. split; [done|]. by eapply request_frame; [|exact Hr].
  - intros c Hc HcQ. rewrite list_lookup_insert_ne by set_solver. auto.
  - destruct Q as [|c Q]; [done|]. intros y Hy. apply Hdev. rewrite list_lookup_insert_ne in Hy by set_solver. done.
Qed.

(** An interrupt with no request. *)
Lemma spurious_run s t : implements s t → sp_queue t = [] → ideintr latency s = Ret tt s.
Proof.
  intros Hi HQ. pose proof (im_links _ _ Hi) as Hq. pose proof (im_lock _ _ Hi) as Hl. rewrite HQ in Hq. cbn in Hq.
  unfold ideintr, acquire, release. kred. cbn. rewrite Hl. cbn. rewrite Hq. cbn. destruct s; cbn in *. by subst.
Qed.

Lemma device_tick Q bufs disk a : device Q bufs disk a → device Q bufs disk (ata_tick a).
Proof.
  assert (Hq : quiet a → quiet (ata_tick a)) by (unfold quiet; by rewrite tick_finish).
  destruct Q as [|b Q]; cbn; [rewrite tick_finish; naive_solver|]. intros H x Hx. destruct (H x Hx) as [Hd Hw].
  split; [by apply tick_drives|]. destruct (is_write x); [rewrite tick_finish; naive_solver|].
  destruct Hw as [Hc Hdisk]. unfold ata_tick, ata_finish. rewrite Hc. by destruct (a_busy a) as [|[|n]].
Qed.

(** Time passes. *)
Lemma elapse_run s t : implements s t → implements (set_id_ata (ata_tick (id_ata s)) s) t.
Proof. intros []. split; cbn; try done; [by apply tick_drives|by apply device_tick]. Qed.

(** One event. *)
Lemma event_run s t e : implements s t → permitted t e →
  ∃ r s' t', spec_event e t = Ret r t' ∧ ide_event latency e s = Ret r s' ∧ implements s' t'.
Proof.
  intros Hi Hp. destruct e as [pid b| |b| |b x].
  - destruct (submit_run s t pid b Hi Hp) as (s' & t' & ? & ? & ?). by exists false, s', t'.
  - destruct (sp_queue t) as [|b Q] eqn:HQ.
    + exists true, s, t. cbn [ide_event]. kstep (spurious_run s t Hi HQ). destruct t. cbn in HQ. by subst.
    + destruct (intr_run s t b Q Hi HQ) as (s' & t' & ? & E & ?). exists true, s', t'. cbn [ide_event]. by kstep E.
  - destruct (wake_run s t b Hi Hp) as (t' & ? & ? & ?). by eexists _, s, t'.
  - exists true, (set_id_ata (ata_tick (id_ata s)) s), t. split; [by destruct t|]. split; [done|by apply elapse_run].
  - destruct (update_run s t b x Hi Hp) as (t' & ? & ?). by eexists true, _, t'.
Qed.

Lemma events_run es s t : implements s t → permitted_all t es →
  ∃ rs s' t', run_events spec_event es t = Ret rs t' ∧ run_events (ide_event latency) es s = Ret rs s' ∧ implements s' t'.
Proof.
  revert s t. induction es as [|e es IH]; intros s t Hi Hp; [by exists [], s, t|].
  destruct Hp as [Hp Hps]. destruct (event_run s t e Hi Hp) as (r & s1 & t1 & E1 & E2 & Hi1).
  unfold run_state in Hps. rewrite E1 in Hps. destruct (IH s1 t1 Hi1 Hps) as (rs & s' & t' & E3 & E4 & Hi').
  exists (r :: rs), s', t'. cbn [run_events]. kstep E1. kstep E3. kstep E2. by kstep E4.
Qed.

(** As many interrupts as there are requests complete them. *)
Lemma drain_run s t : implements s t →
  ∃ s', run_events (ide_event latency) (replicate (length (sp_queue t)) Intr) s = Ret (replicate (length (sp_queue t)) true) s' ∧
    ∀ b, b ∈ sp_wait t → iderw_wake b s' = Ret true s'.
Proof.
  remember (sp_queue t) as Q eqn:HQ. symmetry in HQ. revert s t HQ. induction Q as [|b Q IH]; intros s t HQ Hi; cbn [length replicate].
  - exists s. split; [done|]. intros c Hc. destruct (wake_run s t c Hi Hc) as (_ & _ & E & _).
    rewrite E, bool_decide_true; [done|]. rewrite HQ. set_solver.
  - destruct (intr_run s t b Q Hi HQ) as (s1 & t1 & E1 & E2 & Hi1).
    assert (sp_queue t1 = Q ∧ sp_wait t1 = sp_wait t) as [HQ1 HW1].
    { destruct t as [Q0 W wk k]. cbn in HQ. subst Q0. cbn [spec_event] in E1. destruct (iderw _ _); by simplify_eq. }
    destruct (IH s1 t1 HQ1 Hi1) as (s' & E' & Hw). rewrite HW1 in Hw. exists s'. split; [|done].
    cbn [run_events]. erewrite K_bind_Ret; [|cbn [ide_event]; by kstep E2]. by kstep E'.
Qed.

(** Writing a register does not disturb a drive that is free. *)
Lemma reg_finish port v a : ata_free a = true → ata_finish (ata_reg port v a) = ata_reg port v a.
Proof.
  unfold ata_free, ata_finish. cbn [a_cmd ata_reg]. intros H. destruct (a_busy a) eqn:Eb; [|done]. unfold ata_set, ata_reg. cbn.
  destruct (a_cmd a); try done; by rewrite Eb.
Qed.

(** [ideinit]: the second drive is found, its disk is as it was, the
    interrupt is routed to the last processor. *)
Lemma ideinit_run s io ncpu : drives (id_ata s) → quiet (id_ata s) → 1 ≤ ncpu ≤ 256 →
  ∃ a io', ideinit latency ncpu (s, io) = Ret tt (set_id_havedisk1 true (set_id_ata a (set_id_lock false s)), io') ∧
    drives a ∧ quiet a ∧ a_disk (ata_finish a) = a_disk (ata_finish (id_ata s)) ∧
    ∀ i, 0 ≤ i → route io' i = if i =? IRQ_IDE then Some (T_IRQ0 + IRQ_IDE, ncpu - 1) else route io i.
Proof.
  intros Hd Hq Hn. destruct (ioapicenable_run IRQ_IDE (ncpu - 1) io) as (io' & Eio & Hio); [done|lia|].
  set (a1 := ata_reg 0x1f6 (Z.lor 0xe0 (Z.shiftl 1 4)) (ata_finish (id_ata s))).
  set (a2 := ata_reg 0x1f6 (Z.lor 0xe0 (Z.shiftl 0 4)) a1). set (s1 := set_id_lock false s).
  exists a2, io'. apply finish_drives in Hd as Hd'.
  assert (Htick : ata_tick a1 = a1).
  { unfold ata_tick, quiet, ata_free in *. replace (a_busy a1) with 0%nat; [by apply reg_finish|].
    cbn. destruct (a_busy (ata_finish (id_ata s))); done. }
  split; [|split; [exact Hd'|split; [|split; [|done]]]].
  - unfold ideinit. erewrite K_bind_Ret; [|reflexivity].
    erewrite K_bind_Ret; [|exact (zoom_Ret ide_ioapic_l _ (s1, io) _ _ Eio)].
    erewrite K_bind_Ret; [|exact (zoom_Ret ide_l _ (s1, io') _ _ (idewait_run false s1 Hd))].
    erewrite K_bind_Ret; [|refine (zoom_Ret ide_l _ _ _ _ _); by apply outb_reg].
    erewrite K_bind_Ret; [refine (zoom_Ret ide_l _ (_, io') tt _ _)|refine (zoom_Ret ide_l _ (_, io') tt (set_id_havedisk1 true (set_id_ata a1 s1)) _)].
    + by apply (outb_reg latency 0x1f6 _ (set_id_havedisk1 true (set_id_ata a1 s1))).
    + change (probe 1000 (set_id_ata a1 s1) = Ret tt (set_id_havedisk1 true (set_id_ata a1 s1))).
      cbn [probe]. erewrite K_bind_Ret; [|reflexivity]. cbn [id_ata set_id_ata].
      assert (Hst : ata_status a1 =? 0 = false).
      { unfold ata_status. rewrite (drives_selected a1) by exact Hd'. cbn [negb]. destruct (a_busy a1); [|done].
        destruct (a_cmd a1); try done. by destruct (ata_fetch a1). }
      rewrite Hst, Htick. done.
  - unfold quiet, a2. rewrite reg_finish; exact Hq.
  - unfold a2. by rewrite reg_finish by exact Hq.
Qed.

(** C30: The driver of ide.c implements the disk of memide.c: from
    initialisation on, whatever the interleaving of calls of [iderw] by the
    processes that hold their buffers, of interrupts, also spurious ones, of
    wakeups, of the passing of time and of changes of other buffers, and
    however long the drives are busy, the driver never touches a drive that
    is busy, no call panics or hangs and every process leaves [iderw] exactly
    when its request has been taken from the queue; requests are taken in the
    order of the calls, one per interrupt, the buffers are as if memide's
    [iderw] had run for each, and so is the disk once the drive has finished
    the write it is busy with.  One interrupt per queued request lets every
    waiting process leave. *)
Theorem ide_refines s io ncpu k es :
  drives (id_ata s) → quiet (id_ata s) → 1 ≤ ncpu ≤ 256 → id_queue s = None → id_buf s = bc_buf (k_bc k) →
  length (id_qnext s) = length (id_buf s) → a_disk (ata_finish (id_ata s)) ROOTDEV = k_disk k →
  permitted_all (Spec [] [] (id_woken s) k) es →
  ∃ s0 io0 rs s1 t, ideinit latency ncpu (s, io) = Ret tt (s0, io0) ∧ route io0 IRQ_IDE = Some (T_IRQ0 + IRQ_IDE, ncpu - 1) ∧
    run_events spec_event es (Spec [] [] (id_woken s) k) = Ret rs t ∧
    run_events (ide_event latency) es s0 = Ret rs s1 ∧ implements s1 t ∧
    ∃ s2, run_events (ide_event latency) (replicate (length (sp_queue t)) Intr) s1 =
        Ret (replicate (length (sp_queue t)) true) s2 ∧
      ∀ b, b ∈ sp_wait t → iderw_wake b s2 = Ret true s2.
Proof.
  intros Hd Hfree Hn Hq Hb Hl Hdisk Hp. destruct (ideinit_run s io ncpu) as (a & io0 & E0 & Hda & Hqa & Hdk & Hroute); [done..|].
  set (s0 := set_id_havedisk1 _ _) in E0.
  assert (Hi0 : implements s0 (Spec [] [] (id_woken s) k)).
  { split; cbn; try done; [constructor|set_solver..|]. by rewrite Hdk. }
  destruct (events_run es s0 _ Hi0 Hp) as (rs & s1 & t & E1 & E2 & Hi1).
  exists s0, io0, rs, s1, t. split; [done|]. split; [by rewrite Hroute|]. repeat (split; [done|]). by apply drain_run.
Qed.

(** What a failed read does: the buffer keeps its old contents and becomes
    valid. *)
Lemma read_error_valid s b x : id_lock s = false → id_queue s = Some b → id_qnext s !! b = Some None →
  id_buf s !! b = Some x → b_flags x = 0 → drives (id_ata s) → read_failed (id_ata s) = true →
  ∃ s', ideintr latency s = Ret tt s' ∧ id_buf s' !! b = Some (set_b_flags B_VALID x).
Proof.
  intros Hl Hq Hn Hx Hf Hd Hr. eexists. split.
  - unfold ideintr. erewrite K_bind_Ret; [|unfold acquire; cbn; by rewrite Hl]. erewrite K_bind_Ret; [|reflexivity]. cbn [id_queue set_id_lock lset id_lock_l].
    rewrite Hq. erewrite K_bind_Ret; [|reflexivity]. cbn [id_qnext set_id_lock]. rewrite Hn.
    erewrite K_bind_Ret; [|reflexivity]. erewrite K_bind_Ret; [|reflexivity]. erewrite K_bind_Ret; [|].
    2:{ unfold ide_complete. erewrite K_bind_Ret; [|unfold ide_get; cbn; by rewrite Hx]. rewrite Hf.
        change (Z.land 0 B_DIRTY =? 0) with true. cbv iota.
        erewrite K_bind_Ret. 2:{ erewrite K_bind_Ret; [|by apply idewait_run]. cbn [id_ata set_id_queue set_id_lock]. rewrite Hr. reflexivity. }
        erewrite K_bind_Ret; [|unfold ide_get; cbn; by rewrite Hx]. rewrite Hf. reflexivity. }
    reflexivity.
  - cbn. by eapply insert_lookup.
Qed.

End Refinement.

(** Two processes read and write the same block. *)
Definition wit_disk : list (list Z) := [[0]; [7]].
Definition wit_buf (flags pid d : Z) : buf := Buf flags ROOTDEV 1 (SleepLock true pid) 1 [d].
Definition wit_events : list event :=
  [Update 0 (wit_buf 0 3 0); Submit 3 0; Update 1 (wit_buf (Z.lor B_VALID B_DIRTY) 4 9); Submit 4 1; Wake 1; Elapse; Intr; Wake 0; Intr; Elapse; Intr; Wake 1].
Definition wit_ide : ide :=
  Ide false None (replicate NBUF None) (bc_buf (k_bc (bss_kernel wit_disk))) false
    (Ata 0 0 0 0 0 AtaIdle 2 (λ _, true) (λ d, if d =? 1 then wit_disk else [])) [].

Lemma ide_refines_witness : ∃ s0 io0 rs s1 t, ideinit (λ _ n, Z.to_nat n) 2 (wit_ide, IoApic 0 (λ _, 0)) = Ret tt (s0, io0) ∧
    route io0 IRQ_IDE = Some (46, 1) ∧
    run_events spec_event wit_events (Spec [] [] [] (bss_kernel wit_disk)) = Ret rs t ∧
    run_events (ide_event (λ _ n, Z.to_nat n)) wit_events s0 = Ret rs s1 ∧ implements s1 t ∧
    ∃ s2, run_events (ide_event (λ _ n, Z.to_nat n)) (replicate (length (sp_queue t)) Intr) s1 =
        Ret (replicate (length (sp_queue t)) true) s2 ∧
      ∀ b, b ∈ sp_wait t → iderw_wake b s2 = Ret true s2.
Proof.
  apply (ide_refines (λ _ n, Z.to_nat n) wit_ide (IoApic 0 (λ _, 0)) 2 (bss_kernel wit_disk) wit_events); try reflexivity; [by split|lia|].
  assert (Hreq : ∀ k f pid d, f = 0 ∨ f = Z.lor B_VALID B_DIRTY → length (k_disk k) = 2%nat → request k pid (wit_buf f pid d)).
  { intros k f pid d Hf Hk. split; try done. unfold in_disk. rewrite Hk. cbn. lia. }
  assert (Hsub : ∀ t f pid b d, b ∉ sp_wait t → bc_buf (k_bc (sp_kernel t)) !! b = Some (wit_buf f pid d) →
    f = 0 ∨ f = Z.lor B_VALID B_DIRTY → length (k_disk (sp_kernel t)) = 2%nat → permitted t (Submit pid b)).
  { intros t f pid b d HW Hb Hf Hk. split; [done|]. eexists. split; [exact Hb|]. by apply Hreq. }
  unfold wit_events. cbn [permitted_all]. split_and!; try exact I;
    try (cbn [permitted]; apply (bool_decide_unpack _); vm_compute; exact I).
  - eapply (Hsub _ 0 3 0%nat 0); try (vm_compute; reflexivity); [|by left]. apply (bool_decide_unpack _). vm_compute. exact I.
  - eapply (Hsub _ (Z.lor B_VALID B_DIRTY) 4 1%nat 9); try (vm_compute; reflexivity); [|by right]. apply (bool_decide_unpack _). vm_compute. exact I.
Defined.
