(* ===== verification/Boot.v ===== *)
(** * Boot: the boot loader (bootmain.c)

    The loader runs on the physical memory, a function from addresses to
    bytes, and reads the first drive of the ATA controller of Ide.v, which
    must not be written or read while it is busy.  The kernel is an ELF image
    that starts at sector 1.  [bootmain_loads] shows
    that every segment is in memory at the end, although [readseg] reads
    whole sectors and so writes before and after what it is asked for. *)

From Stdlib Require Import ZArith Lia.
From stdpp Require Import base numbers strings gmap list.
From S2P Require Import Prelude CString Ide.
Open Scope Z_scope.

Definition SECTSIZE : Z := 512.
Definition ELF_MAGIC : Z := 0x464C457F.
Definition SCRATCH : Z := 0x10000.

Record boot : Type := Boot {
  bt_mem : memory;
  bt_ata : ata;
}.
Definition set_bt_mem (m : memory) (s : boot) : boot := Boot m (bt_ata s).
Definition set_bt_ata (a : ata) (s : boot) : boot := Boot (bt_mem s) a.

(** Bytes stored from an address on. *)
Definition store_bytes (m : memory) (dst : Z) (d : list Z) : memory := λ a,
  if decide (dst ≤ a < dst + Z.of_nat (length d)) then nth (Z.to_nat (a - dst)) d 0 else m a.

(** elf.h: the fields of [struct elfhdr] at [a] and of [struct proghdr]. *)
Definition elf_magic (m : memory) (a : Z) : Z := mword m 4 a.
Definition elf_entry (m : memory) (a : Z) : Z := mword m 4 (a + 24).
Definition elf_phoff (m : memory) (a : Z) : Z := mword m 4 (a + 28).
Definition elf_phnum (m : memory) (a : Z) : Z := mword m 2 (a + 44).
Definition PROGHDR : Z := 32.
Record proghdr : Type := Proghdr {
  ph_off : Z;
  ph_paddr : Z;
  ph_filesz : Z;
  ph_memsz : Z;
}.
Definition proghdr_at (m : memory) (a : Z) : proghdr :=
  Proghdr (mword m 4 (a + 4)) (mword m 4 (a + 12)) (mword m 4 (a + 16)) (mword m 4 (a + 20)).

Section Loader.
Context (latency : Z → Z → nat).

Definition boot_outb (port v : Z) : K boot unit := λ s,
  match ata_out latency port (u8 v) (bt_ata s) with
  | Some a => Ret tt (set_bt_ata a s)
  | None => Fault
  end.
(** [insl] of a sector to [dst]. *)
Definition boot_insl (dst : Z) : K boot unit := λ s,
  match ata_in (bt_ata s) with
  | Some (d, a) => Ret tt (Boot (store_bytes (bt_mem s) dst d) a)
  | None => Fault
  end.

Fixpoint waitdisk_loop (fuel : nat) : K boot unit :=
  match fuel with
  | O => nofuel
  | S fuel =>
      r ← gets (λ s, ata_status (bt_ata s));
      modify (λ s, set_bt_ata (ata_tick (bt_ata s)) s);;
      if negb (Z.land r 0xC0 =? 0x40) then waitdisk_loop fuel else mret tt
  end.
Definition waitdisk : K boot unit :=
  busy ← gets (λ s, a_busy (bt_ata s));
  waitdisk_loop (S busy).

Definition readsect (dst offset : Z) : K boot unit :=
  waitdisk;;
  boot_outb 0x1F2 1;;
  boot_outb 0x1F3 offset;;
  boot_outb 0x1F4 (Z.shiftr offset 8);;
  boot_outb 0x1F5 (Z.shiftr offset 16);;
  boot_outb 0x1F6 (Z.lor (Z.shiftr offset 24) 0xE0);;
  boot_outb 0x1F7 0x20;;
  waitdisk;;
  boot_insl dst.

Fixpoint readseg_loop (fuel : nat) (pa epa offset : Z) : K boot unit :=
  match fuel with
  | O => nofuel
  | S fuel =>
      if pa <? epa then
        readsect pa offset;;
        readseg_loop fuel (u32 (pa + SECTSIZE)) epa (u32 (offset + 1))
      else mret tt
  end.

Definition readseg (pa count offset : Z) : K boot unit :=
  let epa := u32 (pa + count) in
  let pa := u32 (pa - offset mod SECTSIZE) in
  let offset := u32 (offset / SECTSIZE + 1) in
  readseg_loop (Z.to_nat (count / SECTSIZE) + 3) pa epa offset.

(** The loop over the program headers, [n] of them from [ph] on. *)
Fixpoint load_loop (n : nat) (ph : Z) : K boot unit :=
  match n with
  | O => mret tt
  | S n =>
      h ← gets (λ s, proghdr_at (bt_mem s) ph);
      let pa := ph_paddr h in
      readseg pa (ph_filesz h) (ph_off h);;
      (if ph_filesz h <? ph_memsz h then
         modify (λ s, set_bt_mem (stosb (bt_mem s) (u32 (pa + ph_filesz h)) 0 (Z.to_nat (ph_memsz h - ph_filesz h))) s)
       else mret tt);;
      load_loop n (u32 (ph + PROGHDR))
  end.

(** The entry point that is called, or [None] for the return to bootasm.S. *)
Definition bootmain : K boot (option Z) :=
  let elf := SCRATCH in
  readseg elf 4096 0;;
  magic ← gets (λ s, elf_magic (bt_mem s) elf);
  if negb (magic =? ELF_MAGIC) then mret None else
  phoff ← gets (λ s, elf_phoff (bt_mem s) elf);
  phnum ← gets (λ s, elf_phnum (bt_mem s) elf);
  load_loop (Z.to_nat phnum) (u32 (elf + phoff));;
  entry ← gets (λ s, elf_entry (bt_mem s) elf);
  mret (Some entry).

(** ** Reading *)

(** The drive has the image: sector [1 + i] holds the bytes from [512 i] on,
    for an image of [n] sectors. *)
Record has_image (image : Z → Z) (n : Z) (a : ata) : Prop := {
  hi_drive : a_present a 0 = true ∧ a_present a 1 = true;
  hi_small : 0 ≤ n < 2 ^ 22;
  hi_sector : ∀ i, 0 ≤ i < n → a_disk a 0 !! Z.to_nat (i + 1) = Some ((λ j, image (SECTSIZE * i + Z.of_nat j)) <$> seq 0 (Z.to_nat SECTSIZE));
}.

Lemma waitdisk_loop_run n s : drives (bt_ata s) → read_failed (bt_ata s) = false → a_busy (bt_ata s) = n →
  waitdisk_loop (S n) s = Ret tt (set_bt_ata (ata_finish (bt_ata s)) s).
Proof.
  assert (Heq : ∀ fuel, waitdisk_loop (S fuel) = (r ← gets (λ s, ata_status (bt_ata s));
    modify (λ s, set_bt_ata (ata_tick (bt_ata s)) s);;
    if negb (Z.land r 0xC0 =? 0x40) then waitdisk_loop fuel else mret tt)) by done.
  revert s. induction n as [|n IH]; intros s Hd Hr Hb; rewrite Heq; do 2 (erewrite K_bind_Ret; [|reflexivity]).
  - rewrite status_ready by done. rewrite Hr. unfold ata_tick. by rewrite Hb.
  - rewrite (status_busy _ n) by done. change (Z.land IDE_BSY 192 =? 64) with false. cbn [negb].
    rewrite IH; cbn [bt_ata set_bt_ata]; [by rewrite tick_finish|by apply tick_drives|by rewrite tick_failed|by rewrite tick_busy, Hb].
Qed.
Lemma waitdisk_run s : drives (bt_ata s) → read_failed (bt_ata s) = false →
  waitdisk s = Ret tt (set_bt_ata (ata_finish (bt_ata s)) s).
Proof. intros Hd Hr. unfold waitdisk. erewrite K_bind_Ret; [|reflexivity]. by apply waitdisk_loop_run. Qed.

Lemma boot_outb_reg port v s : ata_free (bt_ata s) = true → port =? 0x3f6 = false → port =? 0x1f7 = false →
  boot_outb port v s = Ret tt (set_bt_ata (ata_reg port (u8 v) (bt_ata s)) s).
Proof. intros Hf H1 H2. unfold boot_outb. by rewrite ata_out_reg. Qed.

(** The state after a read: the memory has the bytes [f] from [pa] on and is
    unchanged elsewhere, and the drive has not changed. *)
Record loads (f : Z → Z) (pa len : Z) (s s' : boot) : Prop := {
  ld_mem : ∀ a, bt_mem s' a = if decide (pa ≤ a < pa + len) then f (a - pa) else bt_mem s a;
  ld_disk : a_disk (bt_ata s') = a_disk (bt_ata s);
  ld_present : a_present (bt_ata s') = a_present (bt_ata s);
  ld_idle : a_cmd (bt_ata s') = AtaIdle;
}.

Lemma loads_image f pa len s s' image n : loads f pa len s s' → has_image image n (bt_ata s) → has_image image n (bt_ata s').
Proof. intros [_ Hd Hp _] [H1 H2 H3]. split; [by rewrite Hp|done|by rewrite Hd]. Qed.

Lemma store_bytes_spec m dst g n a :
  store_bytes m dst ((λ j, g (Z.of_nat j)) <$> seq 0 n) a = if decide (dst ≤ a < dst + Z.of_nat n) then g (a - dst) else m a.
Proof.
  unfold store_bytes. rewrite length_fmap, length_seq. case_decide as Ha; [|done].
  rewrite (nth_lookup_Some _ _ 0 (g (a - dst))); [done|]. rewrite list_lookup_fmap, lookup_seq_lt by lia.
  cbn. f_equal. f_equal. lia.
Qed.

Lemma readsect_run image n s dst i : has_image image n (bt_ata s) → a_cmd (bt_ata s) = AtaIdle → 0 ≤ i < n →
  ∃ s', readsect dst (i + 1) s = Ret tt s' ∧
    loads (λ j, image (SECTSIZE * i + j)) dst SECTSIZE s s'.
Proof.
  intros [Hd Hn Hsec] Hc Hi. unfold readsect.
  erewrite K_bind_Ret; [|apply waitdisk_run; [done|unfold read_failed; by rewrite Hc]].
  destruct (sector_registers (i + 1)) as [Hreg H24]; [lia|]. specialize (Hsec i Hi).
  set (sec := _ <$> _) in *.
  destruct s as [m [c l0 l1 l2 h cmd busy pres disk]]. cbn in Hc, Hd, Hsec. subst cmd.
  do 5 (erewrite K_bind_Ret; [|apply boot_outb_reg; reflexivity]).
  set (a5 := Ata 1 (u8 (i + 1)) (u8 (Z.shiftr (i + 1) 8)) (u8 (Z.shiftr (i + 1) 16)) (u8 (Z.lor (Z.shiftr (i + 1) 24) 0xE0)) AtaIdle 0 pres disk).
  match goal with |- context [(boot_outb 0x1F7 0x20 ≫= _) ?s5] => change s5 with (Boot m a5) end.
  assert (Hr : a_drive a5 = 0 ∧ a_sector a5 = i + 1).
  { unfold a_drive, a_sector, a5. rewrite H24. change (u8 (Z.lor 0 224)) with 224. split; [done|]. cbn [a_lba0 a_lba1 a_lba2 a_head].
    change (Z.shiftl (Z.land 224 15) 24) with 0. change 255 with (Z.ones 8) in Hreg. rewrite !Z.land_ones in Hreg by done. unfold u8. lia. }
  set (a6 := ata_set (AtaRead 0 (i + 1)) (latency 0 (i + 1)) a5).
  erewrite (K_bind_Ret (boot_outb _ _) _ _ tt (Boot m a6)).
  2:{ unfold boot_outb. cbn [bt_ata]. rewrite ata_out_command by reflexivity. rewrite (proj1 Hr), (proj2 Hr). reflexivity. }
  assert (Hf : ata_fetch a6 = Some sec) by (unfold ata_fetch; cbn; exact Hsec).
  assert (Hnf : read_failed a6 = false) by (unfold read_failed; rewrite Hf; done).
  erewrite K_bind_Ret; [|by apply waitdisk_run]. cbn [bt_ata set_bt_ata bt_mem].
  assert (Hin : ata_in (ata_finish a6) = Some (sec, ata_set AtaIdle 0 a6)).
  { unfold ata_fetch in Hf. cbn in Hf. unfold ata_in, ata_fetch. cbn. by rewrite Hf. }
  eexists. split; [unfold boot_insl; cbn [bt_ata set_bt_ata]; rewrite Hin; reflexivity|].
  split; try done. intros a. exact (store_bytes_spec m dst (λ j, image (SECTSIZE * i + j)) (Z.to_nat SECTSIZE) a).
Qed.

(** The number [k] of sectors from [pa] up to [epa]. *)
Definition sectors_to (k : nat) (pa epa : Z) : Prop :=
  k = 0%nat ∧ epa ≤ pa ∨ pa + SECTSIZE * (Z.of_nat k - 1) < epa ≤ pa + SECTSIZE * Z.of_nat k.

Lemma readseg_loop_run image n k : ∀ fuel s pa epa i, has_image image n (bt_ata s) → a_cmd (bt_ata s) = AtaIdle →
  sectors_to k pa epa → (k < fuel)%nat → 0 ≤ pa → epa < 2 ^ 32 - SECTSIZE → 0 ≤ i → i + Z.of_nat k ≤ n →
  ∃ s', readseg_loop fuel pa epa (i + 1) s = Ret tt s' ∧ loads (λ j, image (SECTSIZE * i + j)) pa (SECTSIZE * Z.of_nat k) s s'.
Proof.
  unfold sectors_to. induction k as [|k IH]; intros [|fuel] s pa epa i Him Hc Hk Hf Hpa Hepa Hi Hn; try lia; cbn [readseg_loop]; unfold SECTSIZE in *.
  - rewrite (proj2 (Z.ltb_ge _ _)) by lia. exists s. split; [done|]. split; try done. intros a. by rewrite decide_False by lia.
  - rewrite (proj2 (Z.ltb_lt _ _)) by lia. destruct (readsect_run image n s pa i Him Hc) as (s1 & E1 & L1); [lia|].
    pose proof (hi_small _ _ _ Him). kstep E1. rewrite !u32_small by lia.
    destruct (IH fuel s1 (pa + 512) epa (i + 1)) as (s' & E' & L'); [by eapply loads_image|apply L1|lia..|].
    exists s'. split; [done|]. destruct L1 as [M1 D1 P1 C1], L' as [M' D' P' C']. unfold SECTSIZE in *. split; [|congruence..|done].
    intros a. rewrite M', M1. repeat case_decide; try lia; f_equal; lia.
Qed.

(** [readseg] loads whole sectors around the range asked for. *)
Lemma readseg_run image n s pa count off : has_image image n (bt_ata s) → a_cmd (bt_ata s) = AtaIdle →
  0 ≤ count → 0 ≤ off → off + count ≤ SECTSIZE * n → off mod SECTSIZE ≤ pa → pa + count < 2 ^ 32 - SECTSIZE →
  ∃ s' len, readseg pa count off s = Ret tt s' ∧ off mod SECTSIZE + count ≤ len ∧
    loads (λ j, image (off - off mod SECTSIZE + j)) (pa - off mod SECTSIZE) len s s'.
Proof.
  intros Him Hc Hcount Hoff Hin Hpa Hend. unfold readseg. pose proof (hi_small _ _ _ Him) as Hn.
  pose proof (Z.div_mod off SECTSIZE) as Hdm. pose proof (Z.mod_pos_bound off SECTSIZE) as Hr.
  unfold SECTSIZE in *. set (q := off / 512) in *. set (r := off mod 512) in *.
  rewrite !u32_small by lia. set (k := Z.to_nat ((count + r + 511) / 512)).
  assert (Hk : count + r ≤ 512 * Z.of_nat k < count + r + 512).
  { unfold k. rewrite Z2Nat.id by (apply Z.div_pos; lia). pose proof (Z.div_mod (count + r + 511) 512).
    pose proof (Z.mod_pos_bound (count + r + 511) 512). lia. }
  pose proof (Z.div_mod count 512). pose proof (Z.mod_pos_bound count 512).
  destruct (readseg_loop_run image n k (Z.to_nat (count / 512) + 3) s (pa - r) (pa + count) q Him Hc) as (s' & E & L);
    [unfold sectors_to, SECTSIZE; lia|lia|lia|unfold SECTSIZE; lia|lia|lia|].
  exists s', (512 * Z.of_nat k). split; [done|]. split; [lia|]. unfold SECTSIZE in L. by replace (off - r) with (512 * q) by lia.
Qed.

(** ** Loading the segments *)

Lemma proghdr_ext m m' a b : (∀ i, 0 ≤ i < PROGHDR → m (a + i) = m' (b + i)) → proghdr_at m a = proghdr_at m' b.
Proof.
  intros H. unfold PROGHDR in H. unfold proghdr_at. f_equal; apply mword_ext; intros i Hi; rewrite <- !Z.add_assoc; apply H; lia.
Qed.

(** The program headers of an image. *)
Definition proghdrs (image : Z → Z) : list proghdr :=
  (λ i, proghdr_at image (elf_phoff image 0 + PROGHDR * Z.of_nat i)) <$> seq 0 (Z.to_nat (elf_phnum image 0)).

Definition seg_len (h : proghdr) : Z := Z.max (ph_filesz h) (ph_memsz h).

(** The segments lie above [lo] in increasing order, and where the first
    sector of one starts, the one before has ended.  They may end inside the
    last sector that is read for them. *)
Fixpoint laid_out (n lo : Z) (hs : list proghdr) : Prop :=
  match hs with
  | [] => True
  | h :: hs =>
      lo ≤ ph_paddr h - ph_off h mod SECTSIZE ∧ ph_paddr h + seg_len h < 2 ^ 32 - SECTSIZE ∧
      ph_off h + ph_filesz h ≤ SECTSIZE * n ∧ 0 ≤ ph_off h ∧ 0 ≤ ph_filesz h ∧
      laid_out n (ph_paddr h + seg_len h) hs
  end.

(** The segment is in memory. *)
Definition loaded (image : Z → Z) (m : memory) (h : proghdr) : Prop :=
  ∀ i, 0 ≤ i < seg_len h → m (ph_paddr h + i) = if i <? ph_filesz h then image (ph_off h + i) else 0.

(** The first page of the image is in the scratch space. *)
Definition header_read (image : Z → Z) (m : memory) : Prop := ∀ i, 0 ≤ i < 4096 → m (SCRATCH + i) = image i.

(** One segment: bytes below its first sector stay. *)
Lemma segment_run image n s h lo hs : has_image image n (bt_ata s) → a_cmd (bt_ata s) = AtaIdle → 0 ≤ lo →
  laid_out n lo (h :: hs) →
  ∃ s', (readseg (ph_paddr h) (ph_filesz h) (ph_off h);;
         if ph_filesz h <? ph_memsz h then
           modify (λ s, set_bt_mem (stosb (bt_mem s) (u32 (ph_paddr h + ph_filesz h)) 0 (Z.to_nat (ph_memsz h - ph_filesz h))) s)
         else mret tt) s = Ret tt s' ∧
    has_image image n (bt_ata s') ∧ a_cmd (bt_ata s') = AtaIdle ∧
    loaded image (bt_mem s') h ∧ ∀ a, a < lo → bt_mem s' a = bt_mem s a.
Proof.
  intros Him Hc Hlo (H1 & H2 & H3 & H4 & H5 & _). pose proof (Z.mod_pos_bound (ph_off h) SECTSIZE) as Hr.
  unfold loaded, seg_len in *. assert (H512 : SECTSIZE = 512) by done.
  destruct (readseg_run image n s (ph_paddr h) (ph_filesz h) (ph_off h) Him Hc) as (s1 & len & E1 & Hlen & L1); [done|done|done|lia|lia|].
  set (r := ph_off h mod SECTSIZE) in *. clearbody r. kstep E1. pose proof (loads_image _ _ _ _ _ _ _ L1 Him) as Him1. destruct L1 as [M1 D1 P1 C1].
  destruct (Z.ltb_spec (ph_filesz h) (ph_memsz h)); eexists; (split; [reflexivity|]); (do 2 (split; [done|])); cbn [bt_mem set_bt_mem].
  - rewrite u32_small by lia. split; [intros i Hi|intros a Ha]; rewrite stosb_spec, M1.
    + destruct (Z.ltb_spec i (ph_filesz h)); repeat case_decide; try lia; [f_equal; lia|done].
    + repeat case_decide; lia.
  - split; [intros i Hi|intros a Ha]; rewrite M1.
    + rewrite (proj2 (Z.ltb_lt _ _)) by lia. rewrite decide_True by lia. f_equal. lia.
    + by rewrite decide_False by lia.
Qed.

Lemma laid_out_weaken n lo lo' hs : lo' ≤ lo → laid_out n lo hs → laid_out n lo' hs.
Proof. destruct hs; [done|]. intros H (H1 & H2). split; [lia|done]. Qed.

Lemma load_loop_run image n hs : ∀ lo s p, has_image image n (bt_ata s) → a_cmd (bt_ata s) = AtaIdle →
  laid_out n lo hs → SCRATCH + 4096 ≤ lo → header_read image (bt_mem s) → 0 ≤ p → p + PROGHDR * Z.of_nat (length hs) ≤ 4096 →
  (∀ i h, hs !! i = Some h → proghdr_at image (p + PROGHDR * Z.of_nat i) = h) →
  ∃ s', load_loop (length hs) (SCRATCH + p) s = Ret tt s' ∧ Forall (loaded image (bt_mem s')) hs ∧ ∀ a, a < lo → bt_mem s' a = bt_mem s a.
Proof.
  unfold SCRATCH, PROGHDR. induction hs as [|h hs IH]; intros lo s p Him Hc Hlay Hlo Hhdr Hp Hlen Hhs; cbn [load_loop length] in *; [by exists s|].
  erewrite K_bind_Ret; [|reflexivity].
  assert (Hh : proghdr_at (bt_mem s) (0x10000 + p) = h).
  { rewrite <- (Hhs 0%nat h eq_refl). apply proghdr_ext. unfold PROGHDR. intros i Hi. rewrite <- Z.add_assoc, Hhdr by lia. f_equal. lia. }
  rewrite Hh. destruct (segment_run image n s h lo hs Him Hc) as (s1 & E1 & Him1 & Hc1 & Hl1 & Hlow); [lia|done|].
  assert (Hstep : ∀ f : unit → K boot unit, (readseg (ph_paddr h) (ph_filesz h) (ph_off h);;
     (if ph_filesz h <? ph_memsz h then
        modify (λ s, set_bt_mem (stosb (bt_mem s) (u32 (ph_paddr h + ph_filesz h)) 0 (Z.to_nat (ph_memsz h - ph_filesz h))) s)
      else mret tt);; f tt) s = f tt s1).
  { intros f. revert E1. kred. destruct (readseg _ _ _ s); [|done..]. destruct (_ <? _); by intros [= ->]. }
  rewrite (Hstep (λ _, load_loop (length hs) (u32 (0x10000 + p + PROGHDR)))). unfold PROGHDR. rewrite u32_small, <- Z.add_assoc by lia.
  pose proof Hlay as (Hl0 & Hl2 & _ & Ho & Hfs & Hlay'). pose proof (Z.mod_pos_bound (ph_off h) SECTSIZE ltac:(done)).
  assert (0 ≤ seg_len h) by (unfold seg_len; lia).
  destruct (IH (ph_paddr h + seg_len h) s1 (p + 32) Him1 Hc1 Hlay') as (s' & E' & Hall & Hlow'); [lia| |lia|lia| |].
  { intros i Hi. unfold SCRATCH. rewrite Hlow by lia. by apply Hhdr. }
  { intros i h' Hi. rewrite <- (Hhs (S i) h' Hi). f_equal. lia. }
  exists s'. split; [done|]. split.
  - constructor; [|done]. intros i Hi. rewrite Hlow' by lia. by apply Hl1.
  - intros a Ha. rewrite Hlow' by lia. by apply Hlow.
Qed.

(** C38: The boot loader loads the kernel.  For every image of at least eight
    sectors on the first drive, however long the drive is busy, which
    [bootmain] never touches before it is ready: [bootmain] returns without
    calling an entry point when the image does not start as an ELF file.  If
    it does, when the program headers are in the first page and the segments
    lie above the scratch page in increasing order, inside the image and
    below the end of the address space, it calls the entry point of the
    header with every segment in memory, its bytes from the file and zeros
    after them: the bytes that reading whole sectors writes around a segment
    never stay in another one. *)
Theorem bootmain_loads image n s : has_image image n (bt_ata s) → a_cmd (bt_ata s) = AtaIdle → 8 ≤ n → (∀ a, is_byte (image a)) →
  if elf_magic image 0 =? ELF_MAGIC
  then elf_phoff image 0 + PROGHDR * elf_phnum image 0 ≤ 4096 → laid_out n (SCRATCH + 4096) (proghdrs image) →
    ∃ s', bootmain s = Ret (Some (elf_entry image 0)) s' ∧ Forall (loaded image (bt_mem s')) (proghdrs image)
  else ∃ s', bootmain s = Ret None s'.
Proof.
  intros Him Hc Hn Hb. unfold bootmain. unfold SCRATCH in *.
  destruct (readseg_run image n s 0x10000 4096 0 Him Hc) as (s1 & len & E1 & Hlen & L1);
    [lia|lia|unfold SECTSIZE; lia|by vm_compute|unfold SECTSIZE; lia|].
  change (0 mod SECTSIZE) with 0 in *. kstep E1.
  assert (Hhdr : header_read image (bt_mem s1)).
  { intros i Hi. unfold SCRATCH. rewrite (ld_mem _ _ _ _ _ L1), decide_True by lia. f_equal. lia. }
  assert (Hw : ∀ m k a, header_read image m → 0 ≤ a → a + Z.of_nat k ≤ 4096 → mword m k (0x10000 + a) = mword image k a).
  { intros m k a Hm Ha Hk. apply mword_ext. intros i Hi. rewrite <- Z.add_assoc. apply Hm. lia. }
  erewrite K_bind_Ret; [|reflexivity]. 
  assert (Hmagic : elf_magic (bt_mem s1) 0x10000 = elf_magic image 0) by (apply (Hw (bt_mem s1) 4%nat 0 Hhdr); lia). rewrite Hmagic. destruct (_ =? ELF_MAGIC); [|by exists s1]. intros Hph Hlay. cbn [negb].
  do 2 (erewrite K_bind_Ret; [|reflexivity]). unfold elf_phnum at 1, elf_phoff at 1. rewrite (Hw (bt_mem s1) 4%nat 28 Hhdr), (Hw (bt_mem s1) 2%nat 44 Hhdr) by lia.
  pose proof (mword_nonneg image 4 28 Hb) as Hp0. pose proof (mword_nonneg image 2 44 Hb) as Hp1. unfold PROGHDR in Hph.
  change (mword image 4 28) with (elf_phoff image 0) in *. change (mword image 2 44) with (elf_phnum image 0) in *. rewrite u32_small by lia.
  destruct (load_loop_run image n (proghdrs image) (0x10000 + 4096) s1 (elf_phoff image 0)) as (s' & E' & Hall & Hlow);
    [by eapply loads_image|apply L1|done|done|done|done| | |].
  { unfold proghdrs, PROGHDR. rewrite length_fmap, length_seq. lia. }
  { intros i h. unfold proghdrs. rewrite list_lookup_fmap. intros (k & Hk & ->)%fmap_Some. apply lookup_seq in Hk as [-> _]. done. }
  unfold SCRATCH, proghdrs in E'. rewrite length_fmap, length_seq in E'. kstep E'. erewrite K_bind_Ret; [|reflexivity].
  unfold elf_entry at 1. rewrite (Hw (bt_mem s') 4%nat 24); [by exists s'| |lia|lia].
  intros i Hi. unfold SCRATCH. rewrite Hlow by lia. by apply Hhdr.
Qed.

End Loader.

(** An image of nine sectors with two segments, the first of which starts and
    ends inside a sector. *)
Definition wit_bytes : list Z :=
  list_inserts 0 (le_bytes 4 ELF_MAGIC) (list_inserts 24 (le_bytes 4 0x100010 ++ le_bytes 4 52) (list_inserts 44 (le_bytes 2 2)
  (list_inserts 52 (concat (le_bytes 4 <$> [1; 528; 0; 0x100010; 5; 9; 0; 0; 1; 1024; 0; 0x100100; 3; 3; 0; 0]))
  (list_inserts 528 [1; 2; 3; 4; 5] (list_inserts 1024 [6; 7; 8] (replicate 4608 0)))))).
Definition wit_image (i : Z) : Z := if i <? 0 then 0 else nth (Z.to_nat i) wit_bytes 0.
Definition image_sectors (image : Z → Z) (n : Z) : list (list Z) :=
  [] :: ((λ i, (λ j, image (SECTSIZE * i + Z.of_nat j)) <$> seq 0 (Z.to_nat SECTSIZE)) <$> seqZ 0 n).
Lemma image_sectors_ok image n k l0 l1 l2 h c b : 0 ≤ n < 2 ^ 22 →
  has_image image n (Ata k l0 l1 l2 h c b (λ _, true) (λ _, image_sectors image n)).
Proof.
  intros Hn. split; [done|done|]. intros i Hi. cbn [a_disk]. unfold image_sectors. replace (Z.to_nat (i + 1)) with (S (Z.to_nat i)) by lia.
  rewrite lookup_cons. rewrite list_lookup_fmap, lookup_seqZ_lt by lia. cbn [fmap option_fmap option_map]. by rewrite Z2Nat.id, Z.add_0_l by lia.
Qed.
Definition wit_boot : boot :=
  Boot (λ _, 0) (Ata 0 0 0 0 0 AtaIdle 3 (λ _, true) (λ _, image_sectors wit_image 9)).

Lemma bootmain_loads_witness : ∃ s', bootmain (λ _ n, Z.to_nat n) wit_boot = Ret (Some 0x100010) s' ∧
  Forall (loaded wit_image (bt_mem s')) [Proghdr 528 0x100010 5 9; Proghdr 1024 0x100100 3 3].
Proof.
  pose proof (bootmain_loads (λ _ n, Z.to_nat n) wit_image 9 wit_boot) as H.
  assert (Hh : proghdrs wit_image = [Proghdr 528 0x100010 5 9; Proghdr 1024 0x100100 3 3]) by (vm_compute; reflexivity).
  assert (Hm : elf_magic wit_image 0 =? ELF_MAGIC = true) by (vm_compute; reflexivity).
  assert (He : elf_entry wit_image 0 = 0x100010) by (vm_compute; reflexivity).
  rewrite Hh, Hm, He in H. apply H; clear H; [|reflexivity|lia| |vm_compute; discriminate|].
  - apply image_sectors_ok. lia.
  - intros a. unfold wit_image. destruct (a <? 0); [unfold is_byte; lia|].
    assert (Hall : forallb (λ b, (0 <=? b) && (b <? 256)) wit_bytes = true) by (vm_compute; reflexivity).
    rewrite forallb_forall in Hall. destruct (nth_in_or_default (Z.to_nat a) wit_bytes 0) as [Hin| ->]; [|unfold is_byte; lia].
    specialize (Hall _ Hin). unfold is_byte. lia.
  - unfold laid_out, seg_len, SCRATCH, SECTSIZE. cbn [ph_off ph_paddr ph_filesz ph_memsz]. repeat split; vm_compute; discriminate || reflexivity.
Defined.
