(* ===== verification/Txn.v ===== *)
(** * Txn: transactions as the inode layer sees them

    [tx k D H] is the interface between the buffer and log layers below and
    the file system code above: inside a transaction the blocks are [D], the
    process holds the buffers [H], and the log can still be committed.  The
    four operations of the layer below are specified over it, and
    [transaction_wp] says what [begin_op] and [end_op] around an operation
    give: its blocks, on the disk. *)

From Stdlib Require Import ZArith Lia.
From stdpp Require Import base numbers strings gmap list.
From S2P Require Import Prelude Kernel Sleeplock Bio Log Store Commit Crash.
Open Scope Z_scope.

Section txn.
Context {CP : CurProc} {LO : LoopOps}.

Record tx (k : kernel) (D : list (list Z)) (H : gmap nat held) : Prop := {
  tx_store : store k D H;
  tx_ready : log_ready k;
  tx_out : 1 ≤ log_outstanding (k_log k);
  tx_size : log_size (k_log k) ≤ LOGSIZE;
}.

(** A block of the disk outside the log area. *)
Definition data_block (k : kernel) (bno : Z) : Prop :=
  in_disk k bno ∧ ¬ log_start (k_log k) ≤ bno < log_start (k_log k) + log_size (k_log k).

Lemma kframe_data_block k k' bno : kframe k k' → data_block k bno → data_block k' bno.
Proof.
  intros Hf [H1 H2]. split; [by eapply kframe_in_disk|]. by rewrite (fr_log _ _ Hf).
Qed.

Lemma log_ready_bc k k' : k' = set_k_bc (k_bc k') k → clean_mono k k' → log_ready k → log_ready k'.
Proof.
  intros E Hc [H1 H2 H3 H4 H5 H6 H7]. pose proof (root_dirty_mono _ _ Hc H7) as H8.
  rewrite E in H8 |- *. by split.
Qed.

Lemma tx_bc k k' D H D' H' :
  tx k D H → k' = set_k_bc (k_bc k') k → clean_mono k k' → store k' D' H' → tx k' D' H' ∧ kframe k k'.
Proof.
  intros [T1 T2 T3 T4] E Hc Hs. split; [|rewrite E; apply kframe_bc].
  split; [done|by eapply log_ready_bc|by rewrite E..].
Qed.

Lemma bread_tx k D H bno d :
  tx k D H → not_held H ROOTDEV bno → in_disk k bno → D !! Z.to_nat bno = Some d →
  wp (bread ROOTDEV bno) full_panics (λ b k', kframe k k' ∧ H !! b = None ∧
    tx k' D (<[b:=(ROOTDEV, bno, d)]> H)) k.
Proof.
  intros Ht Hn Hin HD. eapply wp_mono; [by apply (bread_store k D H bno d); [apply Ht|..]|].
  intros b k' (F & C & Hb & S). destruct (tx_bc _ _ _ _ _ _ Ht F C S). done.
Qed.

Lemma set_bdata_tx k D H b dev bno d d' :
  tx k D H → H !! b = Some (dev, bno, d) → length d' = Z.to_nat BSIZE →
  ∃ k', set_bdata b d' k = Ret tt k' ∧ kframe k k' ∧ tx k' D (<[b:=(dev, bno, d')]> H).
Proof.
  intros Ht Hb Hl. destruct (set_bdata_store _ _ _ _ _ _ _ _ (tx_store _ _ _ Ht) Hb Hl) as (k' & E & F & C & S).
  exists k'. destruct (tx_bc _ _ _ _ _ _ Ht F C S). done.
Qed.

Lemma brelse_tx k D H b dev bno d :
  tx k D H → H !! b = Some (dev, bno, d) → (dev = ROOTDEV → D !! Z.to_nat bno = Some d) →
  ∃ k', brelse_k b k = Ret tt k' ∧ kframe k k' ∧ tx k' D (delete b H).
Proof.
  intros Ht Hb HD. destruct (brelse_store _ _ _ _ _ _ _ (tx_store _ _ _ Ht) Hb HD) as (k' & E & F & C & S).
  exists k'. destruct (tx_bc _ _ _ _ _ _ Ht F C S). done.
Qed.

Lemma log_write_tx k D H b bno d :
  tx k D H → H !! b = Some (ROOTDEV, bno, d) → data_block k bno →
  wp (log_write b) full_panics (λ _ k', kframe k k' ∧ tx k' (<[Z.to_nat bno:=d]> D) H) k.
Proof.
  intros [Hs Hr Ho Hz] Hb [Hin Ha]. destruct (store_held _ _ _ _ _ _ _ Hs Hb)
    as (x & Hx & Hd & Hn & _ & _ & _ & _ & _ & _).
  pose proof (log_write_store _ _ _ _ _ _ Hs Hb Ho) as Hw. pose proof (st_small _ _ _ Hs) as Hsz.
  unfold in_disk in Hin. unfold wp in *.
  rewrite (log_write_run k b x) in * by (rewrite ?Hn; first [apply Hs|done|lia]).
  destruct (_ || _) eqn:E; [done|]. destruct Hw as (F & _ & S). split; [done|].
  apply orb_false_iff in E as [E1 E2]. pose proof (li_n _ (st_log _ _ _ Hs)) as Hnn.
  assert (∀ n, n ∈ logged (k_log k) → 0 ≤ n < 2 ^ 31) as Hent.
  { intros n Hl'. apply (st_logged _ _ _ Hs) in Hl'. unfold in_disk in Hl'. lia. }
  pose proof (log_add_logged (k_log k) bno (st_log _ _ _ Hs) Hent ltac:(lia) ltac:(lia)) as El.
  rewrite Hn. destruct Hr as [R1 R2 R3 R4 R5 R6 R7]. split; [by rewrite Hn in S| |done|done].
  split; try done; cbn [k_log kput set_k_bc set_k_log]; rewrite ?El.
  - unfold log_add. cbn. destruct (_ =? _); cbn; lia.
  - pose proof (logged_length _ (st_log _ _ _ Hs)) as Hlen. case_decide; [done|].
    rewrite length_app. cbn. unfold LOGSIZE, MAXOPBLOCKS, NBUF in *. lia.
  - intros n. case_decide; [apply R6|]. rewrite elem_of_app, list_elem_of_singleton.
    intros [?| ->]; [by apply R6|done].
  - intros i z Hz'. cbn in Hz'. destruct (list_lookup_insert_cases _ _ _ _ _ Hz') as [(<- & -> & _)|[? ?]];
      [by intros _|by eapply R7].
Qed.

(** ** Reading and updating one block *)

(** Run [f] on the contents of block [bno], with its buffer held. *)
Lemma with_block_tx {A} (f : nat → K kernel A) Q k D H bno :
  tx k D H → not_held H ROOTDEV bno → in_disk k bno →
  (∀ b k1, kframe k k1 → H !! b = None → length (blk D bno) = Z.to_nat BSIZE →
    tx k1 D (<[b:=(ROOTDEV, bno, blk D bno)]> H) → wp (f b) full_panics Q k1) →
  wp (bread ROOTDEV bno ≫= f) full_panics Q k.
Proof.
  intros Ht Hn Hin Hf. destruct (in_disk_lookup _ _ _ _ (tx_store _ _ _ Ht) Hin) as (d & Hd & Hlen).
  assert (blk D bno = d) as Eb by (unfold blk; by rewrite Hd). rewrite Eb in Hf.
  apply wp_bind. eapply wp_mono; [by apply (bread_tx k D H bno d)|]. intros b k1 (F & Hb & T). by apply Hf.
Qed.

(** Store [d'] in a held buffer, log it and release it. *)
Lemma finish_block_tx k D H b bno d d' :
  tx k D (<[b:=(ROOTDEV, bno, d)]> H) → H !! b = None → data_block k bno → length d' = Z.to_nat BSIZE →
  wp (set_bdata b d';; log_write b;; brelse_k b) full_panics
    (λ _ k', kframe k k' ∧ tx k' (<[Z.to_nat bno:=d']> D) H) k.
Proof.
  intros Ht Hb Hdb Hl. destruct (set_bdata_tx _ _ _ b _ _ _ d' Ht (lookup_insert_eq _ _ _) Hl) as (k1 & E1 & F1 & T1).
  wp_step E1. rewrite insert_insert_eq in T1. apply wp_bind.
  eapply wp_mono; [apply (log_write_tx _ _ _ b bno d' T1); [by rewrite lookup_insert_eq|by eapply kframe_data_block]|].
  intros [] k2 [F2 T2].
  destruct (brelse_tx _ _ _ b ROOTDEV bno d' T2) as (k3 & E3 & F3 & T3); [by rewrite lookup_insert_eq| |].
  { intros _. apply list_lookup_insert_eq. rewrite (st_len _ _ _ (tx_store _ _ _ Ht)).
    destruct Hdb as [[? ?] _]. lia. }
  eapply wp_Ret; [exact E3|]. rewrite delete_insert_id in T3 by done.
  split; [|done]. transitivity k1; [done|]. by transitivity k2.
Qed.

(** ... and go on. *)
Lemma finish_block_bind {A} (rest : K kernel A) E Q k D H b bno d d' :
  full_panics ⊆ E →
  tx k D (<[b:=(ROOTDEV, bno, d)]> H) → H !! b = None → data_block k bno → length d' = Z.to_nat BSIZE →
  (∀ k', kframe k k' → tx k' (<[Z.to_nat bno:=d']> D) H → wp rest E Q k') →
  wp (set_bdata b d';; log_write b;; brelse_k b;; rest) E Q k.
Proof.
  intros HE Ht Hb Hdb Hl Hr. pose proof (finish_block_tx _ _ _ _ _ _ _ Ht Hb Hdb Hl) as Hf.
  unfold wp, mbind, K_bind in Hf |- *. destruct (set_bdata b d' k) as [[] k1| | | |]; try (done || by apply HE).
  destruct (log_write b k1) as [[] k2| | | |]; try (done || by apply HE).
  destruct (brelse_k b k2) as [[] k3| | | |]; try (done || by apply HE).
  destruct Hf as [F T]. by apply Hr.
Qed.

(** Release a held buffer that was not changed. *)
Lemma release_block_tx k D H b bno :
  tx k D (<[b:=(ROOTDEV, bno, blk D bno)]> H) → H !! b = None → in_disk k bno →
  ∃ k', brelse_k b k = Ret tt k' ∧ kframe k k' ∧ tx k' D H.
Proof.
  intros Ht Hb Hin.
  destruct (brelse_tx _ _ _ b ROOTDEV bno (blk D bno) Ht) as (k3 & E3 & F3 & T3); [by rewrite lookup_insert_eq| |].
  { intros _. by apply (blk_Some _ _ _ _ (tx_store _ _ _ Ht)). }
  rewrite delete_insert_id in T3 by done. eauto.
Qed.

Lemma update_tx k D H bno d :
  tx k D H → not_held H ROOTDEV bno → data_block k bno → length d = Z.to_nat BSIZE →
  wp (update bno d) full_panics (λ _ k', kframe k k' ∧ tx k' (<[Z.to_nat bno:=d]> D) H) k.
Proof.
  intros Ht Hn Hdb Hl. unfold update. eapply (with_block_tx _ _ k D H); [done..|apply Hdb|].
  intros b k1 F1 Hb _ T1. eapply wp_mono; [by eapply finish_block_tx; [..|by eapply kframe_data_block|]|].
  intros [] k2 [F2 T2]. split; [by transitivity k1|done].
Qed.

(** ** Operations between [begin_op] and [end_op] *)

(** [k'] is [k] after code that neither begins nor ends an operation. *)
Record tframe (k k' : kernel) : Prop := {
  tf_log : k_log k' = set_log_lh (log_lh (k_log k')) (k_log k);
  tf_loop_log : k_loop_log k' = k_loop_log k;
  tf_mounted : k_is_loop_mounted k' = k_is_loop_mounted k;
  tf_disk : k_disk k' = k_disk k;
}.

Lemma kframe_tframe k k' : kframe k k' → tframe k k'.
Proof. intros [E1 E2]. split; [done|by rewrite E1..]. Qed.

Lemma commit_writes_contents k D bno :
  store k D ∅ → log_ready k → 0 ≤ bno →
  ¬ log_start (k_log k) ≤ bno < log_start (k_log k) + log_size (k_log k) →
  blk (apply_writes (commit_writes (k_log k) D) D) bno = blk D bno.
Proof.
  intros Hs Hr Hb Ho. unfold commit_writes. destruct (_ <? _) eqn:E; [|done].
  apply Z.ltb_lt in E. pose proof (lr_n _ Hr). pose proof (lr_start _ Hr). pose proof (st_log _ _ _ Hs) as Hl.
  rewrite !apply_writes_app. rewrite blk_apply_other by (rewrite ?Forall_singleton; cbn; lia).
  assert (∀ X, length X = length D → blk X bno = blk D bno →
    blk (apply_writes (home_writes (k_log k) D) X) bno = blk D bno) as Hh.
  { intros X HX HXb. rewrite home_writes_logged by done. destruct (decide (bno ∈ logged (k_log k))) as [Hin|Hin].
    - apply blk_in_writes; [done|]. apply Forall_forall. rewrite HX, (st_len _ _ _ Hs).
      apply (st_logged _ _ _ Hs).
    - rewrite blk_apply_other; [done| |done]. apply Forall_fmap, Forall_forall. intros n Hn. cbn.
      destruct (st_logged _ _ _ Hs _ Hn). split; [lia|]. by intros ->. }
  apply Hh; [by rewrite !apply_writes_length|].
  rewrite blk_apply_other by (rewrite ?Forall_singleton; cbn; lia).
  apply blk_apply_other; [|done]. apply Forall_fmap, Forall_forall. intros i [_ Hi]%elem_of_seq. cbn in *.
  destruct (log_slot_ok _ _ _ i Hs Hr Hi) as (_ & _ & ?). lia.
Qed.

Lemma transaction_wp {A} (m : K kernel A) k D (Q : A → list (list Z) → kernel → Prop) :
  store k D ∅ → idle k → log_ready k → log_size (k_log k) ≤ LOGSIZE →
  (tx (outstand 1 k) D ∅ →
   wp m full_panics (λ a k2, tframe (outstand 1 k) k2 ∧ ∃ D', Q a D' k2 ∧ tx k2 D' ∅) (outstand 1 k)) →
  wp (begin_op;; a ← m; end_op;; mret a) full_panics (λ a k3, ∃ k2 D',
    Q a D' k2 ∧ store k3 (k_disk k3) ∅ ∧ idle k3 ∧ log_ready k3 ∧
    (∀ bno, 0 ≤ bno → ¬ log_start (k_log k) ≤ bno < log_start (k_log k) + log_size (k_log k) →
      blk (k_disk k3) bno = blk D' bno) ∧
    k3 = set_k_bc (k_bc k3) (set_k_writes (k_writes k3) (set_k_disk (k_disk k3)
           (clear_logs (outstand (-1) k2))))) k.
Proof.
  intros Hs Hid Hr Hz Hm. pose proof (li_lock _ (st_log _ _ _ Hs)) as Hl.
  wp_step (begin_op_run k Hl Hid). destruct Hid as [I1 I2 I3 I4 I5 I6].
  apply wp_bind. eapply wp_mono; [apply Hm|].
  { split; [by apply store_log_ext|by apply log_ready_ext|cbn; lia|done]. }
  intros a k2 ([T1 T2 T3 T4] & D' & HQ & [Hs2 Hr2 Ho2 Hz2]). apply wp_bind.
  assert (loop_idle k2) as Hi2 by (unfold loop_idle; rewrite T2; cbn; rewrite I6; apply andb_false_r).
  apply wp_weaken with []; [set_solver|]. eapply wp_mono; [apply (end_op_wp k2 D'); try done|].
  - rewrite T1. done.
  - rewrite T2. done.
  - rewrite T1. cbn. lia.
  - rewrite T2. cbn. lia.
  - intros [] k3 (E & S3 & Hid3 & R3 & F3). apply wp_ret. exists k2, D'. split_and!; try done.
    intros bno Hb Hout. rewrite E. apply commit_writes_contents; try done. by rewrite T1.
Qed.

(** ** A first operation after boot *)

(** The state inside the first operation: an empty log, and a superblock and
    inode cache of the caller's. *)
Definition first_op (l : logst) (sb : superblock) (ic : icache) (k : kernel) : kernel :=
  set_k_ic ic (set_k_sb sb (set_k_log l k)).

Lemma first_op_tx k D l sb ic :
  store k D ∅ → no_dirty k → log_inv l → lh_n (log_lh l) = 0 → log_dev l = ROOTDEV →
  2 ≤ log_start l → 0 < log_size l ≤ LOGSIZE → log_start l + log_size l ≤ Z.of_nat (length (k_disk k)) →
  1 ≤ log_outstanding l → tx (first_op l sb ic k) D ∅.
Proof.
  intros [S1 L1 L2 L3 L4 S2 S3 S4 S5 S6 S7] Hn Hl H0 Hd Hst Hsz Har Ho.
  assert (logged l = []) as El by (unfold logged; by rewrite H0).
  split; [split|split|done|cbn; lia]; try done; unfold first_op; cbn [k_log set_k_ic set_k_sb set_k_log].
  - rewrite El. set_solver.
  - intros b x bno Hx Hdx. exfalso. by eapply (no_dirty_for _ Hn).
  - rewrite H0. lia.
  - rewrite El. cbn. unfold NBUF. lia.
  - rewrite El. set_solver.
  - intros b x Hx. by eapply (no_dirty_root _ Hn).
Qed.

End txn.
