(* ===== verification/MntTable.v ===== *)
(** * MntTable: the mount table of sysmount.c

    [gmnt.gmnttable] has [NMNT] entries; the entries in use are on the list
    [gmnt.pmntlist], through [next], newest first.  Entry 0 is the root mount
    of [mountinit].  The system calls that mount and unmount are in Mount.v. *)

From Stdlib Require Import ZArith Lia.
From stdpp Require Import base numbers strings gmap list.
From S2P Require Import Prelude Kernel.
Open Scope Z_scope.

Definition getmnt (m : nat) : K gmntst mntent := λ g, deref (g_table g !! m) g.
Definition updmnt (m : nat) (f : mntent → mntent) : K gmntst unit := λ g,
  match g_table g !! m with
  | Some e => Ret tt (set_g_table (<[m:=f e]> (g_table g)) g)
  | None => Fault
  end.

Definition mountinit : K gmntst unit :=
  updmnt 0 (λ e, set_m_refcnt 1 (set_m_mnti None (set_m_devno 0 e)));;
  modify (set_g_prootmnt (Some 0%nat));;
  modify (set_g_pmntlist (Some 0%nat));;
  modify (set_g_lock false).

(** The first entry with no references. *)
Fixpoint free_entry (t : list mntent) (i : nat) : option nat :=
  match t with
  | [] => None
  | e :: t => if m_refcnt e =? 0 then Some i else free_entry t (S i)
  end.

Definition mntalloc : K gmntst nat :=
  acquire g_lock_l;;
  t ← gets g_table;
  match free_entry t 0 with
  | None => panic "[mntalloc] no free mount entry"
  | Some m =>
      updmnt m (set_m_refcnt 2);;
      release g_lock_l;;
      mret m
  end.

Definition mntdup (m : nat) : K gmntst nat :=
  acquire g_lock_l;;
  updmnt m (λ e, set_m_refcnt (u32 (m_refcnt e + 1)) e);;
  release g_lock_l;;
  mret m.

Definition mntput (m : nat) : K gmntst unit :=
  acquire g_lock_l;;
  updmnt m (λ e, set_m_refcnt (u32 (m_refcnt e - 1)) e);;
  release g_lock_l.

(** The loop over the active mounts that [mntlookup], [getmntpnt] and
    [sys_umount] run: the first entry from [cur] that satisfies [p].
    [S NMNT] rounds are enough for a list of distinct entries. *)
Fixpoint scan_mounts (fuel : nat) (p : mntent → bool) (cur : option nat) : K gmntst (option nat) :=
  match fuel with
  | O => nofuel
  | S fuel =>
      match cur with
      | None => mret None
      | Some m =>
          e ← getmnt m;
          if m_refcnt e =? 0
          then panic "[mntlookup] mnt entry in active mount list has a zero refcnt"
          else if p e then mret (Some m)
          else scan_mounts fuel p (m_next e)
      end
  end.

Definition at_inode (ip : nat) (e : mntent) : bool :=
  match m_mnti e with
  | Some i => Nat.eqb i ip
  | None => false
  end.
Definition on_device (devno : Z) (e : mntent) : bool := m_devno e =? devno.

(** Mount point to entry. *)
Definition mntlookup (ip : nat) : K gmntst (option nat) :=
  acquire g_lock_l;;
  l ← gets g_pmntlist;
  r ← scan_mounts (S NMNT) (at_inode ip) l;
  match r with
  | Some m => release g_lock_l;; m ← mntdup m; mret (Some m)
  | None => release g_lock_l;; mret None
  end.

(** Mounted device to mount point. *)
Definition getmntpnt (devno : Z) : K gmntst (option nat) :=
  acquire g_lock_l;;
  l ← gets g_pmntlist;
  r ← scan_mounts (S NMNT) (on_device devno) l;
  match r with
  | Some m => release g_lock_l;; e ← getmnt m; mret (m_mnti e)
  | None => release g_lock_l;; mret None
  end.
