(* ===== verification/Fs.v ===== *)
(** * Fs: blocks, inodes, directories and paths, fs.c

    The code of fs.c over the buffer cache and the log.  [sb] is the kernel's
    one superblock, [k_sb].  An inode pointer is an index of the inode cache.
    Character devices are reached through [DevSw], the table [devsw] that the
    drivers fill. *)

From Stdlib Require Import ZArith Lia.
From stdpp Require Import base numbers strings gmap list.
From S2P Require Import Prelude CString Kernel Sleeplock Bio Log MntTable.
Open Scope Z_scope.

(** [devsw[major].read] and [.write]: [None] is a null entry.  A driver's
    [read] returns its result and the bytes it stored. *)
Class DevSw : Type := {
  devsw_read : Z → option (nat → Z → K kernel (Z * list Z));
  devsw_write : Z → option (nat → list Z → Z → K kernel Z);
}.

(** ** The disk inode: fs.h *)

Record dinode : Type := DInode {
  d_type : Z;
  d_major : Z;
  d_minor : Z;
  d_nlink : Z;
  d_size : Z;
  d_addrs : list Z;
}.

Definition half (d : list Z) (off : nat) : Z := le_val (take 2 (drop off d)).
Definition parse_dinode (d : list Z) : dinode :=
  DInode (s16 (half d 0)) (s16 (half d 2)) (s16 (half d 4)) (s16 (half d 6))
    (word d 2) (map (λ i, word d (3 + i)) (seq 0 13)).
Definition dinode_bytes (x : dinode) : list Z :=
  le_bytes 2 (d_type x) ++ le_bytes 2 (d_major x) ++ le_bytes 2 (d_minor x) ++
  le_bytes 2 (d_nlink x) ++ le_bytes 4 (d_size x) ++ concat (map (le_bytes 4) (d_addrs x)).

Definition zero_dinode : dinode := DInode 0 0 0 0 0 (replicate 13 0).

Definition IBLOCK (i : Z) (sb : superblock) : Z := u32 (i / IPB + sb_inodestart sb).
Definition BBLOCK (b : Z) (sb : superblock) : Z := u32 (b / BPB + sb_bmapstart sb).

(** The offset of inode [inum] in its block. *)
Definition ioff (inum : Z) : nat := Z.to_nat (inum mod IPB) * 64.
Definition get_dinode (d : list Z) (inum : Z) : dinode := parse_dinode (drop (ioff inum) d).
Definition put_dinode (d : list Z) (inum : Z) (x : dinode) : list Z :=
  list_inserts (ioff inum) (dinode_bytes x) d.

(** ** The inode cache *)

Definition getinode (ip : nat) : K icache inode := λ c, deref (ic_inode c !! ip) c.
Definition updinode (ip : nat) (f : inode → inode) : K icache unit := λ c,
  match ic_inode c !! ip with
  | Some x => Ret tt (set_ic_inode (<[ip:=f x]> (ic_inode c)) c)
  | None => Fault
  end.
Definition inode_lock (ip : nat) (c : icache) : option sleeplock := i_lock <$> ic_inode c !! ip.
Definition set_inode_lock (ip : nat) (lk : sleeplock) (c : icache) : icache :=
  set_ic_inode (alter (set_i_lock lk) ip (ic_inode c)) c.

(** The loop of [iget]: the entry of [(dev, inum)], or the first free one. *)
Fixpoint iget_scan (c : list inode) (i : nat) (empty : option nat) (dev inum : Z) :
    bool * option nat :=
  match c with
  | [] => (false, empty)
  | x :: c =>
      if (0 <? i_ref x) && (i_dev x =? dev) && (i_inum x =? inum) then (true, Some i)
      else iget_scan c (S i)
             (match empty with
              | Some _ => empty
              | None => if i_ref x =? 0 then Some i else None
              end) dev inum
  end.

Definition iget (dev inum : Z) : K icache nat :=
  acquire ic_lock_l;;
  c ← gets ic_inode;
  match iget_scan c 0 None dev inum with
  | (true, Some ip) =>
      updinode ip (λ x, set_i_ref (i_ref x + 1) x);;
      release ic_lock_l;;
      mret ip
  | (_, None) => panic "iget: no inodes"
  | (false, Some ip) =>
      updinode ip (λ x, set_i_valid false (set_i_ref 1 (set_i_inum inum (set_i_dev dev x))));;
      release ic_lock_l;;
      mret ip
  end.

Definition idup (ip : nat) : K icache nat :=
  acquire ic_lock_l;;
  updinode ip (λ x, set_i_ref (i_ref x + 1) x);;
  release ic_lock_l;;
  mret ip.

Section fs.
Context {CP : CurProc} {LO : LoopOps} {DS : DevSw}.

(** ** Blocks *)

Definition bzero (dev bno : Z) : K kernel unit :=
  bp ← bread dev bno;
  set_bdata bp zero_block;;
  log_write bp;;
  brelse_k bp.

(** The inner loop of [balloc]: the first free bit from [bi]. *)
Fixpoint free_bit (fuel : nat) (d : list Z) (b bi size : Z) : option Z :=
  match fuel with
  | O => None
  | S fuel =>
      if (bi <? BPB) && (b + bi <? size) then
        if Z.land (d !!! Z.to_nat (bi / 8)) (Z.shiftl 1 (bi mod 8)) =? 0 then Some bi
        else free_bit fuel d b (bi + 1) size
      else None
  end.

Definition set_bit (d : list Z) (bi : Z) : list Z :=
  alter (λ x, Z.lor x (Z.shiftl 1 (bi mod 8))) (Z.to_nat (bi / 8)) d.
Definition clear_bit (d : list Z) (bi : Z) : list Z :=
  alter (λ x, Z.land x (Z.lnot (Z.shiftl 1 (bi mod 8)))) (Z.to_nat (bi / 8)) d.

(** The outer loop of [balloc], over the blocks of the free map. *)
Fixpoint balloc_loop (fuel : nat) (dev b : Z) : K kernel Z :=
  sb ← gets k_sb;
  if b <? sb_size sb then
    match fuel with
    | O => nofuel
    | S fuel =>
        bp ← bread dev (BBLOCK b sb);
        d ← bdata bp;
        match free_bit (Z.to_nat BPB) d b 0 (sb_size sb) with
        | Some bi =>
            set_bdata bp (set_bit d bi);;
            log_write bp;;
            brelse_k bp;;
            bzero dev (b + bi);;
            mret (b + bi)
        | None =>
            brelse_k bp;;
            balloc_loop fuel dev (b + BPB)
        end
    end
  else panic "balloc: out of blocks".

Definition balloc (dev : Z) : K kernel Z :=
  sb ← gets k_sb;
  balloc_loop (S (Z.to_nat (sb_size sb / BPB))) dev 0.

Definition bfree (dev b : Z) : K kernel unit :=
  sb ← gets k_sb;
  bp ← bread dev (BBLOCK b sb);
  d ← bdata bp;
  let bi := b mod BPB in
  if Z.land (d !!! Z.to_nat (bi / 8)) (Z.shiftl 1 (bi mod 8)) =? 0
  then panic "freeing free block" else
  set_bdata bp (clear_bit d bi);;
  log_write bp;;
  brelse_k bp.

(** ** Inodes *)

Definition inode_of (ip : nat) : K kernel inode := zoom ic_l (getinode ip).
Definition upd_inode (ip : nat) (f : inode → inode) : K kernel unit := zoom ic_l (updinode ip f).

Definition iinit (dev : Z) : K kernel unit :=
  modify (λ k, set_k_ic (set_ic_inode (set_i_lock initsleeplock <$> ic_inode (k_ic k))
    (set_ic_lock false (k_ic k))) k);;
  sb ← readsb dev;
  modify (set_k_sb sb).

Fixpoint ialloc_loop (inums : list Z) (dev type : Z) : K kernel nat :=
  match inums with
  | [] => panic "ialloc: no inodes"
  | inum :: inums =>
      sb ← gets k_sb;
      bp ← bread dev (IBLOCK inum sb);
      d ← bdata bp;
      if d_type (get_dinode d inum) =? 0 then
        set_bdata bp (put_dinode d inum (DInode type 0 0 0 0 (replicate 13 0)));;
        log_write bp;;
        brelse_k bp;;
        zoom ic_l (iget dev inum)
      else
        brelse_k bp;;
        ialloc_loop inums dev type
  end.

Definition ialloc (dev type : Z) : K kernel nat :=
  sb ← gets k_sb;
  ialloc_loop (seqZ 1 (sb_ninodes sb - 1)) dev type.

Definition dinode_of (x : inode) : dinode :=
  DInode (i_type x) (i_major x) (i_minor x) (i_nlink x) (i_size x) (i_addrs x).

Definition iupdate (ip : nat) : K kernel unit :=
  x ← inode_of ip;
  sb ← gets k_sb;
  bp ← bread (i_dev x) (IBLOCK (i_inum x) sb);
  d ← bdata bp;
  set_bdata bp (put_dinode d (i_inum x) (dinode_of x));;
  log_write bp;;
  brelse_k bp.

(** The fields [ilock] copies from the disk inode. *)
Definition load_dinode (di : dinode) (x : inode) : inode :=
  set_i_addrs (d_addrs di) (set_i_size (d_size di) (set_i_nlink (d_nlink di)
    (set_i_minor (d_minor di) (set_i_major (d_major di) (set_i_type (d_type di) x))))).

Definition ilock (ip : option nat) : K kernel unit :=
  match ip with
  | None => panic "ilock"
  | Some ip =>
      x ← inode_of ip;
      if i_ref x <? 1 then panic "ilock" else
      zoom ic_l (acquiresleep (inode_lock ip) (set_inode_lock ip));;
      if i_valid x then mret tt else
      sb ← gets k_sb;
      bp ← bread (i_dev x) (IBLOCK (i_inum x) sb);
      d ← bdata bp;
      upd_inode ip (load_dinode (get_dinode d (i_inum x)));;
      brelse_k bp;;
      upd_inode ip (set_i_valid true);;
      x ← inode_of ip;
      if i_type x =? 0 then panic "ilock: no type" else mret tt
  end.

Definition iunlock (ip : option nat) : K kernel unit :=
  match ip with
  | None => panic "iunlock"
  | Some ip =>
      held ← zoom ic_l (holdingsleep (inode_lock ip));
      x ← inode_of ip;
      if negb held || (i_ref x <? 1) then panic "iunlock" else
      zoom ic_l (releasesleep (inode_lock ip) (set_inode_lock ip))
  end.

(** ** Inode content *)

(** The blocks of the array [a] of block numbers of an indirect block. *)
Definition bmap (ip : nat) (bn : Z) : K kernel Z :=
  x ← inode_of ip;
  if bn <? NDIRECT then
    addr ← deref (i_addrs x !! Z.to_nat bn);
    if addr =? 0 then
      addr ← balloc (i_dev x);
      upd_inode ip (λ x, set_i_addrs (<[Z.to_nat bn:=addr]> (i_addrs x)) x);;
      mret addr
    else mret addr
  else
    let bn := bn - NDIRECT in
    if bn <? NINDIRECT then
      addr ← deref (i_addrs x !! Z.to_nat NDIRECT);
      addr ←
        (if addr =? 0 then
           addr ← balloc (i_dev x);
           upd_inode ip (λ x, set_i_addrs (<[Z.to_nat NDIRECT:=addr]> (i_addrs x)) x);;
           mret addr
         else mret addr);
      bp ← bread (i_dev x) addr;
      d ← bdata bp;
      addr ←
        (if word d (Z.to_nat bn) =? 0 then
           addr ← balloc (i_dev x);
           d ← bdata bp;
           set_bdata bp (set_word d (Z.to_nat bn) addr);;
           log_write bp;;
           mret addr
         else mret (word d (Z.to_nat bn)));
      brelse_k bp;;
      mret addr
    else panic "bmap: out of range".

Definition itrunc_direct (ip : nat) (i : nat) : K kernel unit :=
  x ← inode_of ip;
  a ← deref (i_addrs x !! i);
  if a =? 0 then mret tt else
  bfree (i_dev x) a;;
  upd_inode ip (λ x, set_i_addrs (<[i:=0]> (i_addrs x)) x).

Definition itrunc (ip : nat) : K kernel unit :=
  for_each (seq 0 (Z.to_nat NDIRECT)) (itrunc_direct ip);;
  x ← inode_of ip;
  ind ← deref (i_addrs x !! Z.to_nat NDIRECT);
  (if ind =? 0 then mret tt else
     bp ← bread (i_dev x) ind;
     for_each (seq 0 (Z.to_nat NINDIRECT)) (λ j,
       d ← bdata bp;
       if word d j =? 0 then mret tt else bfree (i_dev x) (word d j));;
     brelse_k bp;;
     bfree (i_dev x) ind;;
     upd_inode ip (λ x, set_i_addrs (<[Z.to_nat NDIRECT:=0]> (i_addrs x)) x));;
  upd_inode ip (set_i_size 0);;
  iupdate ip.

Definition iput (ip : nat) : K kernel unit :=
  zoom ic_l (acquiresleep (inode_lock ip) (set_inode_lock ip));;
  x ← inode_of ip;
  (if i_valid x && (i_nlink x =? 0) then
     zoom ic_l (acquire ic_lock_l);;
     x ← inode_of ip;
     zoom ic_l (release ic_lock_l);;
     if i_ref x =? 1 then
       itrunc ip;;
       upd_inode ip (set_i_type 0);;
       iupdate ip;;
       upd_inode ip (set_i_valid false)
     else mret tt
   else mret tt);;
  zoom ic_l (releasesleep (inode_lock ip) (set_inode_lock ip));;
  zoom ic_l (acquire ic_lock_l);;
  upd_inode ip (λ x, set_i_ref (i_ref x - 1) x);;
  x ← inode_of ip;
  (if i_ref x =? 0
   then upd_inode ip (load_dinode zero_dinode)
   else mret tt);;
  zoom ic_l (release ic_lock_l).

Definition iunlockput (ip : nat) : K kernel unit :=
  iunlock (Some ip);;
  iput ip.

(** stat.h: [struct stat]. *)
Record stat : Type := Stat {
  st_type : Z;
  st_dev : Z;
  st_ino : Z;
  st_nlink : Z;
  st_size : Z;
}.

Definition stati (ip : nat) : K kernel stat :=
  x ← inode_of ip;
  mret (Stat (i_type x) (s32 (i_dev x)) (i_inum x) (i_nlink x) (i_size x)).

(** The loop of [readi]; every round but the first reads from the start of a
    block, so [n / BSIZE + 2] rounds are enough for [n] bytes. *)
Fixpoint readi_loop (fuel : nat) (ip : nat) (tot off n : Z) : K kernel (list Z) :=
  if tot <? n then
    match fuel with
    | O => nofuel
    | S fuel =>
        x ← inode_of ip;
        a ← bmap ip (off / BSIZE);
        bp ← bread (i_dev x) a;
        let m := Z.min (n - tot) (BSIZE - off mod BSIZE) in
        d ← bdata bp;
        brelse_k bp;;
        rest ← readi_loop fuel ip (tot + m) (off + m) n;
        mret (take (Z.to_nat m) (drop (Z.to_nat (off mod BSIZE)) d) ++ rest)
    end
  else mret [].

(** The result, and the bytes stored at [dst]. *)
Definition readi (ip : nat) (off n : Z) : K kernel (Z * list Z) :=
  x ← inode_of ip;
  if i_type x =? T_DEV then
    if (i_major x <? 0) || (NDEV <=? i_major x) then mret (-1, []) else
    match devsw_read (i_major x) with
    | None => mret (-1, [])
    | Some rd => rd ip n
    end
  else
  if (i_size x <? off) || (u32 (off + n) <? off) then mret (-1, []) else
  let n := if i_size x <? u32 (off + n) then i_size x - off else n in
  bytes ← readi_loop (Z.to_nat (n / BSIZE + 2)) ip 0 off n;
  mret (s32 n, bytes).

(** The loop of [writei] over the bytes [src]; the result is the final [off]. *)
Fixpoint writei_loop (fuel : nat) (ip : nat) (src : list Z) (tot off n : Z) : K kernel Z :=
  if tot <? n then
    match fuel with
    | O => nofuel
    | S fuel =>
        x ← inode_of ip;
        a ← bmap ip (off / BSIZE);
        bp ← bread (i_dev x) a;
        let m := Z.min (n - tot) (BSIZE - off mod BSIZE) in
        d ← bdata bp;
        set_bdata bp (list_inserts (Z.to_nat (off mod BSIZE)) (take (Z.to_nat m) src) d);;
        log_write bp;;
        brelse_k bp;;
        writei_loop fuel ip (drop (Z.to_nat m) src) (tot + m) (off + m) n
    end
  else mret off.

Definition writei (ip : nat) (src : list Z) (off n : Z) : K kernel Z :=
  x ← inode_of ip;
  if i_type x =? T_DEV then
    if (i_major x <? 0) || (NDEV <=? i_major x) then mret (-1) else
    match devsw_write (i_major x) with
    | None => mret (-1)
    | Some wr => wr ip src n
    end
  else
  if (i_size x <? off) || (u32 (off + n) <? off) then mret (-1) else
  if MAXFILE * BSIZE <? u32 (off + n) then mret (-1) else
  off ← writei_loop (Z.to_nat (n / BSIZE + 2)) ip src 0 off n;
  x ← inode_of ip;
  (if (0 <? n) && (i_size x <? off) then
     upd_inode ip (set_i_size off);;
     iupdate ip
   else mret tt);;
  mret (s32 n).

(** ** Directories *)

(** fs.h: [struct dirent], 16 bytes. *)
Definition DIRENT : Z := 16.
Definition de_inum (de : list Z) : Z := le_val (take 2 de).
Definition de_name (de : list Z) : list Z := drop 2 de.

Definition namecmp (s t : list Z) : option Z := strncmp s t DIRSIZ.

(** Read the entry at [off], or panic. *)
Definition read_dirent (dp : nat) (off : Z) (msg : string) : K kernel (list Z) :=
  '(r, de) ← readi dp off DIRENT;
  if negb (r =? DIRENT) then panic msg else mret de.

Fixpoint dirlookup_loop (fuel : nat) (dp : nat) (name : list Z) (off : Z) :
    K kernel (option (nat * Z)) :=
  x ← inode_of dp;
  if off <? i_size x then
    match fuel with
    | O => nofuel
    | S fuel =>
        de ← read_dirent dp off "dirlookup read";
        if de_inum de =? 0 then dirlookup_loop fuel dp name (off + DIRENT) else
        c ← deref (namecmp name (de_name de));
        if c =? 0 then
          ip ← zoom ic_l (iget (i_dev x) (de_inum de));
          mret (Some (ip, off))
        else dirlookup_loop fuel dp name (off + DIRENT)
    end
  else mret None.

(** The entry's inode and, for [poff], its offset. *)
Definition dirlookup (dp : nat) (name : list Z) : K kernel (option (nat * Z)) :=
  x ← inode_of dp;
  if negb (i_type x =? T_DIR) then panic "dirlookup not DIR" else
  dirlookup_loop (Z.to_nat (i_size x / DIRENT + 1)) dp name 0.

(** The loop of [dirlink]: the offset of the first empty entry. *)
Fixpoint free_dirent (fuel : nat) (dp : nat) (off : Z) : K kernel Z :=
  x ← inode_of dp;
  if off <? i_size x then
    match fuel with
    | O => nofuel
    | S fuel =>
        de ← read_dirent dp off "dirlink read";
        if de_inum de =? 0 then mret off else free_dirent fuel dp (off + DIRENT)
    end
  else mret off.

Definition dirlink (dp : nat) (name : list Z) (inum : Z) : K kernel Z :=
  r ← dirlookup dp name;
  match r with
  | Some (ip, _) => iput ip;; mret (-1)
  | None =>
      x ← inode_of dp;
      off ← free_dirent (Z.to_nat (i_size x / DIRENT + 1)) dp 0;
      nm ← deref (strncpy (replicate DIRSIZ 0) name DIRSIZ);
      r ← writei dp (le_bytes 2 (u16 inum) ++ nm) off DIRENT;
      if negb (r =? DIRENT) then panic "dirlink" else mret 0
  end.

End fs.

(** ** Paths *)

Definition SLASH : Z := 47.
Definition DOT : Z := 46.

(** The loop that passes slashes. *)
Fixpoint skip_slashes (path : list Z) : list Z :=
  match path with
  | c :: path' => if c =? SLASH then skip_slashes path' else path
  | [] => []
  end.
(** The loop that passes the characters of an element: those characters and
    the rest of the path. *)
Fixpoint take_elem (path : list Z) : list Z * list Z :=
  match path with
  | c :: path' =>
      if (c =? SLASH) || (c =? 0) then ([], path)
      else let '(s, r) := take_elem path' in (c :: s, r)
  | [] => ([], [])
  end.

(** [None] is a path that has no NUL; [Some None] the null pointer; else the
    rest of the path and the buffer [name]. *)
Definition skipelem (path name : list Z) : option (option (list Z * list Z)) :=
  match skip_slashes path with
  | [] => None
  | (c :: _) as path =>
      if c =? 0 then Some None else
      let '(s, rest) := take_elem path in
      match rest with
      | [] => None
      | _ =>
          let name :=
            if (DIRSIZ <=? length s)%nat then list_inserts 0 (take DIRSIZ s) name
            else list_inserts 0 (s ++ [0]) name in
          match skip_slashes rest with
          | [] => None
          | rest => Some (Some (rest, name))
          end
      end
  end.

Section names.
Context {CP : CurProc} {LO : LoopOps} {DS : DevSw}.

(** The root of a mounted loop device and [".."]: continue at the mount
    point.  The string literal is [{'.', '.', 0}]. *)
Definition cross_dotdot (ip : nat) (name : list Z) : K kernel nat :=
  x ← inode_of ip;
  c ← deref (namecmp name [DOT; DOT; 0]);
  if negb (isloopdev (i_dev x) =? 0) && (i_inum x =? ROOTINO) && (c =? 0) then
    p ← zoom mnt_l (getmntpnt (i_dev x));
    p ← deref p;
    mnti ← zoom ic_l (idup p);
    iunlock (Some ip);;
    iput ip;;
    ilock (Some mnti);;
    y ← inode_of mnti;
    if negb (i_type y =? T_DIR) then panic "dirlookup not DIR" else mret mnti
  else mret ip.

(** A mount point: continue at the root of what is mounted there. *)
Definition cross_mount (next : nat) : K kernel nat :=
  m ← zoom mnt_l (mntlookup next);
  match m with
  | None => mret next
  | Some m =>
      e ← zoom mnt_l (getmnt m);
      iput next;;
      next ← zoom ic_l (iget (m_devno e) ROOTINO);
      zoom mnt_l (mntput m);;
      mret next
  end.

(** The loop of [namex].  Every round takes an element off the path, so the
    length of the path is fuel enough. *)
Fixpoint namex_loop (fuel : nat) (ip : nat) (path name : list Z) (parent : bool) :
    K kernel (option nat * list Z) :=
  match skipelem path name with
  | None => fault
  | Some None =>
      if parent then iput ip;; mret (None, name) else mret (Some ip, name)
  | Some (Some (path, name)) =>
      match fuel with
      | O => nofuel
      | S fuel =>
          ilock (Some ip);;
          x ← inode_of ip;
          if negb (i_type x =? T_DIR) then iunlockput ip;; mret (None, name) else
          c ← deref (path !! 0%nat);
          if parent && (c =? 0) then iunlock (Some ip);; mret (Some ip, name) else
          ip ← cross_dotdot ip name;
          r ← dirlookup ip name;
          match r with
          | None => iunlockput ip;; mret (None, name)
          | Some (next, _) =>
              next ← cross_mount next;
              iunlockput ip;;
              namex_loop fuel next path name parent
          end
      end
  end.

Definition namex (path : list Z) (parent : bool) (name : list Z) : K kernel (option nat * list Z) :=
  c ← deref (path !! 0%nat);
  ip ← (if c =? SLASH then zoom ic_l (iget ROOTDEV ROOTINO) else zoom ic_l (idup cur_cwd));
  namex_loop (length path) ip path name parent.

Definition namei (path : list Z) : K kernel (option nat) :=
  '(ip, _) ← namex path false (replicate DIRSIZ 0);
  mret ip.

Definition nameiparent (path name : list Z) : K kernel (option nat * list Z) :=
  namex path true name.

End names.
