(* ===== verification/Dinode.v ===== *)
(** * Dinode: the on-disk inode of fs.h and fs.c

    The layout of an inode in its block: encoding and decoding are inverse,
    and storing one inode leaves the others of the block alone. *)

From Stdlib Require Import ZArith Lia.
From stdpp Require Import base numbers strings gmap list.
From S2P Require Import Prelude CString Kernel Sleeplock Bio Log MntTable Fs.
Open Scope Z_scope.

(** Fields within the widths of [struct dinode]. *)
Record dinode_wf (x : dinode) : Prop := {
  dw_type : - 2 ^ 15 ≤ d_type x < 2 ^ 15;
  dw_major : - 2 ^ 15 ≤ d_major x < 2 ^ 15;
  dw_minor : - 2 ^ 15 ≤ d_minor x < 2 ^ 15;
  dw_nlink : - 2 ^ 15 ≤ d_nlink x < 2 ^ 15;
  dw_size : 0 ≤ d_size x < 2 ^ 32;
  dw_len : length (d_addrs x) = 13%nat;
  dw_addrs : Forall (λ a, 0 ≤ a < 2 ^ 32) (d_addrs x);
}.

Lemma take_app_at {A} (l1 l2 : list A) n : n = length l1 → take n (l1 ++ l2) = l1.
Proof. intros ->. apply take_app_length. Qed.
Lemma drop_app_at {A} (l1 l2 : list A) n : n = length l1 → drop n (l1 ++ l2) = l2.
Proof. intros ->. apply drop_app_length. Qed.

Lemma s16_le v : - 2 ^ 15 ≤ v < 2 ^ 15 → s16 (le_val (le_bytes 2 v)) = v.
Proof.
  intros H. rewrite le_val_bytes. change (256 ^ Z.of_nat 2) with (2 ^ 16). unfold s16.
  rewrite Zplus_mod_idemp_l, Z.mod_small by lia. lia.
Qed.

Lemma u32_le v : 0 ≤ v < 2 ^ 32 → le_val (le_bytes 4 v) = v.
Proof. intros H. rewrite le_val_bytes. apply Z.mod_small. done. Qed.

(** The words of an array of 32-bit numbers behind a header. *)
Lemma words_concat (h rest : list Z) l k i a :
  length h = (4 * k)%nat → l !! i = Some a → 0 ≤ a < 2 ^ 32 →
  word (h ++ concat (map (le_bytes 4) l) ++ rest) (k + i) = a.
Proof.
  intros Hh Hi Ha. revert h k i Hh Hi. induction l as [|b l IH]; intros h k i Hh Hi; [done|].
  cbn [map concat]. destruct i as [|i].
  - injection Hi as ->. unfold word. rewrite Nat.add_0_r, drop_app_at by done.
    rewrite <-(assoc_L (++)), take_app_at by (by rewrite le_bytes_length). by apply u32_le.
  - rewrite (assoc_L (++)), (assoc_L (++)), <-(assoc_L (++) (h ++ le_bytes 4 b)).
    replace (k + S i)%nat with (S k + i)%nat by lia. apply IH; [|done].
    rewrite length_app, le_bytes_length. lia.
Qed.

Lemma dinode_bytes_length x : length (d_addrs x) = 13%nat → length (dinode_bytes x) = 64%nat.
Proof.
  intros H. unfold dinode_bytes. rewrite !length_app, !le_bytes_length.
  assert (length (concat (map (le_bytes 4) (d_addrs x))) = 52%nat) as ->; [|done].
  assert (∀ l, length (concat (map (le_bytes 4) l)) = (4 * length l)%nat) as E.
  { induction l as [|a l IH]; [done|]. cbn [map concat]. rewrite length_app, le_bytes_length, IH. cbn. lia. }
  rewrite E, H. done.
Qed.

Lemma parse_dinode_bytes x rest : dinode_wf x → parse_dinode (dinode_bytes x ++ rest) = x.
Proof.
  intros [W1 W2 W3 W4 W5 W6 W7]. destruct x as [t ma mi nl sz ad].
  cbn [d_type d_major d_minor d_nlink d_size d_addrs] in *.
  unfold parse_dinode, dinode_bytes. cbn [d_type d_major d_minor d_nlink d_size d_addrs].
  rewrite <-!(assoc_L (++)). set (c := concat (map (le_bytes 4) ad) ++ rest).
  assert (∀ h v r, - 2 ^ 15 ≤ v < 2 ^ 15 → s16 (half (h ++ le_bytes 2 v ++ r) (length h)) = v) as Eh.
  { intros h v r Hv. unfold half. rewrite drop_app_at by done.
    rewrite take_app_at by (by rewrite le_bytes_length). by apply s16_le. }
  f_equal.
  - by apply (Eh []).
  - by apply (Eh (le_bytes 2 t)).
  - by apply (Eh (le_bytes 2 t ++ le_bytes 2 ma)).
  - by apply (Eh (le_bytes 2 t ++ le_bytes 2 ma ++ le_bytes 2 mi)).
  - assert (∀ h r, length h = 8%nat → word (h ++ le_bytes 4 sz ++ r) 2 = sz) as Es.
    { intros h r Hh. unfold word. rewrite drop_app_at by (by rewrite Hh).
      rewrite take_app_at by (by rewrite le_bytes_length). by apply u32_le. }
    by apply (Es (le_bytes 2 t ++ le_bytes 2 ma ++ le_bytes 2 mi ++ le_bytes 2 nl)).
  - apply list_eq. intros i. change (map ?f ?l) with (f <$> l). rewrite list_lookup_fmap.
    destruct (decide (i < 13)%nat) as [Hi|Hi].
    + rewrite lookup_seq_lt by done. destruct (lookup_lt_is_Some_2 ad i) as [a Ha]; [lia|].
      rewrite Ha. cbn [fmap option_fmap option_map]. f_equal. change (3 + (0 + i))%nat with (3 + i)%nat.
      apply (words_concat (le_bytes 2 t ++ le_bytes 2 ma ++ le_bytes 2 mi ++ le_bytes 2 nl ++ le_bytes 4 sz)
        rest ad 3); [done|done|]. rewrite Forall_forall in W7. apply W7. by eapply list_elem_of_lookup_2.
    + rewrite lookup_seq_ge by lia. symmetry. apply lookup_ge_None. lia.
Qed.

Lemma drop_inserts {A} i (l d : list A) : (i + length l ≤ length d)%nat →
  drop i (list_inserts i l d) = l ++ drop (i + length l) d.
Proof.
  intros H. apply list_eq. intros j. rewrite lookup_drop. destruct (decide (j < length l)%nat).
  - rewrite list_lookup_inserts by lia. rewrite lookup_app_l by lia. f_equal. lia.
  - rewrite list_lookup_inserts_ge by lia. rewrite lookup_app_r, lookup_drop by lia. f_equal. lia.
Qed.

Lemma ioff_bound (d : list Z) i : length d = Z.to_nat BSIZE → (ioff i + 64 ≤ length d)%nat.
Proof.
  intros ->. unfold ioff. assert (0 ≤ i mod IPB < 8) by (by apply Z.mod_pos_bound). change (Z.to_nat BSIZE) with 512%nat. lia.
Qed.

Lemma get_put_dinode_eq d i x :
  length d = Z.to_nat BSIZE → dinode_wf x → get_dinode (put_dinode d i x) i = x.
Proof.
  intros Hd Hx. unfold get_dinode, put_dinode. rewrite drop_inserts.
  - by apply parse_dinode_bytes.
  - rewrite dinode_bytes_length by apply Hx. by apply ioff_bound.
Qed.

Lemma parse_dinode_take d e : take 64 d = take 64 e → parse_dinode d = parse_dinode e.
Proof.
  intros H. assert (∀ (o n : nat), (o + n ≤ 64)%nat → take n (drop o d) = take n (drop o e)) as E.
  { intros o n Hn. apply list_eq. intros i. rewrite !lookup_take, !lookup_drop. case_decide; [|done].
    apply (f_equal (λ l, l !! (o + i)%nat)) in H. by rewrite !lookup_take_lt in H by lia. }
  unfold parse_dinode, half, word. rewrite !E by lia. f_equal.
  apply map_ext_in. intros i Hi. apply in_seq in Hi. rewrite E by lia. done.
Qed.

Lemma get_put_dinode_ne d i j x :
  length (d_addrs x) = 13%nat → i mod IPB ≠ j mod IPB → get_dinode (put_dinode d i x) j = get_dinode d j.
Proof.
  intros Hl Hne. unfold get_dinode, put_dinode. apply parse_dinode_take. apply take_drop_inserts_ne.
  rewrite dinode_bytes_length by done. unfold ioff.
  assert (0 ≤ i mod IPB < 8) by (by apply Z.mod_pos_bound). assert (0 ≤ j mod IPB < 8) by (by apply Z.mod_pos_bound). lia.
Qed.

(** An inode stored in its block is read back unchanged, and the other
    inodes of the block are what they were. *)
Theorem dinode_roundtrip d i x :
  length d = Z.to_nat BSIZE → dinode_wf x →
  get_dinode (put_dinode d i x) i = x ∧
  length (put_dinode d i x) = length d ∧
  ∀ j, i mod IPB ≠ j mod IPB → get_dinode (put_dinode d i x) j = get_dinode d j.
Proof.
  intros Hd Hx. split; [by apply get_put_dinode_eq|]. split; [apply length_inserts|].
  intros j Hj. apply get_put_dinode_ne; [apply Hx|done].
Qed.
