(* ===== verification/Bitmap.v ===== *)
(** * Bitmap: allocation of disk blocks, [balloc] and [bfree] of fs.c

    The free map as a function from block numbers to booleans, and the two
    operations proved against the transaction interface of Txn.v. *)

From Stdlib Require Import ZArith Lia.
From stdpp Require Import base numbers strings gmap list.
From S2P Require Import Prelude CString Kernel Sleeplock Bio Log Store Commit Crash Txn MntTable Fs.
Open Scope Z_scope.

(** ** Bits of a block *)

(** Bit [bi] of the map block [d]. *)
Definition bit (d : list Z) (bi : Z) : bool := Z.testbit (d !!! Z.to_nat (bi / 8)) (bi mod 8).

Lemma land_bit x i : 0 ≤ i → (Z.land x (Z.shiftl 1 i) =? 0) = negb (Z.testbit x i).
Proof.
  intros Hi. destruct (Z.testbit x i) eqn:E; cbn.
  - apply Z.eqb_neq. intros H. apply (f_equal (λ z, Z.testbit z i)) in H.
    rewrite Z.land_spec, Z.shiftl_spec, Z.sub_diag, E, Z.bits_0 in H by done. done.
  - apply Z.eqb_eq. apply Z.bits_inj'. intros n Hn.
    rewrite Z.land_spec, Z.shiftl_spec, Z.bits_0 by done. destruct (decide (n = i)) as [->|].
    + by rewrite E.
    + destruct (decide (n < i)).
      * rewrite (Z.testbit_neg_r _ (n - i)) by lia. apply andb_false_r.
      * replace (n - i) with (Z.succ (n - i - 1)) by lia. change 1 with (2 * 0 + 1).
        rewrite Z.testbit_odd_succ, Z.bits_0 by lia. apply andb_false_r.
Qed.

Lemma testbit_shiftl_1 i j : 0 ≤ i → 0 ≤ j → Z.testbit (Z.shiftl 1 i) j = (i =? j).
Proof. intros. rewrite Z.shiftl_1_l. apply Z.pow2_bits_eqb. done. Qed.

Section bits.
Context (d : list Z) (Hd : length d = Z.to_nat BSIZE).

Lemma bit_index bi : 0 ≤ bi < BPB → ∃ x, d !! Z.to_nat (bi / 8) = Some x.
Proof.
  intros Hb. apply lookup_lt_is_Some. rewrite Hd. unfold BPB, BSIZE in *.
  pose proof (Z.div_lt_upper_bound bi 8 512). pose proof (Z.div_pos bi 8). lia.
Qed.

Lemma bit_alter f bi bj : 0 ≤ bi < BPB → 0 ≤ bj < BPB →
  bit (alter f (Z.to_nat (bi / 8)) d) bj =
  if decide (bi / 8 = bj / 8) then Z.testbit (f (d !!! Z.to_nat (bj / 8))) (bj mod 8) else bit d bj.
Proof.
  intros Hi Hj. destruct (bit_index bi Hi) as [x Hx], (bit_index bj Hj) as [y Hy]. unfold bit.
  rewrite (list_lookup_total_alt (alter _ _ _)), (list_lookup_total_alt d).
  rewrite (list_alter_Some _ _ _ _ Hx). pose proof (Z.div_pos bi 8). pose proof (Z.div_pos bj 8).
  case_decide as E.
  - rewrite E in *. rewrite list_lookup_insert_eq by (by eapply lookup_lt_Some). cbn.
    rewrite Hx. done.
  - rewrite list_lookup_insert_ne by lia. done.
Qed.

Lemma bit_set bi bj : 0 ≤ bi < BPB → 0 ≤ bj < BPB → bit (set_bit d bi) bj = (bi =? bj) || bit d bj.
Proof.
  intros Hi Hj. unfold set_bit. rewrite bit_alter by done.
  pose proof (Z.mod_pos_bound bi 8). pose proof (Z.mod_pos_bound bj 8).
  pose proof (Z.div_mod bi 8). pose proof (Z.div_mod bj 8). case_decide.
  - rewrite Z.lor_spec, testbit_shiftl_1 by lia. unfold bit.
    destruct (Z.eqb_spec bi bj), (Z.eqb_spec (bi mod 8) (bj mod 8)); try lia.
    by rewrite orb_false_r.
  - rewrite (proj2 (Z.eqb_neq _ _)); [done|]. congruence.
Qed.

Lemma bit_clear bi bj : 0 ≤ bi < BPB → 0 ≤ bj < BPB → bit (clear_bit d bi) bj = negb (bi =? bj) && bit d bj.
Proof.
  intros Hi Hj. unfold clear_bit. rewrite bit_alter by done.
  pose proof (Z.mod_pos_bound bi 8). pose proof (Z.mod_pos_bound bj 8).
  pose proof (Z.div_mod bi 8). pose proof (Z.div_mod bj 8). case_decide.
  - rewrite Z.land_spec, Z.lnot_spec, testbit_shiftl_1 by lia. unfold bit.
    destruct (Z.eqb_spec bi bj), (Z.eqb_spec (bi mod 8) (bj mod 8)); try lia.
    by rewrite andb_true_r.
  - rewrite (proj2 (Z.eqb_neq _ _)); [done|]. congruence.
Qed.

End bits.

(** The inner loop of [balloc] finds the first clear bit. *)
Lemma free_bit_spec fuel d b bi size :
  0 ≤ bi → BPB - bi ≤ Z.of_nat fuel →
  match free_bit fuel d b bi size with
  | Some r => bi ≤ r < BPB ∧ b + r < size ∧ bit d r = false ∧ ∀ j, bi ≤ j < r → bit d j = true
  | None => ∀ j, bi ≤ j < BPB → b + j < size → bit d j = true
  end.
Proof.
  revert bi. induction fuel as [|fuel IH]; intros bi Hb Hf; cbn [free_bit]; [lia|].
  destruct ((bi <? BPB) && (b + bi <? size)) eqn:E; [|intros j; lia].
  pose proof (Z.mod_pos_bound bi 8). rewrite land_bit by lia. fold (bit d bi).
  destruct (bit d bi) eqn:Eb; cbn [negb]; [|repeat split; try lia; done].
  specialize (IH (bi + 1) ltac:(lia) ltac:(lia)). destruct (free_bit _ _ _ _ _) as [r|].
  - destruct IH as (H1 & H2 & H3 & H4). repeat split; try lia; try done.
    intros j Hj. destruct (decide (j = bi)) as [->|]; [done|]. apply H4. lia.
  - intros j H1 H2. destruct (decide (j = bi)) as [->|]; [done|]. apply IH; lia.
Qed.

(** ** The free map *)

(** Block [b] is in use, by the map of the blocks [D]. *)
Definition used (sb : superblock) (D : list (list Z)) (b : Z) : bool :=
  bit (blk D (BBLOCK b sb)) (b mod BPB).

Section bitmap.
Context {CP : CurProc} {LO : LoopOps} {DS : DevSw}.

(** The map covers the disk; its own blocks and block 0 are in use; a free
    block is a data block of the disk. *)
Record map_ok (k : kernel) (D : list (list Z)) : Prop := {
  mo_start : 0 ≤ sb_bmapstart (k_sb k);
  mo_wrap : sb_bmapstart (k_sb k) + sb_size (k_sb k) < 2 ^ 31;
  mo_map : ∀ b, 0 ≤ b < sb_size (k_sb k) → data_block k (BBLOCK b (k_sb k)) ∧
    BBLOCK b (k_sb k) < sb_size (k_sb k) ∧ used (k_sb k) D (BBLOCK b (k_sb k)) = true;
  mo_zero : used (k_sb k) D 0 = true;
  mo_free : ∀ b, 0 ≤ b < sb_size (k_sb k) → used (k_sb k) D b = false → data_block k b;
}.

(** The held buffers are neither map blocks nor free blocks. *)
Definition held_ok (k : kernel) (D : list (list Z)) (H : gmap nat held) : Prop :=
  ∀ b, 0 ≤ b < sb_size (k_sb k) →
    not_held H ROOTDEV (BBLOCK b (k_sb k)) ∧ (used (k_sb k) D b = false → not_held H ROOTDEV b).

(** What allocating or freeing block [b] does to the map. *)
Definition mark (sb : superblock) (b : Z) (v : bool) (D : list (list Z)) : list (list Z) :=
  let d := blk D (BBLOCK b sb) in
  <[Z.to_nat (BBLOCK b sb) := if v then set_bit d (b mod BPB) else clear_bit d (b mod BPB)]> D.

Lemma kframe_sb k k' : kframe k k' → k_sb k' = k_sb k.
Proof. intros [E _]. by rewrite E. Qed.

Lemma BBLOCK_eq k D b : map_ok k D → 0 ≤ b < sb_size (k_sb k) →
  BBLOCK b (k_sb k) = b / BPB + sb_bmapstart (k_sb k).
Proof.
  intros [M1 M2 _ _ _] Hb. unfold BBLOCK. apply u32_small.
  assert (0 ≤ b / BPB ≤ b) by (split; [apply Z.div_pos|apply Z.div_le_upper_bound];
    unfold BPB, BSIZE; lia). lia.
Qed.

Lemma mark_used k D H b v j :
  tx k D H → map_ok k D → 0 ≤ b < sb_size (k_sb k) → 0 ≤ j < sb_size (k_sb k) →
  used (k_sb k) (mark (k_sb k) b v D) j = if b =? j then v else used (k_sb k) D j.
Proof.
  intros Ht Hm Hb Hj. destruct (mo_map _ _ Hm b Hb) as ([Hin _] & _).
  pose proof (tx_store _ _ _ Ht) as Hs. destruct (in_disk_lookup _ _ _ _ Hs Hin) as (d & Hd & Hlen).
  assert (blk D (BBLOCK b (k_sb k)) = d) as Eb by (unfold blk; by rewrite Hd).
  pose proof (BBLOCK_eq _ _ _ Hm Hb) as E1. pose proof (BBLOCK_eq _ _ _ Hm Hj) as E2.
  assert (0 < BPB) as HB by done. pose proof (Z.mod_pos_bound b BPB HB). pose proof (Z.mod_pos_bound j BPB HB).
  pose proof (Z.div_mod b BPB). pose proof (Z.div_mod j BPB).
  unfold used, mark. rewrite Eb. destruct (decide (b / BPB = j / BPB)) as [E|E].
  - assert (BBLOCK j (k_sb k) = BBLOCK b (k_sb k)) as -> by lia.
    rewrite Eb, blk_insert by (rewrite (st_len _ _ _ Hs); apply Hin).
    destruct (Z.eqb_spec b j) as [->|Hne].
    + destruct v; [rewrite (bit_set d Hlen)|rewrite (bit_clear d Hlen)]; try lia; by rewrite Z.eqb_refl.
    + assert ((b mod BPB =? j mod BPB) = false) as Hne' by (apply Z.eqb_neq; intros ?; apply Hne; lia).
      destruct v; [rewrite (bit_set d Hlen)|rewrite (bit_clear d Hlen)]; try lia; by rewrite Hne'.
  - rewrite (proj2 (Z.eqb_neq b j)) by congruence. f_equal. unfold blk.
    rewrite list_lookup_insert_ne; [done|]. pose proof (mo_start _ _ Hm).
    pose proof (Z.div_pos b BPB). pose proof (Z.div_pos j BPB). lia.
Qed.

Lemma set_bit_length d bi : length (set_bit d bi) = length d.
Proof. apply length_alter. Qed.
Lemma clear_bit_length d bi : length (clear_bit d bi) = length d.
Proof. apply length_alter. Qed.

(** [bfree]: the block's bit is cleared, or the block was free. *)
Lemma bfree_gen k D H b :
  tx k D H → map_ok k D → held_ok k D H → 0 ≤ b < sb_size (k_sb k) →
  wp (bfree ROOTDEV b) (if used (k_sb k) D b then full_panics else "freeing free block"%string :: full_panics)
    (λ _ k', used (k_sb k) D b = true ∧ kframe k k' ∧ tx k' (mark (k_sb k) b false D) H) k.
Proof.
  intros Ht Hm Hh Hb. destruct (mo_map _ _ Hm b Hb) as (Hdb & _). unfold bfree.
  apply wp_bind, wp_gets. apply wp_bind, wp_weaken with full_panics.
  { destruct (used _ _ _); set_solver. }
  eapply wp_mono; [eapply (bread_tx k D H); [done|by apply (Hh b Hb)|apply Hdb|]|].
  { apply (blk_Some _ _ _ _ (tx_store _ _ _ Ht)), Hdb. }
  intros bp k1 (F1 & Hbp & T1).
  wp_step (bdata_store _ _ _ bp _ _ _ (tx_store _ _ _ T1) (lookup_insert_eq _ _ _)).
  pose proof (Z.mod_pos_bound (b mod BPB) 8 eq_refl). rewrite land_bit by lia.
  change (Z.testbit _ _) with (used (k_sb k) D b). destruct (used (k_sb k) D b); cbn [negb]; [|by left].
  destruct (in_disk_lookup _ _ _ _ (tx_store _ _ _ Ht) (proj1 Hdb)) as (d & Hd & Hlen).
  assert (blk D (BBLOCK b (k_sb k)) = d) as Eb by (unfold blk; by rewrite Hd).
  eapply wp_mono; [eapply finish_block_tx; [done|done|by eapply kframe_data_block|]|].
  { by rewrite clear_bit_length, Eb. }
  intros [] k2 [F2 T2]. split; [done|]. split; [by transitivity k1|done].
Qed.

(** [bfree] of a block in use clears its bit in the free map, and of no
    other block, in the running transaction; of a free block it does not
    return. *)
Theorem bfree_spec k D H b :
  tx k D H → map_ok k D → held_ok k D H → 0 ≤ b < sb_size (k_sb k) →
  wp (bfree ROOTDEV b) (if used (k_sb k) D b then full_panics else "freeing free block"%string :: full_panics)
    (λ _ k', used (k_sb k) D b = true ∧ kframe k k' ∧ ∃ D', tx k' D' H ∧
      ∀ j, 0 ≤ j < sb_size (k_sb k) → used (k_sb k) D' j = negb (b =? j) && used (k_sb k) D j) k.
Proof.
  intros Ht Hm Hh Hb. eapply wp_mono; [by apply bfree_gen|]. intros [] k' (Hu & F & T).
  split; [done|]. split; [done|]. eexists. split; [done|].
  intros j Hj. rewrite (mark_used _ _ _ _ _ _ Ht Hm Hb Hj). by destruct (b =? j).
Qed.

(** The blocks after [balloc] gave block [b]. *)
Definition allocated (sb : superblock) (b : Z) (D : list (list Z)) : list (list Z) :=
  <[Z.to_nat b := zero_block]> (mark sb b true D).

Lemma balloc_found k D H bp b bi :
  tx k D (<[bp:=(ROOTDEV, BBLOCK b (k_sb k), blk D (BBLOCK b (k_sb k)))]> H) → H !! bp = None →
  map_ok k D → held_ok k D H → b mod BPB = 0 → 0 ≤ b → 0 ≤ bi < BPB → b + bi < sb_size (k_sb k) →
  used (k_sb k) D (b + bi) = false → BBLOCK (b + bi) (k_sb k) = BBLOCK b (k_sb k) → (b + bi) mod BPB = bi →
  wp (set_bdata bp (set_bit (blk D (BBLOCK b (k_sb k))) bi);; log_write bp;; brelse_k bp;;
      bzero ROOTDEV (b + bi);; mret (b + bi)) full_panics
    (λ r k', r = b + bi ∧ kframe k k' ∧ tx k' (allocated (k_sb k) (b + bi) D) H) k.
Proof.
  intros T Hbp Hm Hh Hb0 Hb Hbi Hs Hu EB Ebi. assert (0 ≤ b + bi < sb_size (k_sb k)) as Hr by lia.
  destruct (mo_map _ _ Hm _ Hr) as (Hdb & _). rewrite EB in Hdb.
  assert (length (blk D (BBLOCK b (k_sb k))) = Z.to_nat BSIZE) as Hlen.
  { destruct (in_disk_lookup _ _ _ _ (tx_store _ _ _ T) (proj1 Hdb)) as (d & Hd & ?).
    unfold blk. by rewrite Hd. }
  eapply finish_block_bind; [done|done|done|done|by rewrite set_bit_length|]. intros k3 F3 T3.
  apply wp_bind. change (bzero ROOTDEV (b + bi)) with (update (b + bi) zero_block).
  eapply wp_mono; [apply (update_tx _ _ _ _ _ T3); [by apply (Hh _ Hr)| |apply length_replicate]|].
  { eapply kframe_data_block; [done|]. by apply (mo_free _ _ Hm). }
  intros [] k4 [F4 T4]. apply wp_ret. split; [done|]. split; [by transitivity k3|].
  unfold allocated, mark. by rewrite EB, Ebi.
Qed.

Lemma kframe_map_ok k k' D : kframe k k' → map_ok k D → map_ok k' D.
Proof.
  intros F [M1 M2 M3 M0 M4]. split; rewrite (kframe_sb _ _ F); try done.
  - intros b Hb. destruct (M3 b Hb) as (? & ? & ?). split_and!; [by eapply kframe_data_block|done..].
  - intros b Hb Hu. eapply kframe_data_block; eauto.
Qed.

Lemma kframe_held_ok k k' D H : kframe k k' → held_ok k D H → held_ok k' D H.
Proof. intros F. unfold held_ok. by rewrite (kframe_sb _ _ F). Qed.

(** The positions of one block of the map. *)
Lemma map_index k D b bi : map_ok k D → b mod BPB = 0 → 0 ≤ b → 0 ≤ bi < BPB → b + bi < sb_size (k_sb k) →
  BBLOCK (b + bi) (k_sb k) = BBLOCK b (k_sb k) ∧ (b + bi) mod BPB = bi.
Proof.
  intros Hm Hb0 Hb Hbi Hs. rewrite !(BBLOCK_eq k D) by (done || lia).
  assert (0 < BPB) as HB by done. pose proof (Z.div_mod b BPB). split.
  - f_equal. symmetry. apply (Z.div_unique _ _ _ bi); [lia|]. lia.
  - symmetry. apply (Z.mod_unique _ _ (b / BPB)); [lia|]. lia.
Qed.

(** What [balloc] gives: the first free block, zeroed and marked in use. *)
Definition balloc_post (k : kernel) (D : list (list Z)) (H : gmap nat held) (r : Z) (k' : kernel) : Prop :=
  0 ≤ r < sb_size (k_sb k) ∧ used (k_sb k) D r = false ∧
  (∀ j, 0 ≤ j < r → used (k_sb k) D j = true) ∧ kframe k k' ∧ tx k' (allocated (k_sb k) r D) H.

Lemma balloc_loop_wp E fuel b k D H :
  full_panics ⊆ E →
  ((∀ j, 0 ≤ j < sb_size (k_sb k) → used (k_sb k) D j = true) → "balloc: out of blocks"%string ∈ E) →
  tx k D H → map_ok k D → held_ok k D H → b mod BPB = 0 → 0 ≤ b →
  sb_size (k_sb k) ≤ b + Z.of_nat fuel * BPB →
  (∀ j, 0 ≤ j < b → j < sb_size (k_sb k) → used (k_sb k) D j = true) →
  wp (balloc_loop fuel ROOTDEV b) E (balloc_post k D H) k.
Proof.
  intros HE Hout. revert b k Hout. induction fuel as [|fuel IH]; intros b k Hout Ht Hm Hh Hb0 Hb Hf Hall;
    cbn [balloc_loop]; apply wp_bind, wp_gets; (destruct (Z.ltb_spec b (sb_size (k_sb k))) as [Hlt|Hge];
      [|apply Hout; intros j Hj; apply Hall; lia]); [lia|].
  destruct (mo_map _ _ Hm b ltac:(lia)) as (Hdb & _).
  apply wp_bind, wp_weaken with full_panics; [done|].
  eapply wp_mono; [eapply (bread_tx k D H); [done|by apply (Hh b)|apply Hdb|]|].
  { apply (blk_Some _ _ _ _ (tx_store _ _ _ Ht)), Hdb. }
  intros bp k1 (F1 & Hbp & T1). pose proof (kframe_sb _ _ F1) as Esb.
  wp_step (bdata_store _ _ _ bp _ _ _ (tx_store _ _ _ T1) (lookup_insert_eq _ _ _)).
  pose proof (free_bit_spec (Z.to_nat BPB) (blk D (BBLOCK b (k_sb k))) b 0 (sb_size (k_sb k))) as Hfb.
  assert (∀ bi, 0 ≤ bi < BPB → b + bi < sb_size (k_sb k) →
    used (k_sb k) D (b + bi) = bit (blk D (BBLOCK b (k_sb k))) bi) as Hu.
  { intros bi H1 H2. unfold used. by destruct (map_index k D b bi Hm Hb0 Hb H1 H2) as [-> ->]. }
  destruct (free_bit _ _ _ _ _) as [bi|]; (specialize (Hfb ltac:(lia)); rewrite Z2Nat.id in Hfb by done;
    specialize (Hfb ltac:(lia))).
  - destruct Hfb as (B1 & B2 & B3 & B4). destruct (map_index k D b bi Hm Hb0 Hb B1 B2) as [E1 E2].
    apply wp_weaken with full_panics; [done|]. rewrite <-Esb in *.
    eapply wp_mono; [apply (balloc_found k1 D H bp b bi); try done|].
    { by eapply kframe_map_ok. } { by eapply kframe_held_ok. } { by rewrite Hu. }
    intros r k' (-> & F & T). rewrite Esb in *. split; [lia|]. split; [by rewrite Hu|]. split.
    + intros j Hj. destruct (decide (j < b)); [apply Hall; lia|]. replace j with (b + (j - b)) by lia.
      rewrite Hu by lia. apply B4. lia.
    + split; [by transitivity k1|done].
  - destruct (release_block_tx _ _ _ _ _ T1 Hbp) as (k2 & E2 & F2 & T2); [by eapply kframe_in_disk; [|apply Hdb]|].
    wp_step E2. assert (kframe k k2) as F by (by transitivity k1). pose proof (kframe_sb _ _ F) as Esb2.
    eapply wp_mono; [apply IH; rewrite ?Esb2; try done|].
    + by eapply kframe_map_ok.
    + by eapply kframe_held_ok.
    + rewrite <-Zplus_mod_idemp_r, Z_mod_same_full, Z.add_0_r. done.
    + unfold BPB, BSIZE. lia.
    + lia.
    + intros j H1 H2. destruct (decide (j < b)); [apply Hall; lia|]. replace j with (b + (j - b)) by lia.
      rewrite Hu by lia. apply Hfb; lia.
    + intros r k' (P1 & P2 & P3 & P4 & P5). rewrite Esb2 in *. split_and!; try done; [lia..|by transitivity k2].
Qed.

Lemma balloc_wp E k D H :
  full_panics ⊆ E →
  ((∀ j, 0 ≤ j < sb_size (k_sb k) → used (k_sb k) D j = true) → "balloc: out of blocks"%string ∈ E) →
  tx k D H → map_ok k D → held_ok k D H → wp (balloc ROOTDEV) E (balloc_post k D H) k.
Proof.
  intros HE Hout Ht Hm Hh. unfold balloc. apply wp_bind, wp_gets. apply balloc_loop_wp; try done; [|lia].
  pose proof (Z.mod_pos_bound (sb_size (k_sb k)) BPB eq_refl). pose proof (Z.div_mod (sb_size (k_sb k)) BPB).
  destruct (decide (0 ≤ sb_size (k_sb k))); [|unfold BPB, BSIZE in *; lia].
  assert (0 ≤ sb_size (k_sb k) / BPB) by (apply Z.div_pos; unfold BPB, BSIZE; lia).
  unfold BPB, BSIZE in *. lia.
Qed.

Lemma allocated_used k D H r j :
  tx k D H → map_ok k D → 0 ≤ r < sb_size (k_sb k) → used (k_sb k) D r = false →
  0 ≤ j < sb_size (k_sb k) → used (k_sb k) (allocated (k_sb k) r D) j = (r =? j) || used (k_sb k) D j.
Proof.
  intros Ht Hm Hr Hu Hj. destruct (mo_map _ _ Hm j Hj) as ([Hin _] & Hlt & Hmu).
  transitivity (used (k_sb k) (mark (k_sb k) r true D) j).
  - unfold used, allocated. f_equal. unfold blk. rewrite list_lookup_insert_ne; [done|].
    intros E. unfold in_disk in Hin. assert (r = BBLOCK j (k_sb k)) by lia. congruence.
  - rewrite (mark_used _ _ _ _ _ _ Ht Hm Hr Hj). by destruct (r =? j).
Qed.

(** C10: while a block is free, [balloc] returns the first free block; in the
    running transaction it is zeroed and marked in use, no other mark
    changes and no block but it and its map block changes. *)
Theorem balloc_spec k D H :
  tx k D H → map_ok k D → held_ok k D H →
  (∃ b, 0 ≤ b < sb_size (k_sb k) ∧ used (k_sb k) D b = false) →
  wp (balloc ROOTDEV) full_panics (λ r k',
    0 ≤ r < sb_size (k_sb k) ∧ used (k_sb k) D r = false ∧
    (∀ j, 0 ≤ j < r → used (k_sb k) D j = true) ∧ kframe k k' ∧
    ∃ D', tx k' D' H ∧ blk D' r = zero_block ∧
      (∀ j, 0 ≤ j < sb_size (k_sb k) → used (k_sb k) D' j = (r =? j) || used (k_sb k) D j) ∧
      (∀ n, 0 ≤ n → n ≠ r → n ≠ BBLOCK r (k_sb k) → blk D' n = blk D n)) k.
Proof.
  intros Ht Hm Hh (b & Hb & Hu). eapply wp_mono; [apply balloc_wp; try done|].
  { intros Hall. rewrite Hall in Hu by done. done. }
  intros r k' (R1 & R2 & R3 & F & T). split_and!; try done; [lia..|]. eexists. split; [done|].
  destruct (mo_free _ _ Hm r R1 R2) as [[Hi1 Hi2] _]. destruct (mo_map _ _ Hm r R1) as ([[Hi3 Hi4] _] & _).
  split; [|split].
  - unfold allocated. apply blk_insert. unfold mark. rewrite length_insert.
    rewrite (st_len _ _ _ (tx_store _ _ _ Ht)). lia.
  - intros j Hj. by eapply allocated_used.
  - intros n Hn N1 N2. unfold allocated, mark, blk. by rewrite !list_lookup_insert_ne by lia.
Qed.

(** With every block in use [balloc] does not return: it panics. *)
Theorem balloc_out_of_blocks k D H :
  tx k D H → map_ok k D → held_ok k D H →
  (∀ b, 0 ≤ b < sb_size (k_sb k) → used (k_sb k) D b = true) →
  wp (balloc ROOTDEV) ("balloc: out of blocks"%string :: full_panics) (λ _ _, False) k.
Proof.
  intros Ht Hm Hh Hall. eapply wp_mono; [apply balloc_wp; try done; set_solver|].
  intros r k' (R1 & R2 & _). rewrite Hall in R2 by done. done.
Qed.

End bitmap.
