(* ===== verification/FileData.v ===== *)
(** * FileData: the contents of files, [bmap], [readi] and [writei] of fs.c

    A file's blocks as a function of the block number within the file: the
    address [faddr], direct or through the indirect block, and the contents
    [fblock], zero where no block is allocated.  [bmap] leaves [fblock] alone
    whether it allocates or not; [readi] reads it and [writei] changes exactly
    the bytes written. *)

From Stdlib Require Import ZArith Lia.
From stdpp Require Import base numbers strings gmap list.
From S2P Require Import Prelude CString Kernel Sleeplock Bio Log Store Commit Crash Txn MntTable Fs Bitmap.
Open Scope Z_scope.

(** ** The inode cache *)

Definition with_inode (ip : nat) (x : inode) (k : kernel) : kernel :=
  set_k_ic (set_ic_inode (<[ip:=x]> (ic_inode (k_ic k))) (k_ic k)) k.
Definition cached (ip : nat) (x : inode) (k : kernel) : Prop := ic_inode (k_ic k) !! ip = Some x.

Lemma inode_of_run k ip x : cached ip x k → inode_of ip k = Ret x k.
Proof.
  intros H. unfold inode_of. erewrite zoom_Ret.
  2:{ unfold getinode. cbn. by rewrite H. }
  by destruct k.
Qed.

Lemma upd_inode_run k ip x f : cached ip x k → upd_inode ip f k = Ret tt (with_inode ip (f x) k).
Proof.
  intros H. unfold upd_inode. erewrite zoom_Ret; [|unfold updinode; cbn; by rewrite H]. done.
Qed.

Lemma cached_with ip x y k : cached ip x k → cached ip y (with_inode ip y k).
Proof. intros H. unfold cached, with_inode. cbn. apply list_lookup_insert_eq. by eapply lookup_lt_Some. Qed.

Lemma with_inode_same ip x k : cached ip x k → with_inode ip x k = k.
Proof. intros H. unfold with_inode. rewrite list_insert_id by done. by destruct k as [? ? ? ? ? ? []]. Qed.
Lemma with_inode_twice ip x y k : with_inode ip x (with_inode ip y k) = with_inode ip x k.
Proof. unfold with_inode. cbn. rewrite list_insert_insert_eq. by destruct k as [? ? ? ? ? ? []]. Qed.

(** ** Changes of the cache only *)

Record cframe (k k' : kernel) : Prop := {
  cf_kernel : k' = set_k_bc (k_bc k') k;
  cf_clean : clean_mono k k';
}.
#[global] Instance cframe_refl : Reflexive cframe.
Proof. intros k. split; [by destruct k|done]. Qed.
#[global] Instance cframe_trans : Transitive cframe.
Proof. intros k1 k2 k3 [E1 C1] [E2 C2]. split; [rewrite E2, E1; by destruct k1|by transitivity k2]. Qed.

Section filedata.
Context {CP : CurProc} {LO : LoopOps} {DS : DevSw}.

Lemma kframe_ic k k' : kframe k k' → k_ic k' = k_ic k.
Proof. intros [E _]. by rewrite E. Qed.
Lemma kframe_cached ip x k k' : kframe k k' → cached ip x k → cached ip x k'.
Proof. intros F. unfold cached. by rewrite (kframe_ic _ _ F). Qed.
Lemma cframe_kframe k k' : cframe k k' → kframe k k'.
Proof. intros [E _]. rewrite E. apply kframe_bc. Qed.
Lemma cframe_tx k k' D H : cframe k k' → tx k D H → store k' D H → tx k' D H.
Proof. intros [E C] Ht Hs. by apply (tx_bc k k' D H D H). Qed.

Lemma kframe_with_inode ip x k k' : kframe k k' → kframe (with_inode ip x k) (with_inode ip x k').
Proof.
  intros [E1 E2]. unfold with_inode. split; cbn; [|done].
  rewrite E1. by destruct k.
Qed.

Lemma tx_with_inode ip x k D H : tx k D H → tx (with_inode ip x k) D H.
Proof.
  intros [[S1 L1 L2 L3 L4 S2 S3 S4 S5 S6 S7] [R1 R2 R3 R4 R5 R6 R7] T3 T4].
  split; [by split|by split|done..].
Qed.

(** Read block [bno] and go on with its contents. *)
Lemma read_block_wp {A} (f : list Z → K kernel A) (Q : A → kernel → Prop) k D H bno :
  store k D H → not_held H ROOTDEV bno → in_disk k bno →
  (∀ k1, cframe k k1 → store k1 D H → wp (f (blk D bno)) full_panics Q k1) →
  wp (b ← bread ROOTDEV bno; d ← bdata b; brelse_k b;; f d) full_panics Q k.
Proof.
  intros Hs Hn Hin Hf. apply wp_bind. eapply wp_mono; [apply (bread_store k D H bno (blk D bno)); try done|].
  { by apply (blk_Some _ _ _ _ Hs). }
  intros b k1 (F1 & C1 & Hb & S1).
  wp_step (bdata_store _ _ _ b _ _ _ S1 (lookup_insert_eq _ _ _)).
  destruct (brelse_store _ _ _ b _ _ _ S1 (lookup_insert_eq _ _ _)) as (k2 & E2 & F2 & C2 & S2).
  { intros _. by apply (blk_Some _ _ _ _ Hs). }
  wp_step E2. rewrite delete_insert_id in S2 by done. apply Hf; [|done]. transitivity k1; by split.
Qed.

(** ** The blocks of a file *)

Definition ind_addr (x : inode) : Z := i_addrs x !!! Z.to_nat NDIRECT.
Definition faddr (D : list (list Z)) (x : inode) (bn : Z) : Z :=
  if bn <? NDIRECT then i_addrs x !!! Z.to_nat bn
  else if ind_addr x =? 0 then 0 else word (blk D (ind_addr x)) (Z.to_nat (bn - NDIRECT)).
Definition fblock (D : list (list Z)) (x : inode) (bn : Z) : list Z :=
  if faddr D x bn =? 0 then zero_block else blk D (faddr D x bn).

(** A block a file may own: in use, not part of the map or of the log. *)
Record good_block (k : kernel) (D : list (list Z)) (a : Z) : Prop := {
  gb_range : 0 ≤ a < sb_size (k_sb k);
  gb_used : used (k_sb k) D a = true;
  gb_data : data_block k a;
  gb_map : ∀ b, 0 ≤ b < sb_size (k_sb k) → BBLOCK b (k_sb k) ≠ a;
}.

(** An inode of the disk: its blocks are good and pairwise different. *)
Record file_ok (k : kernel) (D : list (list Z)) (x : inode) : Prop := {
  fo_dev : i_dev x = ROOTDEV;
  fo_len : length (i_addrs x) = 13%nat;
  fo_ind : ind_addr x ≠ 0 → good_block k D (ind_addr x);
  fo_good : ∀ n, 0 ≤ n < MAXFILE → faddr D x n ≠ 0 → good_block k D (faddr D x n);
  fo_ne : ∀ n, 0 ≤ n < MAXFILE → faddr D x n ≠ 0 → faddr D x n ≠ ind_addr x;
  fo_inj : ∀ n m, 0 ≤ n < MAXFILE → 0 ≤ m < MAXFILE → faddr D x n ≠ 0 →
    faddr D x n = faddr D x m → n = m;
}.

Lemma kframe_good k k' D a : kframe k k' → good_block k D a → good_block k' D a.
Proof.
  intros F [G1 G2 G3 G4]. split; rewrite ?(kframe_sb _ _ F); try done. by eapply kframe_data_block.
Qed.

Lemma kframe_file_ok k k' D x : kframe k k' → file_ok k D x → file_ok k' D x.
Proof.
  intros F [O1 O2 O3 O4 O5 O6]. split; try done.
  - intros H. by eapply kframe_good; eauto.
  - intros n Hn H. by eapply kframe_good; eauto.
Qed.

(** The inode table does not matter to the blocks. *)
Lemma good_with_inode ip y k D a : good_block (with_inode ip y k) D a ↔ good_block k D a.
Proof. split; intros [G1 G2 G3 G4]; by split. Qed.
Lemma file_ok_with_inode ip y k D x : file_ok (with_inode ip y k) D x ↔ file_ok k D x.
Proof.
  split; intros [O1 O2 O3 O4 O5 O6]; split; try done; intros; apply (good_with_inode ip y); auto;
    by apply good_with_inode; auto.
Qed.

(** ** Changing a block the map does not live in *)

Lemma used_insert k D a d b :
  0 ≤ a → (∀ b, 0 ≤ b < sb_size (k_sb k) → BBLOCK b (k_sb k) ≠ a) → 0 ≤ b < sb_size (k_sb k) →
  used (k_sb k) (<[Z.to_nat a:=d]> D) b = used (k_sb k) D b.
Proof.
  intros Ha Hm Hb. unfold used. f_equal. unfold blk. rewrite list_lookup_insert_ne; [done|].
  specialize (Hm b Hb). pose proof (u32_range (b / BPB + sb_bmapstart (k_sb k))). unfold BBLOCK in *. lia.
Qed.

Lemma blk_insert_ne (D : list (list Z)) a d n : 0 ≤ a → 0 ≤ n → a ≠ n → blk (<[Z.to_nat a:=d]> D) n = blk D n.
Proof. intros. unfold blk. by rewrite list_lookup_insert_ne by lia. Qed.

Lemma good_insert k D a d c :
  good_block k D a → good_block k D c → good_block k (<[Z.to_nat a:=d]> D) c.
Proof.
  intros [A1 A2 A3 A4] [G1 G2 G3 G4]. split; try done. rewrite used_insert; [done|lia|done|done].
Qed.

Lemma map_ok_insert k D a d :
  map_ok k D → good_block k D a → map_ok k (<[Z.to_nat a:=d]> D).
Proof.
  intros [M1 M2 M3 M0 M4] [A1 A2 A3 A4].
  assert (∀ b, 0 ≤ b < sb_size (k_sb k) → used (k_sb k) (<[Z.to_nat a:=d]> D) b = used (k_sb k) D b) as E.
  { intros b Hb. apply used_insert; [lia|done|done]. }
  split; try done.
  - intros b Hb. destruct (M3 b Hb) as (H1 & H2 & H3). split_and!; [done..|]. rewrite E; [done|].
    destruct H1 as [[? ?] _]. lia.
  - rewrite E; [done|]. lia.
  - intros b Hb. rewrite E by done. by apply M4.
Qed.

(** Changing a data block of the file: the addresses stay, one block changes. *)
Lemma file_insert k D x n d :
  file_ok k D x → map_ok k D → 0 ≤ n < MAXFILE → faddr D x n ≠ 0 → length D = length (k_disk k) →
  let D' := <[Z.to_nat (faddr D x n):=d]> D in
  file_ok k D' x ∧ (∀ m, faddr D' x m = faddr D x m) ∧ fblock D' x n = d ∧
  (∀ m, 0 ≤ m < MAXFILE → m ≠ n → fblock D' x m = fblock D x m).
Proof.
  intros Hf Hm Hn Ha Hl D'. pose proof (fo_good _ _ _ Hf n Hn Ha) as Hg. pose proof (gb_range _ _ _ Hg) as Hr.
  assert (∀ m, faddr D' x m = faddr D x m) as E.
  { intros m. unfold faddr at 1 2. destruct (m <? NDIRECT); [done|].
    destruct (Z.eqb_spec (ind_addr x) 0) as [|Hi]; [done|]. f_equal.
    pose proof (gb_range _ _ _ (fo_ind _ _ _ Hf Hi)). apply blk_insert_ne; [lia..|].
    by apply (fo_ne _ _ _ Hf). }
  destruct (gb_data _ _ _ Hg) as [[Hi1 Hi2] _].
  split; [|split; [done|split]].
  - destruct Hf as [O1 O2 O3 O4 O5 O6]. split; try done.
    + intros Hi. apply good_insert; [done|by apply O3].
    + intros m Hm'. rewrite E. intros H'. apply good_insert; [done|by apply O4].
    + intros m Hm'. rewrite E. by apply O5.
    + intros i j Hi Hj. rewrite !E. by apply O6.
  - unfold fblock. rewrite E, (proj2 (Z.eqb_neq _ _)) by done. apply blk_insert. lia.
  - intros m Hm' Hne. unfold fblock. rewrite E. destruct (Z.eqb_spec (faddr D x m) 0) as [|Hz]; [done|].
    pose proof (gb_range _ _ _ (fo_good _ _ _ Hf m Hm' Hz)). apply blk_insert_ne; [lia..|].
    intros Heq. apply Hne. symmetry. by apply (fo_inj _ _ _ Hf n m).
Qed.

(** ** Allocating a block *)

Definition fs_panics : list string := "balloc: out of blocks"%string :: full_panics.

Lemma balloc_fs_wp k D H : tx k D H → map_ok k D → held_ok k D H →
  wp (balloc ROOTDEV) fs_panics (balloc_post k D H) k.
Proof. intros Ht Hm Hh. apply balloc_wp; [|left|done..]. unfold fs_panics. set_solver. Qed.

Lemma held_ok_empty k D : held_ok k D ∅.
Proof. intros b Hb. split; [|intros _]; intros i h Hi; by rewrite lookup_empty in Hi. Qed.

Section alloc.
Context (k : kernel) (D : list (list Z)) (H : gmap nat held) (r : Z).
Context (Ht : tx k D H) (Hm : map_ok k D).
Context (Hr : 0 ≤ r < sb_size (k_sb k)) (Hfree : used (k_sb k) D r = false).
Abbreviation D' := (allocated (k_sb k) r D).

Lemma alloc_not_map b : 0 ≤ b < sb_size (k_sb k) → BBLOCK b (k_sb k) ≠ r.
Proof using All. intros Hb E. destruct (mo_map _ _ Hm b Hb) as (_ & _ & Hu). rewrite E in Hu. congruence. Qed.

Lemma alloc_nonzero : r ≠ 0.
Proof using All. intros ->. rewrite (mo_zero _ _ Hm) in Hfree. done. Qed.

Lemma alloc_blk c : good_block k D c → blk D' c = blk D c.
Proof using All.
  intros [G1 G2 G3 G4]. unfold allocated, mark. assert (r ≠ c) by congruence. specialize (G4 r Hr).
  pose proof (u32_range (r / BPB + sb_bmapstart (k_sb k))). unfold BBLOCK in *. by rewrite !blk_insert_ne by lia.
Qed.

Lemma alloc_blk_r : blk D' r = zero_block.
Proof using All.
  destruct (mo_free _ _ Hm r Hr Hfree) as [[? ?] _]. apply blk_insert. unfold mark.
  rewrite length_insert, (st_len _ _ _ (tx_store _ _ _ Ht)). lia.
Qed.

Lemma alloc_good c : good_block k D c → good_block k D' c.
Proof using All.
  intros [G1 G2 G3 G4]. split; try done. rewrite (allocated_used k D H) by done. rewrite G2. apply orb_true_r.
Qed.

Lemma alloc_good_r : good_block k D' r.
Proof using All.
  split; [done| |by apply (mo_free _ _ Hm)|apply alloc_not_map].
  rewrite (allocated_used k D H) by done. by rewrite Z.eqb_refl.
Qed.

Lemma alloc_map_ok : map_ok k D'.
Proof using All.
  pose proof (allocated_used k D H r) as E. destruct Hm as [M1 M2 M3 M0 M4]. split; try done.
  - intros b Hb. destruct (M3 b Hb) as (H1 & H2 & H3). split_and!; [done..|].
    rewrite E; try done; [by rewrite H3, orb_true_r|]. destruct H1 as [[? ?] _]. lia.
  - rewrite E; try done; [by rewrite M0, orb_true_r|lia].
  - intros b Hb. rewrite E by done. intros [_ Hu]%orb_false_iff. by apply M4.
Qed.

Lemma alloc_faddr x n : file_ok k D x → faddr D' x n = faddr D x n.
Proof using All.
  intros Hf. unfold faddr. destruct (n <? NDIRECT); [done|].
  destruct (Z.eqb_spec (ind_addr x) 0) as [|Hi]; [done|]. by rewrite alloc_blk by (by apply (fo_ind _ _ _ Hf)).
Qed.

Lemma alloc_fblock x n : file_ok k D x → 0 ≤ n < MAXFILE → fblock D' x n = fblock D x n.
Proof using All.
  intros Hf Hn. unfold fblock. rewrite alloc_faddr by done. destruct (Z.eqb_spec (faddr D x n) 0); [done|].
  by rewrite alloc_blk by (by apply (fo_good _ _ _ Hf)).
Qed.

Lemma alloc_file_ok x : file_ok k D x → file_ok k D' x.
Proof using All.
  intros Hf. pose proof (λ n, alloc_faddr x n Hf) as E. destruct Hf as [O1 O2 O3 O4 O5 O6]. split; try done.
  - intros. apply alloc_good. auto.
  - intros n Hn. rewrite E. intros. apply alloc_good. auto.
  - intros n Hn. rewrite E. auto.
  - intros n m Hn Hm'. rewrite !E. auto.
Qed.

(** The new block is none of the file's. *)
Lemma alloc_fresh x : file_ok k D x →
  (∀ n, 0 ≤ n < MAXFILE → faddr D x n ≠ r) ∧ ind_addr x ≠ r.
Proof using All.
  intros Hf. pose proof alloc_nonzero as Hr0. split.
  - intros n Hn E. assert (faddr D x n ≠ 0) as Hz by congruence.
    pose proof (gb_used _ _ _ (fo_good _ _ _ Hf n Hn Hz)) as Hu. rewrite E in Hu. congruence.
  - intros E. assert (ind_addr x ≠ 0) as Hz by congruence.
    pose proof (gb_used _ _ _ (fo_ind _ _ _ Hf Hz)) as Hu. rewrite E in Hu. congruence.
Qed.

End alloc.

(** ** Giving a file a block *)

Definition set_addr (i : Z) (a : Z) (x : inode) : inode :=
  set_i_addrs (<[Z.to_nat i:=a]> (i_addrs x)) x.

(** The file has block [r] as its block [bn] as well; nothing else moved. *)
Lemma file_ok_give k D x D' x' bn r :
  file_ok k D x → length (i_addrs x') = 13%nat → i_dev x' = i_dev x → ind_addr x' = ind_addr x →
  (∀ c, good_block k D c → good_block k D' c) → good_block k D' r → r ≠ 0 →
  0 ≤ bn < MAXFILE → faddr D x bn = 0 →
  (∀ n, 0 ≤ n < MAXFILE → faddr D x n ≠ r) → ind_addr x ≠ r →
  (∀ m, 0 ≤ m < MAXFILE → faddr D' x' m = if m =? bn then r else faddr D x m) →
  file_ok k D' x'.
Proof.
  intros [O1 O2 O3 O4 O5 O6] Hl Hd Hi Hg Hr Hr0 Hbn Hz Hf Hfi E. split; rewrite ?Hi; try congruence.
  - auto.
  - intros n Hn. rewrite E by done. destruct (n =? bn); auto.
  - intros n Hn. rewrite E by done. destruct (n =? bn); auto.
  - intros n m Hn Hm. rewrite !E by done. destruct (Z.eqb_spec n bn), (Z.eqb_spec m bn); subst; try done.
    + intros _ E'. by destruct (Hf m Hm).
    + intros _ E'. by destruct (Hf n Hn).
    + by apply O6.
Qed.

(** ... and its contents are the same when the block is zero. *)
Lemma fblock_give D x D' x' bn r m :
  faddr D x bn = 0 → r ≠ 0 → blk D' r = zero_block →
  faddr D' x' m = (if m =? bn then r else faddr D x m) →
  (m ≠ bn → faddr D x m ≠ 0 → blk D' (faddr D x m) = blk D (faddr D x m)) →
  fblock D' x' m = fblock D x m.
Proof.
  intros Hz Hr Hb E Ho. unfold fblock. rewrite E. destruct (Z.eqb_spec m bn) as [->|Hne].
  - rewrite Hz, (proj2 (Z.eqb_neq _ _)) by done. done.
  - destruct (Z.eqb_spec (faddr D x m) 0); [done|]. by apply Ho.
Qed.

Lemma faddr_set_direct D x bn r m :
  length (i_addrs x) = 13%nat → 0 ≤ bn < NDIRECT → 0 ≤ m →
  faddr D (set_addr bn r x) m = (if m =? bn then r else faddr D x m) ∧
  ind_addr (set_addr bn r x) = ind_addr x.
Proof.
  intros Hl Hb Hm. unfold NDIRECT in *.
  assert (ind_addr (set_addr bn r x) = ind_addr x) as E.
  { unfold ind_addr, set_addr, NDIRECT. cbn. rewrite list_lookup_total_insert_ne by lia. done. }
  split; [|done]. unfold faddr. rewrite E. unfold NDIRECT. cbn [set_addr i_addrs set_i_addrs].
  destruct (Z.eqb_spec m bn) as [->|Hne].
  - rewrite (proj2 (Z.ltb_lt _ _)) by lia. by rewrite list_lookup_total_insert_eq by lia.
  - destruct (m <? 12); [|done]. by rewrite list_lookup_total_insert_ne by lia.
Qed.

Lemma word_zero_block i : word zero_block i = 0.
Proof.
  unfold word, zero_block. rewrite drop_replicate, take_replicate.
  induction (_ `min` _)%nat as [|n IH]; [done|]. cbn [replicate le_val]. by rewrite IH.
Qed.

(** An indirect block, still empty. *)
Lemma file_set_ind k D x r :
  file_ok k D x → ind_addr x = 0 → good_block k D r → r ≠ 0 → blk D r = zero_block →
  (∀ n, 0 ≤ n < MAXFILE → faddr D x n ≠ r) →
  let x' := set_addr NDIRECT r x in
  ind_addr x' = r ∧ (∀ m, 0 ≤ m → faddr D x' m = faddr D x m) ∧ file_ok k D x'.
Proof.
  intros [O1 O2 O3 O4 O5 O6] Hi Hg Hr0 Hb Hf x'.
  assert (ind_addr x' = r) as Ei.
  { unfold ind_addr, x', set_addr, NDIRECT. cbn. apply list_lookup_total_insert_eq. rewrite O2. lia. }
  assert (∀ m, 0 ≤ m → faddr D x' m = faddr D x m) as E.
  { intros m Hm. unfold faddr. rewrite Ei, Hi. unfold NDIRECT. cbn [x' set_addr i_addrs set_i_addrs].
    destruct (Z.ltb_spec m 12).
    - unfold NDIRECT. by rewrite list_lookup_total_insert_ne by lia.
    - rewrite (proj2 (Z.eqb_neq _ _)) by done. rewrite Hb. apply word_zero_block. }
  split; [done|]. split; [done|]. split; try done.
  - cbn. by rewrite length_insert.
  - by rewrite Ei.
  - intros n Hn. rewrite E by lia. auto.
  - intros n Hn. rewrite E, Ei by lia. auto.
  - intros n m Hn Hm. rewrite !E by lia. auto.
Qed.

(** An entry of the indirect block. *)
Lemma faddr_set_entry D x bn r m :
  length (blk D (ind_addr x)) = Z.to_nat BSIZE → 0 < ind_addr x < Z.of_nat (length D) →
  NDIRECT ≤ bn < MAXFILE → 0 ≤ m → 0 ≤ r < 2 ^ 32 →
  faddr (<[Z.to_nat (ind_addr x) := set_word (blk D (ind_addr x)) (Z.to_nat (bn - NDIRECT)) r]> D) x m =
  if m =? bn then r else faddr D x m.
Proof.
  intros Hl Hi Hb Hm Hr. unfold faddr. rewrite blk_insert by lia.
  unfold MAXFILE, NINDIRECT, NDIRECT, BSIZE in *. change (512 / 4) with 128 in Hb.
  destruct (Z.ltb_spec m 12).
  - by rewrite (proj2 (Z.eqb_neq m bn)) by lia.
  - rewrite (proj2 (Z.eqb_neq (ind_addr x) 0)) by lia. destruct (Z.eqb_spec m bn) as [->|Hne].
    + rewrite word_set_eq, u32_small by lia. done.
    + rewrite word_set_ne by lia. done.
Qed.

(** ** [bmap] *)

(** The file of [x] got blocks, zero ones; every block of it that was there
    and every block of other files is as it was. *)
Record grown (ip : nat) (k : kernel) (D : list (list Z)) (x : inode)
    (k' : kernel) (D' : list (list Z)) (x' : inode) : Prop := {
  gr_frame : kframe (with_inode ip x' k) k';
  gr_tx : tx k' D' ∅;
  gr_map : map_ok k' D';
  gr_file : file_ok k' D' x';
  gr_inode : x' = set_i_addrs (i_addrs x') x;
  gr_fblock : ∀ m, 0 ≤ m < MAXFILE → fblock D' x' m = fblock D x m;
  gr_keep : ∀ m, 0 ≤ m < MAXFILE → faddr D x m ≠ 0 → faddr D' x' m = faddr D x m;
  gr_other : ∀ c, good_block k D c → c ≠ ind_addr x → blk D' c = blk D c ∧ c ≠ ind_addr x';
  gr_own : ∀ c, good_block k D c → (∀ m, 0 ≤ m < MAXFILE → faddr D x m ≠ c) →
    ∀ m, 0 ≤ m < MAXFILE → faddr D' x' m ≠ c;
  gr_good : ∀ c, good_block k D c → good_block k' D' c;
}.

Lemma grown_cached ip k D x k' D' x' : cached ip x k → grown ip k D x k' D' x' → cached ip x' k'.
Proof. intros Hc G. eapply kframe_cached; [apply G|]. by eapply cached_with. Qed.

Lemma grown_refl ip k D x : cached ip x k → tx k D ∅ → map_ok k D → file_ok k D x → grown ip k D x k D x.
Proof.
  intros Hc Ht Hm Hf. split; try done.
  - by rewrite with_inode_same.
  - by destruct x.
Qed.

Lemma grown_trans ip k1 D1 x1 k2 D2 x2 k3 D3 x3 :
  cached ip x1 k1 → grown ip k1 D1 x1 k2 D2 x2 → grown ip k2 D2 x2 k3 D3 x3 → grown ip k1 D1 x1 k3 D3 x3.
Proof.
  intros Hc [A1 A2 A3 A4 A5 A6 A7 A8 A10 A9] [B1 B2 B3 B4 B5 B6 B7 B8 B10 B9]. split; try done.
  - transitivity (with_inode ip x3 k2); [|done].
    rewrite <-(with_inode_twice ip x3 x2 k1). by apply kframe_with_inode.
  - rewrite B5, A5. by destruct x1.
  - intros m Hm. rewrite B6, A6 by done. done.
  - intros m Hm Hz. rewrite B7, A7; try done. by rewrite A7.
  - intros c Hg Hi. destruct (A8 c Hg Hi) as [E Hi2]. destruct (B8 c (A9 c Hg) Hi2) as [E' ?].
    split; [congruence|done].
  - intros c Hg Ho. apply B10; auto.
  - auto.
Qed.

Lemma map_ok_with_inode ip y k D : map_ok k D → map_ok (with_inode ip y k) D.
Proof. intros [M1 M2 M3 M0 M4]. by split. Qed.

(** The block [balloc] gave, before the file has it. *)
Lemma grown_alloc ip k D x k' r x' :
  cached ip x k → tx k D ∅ → map_ok k D → file_ok k D x → balloc_post k D ∅ r k' →
  x' = set_i_addrs (i_addrs x') x → file_ok k (allocated (k_sb k) r D) x' →
  (∀ m, 0 ≤ m < MAXFILE → fblock (allocated (k_sb k) r D) x' m = fblock D x m) →
  (∀ m, 0 ≤ m < MAXFILE → faddr (allocated (k_sb k) r D) x' m = faddr D x m ∨
     faddr D x m = 0 ∧ faddr (allocated (k_sb k) r D) x' m = r) →
  (ind_addr x' = ind_addr x ∨ ind_addr x' = r) →
  grown ip k D x (with_inode ip x' k') (allocated (k_sb k) r D) x'.
Proof.
  intros Hc Ht Hm Hf (P1 & P2 & P3 & P4 & P5) Ex Hf' Hb Hk Hi.
  assert (kframe (with_inode ip x' k) (with_inode ip x' k')) as F by (by apply kframe_with_inode).
  split; try done.
  - by apply tx_with_inode.
  - apply map_ok_with_inode. eapply kframe_map_ok; [done|]. by eapply alloc_map_ok.
  - eapply kframe_file_ok; [done|]. by apply file_ok_with_inode.
  - intros m Hm' Hz. destruct (Hk m Hm') as [?|[? _]]; done.
  - intros c Hg Hne. split; [by apply (alloc_blk k D ∅)|]. destruct Hi as [-> | ->]; [done|].
    intros ->. pose proof (gb_used _ _ _ Hg). congruence.
  - intros c Hg Ho m Hm'. destruct (Hk m Hm') as [-> |[_ ->]]; [by apply Ho|].
    intros ->. pose proof (gb_used _ _ _ Hg). congruence.
  - intros c Hg. eapply kframe_good; [done|]. apply good_with_inode. by eapply alloc_good.
Qed.

Lemma addrs_lookup x i : length (i_addrs x) = 13%nat → (i < 13)%nat → i_addrs x !! i = Some (i_addrs x !!! i).
Proof. intros Hl Hi. apply list_lookup_lookup_total_lt. lia. Qed.

Definition bmap_post ip k D x bn (a : Z) (k' : kernel) : Prop :=
  ∃ D' x', grown ip k D x k' D' x' ∧ faddr D' x' bn = a ∧ a ≠ 0 ∧ (faddr D x bn ≠ 0 → x' = x).

Lemma bmap_direct_wp ip k D x bn :
  cached ip x k → tx k D ∅ → map_ok k D → file_ok k D x → 0 ≤ bn < NDIRECT →
  wp (bmap ip bn) fs_panics (bmap_post ip k D x bn) k.
Proof.
  intros Hc Ht Hm Hf Hbn. pose proof (fo_len _ _ _ Hf) as Hlen. pose proof (fo_dev _ _ _ Hf) as Hdev.
  assert (0 ≤ bn < MAXFILE) as Hbm by (change MAXFILE with 140; unfold NDIRECT in *; lia).
  unfold bmap. wp_step (inode_of_run _ _ _ Hc). rewrite (proj2 (Z.ltb_lt _ _)) by lia.
  eapply wp_bind, wp_deref; [apply addrs_lookup; [done|unfold NDIRECT in *; lia]|].
  assert (faddr D x bn = i_addrs x !!! Z.to_nat bn) as Ea.
  { unfold faddr. by rewrite (proj2 (Z.ltb_lt _ _)) by lia. }
  rewrite <-Ea. destruct (Z.eqb_spec (faddr D x bn) 0) as [Hz|Hz].
  2:{ apply wp_ret. exists D, x. split; [by apply grown_refl|done]. }
  rewrite Hdev. apply wp_bind. eapply wp_mono; [apply (balloc_fs_wp k D ∅); [done..|apply held_ok_empty]|].
  intros r k' P. pose proof P as (P1 & P2 & _ & P4 & _).
  eapply wp_bind, wp_Ret; [eapply upd_inode_run, kframe_cached; [done|exact Hc]|]. apply wp_ret.
  pose proof (alloc_nonzero k D ∅ r Ht Hm P1 P2) as Hr0. destruct (alloc_fresh k D ∅ r Ht Hm P1 P2 x Hf) as [Hfr Hfi].
  assert (∀ m, 0 ≤ m < MAXFILE → faddr (allocated (k_sb k) r D) (set_addr bn r x) m =
    if m =? bn then r else faddr D x m) as E.
  { intros m Hm'. destruct (faddr_set_direct (allocated (k_sb k) r D) x bn r m) as [-> _]; [done|done|lia|].
    by rewrite (alloc_faddr k D ∅ r). }
  destruct (faddr_set_direct D x bn r bn) as [_ Ei]; [done|done|lia|].
  exists (allocated (k_sb k) r D), (set_addr bn r x). split; [|by rewrite E, Z.eqb_refl].
  apply grown_alloc; try done; [..|by left].
  - eapply file_ok_give; try done; [cbn; by rewrite length_insert|by eapply alloc_good|by eapply alloc_good_r].
  - intros m Hm'. eapply fblock_give; [done|exact Hr0|by eapply alloc_blk_r|by apply E|].
    intros _ Hmz. eapply alloc_blk; [done..|]. by apply (fo_good _ _ _ Hf).
  - intros m Hm'. rewrite E by done. destruct (Z.eqb_spec m bn) as [->|]; [by right|by left].
Qed.

(** The indirect block, allocated if the file has none. *)
Lemma bmap_ind_wp ip k D x :
  cached ip x k → tx k D ∅ → map_ok k D → file_ok k D x →
  wp (if ind_addr x =? 0 then
        addr ← balloc (i_dev x);
        upd_inode ip (λ x, set_i_addrs (<[Z.to_nat NDIRECT:=addr]> (i_addrs x)) x);;
        mret addr
      else mret (ind_addr x)) fs_panics
    (λ a k', ∃ D' x', grown ip k D x k' D' x' ∧ ind_addr x' = a ∧ a ≠ 0 ∧
      (∀ m, 0 ≤ m < MAXFILE → faddr D' x' m = faddr D x m) ∧ (ind_addr x ≠ 0 → x' = x)) k.
Proof.
  intros Hc Ht Hm Hf. destruct (Z.eqb_spec (ind_addr x) 0) as [Hz|Hz].
  2:{ apply wp_ret. exists D, x. split; [by apply grown_refl|done]. }
  rewrite (fo_dev _ _ _ Hf). apply wp_bind.
  eapply wp_mono; [apply (balloc_fs_wp k D ∅); [done..|apply held_ok_empty]|].
  intros r k' P. pose proof P as (P1 & P2 & _ & P4 & _).
  eapply wp_bind, wp_Ret; [eapply upd_inode_run, kframe_cached; [done|exact Hc]|]. apply wp_ret.
  pose proof (alloc_nonzero k D ∅ r Ht Hm P1 P2) as Hr0.
  destruct (alloc_fresh k D ∅ r Ht Hm P1 P2 x Hf) as [Hfr Hfi].
  pose proof (λ n, alloc_faddr k D ∅ r Ht Hm P1 P2 x n Hf) as Ea.
  destruct (file_set_ind k (allocated (k_sb k) r D) x r) as (Ei & E & Hf');
    [by eapply alloc_file_ok|done|by eapply alloc_good_r|done|by eapply alloc_blk_r|
     intros n Hn; rewrite Ea; by apply Hfr|].
  exists (allocated (k_sb k) r D), (set_addr NDIRECT r x).
  assert (∀ m, 0 ≤ m < MAXFILE → faddr (allocated (k_sb k) r D) (set_addr NDIRECT r x) m = faddr D x m) as E'.
  { intros m Hm'. rewrite E by lia. apply Ea. }
  split; [|done]. apply grown_alloc; try done; [..|by right].
  - intros m Hm'. unfold fblock. rewrite E' by done. destruct (Z.eqb_spec (faddr D x m) 0); [done|].
    eapply alloc_blk; [done..|]. by apply (fo_good _ _ _ Hf).
  - intros m Hm'. left. by apply E'.
Qed.

(** Writing the entry of a new block into the indirect block. *)
Lemma grown_entry ip k D x k' bn r :
  let d := set_word (blk D (ind_addr x)) (Z.to_nat (bn - NDIRECT)) r in
  let D' := <[Z.to_nat (ind_addr x):=d]> (allocated (k_sb k) r D) in
  cached ip x k → tx k D ∅ → map_ok k D → file_ok k D x → ind_addr x ≠ 0 →
  NDIRECT ≤ bn < MAXFILE → faddr D x bn = 0 → 0 ≤ r < sb_size (k_sb k) → used (k_sb k) D r = false →
  kframe k k' → tx k' D' ∅ → grown ip k D x k' D' x ∧ faddr D' x bn = r.
Proof.
  intros d D' Hc Ht Hm Hf Hi Hbn Hz P1 P2 F T. set (A := allocated (k_sb k) r D).
  assert (0 ≤ bn < MAXFILE) as Hbm by (unfold NDIRECT in *; lia).
  pose proof (alloc_nonzero k D ∅ r Ht Hm P1 P2) as Hr0.
  destruct (alloc_fresh k D ∅ r Ht Hm P1 P2 x Hf) as [Hfr Hfi].
  pose proof (fo_ind _ _ _ Hf Hi) as Hgi. pose proof (gb_range _ _ _ Hgi) as Hri.
  pose proof (alloc_blk k D ∅ r Ht Hm P1 P2 _ Hgi) as Eb. fold A in Eb.
  assert (length A = length (k_disk k)) as EA.
  { unfold A, allocated, mark. rewrite !length_insert. apply (st_len _ _ _ (tx_store _ _ _ Ht)). }
  destruct (gb_data _ _ _ Hgi) as [Hin _]. unfold in_disk in Hin.
  assert (∀ m, 0 ≤ m < MAXFILE → faddr D' x m = if m =? bn then r else faddr D x m) as E.
  { intros m Hm'. unfold D', d. fold A. rewrite <-Eb. rewrite faddr_set_entry; try done; try lia.
    - destruct (m =? bn); [done|]. by apply (alloc_faddr k D ∅).
    - rewrite Eb. by destruct (in_disk_lookup _ _ _ _ (tx_store _ _ _ Ht) Hin) as (e & He & ?); unfold blk; rewrite He.
    - pose proof (mo_wrap _ _ Hm). pose proof (mo_start _ _ Hm). lia. }
  assert (∀ c, good_block k D c → good_block k D' c) as Hg.
  { intros c Hc'. apply good_insert; by eapply alloc_good. }
  assert (∀ c, 0 ≤ c → c ≠ ind_addr x → blk D' c = blk A c) as Ebl.
  { intros c Hc' Hne. apply blk_insert_ne; lia. }
  assert (file_ok k D' x) as Hf'.
  { eapply file_ok_give; try done; [apply (fo_len _ _ _ Hf)|].
    apply good_insert; [by eapply alloc_good|by eapply alloc_good_r]. }
  split; [|by rewrite E, Z.eqb_refl]. split; try done.
  - by rewrite with_inode_same.
  - eapply kframe_map_ok; [done|]. apply map_ok_insert; [by eapply alloc_map_ok|by eapply alloc_good].
  - by eapply kframe_file_ok.
  - by destruct x.
  - intros m Hm'. eapply fblock_give; [exact Hz|exact Hr0| |by apply E|].
    + rewrite Ebl by (lia || congruence). by eapply alloc_blk_r.
    + intros _ Hmz. pose proof (fo_good _ _ _ Hf m Hm' Hmz) as Hgm. pose proof (gb_range _ _ _ Hgm).
      rewrite Ebl; [by eapply alloc_blk|lia|]. by apply (fo_ne _ _ _ Hf).
  - intros m Hm' Hmz. rewrite E by done. destruct (Z.eqb_spec m bn); [congruence|done].
  - intros c Hgc Hne. split; [|done]. pose proof (gb_range _ _ _ Hgc).
    rewrite Ebl by (lia || done). by eapply alloc_blk.
  - intros c Hgc Ho m Hm'. rewrite E by done. destruct (m =? bn); [|by apply Ho].
    intros ->. pose proof (gb_used _ _ _ Hgc). congruence.
  - intros c Hgc. eapply kframe_good; [done|]. by apply Hg.
Qed.

Lemma held_ok_good k D b a d : good_block k D a → held_ok k D {[b := (ROOTDEV, a, d)]}.
Proof.
  intros G n Hn. split.
  - intros i h [<- <-]%lookup_singleton_Some E. cbn in E. simplify_eq. by apply (gb_map _ _ _ G n).
  - intros Hu i h [<- <-]%lookup_singleton_Some E. cbn in E. simplify_eq. by rewrite (gb_used _ _ _ G) in Hu.
Qed.

(** The entry of a file block in the indirect block. *)
Lemma bmap_entry_wp ip k D x bn :
  cached ip x k → tx k D ∅ → map_ok k D → file_ok k D x → ind_addr x ≠ 0 → NDIRECT ≤ bn < MAXFILE →
  wp (bp ← bread ROOTDEV (ind_addr x);
      d ← bdata bp;
      addr ← (if word d (Z.to_nat (bn - NDIRECT)) =? 0 then
           addr ← balloc ROOTDEV;
           d ← bdata bp;
           set_bdata bp (set_word d (Z.to_nat (bn - NDIRECT)) addr);;
           log_write bp;;
           mret addr
         else mret (word d (Z.to_nat (bn - NDIRECT))));
      brelse_k bp;;
      mret addr) fs_panics (bmap_post ip k D x bn) k.
Proof.
  intros Hc Ht Hm Hf Hi Hbn. pose proof (fo_ind _ _ _ Hf Hi) as Hgi. pose proof (gb_data _ _ _ Hgi) as Hdb.
  assert (faddr D x bn = word (blk D (ind_addr x)) (Z.to_nat (bn - NDIRECT))) as Ea.
  { unfold faddr. rewrite (proj2 (Z.ltb_ge _ _)) by lia. by rewrite (proj2 (Z.eqb_neq _ _)). }
  apply wp_bind, wp_weaken with full_panics; [unfold fs_panics; set_solver|].
  eapply wp_mono; [eapply (bread_tx k D ∅); [done|done|apply Hdb|]|].
  { apply (blk_Some _ _ _ _ (tx_store _ _ _ Ht)), Hdb. }
  intros bp k1 (F1 & _ & T1). rewrite insert_empty in T1.
  wp_step (bdata_store _ _ _ bp _ _ _ (tx_store _ _ _ T1) (lookup_singleton_eq _ _)).
  rewrite <-Ea. destruct (Z.eqb_spec (faddr D x bn) 0) as [Hz|Hz].
  2:{ apply wp_bind, wp_ret.
      destruct (release_block_tx k1 D ∅ bp (ind_addr x)) as (k2 & E2 & F2 & T2); [by rewrite insert_empty|done|
        by eapply kframe_in_disk; [|apply Hdb]|].
      wp_step E2. apply wp_ret. exists D, x. assert (kframe k k2) as F by (by transitivity k1).
      split; [|done]. split; try done; [by rewrite with_inode_same|by eapply kframe_map_ok|
        by eapply kframe_file_ok|by destruct x|intros; by eapply kframe_good]. }
  pose proof (kframe_sb _ _ F1) as Esb. apply wp_bind, wp_bind.
  eapply wp_mono; [apply (balloc_fs_wp k1 D _ T1); [by eapply kframe_map_ok|]|].
  { apply held_ok_good. by eapply kframe_good. }
  intros r k2 (P1 & P2 & _ & F2 & T2). rewrite Esb in P1, P2, T2.
  pose proof (alloc_blk k D ∅ r Ht Hm P1 P2 _ Hgi) as Eb.
  wp_step (bdata_store _ _ _ bp _ _ _ (tx_store _ _ _ T2) (lookup_singleton_eq _ _)).
  set (d := set_word _ _ _). rewrite <-(insert_empty bp) in T2.
  assert (kframe k k2) as F by (by transitivity k1).
  pose proof (finish_block_tx k2 _ ∅ bp _ _ d T2 (lookup_empty _)) as Hfin.
  specialize (Hfin (kframe_data_block _ _ _ F Hdb)). unfold wp, mbind, K_bind, mret, K_ret in Hfin |- *.
  assert (length d = Z.to_nat BSIZE) as Hd.
  { unfold d. rewrite set_word_length.
    destruct (in_disk_lookup _ _ _ _ (tx_store _ _ _ Ht) (proj1 Hdb)) as (e & He & ?). unfold blk. by rewrite He. }
  specialize (Hfin Hd). destruct (set_bdata bp d k2) as [[] k3| | | |]; try (done || set_solver).
  destruct (log_write bp k3) as [[] k4| | | |]; try (done || (unfold fs_panics; set_solver)).
  destruct (brelse_k bp k4) as [[] k5| | | |]; try (done || (unfold fs_panics; set_solver)).
  destruct Hfin as [F5 T5]. pose proof (alloc_nonzero k D ∅ r Ht Hm P1 P2) as Hr0.
  destruct (grown_entry ip k D x k5 bn r) as [G E]; try done; [by transitivity k2|].
  exists (<[Z.to_nat (ind_addr x):=d]> (allocated (k_sb k) r D)), x. split; [done|]. done.
Qed.

Lemma bmap_wp ip k D x bn :
  cached ip x k → tx k D ∅ → map_ok k D → file_ok k D x → 0 ≤ bn < MAXFILE →
  wp (bmap ip bn) fs_panics (bmap_post ip k D x bn) k.
Proof.
  intros Hc Ht Hm Hf Hbn. destruct (decide (bn < NDIRECT)); [apply bmap_direct_wp; (done || lia)|].
  unfold bmap. wp_step (inode_of_run _ _ _ Hc). rewrite (proj2 (Z.ltb_ge _ _)) by lia.
  rewrite (proj2 (Z.ltb_lt _ _)) by (unfold MAXFILE in *; lia).
  eapply wp_bind, wp_deref; [apply addrs_lookup; [apply (fo_len _ _ _ Hf)|unfold NDIRECT; lia]|].
  fold (ind_addr x). apply wp_bind. eapply wp_mono; [by apply bmap_ind_wp|].
  intros a k1 (D1 & x1 & G1 & <- & Ha & E1 & Hsame1). rewrite (fo_dev _ _ _ Hf).
  pose proof (grown_cached _ _ _ _ _ _ _ Hc G1) as Hc1.
  eapply wp_mono; [apply (bmap_entry_wp ip k1 D1 x1 bn); [done|apply G1..|done|lia]|].
  intros a k2 (D2 & x2 & G2 & E2 & Ha2 & Hsame2). exists D2, x2. split; [by eapply grown_trans|].
  split; [done|]. split; [done|]. intros Hz. rewrite Hsame2 by (by rewrite E1). apply Hsame1.
  unfold faddr in Hz. rewrite (proj2 (Z.ltb_ge _ _)) in Hz by lia. by destruct (Z.eqb_spec (ind_addr x) 0).
Qed.

End filedata.
