(* ===== verification/InodeOps.v ===== *)
(** * InodeOps: locking, sharing and dropping cached inodes

    The routines of fs.c on the entries of the inode cache, for inodes that
    have been read and do not go away: each changes its entry and nothing
    else. *)

From Stdlib Require Import ZArith Lia.
From stdpp Require Import base numbers strings gmap list.
From S2P Require Import Prelude CString Kernel Sleeplock Bio Log MntTable Fs FileData.
Open Scope Z_scope.

Section inodeops.
Context {CP : CurProc} {LO : LoopOps} {DS : DevSw}.

Lemma cached_other ip jp y z k : ip ≠ jp → cached jp z (with_inode ip y k) ↔ cached jp z k.
Proof. intros. unfold cached, with_inode. cbn. by rewrite list_lookup_insert_ne. Qed.

Lemma with_inode_comm ip jp y z k : ip ≠ jp → with_inode ip y (with_inode jp z k) = with_inode jp z (with_inode ip y k).
Proof. intros. unfold with_inode. cbn. rewrite list_insert_insert_ne by done. by destruct k as [? ? ? ? ? ? []]. Qed.

Lemma idup_run k ip z : cached ip z k → ic_lock (k_ic k) = false →
  zoom ic_l (idup ip) k = Ret ip (with_inode ip (set_i_ref (i_ref z + 1) z) k).
Proof.
  intros Hz Hl. unfold cached in Hz. erewrite zoom_Ret.
  2:{ unfold idup, acquire, release, updinode, mbind, K_bind. cbn. rewrite Hl. cbn. rewrite Hz. cbn. done. }
  unfold with_inode. cbn. destruct (k_ic k) eqn:E. cbn in *. by subst.
Qed.

(** An inode after [iput] has dropped one reference. *)
Definition dropped (z : inode) : inode :=
  let y := set_i_ref (i_ref z - 1) (set_i_lock (SleepLock false 0) z) in
  if i_ref y =? 0 then load_dinode zero_dinode y else y.

Lemma set_lock_run k ip z lk : cached ip z k →
  set_inode_lock ip lk (k_ic k) = set_ic_inode (<[ip:=set_i_lock lk z]> (ic_inode (k_ic k))) (k_ic k).
Proof. intros Hz. unfold set_inode_lock. by rewrite (list_alter_Some _ _ _ _ Hz). Qed.

Lemma acquire_inode k ip z : cached ip z k → sl_locked (i_lock z) = false →
  zoom ic_l (acquiresleep (inode_lock ip) (set_inode_lock ip)) k = Ret tt (with_inode ip (set_i_lock (SleepLock true cur_pid) z) k).
Proof.
  intros Hz Hl. erewrite zoom_Ret; [done|]. unfold acquiresleep, inode_lock. cbn. unfold cached in Hz. rewrite Hz. cbn.
  rewrite Hl. by rewrite (set_lock_run _ _ _ _ Hz).
Qed.
Lemma release_inode k ip z : cached ip z k →
  zoom ic_l (releasesleep (inode_lock ip) (set_inode_lock ip)) k = Ret tt (with_inode ip (set_i_lock (SleepLock false 0) z) k).
Proof.
  intros Hz. erewrite zoom_Ret; [done|]. unfold releasesleep, inode_lock. cbn. unfold cached in Hz. rewrite Hz. cbn.
  by rewrite (set_lock_run _ _ _ _ Hz).
Qed.

(** [iput] of an inode that does not go away. *)
Lemma iput_run k ip z :
  cached ip z k → ic_lock (k_ic k) = false → sl_locked (i_lock z) = false →
  (i_valid z = true → i_nlink z = 0 → i_ref z ≠ 1) → iput ip k = Ret tt (with_inode ip (dropped z) k).
Proof.
  intros Hz Hl Hs Hk. unfold iput. kstep (acquire_inode k ip z Hz Hs). set (z1 := set_i_lock _ z). set (k1 := with_inode ip z1 k).
  assert (H1 : cached ip z1 k1) by (by apply (cached_with ip z)). kstep (inode_of_run k1 ip z1 H1).
  match goal with |- ((?m ≫= _) _) = _ => assert (Hm : m k1 = Ret tt k1) end.
  { change (i_valid z1) with (i_valid z). change (i_nlink z1) with (i_nlink z).
    destruct (i_valid z && (i_nlink z =? 0)) eqn:E; [|done]. apply andb_true_iff in E as [Ev ?%Z.eqb_eq].
    assert (Ha : zoom ic_l (acquire ic_lock_l) k1 = Ret tt (set_k_ic (set_ic_lock true (k_ic k1)) k1)).
    { erewrite zoom_Ret; [done|]. unfold acquire. cbn. by rewrite Hl. }
    kstep Ha. set (k2 := set_k_ic _ k1). assert (H2 : cached ip z1 k2) by exact H1. kstep (inode_of_run k2 ip z1 H2).
    assert (Hr : zoom ic_l (release ic_lock_l) k2 = Ret tt k1).
    { erewrite zoom_Ret; [|unfold release; cbn; done]. unfold k2, k1, with_inode. cbn. destruct k as [? ? ? ? ? ? ic ? ? ?].
      destruct ic. cbn in *. by subst. }
    kstep Hr. rewrite (proj2 (Z.eqb_neq _ _)); [done|]. by apply Hk. }
  rewrite (K_bind_Ret _ _ _ _ _ Hm). kstep (release_inode k1 ip z1 H1). set (z3 := set_i_lock _ z1).
  assert (E3 : with_inode ip z3 k1 = with_inode ip z3 k) by apply with_inode_twice. rewrite E3. set (k3 := with_inode ip z3 k).
  assert (H3 : cached ip z3 k3) by (by apply (cached_with ip z)).
  assert (Ha : zoom ic_l (acquire ic_lock_l) k3 = Ret tt (set_k_ic (set_ic_lock true (k_ic k3)) k3)).
  { erewrite zoom_Ret; [done|]. unfold acquire. cbn. by rewrite Hl. }
  kstep Ha. set (k4 := set_k_ic _ k3). kstep (upd_inode_run k4 ip z3 (λ x, set_i_ref (i_ref x - 1) x) H3).
  set (z5 := set_i_ref _ z3). set (k5 := with_inode ip z5 k4). assert (H5 : cached ip z5 k5) by (by apply (cached_with ip z3)).
  kstep (inode_of_run k5 ip z5 H5). set (fin := dropped z).
  assert (Hf : (if i_ref z5 =? 0 then upd_inode ip (load_dinode zero_dinode) else mret tt) k5 = Ret tt (with_inode ip fin k5)).
  { unfold fin, dropped. change (i_ref z5) with (i_ref z - 1). cbn. destruct (i_ref z - 1 =? 0).
    - by rewrite (upd_inode_run k5 ip z5 _ H5).
    - rewrite <- (with_inode_same ip z5 k5 H5) at 1. done. }
  rewrite (K_bind_Ret _ _ _ _ _ Hf). erewrite zoom_Ret; [|unfold release; cbn; done].
  f_equal. unfold k5, k4, k3, with_inode. cbn. rewrite !list_insert_insert_eq. destruct k as [? ? ? ? ? ? ic ? ? ?].
  destruct ic. cbn in *. by subst.
Qed.

(** [ilock] of an inode that has been read. *)
Lemma ilock_valid k ip x : cached ip x k → 0 < i_ref x → sl_locked (i_lock x) = false → i_valid x = true →
  ilock (Some ip) k = Ret tt (with_inode ip (set_i_lock (SleepLock true cur_pid) x) k).
Proof.
  intros Hx Hr Hl Hv. unfold ilock. kstep (inode_of_run k ip x Hx). destruct (Z.ltb_spec (i_ref x) 1); [lia|].
  kstep (acquire_inode k ip x Hx Hl). by rewrite Hv.
Qed.

Lemma iunlock_run k ip x : cached ip x k → i_lock x = SleepLock true cur_pid → 1 ≤ i_ref x →
  iunlock (Some ip) k = Ret tt (with_inode ip (set_i_lock (SleepLock false 0) x) k).
Proof.
  intros Hx Hlk Hr. unfold iunlock. assert (Hh : zoom ic_l (holdingsleep (inode_lock ip)) k = Ret true k).
  { erewrite zoom_Ret.
    2:{ unfold holdingsleep, inode_lock. cbn. unfold cached in Hx. rewrite Hx. cbn. rewrite Hlk. cbn. by rewrite Z.eqb_refl. }
    by destruct k. }
  kstep Hh. kstep (inode_of_run k ip x Hx). destruct (Z.ltb_spec (i_ref x) 1); [lia|]. cbn [negb orb].
  by rewrite (release_inode k ip x Hx).
Qed.

End inodeops.
