(* ===== verification/FileIO.v ===== *)
(** * FileIO: [readi] and [writei] of fs.c

    The bytes of a file, as its blocks give them; reading returns them and
    writing changes exactly those written.  [write_read] is the round trip. *)

From Stdlib Require Import ZArith Lia.
From stdpp Require Import base numbers strings gmap list.
From S2P Require Import Prelude CString Kernel Sleeplock Bio Log Store Commit Crash Txn MntTable Fs Dinode Bitmap FileData.
Open Scope Z_scope.

Section fileio.
Context {CP : CurProc} {LO : LoopOps} {DS : DevSw}.

(** ** The bytes of a file *)

Definition fbyte (D : list (list Z)) (x : inode) (i : Z) : Z :=
  fblock D x (i / BSIZE) !!! Z.to_nat (i mod BSIZE).
Definition fread (D : list (list Z)) (x : inode) (off n : Z) : list Z := fbyte D x <$> seqZ off n.

Lemma fread_length D x off n : length (fread D x off n) = Z.to_nat n.
Proof. unfold fread. by rewrite length_fmap, length_seqZ. Qed.

Lemma fread_app D x off n m : 0 ≤ n → 0 ≤ m → fread D x off (n + m) = fread D x off n ++ fread D x (off + n) m.
Proof. intros. unfold fread. rewrite seqZ_app by lia. by rewrite fmap_app. Qed.

Lemma fread_lookup D x off n (i : nat) : Z.of_nat i < n → fread D x off n !! i = Some (fbyte D x (off + Z.of_nat i)).
Proof. intros Hi. unfold fread. rewrite list_lookup_fmap, lookup_seqZ_lt by lia. done. Qed.

Lemma fread_ext D x D' x' off n :
  (∀ i, off ≤ i < off + n → fbyte D' x' i = fbyte D x i) → fread D' x' off n = fread D x off n.
Proof.
  intros H. apply list_fmap_ext. intros i j Hj. apply lookup_seqZ in Hj as [-> Hj]. apply H. lia.
Qed.

(** The bytes within one block. *)
Lemma fread_block D x off m :
  length (fblock D x (off / BSIZE)) = Z.to_nat BSIZE → 0 ≤ off → 0 ≤ m → off mod BSIZE + m ≤ BSIZE →
  fread D x off m = take (Z.to_nat m) (drop (Z.to_nat (off mod BSIZE)) (fblock D x (off / BSIZE))).
Proof.
  intros Hl Ho Hm Hr. apply list_eq. intros i. assert (0 < BSIZE) as HB by done.
  pose proof (Z.mod_pos_bound off BSIZE HB). rewrite lookup_take, lookup_drop. case_decide as Hi.
  - rewrite fread_lookup by lia. unfold fbyte.
    assert ((off + Z.of_nat i) / BSIZE = off / BSIZE) as ->.
    { symmetry. apply (Z.div_unique _ _ _ (off mod BSIZE + Z.of_nat i)); [lia|].
      pose proof (Z.div_mod off BSIZE). lia. }
    assert ((off + Z.of_nat i) mod BSIZE = off mod BSIZE + Z.of_nat i) as ->.
    { symmetry. apply (Z.mod_unique _ _ (off / BSIZE)); [lia|]. pose proof (Z.div_mod off BSIZE). lia. }
    rewrite list_lookup_lookup_total_lt by lia. f_equal. f_equal. lia.
  - apply lookup_ge_None. rewrite fread_length. lia.
Qed.

(** No block of the disk is held. *)
Definition no_root (H : gmap nat held) : Prop := ∀ b h, H !! b = Some h → h.1.1 ≠ ROOTDEV.

Lemma no_root_not_held H bno : no_root H → not_held H ROOTDEV bno.
Proof. intros Hn b h Hh E. apply (Hn b h Hh). by rewrite E. Qed.

Lemma cframe_sub k k' : cframe k k' → k_disk k' = k_disk k ∧ k_ic k' = k_ic k ∧ k_sb k' = k_sb k ∧ k_log k' = k_log k.
Proof. intros [E _]. by rewrite E. Qed.

Lemma cframe_cached ip x k k' : cframe k k' → cached ip x k → cached ip x k'.
Proof. intros F. unfold cached. by destruct (cframe_sub _ _ F) as (_ & -> & _). Qed.

Lemma good_in_disk k D a : good_block k D a → in_disk k a.
Proof. intros G. apply (gb_data _ _ _ G). Qed.

(** [bmap] of a block the file has. *)
Lemma bmap_found_wp ip k D H x bn :
  cached ip x k → store k D H → no_root H → file_ok k D x → 0 ≤ bn < MAXFILE → faddr D x bn ≠ 0 →
  wp (bmap ip bn) full_panics (λ a k', a = faddr D x bn ∧ cframe k k' ∧ store k' D H) k.
Proof.
  intros Hc Hs Hn Hf Hbn Hz. unfold bmap. wp_step (inode_of_run _ _ _ Hc).
  destruct (Z.ltb_spec bn NDIRECT).
  - eapply wp_bind, wp_deref; [apply addrs_lookup; [apply (fo_len _ _ _ Hf)|unfold NDIRECT in *; lia]|].
    assert (faddr D x bn = i_addrs x !!! Z.to_nat bn) as Ea.
    { unfold faddr. by rewrite (proj2 (Z.ltb_lt _ _)) by lia. }
    rewrite <-Ea, (proj2 (Z.eqb_neq _ _)) by done. by apply wp_ret.
  - rewrite (proj2 (Z.ltb_lt _ _)) by (unfold MAXFILE in *; lia).
    eapply wp_bind, wp_deref; [apply addrs_lookup; [apply (fo_len _ _ _ Hf)|unfold NDIRECT; lia]|].
    fold (ind_addr x). assert (faddr D x bn = if ind_addr x =? 0 then 0
      else word (blk D (ind_addr x)) (Z.to_nat (bn - NDIRECT))) as Ea.
    { unfold faddr. by rewrite (proj2 (Z.ltb_ge _ _)) by lia. }
    destruct (Z.eqb_spec (ind_addr x) 0) as [|Hi]; [done|]. apply wp_bind, wp_ret.
    rewrite (fo_dev _ _ _ Hf). pose proof (good_in_disk _ _ _ (fo_ind _ _ _ Hf Hi)) as Hin.
    apply wp_bind. eapply wp_mono; [apply (bread_store k D H _ (blk D (ind_addr x))); try done|].
    { by apply no_root_not_held. } { by apply (blk_Some _ _ _ _ Hs). }
    intros b k1 (F1 & C1 & Hb & S1).
    wp_step (bdata_store _ _ _ b _ _ _ S1 (lookup_insert_eq _ _ _)).
    rewrite <-Ea, (proj2 (Z.eqb_neq _ _)) by done. apply wp_bind, wp_ret.
    destruct (brelse_store _ _ _ b _ _ _ S1 (lookup_insert_eq _ _ _)) as (k2 & E2 & F2 & C2 & S2).
    { intros _. by apply (blk_Some _ _ _ _ Hs). }
    wp_step E2. apply wp_ret. rewrite delete_insert_id in S2 by done.
    split; [done|]. split; [|done]. transitivity k1; by split.
Qed.

Lemma store_block_length k D H a : store k D H → in_disk k a → length (blk D a) = Z.to_nat BSIZE.
Proof. intros Hs Hin. destruct (in_disk_lookup _ _ _ _ Hs Hin) as (d & Hd & ?). unfold blk. by rewrite Hd. Qed.

Lemma fblock_length k D H x bn :
  store k D H → file_ok k D x → 0 ≤ bn < MAXFILE → length (fblock D x bn) = Z.to_nat BSIZE.
Proof.
  intros Hs Hf Hbn. unfold fblock. destruct (Z.eqb_spec (faddr D x bn) 0) as [|Hz]; [apply length_replicate|].
  eapply store_block_length; [done|]. by eapply good_in_disk, fo_good.
Qed.

Lemma fblock_alloc D x bn : faddr D x bn ≠ 0 → fblock D x bn = blk D (faddr D x bn).
Proof. intros Hz. unfold fblock. by rewrite (proj2 (Z.eqb_neq _ _)). Qed.

Lemma cframe_file_ok k k' D x : cframe k k' → file_ok k D x → file_ok k' D x.
Proof. intros F. apply kframe_file_ok. by apply cframe_kframe. Qed.

(** ** Reading *)

(** The bytes [off .. off + n) lie in blocks the file has. *)
Definition allocated_range (D : list (list Z)) (x : inode) (off n : Z) : Prop :=
  ∀ i, off ≤ i < off + n → faddr D x (i / BSIZE) ≠ 0.

(** One round: the arithmetic of block boundaries. *)
Lemma round_arith off r :
  0 ≤ off → 0 < r → let m := Z.min r (BSIZE - off mod BSIZE) in
  0 < m ≤ r ∧ off mod BSIZE + m ≤ BSIZE ∧
  off / BSIZE ≤ (off + m) / BSIZE ∧ off / BSIZE * BSIZE ≤ off ∧
  (m < r → (off + m) mod BSIZE = 0) ∧ (∀ fuel, off mod BSIZE + r ≤ (fuel + 1) * BSIZE → 0 ≤ fuel →
     (off + m) mod BSIZE + (r - m) ≤ fuel * BSIZE ∨ r = m).
Proof.
  intros Ho Hr m. assert (0 < BSIZE) as HB by done. pose proof (Z.mod_pos_bound off BSIZE HB) as Hm.
  pose proof (Z.div_mod off BSIZE) as Hd. assert (m < r → (off + m) mod BSIZE = 0) as H0.
  { intros Hlt. assert (off + m = (off / BSIZE + 1) * BSIZE) as -> by lia. apply Z_mod_mult. }
  assert (off / BSIZE ≤ (off + m) / BSIZE) by (apply Z.div_le_mono; lia).
  split_and!; try lia.
Qed.

Lemma readi_loop_wp fuel ip k D H x tot off n :
  cached ip x k → store k D H → no_root H → file_ok k D x → 0 ≤ off → tot ≤ n →
  off + (n - tot) ≤ MAXFILE * BSIZE → allocated_range D x off (n - tot) →
  (tot < n → off mod BSIZE + (n - tot) ≤ Z.of_nat fuel * BSIZE) →
  wp (readi_loop fuel ip tot off n) full_panics
    (λ bytes k', bytes = fread D x off (n - tot) ∧ cframe k k' ∧ store k' D H) k.
Proof.
  revert k tot off. induction fuel as [|fuel IH]; intros k tot off Hc Hs Hn Hf Ho Ht Hmax Hal Hfuel;
    cbn [readi_loop]; (destruct (Z.ltb_spec tot n) as [Hlt|];
    [|apply wp_ret; replace (n - tot) with 0 by lia; done]).
  { specialize (Hfuel Hlt). pose proof (Z.mod_pos_bound off BSIZE eq_refl). lia. }
  destruct (round_arith off (n - tot) Ho ltac:(lia)) as (A1 & A2 & A3 & A4 & A5 & A6).
  set (m := Z.min (n - tot) (BSIZE - off mod BSIZE)) in *.
  assert (0 ≤ off / BSIZE < MAXFILE) as Hbn.
  { split; [apply Z.div_pos; unfold BSIZE; lia|]. apply Z.div_lt_upper_bound; unfold BSIZE in *; lia. }
  assert (faddr D x (off / BSIZE) ≠ 0) as Hz by (apply Hal; lia).
  wp_step (inode_of_run _ _ _ Hc). apply wp_bind. eapply wp_mono; [by apply (bmap_found_wp ip k D H x)|].
  intros a k1 (-> & F1 & S1). rewrite (fo_dev _ _ _ Hf).
  pose proof (cframe_file_ok _ _ _ _ F1 Hf) as Hf1.
  eapply (read_block_wp (λ d, rest ← readi_loop fuel ip (tot + m) (off + m) n;
    mret (take (Z.to_nat m) (drop (Z.to_nat (off mod BSIZE)) d) ++ rest))); [done|by apply no_root_not_held| |].
  { by eapply good_in_disk, fo_good. }
  intros k2 F2 S2. apply wp_bind. assert (cframe k k2) as F by (by transitivity k1).
  eapply wp_mono; [apply IH; try done; try lia|].
  - by eapply cframe_cached.
  - by eapply cframe_file_ok.
  - intros i Hi. apply Hal; lia.
  - intros rest k3 (-> & F3 & S3). apply wp_ret. split; [|split; [by transitivity k2|done]].
    replace (n - tot) with (m + (n - (tot + m))) by lia. rewrite fread_app by lia. f_equal.
    rewrite fread_block; [by rewrite fblock_alloc|by eapply (fblock_length k D H x)|lia..].
Qed.

(** An inode of a file or a directory, every block up to its size allocated. *)
Record regular (k : kernel) (D : list (list Z)) (x : inode) : Prop := {
  rg_ok : file_ok k D x;
  rg_type : i_type x ≠ T_DEV;
  rg_size : 0 ≤ i_size x ≤ MAXFILE * BSIZE;
  rg_alloc : allocated_range D x 0 (i_size x);
}.

Lemma readi_wp ip k D H x off n :
  cached ip x k → store k D H → no_root H → regular k D x → 0 ≤ off < 2 ^ 32 → 0 ≤ n < 2 ^ 32 →
  wp (readi ip off n) full_panics (λ r k', cframe k k' ∧ store k' D H ∧
    r = if (i_size x <? off) || (2 ^ 32 <=? off + n) then (-1, [])
        else let m := Z.min n (i_size x - off) in (m, fread D x off m)) k.
Proof.
  intros Hc Hs Hn [Hf Ht Hz Ha] Ho Hnn. unfold readi. wp_step (inode_of_run _ _ _ Hc).
  rewrite (proj2 (Z.eqb_neq _ _)) by done.
  assert (u32 (off + n) = if 2 ^ 32 <=? off + n then off + n - 2 ^ 32 else off + n) as Eu.
  { destruct (Z.leb_spec (2 ^ 32) (off + n)); [|apply u32_small; lia].
    unfold u32. symmetry. apply (Z.mod_unique _ _ 1); lia. }
  rewrite Eu. destruct (Z.ltb_spec (i_size x) off); cbn [orb]; [by apply wp_ret|].
  destruct (Z.leb_spec (2 ^ 32) (off + n)) as [Hov|Hov].
  { rewrite (proj2 (Z.ltb_lt _ _)) by lia. by apply wp_ret. }
  rewrite (proj2 (Z.ltb_ge _ _)) by lia.
  assert ((if i_size x <? off + n then i_size x - off else n) = Z.min n (i_size x - off)) as ->.
  { destruct (Z.ltb_spec (i_size x) (off + n)); lia. }
  set (m := Z.min n (i_size x - off)). change (MAXFILE * BSIZE) with 71680 in Hz.
  apply wp_bind. eapply wp_mono; [apply (readi_loop_wp _ ip k D H x 0 off m); try done; try lia|].
  - change (MAXFILE * BSIZE) with 71680. lia.
  - intros i Hi. apply Ha. lia.
  - intros _. pose proof (Z.mod_pos_bound off BSIZE eq_refl). pose proof (Z.div_mod m BSIZE).
    pose proof (Z.mod_pos_bound m BSIZE eq_refl).
    assert (0 ≤ m / BSIZE) by (apply Z.div_pos; unfold BSIZE; lia). unfold BSIZE in *. lia.
  - intros bytes k' (-> & F & S). apply wp_ret. rewrite Z.sub_0_r, s32_small by lia. done.
Qed.

(** ** Writing *)

(** The bytes [src] went to offset [off] of the file, which got the blocks it
    needed; the rest of the file and every other file is as it was. *)
Record wrote (ip : nat) (k : kernel) (D : list (list Z)) (x : inode) (off : Z) (src : list Z)
    (k' : kernel) (D' : list (list Z)) (x' : inode) : Prop := {
  wr_frame : kframe (with_inode ip x' k) k';
  wr_tx : tx k' D' ∅;
  wr_map : map_ok k' D';
  wr_file : file_ok k' D' x';
  wr_inode : x' = set_i_addrs (i_addrs x') x;
  wr_bytes : ∀ i, 0 ≤ i < MAXFILE * BSIZE → fbyte D' x' i =
    if (off <=? i) && (i <? off + Z.of_nat (length src)) then src !!! Z.to_nat (i - off) else fbyte D x i;
  wr_keep : ∀ m, 0 ≤ m < MAXFILE → faddr D x m ≠ 0 → faddr D' x' m ≠ 0;
  wr_alloc : allocated_range D' x' off (Z.of_nat (length src));
  wr_other : ∀ c, good_block k D c → c ≠ ind_addr x → (∀ m, 0 ≤ m < MAXFILE → faddr D x m ≠ c) →
    blk D' c = blk D c ∧ c ≠ ind_addr x' ∧ ∀ m, 0 ≤ m < MAXFILE → faddr D' x' m ≠ c;
  wr_good : ∀ c, good_block k D c → good_block k' D' c;
  wr_same : allocated_range D x off (Z.of_nat (length src)) → x' = x;
}.

Lemma wrote_nil ip k D x off :
  cached ip x k → tx k D ∅ → map_ok k D → file_ok k D x → wrote ip k D x off [] k D x.
Proof.
  intros Hc Ht Hm Hf. split; try done.
  - by rewrite with_inode_same.
  - by destruct x.
  - intros i Hi. cbn. destruct (Z.leb_spec off i), (Z.ltb_spec i (off + Z.of_nat 0)); try lia; done.
  - intros i Hi. cbn in Hi. lia.
Qed.

Lemma wrote_app ip k1 D1 x1 off s1 k2 D2 x2 s2 k3 D3 x3 :
  0 ≤ off → cached ip x1 k1 → wrote ip k1 D1 x1 off s1 k2 D2 x2 →
  wrote ip k2 D2 x2 (off + Z.of_nat (length s1)) s2 k3 D3 x3 →
  off + Z.of_nat (length s1) + Z.of_nat (length s2) ≤ MAXFILE * BSIZE →
  wrote ip k1 D1 x1 off (s1 ++ s2) k3 D3 x3.
Proof.
  intros Hoff Hc [A1 A2 A3 A4 A5 A6 A7 A8 A9 A10 A11] [B1 B2 B3 B4 B5 B6 B7 B8 B9 B10 B11] Hmax. split; try done.
  - transitivity (with_inode ip x3 k2); [|done].
    rewrite <-(with_inode_twice ip x3 x2 k1). by apply kframe_with_inode.
  - rewrite B5, A5. by destruct x1.
  - intros i Hi. rewrite B6, A6 by done. rewrite length_app.
    destruct (Z.leb_spec off i), (Z.leb_spec (off + Z.of_nat (length s1)) i),
      (Z.ltb_spec i (off + Z.of_nat (length s1))),
      (Z.ltb_spec i (off + Z.of_nat (length s1) + Z.of_nat (length s2))),
      (Z.ltb_spec i (off + Z.of_nat (length s1 + length s2))); cbn; try lia; try done.
    + rewrite lookup_total_app_r by lia. f_equal. lia.
    + by rewrite lookup_total_app_l by lia.
  - intros m Hm Hz. auto.
  - intros i Hi. rewrite length_app in Hi. destruct (decide (i < off + Z.of_nat (length s1))).
    + apply B7; [|apply A8; lia]. split; [apply Z.div_pos; unfold BSIZE; lia|].
      apply Z.div_lt_upper_bound; unfold BSIZE in *; lia.
    + apply B8. lia.
  - intros c Hg Hi Ho. destruct (A9 c Hg Hi Ho) as (E1 & I1 & O1).
    destruct (B9 c (A10 c Hg) I1 O1) as (E2 & I2 & O2). split; [congruence|done].
  - auto.
  - intros Hal. rewrite length_app in Hal. assert (x2 = x1) as E by (apply A11; intros i Hi; apply Hal; lia).
    rewrite <-E. apply B11. intros i Hi. rewrite E in *. apply A7; [|apply Hal; lia].
    split; [apply Z.div_pos; unfold BSIZE; lia|]. apply Z.div_lt_upper_bound; unfold BSIZE in *; lia.
Qed.

Lemma lookup_total_inserts (d s : list Z) (o i : nat) :
  (o + length s ≤ length d)%nat →
  list_inserts o s d !!! i = if (o <=? i)%nat && (i <? o + length s)%nat then s !!! (i - o)%nat else d !!! i.
Proof.
  intros Hl. rewrite !list_lookup_total_alt.
  destruct (Nat.leb_spec o i), (Nat.ltb_spec i (o + length s)); cbn.
  - by rewrite list_lookup_inserts by lia.
  - by rewrite list_lookup_inserts_ge by lia.
  - by rewrite list_lookup_inserts_lt by lia.
  - by rewrite list_lookup_inserts_lt by lia.
Qed.

(** The bytes after one block changed. *)
Lemma fbyte_block D x D' x' off s i :
  0 ≤ off → 0 ≤ i < MAXFILE * BSIZE → off mod BSIZE + Z.of_nat (length s) ≤ BSIZE →
  length (fblock D x (off / BSIZE)) = Z.to_nat BSIZE →
  fblock D' x' (off / BSIZE) = list_inserts (Z.to_nat (off mod BSIZE)) s (fblock D x (off / BSIZE)) →
  (∀ m, 0 ≤ m < MAXFILE → m ≠ off / BSIZE → fblock D' x' m = fblock D x m) →
  fbyte D' x' i =
    if (off <=? i) && (i <? off + Z.of_nat (length s)) then s !!! Z.to_nat (i - off) else fbyte D x i.
Proof.
  intros Ho Hi Hm Hl Eb Eo. unfold fbyte. assert (0 < BSIZE) as HB by done.
  pose proof (Z.mod_pos_bound off BSIZE HB). pose proof (Z.mod_pos_bound i BSIZE HB).
  pose proof (Z.div_mod off BSIZE). pose proof (Z.div_mod i BSIZE).
  destruct (decide (i / BSIZE = off / BSIZE)) as [E|E].
  - rewrite E, Eb, lookup_total_inserts by (rewrite Hl; unfold BSIZE in *; lia).
    rewrite E in *.
    destruct (Z.leb_spec off i), (Z.ltb_spec i (off + Z.of_nat (length s))),
      (Nat.leb_spec (Z.to_nat (off mod BSIZE)) (Z.to_nat (i mod BSIZE))),
      (Nat.ltb_spec (Z.to_nat (i mod BSIZE)) (Z.to_nat (off mod BSIZE) + length s)); cbn; try lia; try done.
    f_equal. lia.
  - rewrite Eo; [|split; [apply Z.div_pos; lia|apply Z.div_lt_upper_bound; lia]|done].
    destruct (Z.leb_spec off i), (Z.ltb_spec i (off + Z.of_nat (length s))); cbn; try done. exfalso. apply E.
    symmetry. apply (Z.div_unique _ _ _ (i - BSIZE * (off / BSIZE))); [|lia]. left. nia.
Qed.

Lemma write_round_wp {A} (rest : K kernel A) Q ip k D x off s :
  cached ip x k → tx k D ∅ → map_ok k D → file_ok k D x → 0 ≤ off → 0 < Z.of_nat (length s) →
  off mod BSIZE + Z.of_nat (length s) ≤ BSIZE → off + Z.of_nat (length s) ≤ MAXFILE * BSIZE →
  (∀ k' D' x', wrote ip k D x off s k' D' x' → wp rest fs_panics Q k') →
  wp (a ← bmap ip (off / BSIZE); bp ← bread ROOTDEV a; d ← bdata bp;
      set_bdata bp (list_inserts (Z.to_nat (off mod BSIZE)) s d);; log_write bp;; brelse_k bp;; rest)
    fs_panics Q k.
Proof.
  intros Hc Ht Hm Hf Ho Hs Hmod Hmax Hrest. assert (0 < BSIZE) as HB by done.
  assert (0 ≤ off / BSIZE < MAXFILE) as Hbn.
  { split; [apply Z.div_pos; lia|]. apply Z.div_lt_upper_bound; lia. }
  apply wp_bind. eapply wp_mono; [by apply bmap_wp|]. intros a k1 (D1 & x1 & G & Ea & Hz & Hsame).
  destruct G as [G1 G2 G3 G4 G5 G6 G7 G8 G10 G9]. rewrite <-Ea in Hz.
  pose proof (fo_good _ _ _ G4 _ Hbn Hz) as Hg. pose proof (gb_data _ _ _ Hg) as Hdb. rewrite Ea in *.
  assert (full_panics ⊆ fs_panics) as HE by (unfold fs_panics; set_solver).
  pose proof (store_block_length _ _ _ _ (tx_store _ _ _ G2) (proj1 Hdb)) as Hlen.
  apply wp_bind, (wp_weaken _ full_panics); [done|].
  eapply wp_mono; [eapply (bread_tx k1 D1 ∅); [done|done|apply Hdb|]|].
  { apply (blk_Some _ _ _ _ (tx_store _ _ _ G2)), Hdb. }
  intros bp k2 (F2 & _ & T2).
  wp_step (bdata_store _ _ _ bp _ _ _ (tx_store _ _ _ T2) (lookup_insert_eq _ _ _)).
  eapply finish_block_bind; [done|done|done|by eapply kframe_data_block|by rewrite length_inserts|].
  intros k3 F3 T3. set (d := list_inserts _ _ _) in *.
  assert (kframe k1 k3) as F by (by transitivity k2).
  rewrite <-Ea in Hz, T3, Hg. destruct (file_insert k1 D1 x1 (off / BSIZE) d) as (N1 & N2 & N3 & N4); try done.
  { apply (st_len _ _ _ (tx_store _ _ _ G2)). }
  eapply (Hrest _ _ x1). split; [by transitivity k1|exact T3| | |done|..].
  - eapply kframe_map_ok; [done|]. by apply map_ok_insert.
  - by eapply kframe_file_ok.
  - intros i Hi.
    assert (fbyte D x i = fbyte D1 x1 i) as ->.
    { unfold fbyte. rewrite G6; [done|]. split; [apply Z.div_pos; lia|apply Z.div_lt_upper_bound; lia]. }
    apply fbyte_block; try done; [|by rewrite N3, fblock_alloc, Ea].
    eapply (fblock_length k1 D1 ∅); [apply G2|done|done].
  - intros m Hm' Hmz. rewrite N2, G7; done.
  - intros i Hi. rewrite N2. replace (i / BSIZE) with (off / BSIZE); [done|].
    apply (Z.div_unique _ _ _ (i - BSIZE * (off / BSIZE))); [|lia]. left.
    pose proof (Z.div_mod off BSIZE). pose proof (Z.mod_pos_bound off BSIZE HB). lia.
  - intros c Hgc Hi Hown. destruct (G8 c Hgc Hi) as [E1 E2]. specialize (G10 c Hgc Hown).
    split; [|split; [done|intros m Hm'; rewrite N2; by apply G10]].
    rewrite <-E1. pose proof (gb_range _ _ _ Hg). pose proof (gb_range _ _ _ Hgc).
    apply blk_insert_ne; [lia..|]. by apply G10.
  - intros c Hgc. eapply kframe_good; [done|]. apply good_insert; [done|by apply G9].
  - intros Hal. apply Hsame. apply Hal. lia.
Qed.

Lemma writei_loop_wp fuel ip k D x src tot off n :
  cached ip x k → tx k D ∅ → map_ok k D → file_ok k D x → 0 ≤ off → tot ≤ n →
  Z.of_nat (length src) = n - tot → off + (n - tot) ≤ MAXFILE * BSIZE →
  (tot < n → off mod BSIZE + (n - tot) ≤ Z.of_nat fuel * BSIZE) →
  wp (writei_loop fuel ip src tot off n) fs_panics
    (λ r k', r = off + (n - tot) ∧ ∃ D' x', wrote ip k D x off src k' D' x') k.
Proof.
  revert k D x src tot off. induction fuel as [|fuel IH]; intros k D x src tot off Hc Ht Hm Hf Ho Htn Hl Hmax Hfuel;
    cbn [writei_loop]; (destruct (Z.ltb_spec tot n) as [Hlt|Hge];
    [|apply wp_ret; split; [lia|]; exists D, x; destruct src; [by apply wrote_nil|cbn in Hl; lia]]).
  { specialize (Hfuel Hlt). pose proof (Z.mod_pos_bound off BSIZE eq_refl). lia. }
  destruct (round_arith off (n - tot) Ho ltac:(lia)) as (A1 & A2 & _ & _ & _ & A6).
  set (m := Z.min (n - tot) (BSIZE - off mod BSIZE)) in *.
  wp_step (inode_of_run _ _ _ Hc). rewrite (fo_dev _ _ _ Hf).
  assert (Z.of_nat (length (take (Z.to_nat m) src)) = m) as Hlm by (rewrite length_take; lia).
  apply (write_round_wp _ _ ip k D x off (take (Z.to_nat m) src)); try done; rewrite ?Hlm; try lia.
  intros k1 D1 x1 W.
  assert (cached ip x1 k1) as Hc1 by (eapply kframe_cached; [apply W|by eapply cached_with]).
  pose proof (wr_tx _ _ _ _ _ _ _ _ _ W) as T1. pose proof (wr_map _ _ _ _ _ _ _ _ _ W) as M1.
  pose proof (wr_file _ _ _ _ _ _ _ _ _ W) as O1.
  eapply wp_mono; [apply (IH k1 D1 x1); try done; try lia|].
  - rewrite length_drop. lia.
  - intros Hlt'. specialize (Hfuel Hlt). destruct (A6 (Z.of_nat fuel) ltac:(lia) ltac:(lia)); lia.
  - intros r k2 (-> & D2 & x2 & W2). split; [lia|]. exists D2, x2.
    rewrite <-(take_drop (Z.to_nat m) src). eapply wrote_app; try done; rewrite ?Hlm; [done|].
    rewrite length_drop. lia.
Qed.

(** ** The inode on the disk *)

Definition iblock (k : kernel) (x : inode) : Z := IBLOCK (i_inum x) (k_sb k).

(** The inode's block is no block of the file, and holds the inode. *)
Record inode_ok (k : kernel) (D : list (list Z)) (x : inode) : Prop := {
  io_good : good_block k D (iblock k x);
  io_own : ∀ m, 0 ≤ m < MAXFILE → faddr D x m ≠ iblock k x;
  io_ind : ind_addr x ≠ iblock k x;
  io_wf : dinode_wf (dinode_of x);
  io_sync : get_dinode (blk D (iblock k x)) (i_inum x) = dinode_of x;
}.

Lemma iupdate_wp ip k D x :
  cached ip x k → tx k D ∅ → i_dev x = ROOTDEV → good_block k D (iblock k x) →
  wp (iupdate ip) full_panics (λ _ k', kframe k k' ∧
    tx k' (<[Z.to_nat (iblock k x):=put_dinode (blk D (iblock k x)) (i_inum x) (dinode_of x)]> D) ∅) k.
Proof.
  intros Hc Ht Hd Hg. unfold iupdate. wp_step (inode_of_run _ _ _ Hc). apply wp_bind, wp_gets. rewrite Hd.
  fold (iblock k x). pose proof (gb_data _ _ _ Hg) as Hdb.
  eapply (with_block_tx _ _ k D ∅); [done|done|apply Hdb|]. intros bp k1 F1 _ Hlen T1.
  wp_step (bdata_store _ _ _ bp _ _ _ (tx_store _ _ _ T1) (lookup_insert_eq _ _ _)).
  eapply wp_mono; [eapply finish_block_tx; [done|done|by eapply kframe_data_block|]|].
  { by rewrite <-Hlen; apply length_inserts. }
  intros [] k2 [F2 T2]. split; [by transitivity k1|done].
Qed.

(** A block that is not the file's does not matter to it. *)
Lemma file_other k D x c d :
  file_ok k D x → good_block k D c → c ≠ ind_addr x → (∀ m, 0 ≤ m < MAXFILE → faddr D x m ≠ c) →
  let D' := <[Z.to_nat c:=d]> D in
  file_ok k D' x ∧ (∀ m, faddr D' x m = faddr D x m) ∧
  (∀ m, 0 ≤ m < MAXFILE → fblock D' x m = fblock D x m).
Proof.
  intros Hf Hg Hi Ho D'. pose proof (gb_range _ _ _ Hg) as Hr.
  assert (∀ m, faddr D' x m = faddr D x m) as E.
  { intros m. unfold faddr at 1 2. destruct (m <? NDIRECT); [done|].
    destruct (Z.eqb_spec (ind_addr x) 0) as [|Hz]; [done|]. f_equal.
    pose proof (gb_range _ _ _ (fo_ind _ _ _ Hf Hz)). apply blk_insert_ne; [lia..|done]. }
  split; [|split; [done|]].
  - destruct Hf as [O1 O2 O3 O4 O5 O6]. split; try done.
    + intros Hz. apply good_insert; [done|by apply O3].
    + intros m Hm'. rewrite E. intros H'. apply good_insert; [done|by apply O4].
    + intros m Hm'. rewrite E. by apply O5.
    + intros i j H1 H2. rewrite !E. by apply O6.
  - intros m Hm'. unfold fblock. rewrite E. destruct (Z.eqb_spec (faddr D x m) 0) as [|Hz]; [done|].
    pose proof (gb_range _ _ _ (fo_good _ _ _ Hf m Hm' Hz)). apply blk_insert_ne; [lia..|].
    apply not_eq_sym. by apply Ho.
Qed.

Lemma addrs_wf k D x : file_ok k D x → map_ok k D → Forall (λ a, 0 ≤ a < 2 ^ 32) (i_addrs x).
Proof.
  intros Hf Hm. apply Forall_lookup. intros i a Ha. pose proof (lookup_lt_Some _ _ _ Ha) as Hi.
  rewrite (fo_len _ _ _ Hf) in Hi. pose proof (mo_wrap _ _ Hm). pose proof (mo_start _ _ Hm).
  assert (i_addrs x !!! i = a) as Ea by (by apply list_lookup_total_correct).
  destruct (decide (a = 0)) as [->|Hz]; [lia|]. assert (good_block k D a) as [Hr _ _ _]; [|lia].
  destruct (decide (i = 12%nat)) as [->|].
  - assert (ind_addr x = a) as <- by done. by apply (fo_ind _ _ _ Hf).
  - assert (faddr D x (Z.of_nat i) = a) as <-.
    { unfold faddr, NDIRECT. rewrite (proj2 (Z.ltb_lt _ _)) by lia. by rewrite Nat2Z.id. }
    apply (fo_good _ _ _ Hf); [change MAXFILE with 140; lia|done].
Qed.

(** What a write of [src] at [off] leaves. *)
Record written (ip : nat) (k : kernel) (D : list (list Z)) (x : inode) (off : Z) (src : list Z)
    (k' : kernel) (D' : list (list Z)) (x' : inode) : Prop := {
  wn_cached : cached ip x' k';
  wn_frame : kframe (with_inode ip x' k) k';
  wn_tx : tx k' D' ∅;
  wn_map : map_ok k' D';
  wn_regular : regular k' D' x';
  wn_inode : inode_ok k' D' x';
  wn_fields : x' = set_i_size (i_size x') (set_i_addrs (i_addrs x') x);
  wn_size : i_size x' = Z.max (i_size x) (if decide (src = []) then 0 else off + Z.of_nat (length src));
  wn_bytes : ∀ i, 0 ≤ i < MAXFILE * BSIZE → fbyte D' x' i =
    if (off <=? i) && (i <? off + Z.of_nat (length src)) then src !!! Z.to_nat (i - off) else fbyte D x i;
  wn_other : ∀ c, good_block k D c → c ≠ iblock k x → c ≠ ind_addr x →
    (∀ m, 0 ≤ m < MAXFILE → faddr D x m ≠ c) → blk D' c = blk D c;
}.

(** The addresses decide the blocks. *)
Lemma faddr_ext D x x' n : i_addrs x' = i_addrs x → faddr D x' n = faddr D x n.
Proof. intros E. unfold faddr, ind_addr. by rewrite E. Qed.
Lemma fbyte_ext D x x' i : i_addrs x' = i_addrs x → fbyte D x' i = fbyte D x i.
Proof. intros E. unfold fbyte, fblock. by rewrite (faddr_ext D x x' _ E). Qed.
Lemma file_ok_ext k D x x' : i_addrs x' = i_addrs x → i_dev x' = i_dev x → file_ok k D x → file_ok k D x'.
Proof.
  intros E1 E2 [O1 O2 O3 O4 O5 O6].
  assert (ind_addr x' = ind_addr x) as E3 by (unfold ind_addr; by rewrite E1).
  pose proof (λ n, faddr_ext D x x' n E1) as E. split; rewrite ?E3; try congruence; try done.
  - intros n Hn. rewrite E. auto.
  - intros n Hn. rewrite E. auto.
  - intros n m Hn Hm. rewrite !E. auto.
Qed.

(** The inode's block after a write to the file. *)
Lemma wrote_iblock ip k D x off src k' D' x' :
  wrote ip k D x off src k' D' x' → inode_ok k D x →
  iblock k' x' = iblock k x ∧ good_block k' D' (iblock k x) ∧
  (∀ m, 0 ≤ m < MAXFILE → faddr D' x' m ≠ iblock k x) ∧ ind_addr x' ≠ iblock k x ∧
  blk D' (iblock k x) = blk D (iblock k x) ∧ i_inum x' = i_inum x.
Proof.
  intros W [I1 I2 I3 I4 I5]. destruct (wr_other _ _ _ _ _ _ _ _ _ W _ I1) as (E1 & E2 & E3); [done..|].
  pose proof (kframe_sb _ _ (wr_frame _ _ _ _ _ _ _ _ _ W)) as Esb. cbn in Esb.
  pose proof (wr_inode _ _ _ _ _ _ _ _ _ W) as Ex.
  assert (i_inum x' = i_inum x) as Ei by (by rewrite Ex).
  split_and!; try done; [unfold iblock; by rewrite Esb, Ei|by apply (wr_good _ _ _ _ _ _ _ _ _ W)].
Qed.

(** A write that stays within the file. *)
Lemma written_inside ip k D x off src k' D' :
  cached ip x k → regular k D x → inode_ok k D x → 0 ≤ off → (src = [] ∨ off + Z.of_nat (length src) ≤ i_size x) →
  wrote ip k D x off src k' D' x → written ip k D x off src k' D' x.
Proof.
  intros Hc [Hf Hty Hsz Hal] Hio Ho Hin W. destruct (wrote_iblock _ _ _ _ _ _ _ _ _ W Hio) as (B1 & B2 & B3 & B4 & B5 & _).
  destruct Hio as [I1 I2 I3 I4 I5]. destruct W as [A1 A2 A3 A4 A5 A6 A7 A8 A9 A10 A11].
  split; try done.
  - eapply kframe_cached; [done|by eapply cached_with].
  - split; try done. intros i Hi. apply A7; [|by apply Hal].
    change MAXFILE with 140 in *. unfold BSIZE in *. split; [apply Z.div_pos; lia|apply Z.div_lt_upper_bound; lia].
  - split; rewrite ?B1; try done. by rewrite B5.
  - case_decide; [lia|]. destruct Hin; [done|lia].
  - intros c Hg _ Hi Hown. by apply A9.
Qed.

Lemma with_inode_frame_size ip x1 z k k1 k3 :
  kframe (with_inode ip x1 k) k1 → kframe (with_inode ip (set_i_size z x1) k1) k3 →
  kframe (with_inode ip (set_i_size z x1) k) k3.
Proof.
  intros F1 F3. transitivity (with_inode ip (set_i_size z x1) k1); [|done].
  rewrite <-(with_inode_twice ip (set_i_size z x1) x1 k). by apply kframe_with_inode.
Qed.

(** A write that makes the file longer: the size and the inode follow. *)
Lemma written_grow ip k D x off src k1 D1 x1 k3 :
  let x2 := set_i_size (off + Z.of_nat (length src)) x1 in
  let D3 := <[Z.to_nat (iblock k x):=put_dinode (blk D1 (iblock k x)) (i_inum x) (dinode_of x2)]> D1 in
  cached ip x k → regular k D x → inode_ok k D x → 0 ≤ off ≤ i_size x → src ≠ [] →
  i_size x < off + Z.of_nat (length src) → off + Z.of_nat (length src) ≤ MAXFILE * BSIZE →
  wrote ip k D x off src k1 D1 x1 → kframe (with_inode ip x2 k1) k3 → tx k3 D3 ∅ →
  written ip k D x off src k3 D3 x2.
Proof.
  intros x2 D3 Hc [Hf Hty Hsz Hal] Hio Ho Hne Hgrow Hmax W F3 T3.
  destruct (wrote_iblock _ _ _ _ _ _ _ _ _ W Hio) as (B1 & B2 & B3 & B4 & B5 & B6).
  destruct Hio as [I1 I2 I3 I4 I5]. destruct W as [A1 A2 A3 A4 A5 A6 A7 A8 A9 A10 A11].
  assert (dinode_wf (dinode_of x2)) as Hwf.
  { destruct I4 as [W1 W2 W3 W4 W5 W6 W7]. change (MAXFILE * BSIZE) with 71680 in Hmax.
    split; cbn; [rewrite A5; exact W1|rewrite A5; exact W2|rewrite A5; exact W3|rewrite A5; exact W4|lia|
      apply (fo_len _ _ _ A4)|by apply (addrs_wf _ _ _ A4)]. }
  assert (file_ok k1 D1 x2) as A4' by (by apply (file_ok_ext _ _ x1)).
  destruct (file_other k1 D1 x2 (iblock k x) (put_dinode (blk D1 (iblock k x)) (i_inum x) (dinode_of x2)))
    as (N1 & N2 & N3); [done|done|by apply not_eq_sym|by apply B3|]. fold D3 in N1, N2, N3.
  assert (kframe (with_inode ip x2 k1) k3 → iblock k3 x2 = iblock k x) as Eib.
  { intros _. unfold iblock. rewrite (kframe_sb _ _ F3). cbn. rewrite (kframe_sb _ _ A1). cbn. by rewrite B6. }
  specialize (Eib F3). assert (in_disk k1 (iblock k x)) as Hin by (by eapply good_in_disk).
  pose proof (st_len _ _ _ (tx_store _ _ _ A2)) as Elen. unfold in_disk in Hin.
  assert (0 < BSIZE) as HB by done. split; try done.
  - eapply kframe_cached; [done|]. eapply cached_with, kframe_cached; [done|by eapply cached_with].
  - by eapply with_inode_frame_size.
  - eapply kframe_map_ok; [done|]. apply map_ok_with_inode. by apply map_ok_insert.
  - split; [| |cbn; lia|].
    + eapply kframe_file_ok; [done|]. by apply file_ok_with_inode.
    + cbn. by rewrite A5.
    + intros i Hi. rewrite N2, (faddr_ext D1 x1 x2) by done. cbn in Hi.
      destruct (decide (i < i_size x)).
      * apply A7; [|apply Hal; lia]. split; [apply Z.div_pos; lia|apply Z.div_lt_upper_bound; lia].
      * apply A8. lia.
  - split; rewrite ?Eib; try done.
    + eapply kframe_good; [done|]. apply good_with_inode. by apply good_insert.
    + intros m Hm'. rewrite N2, (faddr_ext D1 x1 x2) by done. by apply B3.
    + cbn. rewrite B6. unfold D3. rewrite blk_insert by lia. apply get_put_dinode_eq; [|done].
      eapply store_block_length; [apply A2|done].
  - unfold x2. rewrite A5. by destruct x.
  - cbn. rewrite decide_False by done. lia.
  - intros i Hi. rewrite <-A6 by done. rewrite <-(fbyte_ext D1 x1 x2) by done. unfold fbyte.
    rewrite N3; [done|]. split; [apply Z.div_pos; lia|apply Z.div_lt_upper_bound; lia].
  - intros c Hg Hib Hi Hown. destruct (A9 c Hg Hi Hown) as (E & _). rewrite <-E.
    pose proof (gb_range _ _ _ Hg). pose proof (gb_range _ _ _ I1). apply blk_insert_ne; [lia..|done].
Qed.

Lemma writei_wp ip k D x off src :
  cached ip x k → tx k D ∅ → map_ok k D → regular k D x → inode_ok k D x →
  0 ≤ off ≤ i_size x → off + Z.of_nat (length src) ≤ MAXFILE * BSIZE →
  wp (writei ip src off (Z.of_nat (length src))) fs_panics
    (λ r k', r = Z.of_nat (length src) ∧ ∃ D' x', written ip k D x off src k' D' x') k.
Proof.
  intros Hc Ht Hm Hrg Hio Ho Hmax. pose proof Hrg as [Hf Hty Hsz Hal]. set (n := Z.of_nat (length src)) in *.
  change (MAXFILE * BSIZE) with 71680 in Hsz, Hmax.
  unfold writei. wp_step (inode_of_run _ _ _ Hc). rewrite (proj2 (Z.eqb_neq _ _)) by done.
  rewrite u32_small by lia. rewrite (proj2 (Z.ltb_ge (i_size x) off)) by lia.
  rewrite (proj2 (Z.ltb_ge (off + n) off)) by lia. cbn [orb].
  change (MAXFILE * BSIZE) with 71680. rewrite (proj2 (Z.ltb_ge 71680 (off + n))) by lia.
  apply wp_bind. eapply wp_mono; [apply (writei_loop_wp _ ip k D x); try done; try lia|].
  { change (MAXFILE * BSIZE) with 71680. lia. }
  { intros _. pose proof (Z.mod_pos_bound off BSIZE eq_refl). pose proof (Z.div_mod n BSIZE).
    pose proof (Z.mod_pos_bound n BSIZE eq_refl).
    assert (0 ≤ n / BSIZE) by (apply Z.div_pos; unfold BSIZE; lia). unfold BSIZE in *. lia. }
  rewrite Z.sub_0_r. intros r k1 (-> & D1 & x1 & W).
  assert (cached ip x1 k1) as Hc1 by (eapply kframe_cached; [apply W|by eapply cached_with]).
  wp_step (inode_of_run _ _ _ Hc1). pose proof (wr_inode _ _ _ _ _ _ _ _ _ W) as Ex.
  assert (i_size x1 = i_size x) as Es by (by rewrite Ex). rewrite Es.
  destruct (Z.ltb_spec 0 n) as [Hn|Hn], (Z.ltb_spec (i_size x) (off + n)) as [Hg|Hg]; cbn [andb].
  2-4: apply wp_bind, wp_ret, wp_ret; split; [apply s32_small; lia|]; exists D1, x1;
    assert (x1 = x) as -> by (apply (wr_same _ _ _ _ _ _ _ _ _ W); intros i Hi; apply Hal; lia);
    apply written_inside; try done; try lia.
  - apply wp_bind. eapply wp_bind, wp_Ret; [by apply upd_inode_run|].
    destruct (wrote_iblock _ _ _ _ _ _ _ _ _ W Hio) as (B1 & B2 & _ & _ & _ & B6).
    set (x2 := set_i_size (off + n) x1).
    apply (wp_weaken _ full_panics); [unfold fs_panics; set_solver|].
    eapply wp_mono; [apply (iupdate_wp ip _ D1 x2)|].
    + by eapply cached_with.
    + apply tx_with_inode, W.
    + cbn. rewrite Ex. apply Hf.
    + apply good_with_inode. change (iblock (with_inode ip x2 k1) x2) with (iblock k1 x1). by rewrite B1.
    + intros [] k3 [F3 T3]. apply wp_ret. split; [apply s32_small; lia|].
      change (iblock (with_inode ip x2 k1) x2) with (iblock k1 x1) in T3. rewrite B1 in T3.
      change (i_inum x2) with (i_inum x1) in T3. rewrite B6 in T3.
      eexists _, x2. eapply written_grow; try done. intros ->. unfold n in Hn; cbn in Hn. lia.
Qed.

Lemma written_fread ip k D x off src k' D' x' :
  written ip k D x off src k' D' x' → 0 ≤ off → off + Z.of_nat (length src) ≤ MAXFILE * BSIZE →
  fread D' x' off (Z.of_nat (length src)) = src.
Proof.
  intros W Ho Hmax. apply list_eq. intros i. destruct (decide (i < length src)%nat) as [Hi|Hi].
  - rewrite fread_lookup by lia. rewrite (wn_bytes _ _ _ _ _ _ _ _ _ W) by lia.
    destruct (Z.leb_spec off (off + Z.of_nat i)); [|lia].
    destruct (Z.ltb_spec (off + Z.of_nat i) (off + Z.of_nat (length src))); [|lia]. cbn.
    rewrite list_lookup_lookup_total_lt by lia. do 2 f_equal. lia.
  - rewrite !(proj2 (lookup_ge_None _ _)); [done|lia|rewrite fread_length; lia].
Qed.

(** C11: [readi] of a file or directory fails when the offset is past the end or
    the range wraps around, and else returns the bytes of the file from the
    offset, cut at its size.  Nothing but the buffer cache changes. *)
Theorem readi_spec ip k D H x off n :
  cached ip x k → store k D H → no_root H → regular k D x → 0 ≤ off < 2 ^ 32 → 0 ≤ n < 2 ^ 32 →
  wp (readi ip off n) full_panics (λ r k', cframe k k' ∧ store k' D H ∧
    r = if (i_size x <? off) || (2 ^ 32 <=? off + n) then (-1, [])
        else let m := Z.min n (i_size x - off) in (m, fread D x off m)) k.
Proof. apply readi_wp. Qed.

(** C2: [writei] within the largest file writes every byte: the bytes at the
    offset become [src], all other bytes of the file stay, the size grows to
    the end of the write, the inode on the disk agrees with the one in
    memory, and no block of another file changes.  Blocks are allocated,
    through the indirect block too, as needed; the file system stays
    well-formed.  The write can only end in a panic when the disk, the log
    or the buffer cache is full. *)
Theorem writei_spec ip k D x off src :
  cached ip x k → tx k D ∅ → map_ok k D → regular k D x → inode_ok k D x →
  0 ≤ off ≤ i_size x → off + Z.of_nat (length src) ≤ MAXFILE * BSIZE →
  wp (writei ip src off (Z.of_nat (length src))) fs_panics
    (λ r k', r = Z.of_nat (length src) ∧ ∃ D' x', written ip k D x off src k' D' x') k.
Proof. apply writei_wp. Qed.

(** C3: what was written is read back: [readi] after [writei] at the same
    offset returns the bytes written. *)
Theorem write_read ip k D x off src :
  cached ip x k → tx k D ∅ → map_ok k D → regular k D x → inode_ok k D x →
  0 ≤ off ≤ i_size x → off + Z.of_nat (length src) ≤ MAXFILE * BSIZE →
  wp (_ ← writei ip src off (Z.of_nat (length src)); readi ip off (Z.of_nat (length src))) fs_panics
    (λ r _, r = (Z.of_nat (length src), src)) k.
Proof.
  intros Hc Ht Hm Hrg Hio Ho Hmax. apply wp_bind. eapply wp_mono; [by apply writei_wp|].
  intros r k' (_ & D' & x' & W). apply (wp_weaken _ full_panics); [unfold fs_panics; set_solver|].
  pose proof (wn_size _ _ _ _ _ _ _ _ _ W) as Es. pose proof (written_fread _ _ _ _ _ _ _ _ _ W) as Ef.
  change (MAXFILE * BSIZE) with 71680 in Hmax, Ef. pose proof (rg_size _ _ _ Hrg).
  assert (i_size x ≤ i_size x' ∧ off + Z.of_nat (length src) ≤ i_size x').
  { rewrite Es. case_decide; [subst; cbn|]; lia. }
  eapply wp_mono; [apply (readi_wp ip k' D' ∅ x'); [apply W|apply W|done|apply W|lia|lia]|].
  intros r' k2 (_ & _ & ->). rewrite (proj2 (Z.ltb_ge _ _)), (proj2 (Z.leb_gt _ _)) by lia. cbn [orb].
  rewrite Z.min_l by lia. by rewrite Ef by lia.
Qed.

End fileio.
