(* ===== verification/Directory.v ===== *)
(** * Directory: [dirlookup] and [dirlink] of fs.c

    A directory is a file of entries; as a whole it is a partial function from
    names to inode numbers, [dir_get].  [dirlookup] evaluates the function and
    [dirlink] extends it.  The inode cache enters through [iget], which returns
    the one entry of an inode. *)

From Stdlib Require Import ZArith Lia.
From stdpp Require Import base numbers strings gmap list.
From S2P Require Import Prelude CString Kernel Sleeplock Bio Log Store Commit Crash Txn MntTable Fs Dinode Bitmap FileData FileIO.
Open Scope Z_scope.

Section directory.
Context {CP : CurProc} {LO : LoopOps} {DS : DevSw}.

(** ** The inode cache *)

Definition holds (dev inum : Z) (z : inode) : Prop := 0 < i_ref z ∧ i_dev z = dev ∧ i_inum z = inum.

Lemma holds_bool dev inum z :
  (0 <? i_ref z) && (i_dev z =? dev) && (i_inum z =? inum) = true ↔ holds dev inum z.
Proof. unfold holds. rewrite !andb_true_iff, Z.ltb_lt, !Z.eqb_eq. tauto. Qed.

Lemma iget_scan_spec c i empty dev inum :
  match iget_scan c i empty dev inum with
  | (true, r) => ∃ j z, r = Some (i + j)%nat ∧ c !! j = Some z ∧ holds dev inum z
  | (false, r) => Forall (λ z, ¬ holds dev inum z) c ∧
      (r = empty ∨ ∃ j z, r = Some (i + j)%nat ∧ c !! j = Some z ∧ i_ref z = 0)
  end.
Proof.
  revert i empty. induction c as [|z c IH]; intros i empty; cbn [iget_scan]; [by split; [|left]|].
  pose proof (holds_bool dev inum z) as Hb. destruct (_ && _).
  { exists 0%nat, z. rewrite Nat.add_0_r. split_and!; [done|done|by apply Hb]. }
  specialize (IH (S i) (match empty with Some _ => empty | None => if i_ref z =? 0 then Some i else None end)).
  destruct (iget_scan c (S i) _ dev inum) as [[] r].
  - destruct IH as (j & w & -> & Hj & Hw). exists (S j), w. split_and!; [f_equal; lia|done|done].
  - destruct IH as [Hf Hr]. split; [constructor; [by intros ?%Hb|done]|].
    destruct Hr as [->|(j & w & -> & Hj & Hw)].
    + destruct empty; [by left|]. destruct (Z.eqb_spec (i_ref z) 0); [|by left].
      right. exists 0%nat, z. rewrite Nat.add_0_r. done.
    + right. exists (S j), w. split_and!; [f_equal; lia|done|done].
Qed.

(** What [iget] makes of entry [ip]: one more reference to the inode that was
    there, or a new inode, not read yet, when no entry had it. *)
Definition got (k : kernel) (dev inum : Z) (z y : inode) : Prop :=
  (holds dev inum z ∧ y = set_i_ref (i_ref z + 1) z) ∨
  (i_ref z = 0 ∧ y = set_i_valid false (set_i_ref 1 (set_i_inum inum (set_i_dev dev z))) ∧
   Forall (λ w, ¬ holds dev inum w) (ic_inode (k_ic k))).

Lemma iget_wp k dev inum E :
  ic_lock (k_ic k) = false → "iget: no inodes"%string ∈ E →
  wp (zoom ic_l (iget dev inum)) E (λ ip k', ∃ z y, cached ip z k ∧ got k dev inum z y ∧ k' = with_inode ip y k) k.
Proof.
  intros Hl HE. unfold wp, zoom, iget, acquire, release, updinode, gets, mbind, K_bind, mret, K_ret, panic. cbn. rewrite Hl. cbn.
  pose proof (iget_scan_spec (ic_inode (k_ic k)) 0 None dev inum) as Hs. unfold cached, got, with_inode.
  assert (Eic : ∀ l, set_ic_lock false (set_ic_inode l (set_ic_lock true (k_ic k))) = set_ic_inode l (k_ic k)).
  { intros l. destruct (k_ic k). cbn in *. by subst. }
  destruct (iget_scan _ 0 None dev inum) as [[] [ip|]]; cbn.
  - destruct Hs as (j & z & [= ->] & Hz & Hh). rewrite Hz. cbn. rewrite Eic. eauto 10.
  - by destruct Hs as (? & ? & [=] & _).
  - destruct Hs as [Hf [?|(j & z & [= ->] & Hz & H0)]]; [done|]. rewrite Hz. cbn. rewrite Eic. eauto 10.
  - done.
Qed.

Lemma got_inode k dev inum z y : got k dev inum z y → i_dev y = dev ∧ i_inum y = inum ∧ 0 < i_ref y.
Proof. intros [[(? & ? & ?) ->]|(? & -> & _)]; cbn; split_and!; done || lia. Qed.

(** ** The entries of a directory *)

Definition entries (D : list (list Z)) (x : inode) : list (list Z) :=
  (λ i, fread D x (DIRENT * i) DIRENT) <$> seqZ 0 (i_size x / DIRENT).

(** An entry that is in use and has the name. *)
Definition dmatch (name e : list Z) : Prop := de_inum e ≠ 0 ∧ cut DIRSIZ (de_name e) = cut DIRSIZ name.
#[global] Instance dmatch_dec name e : Decision (dmatch name e).
Proof. unfold dmatch. apply _. Defined.

Definition dir_find (D : list (list Z)) (x : inode) (name : list Z) : option (nat * list Z) :=
  list_find (dmatch name) (entries D x).
(** The directory as a partial function from names to inode numbers. *)
Definition dir_get (D : list (list Z)) (x : inode) (name : list Z) : option Z :=
  (λ p, de_inum p.2) <$> dir_find D x name.

Record dir_ok (k : kernel) (D : list (list Z)) (x : inode) : Prop := {
  do_regular : regular k D x;
  do_type : i_type x = T_DIR;
  do_size : i_size x mod DIRENT = 0;
  do_bytes i : 0 ≤ i < i_size x → is_byte (fbyte D x i);
}.

Lemma entries_lookup D x (i : nat) : 0 ≤ i_size x →
  entries D x !! i = if decide (DIRENT * Z.of_nat i + DIRENT ≤ i_size x) then Some (fread D x (DIRENT * Z.of_nat i) DIRENT) else None.
Proof.
  intros Hs. unfold entries, DIRENT in *. rewrite list_lookup_fmap. pose proof (Z.div_mod (i_size x) 16 ltac:(lia)).
  pose proof (Z.mod_pos_bound (i_size x) 16 ltac:(lia)). case_decide.
  - rewrite lookup_seqZ_lt by lia. done.
  - rewrite lookup_seqZ_ge by lia. done.
Qed.

Lemma dir_size k D x : dir_ok k D x → 0 ≤ i_size x ≤ 71680.
Proof. intros Hd. apply (rg_size _ _ _ (do_regular _ _ _ Hd)). Qed.

Lemma entry_bytes k D x i : dir_ok k D x → 0 ≤ i → DIRENT * i + DIRENT ≤ i_size x →
  Forall is_byte (fread D x (DIRENT * i) DIRENT).
Proof.
  intros Hd Hi Hs. unfold fread. apply Forall_fmap, Forall_forall. intros j Hj%elem_of_seqZ. cbn.
  apply (do_bytes _ _ _ Hd). unfold DIRENT in *. lia.
Qed.

Lemma cframe_dir k k' D x : cframe k k' → dir_ok k D x → dir_ok k' D x.
Proof.
  intros F [[R1 R2 R3 R4] H2 H3 H4]. split; [split; [by eapply cframe_file_ok|done..]|done..].
Qed.

Lemma read_dirent_wp dp k D H x i msg :
  cached dp x k → store k D H → no_root H → dir_ok k D x → 0 ≤ i → DIRENT * i + DIRENT ≤ i_size x →
  wp (read_dirent dp (DIRENT * i) msg) full_panics
    (λ e k', cframe k k' ∧ store k' D H ∧ e = fread D x (DIRENT * i) DIRENT) k.
Proof.
  intros Hc Hs Hn Hd Hi Hsz. pose proof (dir_size _ _ _ Hd). unfold read_dirent. apply wp_bind.
  unfold DIRENT in *. eapply wp_mono; [apply (readi_wp dp k D H x (16 * i) 16); [done|done|done|apply Hd|lia|lia]|].
  intros r k' (F & S & ->). rewrite (proj2 (Z.ltb_ge _ _)), (proj2 (Z.leb_gt _ _)) by lia. cbn [orb].
  rewrite Z.min_l by lia. rewrite Z.eqb_refl. cbn [negb]. by apply wp_ret.
Qed.

(** ** [dirlookup] *)

Definition looked_up (k : kernel) (D : list (list Z)) (H : gmap nat held) (x : inode) (base : nat)
    (f : option (nat * list Z)) (r : option (nat * Z)) (k' : kernel) : Prop :=
  ∃ k1, cframe k k1 ∧ store k1 D H ∧
    match f with
    | None => r = None ∧ k' = k1
    | Some (j, e) => ∃ ip z y, r = Some (ip, DIRENT * Z.of_nat (base + j)) ∧ cached ip z k ∧
        got k (i_dev x) (de_inum e) z y ∧ k' = with_inode ip y k1
    end.

Lemma looked_up_next k k1 D H x i f r k' :
  cframe k k1 →
  looked_up k1 D H x (S i) f r k' → looked_up k D H x i (prod_map S id <$> f) r k'.
Proof.
  intros F (k2 & F2 & S2 & Hf). exists k2. split; [by transitivity k1|]. split; [done|].
  destruct f as [[j d]|]; cbn; [|done]. destruct Hf as (ip & z & y & -> & Hc & Hg & ->).
  destruct (cframe_sub _ _ F) as (_ & Eic & _). exists ip, z, y. split_and!; [do 3 f_equal; lia| | |done].
  - unfold cached in *. by rewrite <- Eic.
  - unfold got in *. by rewrite <- Eic.
Qed.

Definition dir_panics : list string := "iget: no inodes"%string :: full_panics.

Lemma dirlookup_loop_wp fuel dp k D H x name (i : nat) :
  cached dp x k → store k D H → no_root H → dir_ok k D x → ic_lock (k_ic k) = false →
  readable DIRSIZ name → Forall is_byte name → i_size x ≤ DIRENT * Z.of_nat (i + fuel) →
  wp (dirlookup_loop fuel dp name (DIRENT * Z.of_nat i)) dir_panics
    (looked_up k D H x i (list_find (dmatch name) (drop i (entries D x)))) k.
Proof.
  revert k i. induction fuel as [|fuel IH]; intros k i Hc Hs Hn Hd Hl Hr Hb Hf; cbn [dirlookup_loop];
    pose proof (entries_lookup D x i (proj1 (dir_size _ _ _ Hd))) as Ei;
    pose proof (do_size _ _ _ Hd) as Hmod; pose proof (Z.div_mod (i_size x) DIRENT ltac:(done)) as Hdiv;
    wp_step (inode_of_run _ _ _ Hc); destruct (Z.ltb_spec (DIRENT * Z.of_nat i) (i_size x)) as [Hlt|Hge];
    try (unfold DIRENT in *; lia).
  1, 3: rewrite decide_False in Ei by (unfold DIRENT in *; lia); apply wp_ret; exists k; split; [done|]; split; [done|];
    by rewrite drop_ge by (by apply lookup_ge_None).
  assert (Hle : DIRENT * Z.of_nat i + DIRENT ≤ i_size x) by (unfold DIRENT in *; lia).
  rewrite decide_True in Ei by done. rewrite (drop_S _ _ _ Ei). cbn [list_find].
  apply wp_bind, (wp_weaken _ full_panics); [unfold dir_panics; set_solver|].
  eapply wp_mono; [apply (read_dirent_wp dp k D H x (Z.of_nat i)); [done..|lia|done]|].
  intros e k1 (F & S1 & ->). set (e := fread D x _ _) in *. destruct (cframe_sub _ _ F) as (_ & Eic & _).
  assert (Hnext : wp (dirlookup_loop fuel dp name (DIRENT * Z.of_nat i + DIRENT)) dir_panics
    (looked_up k D H x i (prod_map S id <$> list_find (dmatch name) (drop (S i) (entries D x)))) k1).
  { replace (DIRENT * Z.of_nat i + DIRENT) with (DIRENT * Z.of_nat (S i)) by lia.
    eapply wp_mono; [apply IH; try done|].
    - by eapply cframe_cached.
    - by eapply cframe_dir.
    - by rewrite Eic.
    - by rewrite Nat.add_succ_l, <- Nat.add_succ_r.
    - intros r k'. by eapply looked_up_next. }
  pose proof (entry_bytes _ _ _ (Z.of_nat i) Hd ltac:(lia) Hle) as He. fold e in He.
  assert (Hlen : length e = 16%nat) by (unfold e; by rewrite fread_length).
  assert (Hrq : readable DIRSIZ (de_name e)).
  { left. unfold de_name. rewrite length_drop, Hlen. done. }
  assert (Hbq : Forall is_byte (de_name e)) by (by apply Forall_drop).
  destruct (Z.eqb_spec (de_inum e) 0) as [H0|H0].
  { rewrite decide_False by (intros [? _]; done). exact Hnext. }
  destruct (strncmp_total name (de_name e) DIRSIZ Hr Hrq) as [c Ec].
  pose proof (strncmp_cut name (de_name e) DIRSIZ Hr Hrq Hb Hbq) as Hcut. rewrite Ec in Hcut.
  apply wp_bind. eapply wp_deref; [exact Ec|]. destruct (Z.eqb_spec c 0) as [->|Hc0].
  - rewrite decide_True by (split; [done|]; symmetry; by apply Hcut).
    apply wp_bind. eapply wp_mono; [apply iget_wp; [by rewrite Eic|left]|].
    intros ip k' (z & y & Hz & Hg & ->). apply wp_ret. exists k1. split; [done|]. split; [done|].
    exists ip, z, y. rewrite Nat.add_0_r. unfold cached, got in *. rewrite Eic in *. done.
  - rewrite decide_False; [exact Hnext|]. intros [_ E]. symmetry in E. apply Hcut in E. congruence.
Qed.

Lemma dirlookup_wp dp k D H x name :
  cached dp x k → store k D H → no_root H → dir_ok k D x → ic_lock (k_ic k) = false →
  readable DIRSIZ name → Forall is_byte name →
  wp (dirlookup dp name) dir_panics (looked_up k D H x 0 (dir_find D x name)) k.
Proof.
  intros Hc Hs Hn Hd Hl Hr Hb. pose proof (dir_size _ _ _ Hd). pose proof (do_size _ _ _ Hd).
  unfold dirlookup, dir_find. wp_step (inode_of_run _ _ _ Hc). rewrite (do_type _ _ _ Hd). cbn [Z.eqb negb T_DIR].
  apply (dirlookup_loop_wp _ dp k D H x name 0); try done.
  pose proof (Z.div_mod (i_size x) DIRENT ltac:(done)). pose proof (Z.div_pos (i_size x) DIRENT ltac:(lia) ltac:(done)).
  rewrite Nat.add_0_l, Z2Nat.id by lia. unfold DIRENT in *. lia.
Qed.

(** ** [dirlink] *)

(** The place of the new entry: the first one that is not in use, or the end. *)
Definition free_slot (D : list (list Z)) (x : inode) : nat :=
  match list_find (λ e, de_inum e = 0) (entries D x) with
  | Some (j, _) => j
  | None => Z.to_nat (i_size x / DIRENT)
  end.

Lemma free_dirent_wp fuel dp k D H x (i : nat) :
  cached dp x k → store k D H → no_root H → dir_ok k D x → i_size x ≤ DIRENT * Z.of_nat (i + fuel) →
  DIRENT * Z.of_nat i ≤ i_size x →
  wp (free_dirent fuel dp (DIRENT * Z.of_nat i)) full_panics (λ off k', cframe k k' ∧ store k' D H ∧
    off = match list_find (λ e, de_inum e = 0) (drop i (entries D x)) with
          | Some (j, _) => DIRENT * Z.of_nat (i + j)
          | None => i_size x
          end) k.
Proof.
  revert k i. induction fuel as [|fuel IH]; intros k i Hc Hs Hn Hd Hf Hi; cbn [free_dirent];
    pose proof (entries_lookup D x i (proj1 (dir_size _ _ _ Hd))) as Ei;
    pose proof (do_size _ _ _ Hd) as Hmod; pose proof (Z.div_mod (i_size x) DIRENT ltac:(done)) as Hdiv;
    wp_step (inode_of_run _ _ _ Hc); destruct (Z.ltb_spec (DIRENT * Z.of_nat i) (i_size x)) as [Hlt|Hge];
    try (unfold DIRENT in *; lia).
  1, 3: rewrite decide_False in Ei by (unfold DIRENT in *; lia); apply wp_ret; split; [done|]; split; [done|];
    rewrite drop_ge by (by apply lookup_ge_None); cbn; lia.
  assert (Hle : DIRENT * Z.of_nat i + DIRENT ≤ i_size x) by (unfold DIRENT in *; lia).
  rewrite decide_True in Ei by done. rewrite (drop_S _ _ _ Ei). cbn [list_find].
  apply wp_bind. eapply wp_mono; [apply (read_dirent_wp dp k D H x (Z.of_nat i)); [done..|lia|done]|].
  intros e k1 (F & S1 & ->). set (e := fread D x _ _) in *.
  destruct (Z.eqb_spec (de_inum e) 0) as [H0|H0].
  { rewrite decide_True by done. apply wp_ret. by rewrite Nat.add_0_r. }
  rewrite decide_False by done. replace (DIRENT * Z.of_nat i + DIRENT) with (DIRENT * Z.of_nat (S i)) by lia.
  eapply wp_mono; [apply IH; try done|].
  - by eapply cframe_cached.
  - by eapply cframe_dir.
  - by rewrite Nat.add_succ_l, <- Nat.add_succ_r.
  - lia.
  - intros off k' (F' & S' & ->). split; [by transitivity k1|]. split; [done|].
    destruct (list_find _ _) as [[j d]|]; cbn; [|done]. f_equal. lia.
Qed.

Lemma free_slot_spec D x :
  0 ≤ i_size x → i_size x mod DIRENT = 0 →
  DIRENT * Z.of_nat (free_slot D x) ≤ i_size x ∧ (∀ e, entries D x !! free_slot D x = Some e → de_inum e = 0) ∧
  match list_find (λ e, de_inum e = 0) (entries D x) with
  | Some (j, _) => DIRENT * Z.of_nat j
  | None => i_size x
  end = DIRENT * Z.of_nat (free_slot D x).
Proof.
  intros Hs Hm. unfold free_slot. pose proof (Z.div_mod (i_size x) DIRENT ltac:(done)).
  pose proof (Z.div_pos (i_size x) DIRENT Hs ltac:(done)).
  destruct (list_find _ _) as [[j e]|] eqn:E.
  - apply list_find_Some in E as (Hj & He & _). pose proof Hj as Hj'. rewrite entries_lookup in Hj' by done.
    case_decide; [|done]. split; [unfold DIRENT in *; lia|]. split; [|done]. intros e' He'. congruence.
  - rewrite Z2Nat.id by lia. split; [lia|]. split; [|lia]. intros e. rewrite entries_lookup by done.
    rewrite Z2Nat.id by lia. rewrite decide_False; [done|]. unfold DIRENT in *. lia.
Qed.

(** The entries after a write of one entry. *)
Lemma written_entries dp k D x j e k' D' x' :
  dir_ok k D x → written dp k D x (DIRENT * Z.of_nat j) e k' D' x' → length e = 16%nat →
  DIRENT * Z.of_nat j ≤ i_size x → DIRENT * Z.of_nat j + DIRENT ≤ MAXFILE * BSIZE →
  ∀ i, entries D' x' !! i = if decide (i = j) then Some e else entries D x !! i.
Proof.
  intros Hd W Hlen Hj Hmax i. pose proof (dir_size _ _ _ Hd). pose proof (wn_size _ _ _ _ _ _ _ _ _ W) as Es.
  rewrite decide_False in Es by (by intros ->). rewrite Hlen in Es. change (MAXFILE * BSIZE) with 71680 in Hmax.
  pose proof (do_size _ _ _ Hd) as Hmod. pose proof (Z.div_mod (i_size x) DIRENT ltac:(done)).
  rewrite !entries_lookup by lia. unfold DIRENT in *. destruct (decide (i = j)) as [->|Hne].
  - rewrite decide_True by lia. f_equal.
    rewrite <- (written_fread _ _ _ _ _ _ _ _ _ W) by (rewrite ?Hlen; change (MAXFILE * BSIZE) with 71680; lia).
    by rewrite Hlen.
  - destruct (decide (16 * Z.of_nat i + 16 ≤ i_size x)); [rewrite decide_True by lia|by rewrite decide_False by lia].
    f_equal. apply fread_ext. intros b Hb. rewrite (wn_bytes _ _ _ _ _ _ _ _ _ W) by (change (MAXFILE * BSIZE) with 71680; lia).
    rewrite Hlen. destruct (Z.leb_spec (16 * Z.of_nat j) b), (Z.ltb_spec b (16 * Z.of_nat j + Z.of_nat 16)); cbn; done || lia.
Qed.

Lemma cut_pad n t m : cut n (cut n t ++ replicate m 0) = cut n t.
Proof.
  revert t. induction n as [|n IH]; intros [|c t]; cbn; [done..| |].
  - by destruct m.
  - destruct (c =? 0) eqn:E; cbn; [by destruct m|]. by rewrite E, IH.
Qed.

(** The entry that [dirlink] writes. *)
Definition new_dirent (name : list Z) (inum : Z) : list Z :=
  le_bytes 2 (u16 inum) ++ cut DIRSIZ name ++ replicate (DIRSIZ - length (cut DIRSIZ name)) 0.

Lemma new_dirent_spec name inum :
  readable DIRSIZ name → Forall is_byte name → 0 ≤ inum < 2 ^ 16 →
  length (new_dirent name inum) = 16%nat ∧ Forall is_byte (new_dirent name inum) ∧
  de_inum (new_dirent name inum) = inum ∧ cut DIRSIZ (de_name (new_dirent name inum)) = cut DIRSIZ name ∧
  strncpy (replicate DIRSIZ 0) name DIRSIZ = Some (de_name (new_dirent name inum)).
Proof.
  intros Hr Hb Hi. assert (Hc : Forall is_byte (cut DIRSIZ name)).
  { clear -Hb. revert name Hb. induction DIRSIZ as [|n IH]; intros [|c t] Hb; cbn; try done.
    apply Forall_cons in Hb as [? ?]. destruct (c =? 0); [done|]. constructor; auto. }
  pose proof (cut_length DIRSIZ name). unfold new_dirent, de_inum, de_name. split_and!.
  - rewrite !length_app, le_bytes_length, length_replicate. unfold DIRSIZ in *. lia.
  - apply Forall_app. split; [apply le_bytes_bytes|]. apply Forall_app. split; [done|]. by apply Forall_replicate.
  - rewrite take_app_le, take_ge by (rewrite le_bytes_length; lia). rewrite le_val_bytes. unfold u16.
    rewrite Z.mod_mod by done. apply Z.mod_small. cbn. lia.
  - rewrite drop_app_ge, drop_0 by (rewrite le_bytes_length; lia). apply cut_pad.
  - rewrite drop_app_ge, drop_0 by (rewrite le_bytes_length; lia).
    rewrite strncpy_run by (done || by rewrite length_replicate). by rewrite drop_ge, app_nil_r by (by rewrite length_replicate).
Qed.

(** The directory after [dirlink]: well-formed, on the disk as in memory, with
    the new name and otherwise the same names. *)
Record linked (dp : nat) (k : kernel) (D : list (list Z)) (x : inode) (name : list Z) (inum : Z)
    (k' : kernel) (D' : list (list Z)) (x' : inode) : Prop := {
  ln_cached : cached dp x' k';
  ln_frame : kframe (with_inode dp x' k) k';
  ln_tx : tx k' D' ∅;
  ln_map : map_ok k' D';
  ln_dir : dir_ok k' D' x';
  ln_inode : inode_ok k' D' x';
  ln_get name' : dir_get D' x' name' = if decide (cut DIRSIZ name' = cut DIRSIZ name) then Some inum else dir_get D x name';
  ln_other c : good_block k D c → c ≠ iblock k x → c ≠ ind_addr x →
    (∀ m, 0 ≤ m < MAXFILE → faddr D x m ≠ c) → blk D' c = blk D c;
}.

Lemma written_linked dp k D x name inum k' D' x' :
  let j := free_slot D x in
  dir_ok k D x → readable DIRSIZ name → Forall is_byte name → 0 < inum < 2 ^ 16 → dir_get D x name = None →
  DIRENT * Z.of_nat j + DIRENT ≤ MAXFILE * BSIZE →
  written dp k D x (DIRENT * Z.of_nat j) (new_dirent name inum) k' D' x' → linked dp k D x name inum k' D' x'.
Proof.
  intros j Hd Hr Hb Hi Hnone Hmax W. pose proof (dir_size _ _ _ Hd).
  destruct (new_dirent_spec name inum Hr Hb ltac:(lia)) as (Hlen & Heb & Hei & Hen & _). set (e := new_dirent name inum) in *.
  destruct (free_slot_spec D x) as (Hj & Hfree & _); [lia|apply (do_size _ _ _ Hd)|]. fold j in Hj, Hfree.
  pose proof (written_entries dp k D x j e k' D' x' Hd W Hlen Hj Hmax) as He.
  pose proof (wn_size _ _ _ _ _ _ _ _ _ W) as Es. rewrite decide_False in Es by (by intros E; rewrite E in Hlen).
  change (MAXFILE * BSIZE) with 71680 in Hmax.
  split; try apply W.
  - split; [apply W|rewrite (wn_fields _ _ _ _ _ _ _ _ _ W); apply (do_type _ _ _ Hd)| |].
    + rewrite Es, Hlen. pose proof (do_size _ _ _ Hd). destruct (Z.max_spec (i_size x) (DIRENT * Z.of_nat j + Z.of_nat 16)) as [[_ ->]|[_ ->]]; [|done].
      unfold DIRENT. replace (16 * Z.of_nat j + Z.of_nat 16) with ((Z.of_nat j + 1) * 16) by lia. by apply Z.mod_mul.
    + intros i Hi'. rewrite (wn_bytes _ _ _ _ _ _ _ _ _ W) by (change (MAXFILE * BSIZE) with 71680; unfold DIRENT in *; lia).
      destruct (Z.leb_spec (DIRENT * Z.of_nat j) i), (Z.ltb_spec i (DIRENT * Z.of_nat j + Z.of_nat (length e))); cbn [andb];
        try (apply (do_bytes _ _ _ Hd); unfold DIRENT in *; lia).
      rewrite Forall_forall in Heb. apply Heb, list_elem_of_lookup_total_2. lia.
  - intros name'. unfold dir_get, dir_find in *.
    destruct (list_find_put (dmatch name') (entries D x) (entries D' x') j e He) as [F1 F2].
    { intros d Hd' [? _]. by apply Hfree in Hd'. }
    case_decide as Hc.
    + rewrite F2; [cbn [fmap option_fmap option_map snd]; by rewrite Hei|split; [lia|congruence]|].
      destruct (list_find (dmatch name) (entries D x)) eqn:Hf; [done|]. rewrite list_find_None in *.
      eapply Forall_impl; [exact Hf|]. unfold dmatch. intros d. by rewrite Hc.
    + rewrite F1; [done|]. intros [_ ?]. congruence.
Qed.

Lemma cframe_inode_ok k k' D x : cframe k k' → inode_ok k D x → inode_ok k' D x.
Proof.
  intros F [I1 I2 I3 I4 I5]. destruct (cframe_sub _ _ F) as (_ & _ & Esb & _). unfold iblock in *.
  split; unfold iblock; rewrite ?Esb; try done. eapply kframe_good; [by apply cframe_kframe|done].
Qed.

Lemma cframe_linked dp k k1 D x name inum k' D' x' :
  cframe k k1 → linked dp k1 D x name inum k' D' x' → linked dp k D x name inum k' D' x'.
Proof.
  intros F [L1 L2 L3 L4 L5 L6 L7 L8]. split; try done.
  - etransitivity; [|exact L2]. by apply kframe_with_inode, cframe_kframe.
  - destruct (cframe_sub _ _ F) as (_ & _ & Esb & _). unfold iblock in *. rewrite Esb in L8. intros c Hc. apply L8.
    eapply kframe_good; [by apply cframe_kframe|done].
Qed.

Lemma dirlink_wp dp k D x name inum :
  cached dp x k → tx k D ∅ → map_ok k D → dir_ok k D x → inode_ok k D x → ic_lock (k_ic k) = false →
  readable DIRSIZ name → Forall is_byte name → 0 < inum < 2 ^ 16 → i_size x < MAXFILE * BSIZE →
  dir_get D x name = None →
  wp (dirlink dp name inum) ("iget: no inodes"%string :: fs_panics)
    (λ r k', r = 0 ∧ ∃ D' x', linked dp k D x name inum k' D' x') k.
Proof.
  intros Hc Ht Hm Hd Hio Hl Hr Hb Hi Hmax Hnone. pose proof (dir_size _ _ _ Hd).
  assert (Hno : no_root ∅) by (intros b h Hbh; by rewrite lookup_empty in Hbh).
  unfold dirlink. apply wp_bind, (wp_weaken _ dir_panics); [unfold dir_panics, fs_panics; set_solver|].
  eapply wp_mono; [apply (dirlookup_wp dp k D ∅ x name); try done; apply Ht|].
  unfold dir_get in Hnone. intros r k' (k1 & F & S1 & Hf). destruct (dir_find D x name) eqn:Hfind; [done|].
  destruct Hf as [-> ->]. pose proof (cframe_cached _ _ _ _ F Hc) as Hc1. wp_step (inode_of_run _ _ _ Hc1).
  pose proof (Z.div_mod (i_size x) DIRENT ltac:(done)). pose proof (Z.mod_pos_bound (i_size x) DIRENT ltac:(done)).
  pose proof (Z.div_pos (i_size x) DIRENT ltac:(lia) ltac:(done)).
  apply wp_bind, (wp_weaken _ full_panics); [unfold fs_panics; set_solver|].
  eapply wp_mono; [apply (free_dirent_wp _ dp k1 D ∅ x 0); try done; [by eapply cframe_dir| |cbn; lia]|].
  { rewrite Nat.add_0_l, Z2Nat.id by lia. unfold DIRENT in *. lia. }
  rewrite drop_0. destruct (free_slot_spec D x) as (Hj & _ & Ej); [lia|apply (do_size _ _ _ Hd)|]. cbn [Nat.add]. rewrite Ej. clear Ej.
  intros off k2 (F2 & S2 & ->). set (j := free_slot D x) in *. assert (F12 : cframe k k2) by (by transitivity k1).
  destruct (new_dirent_spec name inum Hr Hb ltac:(lia)) as (Hlen & _ & _ & _ & Hcpy).
  apply wp_bind. eapply wp_deref; [exact Hcpy|]. pose proof (do_size _ _ _ Hd) as Hmod.
  assert (Hroom : DIRENT * Z.of_nat j + DIRENT ≤ MAXFILE * BSIZE).
  { change (MAXFILE * BSIZE) with 71680 in *. unfold DIRENT in *. lia. }
  change (le_bytes 2 (u16 inum) ++ _) with (new_dirent name inum).
  replace DIRENT with (Z.of_nat (length (new_dirent name inum))) at 2 by (by rewrite Hlen).
  apply wp_bind, (wp_weaken _ fs_panics); [set_solver|].
  pose proof (cframe_kframe _ _ F12) as FK. pose proof (cframe_dir _ _ _ _ F12 Hd) as Hd2.
  eapply wp_mono; [apply (writei_wp dp k2 D x)|].
  - by eapply cframe_cached.
  - by eapply cframe_tx.
  - by eapply kframe_map_ok.
  - apply Hd2.
  - by eapply cframe_inode_ok.
  - unfold DIRENT in *. lia.
  - rewrite Hlen. exact Hroom.
  - intros r k3 (-> & D' & x' & W). rewrite Hlen. cbn [negb Z.eqb]. apply wp_ret. split; [done|]. exists D', x'.
    eapply cframe_linked, written_linked; try done. unfold dir_get. by rewrite Hfind.
Qed.

Lemma store_with_inode ip y k D H : store k D H → store (with_inode ip y k) D H.
Proof. intros [S1 L1 L2 L3 L4 S2 S3 S4 S5 S6 S7]. by split. Qed.

(** ** Properties *)

(** C9: [dirlookup] evaluates the directory as a function from names to inode
    numbers: it returns null when the name is not there, and else the one
    cache entry of the inode, with one more reference, and the offset of the
    directory entry.  Nothing on the disk changes.  The only other end is a
    panic because the buffer cache or the inode cache is full. *)
Theorem dirlookup_spec dp k D H x name :
  cached dp x k → store k D H → no_root H → dir_ok k D x → ic_lock (k_ic k) = false →
  readable DIRSIZ name → Forall is_byte name →
  wp (dirlookup dp name) dir_panics (λ r k', store k' D H ∧
    match dir_get D x name with
    | None => r = None ∧ cframe k k'
    | Some inum => ∃ k1 ip off z y, r = Some (ip, off) ∧ cframe k k1 ∧ k' = with_inode ip y k1 ∧
        cached ip z k ∧ got k (i_dev x) inum z y ∧ dmatch name (fread D x off DIRENT) ∧
        de_inum (fread D x off DIRENT) = inum
    end) k.
Proof.
  intros Hc Hs Hn Hd Hl Hr Hb. eapply wp_mono; [by apply dirlookup_wp|]. intros r k' (k1 & F & S1 & Hf). unfold dir_get.
  destruct (dir_find D x name) as [[j e]|] eqn:Ef; cbn.
  - destruct Hf as (ip & z & y & -> & Hz & Hg & ->). split; [by apply store_with_inode|].
    apply list_find_Some in Ef as (Hj & Hm & _). rewrite entries_lookup in Hj by apply (dir_size _ _ _ Hd).
    destruct (decide (DIRENT * Z.of_nat j + DIRENT ≤ i_size x)); [|done]. injection Hj as <-.
    exists k1, ip, (DIRENT * Z.of_nat j), z, y. done.
  - by destruct Hf as [-> ->].
Qed.

(** C8: [dirlink] of a name that is not in the directory extends the directory:
    the new name is found with its inode number, every other name as before.
    The entry goes to the first free place or to the end; the directory stays
    well-formed, its inode on the disk agrees with memory, and no block of
    another file changes.  [dirlink] returns 0, or panics because the disk,
    the log or a cache is full. *)
Theorem dirlink_spec dp k D x name inum :
  cached dp x k → tx k D ∅ → map_ok k D → dir_ok k D x → inode_ok k D x → ic_lock (k_ic k) = false →
  readable DIRSIZ name → Forall is_byte name → 0 < inum < 2 ^ 16 → i_size x < MAXFILE * BSIZE →
  dir_get D x name = None →
  wp (dirlink dp name inum) ("iget: no inodes"%string :: fs_panics)
    (λ r k', r = 0 ∧ ∃ D' x', linked dp k D x name inum k' D' x') k.
Proof. apply dirlink_wp. Qed.

(** [dirlink] of a name that denotes the directory itself, as in linking a
    file to [d/.], never returns: it holds the lock of the directory, finds
    the directory under the name and calls [iput], which waits for that
    lock. *)
Theorem dirlink_self_deadlock dp k D H x name inum :
  cached dp x k → store k D H → no_root H → dir_ok k D x → ic_lock (k_ic k) = false →
  readable DIRSIZ name → Forall is_byte name →
  dir_get D x name = Some (i_inum x) → 0 < i_ref x → sl_locked (i_lock x) = true →
  (∀ ip z, cached ip z k → holds (i_dev x) (i_inum x) z → ip = dp) →
  dirlink dp name inum k = Blocked "acquiresleep" ∨ ∃ msg, msg ∈ dir_panics ∧ dirlink dp name inum k = Panic msg.
Proof.
  intros Hc Hs Hn Hd Hl Hr Hb Hf Href Hlk Huniq. pose proof (dirlookup_wp dp k D H x name Hc Hs Hn Hd Hl Hr Hb) as Hw.
  unfold wp in Hw. unfold dirlink. destruct (dirlookup dp name k) as [r k'|msg| | |] eqn:E; try done.
  2:{ right. exists msg. split; [done|]. by apply K_bind_Panic. }
  left. rewrite (K_bind_Ret _ _ _ _ _ E). destruct Hw as (k1 & F & _ & Hf'). unfold dir_get in Hf.
  destruct (dir_find D x name) as [[j e]|]; [|done]. injection Hf as Ee.
  destruct Hf' as (ip & z & y & -> & Hz & Hg & ->). rewrite Ee in Hg.
  assert (Hx : holds (i_dev x) (i_inum x) x) by done.
  destruct Hg as [[Hh ->]|(_ & _ & Hall)].
  2:{ rewrite Forall_forall in Hall. destruct (Hall x); [|done]. by eapply list_elem_of_lookup_2. }
  pose proof (Huniq ip z Hz Hh) as ->. assert (z = x) as -> by (unfold cached in *; congruence).
  pose proof (cached_with dp x (set_i_ref (i_ref x + 1) x) k1 (cframe_cached _ _ _ _ F Hc)) as Hy. unfold cached in Hy.
  unfold iput, mbind, K_bind, zoom, acquiresleep, inode_lock. cbn [lget ic_l]. rewrite Hy. cbn. by rewrite Hlk.
Qed.

End directory.
