(* ===== verification/File.v ===== *)
(** * File: open files (file.c, file.h) and the allocation of pipes (pipe.c)

    The file table, over the file system, the page allocator and the pipes.  A
    pipe lives in a page of its own: a pipe pointer is the page's address.  A
    pointer to a [struct file] is an index of the table.  An operation on a
    pipe that goes to sleep is [Blocked] here; Pipe.v has the rest of it. *)

From Stdlib Require Import ZArith Lia.
From stdpp Require Import base numbers strings gmap list.
From S2P Require Import Prelude Memlayout Kalloc Pipe Kernel Sleeplock Bio Log MntTable Fs.
Open Scope Z_scope.

(** ** State *)

Definition NFILE : nat := 100.

Inductive ftype : Type := FD_NONE | FD_PIPE | FD_INODE.
#[global] Instance ftype_eq_dec : EqDecision ftype.
Proof. solve_decision. Defined.

Record file : Type := File {
  f_type : ftype;
  f_ref : Z;
  f_readable : bool;
  f_writable : bool;
  f_pipe : Z;
  f_ip : option nat;
  f_off : Z;
}.

Definition set_f_type (v : ftype) (f : file) : file :=
  File v (f_ref f) (f_readable f) (f_writable f) (f_pipe f) (f_ip f) (f_off f).
Definition set_f_ref (v : Z) (f : file) : file :=
  File (f_type f) v (f_readable f) (f_writable f) (f_pipe f) (f_ip f) (f_off f).
Definition set_f_off (v : Z) (f : file) : file :=
  File (f_type f) (f_ref f) (f_readable f) (f_writable f) (f_pipe f) (f_ip f) v.

Record ftable : Type := FTable {
  ft_lock : bool;
  ft_file : list file;
}.
Definition set_ft_lock (v : bool) (t : ftable) : ftable := FTable v (ft_file t).
Definition set_ft_file (v : list file) (t : ftable) : ftable := FTable (ft_lock t) v.
Definition ft_lock_l : lens ftable bool := Lens ft_lock set_ft_lock.

(** The parts of the kernel that files reach. *)
Record sys : Type := Sys {
  s_k : kernel;
  s_ft : ftable;
  s_km : kmem;
  s_pipes : gmap Z pipe;
}.
Definition set_s_k (v : kernel) (s : sys) : sys := Sys v (s_ft s) (s_km s) (s_pipes s).
Definition set_s_ft (v : ftable) (s : sys) : sys := Sys (s_k s) v (s_km s) (s_pipes s).
Definition set_s_km (v : kmem) (s : sys) : sys := Sys (s_k s) (s_ft s) v (s_pipes s).
Definition set_s_pipes (v : gmap Z pipe) (s : sys) : sys := Sys (s_k s) (s_ft s) (s_km s) v.

Definition k_l : lens sys kernel := Lens s_k set_s_k.
Definition ft_l : lens sys ftable := Lens s_ft set_s_ft.
Definition km_l : lens sys kmem := Lens s_km set_s_km.
#[global] Instance k_l_laws : LensLaws k_l.
Proof. split; by intros; try destruct s. Qed.
#[global] Instance ft_l_laws : LensLaws ft_l.
Proof. split; by intros; try destruct s. Qed.
#[global] Instance km_l_laws : LensLaws km_l.
Proof. split; by intros; try destruct s. Qed.

(** ** The table *)

Definition fileinit : K ftable unit := modify (set_ft_lock false).

Definition getfile (f : nat) : K ftable file :=
  o ← gets (λ t, ft_file t !! f);
  deref o.
Definition updfile (f : nat) (g : file → file) : K ftable unit :=
  modify (λ t, set_ft_file (alter g f (ft_file t)) t).

(** The scan of [filealloc], from entry [i] on. *)
Fixpoint free_file (i : nat) (l : list file) : option nat :=
  match l with
  | [] => None
  | x :: l => if f_ref x =? 0 then Some i else free_file (S i) l
  end.
Definition filealloc : K ftable (option nat) :=
  acquire ft_lock_l;;
  l ← gets ft_file;
  match free_file 0 l with
  | Some f =>
      updfile f (set_f_ref 1);;
      release ft_lock_l;;
      mret (Some f)
  | None =>
      release ft_lock_l;;
      mret None
  end.

(** The counter is an [int] that does not wrap: a reference is an entry of a
    process's table or is held by a call in progress, so there are at most
    [NPROC * (NOFILE + 1)]. *)
Definition filedup (f : nat) : K ftable nat :=
  acquire ft_lock_l;;
  x ← getfile f;
  if f_ref x <? 1 then panic "filedup" else
  updfile f (λ x, set_f_ref (f_ref x + 1) x);;
  release ft_lock_l;;
  mret f.

(** The part of [fileclose] that holds the table's lock: the file to close,
    when this was its last reference. *)
Definition fileclose_ref (f : nat) : K ftable (option file) :=
  acquire ft_lock_l;;
  x ← getfile f;
  if f_ref x <? 1 then panic "fileclose" else
  updfile f (λ x, set_f_ref (f_ref x - 1) x);;
  y ← getfile f;
  if 0 <? f_ref y then
    release ft_lock_l;;
    mret None
  else
    updfile f (λ x, set_f_type FD_NONE (set_f_ref 0 x));;
    release ft_lock_l;;
    mret (Some y).

(** ** Files *)

Section file.
Context {LK : Linker} {CP : CurProc} {LO : LoopOps} {DS : DevSw}.
(** [myproc()->killed]. *)
Variable killed : bool.

(** Run an operation on the pipe at [p]. *)
Definition on_pipe {A} (p : Z) (m : K pipe A) : K sys A := λ s,
  match s_pipes s !! p with
  | None => Fault
  | Some x =>
      match m x with
      | Ret a x => Ret a (set_s_pipes (<[p:=x]> (s_pipes s)) s)
      | Panic msg => Panic msg
      | Blocked on => Blocked on
      | Fault => Fault
      | NoFuel => NoFuel
      end
  end.

(** An operation that sleeps does not return before another process runs. *)
Definition finish {A} (m : K sys (result A)) : K sys A :=
  r ← m;
  match r with
  | Done a => mret a
  | Sleep _ _ => blocked "pipe"
  end.

Definition pipeclose_free (p : Z) (writable : bool) : K sys unit :=
  free ← on_pipe p (pipeclose writable);
  if free : bool then
    modify (λ s, set_s_pipes (delete p (s_pipes s)) s);;
    zoom km_l (kfree p)
  else mret tt.

Definition fileclose (f : nat) : K sys unit :=
  ff ← zoom ft_l (fileclose_ref f);
  match ff with
  | None => mret tt
  | Some ff =>
      match f_type ff with
      | FD_PIPE => pipeclose_free (f_pipe ff) (f_writable ff)
      | FD_INODE =>
          zoom k_l begin_op;;
          ip ← deref (f_ip ff);
          zoom k_l (iput ip);;
          zoom k_l end_op
      | FD_NONE => mret tt
      end
  end.

(** The error path of [pipealloc] closes the files it has. *)
Definition close_opt (f : option nat) : K sys unit :=
  match f with Some f => fileclose f | None => mret tt end.

(** Both files, or [None] for the result [-1].  The page keeps the bytes it
    had as the contents of the ring. *)
Definition pipealloc : K sys (option (nat * nat)) :=
  f0 ← zoom ft_l filealloc;
  match f0 with
  | None => mret None
  | Some f0 =>
      f1 ← zoom ft_l filealloc;
      match f1 with
      | None => close_opt (Some f0);; mret None
      | Some f1 =>
          p ← zoom km_l kalloc;
          if p =? 0 then close_opt (Some f0);; close_opt (Some f1);; mret None else
          d ← gets (λ s, km_pages (s_km s) !! p);
          d ← deref d;
          modify (λ s, set_s_pipes (<[p:=Pipe false (take (Z.to_nat PIPESIZE) d) 0 0 true true []]> (s_pipes s)) s);;
          zoom ft_l (updfile f0 (λ x, File FD_PIPE (f_ref x) true false p (f_ip x) (f_off x)));;
          zoom ft_l (updfile f1 (λ x, File FD_PIPE (f_ref x) false true p (f_ip x) (f_off x)));;
          mret (Some (f0, f1))
      end
  end.

Definition filestat (f : nat) : K sys (option stat) :=
  x ← zoom ft_l (getfile f);
  match f_type x with
  | FD_INODE =>
      zoom k_l (ilock (f_ip x));;
      ip ← deref (f_ip x);
      st ← zoom k_l (stati ip);
      zoom k_l (iunlock (f_ip x));;
      mret (Some st)
  | _ => mret None
  end.

(** The result and the bytes stored at [addr]. *)
Definition fileread (f : nat) (n : Z) : K sys (Z * list Z) :=
  x ← zoom ft_l (getfile f);
  if negb (f_readable x) then mret (-1, []) else
  match f_type x with
  | FD_PIPE => finish (on_pipe (f_pipe x) (piperead killed n))
  | FD_INODE =>
      zoom k_l (ilock (f_ip x));;
      x ← zoom ft_l (getfile f);
      ip ← deref (f_ip x);
      '(r, bytes) ← zoom k_l (readi ip (f_off x) (u32 n));
      (if 0 <? r then zoom ft_l (updfile f (λ x, set_f_off (u32 (f_off x + r)) x)) else mret tt);;
      zoom k_l (iunlock (f_ip x));;
      mret (r, bytes)
  | FD_NONE => panic "fileread"
  end.

(** [((MAXOPBLOCKS-1-1-2) / 2) * 512]: the bytes of one transaction. *)
Definition max_write : Z := (MAXOPBLOCKS - 1 - 1 - 2) / 2 * 512.

(** One round of the loop of [filewrite]: the bytes [src] at the offset, in a
    transaction; the result of [writei]. *)
Definition write_chunk (f : nat) (src : list Z) (n1 : Z) : K sys Z :=
  zoom k_l begin_op;;
  x ← zoom ft_l (getfile f);
  zoom k_l (ilock (f_ip x));;
  x ← zoom ft_l (getfile f);
  ip ← deref (f_ip x);
  r ← zoom k_l (writei ip src (f_off x) n1);
  (if 0 <? r then zoom ft_l (updfile f (λ x, set_f_off (u32 (f_off x + r)) x)) else mret tt);;
  zoom k_l (iunlock (f_ip x));;
  zoom k_l end_op;;
  mret r.

(** The loop, from byte [i] on: the final [i].  Every round but the last
    writes [max_write] bytes, so [n / max_write + 1] rounds are enough. *)
Fixpoint filewrite_loop (fuel : nat) (f : nat) (addr : list Z) (i n : Z) : K sys Z :=
  if i <? n then
    match fuel with
    | O => nofuel
    | S fuel =>
        let n1 := Z.min (n - i) max_write in
        r ← write_chunk f (take (Z.to_nat n1) (drop (Z.to_nat i) addr)) n1;
        if r <? 0 then mret i else
        if negb (r =? n1) then panic "short filewrite" else
        filewrite_loop fuel f addr (i + r) n
    end
  else mret i.

Definition filewrite (f : nat) (addr : list Z) (n : Z) : K sys Z :=
  x ← zoom ft_l (getfile f);
  if negb (f_writable x) then mret (-1) else
  match f_type x with
  | FD_PIPE => finish (on_pipe (f_pipe x) (pipewrite killed addr n))
  | FD_INODE =>
      i ← filewrite_loop (Z.to_nat (n / max_write + 1)) f addr 0 n;
      mret (if i =? n then n else -1)
  | FD_NONE => panic "filewrite"
  end.

End file.
