(* ===== verification/FileTable.v ===== *)
(** * FileTable: the reference counts of open files (file.c)

    The descriptors of all processes, and the pointers of operations under
    way, are the references to the entries of the file table.  The counts of
    the entries are the numbers of references, so an open file is closed
    exactly when its last descriptor goes. *)

From Stdlib Require Import ZArith Lia.
From stdpp Require Import base numbers strings gmap list relations.
From S2P Require Import Prelude File.
Open Scope Z_scope.

(** The number of references to [f]. *)
Definition refs (f : nat) (R : list nat) : Z := Z.of_nat (count_occ Nat.eq_dec R f).

Record ft_ok (t : ftable) (R : list nat) : Prop := {
  fo_lock : ft_lock t = false;
  fo_ref f x : ft_file t !! f = Some x → f_ref x = refs f R;
  fo_dom f : f ∈ R → (f < length (ft_file t))%nat;
}.

(** One step of the kernel on the table: opening, sharing, filling in and
    closing files, by the holder of a reference. *)
Inductive fstep : ftable * list nat → ftable * list nat → Prop :=
| step_alloc t R f t' : filealloc t = Ret (Some f) t' → fstep (t, R) (t', f :: R)
| step_full t R t' : filealloc t = Ret None t' → fstep (t, R) (t', R)
| step_dup t R f t' : f ∈ R → filedup f t = Ret f t' → fstep (t, R) (t', f :: R)
| step_fill t R f g t' : f ∈ R → (∀ x, f_ref (g x) = f_ref x) → updfile f g t = Ret tt t' → fstep (t, R) (t', R)
| step_close t R R' f o t' : R ≡ₚ f :: R' → fileclose_ref f t = Ret o t' → fstep (t, R) (t', R').

Lemma refs_cons f g R : refs f (g :: R) = refs f R + (if decide (f = g) then 1 else 0).
Proof.
  unfold refs. cbn. destruct (Nat.eq_dec g f) as [->|]; [rewrite decide_True by done|rewrite decide_False by done]; lia.
Qed.
Lemma refs_perm f R R' : R ≡ₚ R' → refs f R = refs f R'.
Proof. intros HR. unfold refs. f_equal. by apply Permutation_count_occ. Qed.
Lemma refs_elem f R : f ∈ R ↔ 0 < refs f R.
Proof. unfold refs. rewrite list_elem_of_In, (count_occ_In Nat.eq_dec). lia. Qed.

Lemma free_file_spec i l :
  match free_file i l with
  | Some f => ∃ j x, f = (i + j)%nat ∧ l !! j = Some x ∧ f_ref x = 0
  | None => Forall (λ x, f_ref x ≠ 0) l
  end.
Proof.
  revert i. induction l as [|x l IH]; intros i; cbn; [done|]. destruct (Z.eqb_spec (f_ref x) 0).
  { exists 0%nat, x. split_and!; [lia|done|done]. }
  specialize (IH (S i)). destruct (free_file (S i) l); [|by constructor].
  destruct IH as (j & y & -> & Hj & ?). exists (S j), y. split_and!; [lia|done|done].
Qed.

(** The table after a change of entry [f]. *)
Definition fput (f : nat) (x : file) (t : ftable) : ftable := FTable false (<[f:=x]> (ft_file t)).

Lemma ft_lookup t R f : ft_ok t R → f ∈ R → ∃ x, ft_file t !! f = Some x ∧ f_ref x = refs f R ∧ 1 ≤ refs f R.
Proof.
  intros Ht Hf. destruct (lookup_lt_is_Some_2 _ _ (fo_dom _ _ Ht f Hf)) as [x Hx]. exists x.
  apply refs_elem in Hf. split_and!; [done|by apply (fo_ref _ _ Ht)|lia].
Qed.

(** Changing the count of [f] with its references. *)
Lemma fput_ok t R R' f x y :
  ft_ok t R → ft_file t !! f = Some x → f_ref y = refs f R' → (∀ g, g ≠ f → refs g R' = refs g R) →
  ft_ok (fput f y t) R'.
Proof.
  intros Ht Hx Hy Hg. split; [done| |].
  - intros g z. cbn. intros [(<- & -> & _)|[? Hz]]%list_lookup_insert_cases; [done|]. rewrite Hg by done. by apply (fo_ref _ _ Ht).
  - intros g Hr. cbn. rewrite length_insert. destruct (decide (g = f)) as [->|]; [by eapply lookup_lt_Some|].
    apply (fo_dom _ _ Ht). apply refs_elem. rewrite <- Hg by done. by apply refs_elem.
Qed.

Lemma filealloc_run t R :
  ft_ok t R →
  match free_file 0 (ft_file t) with
  | Some f => ∃ x, ft_file t !! f = Some x ∧ refs f R = 0 ∧ filealloc t = Ret (Some f) (fput f (set_f_ref 1 x) t)
  | None => filealloc t = Ret None t ∧ ∀ f, (f < length (ft_file t))%nat → f ∈ R
  end.
Proof.
  intros Ht. pose proof (free_file_spec 0 (ft_file t)) as Hf. unfold filealloc, acquire, release, gets, updfile, modify, mbind, K_bind. cbn.
  rewrite (fo_lock _ _ Ht). cbn. destruct (free_file 0 (ft_file t)) as [f|]; cbn.
  - destruct Hf as (j & x & Ej & Hx & H0). cbn in Ej. subst f. exists x. split; [done|]. rewrite <- (fo_ref _ _ Ht _ _ Hx). split; [done|].
    by rewrite (list_alter_Some _ _ _ _ Hx).
  - split; [pose proof (fo_lock _ _ Ht); destruct t; cbn in *; by subst|]. intros f Hlt. destruct (lookup_lt_is_Some_2 _ _ Hlt) as [x Hx].
    apply refs_elem. pose proof (fo_ref _ _ Ht _ _ Hx). rewrite Forall_forall in Hf.
    pose proof (Hf x ltac:(by eapply list_elem_of_lookup_2)). unfold refs in *. lia.
Qed.

Lemma filedup_held t R f x : ft_ok t R → f ∈ R → ft_file t !! f = Some x →
  filedup f t = Ret f (fput f (set_f_ref (f_ref x + 1) x) t).
Proof.
  intros Ht Hf Hx. destruct (ft_lookup _ _ _ Ht Hf) as (x' & Hx' & Hr & H1). simplify_eq.
  unfold filedup, acquire, release, getfile, gets, updfile, modify, mbind, K_bind. cbn. rewrite (fo_lock _ _ Ht). cbn. rewrite Hx. cbn.
  destruct (Z.ltb_spec (f_ref x) 1); [lia|]. cbn. by rewrite (list_alter_Some _ _ _ _ Hx).
Qed.

Lemma fileclose_run t R f x : ft_ok t R → f ∈ R → ft_file t !! f = Some x →
  fileclose_ref f t =
    if decide (refs f R = 1) then Ret (Some (set_f_ref 0 x)) (fput f (set_f_type FD_NONE (set_f_ref 0 x)) t)
    else Ret None (fput f (set_f_ref (f_ref x - 1) x) t).
Proof.
  intros Ht Hf Hx. destruct (ft_lookup _ _ _ Ht Hf) as (x' & Hx' & Hr & H1). simplify_eq.
  unfold fileclose_ref, acquire, release, getfile, gets, updfile, modify, mbind, K_bind. cbn. rewrite (fo_lock _ _ Ht). cbn. rewrite Hx. cbn.
  destruct (Z.ltb_spec (f_ref x) 1); [lia|]. cbn. rewrite (list_alter_Some _ _ _ _ Hx), (insert_lookup _ _ _ _ Hx). cbn.
  destruct (Z.ltb_spec 0 (f_ref x - 1)); case_decide; try lia; cbn; [done|].
  rewrite (list_alter_Some _ _ _ _ (insert_lookup _ _ _ _ Hx)), list_insert_insert_eq. cbn.
  replace (f_ref x - 1) with 0 by lia. done.
Qed.

Lemma fstep_ok s s' : fstep s s' → ft_ok s.1 s.2 → ft_ok s'.1 s'.2.
Proof.
  intros H Ht. destruct H as [t R f t' Ha|t R t' Ha|t R f t' Hf Hd|t R f g t' Hf Hg Hu|t R R' f o t' HR Hc]; cbn in *.
  - pose proof (filealloc_run t R Ht) as Hr. destruct (free_file 0 (ft_file t)) as [f'|]; [|by destruct Hr as [E _]; rewrite E in Ha].
    destruct Hr as (x & Hx & H0 & E). rewrite E in Ha. injection Ha as -> <-.
    eapply fput_ok; [done|done| |].
    + rewrite refs_cons, decide_True by done. cbn. lia.
    + intros g Hg. rewrite refs_cons, decide_False by done. lia.
  - pose proof (filealloc_run t R Ht) as Hr. destruct (free_file 0 (ft_file t)) as [f'|].
    + destruct Hr as (x & _ & _ & E). by rewrite E in Ha.
    + destruct Hr as [E _]. rewrite E in Ha. by injection Ha as <-.
  - destruct (ft_lookup _ _ _ Ht Hf) as (x & Hx & Hr & _). rewrite (filedup_held t R f x Ht Hf Hx) in Hd. injection Hd as <-.
    eapply fput_ok; [done|done| |].
    + rewrite refs_cons, decide_True by done. cbn. lia.
    + intros g Hg. rewrite refs_cons, decide_False by done. lia.
  - destruct (ft_lookup _ _ _ Ht Hf) as (x & Hx & Hr & _). unfold updfile, modify in Hu. injection Hu as <-.
    assert (E : set_ft_file (alter g f (ft_file t)) t = fput f (g x) t).
    { unfold set_ft_file, fput. by rewrite (fo_lock _ _ Ht), (list_alter_Some _ _ _ _ Hx). }
    rewrite E. eapply fput_ok; [done|done| |done]. by rewrite Hg.
  - assert (Hf : f ∈ R) by (rewrite HR; left). destruct (ft_lookup _ _ _ Ht Hf) as (x & Hx & Hr & _).
    rewrite (fileclose_run t R f x Ht Hf Hx) in Hc. pose proof (λ g, refs_perm g _ _ HR) as Hp.
    assert (Hother : ∀ g, g ≠ f → refs g R' = refs g R).
    { intros g Hg. rewrite Hp, refs_cons, decide_False by done. lia. }
    pose proof (Hp f) as Hpf. rewrite refs_cons, decide_True in Hpf by done.
    case_decide; injection Hc as <- <-; (eapply fput_ok; [done|done| |done]); cbn; lia.
Qed.

(** The table at boot. *)
Definition ft0 : ftable := FTable false (replicate NFILE (File FD_NONE 0 false false 0 None 0)).

Lemma ft0_ok : ft_ok ft0 [].
Proof.
  split; [done| |by intros f ?%elem_of_nil]. intros f x Hx. unfold ft0 in Hx. cbn [ft_file] in Hx.
  by apply lookup_replicate in Hx as [-> _].
Qed.

Lemma fstep_reachable t R : rtc fstep (ft0, []) (t, R) → ft_ok t R.
Proof.
  intros H. assert (Hind : ∀ s s', rtc fstep s s' → ft_ok s.1 s.2 → ft_ok s'.1 s'.2).
  { induction 1; [done|]. eauto using fstep_ok. }
  exact (Hind _ _ H ft0_ok).
Qed.

(** C27: in every state the kernel reaches, the count of an open file is the
    number of references to it.  So [filealloc] never hands out a file that is
    in use, and fails only when all entries are; the holder of a reference can
    share and close it without a panic; and the file itself is closed, and its
    entry free again, exactly when the last reference goes. *)
Theorem file_references t R :
  rtc fstep (ft0, []) (t, R) →
  (∀ f x, ft_file t !! f = Some x → f_ref x = refs f R) ∧
  (∃ r t', filealloc t = Ret r t' ∧ match r with
     | Some f => f ∉ R
     | None => ∀ f, (f < length (ft_file t))%nat → f ∈ R
     end) ∧
  (∀ f, f ∈ R → (∃ t', filedup f t = Ret f t') ∧
     ∃ o t' x, fileclose_ref f t = Ret o t' ∧ ft_file t !! f = Some x ∧
       (is_Some o ↔ refs f R = 1) ∧ (∀ y, o = Some y → y = set_f_ref 0 x ∧ free_file 0 (ft_file t') ≠ None)).
Proof.
  intros Ht%fstep_reachable. split; [apply Ht|]. split.
  - pose proof (filealloc_run t R Ht) as Hr. destruct (free_file 0 (ft_file t)) as [f|].
    + destruct Hr as (x & _ & H0 & ->). eexists _, _. split; [done|]. intros Hin. apply refs_elem in Hin. lia.
    + destruct Hr as [-> ?]. by eexists _, _.
  - intros f Hf. destruct (ft_lookup _ _ _ Ht Hf) as (x & Hx & Hr & H1). split; [eexists; by eapply filedup_held|].
    rewrite (fileclose_run t R f x Ht Hf Hx). case_decide as Hd; eexists _, _, x; (split; [done|]); (split; [done|]).
    + split; [split; [done|by eexists]|]. intros y [= <-]. split; [done|]. intros Hn.
      pose proof (free_file_spec 0 (ft_file (fput f (set_f_type FD_NONE (set_f_ref 0 x)) t))) as Hs. rewrite Hn in Hs.
      rewrite Forall_lookup in Hs. apply (Hs f (set_f_type FD_NONE (set_f_ref 0 x))); [|done]. cbn. by apply (insert_lookup _ _ _ _ Hx).
    + split; [split; [by intros []|done]|]. done.
Qed.

Lemma file_references_witness :
  ∃ t, rtc fstep (ft0, []) (t, [0%nat]) ∧ ∃ t', filedup 0 t = Ret 0%nat t'.
Proof.
  eexists. assert (H : rtc fstep (ft0, []) (fput 0 (File FD_NONE 1 false false 0 None 0) ft0, [0%nat])).
  { apply rtc_once, step_alloc. vm_compute. reflexivity. }
  split; [exact H|]. apply (file_references _ _ H). left.
Defined.
