(* ===== verification/Loopdev.v ===== *)
(** * Loopdev: the loop devices of loopdev.c

    A loop device is a block device whose blocks are the contents of a file.
    Reading a block of it reads an inode, which reads blocks in turn: the
    instance [loop_ops] ties this knot, with the nesting of devices as fuel.
    [isloopdev] is in Bio.v. *)

From Stdlib Require Import ZArith Lia.
From stdpp Require Import base numbers strings gmap list.
From S2P Require Import Prelude CString Kernel Sleeplock Bio Log MntTable Fs.
Open Scope Z_scope.

Definition loopdevinit : K gloopdev unit := modify (set_gl_lock false).

(** [devno & (~LOOPDEV_MASK)]. *)
Definition loopdevno (devno : Z) : Z := Z.land devno (u32 (Z.lnot LOOPDEV_MASK)).

Definition getlloopdevi (devno : Z) : K gloopdev (option nat) :=
  if Z.of_nat NLOOPDEV <=? loopdevno devno
  then panic "[getloopdevi] invalid loop device number" else
  t ← gets gl_table;
  e ← deref (t !! Z.to_nat (loopdevno devno));
  mret (ld_ip e).

Definition updldev (i : nat) (f : loopdev → loopdev) : K gloopdev unit := λ g,
  match gl_table g !! i with
  | Some e => Ret tt (set_gl_table (<[i:=f e]> (gl_table g)) g)
  | None => Fault
  end.

(** The loop of [getorcreatedev]: the device of the inode, or the first free
    device. *)
Fixpoint scan_ldev (t : list loopdev) (i : nat) (free : option nat) (ip : nat) :
    bool * option nat :=
  match t with
  | [] => (false, free)
  | e :: t =>
      let free :=
        match free with
        | Some _ => free
        | None => if ld_used e then None else Some i
        end in
      if ld_used e && bool_decide (ld_ip e = Some ip) then (true, Some i)
      else scan_ldev t (S i) free ip
  end.

Definition getorcreatedev (ip : nat) : K kernel Z :=
  zoom ldev_l (acquire gl_lock_l);;
  t ← gets (λ k, gl_table (k_ldev k));
  match scan_ldev t 0 None ip with
  | (true, Some i) =>
      zoom ldev_l (release gl_lock_l);;
      mret (Z.lor (Z.of_nat i) LOOPDEV_MASK)
  | (_, None) => panic "[getorcreatedev] no free loop device"
  | (false, Some i) =>
      zoom ldev_l (updldev i (set_ld_used true));;
      zoom ldev_l (release gl_lock_l);;
      ip ← zoom ic_l (idup ip);
      zoom ldev_l (updldev i (set_ld_ip (Some ip)));;
      mret (Z.lor (Z.of_nat i) LOOPDEV_MASK)
  end.

Definition devput (devno : Z) : K gloopdev unit :=
  if isloopdev devno =? 0 then panic "[devput] devno is not a loop device" else
  acquire gl_lock_l;;
  updldev (Z.to_nat (loopdevno devno)) (set_ld_used false);;
  release gl_lock_l.

Section loopdev.
Context {CP : CurProc} {LO : LoopOps} {DS : DevSw}.

(** [b->flags |= B_VALID; b->flags &= ~B_DIRTY;] *)
Definition mark_read (b : nat) : K kernel unit :=
  zoom bc_l (updbuf b (λ x,
    set_b_flags (Z.land (Z.lor (b_flags x) B_VALID) (Z.lnot B_DIRTY)) x)).

Definition loopdev_read_body (b : nat) : K kernel unit :=
  x ← zoom bc_l (getbuf b);
  ip ← zoom ldev_l (getlloopdevi (b_dev x));
  ilock ip;;
  i ← deref ip;
  '(res, bytes) ← readi i (u32 (b_blockno x * BSIZE)) BSIZE;
  d ← bdata b;
  set_bdata b (list_inserts 0 bytes d);;
  iunlock ip;;
  mark_read b.

Definition loopdev_write_body (b : nat) : K kernel unit :=
  modify (λ k, set_k_log (add_outstanding 1 (k_log k)) k);;
  x ← zoom bc_l (getbuf b);
  ip ← zoom ldev_l (getlloopdevi (b_dev x));
  i ← deref ip;
  _ ← writei i (b_data x) (u32 (b_blockno x * BSIZE)) BSIZE;
  mark_read b;;
  modify (λ k, set_k_log (add_outstanding (-1) (k_log k)) k);;
  l ← log_of log_l;
  if negb (log_outstanding l =? 0) then panic "[loopdev_write] trick failed" else mret tt.

End loopdev.

(** Devices nested [fuel] deep. *)
Fixpoint loop_ops {CP : CurProc} {DS : DevSw} (fuel : nat) : LoopOps :=
  match fuel with
  | O => {| loopdev_read := λ _, nofuel; loopdev_write := λ _, nofuel |}
  | S fuel =>
      {| loopdev_read := @loopdev_read_body CP (loop_ops fuel) DS;
         loopdev_write := @loopdev_write_body CP (loop_ops fuel) DS |}
  end.
