(* ===== verification/LoopFile.v ===== *)
(** * LoopFile: a loop device shows the contents of its file

    [loopdev_read] of loopdev.c, over the inode layer: the block of the device
    is the part of the file at that place. *)

From Stdlib Require Import ZArith Lia.
From stdpp Require Import base numbers strings gmap list.
From S2P Require Import Prelude CString Kernel Sleeplock Bio Log Store Commit Crash Txn MntTable Fs Dinode Bitmap FileData InodeOps.
From S2P Require Import FileIO Directory Loopdev.
Open Scope Z_scope.

Section loopfile.
Context {CP : CurProc} {LO : LoopOps} {DS : DevSw}.

(** Marking a buffer read. *)
Lemma mark_read_store k D H b dev bno d :
  store k D H → H !! b = Some (dev, bno, d) → dev ≠ ROOTDEV →
  ∃ k', mark_read b k = Ret tt k' ∧ cframe k k' ∧ store k' D H.
Proof.
  intros Hs Hb Hdev. destruct (store_held _ _ _ _ _ _ _ Hs Hb) as (x & Hx & H1 & H2 & H3 & H4 & H5 & H6 & H7 & _).
  assert (Hfl : Z.land (Z.lor (b_flags x) B_VALID) (Z.lnot B_DIRTY) = B_VALID).
  { by destruct H6 as [->|[->| ->]]. }
  eexists. split; [unfold mark_read; by apply kupd_run|]. cbv beta. rewrite Hfl. set (y := set_b_flags B_VALID x). split.
  - split; [by destruct k|]. apply (clean_mono_put k _ b x y Hx); [done|]. by intros [=].
  - destruct (st_cache _ _ _ Hs) as [l Hc].
    assert (E : partial_alter (λ _, Some (dev, bno, d)) b H = H) by (exact (insert_id H b (dev, bno, d) Hb)). rewrite <- E.
    apply (store_put _ _ _ _ x y (Some (dev, bno, d))); try done.
    + exists l. by eapply cache_ok_put.
    + split; [by right; left|]. by subst.
    + intros n (? & _). subst. done.
    + intros n (? & _). subst. done.
Qed.

(** The block of the device: the bytes of the file, and beyond its end what the
    buffer had. *)
Definition loop_block (D : list (list Z)) (x : inode) (bno : Z) (d d' : list Z) : Prop :=
  length d' = Z.to_nat BSIZE ∧ ∀ i : nat, (i < Z.to_nat BSIZE)%nat →
    d' !! i = if decide (bno * BSIZE + Z.of_nat i < i_size x) then Some (fbyte D x (bno * BSIZE + Z.of_nat i)) else d !! i.

Lemma inserts_0_lookup (k d : list Z) i :
  (length k ≤ length d)%nat → list_inserts 0 k d !! i = if decide (i < length k)%nat then k !! i else d !! i.
Proof.
  intros Hl. case_decide.
  - rewrite list_lookup_inserts by lia. by rewrite Nat.sub_0_r.
  - by rewrite list_lookup_inserts_ge by lia.
Qed.

Lemma loop_block_read D x bno d :
  0 ≤ bno → bno * BSIZE + BSIZE < 2 ^ 32 → 0 ≤ i_size x → length d = Z.to_nat BSIZE →
  loop_block D x bno d (list_inserts 0
    (if (i_size x <? bno * BSIZE) || (2 ^ 32 <=? bno * BSIZE + BSIZE) then (-1, [])
     else let m := Z.min BSIZE (i_size x - bno * BSIZE) in (m, fread D x (bno * BSIZE) m)).2 d).
Proof.
  intros Hb Hw Hs Hl. unfold loop_block. change BSIZE with 512 in *. rewrite (proj2 (Z.leb_gt _ _)), orb_false_r by lia.
  rewrite length_inserts, Hl. split; [done|]. intros i Hi. destruct (Z.ltb_spec (i_size x) (bno * 512)) as [Hlt|Hge]; cbn [snd].
  - cbn [list_inserts]. by rewrite decide_False by lia.
  - rewrite inserts_0_lookup by (rewrite fread_length, Hl; lia). rewrite fread_length.
    destruct (decide (bno * 512 + Z.of_nat i < i_size x)); [rewrite decide_True by lia|by rewrite decide_False by lia].
    by rewrite fread_lookup by lia.
Qed.

(** C26: reading block [bno] of a loop device gives the bytes of the device's
    file from [bno * BSIZE] on, up to the end of the file; the file, the other
    buffers and the disk stay as they are, and the inode of the file is
    unlocked again. *)
Theorem loop_read_spec b ip k D H x dev bno d :
  store k D H → no_root H → H !! b = Some (dev, bno, d) →
  getlloopdevi dev (k_ldev k) = Ret (Some ip) (k_ldev k) → cached ip x k → regular k D x →
  0 < i_ref x → sl_locked (i_lock x) = false → i_valid x = true → 0 ≤ bno → bno * BSIZE + BSIZE < 2 ^ 32 →
  wp (loopdev_read_body b) full_panics (λ _ k', ∃ d', loop_block D x bno d d' ∧
    store k' D (<[b:=(dev, bno, d')]> H) ∧ cframe (with_inode ip (set_i_lock (SleepLock false 0) x) k) k') k.
Proof.
  intros Hs Hn Hb Hget Hx [Hf Ht Hz Ha] Hr Hl Hv Hbn Hw. pose proof (Hn _ _ Hb) as Hdev. cbn in Hdev.
  destruct (store_held _ _ _ _ _ _ _ Hs Hb) as (y & Hy & Ey1 & Ey2 & _ & _ & _ & _ & Hd & _).
  unfold loopdev_read_body. wp_step (kget_run _ _ _ Hy). rewrite Ey1, Ey2.
  wp_step (zoom_Ret ldev_l _ k _ _ Hget). assert (Ek : lset ldev_l (k_ldev k) k = k) by (by destruct k). rewrite Ek.
  wp_step (ilock_valid k ip x Hx Hr Hl Hv). set (x1 := set_i_lock (SleepLock true cur_pid) x). set (k1 := with_inode ip x1 k).
  apply wp_bind. eapply wp_deref; [done|].
  rewrite u32_small by (change BSIZE with 512 in *; lia).
  assert (Hx1 : cached ip x1 k1) by (by apply (cached_with ip x)).
  apply wp_bind. eapply wp_mono; [apply (readi_wp ip k1 D H x1); [done|by apply store_with_inode|done| | |done]|].
  { split; [apply file_ok_with_inode; by destruct Hf|done..]. }
  { change BSIZE with 512 in *. lia. }
  intros r k2 (F2 & S2 & Er). change (i_size x1) with (i_size x) in Er.
  pose proof (loop_block_read D x1 bno d Hbn Hw ltac:(cbn; lia) Hd) as Hblk.
  destruct r as [res bytes]. change (i_size x1) with (i_size x) in Hblk. rewrite <- Er in Hblk. cbn [snd] in Hblk. clear Er.
  wp_step (bdata_store _ _ _ _ _ _ _ S2 Hb).
  destruct (set_bdata_store k2 D H b dev bno d (list_inserts 0 bytes d) S2 Hb (proj1 Hblk)) as (k3 & E3 & F3 & C3 & S3).
  wp_step E3. assert (F13 : cframe k1 k3) by (transitivity k2; [done|by split]).
  wp_step (iunlock_run k3 ip x1 (cframe_cached _ _ _ _ F13 Hx1) eq_refl ltac:(cbn; lia)). set (k4 := with_inode ip (set_i_lock (SleepLock false 0) x1) k3).
  assert (S4 : store k4 D (<[b:=(dev, bno, list_inserts 0 bytes d)]> H)) by (by apply store_with_inode).
  destruct (mark_read_store k4 D _ b dev bno _ S4 (lookup_insert_eq _ _ _) Hdev) as (k5 & E5 & F5 & S5).
  apply (wp_Ret _ _ _ _ _ _ E5). exists (list_inserts 0 bytes d). split; [done|]. split; [done|].
  transitivity k4; [|done]. unfold k4. change (set_i_lock (SleepLock false 0) x1) with (set_i_lock (SleepLock false 0) x).
  destruct F13 as [E13 C13]. split; [|exact C13]. rewrite E13. unfold k1, with_inode. cbn. rewrite list_insert_insert_eq. by destruct k as [? ? ? ? ? ? []].
Qed.

End loopfile.
