(* ===== verification/Mount.v ===== *)
(** * Mount: the system calls of sysmount.c

    [sys_mount] and [sys_umount] over the mount table (MntTable.v), the loop
    devices and the inode layer.  A path argument is what [argstr] gives:
    [None] when it fails, else the characters with their NUL. *)

From Stdlib Require Import ZArith Lia.
From stdpp Require Import base numbers strings gmap list.
From S2P Require Import Prelude CString Kernel Sleeplock Bio Log MntTable Fs Loopdev.
Open Scope Z_scope.

Section mount.
Context {CP : CurProc} {LO : LoopOps} {DS : DevSw}.

(** [iunlockput(mnti); iunlockput(devi); end_op(); return r;] *)
Definition finish_mount (mnti devi : nat) (r : Z) : K kernel Z :=
  iunlockput mnti;;
  iunlockput devi;;
  end_op;;
  mret r.

(** The new entry, put at the front of the list. *)
Definition add_mount (mnti : nat) (devno : Z) : K kernel unit :=
  m ← zoom mnt_l mntalloc;
  zoom mnt_l (updmnt m (set_m_devno devno));;
  p ← zoom ic_l (idup mnti);
  zoom mnt_l (updmnt m (set_m_mnti (Some p)));;
  l ← gets (λ k, g_pmntlist (k_mnt k));
  zoom mnt_l (updmnt m (set_m_next l));;
  modify (λ k, set_k_mnt (set_g_pmntlist (Some m) (k_mnt k)) k);;
  zoom mnt_l (mntput m).

Definition sys_mount (dev_path mntpnt_path : option (list Z)) : K kernel Z :=
  match dev_path, mntpnt_path with
  | Some dev_path, Some mntpnt_path =>
      begin_op;;
      mnti ← namei mntpnt_path;
      devi ← namei dev_path;
      match mnti, devi with
      | None, _ => panic "[sys_mount] mountpoint doesn't exist"
      | Some _, None => panic "[sys_mount] loop device doesn't exist"
      | Some mnti, Some devi =>
          ilock (Some mnti);;
          ilock (Some devi);;
          x ← inode_of mnti;
          if i_inum x =? ROOTINO then finish_mount mnti devi (-1) else
          y ← inode_of devi;
          if negb (i_type y =? T_FILE) then finish_mount mnti devi (-1) else
          devno ← getorcreatedev devi;
          modify (set_k_is_loop_mounted true);;
          add_mount mnti devno;;
          finish_mount mnti devi 0
      end
  | _, _ => mret (-1)
  end.

(** The second loop of [sys_umount]: the entry before [m] on the list.  The
    result is the place that points to [m], [None] for [&gmnt.pmntlist]. *)
Fixpoint find_pre (fuel : nat) (m : nat) (cur pre : option nat) : K gmntst (option nat) :=
  match fuel with
  | O => nofuel
  | S fuel =>
      match cur with
      | None => panic "[mntlookup] mnt entry is not in active mount list"
      | Some c =>
          if decide (c = m) then mret pre else
          e ← getmnt c;
          find_pre fuel m (m_next e) (Some c)
      end
  end.

(** [*pre = v;] *)
Definition set_pre (pre v : option nat) : K gmntst unit :=
  match pre with
  | None => modify (set_g_pmntlist v)
  | Some p => updmnt p (set_m_next v)
  end.

(** Take the entry [e], which is entry [m], off the list [l], and clear it. *)
Definition drop_mount (m : nat) (e : mntent) (l : option nat) : K kernel unit :=
  pre ← zoom mnt_l (find_pre (S NMNT) m l None);
  zoom mnt_l (set_pre pre (m_next e));;
  zoom mnt_l (release g_lock_l);;
  zoom ldev_l (devput (m_devno e));;
  zoom mnt_l (updmnt m (λ _, MntEnt 0 None 0 None)).

Definition sys_umount (mntpnt_path : option (list Z)) : K kernel Z :=
  match mntpnt_path with
  | None => mret (-1)
  | Some mntpnt_path =>
      begin_op;;
      mnti ← namei mntpnt_path;
      match mnti with
      | None => panic "[sys_mount] mountpoint doesn't exist"
      | Some mnti =>
          ilock (Some mnti);;
          x ← inode_of mnti;
          if i_dev x =? ROOTDEV then iunlock (Some mnti);; end_op;; mret (-1) else
          if negb (i_inum x =? ROOTINO) then iunlock (Some mnti);; end_op;; mret (-1) else
          iunlock (Some mnti);;
          zoom mnt_l (acquire g_lock_l);;
          l ← gets (λ k, g_pmntlist (k_mnt k));
          x ← inode_of mnti;
          m ← zoom mnt_l (scan_mounts (S NMNT) (on_device (i_dev x)) l);
          match m with
          | None => zoom mnt_l (release g_lock_l);; end_op;; mret (-1)
          | Some m =>
              e ← zoom mnt_l (getmnt m);
              if 1 <? m_refcnt e then zoom mnt_l (release g_lock_l);; end_op;; mret (-1) else
              drop_mount m e l;;
              modify (set_k_is_loop_mounted false);;
              e ← zoom mnt_l (getmnt m);
              devi ← zoom ldev_l (getlloopdevi (m_devno e));
              devi ← deref devi;
              iput devi;;
              iput mnti;;
              end_op;;
              mret 0
          end
      end
  end.

End mount.
