(* ===== verification/MountPoint.v ===== *)
(** * MountPoint: the list of mounts, and path lookup across mount points

    The mount table of sysmount.c as a list of pairs of a mount point and a
    device, newest first.  [mntlookup] and [getmntpnt] search this list,
    mounting puts a pair in front and unmounting removes one.  [cross_mount]
    and [cross_dotdot], the two places where [namex] of fs.c leaves a file
    system, are inverse to each other. *)

From Stdlib Require Import ZArith Lia.
From stdpp Require Import base numbers strings gmap list.
From S2P Require Import Prelude CString Kernel Sleeplock Bio Log MntTable Fs FileData InodeOps Directory Loopdev Mount.
Open Scope Z_scope.

(** ** The list of mounts *)

(** The entries from [cur] on, through [next], are [L]; they are in use. *)
Fixpoint chain (t : list mntent) (cur : option nat) (L : list nat) : Prop :=
  match L with
  | [] => cur = None
  | m :: L => cur = Some m ∧ ∃ e, t !! m = Some e ∧ 0 < m_refcnt e < 2 ^ 31 ∧ chain t (m_next e) L
  end.

Record mnt_ok (g : gmntst) (L : list nat) : Prop := {
  mk_lock : g_lock g = false;
  mk_table : length (g_table g) = NMNT;
  mk_chain : chain (g_table g) (g_pmntlist g) L;
  mk_nodup : NoDup L;
  mk_free m e : g_table g !! m = Some e → m ∉ L → m_refcnt e = 0;
}.

Definition mount_info (e : mntent) : option nat * Z := (m_mnti e, m_devno e).
(** What is mounted: mount points and devices. *)
Definition mounts (t : list mntent) (L : list nat) : list (option nat * Z) :=
  omap (λ m, mount_info <$> t !! m) L.

Lemma chain_ext t t' cur L : (∀ m, m ∈ L → t' !! m = t !! m) → chain t cur L → chain t' cur L.
Proof.
  revert cur. induction L as [|m L IH]; intros cur Ht; cbn; [done|]. intros (-> & e & He & Hr & Hc). split; [done|].
  exists e. rewrite Ht by set_solver. do 2 (split; [done|]). apply IH; [|done]. set_solver.
Qed.
Lemma mounts_ext t t' L : (∀ m, m ∈ L → mount_info <$> t' !! m = mount_info <$> t !! m) → mounts t' L = mounts t L.
Proof. unfold mounts. induction L as [|m L IH]; intros Ht; cbn; [done|]. rewrite Ht, IH by set_solver. done. Qed.

Lemma mnt_chain_lookup t cur L m : chain t cur L → m ∈ L → ∃ e, t !! m = Some e ∧ 0 < m_refcnt e < 2 ^ 31.
Proof.
  revert cur. induction L as [|n L IH]; intros cur; cbn; [by intros _ ?%elem_of_nil|].
  intros (_ & e & He & Hr & Hc) [->|Hm]%elem_of_cons; [eauto|by eapply IH].
Qed.

Lemma mounts_length g L : mnt_ok g L → (length L ≤ NMNT)%nat.
Proof.
  intros Hg. rewrite <- (length_seq NMNT 0). apply submseteq_length, NoDup_submseteq; [apply Hg|].
  intros m Hm. destruct (mnt_chain_lookup _ _ _ _ (mk_chain _ _ Hg) Hm) as (e & He & _).
  apply lookup_lt_Some in He. rewrite (mk_table _ _ Hg) in He. apply elem_of_seq. lia.
Qed.

(** ** Searching *)

(** The first entry that satisfies [p]. *)
Fixpoint mfind (t : list mntent) (p : mntent → bool) (L : list nat) : option nat :=
  match L with
  | [] => None
  | m :: L => match t !! m with Some e => if p e then Some m else mfind t p L | None => None end
  end.

Lemma scan_mounts_run fuel p g cur L :
  chain (g_table g) cur L → (length L < fuel)%nat → scan_mounts fuel p cur g = Ret (mfind (g_table g) p L) g.
Proof.
  revert fuel cur. induction L as [|m L IH]; intros [|fuel] cur; cbn [chain length]; try lia; cbn [scan_mounts].
  { by intros ->. }
  intros (-> & e & He & Hr & Hc) Hf. rewrite (K_bind_Ret _ _ g e g) by (unfold getmnt; by rewrite He).
  cbn [mfind]. rewrite He. destruct (Z.eqb_spec (m_refcnt e) 0); [lia|]. destruct (p e); [done|]. apply IH; [done|lia].
Qed.

Lemma mfind_mounts t p q cur L :
  chain t cur L → (∀ e, p e = q (mount_info e)) →
  match mfind t p L with
  | Some m => ∃ e, t !! m = Some e ∧ m ∈ L ∧ List.find q (mounts t L) = Some (mount_info e)
  | None => List.find q (mounts t L) = None
  end.
Proof.
  intros Hc Hp. revert cur Hc. induction L as [|m L IH]; intros cur; cbn [chain mfind]; [done|].
  intros (_ & e & He & _ & Hc). unfold mounts in *. cbn [omap list_omap]. rewrite He. cbn [fmap option_fmap option_map List.find].
  rewrite Hp. destruct (q (mount_info e)) eqn:Eq.
  - exists e. split_and!; [done|left|done].
  - specialize (IH _ Hc). destruct (mfind t p L); [|done]. destruct IH as (e' & ? & ? & ?). exists e'. split_and!; [done|by right|done].
Qed.

Definition at_point (ip : nat) (p : option nat * Z) : bool := bool_decide (p.1 = Some ip).
Definition of_device (devno : Z) (p : option nat * Z) : bool := p.2 =? devno.

Lemma at_inode_info ip e : at_inode ip e = at_point ip (mount_info e).
Proof.
  unfold at_inode, at_point. cbn. destruct (m_mnti e) as [i|]; [|by rewrite bool_decide_eq_false_2].
  destruct (Nat.eqb_spec i ip) as [->|]; symmetry; [by apply bool_decide_eq_true_2|apply bool_decide_eq_false_2; congruence].
Qed.

Definition ref_mount (m : nat) (n : Z) (g : gmntst) : gmntst :=
  set_g_table (alter (λ e, set_m_refcnt (u32 (m_refcnt e + n)) e) m (g_table g)) g.

Lemma updmnt_run g m e f : g_table g !! m = Some e → updmnt m f g = Ret tt (set_g_table (<[m:=f e]> (g_table g)) g).
Proof. intros He. unfold updmnt. by rewrite He. Qed.

Lemma mntdup_run g m e : g_lock g = false → g_table g !! m = Some e →
  mntdup m g = Ret m (ref_mount m 1 g) ∧ mntput m g = Ret tt (ref_mount m (-1) g).
Proof.
  intros Hl He. unfold mntdup, mntput, ref_mount, acquire, release, updmnt, mbind, K_bind. cbn. rewrite Hl. cbn. rewrite He. cbn.
  rewrite !(list_alter_Some _ _ _ _ He). unfold set_g_table, set_g_lock. cbn. rewrite Hl.
  replace (m_refcnt e + -1) with (m_refcnt e - 1) by lia. done.
Qed.

Lemma ref_mount_back g m e : g_table g !! m = Some e → 0 ≤ m_refcnt e < 2 ^ 31 → ref_mount m (-1) (ref_mount m 1 g) = g.
Proof.
  intros He Hr. unfold ref_mount. cbn. rewrite (list_alter_Some _ _ _ _ He).
  rewrite (list_alter_Some _ _ _ _ (insert_lookup _ _ _ _ He)), list_insert_insert_eq. cbn.
  rewrite (u32_small (m_refcnt e + 1)) by lia. replace (m_refcnt e + 1 + -1) with (m_refcnt e) by lia.
  rewrite u32_small by lia. destruct g, e. cbn in *. by rewrite list_insert_id.
Qed.

Lemma mntlookup_run g L ip :
  mnt_ok g L →
  match List.find (at_point ip) (mounts (g_table g) L) with
  | None => mntlookup ip g = Ret None g
  | Some p => ∃ m e, mntlookup ip g = Ret (Some m) (ref_mount m 1 g) ∧ g_table g !! m = Some e ∧ m ∈ L ∧
      mount_info e = p ∧ 0 < m_refcnt e < 2 ^ 31
  end.
Proof.
  intros Hg. pose proof (mounts_length _ _ Hg). pose proof (mk_lock _ _ Hg) as Hl. pose proof (mk_chain _ _ Hg) as Hc.
  pose proof (mfind_mounts (g_table g) (at_inode ip) (at_point ip) _ L Hc (at_inode_info ip)) as Hf.
  assert (Hrun : mntlookup ip g = match mfind (g_table g) (at_inode ip) L with
    | Some m => Ret (Some m) (ref_mount m 1 g) | None => Ret None g end).
  { unfold mntlookup. rewrite (K_bind_Ret _ _ g tt (set_g_lock true g)) by (unfold acquire; cbn; by rewrite Hl).
    rewrite (K_bind_Ret _ _ _ (g_pmntlist (set_g_lock true g)) (set_g_lock true g)) by done.
    rewrite (K_bind_Ret _ _ _ _ _ (scan_mounts_run (S NMNT) (at_inode ip) (set_g_lock true g) (g_pmntlist (set_g_lock true g)) L Hc ltac:(lia))).
    assert (E : set_g_lock false (set_g_lock true g) = g) by (destruct g; cbn in *; by subst).
    cbn [g_table set_g_lock]. destruct (mfind _ _ L) as [m|]; rewrite (K_bind_Ret _ _ _ tt g) by (unfold release; cbn; by rewrite E);
      [|done]. destruct Hf as (e & He & _). by rewrite (K_bind_Ret _ _ _ _ _ (proj1 (mntdup_run g m e Hl He))). }
  rewrite Hrun. destruct (mfind _ _ L) as [m|]; [|by rewrite Hf]. destruct Hf as (e & He & Hm & ->).
  exists m, e. split_and!; try done; destruct (mnt_chain_lookup _ _ _ m Hc Hm) as (e' & He' & ?); simplify_eq; lia.
Qed.

Lemma getmntpnt_run g L devno :
  mnt_ok g L → getmntpnt devno g = Ret (List.find (of_device devno) (mounts (g_table g) L) ≫= fst) g.
Proof.
  intros Hg. pose proof (mounts_length _ _ Hg). pose proof (mk_lock _ _ Hg) as Hl. pose proof (mk_chain _ _ Hg) as Hc.
  pose proof (mfind_mounts (g_table g) (on_device devno) (of_device devno) _ L Hc (λ _, eq_refl)) as Hf.
  unfold getmntpnt. rewrite (K_bind_Ret _ _ g tt (set_g_lock true g)) by (unfold acquire; cbn; by rewrite Hl).
  rewrite (K_bind_Ret _ _ _ (g_pmntlist (set_g_lock true g)) (set_g_lock true g)) by done.
    rewrite (K_bind_Ret _ _ _ _ _ (scan_mounts_run (S NMNT) (on_device devno) (set_g_lock true g) (g_pmntlist (set_g_lock true g)) L Hc ltac:(lia))).
  assert (E : set_g_lock false (set_g_lock true g) = g) by (destruct g; cbn in *; by subst).
  cbn [g_table set_g_lock]. destruct (mfind _ _ L) as [m|]; rewrite (K_bind_Ret _ _ _ tt g) by (unfold release; cbn; by rewrite E).
  - destruct Hf as (e & He & _ & ->). rewrite (K_bind_Ret _ _ g e g) by (unfold getmnt; by rewrite He). done.
  - by rewrite Hf.
Qed.

(** ** Mounting *)

Lemma free_entry_spec t i :
  match free_entry t i with
  | Some m => ∃ j e, m = (i + j)%nat ∧ t !! j = Some e ∧ m_refcnt e = 0
  | None => Forall (λ e, m_refcnt e ≠ 0) t
  end.
Proof.
  revert i. induction t as [|e t IH]; intros i; cbn; [done|]. destruct (Z.eqb_spec (m_refcnt e) 0).
  { exists 0%nat, e. split_and!; [lia|done|done]. }
  specialize (IH (S i)). destruct (free_entry t (S i)); [|by constructor].
  destruct IH as (j & e' & -> & Hj & He). exists (S j), e'. split_and!; [lia|done|done].
Qed.

(** The table with entry [m] in front of the list. *)
Definition pushed (m mnti : nat) (devno : Z) (g : gmntst) : gmntst :=
  GMnt false (<[m:=MntEnt devno (Some mnti) 1 (g_pmntlist g)]> (g_table g)) (Some m) (g_prootmnt g).

Lemma pushed_ok g L m e mnti devno :
  mnt_ok g L → g_table g !! m = Some e → m_refcnt e = 0 →
  m ∉ L ∧ mnt_ok (pushed m mnti devno g) (m :: L) ∧
  mounts (g_table (pushed m mnti devno g)) (m :: L) = (Some mnti, devno) :: mounts (g_table g) L.
Proof.
  intros Hg He H0. assert (Hm : m ∉ L).
  { intros Hm. destruct (mnt_chain_lookup _ _ _ _ (mk_chain _ _ Hg) Hm) as (e' & He' & ?). simplify_eq. lia. }
  assert (Hne : ∀ n, n ∈ L → g_table (pushed m mnti devno g) !! n = g_table g !! n).
  { intros n Hn. cbn. apply list_lookup_insert_ne. by intros ->. }
  split; [done|]. split.
  - split; [done|cbn; rewrite length_insert; apply Hg| |by constructor; [|apply Hg]|].
    + cbn [chain pushed g_pmntlist g_table]. split; [done|]. eexists. split; [by apply (insert_lookup _ _ _ _ He)|].
      split; [cbn; lia|]. cbn [m_next]. eapply chain_ext; [|apply (mk_chain _ _ Hg)]. exact Hne.
    + intros n e'. cbn. intros [(<- & _)|[_ Hn]]%list_lookup_insert_cases; [set_solver|].
      intros [_ ?]%not_elem_of_cons. by apply (mk_free _ _ Hg n).
  - unfold mounts at 1. cbn [omap list_omap]. cbn [pushed g_table]. rewrite (insert_lookup _ _ _ _ He). cbn [fmap option_fmap option_map].
    cbn [mount_info m_mnti m_devno]. f_equal. apply (mounts_ext (g_table g)). intros n Hn. f_equal. by apply Hne.
Qed.

Lemma mntalloc_run g m e :
  g_lock g = false → free_entry (g_table g) 0 = Some m → g_table g !! m = Some e →
  mntalloc g = Ret m (set_g_table (<[m:=set_m_refcnt 2 e]> (g_table g)) g).
Proof.
  intros Hl Hf He. unfold mntalloc, acquire, release, updmnt, gets, mbind, K_bind. cbn. rewrite Hl. cbn. rewrite Hf. cbn. rewrite He. cbn.
  destruct g. cbn in *. by subst.
Qed.

Lemma add_mount_run {CP : CurProc} k L mnti z devno :
  mnt_ok (k_mnt k) L → cached mnti z k → ic_lock (k_ic k) = false →
  match free_entry (g_table (k_mnt k)) 0 with
  | None => add_mount mnti devno k = Panic "[mntalloc] no free mount entry"
  | Some m => add_mount mnti devno k =
      Ret tt (set_k_mnt (pushed m mnti devno (k_mnt k)) (with_inode mnti (set_i_ref (i_ref z + 1) z) k))
  end.
Proof.
  intros Hg Hz Hl. pose proof (mk_lock _ _ Hg) as Hgl. set (g := k_mnt k) in *. unfold add_mount.
  pose proof (free_entry_spec (g_table g) 0) as Hf. destruct (free_entry (g_table g) 0) as [m|] eqn:Ef.
  2:{ apply K_bind_Panic, zoom_Panic. cbn. fold g. unfold mntalloc, acquire, gets, mbind, K_bind. cbn. rewrite Hgl. cbn. by rewrite Ef. }
  destruct Hf as (j & e & Hj & He & H0). cbn in Hj. subst j.
  rewrite (K_bind_Ret _ _ _ _ _ (zoom_Ret mnt_l mntalloc k m _ (mntalloc_run g m e Hgl Ef He))). cbn [lset mnt_l].
  set (t1 := <[m:=set_m_refcnt 2 e]> (g_table g)). set (k1 := set_k_mnt (set_g_table t1 g) k).
  assert (H1 : g_table (lget mnt_l k1) !! m = Some (set_m_refcnt 2 e)) by (by apply (insert_lookup _ _ _ _ He)).
  rewrite (K_bind_Ret _ _ _ _ _ (zoom_Ret mnt_l _ _ _ _ (updmnt_run _ m _ (set_m_devno devno) H1))).
  set (k2 := lset mnt_l _ k1).
  rewrite (K_bind_Ret _ _ _ _ _ (idup_run k2 mnti z Hz Hl)). set (k3 := with_inode mnti _ k2).
  assert (H3 : g_table (lget mnt_l k3) !! m = Some (set_m_devno devno (set_m_refcnt 2 e))) by (by apply (insert_lookup _ _ _ _ H1)).
  rewrite (K_bind_Ret _ _ _ _ _ (zoom_Ret mnt_l _ _ _ _ (updmnt_run _ m _ (set_m_mnti (Some mnti)) H3))).
  set (k4 := lset mnt_l _ k3). rewrite (K_bind_Ret _ _ k4 (g_pmntlist g) k4) by done.
  pose proof (insert_lookup _ _ (set_m_mnti (Some mnti) (set_m_devno devno (set_m_refcnt 2 e))) _ H3) as H4.
  rewrite (K_bind_Ret _ _ _ _ _ (zoom_Ret mnt_l _ k4 _ _ (updmnt_run (lget mnt_l k4) m _ (set_m_next (g_pmntlist g)) H4))).
  set (k5 := lset mnt_l _ k4). set (k6 := set_k_mnt (set_g_pmntlist (Some m) (k_mnt k5)) k5).
  rewrite (K_bind_Ret _ _ k5 tt k6) by done.
  pose proof (insert_lookup _ _ (set_m_next (g_pmntlist g) (set_m_mnti (Some mnti) (set_m_devno devno (set_m_refcnt 2 e)))) _ H4) as H5.
  rewrite (zoom_Ret mnt_l _ k6 _ _ (proj2 (mntdup_run (k_mnt k6) m _ Hgl H5))).
  unfold ref_mount, k6, k5, k4, k3, k2, k1, t1, pushed, with_inode. cbn -[insert list_insert]. f_equal.
  rewrite !list_insert_insert_eq. rewrite (list_alter_Some _ _ _ _ (insert_lookup _ _ _ _ He)), list_insert_insert_eq.
  destruct k as [? ? ? ? ? ? ? ? gm ?]. cbn -[insert list_insert] in *. destruct gm, e. cbn -[insert list_insert] in *. by subst.
Qed.

(** ** Unmounting *)

Lemma find_pre_run fuel m g cur pre L1 L2 :
  chain (g_table g) cur (L1 ++ m :: L2) → m ∉ L1 → (length L1 < fuel)%nat →
  find_pre fuel m cur pre g = Ret (match last L1 with Some p => Some p | None => pre end) g.
Proof.
  revert fuel cur pre. induction L1 as [|n L1 IH]; intros [|fuel] cur pre Hc Hm Hf; cbn [length] in Hf; try lia; cbn [find_pre].
  - destruct Hc as [-> _]. by rewrite decide_True.
  - destruct Hc as (-> & e & He & _ & Hc). apply not_elem_of_cons in Hm as [? ?]. rewrite decide_False by done.
    rewrite (K_bind_Ret _ _ g e g) by (unfold getmnt; by rewrite He). rewrite (IH fuel (m_next e) (Some n) Hc) by (done || lia).
    destruct L1 as [|n' L1]; [done|]. rewrite last_cons_cons. by destruct (last (n' :: L1)) eqn:E; [|by apply last_None in E].
Qed.

(** The list without the entry after [L1]. *)
Definition unlinked (L1 : list nat) (next : option nat) (g : gmntst) : gmntst :=
  match last L1 with
  | None => set_g_pmntlist next g
  | Some p => set_g_table (alter (set_m_next next) p (g_table g)) g
  end.

Lemma chain_unlink t cur L1 m L2 e :
  chain t cur (L1 ++ m :: L2) → NoDup (L1 ++ m :: L2) → t !! m = Some e →
  match last L1 with
  | None => chain t (m_next e) L2
  | Some p => chain (alter (set_m_next (m_next e)) p t) cur (L1 ++ L2)
  end.
Proof.
  revert cur. induction L1 as [|n L1 IH]; intros cur Hc Hn He.
  - destruct Hc as (_ & e' & He' & _ & Hc). by simplify_eq.
  - destruct Hc as (-> & d & Hd & Hr & Hc). cbn [app] in Hn. apply NoDup_cons in Hn as [Hnn Hn].
    specialize (IH _ Hc Hn He). destruct L1 as [|n' L1].
    + cbn in IH |- *. split; [done|]. rewrite (list_alter_Some _ _ _ _ Hd). eexists. split; [by apply (insert_lookup _ _ _ _ Hd)|].
      split; [done|]. cbn. eapply chain_ext; [|exact IH]. intros q Hq. apply list_lookup_insert_ne. intros ->. set_solver.
    + rewrite last_cons_cons. destruct (last (n' :: L1)) as [p|] eqn:Ep; [|by apply last_None in Ep].
      cbn [app chain]. split; [done|]. exists d. split; [|done].
      rewrite list_lookup_alter_ne; [done|]. intros ->. apply Hnn. apply last_Some_elem_of in Ep. set_solver.
Qed.

Lemma unlinked_ok g L1 m L2 e :
  mnt_ok g (L1 ++ m :: L2) → g_table g !! m = Some e →
  let g1 := unlinked L1 (m_next e) g in let g' := set_g_table (<[m:=MntEnt 0 None 0 None]> (g_table g1)) g1 in
  is_Some (g_table g1 !! m) ∧ mnt_ok g' (L1 ++ L2) ∧ mounts (g_table g') (L1 ++ L2) = mounts (g_table g) (L1 ++ L2).
Proof.
  intros Hg He g1 g'. pose proof (mk_nodup _ _ Hg) as Hn. pose proof (chain_unlink _ _ _ _ _ _ (mk_chain _ _ Hg) Hn He) as Hc.
  apply NoDup_app in Hn as (Hn1 & Hd & [Hm2 Hn2]%NoDup_cons). assert (Hm : m ∉ L1 ++ L2) by set_solver.
  assert (Hinfo : ∀ n, (λ e, (mount_info e, m_refcnt e)) <$> g_table g1 !! n = (λ e, (mount_info e, m_refcnt e)) <$> g_table g !! n).
  { intros n. unfold g1, unlinked. destruct (last L1) as [p|]; [|done]. cbn. destruct (decide (n = p)) as [->|].
    - rewrite list_lookup_alter_eq, <- option_fmap_compose. done.
    - by rewrite list_lookup_alter_ne. }
  assert (Hlen : length (g_table g1) = length (g_table g)).
  { unfold g1, unlinked. destruct (last L1); [|done]. cbn. apply length_alter. }
  assert (Hsome : is_Some (g_table g1 !! m)).
  { apply lookup_lt_is_Some. rewrite Hlen. by eapply lookup_lt_Some. }
  assert (Hne : ∀ n, n ∈ L1 ++ L2 → g_table g' !! n = g_table g1 !! n).
  { intros n Hin. cbn. apply list_lookup_insert_ne. by intros ->. }
  split; [done|]. split.
  - split.
    + unfold g', g1, unlinked. destruct (last L1); apply Hg.
    + cbn. rewrite length_insert, Hlen. apply Hg.
    + eapply chain_ext; [exact Hne|]. unfold g', g1, unlinked. destruct (last L1) eqn:El; [exact Hc|].
      apply last_None in El as ->. exact Hc.
    + apply NoDup_app. split_and!; [done| |done]. set_solver.
    + intros n d. cbn. intros [(<- & -> & _)|[Hnm Hin]]%list_lookup_insert_cases; [done|].
      intros Hnot. pose proof (Hinfo n) as Hi. rewrite Hin in Hi. destruct (g_table g !! n) as [d'|] eqn:Hd'; [|done].
      injection Hi as _ _ ->. apply (mk_free _ _ Hg n d' Hd'). set_solver.
  - apply mounts_ext. intros n Hin. rewrite Hne by done. pose proof (Hinfo n) as Hi.
    destruct (g_table g1 !! n), (g_table g !! n); try done. injection Hi as E1 E2 _. cbn. unfold mount_info. by rewrite E1, E2.
Qed.

Lemma devput_run g devno d :
  isloopdev devno ≠ 0 → gl_lock g = false → gl_table g !! Z.to_nat (loopdevno devno) = Some d →
  devput devno g = Ret tt (set_gl_table (<[Z.to_nat (loopdevno devno):=set_ld_used false d]> (gl_table g)) g).
Proof.
  intros Hd Hl Ht. unfold devput. rewrite (proj2 (Z.eqb_neq _ _) Hd).
  unfold acquire, release, updldev, mbind, K_bind. cbn. rewrite Hl. cbn. rewrite Ht. cbn. destruct g. cbn in *. by subst.
Qed.

Lemma drop_mount_run k L1 m L2 e d :
  g_lock (k_mnt k) = true → mnt_ok (set_g_lock false (k_mnt k)) (L1 ++ m :: L2) → g_table (k_mnt k) !! m = Some e →
  isloopdev (m_devno e) ≠ 0 → gl_lock (k_ldev k) = false →
  gl_table (k_ldev k) !! Z.to_nat (loopdevno (m_devno e)) = Some d →
  ∃ g' l', drop_mount m e (g_pmntlist (k_mnt k)) k = Ret tt (set_k_mnt g' (set_k_ldev l' k)) ∧ mnt_ok g' (L1 ++ L2) ∧
    mounts (g_table g') (L1 ++ L2) = mounts (g_table (k_mnt k)) (L1 ++ L2) ∧
    l' = set_gl_table (<[Z.to_nat (loopdevno (m_devno e)):=set_ld_used false d]> (gl_table (k_ldev k))) (k_ldev k).
Proof.
  intros Hl Hg He Hdev Hdl Hd. set (g := k_mnt k) in *.
  destruct (unlinked_ok _ _ _ _ e Hg He) as ([e1 He1] & Hok & Hm). set (g1 := unlinked L1 (m_next e) (set_g_lock false g)) in *.
  pose proof (mounts_length _ _ Hg) as Hlen. rewrite length_app in Hlen. cbn [length] in Hlen.
  pose proof (mk_nodup _ _ Hg) as (_ & Hdis & _)%NoDup_app.
  assert (Hm1 : m ∉ L1) by (intros Hm1; apply (Hdis m Hm1); left).
  eexists _, _. split; [|split; [exact Hok|split; [exact Hm|done]]]. unfold drop_mount.
  rewrite (K_bind_Ret _ _ _ _ _ (zoom_Ret mnt_l _ k _ _ (find_pre_run (S NMNT) m g _ None L1 L2 (mk_chain _ _ Hg) Hm1 ltac:(lia)))).
  set (g2 := unlinked L1 (m_next e) g).
  assert (Hset : set_pre (match last L1 with Some p => Some p | None => None end) (m_next e) g = Ret tt g2).
  { unfold g2, unlinked. destruct (last L1) as [p|] eqn:Ep; [|done].
    destruct (mnt_chain_lookup _ _ _ p (mk_chain _ _ Hg)) as (ep & Hep & _).
    { apply elem_of_app. left. by apply last_Some_elem_of in Ep. }
    cbn. rewrite (updmnt_run g p ep _ Hep). by rewrite (list_alter_Some _ _ _ _ Hep). }
  set (k1 := lset mnt_l g k). assert (Ek1 : k1 = k) by (unfold k1; by destruct k). rewrite Ek1. clear k1 Ek1.
  rewrite (K_bind_Ret _ _ _ _ _ (zoom_Ret mnt_l _ k _ _ Hset)). set (k2 := lset mnt_l g2 k).
  assert (Hrel : release g_lock_l (lget mnt_l k2) = Ret tt g1).
  { unfold k2, g1, g2, unlinked, release. cbn. destruct (last L1); cbn; by rewrite Hl. }
  rewrite (K_bind_Ret _ _ _ _ _ (zoom_Ret mnt_l _ k2 _ _ Hrel)). set (k3 := lset mnt_l g1 k2).
  rewrite (K_bind_Ret _ _ _ _ _ (zoom_Ret ldev_l _ k3 _ _ (devput_run (k_ldev k) _ d Hdev Hdl Hd))). set (k4 := lset ldev_l _ k3).
  rewrite (zoom_Ret mnt_l _ k4 _ _ (updmnt_run g1 m e1 _ He1)). unfold k4, k3, k2. cbn. by destruct k.
Qed.

(** ** Crossing *)

Section crossing.
Context {CP : CurProc} {LO : LoopOps} {DS : DevSw}.

(** From the mount point to the root of the device. *)
Lemma enter_wp k L mp z devno :
  mnt_ok (k_mnt k) L → List.find (at_point mp) (mounts (g_table (k_mnt k)) L) = Some (Some mp, devno) →
  cached mp z k → ic_lock (k_ic k) = false → sl_locked (i_lock z) = false → 2 ≤ i_ref z → i_inum z ≠ ROOTINO →
  wp (cross_mount mp) ["iget: no inodes"%string] (λ r k', ∃ y, r ≠ mp ∧ cached r y k' ∧ i_dev y = devno ∧
    i_inum y = ROOTINO ∧ 0 < i_ref y ∧ cached mp (set_i_ref (i_ref z - 1) (set_i_lock (SleepLock false 0) z)) k' ∧
    k_mnt k' = k_mnt k) k.
Proof.
  intros Hg Hf Hz Hl Hs Hr Hi. unfold cross_mount. pose proof (mntlookup_run (k_mnt k) L mp Hg) as Hm. rewrite Hf in Hm.
  destruct Hm as (m & e & Hrun & He & HmL & Hinfo & Href). injection Hinfo as Emi Edev.
  wp_step (zoom_Ret mnt_l _ k _ _ Hrun). set (g1 := ref_mount m 1 (k_mnt k)). set (k1 := lset mnt_l g1 k).
  assert (He1 : g_table g1 !! m = Some (set_m_refcnt (u32 (m_refcnt e + 1)) e)).
  { unfold g1, ref_mount. cbn. rewrite (list_alter_Some _ _ _ _ He). by apply (insert_lookup _ _ _ _ He). }
  assert (Hget : zoom mnt_l (getmnt m) k1 = Ret (set_m_refcnt (u32 (m_refcnt e + 1)) e) k1).
  { rewrite (zoom_Ret mnt_l (getmnt m) k1 _ g1 (eq_trans (f_equal (λ o, deref o g1) He1) eq_refl)). by destruct k. }
  wp_step Hget. wp_step (iput_run k1 mp z Hz Hl Hs ltac:(lia)). set (k2 := with_inode mp (dropped z) k1).
  assert (Ed : dropped z = set_i_ref (i_ref z - 1) (set_i_lock (SleepLock false 0) z)).
  { unfold dropped. cbn. by rewrite (proj2 (Z.eqb_neq _ _)) by lia. }
  assert (H2 : cached mp (dropped z) k2) by (by apply (cached_with mp z)).
  apply wp_bind. eapply wp_mono; [apply (iget_wp k2 (m_devno e) ROOTINO); [done|left]|].
  intros r k' (w & y & Hw & Hgot & ->). cbn [set_m_refcnt m_devno].
  assert (Hne : r ≠ mp).
  { intros ->. assert (w = dropped z) as -> by (unfold cached in *; congruence). rewrite Ed in Hgot.
    destruct Hgot as [[(_ & _ & E) _]|(E & _)]; cbn in E; [done|lia]. }
  destruct (got_inode _ _ _ _ _ Hgot) as (G1 & G2 & G3).
  wp_step (zoom_Ret mnt_l _ (with_inode r y k2) _ _ (proj2 (mntdup_run g1 m _ (mk_lock _ _ Hg) He1))). apply wp_ret.
  exists y. split; [done|]. split; [by apply (cached_with r w y k2)|]. split_and!; [congruence|done|done| |].
  - apply (cached_other r mp y (set_i_ref (i_ref z - 1) (set_i_lock (SleepLock false 0) z)) k2 Hne). by rewrite <- Ed.
  - cbn. apply (ref_mount_back _ _ e He). lia.
Qed.

(** From the root of the device to the mount point. *)
Lemma leave_run k L r y mp z name :
  mnt_ok (k_mnt k) L → List.find (of_device (i_dev y)) (mounts (g_table (k_mnt k)) L) = Some (Some mp, i_dev y) →
  isloopdev (i_dev y) ≠ 0 → i_inum y = ROOTINO → cached r y k → ic_lock (k_ic k) = false →
  i_lock y = SleepLock true cur_pid → 1 ≤ i_ref y → (i_nlink y = 0 → i_ref y ≠ 1) →
  cached mp z k → r ≠ mp → sl_locked (i_lock z) = false → 0 < i_ref z → i_valid z = true → i_type z = T_DIR →
  readable DIRSIZ name → Forall is_byte name → cut DIRSIZ name = [DOT; DOT] →
  cross_dotdot r name k = Ret mp
    (with_inode mp (set_i_lock (SleepLock true cur_pid) (set_i_ref (i_ref z + 1) z)) (with_inode r (dropped y) k)).
Proof.
  intros Hg Hf Hdev Hroot Hy Hl Hlk Hr1 Hnl Hz Hne Hzl Hzr Hzv Hzt Hrd Hb Hcut. unfold cross_dotdot.
  kstep (inode_of_run k r y Hy). assert (Hlit : readable DIRSIZ [DOT; DOT; 0]) by (right; set_solver).
  assert (Hcmp : namecmp name [DOT; DOT; 0] = Some 0).
  { apply strncmp_cut; [done|done|done| |by rewrite Hcut]. repeat constructor; done. }
  rewrite Hcmp. cbn [deref]. rewrite (K_bind_Ret _ _ k 0 k) by done.
  rewrite (proj2 (Z.eqb_neq _ _) Hdev), (proj2 (Z.eqb_eq _ _) Hroot). cbn [negb andb Z.eqb].
  pose proof (getmntpnt_run (k_mnt k) L (i_dev y) Hg) as Hp. rewrite Hf in Hp. cbn in Hp.
  kstep (zoom_Ret mnt_l _ k _ _ Hp). assert (Ek : lset mnt_l (k_mnt k) k = k) by (by destruct k). rewrite Ek.
  cbn [deref]. rewrite (K_bind_Ret _ _ k mp k) by done. kstep (idup_run k mp z Hz Hl). set (z1 := set_i_ref _ z).
  set (k1 := with_inode mp z1 k). assert (Hy1 : cached r y k1) by (by apply cached_other).
  pose proof (iunlock_run k1 r y Hy1 Hlk Hr1) as Hun.
  kstep Hun. set (y2 := set_i_lock _ y). set (k2 := with_inode r y2 k1). assert (Hy2 : cached r y2 k2) by (by apply (cached_with r y)).
  kstep (iput_run k2 r y2 Hy2 Hl eq_refl ltac:(intros _; exact Hnl)).
  assert (Ed : dropped y2 = dropped y) by done. rewrite Ed. set (k3 := with_inode r (dropped y) k2).
  assert (Hz3 : cached mp z1 k3) by (apply cached_other; [done|]; apply cached_other; [done|]; by apply (cached_with mp z)).
  pose proof (ilock_valid k3 mp z1 Hz3 ltac:(cbn; lia) Hzl Hzv) as Hlock.
  kstep Hlock. set (k4 := with_inode mp _ k3). assert (Hz4 : cached mp (set_i_lock (SleepLock true cur_pid) z1) k4) by (by apply (cached_with mp z1)).
  kstep (inode_of_run k4 mp _ Hz4). change (i_type (set_i_lock _ z1)) with (i_type z). rewrite Hzt. cbn [negb Z.eqb T_DIR].
  unfold mret, K_ret, k4, k3, k2, k1. f_equal. rewrite with_inode_twice, (with_inode_comm r mp) by done.
  apply with_inode_twice.
Qed.

(** ** Properties *)

Lemma free_entry_exists g L : mnt_ok g L → (length L < NMNT)%nat → ∃ m e,
  free_entry (g_table g) 0 = Some m ∧ g_table g !! m = Some e ∧ m_refcnt e = 0.
Proof.
  intros Hg Hlen. pose proof (free_entry_spec (g_table g) 0) as Hf. destruct (free_entry (g_table g) 0) as [m|].
  { destruct Hf as (j & e & -> & Hj & H0). exists j, e. done. }
  exfalso. assert (Hsub : seq 0 NMNT ⊆+ L).
  { apply NoDup_submseteq; [apply NoDup_seq|]. intros m Hm%elem_of_seq. destruct (decide (m ∈ L)); [done|exfalso].
    destruct (lookup_lt_is_Some_2 (g_table g) m) as [e He]; [rewrite (mk_table _ _ Hg); lia|].
    rewrite Forall_forall in Hf. apply (Hf e); [by eapply list_elem_of_lookup_2|]. by apply (mk_free _ _ Hg m). }
  apply submseteq_length in Hsub. rewrite length_seq in Hsub. lia.
Qed.

(** C24: the mount table is a list of mount points and devices, newest first.
    [mntlookup] returns the newest entry of a mount point, with a reference
    that [mntput] gives back; [getmntpnt] the mount point of a device;
    mounting puts the new pair in front of the list, with a reference to the
    mount point, as long as the table has room; unmounting takes out its
    entry, keeps all other mounts and makes the loop device free. *)
Theorem mount_list k L :
  mnt_ok (k_mnt k) L → let M := mounts (g_table (k_mnt k)) L in
  (∀ ip, match List.find (at_point ip) M with
    | None => mntlookup ip (k_mnt k) = Ret None (k_mnt k)
    | Some p => ∃ m g, mntlookup ip (k_mnt k) = Ret (Some m) g ∧ mount_info <$> g_table g !! m = Some p ∧
        mntput m g = Ret tt (k_mnt k)
    end) ∧
  (∀ devno, getmntpnt devno (k_mnt k) = Ret (List.find (of_device devno) M ≫= fst) (k_mnt k)) ∧
  (∀ mnti z devno, cached mnti z k → ic_lock (k_ic k) = false → (length L < NMNT)%nat → ∃ m g,
     add_mount mnti devno k = Ret tt (set_k_mnt g (with_inode mnti (set_i_ref (i_ref z + 1) z) k)) ∧
     mnt_ok g (m :: L) ∧ mounts (g_table g) (m :: L) = (Some mnti, devno) :: M) ∧
  (∀ L1 m L2 e d, L = L1 ++ m :: L2 → g_table (k_mnt k) !! m = Some e → isloopdev (m_devno e) ≠ 0 →
     gl_lock (k_ldev k) = false → gl_table (k_ldev k) !! Z.to_nat (loopdevno (m_devno e)) = Some d → ∃ g l,
     (zoom mnt_l (acquire g_lock_l);; drop_mount m e (g_pmntlist (k_mnt k))) k = Ret tt (set_k_mnt g (set_k_ldev l k)) ∧
     mnt_ok g (L1 ++ L2) ∧ mounts (g_table g) (L1 ++ L2) = mounts (g_table (k_mnt k)) L1 ++ mounts (g_table (k_mnt k)) L2 ∧
     gl_table l !! Z.to_nat (loopdevno (m_devno e)) = Some (set_ld_used false d)).
Proof.
  intros Hg M. split_and!.
  - intros ip. pose proof (mntlookup_run (k_mnt k) L ip Hg) as Hm. fold M in Hm. destruct (List.find _ M) as [p|]; [|done].
    destruct Hm as (m & e & Hrun & He & _ & Hp & Hr). exists m, (ref_mount m 1 (k_mnt k)).
    assert (He1 : g_table (ref_mount m 1 (k_mnt k)) !! m = Some (set_m_refcnt (u32 (m_refcnt e + 1)) e)).
    { unfold ref_mount. cbn. rewrite (list_alter_Some _ _ _ _ He). by apply (insert_lookup _ _ _ _ He). }
    split; [done|]. split; [rewrite He1; by rewrite <- Hp|].
    rewrite (proj2 (mntdup_run (ref_mount m 1 (k_mnt k)) m _ (mk_lock _ _ Hg) He1)). by rewrite (ref_mount_back _ _ e He) by lia.
  - intros devno. by apply getmntpnt_run.
  - intros mnti z devno Hz Hl Hlen. destruct (free_entry_exists _ _ Hg Hlen) as (m & e & Hf & He & H0).
    pose proof (add_mount_run k L mnti z devno Hg Hz Hl) as Ha. rewrite Hf in Ha.
    destruct (pushed_ok _ L m e mnti devno Hg He H0) as (_ & ? & ?). eauto.
  - intros L1 m L2 e d -> He Hdev Hdl Hd. set (k1 := set_k_mnt (set_g_lock true (k_mnt k)) k).
    rewrite (K_bind_Ret _ _ k tt k1).
    2:{ erewrite zoom_Ret; [done|]. unfold acquire. cbn. by rewrite (mk_lock _ _ Hg). }
    destruct (drop_mount_run k1 L1 m L2 e d) as (g' & l' & Hrun & Hok & HM & ->); try done.
    { unfold k1. cbn. assert (E : set_g_lock false (set_g_lock true (k_mnt k)) = k_mnt k); [|by rewrite E].
      pose proof (mk_lock _ _ Hg). destruct (k_mnt k). cbn in *. by subst. }
    eexists _, _. split; [exact Hrun|]. split; [done|]. split.
    + rewrite HM. unfold mounts, k1. cbn. by rewrite omap_app.
    + cbn. by apply (insert_lookup _ _ _ _ Hd).
Qed.

(** C25: path lookup crosses mount points both ways.  At a mount point
    [cross_mount] goes on at the root inode of the mounted device and drops
    the reference to the mount point; the mount table is as before.  At that
    root, the name [..] leads [cross_dotdot] back to the mount point, locked
    and with a new reference, and the root is unlocked and dropped. *)
Theorem mount_crossing k L mp z devno :
  mnt_ok (k_mnt k) L → List.find (at_point mp) (mounts (g_table (k_mnt k)) L) = Some (Some mp, devno) →
  List.find (of_device devno) (mounts (g_table (k_mnt k)) L) = Some (Some mp, devno) → isloopdev devno ≠ 0 →
  cached mp z k → ic_lock (k_ic k) = false → sl_locked (i_lock z) = false → 2 ≤ i_ref z → i_inum z ≠ ROOTINO →
  i_valid z = true → i_type z = T_DIR →
  wp (cross_mount mp) ["iget: no inodes"%string] (λ r k', ∃ y, r ≠ mp ∧ cached r y k' ∧ i_dev y = devno ∧
    i_inum y = ROOTINO ∧ 0 < i_ref y ∧ cached mp (set_i_ref (i_ref z - 1) (set_i_lock (SleepLock false 0) z)) k' ∧
    k_mnt k' = k_mnt k) k ∧
  ∀ r y name, cached r y k → i_dev y = devno → i_inum y = ROOTINO → i_lock y = SleepLock true cur_pid → 1 ≤ i_ref y →
    (i_nlink y = 0 → i_ref y ≠ 1) → readable DIRSIZ name → Forall is_byte name → cut DIRSIZ name = [DOT; DOT] →
    cross_dotdot r name k = Ret mp
      (with_inode mp (set_i_lock (SleepLock true cur_pid) (set_i_ref (i_ref z + 1) z)) (with_inode r (dropped y) k)).
Proof.
  intros Hg H1 H2 Hdev Hz Hl Hs Hr Hi Hv Ht. split; [by eapply enter_wp|].
  intros r y name Hy <- Hroot Hlk Hr1 Hnl Hrd Hb Hcut. eapply leave_run; try done; [|lia].
  intros ->. unfold cached in *. congruence.
Qed.

End crossing.

(** ** Examples *)

#[local] Instance ex_mount_proc : CurProc := {| cur_pid := 1; cur_cwd := 0 |}.
#[local] Instance ex_mount_loop : LoopOps := {| loopdev_read := λ _, nofuel; loopdev_write := λ _, nofuel |}.
#[local] Instance ex_mount_devsw : DevSw := {| devsw_read := λ _, None; devsw_write := λ _, None |}.

(** Loop device 32 is mounted at inode 5, which is entry 0 of the inode cache;
    entry 1 is the root of the device. *)
Definition ex_gmnt : gmntst :=
  match mountinit bss_gmnt with
  | Ret _ g => pushed 1 0 32 g
  | _ => bss_gmnt
  end.
Definition ex_point : inode := Inode ROOTDEV 5 2 (SleepLock false 0) true T_DIR 0 0 1 32 (replicate 13 0).
Definition ex_root : inode := Inode 32 ROOTINO 1 (SleepLock true 1) true T_DIR 0 0 1 32 (replicate 13 0).
Definition ex_mounted : kernel :=
  set_k_ldev (GLoopDev false [LoopDev true (Some 2%nat)])
    (set_k_ic (ICache false ([ex_point; ex_root] ++ replicate 48 bss_inode)) (set_k_mnt ex_gmnt (bss_kernel []))).

Lemma ex_mnt_ok : mnt_ok (k_mnt ex_mounted) [1%nat; 0%nat].
Proof.
  split; [reflexivity|reflexivity| |apply (bool_decide_unpack _); vm_compute; exact I|].
  - split; [reflexivity|]. eexists. split; [reflexivity|]. split; [cbn; lia|].
    split; [reflexivity|]. eexists. split; [reflexivity|]. split; [cbn; lia|]. reflexivity.
  - intros m e Hm Hn. destruct m as [|[|m]]; [set_solver|set_solver|].
    change (replicate 8 (MntEnt 0 None 0 None) !! m = Some e) in Hm. by apply lookup_replicate in Hm as [-> _].
Qed.

Lemma mount_list_witness :
  getmntpnt 32 (k_mnt ex_mounted) = Ret (Some 0%nat) (k_mnt ex_mounted).
Proof. exact (proj1 (proj2 (mount_list ex_mounted _ ex_mnt_ok)) 32). Defined.

Lemma mount_crossing_witness :
  wp (cross_mount 0) ["iget: no inodes"%string] (λ r k', ∃ y, cached r y k' ∧ i_dev y = 32 ∧ i_inum y = ROOTINO) ex_mounted.
Proof.
  assert (Hne : isloopdev 32 ≠ 0) by (vm_compute; discriminate).
  eapply wp_mono; [apply (mount_crossing ex_mounted _ 0 ex_point 32 ex_mnt_ok eq_refl eq_refl Hne eq_refl eq_refl eq_refl)|].
  - cbn. lia.
  - discriminate.
  - reflexivity.
  - reflexivity.
  - intros r k' (y & _ & Hy & Hd & Hi & _). exists y. split; [exact Hy|]. split; [exact Hd|exact Hi].
Defined.
