(* ===== verification/Mkfs.v ===== *)
(** * Mkfs: the image builder mkfs.c

    mkfs.c runs on the build host (a little-endian one here) and writes the
    image of a file system: the image as a list of blocks, and the program's
    globals, are its state.  A failing [assert] and [exit(1)] are [Panic]. *)

From Stdlib Require Import ZArith Lia.
From stdpp Require Import base numbers strings gmap list.
From S2P Require Import Prelude CString Kernel Sleeplock Bio Log MntTable Fs.
Open Scope Z_scope.

Definition NINODES : Z := 200.
Definition ninodeblocks : Z := NINODES / IPB + 1.
Definition nlog : Z := LOGSIZE.

Record mkfs : Type := MkFs {
  mk_img : list (list Z);
  mk_sb : superblock;
  mk_freeinode : Z;
  mk_freeblock : Z;
}.

(** Convert to intel byte order: the value of the bytes stored. *)
Definition xshort (x : Z) : Z := le_val [u8 x; u8 (Z.shiftr x 8)].
Definition xint (x : Z) : Z :=
  le_val [u8 x; u8 (Z.shiftr x 8); u8 (Z.shiftr x 16); u8 (Z.shiftr x 24)].

(** [lseek] and [write] of a block; a write past the end extends the image. *)
Definition wsect (sec : Z) (d : list Z) : K mkfs unit := λ s,
  let i := Z.to_nat sec in
  let img := mk_img s ++ replicate (S i - length (mk_img s)) zero_block in
  Ret tt (MkFs (<[i:=d]> img) (mk_sb s) (mk_freeinode s) (mk_freeblock s)).

Definition rsect (sec : Z) : K mkfs (list Z) := λ s,
  match mk_img s !! Z.to_nat sec with
  | Some d => Ret d s
  | None => Panic "read"
  end.

Definition winode (inum : Z) (x : dinode) : K mkfs unit :=
  sb ← gets mk_sb;
  d ← rsect (IBLOCK inum sb);
  wsect (IBLOCK inum sb) (put_dinode d inum x).

Definition rinode (inum : Z) : K mkfs dinode :=
  sb ← gets mk_sb;
  d ← rsect (IBLOCK inum sb);
  mret (get_dinode d inum).

Definition mk_ialloc (type : Z) : K mkfs Z :=
  inum ← gets mk_freeinode;
  modify (λ s, MkFs (mk_img s) (mk_sb s) (u32 (inum + 1)) (mk_freeblock s));;
  winode inum (DInode (xshort type) 0 0 (xshort 1) (xint 0) (replicate 13 0));;
  mret inum.

(** [freeblock++]. *)
Definition take_block : K mkfs Z := λ s,
  Ret (mk_freeblock s) (MkFs (mk_img s) (mk_sb s) (mk_freeinode s) (u32 (mk_freeblock s + 1))).

Definition mk_balloc (used : Z) : K mkfs unit :=
  if BSIZE * 8 <=? used then panic "assert: used < BSIZE*8" else
  sb ← gets mk_sb;
  wsect (sb_bmapstart sb) (foldl set_bit zero_block (seqZ 0 used)).

(** The block of the file that holds byte [off], allocated when missing. *)
Definition iappend_block (din : dinode) (fbn : Z) : K mkfs (dinode * Z) :=
  if fbn <? NDIRECT then
    a ← deref (d_addrs din !! Z.to_nat fbn);
    if xint a =? 0 then
      f ← take_block;
      mret (DInode (d_type din) (d_major din) (d_minor din) (d_nlink din) (d_size din)
              (<[Z.to_nat fbn:=xint f]> (d_addrs din)), xint (xint f))
    else mret (din, xint a)
  else
    a ← deref (d_addrs din !! Z.to_nat NDIRECT);
    '(din, a) ←
      (if xint a =? 0 then
         f ← take_block;
         mret (DInode (d_type din) (d_major din) (d_minor din) (d_nlink din) (d_size din)
                 (<[Z.to_nat NDIRECT:=xint f]> (d_addrs din)), xint f)
       else mret (din, a));
    ind ← rsect (xint a);
    let j := Z.to_nat (fbn - NDIRECT) in
    if word ind j =? 0 then
      f ← take_block;
      wsect (xint a) (set_word ind j (xint f));;
      mret (din, xint (xint f))
    else mret (din, xint (word ind j)).

(** The loop of [iappend]: [n / BSIZE + 2] rounds are enough for [n] bytes. *)
Fixpoint iappend_loop (fuel : nat) (din : dinode) (p : list Z) (off n : Z) : K mkfs (dinode * Z) :=
  if 0 <? n then
    match fuel with
    | O => nofuel
    | S fuel =>
        let fbn := off / BSIZE in
        if MAXFILE <=? fbn then panic "assert: fbn < MAXFILE" else
        '(din, x) ← iappend_block din fbn;
        let n1 := Z.min n ((fbn + 1) * BSIZE - off) in
        d ← rsect x;
        wsect x (list_inserts (Z.to_nat (off - fbn * BSIZE)) (take (Z.to_nat n1) p) d);;
        iappend_loop fuel din (drop (Z.to_nat n1) p) (off + n1) (n - n1)
    end
  else mret (din, off).

Definition iappend (inum : Z) (p : list Z) : K mkfs unit :=
  din ← rinode inum;
  let n := Z.of_nat (length p) in
  '(din, off) ← iappend_loop (Z.to_nat (n / BSIZE + 2)) din p (xint (d_size din)) n;
  winode inum (DInode (d_type din) (d_major din) (d_minor din) (d_nlink din) (xint off)
                 (d_addrs din)).

(** The entry [(inum, name)] of a directory; [name] is NUL-terminated. *)
Definition mk_dirent (inum : Z) (name : list Z) : K mkfs (list Z) :=
  nm ← deref (strncpy (replicate DIRSIZ 0) name DIRSIZ);
  mret (le_bytes 2 (xshort inum) ++ nm).

(** [while ((cc = read(fd, buf, sizeof(buf))) > 0) iappend(inum, buf, cc);] *)
Fixpoint append_file (fuel : nat) (inum : Z) (contents : list Z) : K mkfs unit :=
  match contents with
  | [] => mret tt
  | _ =>
      match fuel with
      | O => nofuel
      | S fuel =>
          iappend inum (take (Z.to_nat BSIZE) contents);;
          append_file fuel inum (drop (Z.to_nat BSIZE) contents)
      end
  end.

Definition UNDERSCORE : Z := 95.

(** One file of the command line: its name (with its NUL) and contents. *)
Definition add_file (rootino : Z) (f : list Z * list Z) : K mkfs unit :=
  let '(name, contents) := f in
  if bool_decide (SLASH ∈ name) then panic "assert: index(argv[i], '/') == 0" else
  let name := match name with c :: r => if c =? UNDERSCORE then r else name | [] => [] end in
  inum ← mk_ialloc T_FILE;
  de ← mk_dirent inum name;
  iappend rootino de;;
  append_file (length contents) inum contents.

Definition sb_bytes (sb : superblock) : list Z :=
  concat (map (le_bytes 4) [sb_size sb; sb_nblocks sb; sb_ninodes sb; sb_nlog sb;
    sb_logstart sb; sb_inodestart sb; sb_bmapstart sb]).

(** The layout of an image of [fsize] blocks. *)
Definition nbitmap (fsize : Z) : Z := fsize / (BSIZE * 8) + 1.
Definition nmeta (fsize : Z) : Z := 2 + nlog + ninodeblocks + nbitmap fsize.
Definition layout (fsize : Z) : superblock :=
  SuperBlock (xint fsize) (xint (fsize - nmeta fsize)) (xint NINODES) (xint nlog) (xint 2)
    (xint (2 + nlog)) (xint (2 + nlog + ninodeblocks)).

Definition main (is_loopdev_image : bool) (files : list (list Z * list Z)) : K mkfs unit :=
  let fsize := if is_loopdev_image then 100 else FSSIZE in
  modify (λ s, MkFs [] (layout fsize) (mk_freeinode s) (u32 (nmeta fsize)));;
  for_each (seqZ 0 fsize) (λ i, wsect i zero_block);;
  sb ← gets mk_sb;
  wsect 1 (list_inserts 0 (sb_bytes sb) zero_block);;
  rootino ← mk_ialloc T_DIR;
  if negb (rootino =? ROOTINO) then panic "assert: rootino == ROOTINO" else
  de ← mk_dirent rootino [DOT; 0];
  iappend rootino de;;
  de ← mk_dirent rootino [DOT; DOT; 0];
  iappend rootino de;;
  for_each files (add_file rootino);;
  used ← gets mk_freeblock;
  mk_balloc used.

(** The globals before [main]. *)
Definition mkfs0 : mkfs := MkFs [] (SuperBlock 0 0 0 0 0 0 0) 1 0.
