(* ===== verification/Proc.v ===== *)
(** * Proc: processes (proc.c, proc.h) and [unshare] (namespace.c)

    The process table over everything a process reaches: files and the file
    system, memory and namespaces.  One processor runs the process [s_cur].
    A trap frame and a saved context are words of the kernel stack's page, as
    in the code.  [sleep] and [sched] stop at the switch to the scheduler:
    [sched] makes its checks, and what another process does in between is a
    later operation on the state; an operation that would wait is [Blocked]. *)

From Stdlib Require Import ZArith Lia.
From stdpp Require Import base numbers strings gmap list.
From S2P Require Import Prelude CString Memlayout Kalloc Vm Namespace Pipe Kernel Sleeplock Bio Log MntTable.
From S2P Require Import Fs Loopdev File.
Open Scope Z_scope.

(** ** State *)

Definition NPROC : nat := 64.
Definition NOFILE : nat := 16.
Definition KSTACKSIZE : Z := 4096.

Inductive procstate : Type := UNUSED | EMBRYO | SLEEPING | RUNNABLE | RUNNING | ZOMBIE.
#[global] Instance procstate_eq_dec : EqDecision procstate.
Proof. solve_decision. Defined.

(** What a process sleeps on: a process, or another address. *)
Inductive waitchan : Type := ChanProc (p : nat) | ChanAddr (a : Z).
#[global] Instance waitchan_eq_dec : EqDecision waitchan.
Proof. solve_decision. Defined.

(** An entry of [pids]: the namespace and the pid there. *)
Definition pid_entry : Type := option nat * Z.

Record proc : Type := Proc {
  p_sz : Z;
  p_pgdir : Z;
  p_kstack : Z;
  p_state : procstate;
  p_pid : Z;
  p_parent : option nat;
  p_tf : Z;
  p_context : Z;
  p_chan : option waitchan;
  p_killed : bool;
  p_ofile : list (option nat);
  p_cwd : option nat;
  p_name : list Z;
  p_nsproxy : option nat;
  p_child_pid_namespace : option nat;
  p_pids : list pid_entry;
  p_exit_state : Z;
}.

Definition set_p_sz (v : Z) (p : proc) : proc :=
  Proc v (p_pgdir p) (p_kstack p) (p_state p) (p_pid p) (p_parent p) (p_tf p) (p_context p)
      (p_chan p) (p_killed p) (p_ofile p) (p_cwd p) (p_name p) (p_nsproxy p)
      (p_child_pid_namespace p) (p_pids p) (p_exit_state p).
Definition set_p_pgdir (v : Z) (p : proc) : proc :=
  Proc (p_sz p) v (p_kstack p) (p_state p) (p_pid p) (p_parent p) (p_tf p) (p_context p)
      (p_chan p) (p_killed p) (p_ofile p) (p_cwd p) (p_name p) (p_nsproxy p)
      (p_child_pid_namespace p) (p_pids p) (p_exit_state p).
Definition set_p_kstack (v : Z) (p : proc) : proc :=
  Proc (p_sz p) (p_pgdir p) v (p_state p) (p_pid p) (p_parent p) (p_tf p) (p_context p) (p_chan p)
      (p_killed p) (p_ofile p) (p_cwd p) (p_name p) (p_nsproxy p) (p_child_pid_namespace p)
      (p_pids p) (p_exit_state p).
Definition set_p_state (v : procstate) (p : proc) : proc :=
  Proc (p_sz p) (p_pgdir p) (p_kstack p) v (p_pid p) (p_parent p) (p_tf p) (p_context p)
      (p_chan p) (p_killed p) (p_ofile p) (p_cwd p) (p_name p) (p_nsproxy p)
      (p_child_pid_namespace p) (p_pids p) (p_exit_state p).
Definition set_p_pid (v : Z) (p : proc) : proc :=
  Proc (p_sz p) (p_pgdir p) (p_kstack p) (p_state p) v (p_parent p) (p_tf p) (p_context p)
      (p_chan p) (p_killed p) (p_ofile p) (p_cwd p) (p_name p) (p_nsproxy p)
      (p_child_pid_namespace p) (p_pids p) (p_exit_state p).
Definition set_p_parent (v : option nat) (p : proc) : proc :=
  Proc (p_sz p) (p_pgdir p) (p_kstack p) (p_state p) (p_pid p) v (p_tf p) (p_context p) (p_chan p)
      (p_killed p) (p_ofile p) (p_cwd p) (p_name p) (p_nsproxy p) (p_child_pid_namespace p)
      (p_pids p) (p_exit_state p).
Definition set_p_tf (v : Z) (p : proc) : proc :=
  Proc (p_sz p) (p_pgdir p) (p_kstack p) (p_state p) (p_pid p) (p_parent p) v (p_context p)
      (p_chan p) (p_killed p) (p_ofile p) (p_cwd p) (p_name p) (p_nsproxy p)
      (p_child_pid_namespace p) (p_pids p) (p_exit_state p).
Definition set_p_context (v : Z) (p : proc) : proc :=
  Proc (p_sz p) (p_pgdir p) (p_kstack p) (p_state p) (p_pid p) (p_parent p) (p_tf p) v (p_chan p)
      (p_killed p) (p_ofile p) (p_cwd p) (p_name p) (p_nsproxy p) (p_child_pid_namespace p)
      (p_pids p) (p_exit_state p).
Definition set_p_chan (v : option waitchan) (p : proc) : proc :=
  Proc (p_sz p) (p_pgdir p) (p_kstack p) (p_state p) (p_pid p) (p_parent p) (p_tf p) (p_context p)
      v (p_killed p) (p_ofile p) (p_cwd p) (p_name p) (p_nsproxy p) (p_child_pid_namespace p)
      (p_pids p) (p_exit_state p).
Definition set_p_killed (v : bool) (p : proc) : proc :=
  Proc (p_sz p) (p_pgdir p) (p_kstack p) (p_state p) (p_pid p) (p_parent p) (p_tf p) (p_context p)
      (p_chan p) v (p_ofile p) (p_cwd p) (p_name p) (p_nsproxy p) (p_child_pid_namespace p)
      (p_pids p) (p_exit_state p).
Definition set_p_ofile (v : list (option nat)) (p : proc) : proc :=
  Proc (p_sz p) (p_pgdir p) (p_kstack p) (p_state p) (p_pid p) (p_parent p) (p_tf p) (p_context p)
      (p_chan p) (p_killed p) v (p_cwd p) (p_name p) (p_nsproxy p) (p_child_pid_namespace p)
      (p_pids p) (p_exit_state p).
Definition set_p_cwd (v : option nat) (p : proc) : proc :=
  Proc (p_sz p) (p_pgdir p) (p_kstack p) (p_state p) (p_pid p) (p_parent p) (p_tf p) (p_context p)
      (p_chan p) (p_killed p) (p_ofile p) v (p_name p) (p_nsproxy p) (p_child_pid_namespace p)
      (p_pids p) (p_exit_state p).
Definition set_p_name (v : list Z) (p : proc) : proc :=
  Proc (p_sz p) (p_pgdir p) (p_kstack p) (p_state p) (p_pid p) (p_parent p) (p_tf p) (p_context p)
      (p_chan p) (p_killed p) (p_ofile p) (p_cwd p) v (p_nsproxy p) (p_child_pid_namespace p)
      (p_pids p) (p_exit_state p).
Definition set_p_nsproxy (v : option nat) (p : proc) : proc :=
  Proc (p_sz p) (p_pgdir p) (p_kstack p) (p_state p) (p_pid p) (p_parent p) (p_tf p) (p_context p)
      (p_chan p) (p_killed p) (p_ofile p) (p_cwd p) (p_name p) v (p_child_pid_namespace p)
      (p_pids p) (p_exit_state p).
Definition set_p_child_pid_namespace (v : option nat) (p : proc) : proc :=
  Proc (p_sz p) (p_pgdir p) (p_kstack p) (p_state p) (p_pid p) (p_parent p) (p_tf p) (p_context p)
      (p_chan p) (p_killed p) (p_ofile p) (p_cwd p) (p_name p) (p_nsproxy p) v (p_pids p)
      (p_exit_state p).
Definition set_p_pids (v : list pid_entry) (p : proc) : proc :=
  Proc (p_sz p) (p_pgdir p) (p_kstack p) (p_state p) (p_pid p) (p_parent p) (p_tf p) (p_context p)
      (p_chan p) (p_killed p) (p_ofile p) (p_cwd p) (p_name p) (p_nsproxy p)
      (p_child_pid_namespace p) v (p_exit_state p).
Definition set_p_exit_state (v : Z) (p : proc) : proc :=
  Proc (p_sz p) (p_pgdir p) (p_kstack p) (p_state p) (p_pid p) (p_parent p) (p_tf p) (p_context p)
      (p_chan p) (p_killed p) (p_ofile p) (p_cwd p) (p_name p) (p_nsproxy p)
      (p_child_pid_namespace p) (p_pids p) v.

(** The kernel: [s_cur] is [mycpu()->proc]; [s_cr3] and [s_esp0] are what
    [switchuvm] and [switchkvm] load; [s_first] is the flag of [forkret];
    [s_ticks] is the clock of trap.c. *)
Record state : Type := State {
  s_sys : sys;
  s_pt_lock : bool;
  s_proc : list proc;
  s_nextpid : Z;
  s_initproc : option nat;
  s_ns : nstate;
  s_cur : option nat;
  s_kpgdir : Z;
  s_cr3 : Z;
  s_esp0 : Z;
  s_first : bool;
  s_tickslock : bool;
  s_ticks : Z;
}.
Definition set_s_sys (v : sys) (s : state) : state :=
  State v (s_pt_lock s) (s_proc s) (s_nextpid s) (s_initproc s) (s_ns s) (s_cur s) (s_kpgdir s)
    (s_cr3 s) (s_esp0 s) (s_first s) (s_tickslock s) (s_ticks s).
Definition set_s_pt_lock (v : bool) (s : state) : state :=
  State (s_sys s) v (s_proc s) (s_nextpid s) (s_initproc s) (s_ns s) (s_cur s) (s_kpgdir s)
    (s_cr3 s) (s_esp0 s) (s_first s) (s_tickslock s) (s_ticks s).
Definition set_s_proc (v : list proc) (s : state) : state :=
  State (s_sys s) (s_pt_lock s) v (s_nextpid s) (s_initproc s) (s_ns s) (s_cur s) (s_kpgdir s)
    (s_cr3 s) (s_esp0 s) (s_first s) (s_tickslock s) (s_ticks s).
Definition set_s_nextpid (v : Z) (s : state) : state :=
  State (s_sys s) (s_pt_lock s) (s_proc s) v (s_initproc s) (s_ns s) (s_cur s) (s_kpgdir s)
    (s_cr3 s) (s_esp0 s) (s_first s) (s_tickslock s) (s_ticks s).
Definition set_s_initproc (v : option nat) (s : state) : state :=
  State (s_sys s) (s_pt_lock s) (s_proc s) (s_nextpid s) v (s_ns s) (s_cur s) (s_kpgdir s)
    (s_cr3 s) (s_esp0 s) (s_first s) (s_tickslock s) (s_ticks s).
Definition set_s_ns (v : nstate) (s : state) : state :=
  State (s_sys s) (s_pt_lock s) (s_proc s) (s_nextpid s) (s_initproc s) v (s_cur s) (s_kpgdir s)
    (s_cr3 s) (s_esp0 s) (s_first s) (s_tickslock s) (s_ticks s).
Definition set_s_cur (v : option nat) (s : state) : state :=
  State (s_sys s) (s_pt_lock s) (s_proc s) (s_nextpid s) (s_initproc s) (s_ns s) v (s_kpgdir s)
    (s_cr3 s) (s_esp0 s) (s_first s) (s_tickslock s) (s_ticks s).
Definition set_s_kpgdir (v : Z) (s : state) : state :=
  State (s_sys s) (s_pt_lock s) (s_proc s) (s_nextpid s) (s_initproc s) (s_ns s) (s_cur s) v
    (s_cr3 s) (s_esp0 s) (s_first s) (s_tickslock s) (s_ticks s).
Definition set_s_cr3 (v : Z) (s : state) : state :=
  State (s_sys s) (s_pt_lock s) (s_proc s) (s_nextpid s) (s_initproc s) (s_ns s) (s_cur s)
    (s_kpgdir s) v (s_esp0 s) (s_first s) (s_tickslock s) (s_ticks s).
Definition set_s_esp0 (v : Z) (s : state) : state :=
  State (s_sys s) (s_pt_lock s) (s_proc s) (s_nextpid s) (s_initproc s) (s_ns s) (s_cur s)
    (s_kpgdir s) (s_cr3 s) v (s_first s) (s_tickslock s) (s_ticks s).
Definition set_s_first (v : bool) (s : state) : state :=
  State (s_sys s) (s_pt_lock s) (s_proc s) (s_nextpid s) (s_initproc s) (s_ns s) (s_cur s)
    (s_kpgdir s) (s_cr3 s) (s_esp0 s) v (s_tickslock s) (s_ticks s).
Definition set_s_tickslock (v : bool) (s : state) : state :=
  State (s_sys s) (s_pt_lock s) (s_proc s) (s_nextpid s) (s_initproc s) (s_ns s) (s_cur s)
    (s_kpgdir s) (s_cr3 s) (s_esp0 s) (s_first s) v (s_ticks s).
Definition set_s_ticks (v : Z) (s : state) : state :=
  State (s_sys s) (s_pt_lock s) (s_proc s) (s_nextpid s) (s_initproc s) (s_ns s) (s_cur s)
    (s_kpgdir s) (s_cr3 s) (s_esp0 s) (s_first s) (s_tickslock s) v.

Definition sys_l : lens state sys := Lens s_sys set_s_sys.
Definition ptable_l : lens state bool := Lens s_pt_lock set_s_pt_lock.
Definition ticks_l : lens state bool := Lens s_tickslock set_s_tickslock.
Definition ns_l : lens state nstate := Lens s_ns set_s_ns.
#[global] Instance sys_l_laws : LensLaws sys_l.
Proof. split; by intros; try destruct s. Qed.
#[global] Instance ptable_l_laws : LensLaws ptable_l.
Proof. split; by intros; try destruct s. Qed.
#[global] Instance ns_l_laws : LensLaws ns_l.
Proof. split; by intros; try destruct s. Qed.

(** What the loader leaves in an entry of the process table. *)
Definition bss_proc : proc :=
  Proc 0 0 0 UNUSED 0 None 0 0 None false (replicate NOFILE None) None (replicate 16 0) None None
    (replicate PID_NAMESPACE_MAX_DEPTH (None, 0)) 0.

(** Addresses of code, and the program of the first process: symbols of the
    linked kernel. *)
Class Code : Type := {
  trapret_addr : Z;
  forkret_addr : Z;
  initcode : list Z;
}.

Section proc.
Context {LK : Linker} {CD : Code} {DS : DevSw}.

(** ** Access *)

Definition getproc (p : nat) : K state proc :=
  o ← gets (λ s, s_proc s !! p);
  deref o.
Definition updproc (p : nat) (f : proc → proc) : K state unit :=
  modify (λ s, set_s_proc (alter f p (s_proc s)) s).

(** [myproc()]; the uses of it here read the process. *)
Definition myproc : K state nat :=
  o ← gets s_cur;
  deref o.

Definition in_mem {A} (m : K kmem A) : K state A := zoom sys_l (zoom km_l m).
Definition in_files {A} (m : K sys A) : K state A := zoom sys_l m.

(** The running process as the file system sees it.  With no process, or no
    current directory, the inode is one outside the cache. *)
Definition cur_of (s : state) : CurProc :=
  match s_cur s ≫= λ p, s_proc s !! p with
  | Some x => {| cur_pid := p_pid x; cur_cwd := default NINODE (p_cwd x) |}
  | None => {| cur_pid := 0; cur_cwd := NINODE |}
  end.

(** File-system code run by that process.  A loop device is backed by a file
    of the root device, so devices nest at most twice. *)
Definition in_fs {A} (m : ∀ (CP : CurProc) (LO : LoopOps), K kernel A) : K state A := λ s,
  zoom sys_l (zoom k_l (m (cur_of s) (@loop_ops (cur_of s) DS 2))) s.
Definition in_file {A} (m : ∀ (CP : CurProc) (LO : LoopOps), K sys A) : K state A := λ s,
  zoom sys_l (m (cur_of s) (@loop_ops (cur_of s) DS 2)) s.

(** A word of memory. *)
Definition page_of (a : Z) : Z := a - a mod PGSIZE.
Definition word_of (a : Z) : nat := Z.to_nat (a mod PGSIZE / 4).
Definition read_word (a : Z) : K kmem Z := read_pte (page_of a, a mod PGSIZE / 4).
Definition write_word (a x : Z) : K kmem unit := write_pte (page_of a, a mod PGSIZE / 4) x.

(** The trap frame's words, by field (x86.h). *)
Definition TF_SIZE : Z := 76.
Definition TF_EAX : Z := 28.
Definition TF_ES : Z := 40.
Definition TF_DS : Z := 44.
Definition TF_EIP : Z := 56.
Definition TF_CS : Z := 60.
Definition TF_EFLAGS : Z := 64.
Definition TF_ESP : Z := 68.
Definition TF_SS : Z := 72.
Definition CONTEXT_SIZE : Z := 20.
Definition CONTEXT_EIP : Z := 16.

(** [*dst = *src] for trap frames: [n] words. *)
Fixpoint copy_words (n : nat) (dst src : Z) : K kmem unit :=
  match n with
  | O => mret tt
  | S n =>
      x ← read_word src;
      write_word dst x;;
      copy_words n (dst + 4) (src + 4)
  end.
(** [memset(a, 0, 4 * n)]. *)
Fixpoint zero_words (n : nat) (a : Z) : K kmem unit :=
  match n with
  | O => mret tt
  | S n => write_word a 0;; zero_words n (a + 4)
  end.

(** ** Pids *)

(** The loop of [get_namespace_pid]. *)
Fixpoint find_pid (l : list pid_entry) (ns : option nat) : Z :=
  match l with
  | [] => 0
  | (n, pid) :: l => if decide (n = ns) then pid else find_pid l ns
  end.
Definition get_namespace_pid (x : proc) (ns : option nat) : Z :=
  find_pid (take PID_NAMESPACE_MAX_DEPTH (p_pids x)) ns.

(** [p->nsproxy->pid_ns]. *)
Definition pid_ns_of (x : proc) : K state (option nat) :=
  n ← deref (p_nsproxy x);
  y ← zoom ns_l (getns n);
  mret (ns_pid_ns y).

Definition proc_pid (p : nat) : K state Z :=
  x ← getproc p;
  c ← myproc;
  y ← getproc c;
  ns ← pid_ns_of y;
  mret (get_namespace_pid x ns).

Definition pinit : K state unit := modify (set_s_pt_lock false).

Definition init_pids0 (p : nat) : K state unit :=
  x ← getproc p;
  ns ← pid_ns_of x;
  updproc p (λ x, set_p_pids (<[0%nat:=(ns, p_pid x)]> (p_pids x)) x).

(** The loop of [set_up_pids] from entry [i]: the namespace it ends with. *)
Fixpoint set_up_pids_loop (fuel i p : nat) (ns : nat) : K state (option nat) :=
  match fuel with
  | O => mret (Some ns)
  | S fuel =>
      pid ← zoom ns_l (alloc_new_pid ns);
      updproc p (λ x, set_p_pids (<[i:=(Some ns, pid)]> (p_pids x)) x);;
      y ← zoom ns_l (getpidns ns);
      match pn_parent y with
      | None => mret None
      | Some parent => set_up_pids_loop fuel (S i) p parent
      end
  end.
Definition set_up_pids (p ns : nat) : K state unit :=
  r ← set_up_pids_loop PID_NAMESPACE_MAX_DEPTH 0 p ns;
  match r with
  | None => mret tt
  | Some _ => panic "fork: There are too many nested pid_namespaces!"
  end.

(** ** Creating processes *)

(** The first unused entry. *)
Fixpoint unused_proc (i : nat) (l : list proc) : option nat :=
  match l with
  | [] => None
  | x :: l => if decide (p_state x = UNUSED) then Some i else unused_proc (S i) l
  end.

Definition allocproc : K state (option nat) :=
  acquire ptable_l;;
  l ← gets s_proc;
  match unused_proc 0 l with
  | None =>
      release ptable_l;;
      mret None
  | Some p =>
      updproc p (set_p_state EMBRYO);;
      pid ← gets s_nextpid;
      updproc p (set_p_pid pid);;
      modify (set_s_nextpid (s32 (pid + 1)));;
      release ptable_l;;
      kstack ← in_mem kalloc;
      updproc p (set_p_kstack kstack);;
      if kstack =? 0 then
        updproc p (set_p_state UNUSED);;
        mret None
      else
        let sp := kstack + KSTACKSIZE - TF_SIZE in
        updproc p (set_p_tf sp);;
        let sp := sp - 4 in
        in_mem (write_word sp trapret_addr);;
        let sp := sp - CONTEXT_SIZE in
        updproc p (set_p_context sp);;
        in_mem (zero_words 5 sp);;
        in_mem (write_word (sp + CONTEXT_EIP) forkret_addr);;
        mret (Some p)
  end.

Definition SEG_UCODE : Z := 3.
Definition SEG_UDATA : Z := 4.
Definition DPL_USER : Z := 3.
Definition FL_IF : Z := 0x200.
Definition UCODE : Z := Z.lor (Z.shiftl SEG_UCODE 3) DPL_USER.
Definition UDATA : Z := Z.lor (Z.shiftl SEG_UDATA 3) DPL_USER.

(** ["initcode"] and ["/"], with their NULs. *)
Definition initcode_name : list Z := [105; 110; 105; 116; 99; 111; 100; 101; 0].
Definition root_path : list Z := [SLASH; 0].

Definition userinit : K state unit :=
  o ← allocproc;
  modify (set_s_initproc o);;
  p ← deref o;
  pgdir ← in_mem setupkvm;
  updproc p (set_p_pgdir pgdir);;
  if pgdir =? 0 then panic "userinit: out of memory?" else
  in_mem (inituvm pgdir initcode);;
  updproc p (set_p_sz PGSIZE);;
  x ← getproc p;
  let tf := p_tf x in
  in_mem (zero_words 19 tf);;
  in_mem (write_word (tf + TF_CS) UCODE);;
  in_mem (write_word (tf + TF_DS) UDATA);;
  in_mem (write_word (tf + TF_ES) UDATA);;
  in_mem (write_word (tf + TF_SS) UDATA);;
  in_mem (write_word (tf + TF_EFLAGS) FL_IF);;
  in_mem (write_word (tf + TF_ESP) PGSIZE);;
  in_mem (write_word (tf + TF_EIP) 0);;
  name ← deref (safestrcpy (p_name x) initcode_name 16);
  updproc p (set_p_name name);;
  cwd ← in_fs (λ CP LO, namei root_path);
  updproc p (set_p_cwd cwd);;
  n ← zoom ns_l (create_nsproxy None true);
  updproc p (set_p_nsproxy (Some n));;
  x ← getproc p;
  ns ← pid_ns_of x;
  ns ← deref ns;
  pid ← zoom ns_l (alloc_new_pid ns);
  updproc p (set_p_pid pid);;
  init_pids0 p;;
  acquire ptable_l;;
  updproc p (set_p_state RUNNABLE);;
  release ptable_l.

(** [switchuvm(p)] (vm.c): the checks, and the stack and page table loaded. *)
Definition switchuvm (p : nat) : K state unit :=
  x ← getproc p;
  if p_kstack x =? 0 then panic "switchuvm: no kstack" else
  if p_pgdir x =? 0 then panic "switchuvm: no pgdir" else
  modify (set_s_esp0 (u32 (p_kstack x + KSTACKSIZE)));;
  modify (set_s_cr3 (V2P (p_pgdir x))).

Definition growproc (n : Z) : K state Z :=
  c ← myproc;
  x ← getproc c;
  let sz := p_sz x in
  sz ← (if 0 <? n then in_mem (allocuvm (p_pgdir x) sz (u32 (sz + n)))
        else if n <? 0 then in_mem (deallocuvm (p_pgdir x) sz (u32 (sz + n)))
        else mret sz);
  if negb (n =? 0) && (sz =? 0) then mret (-1) else
  updproc c (set_p_sz sz);;
  switchuvm c;;
  mret 0.

Definition set_up_child_pid_namespace (cur new : nat) : K state nat :=
  x ← getproc cur;
  match p_child_pid_namespace x with
  | Some ns =>
      n ← zoom ns_l (create_nsproxy (Some ns) true);
      updproc new (set_p_nsproxy (Some n));;
      mret ns
  | None =>
      n ← deref (p_nsproxy x);
      zoom ns_l (get_nsproxy n);;
      updproc new (set_p_nsproxy (Some n));;
      y ← getproc new;
      ns ← pid_ns_of y;
      deref ns
  end.

(** The loop of [fork] over the open files. *)
Fixpoint dup_files (fd : nat) (l : list (option nat)) (new : nat) : K state unit :=
  match l with
  | [] => mret tt
  | None :: l => dup_files (S fd) l new
  | Some f :: l =>
      g ← in_files (zoom ft_l (filedup f));
      updproc new (λ x, set_p_ofile (<[fd:=Some g]> (p_ofile x)) x);;
      dup_files (S fd) l new
  end.

(** The parts of [fork] after the memory is copied: the trap frame; the files,
    the directory and the name; the pids. *)
Definition fork_frame (np : nat) (x : proc) : K state unit :=
  y ← getproc np;
  in_mem (copy_words 19 (p_tf y) (p_tf x));;
  in_mem (write_word (p_tf y + TF_EAX) 0).
Definition fork_files (np : nat) (x : proc) : K state unit :=
  dup_files 0 (p_ofile x) np;;
  cwd ← deref (p_cwd x);
  cwd ← in_fs (λ CP LO, zoom ic_l (idup cwd));
  updproc np (set_p_cwd (Some cwd));;
  y ← getproc np;
  name ← deref (safestrcpy (p_name y) (p_name x) 16);
  updproc np (set_p_name name).
Definition fork_pids (c np : nat) : K state Z :=
  ns ← set_up_child_pid_namespace c np;
  set_up_pids np ns;;
  y ← getproc np;
  e ← deref (p_pids y !! 0%nat);
  updproc np (set_p_pid e.2);;
  x ← getproc c;
  ns ← pid_ns_of x;
  y ← getproc np;
  mret (get_namespace_pid y ns).

Definition fork : K state Z :=
  c ← myproc;
  o ← allocproc;
  match o with
  | None => mret (-1)
  | Some np =>
      x ← getproc c;
      pgdir ← in_mem (copyuvm (p_pgdir x) (p_sz x));
      updproc np (set_p_pgdir pgdir);;
      if pgdir =? 0 then
        y ← getproc np;
        in_mem (kfree (p_kstack y));;
        updproc np (set_p_kstack 0);;
        updproc np (set_p_state UNUSED);;
        mret (-1)
      else
        updproc np (set_p_sz (p_sz x));;
        updproc np (set_p_parent (Some c));;
        fork_frame np x;;
        fork_files np x;;
        pid ← fork_pids c np;
        acquire ptable_l;;
        updproc np (set_p_state RUNNABLE);;
        release ptable_l;;
        mret pid
  end.

(** ** Sleeping, waking and scheduling *)

(** The spin locks the processor holds, which is what [ncli] counts. *)
Definition locks (s : state) : list bool :=
  let k := s_k (s_sys s) in
  [s_pt_lock s; nt_lock (s_ns s); pt_lock (s_ns s); ft_lock (s_ft (s_sys s)); km_lock (s_km (s_sys s));
   bc_lock (k_bc k); ic_lock (k_ic k); log_lock (k_log k); log_lock (k_loop_log k); gl_lock (k_ldev k);
   g_lock (k_mnt k); s_tickslock s] ++
  map pn_lock (pt_pid_namespaces (s_ns s)) ++
  map (λ e : Z * pipe, Pipe.p_lock e.2) (map_to_list (s_pipes (s_sys s))).
Definition ncli (s : state) : Z := foldr (λ b n, Z.b2z b + n) 0 (locks s).

(** [sched], up to the switch: interrupts are off while a lock is held. *)
Definition sched : K state unit :=
  c ← myproc;
  x ← getproc c;
  held ← gets s_pt_lock;
  if negb held then panic "sched ptable.lock" else
  n ← gets ncli;
  if negb (n =? 1) then panic "sched locks" else
  if decide (p_state x = RUNNING) then panic "sched running" else
  mret tt.

(** [switchkvm()] (vm.c). *)
Definition switchkvm : K state unit :=
  v ← gets s_kpgdir;
  modify (set_s_cr3 (V2P v)).
Definition kvmalloc : K state unit :=
  v ← in_mem setupkvm;
  modify (set_s_kpgdir v);;
  switchkvm.

(** [scheduler] switches to process [p], with [ptable.lock]; and goes on when
    [p] has given the processor back. *)
Definition switch_to (p : nat) : K state unit :=
  modify (set_s_cur (Some p));;
  switchuvm p;;
  updproc p (set_p_state RUNNING).
Definition switch_back : K state unit :=
  switchkvm;;
  modify (set_s_cur None).

(** A round of the endless loop of [scheduler]; [run p] is what process [p]
    does from the switch to it to its call of [sched]. *)
Definition scheduler_round (run : nat → K state unit) : K state unit :=
  acquire ptable_l;;
  for_each (seq 0 NPROC) (λ p,
    x ← getproc p;
    if decide (p_state x = RUNNABLE) then
      switch_to p;;
      run p;;
      switch_back
    else mret tt);;
  release ptable_l.

(** [yield], up to the switch and after it. *)
Definition yield : K state unit :=
  acquire ptable_l;;
  c ← myproc;
  updproc c (set_p_state RUNNABLE);;
  sched.
Definition yield_return : K state unit := release ptable_l.

(** [sleep(chan, lk)], up to the switch; [None] is [&ptable.lock]. *)
Definition sleep (chan : option waitchan) (lk : option (lens state bool)) : K state unit :=
  o ← gets s_cur;
  match o with
  | None => panic "sleep"
  | Some c =>
      (match lk with
       | None => mret tt
       | Some l => acquire ptable_l;; release l
       end);;
      updproc c (set_p_chan chan);;
      updproc c (set_p_state SLEEPING);;
      sched
  end.
(** The rest of [sleep], when the process runs again with [ptable.lock]. *)
Definition sleep_return (lk : option (lens state bool)) : K state unit :=
  c ← myproc;
  updproc c (set_p_chan None);;
  match lk with
  | None => mret tt
  | Some l =>
      release ptable_l;;
      acquire l
  end.

Definition wake_one (chan : option waitchan) (x : proc) : proc :=
  if decide (p_state x = SLEEPING ∧ p_chan x = chan) then set_p_state RUNNABLE x else x.
Definition wakeup1 (chan : option waitchan) : K state unit :=
  modify (λ s, set_s_proc (wake_one chan <$> s_proc s) s).
Definition wakeup (chan : option waitchan) : K state unit :=
  acquire ptable_l;;
  wakeup1 chan;;
  release ptable_l.

Definition forkret : K state unit :=
  release ptable_l;;
  b ← gets s_first;
  if b : bool then
    modify (set_s_first false);;
    in_fs (λ CP LO, iinit ROOTDEV);;
    in_fs (λ CP LO, initlog ROOTDEV)
  else mret tt.

(** ** Ending processes *)

Definition kill_process (p : nat) (new_parent : option nat) : K state unit :=
  updproc p (set_p_killed true);;
  updproc p (set_p_parent new_parent);;
  updproc p (λ x, if decide (p_state x = SLEEPING) then set_p_state RUNNABLE x else x).

(** The loop of [exit] over the open files. *)
Definition close_fd (c fd : nat) : K state unit :=
  x ← getproc c;
  match p_ofile x !! fd with
  | Some (Some f) =>
      in_file (λ CP LO, fileclose f);;
      updproc c (λ x, set_p_ofile (<[fd:=None]> (p_ofile x)) x)
  | _ => mret tt
  end.

(** The last process whose pid in [ns] is 1. *)
Fixpoint find_pid_1 (i : nat) (l : list proc) (ns : option nat) (found : option nat) : option nat :=
  match l with
  | [] => found
  | x :: l => find_pid_1 (S i) l ns (if get_namespace_pid x ns =? 1 then Some i else found)
  end.

(** The body of the loop of [exit] of a process with pid 1. *)
Definition kill_in_namespace (c : nat) (ns : option nat) (parent : option nat) (p : nat) : K state unit :=
  if decide (p = c) then mret tt else
  x ← getproc p;
  n ← pid_ns_of x;
  if decide (n = ns) then kill_process p parent else mret tt.

(** The body of the loop that passes children to the process with pid 1. *)
Definition pass_child (c : nat) (init pid1 : option nat) (p : nat) : K state unit :=
  x ← getproc p;
  if decide (p_parent x = Some c) then
    updproc p (set_p_parent pid1);;
    if decide (p_state x = ZOMBIE) then wakeup1 (ChanProc <$> init) else mret tt
  else mret tt.

(** [exit], up to the switch to the scheduler that never returns. *)
Definition exit (exit_state : Z) : K state unit :=
  c ← myproc;
  updproc c (set_p_exit_state exit_state);;
  init ← gets s_initproc;
  if decide (init = Some c) then panic "init exiting" else
  for_each (seq 0 NOFILE) (close_fd c);;
  in_fs (λ CP LO, begin_op);;
  x ← getproc c;
  cwd ← deref (p_cwd x);
  in_fs (λ CP LO, iput cwd);;
  in_fs (λ CP LO, end_op);;
  updproc c (set_p_cwd None);;
  x ← getproc c;
  ns ← pid_ns_of x;
  l ← gets s_proc;
  let pid1 := find_pid_1 0 l ns None in
  n ← deref ns;
  y ← zoom ns_l (getpidns n);
  if bool_decide (pid1 = None) && negb (pn_is_pid_1_killed y)
  then panic "can not find process with pid 1 in target namespace" else
  proxy ← deref (p_nsproxy x);
  zoom ns_l (put_nsproxy proxy);;
  acquire ptable_l;;
  wakeup1 (ChanProc <$> p_parent x);;
  (if p_pid x =? 1 then
     for_each (seq 0 NPROC) (kill_in_namespace c ns (p_parent x));;
     zoom ns_l (updpidns n (set_pn_is_pid_1_killed true))
   else
     for_each (seq 0 NPROC) (pass_child c init pid1));;
  (match p_child_pid_namespace x with
   | Some child => zoom ns_l (remove_from_pid_namespace child)
   | None => mret tt
   end);;
  updproc c (set_p_state ZOMBIE);;
  sched.

(** What [wait] does with an exited child: its pid for the caller. *)
Definition reap (p : nat) (ns : option nat) : K state Z :=
  x ← getproc p;
  let pid := get_namespace_pid x ns in
  in_mem (kfree (p_kstack x));;
  updproc p (set_p_kstack 0);;
  in_mem (freevm (p_pgdir x));;
  updproc p (λ x, set_p_exit_state 0 (set_p_child_pid_namespace None
    (set_p_name (<[0%nat:=0]> (p_name x)) (set_p_state UNUSED (set_p_killed false (set_p_parent None
    (set_p_pids (replicate PID_NAMESPACE_MAX_DEPTH (None, 0)) (set_p_pid 0 x))))))));;
  release ptable_l;;
  mret pid.

(** The scan of [wait]: an exited child, and whether there are children. *)
Fixpoint find_zombie (i : nat) (l : list proc) (c : nat) (havekids : bool) : option nat * bool :=
  match l with
  | [] => (None, havekids)
  | x :: l =>
      if decide (p_parent x = Some c) then
        if decide (p_state x = ZOMBIE) then (Some i, true) else find_zombie (S i) l c true
      else find_zombie (S i) l c havekids
  end.

(** A round of the loop of [wait], with [ptable.lock]: the result, or [None]
    when the process goes to sleep. *)
Definition wait_round (c : nat) : K state (option Z) :=
  l ← gets s_proc;
  let '(z, havekids) := find_zombie 0 l c false in
  match z with
  | Some p =>
      x ← getproc c;
      ns ← pid_ns_of x;
      r ← reap p ns;
      mret (Some r)
  | None =>
      x ← getproc c;
      if negb havekids || p_killed x then
        release ptable_l;;
        mret (Some (-1))
      else
        sleep (Some (ChanProc c)) None;;
        mret None
  end.
Definition wait : K state (option Z) :=
  c ← myproc;
  acquire ptable_l;;
  wait_round c.
(** [wait] after a sleep. *)
Definition wait_again : K state (option Z) :=
  sleep_return None;;
  c ← myproc;
  wait_round c.

Fixpoint find_ns_pid (i : nat) (l : list proc) (ns : option nat) (pid : Z) : option nat :=
  match l with
  | [] => None
  | x :: l => if get_namespace_pid x ns =? pid then Some i else find_ns_pid (S i) l ns pid
  end.
Definition kill (pid : Z) : K state Z :=
  acquire ptable_l;;
  c ← myproc;
  x ← getproc c;
  ns ← pid_ns_of x;
  l ← gets s_proc;
  match find_ns_pid 0 l ns pid with
  | Some p =>
      y ← getproc p;
      kill_process p (p_parent y);;
      release ptable_l;;
      mret 0
  | None =>
      release ptable_l;;
      mret (-1)
  end.

(** ** [unshare] (namespace.c) *)

Definition unshare (flags : Z) : K state Z :=
  zoom ns_l (acquire nt_lock_l);;
  c ← myproc;
  x ← getproc c;
  old ← deref (p_nsproxy x);
  o ← zoom ns_l (getns old);
  if ns_count o <? 1 then panic "assert fails. namespace.c: 86" else
  n ← zoom ns_l (create_nsproxy (ns_pid_ns o) false);
  updproc c (set_p_nsproxy (Some n));;
  zoom ns_l (release nt_lock_l);;
  zoom ns_l (put_nsproxy old);;
  if 0 <? Z.land flags PID_NS then
    x ← getproc c;
    match p_child_pid_namespace x with
    | Some _ => panic "pid_namespace already unshared"
    | None =>
        ns ← pid_ns_of x;
        ns ← deref ns;
        ok ← zoom ns_l (check_is_pid_namespace_legal ns);
        if negb ok then panic "no depth available for new child pid_namespace" else
        child ← zoom ns_l (create_new_pid_namespace (Some ns));
        updproc c (set_p_child_pid_namespace (Some child));;
        mret 0
    end
  else mret 0.

End proc.
