(* ===== verification/Userarg.v ===== *)
(** * Userarg: system call arguments (syscall.c)

    The kernel reads and writes the memory of the running process through its
    page table: an address is translated by the page directory of the process
    and the bytes are those of the page.  The strings a pointer denotes are
    lists of characters with their NUL. *)

From Stdlib Require Import ZArith Lia.
From stdpp Require Import base numbers strings gmap list.
From S2P Require Import Prelude Memlayout Kalloc Vm Kernel Fs File Proc.
Open Scope Z_scope.

Section userarg.
Context {LK : Linker}.

(** ** User memory *)

(** The page that holds the address [a] of the running process. *)
Definition user_page (a : Z) : K state Z :=
  c ← myproc;
  x ← getproc c;
  pte ← in_mem (walkpgdir (p_pgdir x) a false);
  pte ← deref pte;
  e ← in_mem (read_pte pte);
  if present e then mret (P2V (PTE_ADDR e)) else fault.

Definition load_byte (a : Z) : K state Z :=
  v ← user_page a;
  d ← in_mem (read_page v);
  deref (d !! Z.to_nat (a mod PGSIZE)).
Definition store_byte (a b : Z) : K state unit :=
  v ← user_page a;
  d ← in_mem (read_page v);
  in_mem (write_page v (<[Z.to_nat (a mod PGSIZE):=b]> d)).

Fixpoint load_bytes (n : nat) (a : Z) : K state (list Z) :=
  match n with
  | O => mret []
  | S n =>
      b ← load_byte a;
      l ← load_bytes n (a + 1);
      mret (b :: l)
  end.
Fixpoint store_bytes (a : Z) (l : list Z) : K state unit :=
  match l with
  | [] => mret tt
  | b :: l =>
      store_byte a b;;
      store_bytes (a + 1) l
  end.

(** ** Arguments *)

Definition fetchint (addr : Z) : K state (option Z) :=
  c ← myproc;
  x ← getproc c;
  if (p_sz x <=? addr) || (p_sz x <? u32 (addr + 4)) then mret None else
  l ← load_bytes 4 addr;
  mret (Some (s32 (le_val l))).

(** The scan of [fetchstr] from [s] up to [ep]: the characters to the NUL. *)
Fixpoint scan_str (n : nat) (s : Z) : K state (option (list Z)) :=
  match n with
  | O => mret None
  | S n =>
      b ← load_byte s;
      if b =? 0 then mret (Some [b]) else
      r ← scan_str n (s + 1);
      mret (cons b <$> r)
  end.
Definition fetchstr (addr : Z) : K state (option (list Z)) :=
  c ← myproc;
  x ← getproc c;
  if p_sz x <=? addr then mret None else
  scan_str (Z.to_nat (p_sz x - addr)) addr.

Definition argint (n : Z) : K state (option Z) :=
  c ← myproc;
  x ← getproc c;
  esp ← in_mem (read_word (p_tf x + TF_ESP));
  fetchint (u32 (esp + 4 + 4 * n)).

(** The address, as [uint]. *)
Definition argptr (n size : Z) : K state (option Z) :=
  c ← myproc;
  i ← argint n;
  match i with
  | None => mret None
  | Some i =>
      x ← getproc c;
      if (size <? 0) || (p_sz x <=? u32 i) || (p_sz x <? u32 (u32 i + size)) then mret None
      else mret (Some (u32 i))
  end.

Definition argstr (n : Z) : K state (option (list Z)) :=
  i ← argint n;
  match i with
  | None => mret None
  | Some addr => fetchstr (u32 addr)
  end.

End userarg.
