(* ===== verification/UserMem.v ===== *)
(** * UserMem: the kernel's accesses to user memory

    What the checks of syscall.c guarantee: exactly the arguments that lie in
    the memory of the process are accepted, so the kernel can read and write
    them there, and writes change nothing else. *)

From Stdlib Require Import ZArith Lia.
From stdpp Require Import base numbers strings gmap list.
From S2P Require Import Prelude Memlayout Kalloc Vm PageTable Namespace Kernel Crash Fs File Proc Userarg.
Open Scope Z_scope.

Section usermem.
Context {LK : Linker}.

(** ** The memory of the running process *)

Definition mem_of (s : state) : kmem := s_km (s_sys s).
Definition set_mem (m : kmem) (s : state) : state := set_s_sys (set_s_km m (s_sys s)) s.

Record proc_mem (s : state) (l : list Z) (c : nat) (x : proc) : Prop := {
  pm_cur : s_cur s = Some c;
  pm_proc : s_proc s !! c = Some x;
  pm_sz : 0 ≤ p_sz x ≤ KERNBASE;
  pm_space : space_ok (mem_of s) l (p_pgdir x);
  pm_pages j : 0 ≤ j < npages (p_sz x) → is_Some (uent (mem_of s) (p_pgdir x) j);
}.

(** The byte at a user address. *)
Definition ubyte (m : kmem) (pd a : Z) : option Z :=
  match uent m pd (a / PGSIZE) with
  | Some e => e.2 !! Z.to_nat (a mod PGSIZE)
  | None => None
  end.

Lemma in_mem_same {A} (m : K kmem A) s a : m (mem_of s) = Ret a (mem_of s) → in_mem m s = Ret a s.
Proof.
  intros Hm. unfold in_mem. rewrite (zoom_Ret _ _ _ a (s_sys s)); [by destruct s|].
  rewrite (zoom_Ret _ _ _ a (mem_of s)); [|done]. cbn. unfold mem_of. by destruct (s_sys s).
Qed.
Lemma in_mem_Ret {A} (m : K kmem A) s a m' : m (mem_of s) = Ret a m' → in_mem m s = Ret a (set_mem m' s).
Proof. intros Hm. unfold in_mem. erewrite zoom_Ret; [done|]. by erewrite zoom_Ret. Qed.

Lemma myproc_run s c : s_cur s = Some c → myproc s = Ret c s.
Proof. unfold myproc. kred. by intros ->. Qed.
Lemma getproc_run s p x : s_proc s !! p = Some x → getproc p s = Ret x s.
Proof. unfold getproc. kred. by intros ->. Qed.

Lemma addr_page x a : 0 ≤ a < p_sz x → 0 ≤ p_sz x ≤ KERNBASE →
  0 ≤ a / PGSIZE < npages (p_sz x) ∧ 0 ≤ a / PGSIZE < NUSER ∧ 0 ≤ a < 2 ^ 32.
Proof.
  intros Ha Hsz. pose proof (npages_range _ Hsz). assert (0 ≤ a / PGSIZE) by (apply Z.div_pos; unfold PGSIZE; lia).
  assert (a / PGSIZE < npages (p_sz x)).
  { apply npages_lt. pose proof (Z.mul_div_le a PGSIZE). unfold PGSIZE in *. lia. }
  unfold KERNBASE in *. lia.
Qed.

(** The page of an address of the process. *)
Lemma user_page_run s l c x a :
  proc_mem s l c x → 0 ≤ a < p_sz x →
  ∃ v f d, user_page a s = Ret v s ∧ upage (mem_of s) (p_pgdir x) (a / PGSIZE) = Some v ∧
    uent (mem_of s) (p_pgdir x) (a / PGSIZE) = Some (f, d) ∧ km_pages (mem_of s) !! v = Some d ∧
    length d = Z.to_nat PGSIZE.
Proof.
  intros [P1 P2 P3 P4 P5] Ha. destruct (addr_page x a Ha P3) as (H1 & H2 & H3).
  destruct (P5 _ H1) as [[f d] He].
  destruct (uent_Some _ _ _ _ _ _ P4 H2 He) as (t & v & Hw & Hr & Hp & _ & Hv & Hu & Hd & _ & Hl).
  exists v, f, d. split; [|done]. unfold user_page.
  rewrite (K_bind_Ret _ _ _ _ _ (myproc_run s c P1)), (K_bind_Ret _ _ _ _ _ (getproc_run s c x P2)).
  rewrite <- walk_addr in Hw by done. rewrite (K_bind_Ret _ _ _ _ _ (in_mem_same _ s _ Hw)).
  cbn [deref]. rewrite (K_bind_Ret _ _ s (t, (a / PGSIZE) mod 1024) s) by done.
  rewrite (K_bind_Ret _ _ _ _ _ (in_mem_same _ s _ Hr)), Hp, <- Hv. done.
Qed.

Lemma read_page_run m v d : km_pages m !! v = Some d → read_page v m = Ret d m.
Proof. intros Hd. unfold read_page. kred. by rewrite Hd. Qed.

Lemma page_offset a : (Z.to_nat (a mod PGSIZE) < Z.to_nat PGSIZE)%nat.
Proof. pose proof (Z.mod_pos_bound a PGSIZE eq_refl). unfold PGSIZE in *. lia. Qed.

Lemma load_byte_run s l c x a :
  proc_mem s l c x → 0 ≤ a < p_sz x → ∃ b, load_byte a s = Ret b s ∧ ubyte (mem_of s) (p_pgdir x) a = Some b.
Proof.
  intros Hm Ha. destruct (user_page_run s l c x a Hm Ha) as (v & f & d & Hp & _ & He & Hd & Hl).
  destruct (lookup_lt_is_Some_2 d (Z.to_nat (a mod PGSIZE))) as [b Hb]; [rewrite Hl; apply page_offset|].
  exists b. unfold load_byte, ubyte. rewrite (K_bind_Ret _ _ _ _ _ Hp), He. cbn [snd].
  rewrite (K_bind_Ret _ _ _ _ _ (in_mem_same _ s _ (read_page_run _ _ _ Hd))), Hb. done.
Qed.

Lemma load_bytes_run n s l c x a :
  proc_mem s l c x → 0 ≤ a → a + Z.of_nat n ≤ p_sz x →
  ∃ bs, load_bytes n a s = Ret bs s ∧ length bs = n ∧
    ∀ i b, bs !! i = Some b → ubyte (mem_of s) (p_pgdir x) (a + Z.of_nat i) = Some b.
Proof.
  revert a. induction n as [|n IH]; intros a Hm Ha Hn; cbn [load_bytes].
  { exists []. split_and!; [done|done|]. intros i b Hi. by rewrite lookup_nil in Hi. }
  destruct (load_byte_run s l c x a Hm) as (b & Hb & Hub); [lia|].
  destruct (IH (a + 1) Hm) as (bs & Hbs & Hlen & Hbyte); [lia|lia|].
  exists (b :: bs). rewrite (K_bind_Ret _ _ _ _ _ Hb), (K_bind_Ret _ _ _ _ _ Hbs). split_and!; [done|cbn; lia|].
  intros [|i] y Hy; cbn in Hy; [injection Hy as <-; by rewrite Z.add_0_r|].
  apply Hbyte in Hy. by replace (a + Z.of_nat (S i)) with (a + 1 + Z.of_nat i) by lia.
Qed.

Lemma addr_split a b : a / PGSIZE = b / PGSIZE → Z.to_nat (a mod PGSIZE) = Z.to_nat (b mod PGSIZE) → a = b.
Proof.
  intros H1 H2. pose proof (Z.mod_pos_bound a PGSIZE eq_refl). pose proof (Z.mod_pos_bound b PGSIZE eq_refl).
  rewrite (Z.div_mod a PGSIZE), (Z.div_mod b PGSIZE) by done. lia.
Qed.

(** A write to the memory of the process, and what it leaves. *)
Lemma store_byte_run s l c x a b :
  proc_mem s l c x → 0 ≤ a < p_sz x →
  ∃ m', store_byte a b s = Ret tt (set_mem m' s) ∧ proc_mem (set_mem m' s) l c x ∧
    sstep (p_pgdir x) (mem_of s) l m' l ∧
    ∀ a', 0 ≤ a' < p_sz x → ubyte m' (p_pgdir x) a' = if decide (a' = a) then Some b else ubyte (mem_of s) (p_pgdir x) a'.
Proof.
  intros Hm Ha. destruct (user_page_run s l c x a Hm Ha) as (v & f & d & Hp & Hu & He & Hd & Hl).
  pose proof Hm as [P1 P2 P3 P4 P5]. destruct (addr_page x a Ha P3) as (_ & H2 & _).
  set (d' := <[Z.to_nat (a mod PGSIZE):=b]> d). assert (Hl' : length d' = Z.to_nat PGSIZE) by (unfold d'; by rewrite length_insert).
  destruct (space_write (mem_of s) l (p_pgdir x) _ v f d d' P4 H2 He Hu Hl') as (Hss & _ & Hent).
  exists (set_km_pages (<[v:=d']> (km_pages (mem_of s))) (mem_of s)). split.
  { unfold store_byte. rewrite (K_bind_Ret _ _ _ _ _ Hp).
    rewrite (K_bind_Ret _ _ _ _ _ (in_mem_same _ s _ (read_page_run _ _ _ Hd))).
    by apply in_mem_Ret. }
  pose proof (npages_range _ P3) as Hnr. split; [split; try done|split; [done|]].
  - apply Hss.
  - intros j Hj. cbn. rewrite Hent by lia. case_decide; [by eexists|by apply P5].
  - intros a' Ha'. destruct (addr_page x a' Ha' P3) as (_ & H2' & _). unfold ubyte. rewrite Hent by done.
    destruct (decide (a' / PGSIZE = a / PGSIZE)) as [E|E].
    + rewrite E, He. cbn [snd]. unfold d'. destruct (decide (a' = a)) as [->|Hne].
      * rewrite list_lookup_insert_eq; [done|]. rewrite Hl. apply page_offset.
      * rewrite list_lookup_insert_ne; [done|]. intros E'. apply Hne. by apply addr_split.
    + rewrite decide_False; [done|]. by intros ->.
Qed.

Lemma store_bytes_run bs s l c x a :
  proc_mem s l c x → 0 ≤ a → a + Z.of_nat (length bs) ≤ p_sz x →
  ∃ m', store_bytes a bs s = Ret tt (set_mem m' s) ∧ proc_mem (set_mem m' s) l c x ∧
    sstep (p_pgdir x) (mem_of s) l m' l ∧
    ∀ a', 0 ≤ a' < p_sz x → ubyte m' (p_pgdir x) a' =
      if decide (a ≤ a' < a + Z.of_nat (length bs)) then bs !! Z.to_nat (a' - a) else ubyte (mem_of s) (p_pgdir x) a'.
Proof.
  revert s a. induction bs as [|b bs IH]; intros s a Hm Ha Hn; cbn [store_bytes length] in *.
  { exists (mem_of s). assert (set_mem (mem_of s) s = s) as -> by (by destruct s as [[]]). split_and!; [done|done| |].
    - apply sstep_refl, Hm.
    - intros a' Ha'. by rewrite decide_False by lia. }
  destruct (store_byte_run s l c x a b Hm) as (m1 & H1 & H2 & H3 & H4); [lia|].
  destruct (IH _ (a + 1) H2) as (m2 & G1 & G2 & G3 & G4); [lia|lia|].
  exists m2. rewrite (K_bind_Ret _ _ _ _ _ H1). split_and!; [exact G1|exact G2|by eapply sstep_trans|].
  intros a' Ha'. rewrite G4, H4 by done. destruct (decide (a' = a)) as [->|].
  - rewrite decide_False, decide_True by lia. by rewrite Z.sub_diag.
  - repeat case_decide; try lia; try done.
    replace (Z.to_nat (a' - a)) with (S (Z.to_nat (a' - (a + 1)))) by lia. done.
Qed.

(** ** Arguments *)

(** The process has the bytes [bs] at [a]. *)
Definition has_bytes (m : kmem) (pd a : Z) (bs : list Z) : Prop :=
  ∀ i b, bs !! i = Some b → ubyte m pd (a + Z.of_nat i) = Some b.

(** The string at [a], with its NUL, all of it below [sz]. *)
Definition user_string (m : kmem) (x : proc) (a : Z) (str : list Z) : Prop :=
  ∃ body, str = body ++ [0] ∧ 0 ∉ body ∧ a + Z.of_nat (length str) ≤ p_sz x ∧ has_bytes m (p_pgdir x) a str.

Lemma fetchint_run s l c x addr :
  proc_mem s l c x → 0 ≤ addr < 2 ^ 32 →
  ∃ r, fetchint addr s = Ret r s ∧ (is_Some r ↔ addr + 4 ≤ p_sz x) ∧
    ∀ v, r = Some v → ∃ bs, length bs = 4%nat ∧ has_bytes (mem_of s) (p_pgdir x) addr bs ∧ v = s32 (le_val bs).
Proof.
  intros Hm Ha. pose proof Hm as [P1 P2 P3 _ _]. unfold fetchint.
  rewrite (K_bind_Ret _ _ _ _ _ (myproc_run s c P1)), (K_bind_Ret _ _ _ _ _ (getproc_run s c x P2)).
  assert (Hnone : ¬ addr + 4 ≤ p_sz x → ∃ r : option Z, (mret None : K state (option Z)) s = Ret r s ∧ (is_Some r ↔ addr + 4 ≤ p_sz x) ∧
    ∀ v, r = Some v → ∃ bs, length bs = 4%nat ∧ has_bytes (mem_of s) (p_pgdir x) addr bs ∧ v = s32 (le_val bs)).
  { intros Hn. exists None. split; [done|]. split; [|done]. split; [by intros []|done]. }
  destruct (Z.leb_spec (p_sz x) addr); cbn [orb]; [apply Hnone; lia|].
  rewrite u32_small by (unfold KERNBASE in *; lia). destruct (Z.ltb_spec (p_sz x) (addr + 4)); [apply Hnone; lia|].
  destruct (load_bytes_run 4 s l c x addr Hm) as (bs & Hb & Hl & Hbs); [lia|lia|].
  rewrite (K_bind_Ret _ _ _ _ _ Hb). eexists. split; [done|]. split; [split; [done|by eexists]|].
  intros v [= <-]. by exists bs.
Qed.

Lemma argint_run s l c x n esp :
  proc_mem s l c x → read_word (p_tf x + TF_ESP) (mem_of s) = Ret esp (mem_of s) → argint n s = fetchint (u32 (esp + 4 + 4 * n)) s.
Proof.
  intros Hm Hesp. pose proof Hm as [P1 P2 _ _ _]. unfold argint.
  rewrite (K_bind_Ret _ _ _ _ _ (myproc_run s c P1)), (K_bind_Ret _ _ _ _ _ (getproc_run s c x P2)).
  by rewrite (K_bind_Ret _ _ _ _ _ (in_mem_same _ s _ Hesp)).
Qed.

Lemma has_bytes_cons m pd a b bs : has_bytes m pd a (b :: bs) ↔ ubyte m pd a = Some b ∧ has_bytes m pd (a + 1) bs.
Proof.
  split.
  - intros H. split; [pose proof (H 0%nat b eq_refl) as H0; by rewrite Z.add_0_r in H0|]. intros i y Hy.
    replace (a + 1 + Z.of_nat i) with (a + Z.of_nat (S i)) by lia. by apply H.
  - intros [Hb H] [|i] y Hy; cbn in Hy; [injection Hy as <-; by rewrite Z.add_0_r|].
    replace (a + Z.of_nat (S i)) with (a + 1 + Z.of_nat i) by lia. by apply H.
Qed.

(** The scan for a NUL up to [sz]. *)
Lemma scan_str_run n s l c x a :
  proc_mem s l c x → 0 ≤ a → a + Z.of_nat n = p_sz x →
  ∃ r, scan_str n a s = Ret r s ∧ ∀ str, r = Some str ↔ user_string (mem_of s) x a str.
Proof.
  unfold user_string. revert a. induction n as [|n IH]; intros a Hm Ha Hn; cbn [scan_str].
  { exists None. split; [done|]. intros str. split; [done|]. intros (body & -> & _ & Hl & _). rewrite length_app in Hl. cbn in Hl. lia. }
  destruct (load_byte_run s l c x a Hm) as (b & Hb & Hub); [lia|]. rewrite (K_bind_Ret _ _ _ _ _ Hb).
  destruct (Z.eqb_spec b 0) as [->|Hb0].
  - exists (Some [0]). split; [done|]. intros str. split.
    + intros [= <-]. exists []. split_and!; [done|set_solver|cbn; lia|]. apply has_bytes_cons. split; [done|by intros i y].
    + intros ([|y body] & -> & Hz & _ & Hbs); [done|]. apply has_bytes_cons in Hbs as [Hy _]. rewrite Hub in Hy. injection Hy as <-. set_solver.
  - destruct (IH (a + 1) Hm) as (r & Hr & Hstr); [lia|lia|]. rewrite (K_bind_Ret _ _ _ _ _ Hr).
    exists (cons b <$> r). split; [done|]. intros str. rewrite fmap_Some. split.
    + intros (str' & Hs & ->). apply Hstr in Hs as (body & -> & Hbody & Hlen & Hbyte). exists (b :: body).
      split_and!; [done|by apply not_elem_of_cons|cbn [length]; lia|by apply has_bytes_cons].
    + intros ([|y body] & -> & Hz & Hl & Hbs); cbn [app] in *; apply has_bytes_cons in Hbs as [Hy Hbs];
        rewrite Hub in Hy; injection Hy as Hy; [done|]. subst y. exists (body ++ [0]). split; [|done].
      apply Hstr. exists body. split_and!; [done|set_solver|cbn [length] in Hl; lia|done].
Qed.

Lemma fetchstr_run s l c x addr :
  proc_mem s l c x → 0 ≤ addr < 2 ^ 32 →
  ∃ r, fetchstr addr s = Ret r s ∧ ∀ str, r = Some str ↔ user_string (mem_of s) x addr str.
Proof.
  intros Hm Ha. pose proof Hm as [P1 P2 P3 _ _]. unfold fetchstr.
  rewrite (K_bind_Ret _ _ _ _ _ (myproc_run s c P1)), (K_bind_Ret _ _ _ _ _ (getproc_run s c x P2)).
  destruct (Z.leb_spec (p_sz x) addr).
  - exists None. split; [done|]. intros str. split; [done|]. intros (body & -> & _ & Hl & _). rewrite length_app in Hl. cbn in Hl. lia.
  - apply (scan_str_run _ s l c x); [done|lia|lia].
Qed.

(** C19: system call arguments never make the kernel leave the memory of the
    process.  All the functions return and change nothing.  [fetchint] accepts
    an address exactly when the four bytes there are below [sz], and gives
    their value; [argint] is [fetchint] of the argument's place on the stack.
    [argptr] accepts exactly the pointers whose argument can be fetched and
    that are below [sz] with [size] bytes, not fewer than none; these can be
    read, and written without any other byte of the process or page of memory
    changing.  [fetchstr] accepts an address exactly when a string that ends
    in its only NUL lies there below [sz], and gives it; [argstr] does so for
    the address that its argument is. *)
Theorem user_arguments_safe s l c x n size esp :
  proc_mem s l c x → read_word (p_tf x + TF_ESP) (mem_of s) = Ret esp (mem_of s) → - 2 ^ 31 ≤ size < 2 ^ 31 →
  (∀ addr, 0 ≤ addr < 2 ^ 32 → ∃ r, fetchint addr s = Ret r s ∧ (is_Some r ↔ addr + 4 ≤ p_sz x) ∧
     ∀ v, r = Some v → ∃ bs, length bs = 4%nat ∧ has_bytes (mem_of s) (p_pgdir x) addr bs ∧ v = s32 (le_val bs)) ∧
  argint n s = fetchint (u32 (esp + 4 + 4 * n)) s ∧
  (∃ r, argptr n size s = Ret r s ∧
     (∀ a, r = Some a ↔ ∃ i, argint n s = Ret (Some i) s ∧ a = u32 i ∧ 0 ≤ size ∧ a < p_sz x ∧ a + size ≤ p_sz x) ∧
     ∀ a, r = Some a →
       (∃ bs, load_bytes (Z.to_nat size) a s = Ret bs s ∧ length bs = Z.to_nat size ∧ has_bytes (mem_of s) (p_pgdir x) a bs) ∧
       ∀ bs, Z.of_nat (length bs) ≤ size →
         ∃ m', store_bytes a bs s = Ret tt (set_mem m' s) ∧ proc_mem (set_mem m' s) l c x ∧
           sstep (p_pgdir x) (mem_of s) l m' l ∧
           ∀ a', 0 ≤ a' < p_sz x → ubyte m' (p_pgdir x) a' =
             if decide (a ≤ a' < a + Z.of_nat (length bs)) then bs !! Z.to_nat (a' - a)
             else ubyte (mem_of s) (p_pgdir x) a') ∧
  (∀ addr, 0 ≤ addr < 2 ^ 32 → ∃ r, fetchstr addr s = Ret r s ∧ ∀ str, r = Some str ↔ user_string (mem_of s) x addr str) ∧
  ∃ r, argstr n s = Ret r s ∧ ∀ str, r = Some str ↔ ∃ i, argint n s = Ret (Some i) s ∧ user_string (mem_of s) x (u32 i) str.
Proof.
  intros Hm Hesp Hsize. pose proof (argint_run s l c x n esp Hm Hesp) as Hai.
  destruct (fetchint_run s l c x (u32 (esp + 4 + 4 * n)) Hm (u32_range _)) as (i & Hi & _). rewrite <- Hai in Hi.
  pose proof Hm as [P1 P2 P3 _ _]. pose proof (myproc_run s c P1) as Hmy. pose proof (getproc_run s c x P2) as Hget.
  split; [intros addr Haddr; by apply (fetchint_run s l c)|]. split; [done|]. split; [|split; [intros addr Haddr; by apply (fetchstr_run s l c)|]].
  - unfold argptr. rewrite (K_bind_Ret _ _ _ _ _ Hmy), (K_bind_Ret _ _ _ _ _ Hi).
    destruct i as [i|]; [|exists None; split; [done|]; split; [|done]; rewrite Hi; naive_solver].
    rewrite (K_bind_Ret _ _ _ _ _ Hget), Hi. pose proof (u32_range i) as Hr.
    assert (Hnone : ¬ (0 ≤ size ∧ u32 i < p_sz x ∧ u32 i + size ≤ p_sz x) →
      ∀ a, @None Z = Some a ↔ ∃ j, @Ret state _ (Some i) s = Ret (Some j) s ∧ a = u32 j ∧ 0 ≤ size ∧ a < p_sz x ∧ a + size ≤ p_sz x).
    { intros Hn a. split; [done|]. intros (j & [= <-] & -> & H). by destruct Hn. }
    destruct (Z.ltb_spec size 0); cbn [orb]; [exists None; split; [done|]; split; [apply Hnone; lia|done]|].
    destruct (Z.leb_spec (p_sz x) (u32 i)); cbn [orb]; [exists None; split; [done|]; split; [apply Hnone; lia|done]|].
    rewrite (u32_small (u32 i + size)) by (unfold KERNBASE in *; lia).
    destruct (Z.ltb_spec (p_sz x) (u32 i + size)); [exists None; split; [done|]; split; [apply Hnone; lia|done]|].
    exists (Some (u32 i)). split; [done|]. split; [intros a; split; [intros [= <-]; by exists i|by intros (j & [= <-] & -> & _)]|].
    intros a [= <-]. split.
    + apply (load_bytes_run _ s l c x); [done|lia|lia].
    + intros bs Hbs. apply store_bytes_run; [done|lia|lia].
  - unfold argstr. rewrite (K_bind_Ret _ _ _ _ _ Hi), Hi. destruct i as [i|]; [|exists None; split; [done|naive_solver]].
    destruct (fetchstr_run s l c x (u32 i) Hm (u32_range _)) as (r & Hrun & Hstr). exists r. split; [done|].
    intros str. rewrite Hstr. split; [intros H; by exists i|by intros (j & [= <-] & H)].
Qed.

End usermem.

(** ** Examples *)

(** A process with one page of zeros and a kernel stack. *)
Definition ex_process : proc :=
  set_p_sz 4096 (set_p_pgdir ex_pd (set_p_kstack ex_kstack (set_p_tf (ex_kstack + 4096 - 76) (set_p_state RUNNING bss_proc)))).
Definition ex_state (m : kmem) : state :=
  State (Sys (reboot []) (FTable false []) m ∅) false (ex_process :: replicate 63 bss_proc) 1 (Some 0%nat)
    bss_nstate (Some 0%nat) 0 0 0 false false 0.

Lemma user_arguments_safe_witness :
  ∃ m, argptr 0 4 (ex_state m) = Ret (Some 0) (ex_state m) ∧ fetchint 4093 (ex_state m) = Ret None (ex_state m).
Proof.
  destruct ex_mem_grown as (m & l & Hs & He & Hk & _). exists m.
  assert (Hr : read_word (p_tf ex_process + TF_ESP) m = Ret 0 m).
  { change (read_word (p_tf ex_process + TF_ESP)) with (read_pte (ex_kstack, 1022)).
    unfold read_pte, read_page. kred. cbn [fst snd]. rewrite Hk. cbn. by rewrite word_fill_0. }
  destruct (user_arguments_safe (LK:=ex_linker) (ex_state m) l 0 ex_process 0 4 0) as (Hint & Harg & (r & Hrun & Hacc & _) & _).
  - split; [reflexivity|reflexivity|cbn; unfold KERNBASE; lia|exact Hs|].
    intros j Hj. change (npages (p_sz ex_process)) with 1 in Hj. replace j with 0 by lia. exists (7, fill_page 0). exact He.
  - exact Hr.
  - lia.
  - split.
    + rewrite Hrun. f_equal. apply Hacc. exists 0. rewrite Harg. change (u32 (0 + 4 + 4 * 0)) with 4.
      destruct (Hint 4) as (v & Hv & Hin & Hval); [lia|]. destruct (proj2 Hin) as [w Hw]; [cbn; lia|]. rewrite Hv, Hw.
      destruct (Hval w Hw) as (bs & Hl & Hbs & ->). assert (Hz : bs = [0; 0; 0; 0]).
      { destruct bs as [|b0 [|b1 [|b2 [|b3 [|]]]]]; try discriminate Hl.
        assert (Hb : ∀ i b, [b0; b1; b2; b3] !! i = Some b → (i < 4)%nat → b = 0).
        { intros i b Hb Hi. apply Hbs in Hb. unfold ubyte in Hb. change (mem_of (ex_state m)) with m in Hb.
          rewrite (Z.div_small (4 + Z.of_nat i) PGSIZE) in Hb by (unfold PGSIZE; lia).
          change (p_pgdir ex_process) with ex_pd in Hb. rewrite He in Hb. cbn [snd] in Hb. unfold fill_page in Hb. apply lookup_replicate in Hb as [-> _]. reflexivity. }
        f_equal; [apply (Hb 0%nat)|f_equal; [apply (Hb 1%nat)|f_equal; [apply (Hb 2%nat)|f_equal; apply (Hb 3%nat)]]]; first [reflexivity|lia]. }
      rewrite Hz. change (u32 (s32 (le_val [0; 0; 0; 0]))) with 0. split_and!; vm_compute; first [discriminate|reflexivity].
    + destruct (Hint 4093) as (v & Hv & Hin & _); [lia|]. destruct v; [|exact Hv]. destruct (proj1 Hin) as []; [by eexists|reflexivity].
Defined.
