(* ===== verification/Fork.v ===== *)
(** * Fork: creating processes

    What [allocproc] and [fork] do to the process table, memory, files and
    namespaces together. *)

From Stdlib Require Import ZArith Lia.
From stdpp Require Import base numbers strings gmap list relations.
From S2P Require Import Prelude CString Memlayout Kalloc Vm PageTable Namespace Kernel Crash Fs File Proc Userarg UserMem.
Open Scope Z_scope.

Section fork.
Context {LK : Linker} {CD : Code} {DS : DevSw}.

(** ** Words of a kernel stack *)

(** An operation on memory that only writes the page [v]. *)
Definition writes_page (v : Z) (op : K kmem unit) : Prop :=
  ∀ m d, km_pages m !! v = Some d → length d = Z.to_nat PGSIZE →
    ∃ d', length d' = Z.to_nat PGSIZE ∧ op m = Ret tt (set_km_pages (<[v:=d']> (km_pages m)) m).

Lemma writes_page_bind v op1 op2 : writes_page v op1 → writes_page v op2 → writes_page v (op1;; op2).
Proof.
  intros H1 H2 m d Hd Hl. destruct (H1 m d Hd Hl) as (d1 & Hl1 & E1). rewrite (K_bind_Ret _ _ _ _ _ E1).
  destruct (H2 (set_km_pages (<[v:=d1]> (km_pages m)) m) d1) as (d2 & Hl2 & E2); [cbn; by rewrite lookup_insert_eq|done|].
  exists d2. split; [done|]. rewrite E2. cbn. rewrite insert_insert_eq. done.
Qed.
Lemma writes_page_ret v : writes_page v (mret tt).
Proof.
  intros m d Hd Hl. exists d. split; [done|]. rewrite insert_id by done. by destruct m.
Qed.
Lemma writes_page_word v a x : page_of a = v → writes_page v (write_word a x).
Proof.
  intros <- m d Hd Hl. eexists. split; [|unfold write_word, write_pte, read_page, write_page; kred; cbn; by rewrite Hd].
  by rewrite set_word_length.
Qed.

(** Addresses in a page. *)
Lemma page_of_offset v o : v mod PGSIZE = 0 → 0 ≤ o < PGSIZE → page_of (v + o) = v ∧ (v + o) mod PGSIZE = o.
Proof.
  intros Hv Ho. unfold page_of. assert ((v + o) mod PGSIZE = o) as ->.
  { rewrite <- Zplus_mod_idemp_l, Hv. by apply Z.mod_small. }
  split; [lia|done].
Qed.

Lemma writes_page_zero n v a : v mod PGSIZE = 0 → v ≤ a → a + 4 * Z.of_nat n ≤ v + PGSIZE → writes_page v (zero_words n a).
Proof.
  intros Hv. revert a. induction n as [|n IH]; intros a Ha Hn; cbn [zero_words]; [apply writes_page_ret|].
  apply writes_page_bind; [|apply IH; lia]. apply writes_page_word.
  replace a with (v + (a - v)) by lia. apply page_of_offset; [done|]. unfold PGSIZE in *. lia.
Qed.

Lemma in_mem_writes v op s d :
  writes_page v op → km_pages (mem_of s) !! v = Some d → length d = Z.to_nat PGSIZE →
  ∃ d', length d' = Z.to_nat PGSIZE ∧
    in_mem op s = Ret tt (set_mem (set_km_pages (<[v:=d']> (km_pages (mem_of s))) (mem_of s)) s).
Proof.
  intros Hop Hd Hl. destruct (Hop _ _ Hd Hl) as (d' & Hl' & E). exists d'. split; [done|]. by apply in_mem_Ret.
Qed.

(** ** [allocproc] *)

(** The new process in its entry, with its kernel stack. *)
Definition embryo (pid v : Z) (y : proc) : proc :=
  set_p_context (v + 4096 - 76 - 4 - 20) (set_p_tf (v + 4096 - 76) (set_p_kstack v (set_p_pid pid (set_p_state EMBRYO y)))).

Lemma updproc_run s p f y :
  s_proc s !! p = Some y → updproc p f s = Ret tt (set_s_proc (<[p:=f y]> (s_proc s)) s).
Proof. intros Hy. unfold updproc, modify. by rewrite (list_alter_Some _ _ _ _ Hy). Qed.

Lemma unused_proc_spec k l :
  match unused_proc k l with
  | Some i => ∃ j y, i = (k + j)%nat ∧ l !! j = Some y ∧ p_state y = UNUSED
  | None => Forall (λ y, p_state y ≠ UNUSED) l
  end.
Proof.
  revert k. induction l as [|x l IH]; intros k; cbn; [done|]. destruct (decide (p_state x = UNUSED)).
  - exists 0%nat, x. split_and!; [lia|done|done].
  - specialize (IH (S k)). destruct (unused_proc (S k) l) as [i|]; [|by constructor].
    destruct IH as (j & y & -> & ? & ?). exists (S j), y. split_and!; [lia|done|done].
Qed.

Lemma allocproc_none s : s_pt_lock s = false → unused_proc 0 (s_proc s) = None → allocproc s = Ret None s.
Proof.
  intros Hl Hu. unfold allocproc, acquire, release. kred. cbn. rewrite Hl. cbn. rewrite Hu. cbn.
  destruct s. cbn in *. by subst.
Qed.

Lemma allocproc_run s l p y :
  s_pt_lock s = false → unused_proc 0 (s_proc s) = Some p → s_proc s !! p = Some y → kmem_ok (mem_of s) l →
  let pid := s_nextpid s in
  let s1 y' := set_s_proc (<[p:=y']> (s_proc s)) (set_s_nextpid (s32 (pid + 1)) s) in
  match l with
  | [] => allocproc s = Ret None (s1 (set_p_state UNUSED (set_p_kstack 0 (set_p_pid pid (set_p_state EMBRYO y)))))
  | v :: _ => ∃ m1 d, kalloc (mem_of s) = Ret v m1 ∧ length d = Z.to_nat PGSIZE ∧
      allocproc s = Ret (Some p) (set_mem (set_km_pages (<[v:=d]> (km_pages m1)) m1) (s1 (embryo pid v y)))
  end.
Proof.
  intros Hl Hu Hy Hm pid s1. unfold allocproc.
  set (sA := set_s_pt_lock true s).
  rewrite (K_bind_Ret _ _ s tt sA) by (unfold acquire; cbn; by rewrite Hl).
  rewrite (K_bind_Ret _ _ sA (s_proc s) sA) by done. rewrite Hu.
  kstep (updproc_run sA p (set_p_state EMBRYO) y Hy).
  set (sB := set_s_proc _ sA). rewrite (K_bind_Ret _ _ sB pid sB) by done.
  kstep (updproc_run sB p (set_p_pid pid) _ (insert_lookup _ _ _ _ Hy)). set (sC := set_s_proc _ sB).
  rewrite (K_bind_Ret _ _ sC tt (set_s_nextpid (s32 (pid + 1)) sC)) by done.
  set (y1 := set_p_pid pid (set_p_state EMBRYO y)).
  assert (Hrel : release ptable_l (set_s_nextpid (s32 (pid + 1)) sC) = Ret tt (s1 y1)).
  { unfold release, s1, sC, sB, sA. cbn. rewrite list_insert_insert_eq. destruct s; cbn in *; by subst. }
  kstep Hrel. clear Hrel sA sB sC.
  pose proof (kalloc_run (mem_of s) l Hm) as Hk.
  set (t m y' := set_mem m (s1 y')). assert (s1 y1 = t (mem_of s) y1) as -> by (unfold t, s1, set_mem; by destruct s as [[]]).
  assert (Hupd : ∀ m y' f, updproc p f (t m y') = Ret tt (t m (f y'))).
  { intros m y' f. rewrite (updproc_run _ p f y') by (by apply (insert_lookup _ _ _ _ Hy)).
    unfold t, s1, set_mem. cbn. by rewrite list_insert_insert_eq. }
  assert (Hmem : ∀ A (op : K kmem A) m y' a m', op m = Ret a m' → in_mem op (t m y') = Ret a (t m' y')).
  { intros A op m y' a m' Hop. exact (in_mem_Ret op (t m y') a m' Hop). }
  destruct l as [|v l].
  { kstep (Hmem _ _ _ y1 _ _ Hk).
    rewrite (K_bind_Ret _ _ _ _ _ (Hupd _ _ _)). cbn [Z.eqb]. rewrite (K_bind_Ret _ _ _ _ _ (Hupd _ _ _)).
    unfold t, s1, set_mem. by destruct s as [[]]. }
  destruct Hk as (m1 & Hk & Hm1 & Hpg & _). pose proof (km_addr _ _ Hm) as [[Hpa Hvr] _]%Forall_cons.
  pose proof (page_aligned v Hpa) as Hal. destruct (km_chain _ _ Hm) as (_ & d0 & Hd0 & Hl0 & _). rewrite <- Hpg in Hd0.
  unfold KSTACKSIZE, TF_SIZE, CONTEXT_SIZE, CONTEXT_EIP.
  assert (Hpage : ∀ o, 0 ≤ o < PGSIZE → page_of (v + o) = v) by (intros; by apply page_of_offset).
  assert (Hw : ∀ d y' op, length d = Z.to_nat PGSIZE → writes_page v op → ∃ d', length d' = Z.to_nat PGSIZE ∧
    in_mem op (t (set_km_pages (<[v:=d]> (km_pages m1)) m1) y') = Ret tt (t (set_km_pages (<[v:=d']> (km_pages m1)) m1) y')).
  { intros d y' op Hd Hop. destruct (Hop (set_km_pages (<[v:=d]> (km_pages m1)) m1) d) as (d' & Hl' & E);
      [cbn; by rewrite lookup_insert_eq|done|]. exists d'. split; [done|]. cbn in E. rewrite insert_insert_eq in E.
    by apply Hmem. }
  assert (m1 = set_km_pages (<[v:=d0]> (km_pages m1)) m1) as E0 by (rewrite insert_id by done; by destruct m1).
  set (y2 := set_p_tf (v + 4096 - 76) (set_p_kstack v y1)). set (y3 := set_p_context (v + 4096 - 76 - 4 - 20) y2).
  destruct (Hw d0 y2 (write_word (v + 4096 - 76 - 4) trapret_addr) Hl0) as (d1 & Hl1 & E1).
  { apply writes_page_word. replace (v + 4096 - 76 - 4) with (v + 4016) by lia. by apply Hpage. }
  destruct (Hw d1 y3 (zero_words 5 (v + 4096 - 76 - 4 - 20)) Hl1) as (d2 & Hl2 & E2).
  { apply writes_page_zero; [done|lia|unfold PGSIZE; lia]. }
  destruct (Hw d2 y3 (write_word (v + 4096 - 76 - 4 - 20 + 16) forkret_addr) Hl2) as (d3 & Hl3 & E3).
  { apply writes_page_word. replace (v + 4096 - 76 - 4 - 20 + 16) with (v + 4012) by lia. by apply Hpage. }
  rewrite <- E0 in E1. exists m1, d3. split; [done|]. split; [done|].
  kstep (Hmem _ _ _ y1 _ _ Hk). rewrite (K_bind_Ret _ _ _ _ _ (Hupd _ _ _)). destruct (Z.eqb_spec v 0); [lia|].
  rewrite (K_bind_Ret _ _ _ _ _ (Hupd _ _ _)). kstep E1. rewrite (K_bind_Ret _ _ _ _ _ (Hupd _ _ _)).
  kstep E2. kstep E3. done.
Qed.

(** ** Pids *)

(** [qs] is a namespace with its ancestors, up to one without a parent. *)
Fixpoint ns_chain (l : list pid_namespace) (qs : list nat) : Prop :=
  match qs with
  | [] => False
  | q :: r => ∃ x, l !! q = Some x ∧ pn_lock x = false ∧ pn_parent x = hd_error r ∧
      match r with [] => True | _ => ns_chain l r end
  end.

(** The next pid of each of them, and the namespaces after each gave one. *)
Definition next_pid (l : list pid_namespace) (q : nat) : Z := default 0 (pn_next_pid <$> l !! q).
Definition bump (l : list pid_namespace) (q : nat) : list pid_namespace :=
  alter (λ x, set_pn_next_pid (s32 (pn_next_pid x + 1)) x) q l.

Lemma alloc_new_pid_run s q x :
  pt_pid_namespaces s !! q = Some x → pn_lock x = false →
  alloc_new_pid q s = Ret (pn_next_pid x) (set_pt_pid_namespaces (bump (pt_pid_namespaces s) q) s).
Proof.
  intros Hx Hl. destruct (alloc_new_pid q s) as [v s'| | | |] eqn:E.
  1:{ apply (alloc_new_pid_inv _ _ _ _ _ Hx) in E as [-> ->]. f_equal. unfold bump.
      rewrite (list_alter_Some _ _ _ _ Hx). destruct s, x. cbn in *. by subst. }
  all: exfalso; revert E; unfold alloc_new_pid, acquire, release, getpidns, updpidns, mbind, K_bind; cbn;
    rewrite Hx, Hl; cbn; rewrite !(list_alter_Some _ _ _ _ Hx), (insert_lookup _ _ _ _ Hx); cbn;
    rewrite !(list_alter_Some _ _ _ _ (insert_lookup _ _ _ _ Hx)), !list_insert_insert_eq,
      (insert_lookup _ _ _ _ Hx); by cbn.
Qed.

Lemma ns_chain_bump l q qs : q ∉ qs → ns_chain l qs → ns_chain (bump l q) qs.
Proof.
  induction qs as [|r qs IH]; [done|]. intros [Hqr Hq]%not_elem_of_cons (x & Hx & Hl & Hp & Hc).
  exists x. unfold bump. rewrite list_lookup_alter_ne by done. split_and!; [done..|].
  destruct qs; [done|by apply IH].
Qed.

Lemma next_pid_bump l q r : q ≠ r → next_pid (bump l q) r = next_pid l r.
Proof. intros. unfold next_pid, bump. by rewrite list_lookup_alter_ne. Qed.

Lemma zoom_ns {A} (m : K nstate A) s a n : m (s_ns s) = Ret a n → zoom ns_l m s = Ret a (set_s_ns n s).
Proof. intros. by apply zoom_Ret. Qed.

Lemma zoom_ns_same {A} (m : K nstate A) s a : m (s_ns s) = Ret a (s_ns s) → zoom ns_l m s = Ret a s.
Proof. intros Hm. rewrite (zoom_ns _ _ _ _ Hm). by destruct s. Qed.

(** [set_up_pids] gives a pid in every namespace of the chain. *)
Lemma set_up_pids_loop_run fuel i p qs q s y :
  ns_chain (pt_pid_namespaces (s_ns s)) (q :: qs) → NoDup (q :: qs) → (length (q :: qs) ≤ fuel)%nat →
  s_proc s !! p = Some y →
  let ns := pt_pid_namespaces (s_ns s) in
  set_up_pids_loop fuel i p q s =
    Ret None (set_s_proc (<[p:=set_p_pids (list_inserts i ((λ q, (Some q, next_pid ns q)) <$> q :: qs) (p_pids y)) y]> (s_proc s))
      (set_s_ns (set_pt_pid_namespaces (foldl bump ns (q :: qs)) (s_ns s)) s)).
Proof.
  revert fuel i q s y. induction qs as [|r qs IH]; intros fuel i q s y (x & Hx & Hl & Hpar & Hc) Hnd Hf Hy ns;
    (destruct fuel as [|fuel]; [cbn in Hf; lia|]); cbn [set_up_pids_loop];
    kstep (zoom_ns _ s _ _ (alloc_new_pid_run _ _ _ Hx Hl)); set (sA := set_s_ns _ s);
    kstep (updproc_run sA p (λ x0, set_p_pids (<[i:=(Some q, pn_next_pid x)]> (p_pids x0)) x0) y Hy);
    set (sB := set_s_proc _ sA);
    (assert (Hget : zoom ns_l (getpidns q) sB = Ret (set_pn_next_pid (s32 (pn_next_pid x + 1)) x) sB);
      [apply zoom_ns_same; unfold getpidns; kred; cbn; unfold bump; rewrite (list_alter_Some _ _ _ _ Hx), (insert_lookup _ _ _ _ Hx); done|]);
    kstep Hget; cbn [pn_parent set_pn_next_pid]; rewrite Hpar; cbn [hd_error];
    (assert (Hnx : next_pid ns q = pn_next_pid x) by (unfold next_pid, ns; by rewrite Hx)).
  - cbn [fmap list_fmap list_inserts foldl]. rewrite Hnx. unfold sB, sA. cbn. by destruct s.
  - apply NoDup_cons in Hnd as [Hq Hnd].
    rewrite (IH fuel (S i) r sB _ (ns_chain_bump _ _ _ Hq Hc) Hnd ltac:(cbn in *; lia) (insert_lookup _ _ _ _ Hy)).
    unfold sB, sA. cbn [s_ns set_s_proc set_s_ns pt_pid_namespaces set_pt_pid_namespaces s_proc].
    rewrite list_insert_insert_eq. cbn [foldl]. f_equal. unfold set_s_proc. cbn. f_equal. f_equal.
    unfold set_p_pids. cbn. f_equal. rewrite Hnx, !next_pid_bump by set_solver.
    rewrite !list_insert_inserts_lt by lia.
    replace ((λ q0, (Some q0, next_pid (bump (pt_pid_namespaces (s_ns s)) q) q0)) <$> qs) with ((λ q0, (Some q0, next_pid ns q0)) <$> qs).
    + rewrite list_insert_insert_ne by lia. done.
    + apply list_fmap_ext. intros j z Hz. rewrite next_pid_bump; [done|]. apply list_elem_of_lookup_2 in Hz. set_solver.
Qed.

Lemma set_up_pids_run p qs q s y :
  ns_chain (pt_pid_namespaces (s_ns s)) (q :: qs) → NoDup (q :: qs) → (length (q :: qs) ≤ PID_NAMESPACE_MAX_DEPTH)%nat →
  s_proc s !! p = Some y →
  let ns := pt_pid_namespaces (s_ns s) in
  set_up_pids p q s =
    Ret tt (set_s_proc (<[p:=set_p_pids (list_inserts 0 ((λ q, (Some q, next_pid ns q)) <$> q :: qs) (p_pids y)) y]> (s_proc s))
      (set_s_ns (set_pt_pid_namespaces (foldl bump ns (q :: qs)) (s_ns s)) s)).
Proof.
  intros Hc Hnd Hl Hy ns. unfold set_up_pids. by kstep (set_up_pids_loop_run _ 0 p qs q s y Hc Hnd Hl Hy).
Qed.

(** ** Open files *)

(** The files of a descriptor table; the table after every one of them got a
    reference. *)
Definition open_files (l : list (option nat)) : list nat := omap id l.
Definition dup_refs (t : list file) (fs : list nat) : list file :=
  foldl (λ t f, alter (λ x, set_f_ref (f_ref x + 1) x) f t) t fs.
Fixpoint overlay (fd : nat) (l o : list (option nat)) : list (option nat) :=
  match l with
  | [] => o
  | None :: l => overlay (S fd) l o
  | Some f :: l => overlay (S fd) l (<[fd:=Some f]> o)
  end.

Lemma overlay_full pre l : overlay (length pre) l (pre ++ replicate (length l) None) = pre ++ l.
Proof.
  revert pre. induction l as [|[f|] l IH]; intros pre; cbn [overlay replicate length].
  - done.
  - rewrite insert_app_r_alt, Nat.sub_diag by lia. cbn. specialize (IH (pre ++ [Some f])).
    rewrite length_app, Nat.add_1_r, <- !app_assoc in IH. exact IH.
  - specialize (IH (pre ++ [None])). rewrite length_app, Nat.add_1_r, <- !app_assoc in IH. exact IH.
Qed.

Definition set_ft (t : ftable) (s : state) : state := set_s_sys (set_s_ft t (s_sys s)) s.
Lemma in_ft_Ret {A} (m : K ftable A) s a t : m (s_ft (s_sys s)) = Ret a t → in_files (zoom ft_l m) s = Ret a (set_ft t s).
Proof. intros Hm. unfold in_files. erewrite zoom_Ret; [done|]. by erewrite zoom_Ret. Qed.

Lemma filedup_run t f x :
  ft_lock t = false → ft_file t !! f = Some x → 1 ≤ f_ref x →
  filedup f t = Ret f (FTable false (alter (λ x, set_f_ref (f_ref x + 1) x) f (ft_file t))).
Proof.
  destruct t as [k l]; cbn. intros -> Hx Hr. unfold filedup, acquire, release, getfile, updfile. kred. cbn. rewrite Hx.
  cbn. by destruct (Z.ltb_spec (f_ref x) 1); [lia|].
Qed.

Lemma dup_files_run l fd new s y :
  ft_lock (s_ft (s_sys s)) = false → s_proc s !! new = Some y →
  (∀ f, f ∈ open_files l → ∃ x, ft_file (s_ft (s_sys s)) !! f = Some x ∧ 1 ≤ f_ref x) →
  dup_files fd l new s =
    Ret tt (set_ft (FTable false (dup_refs (ft_file (s_ft (s_sys s))) (open_files l)))
      (set_s_proc (<[new:=set_p_ofile (overlay fd l (p_ofile y)) y]> (s_proc s)) s)).
Proof.
  revert fd s y. induction l as [|[f|] l IH]; intros fd s y Hl Hy Hf; cbn [dup_files].
  - unfold set_ft. rewrite list_insert_id by (rewrite Hy; by destruct y). destruct s as [[k [lk t] km pp]]. cbn in *. by subst.
  - destruct (Hf f) as (x & Hx & Hr); [left|]. kstep (in_ft_Ret _ s _ _ (filedup_run _ _ _ Hl Hx Hr)).
    set (sA := set_ft _ s). kstep (updproc_run sA new (λ x, set_p_ofile (<[fd:=Some f]> (p_ofile x)) x) y Hy).
    rewrite (IH (S fd) _ (set_p_ofile (<[fd:=Some f]> (p_ofile y)) y)); [|done|by apply (insert_lookup _ _ _ _ Hy)|].
    + cbn. rewrite list_insert_insert_eq. by destruct s, y.
    + intros g Hg. cbn. destruct (Hf g) as (z & Hz & Hrz); [by right|]. destruct (decide (f = g)) as [->|].
      * rewrite list_lookup_alter, decide_True, Hz by done. eexists. split; [done|]. cbn. lia.
      * rewrite list_lookup_alter_ne by done. eauto.
  - by apply IH.
Qed.

Lemma dup_refs_lookup t fs f x :
  t !! f = Some x → dup_refs t fs !! f = Some (set_f_ref (f_ref x + times f fs) x).
Proof.
  revert t x. induction fs as [|g fs IH]; intros t x Hx; cbn.
  - rewrite Hx. unfold times. cbn. rewrite Z.add_0_r. by destruct x.
  - destruct (decide (g = f)) as [->|Hne].
    + rewrite (IH _ (set_f_ref (f_ref x + 1) x)).
      * rewrite times_cons, decide_True by done. unfold set_f_ref. cbn. do 2 f_equal. lia.
      * rewrite list_lookup_alter, decide_True, Hx by done. done.
    + rewrite (IH _ x) by (by rewrite list_lookup_alter_ne). rewrite times_cons, decide_False by done. done.
Qed.

(** ** The trap frame *)

(** The word at address [v + 4 * i] of a page [v]. *)
Lemma word_addr v i : v mod PGSIZE = 0 → 0 ≤ i < 1024 →
  read_word (v + 4 * i) = read_pte (v, i) ∧ ∀ x, write_word (v + 4 * i) x = write_pte (v, i) x.
Proof.
  intros Hv Hi. destruct (page_of_offset v (4 * i) Hv) as [H1 H2]; [unfold PGSIZE; lia|].
  unfold read_word, write_word. rewrite H1, H2. rewrite (Z.mul_comm 4 i), Z.div_mul by lia. done.
Qed.

Lemma copy_words_run n m vd vs dd ds bd bs :
  vd ≠ vs → vd mod PGSIZE = 0 → vs mod PGSIZE = 0 →
  km_pages m !! vd = Some dd → length dd = Z.to_nat PGSIZE → km_pages m !! vs = Some ds →
  0 ≤ bd → bd + Z.of_nat n ≤ 1024 → 0 ≤ bs → bs + Z.of_nat n ≤ 1024 →
  ∃ d, length d = Z.to_nat PGSIZE ∧
    copy_words n (vd + 4 * bd) (vs + 4 * bs) m = Ret tt (set_km_pages (<[vd:=d]> (km_pages m)) m) ∧
    ∀ j, 0 ≤ j < 1024 → word d (Z.to_nat j) =
      if decide (bd ≤ j < bd + Z.of_nat n) then u32 (word ds (Z.to_nat (bs + (j - bd)))) else word dd (Z.to_nat j).
Proof.
  intros Hne Hvd Hvs. revert m dd bd bs. induction n as [|n IH]; intros m dd bd bs Hd Hl Hs Hbd Hbdn Hbs Hbsn; cbn [copy_words].
  { exists dd. split_and!; [done| |].
    - rewrite insert_id by done. by destruct m.
    - intros j Hj. by rewrite decide_False by lia. }
  destruct (word_addr vs bs Hvs) as [Hrd _]; [lia|]. destruct (word_addr vd bd Hvd) as [_ Hwr]; [lia|].
  assert (Hr : read_word (vs + 4 * bs) m = Ret (word ds (Z.to_nat bs)) m).
  { rewrite Hrd. unfold read_pte, read_page. kred. cbn. by rewrite Hs. }
  kstep Hr. set (x := word ds (Z.to_nat bs)). set (d1 := set_word dd (Z.to_nat bd) x).
  assert (Hw : write_word (vd + 4 * bd) x m = Ret tt (set_km_pages (<[vd:=d1]> (km_pages m)) m)).
  { rewrite Hwr. unfold write_pte, read_page, write_page. kred. cbn. by rewrite Hd. }
  kstep Hw. replace (vd + 4 * bd + 4) with (vd + 4 * (bd + 1)) by lia. replace (vs + 4 * bs + 4) with (vs + 4 * (bs + 1)) by lia.
  destruct (IH (set_km_pages (<[vd:=d1]> (km_pages m)) m) d1 (bd + 1) (bs + 1)) as (d & Hld & Hrun & Hword); try lia.
  { cbn. by rewrite lookup_insert_eq. }
  { unfold d1. by rewrite set_word_length. }
  { cbn. by rewrite lookup_insert_ne. }
  exists d. split_and!; [done|rewrite Hrun; cbn; by rewrite insert_insert_eq|].
  intros j Hj. rewrite Hword by done. destruct (decide (j = bd)) as [->|Hjb].
  - rewrite decide_False, decide_True by lia. unfold d1. rewrite word_set_eq by (rewrite Hl; unfold PGSIZE; lia).
    unfold x. do 3 f_equal. lia.
  - unfold d1. rewrite word_set_ne by lia. destruct (decide (bd + 1 ≤ j < bd + 1 + Z.of_nat n)).
    + rewrite decide_True by lia. do 3 f_equal. lia.
    + by rewrite decide_False by lia.
Qed.

(** Word [i] of the trap frame at the top of the kernel stack [v]. *)
Definition frame_word (m : kmem) (v i : Z) : Z := pde m v (1005 + i).

Lemma fork_frame_run s np x y :
  s_proc s !! np = Some y → p_tf y = p_kstack y + 4096 - 76 → p_tf x = p_kstack x + 4096 - 76 →
  p_kstack y ≠ p_kstack x → p_kstack y mod PGSIZE = 0 → p_kstack x mod PGSIZE = 0 →
  (∃ d, km_pages (mem_of s) !! p_kstack y = Some d ∧ length d = Z.to_nat PGSIZE) →
  is_Some (km_pages (mem_of s) !! p_kstack x) →
  ∃ d, length d = Z.to_nat PGSIZE ∧
    let m' := set_km_pages (<[p_kstack y:=d]> (km_pages (mem_of s))) (mem_of s) in
    fork_frame np x s = Ret tt (set_mem m' s) ∧
    ∀ i, 0 ≤ i < 19 → frame_word m' (p_kstack y) i =
      if decide (i = 7) then 0 else u32 (frame_word (mem_of s) (p_kstack x) i).
Proof.
  intros Hy Hty Htx Hne Hay Hax (dd & Hdd & Hldd) [ds Hds]. unfold fork_frame. kstep (getproc_run s np y Hy).
  destruct (copy_words_run 19 (mem_of s) (p_kstack y) (p_kstack x) dd ds 1005 1005) as (d1 & Hl1 & Hrun & Hword); try done.
  replace (p_tf y) with (p_kstack y + 4 * 1005) by lia. replace (p_tf x) with (p_kstack x + 4 * 1005) by lia.
  kstep (in_mem_Ret _ s _ _ Hrun). set (m1 := set_km_pages _ _).
  exists (set_word d1 1012 0). rewrite set_word_length. split; [done|]. cbv zeta. split.
  - unfold TF_EAX. replace (p_kstack y + 4 * 1005 + 28) with (p_kstack y + 4 * 1012) by lia.
    assert (Hw : write_word (p_kstack y + 4 * 1012) 0 m1 =
      Ret tt (set_km_pages (<[p_kstack y:=set_word d1 1012 0]> (km_pages m1)) m1)).
    { rewrite (proj2 (word_addr _ 1012 Hay ltac:(lia))). unfold write_pte, read_page, write_page. kred. cbn.
      by rewrite lookup_insert_eq. }
    rewrite (in_mem_Ret _ (set_mem m1 s) _ _ Hw). unfold m1. cbn. rewrite insert_insert_eq. done.
  - intros i Hi. unfold frame_word. rewrite pde_insert, decide_True by done. unfold pde. rewrite Hds.
    destruct (decide (i = 7)) as [->|].
    + change (Z.to_nat (1005 + 7)) with 1012%nat. rewrite word_set_eq by (rewrite Hl1; unfold PGSIZE; lia). done.
    + rewrite word_set_ne by lia. rewrite Hword by lia. rewrite decide_True by lia. do 3 f_equal. lia.
Qed.

(** ** Files, directory and name *)

Definition set_ic (c : icache) (s : state) : state := set_s_sys (set_s_k (set_k_ic c (s_k (s_sys s))) (s_sys s)) s.

Definition ref_inode (ip : nat) (z : inode) (s : state) : icache :=
  ICache false (<[ip:=set_i_ref (i_ref z + 1) z]> (ic_inode (k_ic (s_k (s_sys s))))).

Lemma idup_ref_run s ip z :
  ic_lock (k_ic (s_k (s_sys s))) = false → ic_inode (k_ic (s_k (s_sys s))) !! ip = Some z →
  in_fs (λ CP LO, zoom ic_l (idup ip)) s = Ret ip (set_ic (ref_inode ip z s) s).
Proof.
  intros Hl Hz. unfold ref_inode. set (c := k_ic (s_k (s_sys s))) in *.
  assert (Hd : idup ip c = Ret ip (ICache false (<[ip:=set_i_ref (i_ref z + 1) z]> (ic_inode c)))).
  { unfold idup, acquire, release, updinode. kred. cbn. rewrite Hl. cbn. rewrite Hz. done. }
  exact (zoom_Ret sys_l _ s ip _ (zoom_Ret k_l _ _ ip _ (zoom_Ret ic_l _ _ ip _ Hd))).
Qed.

Lemma fork_files_run s np x y ip z :
  s_proc s !! np = Some y → ft_lock (s_ft (s_sys s)) = false → ic_lock (k_ic (s_k (s_sys s))) = false →
  (∀ f, f ∈ open_files (p_ofile x) → ∃ z, ft_file (s_ft (s_sys s)) !! f = Some z ∧ 1 ≤ f_ref z) →
  p_cwd x = Some ip → ic_inode (k_ic (s_k (s_sys s))) !! ip = Some z → p_ofile y = replicate (length (p_ofile x)) None →
  length (p_name x) = 16%nat → length (p_name y) = 16%nat →
  ∃ name, length name = 16%nat ∧
    fork_files np x s = Ret tt
      (set_ic (ref_inode ip z s)
      (set_ft (FTable false (dup_refs (ft_file (s_ft (s_sys s))) (open_files (p_ofile x))))
      (set_s_proc (<[np:=set_p_name name (set_p_cwd (Some ip) (set_p_ofile (p_ofile x) y))]> (s_proc s)) s))).
Proof.
  intros Hy Hft Hic Hf Hcwd Hz Hof Hnx Hny. unfold fork_files. kstep (dup_files_run (p_ofile x) 0 np s y Hft Hy Hf).
  pose proof (overlay_full [] (p_ofile x)) as Hov. cbn in Hov. rewrite Hof, Hov.
  set (y1 := set_p_ofile (p_ofile x) y). set (sA := set_ft _ _). rewrite Hcwd. cbn [deref].
  rewrite (K_bind_Ret _ _ sA ip sA) by done. kstep (idup_ref_run sA ip z Hic Hz). set (sB := set_ic _ sA).
  assert (HB : s_proc sB !! np = Some y1) by (by apply (insert_lookup _ _ _ _ Hy)).
  kstep (updproc_run sB np (set_p_cwd (Some ip)) y1 HB). set (sC := set_s_proc _ sB).
  assert (HC : s_proc sC !! np = Some (set_p_cwd (Some ip) y1)) by (by apply (insert_lookup _ _ _ _ HB)).
  kstep (getproc_run sC np _ HC).
  destruct (safestrcpy_run (p_name y) (p_name x) 16) as (name & Hn & Hln & _); [lia|by rewrite Hny|left; rewrite Hnx; cbn; lia|].
  cbn [p_name set_p_cwd y1 set_p_ofile]. rewrite Hn. cbn [deref]. rewrite (K_bind_Ret _ _ sC name sC) by done.
  rewrite (updproc_run sC np (set_p_name name) _ HC). exists name. split; [lia|].
  unfold sC, sB, sA, set_ic, set_ft, ref_inode. cbn. by rewrite !list_insert_insert_eq.
Qed.

(** ** Namespaces and pids *)

Lemma ns_inv_bump s R H q :
  ns_inv s R H → ns_inv (set_pt_pid_namespaces (bump (pt_pid_namespaces s) q) s) R H.
Proof.
  intros Hs. unfold bump. destruct (pt_pid_namespaces s !! q) as [x|] eqn:Hx.
  - rewrite (list_alter_Some _ _ _ _ Hx). unfold set_pt_pid_namespaces. rewrite (nv_pid_lock _ _ _ Hs).
    eapply ns_inv_space; [done|done|apply (nv_H _ _ _ Hs)|done|cbn; lia].
  - replace (alter _ q (pt_pid_namespaces s)) with (pt_pid_namespaces s); [by destruct s|].
    apply list_eq. intros j. rewrite list_lookup_alter. case_decide; [|done]. subst. by rewrite Hx.
Qed.

Lemma ns_inv_bumps qs s R H :
  ns_inv s R H → ns_inv (set_pt_pid_namespaces (foldl bump (pt_pid_namespaces s) qs) s) R H.
Proof.
  revert s. induction qs as [|q qs IH]; intros s Hs; cbn [foldl]; [by destruct s|].
  exact (IH _ (ns_inv_bump s R H q Hs)).
Qed.

Lemma bumps_next_pid qs l r : NoDup qs → Forall (λ q, is_Some (l !! q)) qs →
  next_pid (foldl bump l qs) r = if decide (r ∈ qs) then s32 (next_pid l r + 1) else next_pid l r.
Proof.
  revert l. induction qs as [|q qs IH]; intros l Hnd Hl; cbn [foldl].
  { by rewrite decide_False by set_solver. }
  apply NoDup_cons in Hnd as [Hq Hnd]. apply Forall_cons in Hl as [[x Hx] Hl].
  rewrite IH; [|done|].
  - destruct (decide (r = q)) as [->|Hne].
    + rewrite decide_False, decide_True by set_solver. unfold next_pid, bump. rewrite list_lookup_alter_eq, Hx. done.
    + rewrite next_pid_bump by done. destruct (decide (r ∈ qs)); [by rewrite decide_True by set_solver|by rewrite decide_False by set_solver].
  - eapply Forall_impl; [done|]. intros z [w Hw]. unfold bump. rewrite list_lookup_alter. destruct (decide (q = z)); [|rewrite Hw; by eexists].
    subst. rewrite Hw. by eexists.
Qed.

(** Changes of the counters only. *)
Definition same_pids (l l' : list pid_namespace) : Prop :=
  ∀ r z, l !! r = Some z → ∃ z', l' !! r = Some z' ∧ pn_lock z' = pn_lock z ∧ pn_parent z' = pn_parent z ∧
    pn_next_pid z' = pn_next_pid z.

Lemma same_pids_chain l l' qs : same_pids l l' → ns_chain l qs → ns_chain l' qs.
Proof.
  intros Hs. induction qs as [|q qs IH]; [done|]. intros (x & Hx & Hl & Hp & Hc). destruct (Hs q x Hx) as (x' & Hx' & E1 & E2 & _).
  exists x'. rewrite E1, E2. split_and!; try done. destruct qs; [done|by apply IH].
Qed.
Lemma same_pids_next l l' q : same_pids l l' → is_Some (l !! q) → next_pid l' q = next_pid l q.
Proof. intros Hs [x Hx]. destruct (Hs q x Hx) as (x' & Hx' & _ & _ & E). unfold next_pid. rewrite Hx, Hx'. cbn. by rewrite E. Qed.

Lemma ns_chain_is_Some l qs q : ns_chain l qs → q ∈ qs → is_Some (l !! q).
Proof.
  induction qs as [|r qs IH]; [done|]. intros (x & Hx & _ & _ & Hc) [->|Hq]%elem_of_cons; [by eexists|].
  destruct qs; [by apply elem_of_nil in Hq|by apply IH].
Qed.

(** The child needs a proxy of its own and there is none. *)
Definition no_proxy (t : nstate) (x : proc) : Prop :=
  is_Some (p_child_pid_namespace x) ∧ free_nsproxy_entry 0 (nt_nsproxy t) = None.

(** The proxy of the child: the parent's, or a new one of the namespace that
    the parent has unshared. *)
Lemma child_namespace_run s c np x y R H n q :
  ns_inv (s_ns s) R H → s_proc s !! c = Some x → s_proc s !! np = Some y → p_nsproxy x = Some n → n ∈ R →
  (match p_child_pid_namespace x with Some q' => q = q' ∧ q ∈ H | None => space_of (s_ns s) n = Some q end) →
  (no_proxy (s_ns s) x ∧ set_up_child_pid_namespace c np s = Panic "namespace out of max!") ∨
  ∃ n' t, set_up_child_pid_namespace c np s =
      Ret q (set_s_proc (<[np:=set_p_nsproxy (Some n') y]> (s_proc s)) (set_s_ns t s)) ∧
    ns_inv t (n' :: R) H ∧ space_of t n' = Some q ∧ space_of t n = space_of (s_ns s) n ∧
    same_pids (pt_pid_namespaces (s_ns s)) (pt_pid_namespaces t).
Proof.
  intros Hns Hx Hy Hpx HnR Hq. unfold set_up_child_pid_namespace. kstep (getproc_run s c x Hx). unfold no_proxy.
  destruct (p_child_pid_namespace x) as [q'|].
  - destruct Hq as [<- HqH]. pose proof (nv_H _ _ _ Hns) as HH. rewrite Forall_forall in HH.
    destruct (create_nsproxy_some _ _ _ q Hns (HH q HqH)) as [[Hf Hp]|(i & z & t & Hc & HiR & Ht & Hz & Hi & Hpid & Hpx')].
    { left. split; [by split; [eexists|]|]. apply K_bind_Panic. by apply zoom_Panic. }
    right. exists i, t. kstep (zoom_ns _ s _ _ Hc). kstep (updproc_run (set_s_ns t s) np (set_p_nsproxy (Some i)) y Hy).
    rewrite <- (nv_proxies _ _ _ Hns) in Hi. destruct (lookup_lt_is_Some_2 _ _ Hi) as [w Hw].
    split; [done|]. split; [done|]. unfold space_of. rewrite Hpx'. split_and!.
    + by rewrite (insert_lookup _ _ _ _ Hw).
    + rewrite list_lookup_insert_ne; [done|]. by intros ->.
    + intros r u Hu. rewrite Hpid. destruct (decide (q = r)) as [<-|].
      * rewrite (insert_lookup _ _ _ _ Hu). eexists. split; [done|]. simplify_eq. done.
      * rewrite list_lookup_insert_ne by done. eauto.
  - right. destruct (get_nsproxy_run _ _ _ n Hns HnR) as (t & Hg & Ht & Hpid & Hsp). exists n, t.
    rewrite Hpx. cbn [deref]. rewrite (K_bind_Ret _ _ s n s) by done. kstep (zoom_ns _ s _ _ Hg).
    kstep (updproc_run (set_s_ns t s) np (set_p_nsproxy (Some n)) y Hy). set (sA := set_s_proc _ _).
    assert (HA : s_proc sA !! np = Some (set_p_nsproxy (Some n) y)) by (by apply (insert_lookup _ _ _ _ Hy)).
    kstep (getproc_run sA np _ HA). rewrite <- Hsp in Hq. unfold space_of in Hq.
    destruct (nt_nsproxy t !! n) as [w|] eqn:Hw; [|done]. cbn in Hq.
    assert (Hpn : pid_ns_of (set_p_nsproxy (Some n) y) sA = Ret (Some q) sA).
    { unfold pid_ns_of. cbn [p_nsproxy set_p_nsproxy deref]. rewrite (K_bind_Ret _ _ sA n sA) by done.
      rewrite (K_bind_Ret _ _ sA w sA); [by rewrite Hq|]. apply zoom_ns_same. unfold getns. kred. cbn. by rewrite Hw. }
    kstep Hpn. split; [done|]. split; [done|]. split; [unfold space_of; by rewrite Hw|]. split; [apply Hsp|].
    intros r u Hu. rewrite Hpid. eauto.
Qed.

Lemma pid_ns_of_run s x n q : p_nsproxy x = Some n → space_of (s_ns s) n = Some q → pid_ns_of x s = Ret (Some q) s.
Proof.
  intros Hn Hq. unfold pid_ns_of, space_of in *. rewrite Hn. cbn [deref]. rewrite (K_bind_Ret _ _ s n s) by done.
  destruct (nt_nsproxy (s_ns s) !! n) as [w|] eqn:Hw; [|done]. cbn in Hq.
  rewrite (K_bind_Ret _ _ s w s); [by rewrite Hq|]. apply zoom_ns_same. unfold getns. kred. by rewrite Hw.
Qed.

(** The child's pids: one in its namespace and in each of its ancestors. *)
Definition child_pids (l : list pid_namespace) (qs : list nat) (y : proc) : list pid_entry :=
  list_inserts 0 ((λ q, (Some q, next_pid l q)) <$> qs) (p_pids y).
Definition child_of (l : list pid_namespace) (q : nat) (qs : list nat) (n : nat) (y : proc) : proc :=
  set_p_pid (next_pid l q) (set_p_pids (child_pids l (q :: qs) y) (set_p_nsproxy (Some n) y)).

Lemma child_pids_same l l' qs y :
  same_pids l l' → Forall (λ q, is_Some (l !! q)) qs → child_pids l' qs y = child_pids l qs y.
Proof.
  intros Hs Hq. unfold child_pids. f_equal. apply list_fmap_ext. intros i q Hi. rewrite Forall_forall in Hq.
  rewrite (same_pids_next l l' q Hs); [done|]. apply Hq. by eapply list_elem_of_lookup_2.
Qed.

Lemma fork_pids_run s c np x y R H n q p qs :
  ns_inv (s_ns s) R H → s_proc s !! c = Some x → s_proc s !! np = Some y → c ≠ np → p_nsproxy x = Some n → n ∈ R →
  (match p_child_pid_namespace x with Some q' => q = q' ∧ q ∈ H | None => space_of (s_ns s) n = Some q end) →
  space_of (s_ns s) n = Some p →
  ns_chain (pt_pid_namespaces (s_ns s)) (q :: qs) → NoDup (q :: qs) → (length (q :: qs) ≤ PID_NAMESPACE_MAX_DEPTH)%nat →
  length (p_pids y) = PID_NAMESPACE_MAX_DEPTH →
  (no_proxy (s_ns s) x ∧ fork_pids c np s = Panic "namespace out of max!") ∨
  ∃ n' t, let l := pt_pid_namespaces (s_ns s) in let y' := child_of l q qs n' y in
    fork_pids c np s = Ret (get_namespace_pid y' (Some p)) (set_s_proc (<[np:=y']> (s_proc s)) (set_s_ns t s)) ∧
    ns_inv t (n' :: R) H ∧ space_of t n' = Some q ∧
    ∀ r, is_Some (l !! r) → next_pid (pt_pid_namespaces t) r =
      if decide (r ∈ q :: qs) then s32 (next_pid l r + 1) else next_pid l r.
Proof.
  intros Hns Hx Hy Hne Hpx HnR Hq Hsp Hc Hnd Hlen Hlp. unfold fork_pids.
  destruct (child_namespace_run s c np x y R H n q Hns Hx Hy Hpx HnR Hq) as [[? Hp]|(n' & t & Hrun & Ht & Hn' & Hspn & Hsame)].
  { left. split; [done|]. by apply K_bind_Panic. }
  right. kstep Hrun. set (sA := set_s_proc _ _). set (y1 := set_p_nsproxy (Some n') y).
  assert (HA : s_proc sA !! np = Some y1) by (by apply (insert_lookup _ _ _ _ Hy)).
  kstep (set_up_pids_run np qs q sA y1 (same_pids_chain _ _ _ Hsame Hc) Hnd Hlen HA).
  change (s_ns sA) with t. set (l := pt_pid_namespaces (s_ns s)) in *.
  assert (Hsome : Forall (λ q, is_Some (l !! q)) (q :: qs)).
  { apply Forall_forall. intros r Hr. by eapply ns_chain_is_Some. }
  change (list_inserts 0 ?e (p_pids y1)) with (child_pids (pt_pid_namespaces t) (q :: qs) y).
  rewrite (child_pids_same l _ _ y Hsame Hsome).
  set (y2 := set_p_pids (child_pids l (q :: qs) y) y1). set (sB := set_s_proc _ _).
  assert (HB : s_proc sB !! np = Some y2) by (by apply (insert_lookup _ _ _ _ HA)). kstep (getproc_run sB np y2 HB).
  assert (H0 : p_pids y2 !! 0%nat = Some (Some q, next_pid l q)).
  { cbn. unfold child_pids. cbn [fmap list_fmap list_inserts]. rewrite list_lookup_insert_eq; [done|].
    rewrite length_inserts. unfold PID_NAMESPACE_MAX_DEPTH, pid_entry in *. lia. }
  rewrite H0. cbn [deref]. rewrite (K_bind_Ret _ _ sB (Some q, next_pid l q) sB) by done. cbn [snd].
  kstep (updproc_run sB np (set_p_pid (next_pid l q)) y2 HB). set (sC := set_s_proc _ sB).
  assert (HC : s_proc sC !! c = Some x).
  { unfold sC, sB, sA. cbn. rewrite !list_lookup_insert_ne by done. done. }
  set (t' := set_pt_pid_namespaces (foldl bump (pt_pid_namespaces t) (q :: qs)) t).
  kstep (getproc_run sC c x HC). assert (Hpid : pid_ns_of x sC = Ret (Some p) sC).
  { apply (pid_ns_of_run sC x n); [done|]. change (space_of t n = Some p). by rewrite Hspn. }
  kstep Hpid. exists n', t'. cbv zeta. set (y3 := child_of l q qs n' y).
  assert (HC' : s_proc sC !! np = Some y3) by (by apply (insert_lookup _ _ _ _ HB)).
  kstep (getproc_run sC np y3 HC'). split_and!.
  - f_equal. unfold sC, sB, sA. cbn. by rewrite !list_insert_insert_eq.
  - by apply ns_inv_bumps.
  - exact Hn'.
  - intros r Hr. cbn [t' pt_pid_namespaces set_pt_pid_namespaces]. rewrite bumps_next_pid; [|done|].
    + by rewrite (same_pids_next l).
    + eapply Forall_impl; [exact Hsome|]. intros z [w Hw]. destruct (Hsame z w Hw) as (w' & -> & _). by eexists.
Qed.

(** ** Memory *)

Context (kend_above : KERNBASE < kend).
Context (kdata_aligned : kdata mod PGSIZE = 0) (kdata_above : KERNLINK < kdata < P2V PHYSTOP).

(** What [fork] does to memory: the first free page [v] is the kernel stack,
    and [copyuvm] works on the others. *)
Lemma fork_memory m v l pd sz m1 d :
  space_ok m (v :: l) pd → 0 ≤ sz ≤ KERNBASE → (∀ j, 0 ≤ j < npages sz → is_Some (uent m pd j)) →
  kalloc m = Ret v m1 → length d = Z.to_nat PGSIZE →
  ∃ r m2 l2, copyuvm pd sz (set_km_pages (<[v:=d]> (km_pages m1)) m1) = Ret r m2 ∧ km_pages m2 !! v = Some d ∧
    (∀ w, w ∉ v :: l → km_pages m2 !! w = km_pages m !! w) ∧
    ((r = 0 ∧ Z.of_nat (length l) ≤ npages sz + 1026 ∧ ∃ m3, kfree v m2 = Ret tt m3 ∧ space_ok m3 (v :: l2) pd ∧ (∀ w, w ∈ v :: l2 ↔ w ∈ v :: l) ∧
        (∀ w, w ∉ v :: l → km_pages m3 !! w = km_pages m !! w) ∧
        ∀ j, 0 ≤ j < NUSER → uent m3 pd j = uent m pd j) ∨
     (r ≠ 0 ∧ ∀ d3, length d3 = Z.to_nat PGSIZE → let m3 := set_km_pages (<[v:=d3]> (km_pages m2)) m2 in
        space_ok m3 l2 pd ∧ space_ok m3 l2 r ∧ separate m3 pd r ∧ in_use m3 l2 v ∧ ¬ owned m3 pd v ∧ ¬ owned m3 r v ∧
        (∀ j, 0 ≤ j < NUSER → uent m3 pd j = uent m pd j) ∧
        ∀ j, 0 ≤ j < NUSER → uent m3 r j = if decide (j < npages sz) then uent m pd j else None)).
Proof.
  intros Hs Hsz Hent Hk Hd. destruct (hold_page m v l pd d Hs Hd) as (m1' & Hk' & Hv0 & Hs' & Huse & Hpg & Hno & Hown & _ & He').
  rewrite Hk in Hk'. injection Hk' as <-. set (m' := set_km_pages (<[v:=d]> (km_pages m1)) m1) in *.
  assert (Hpg' : ∀ w, w ≠ v → km_pages m' !! w = km_pages m !! w).
  { intros w Hw. cbn. rewrite lookup_insert_ne by done. by rewrite Hpg. }
  pose proof (npages_range sz Hsz) as Hnr. pose proof Huse as (Hpa & Hvr & Hvl & _).
  destruct (copyuvm_run kend_above kdata_aligned kdata_above m' l pd sz Hs' Hsz)
    as (r & m2 & l2 & Hrun & Hs2 & Hfr2 & Hown2 & He2 & Hcase).
  { intros j Hj. rewrite He' by lia. by apply Hent. }
  exists r, m2, l2. split; [done|]. assert (Hv2 : km_pages m2 !! v = Some d) by (rewrite Hfr2 by done; cbn; by rewrite lookup_insert_eq).
  split; [done|]. assert (Hw2 : ∀ w, w ∉ v :: l → km_pages m2 !! w = km_pages m !! w).
  { intros w [? ?]%not_elem_of_cons. by rewrite Hfr2, Hpg'. }
  split; [done|]. assert (Hnov : ¬ owned m2 pd v) by (by rewrite Hown2).
  destruct Hcase as [(-> & Hl2 & Hsh)|(Hr0 & Hsr & Hsep & Her & Hownr)]; [left|right]; (split; [done|]).
  - split; [done|]. destruct (kfree_run m2 l2 v (pt_mem _ _ _ (sp_pt _ _ _ Hs2)) Hpa Hvr) as [Hf Hm3]; [by rewrite Hl2|].
    set (m3 := KMem _ _ _ _) in *. exists m3. split; [done|].
    destruct (space_same m2 l2 m3 (v :: l2) pd Hs2 Hm3) as (H1 & _ & _ & H4).
    { intros w Hw. assert (w ≠ v) by (intros ->; done). destruct (owned_in_use _ _ _ _ Hs2 Hw) as (_ & _ & ? & _).
      split; [by apply not_elem_of_cons|]. cbn. by rewrite lookup_insert_ne. }
    split; [done|]. split; [intros w; by rewrite !elem_of_cons, Hl2|]. split.
    + intros w Hw. rewrite <- Hw2 by done. apply not_elem_of_cons in Hw as [? _]. cbn. by rewrite lookup_insert_ne.
    + intros j Hj. by rewrite H4, He2, He'.
  - intros d3 Hd3 m3. assert (Hvl2 : v ∉ l2 ∧ ¬ owned m2 r v) by (specialize (Hownr v); tauto).
    assert (Hm3 : kmem_ok m3 l2) by (apply kmem_ok_write; [apply Hs2|tauto]).
    assert (Hkeep : ∀ c, space_ok m2 l2 c → ¬ owned m2 c v → space_ok m3 l2 c ∧ (∀ w, owned m3 c w ↔ owned m2 c w) ∧
      ∀ j, 0 ≤ j < NUSER → uent m3 c j = uent m2 c j).
    { intros c Hc Hnc. destruct (space_same m2 l2 m3 l2 c Hc Hm3) as (? & ? & _ & ?); [|done].
      intros w Hw. destruct (owned_in_use _ _ _ _ Hc Hw) as (_ & _ & ? & _). split; [done|].
      cbn. rewrite lookup_insert_ne; [done|]. by intros ->. }
    destruct (Hkeep pd Hs2 Hnov) as (A1 & A2 & A3). destruct (Hkeep r Hsr ltac:(tauto)) as (B1 & B2 & B3).
    assert (Hin : in_use m3 l2 v).
    { do 2 (split; [done|]). split; [tauto|]. exists d3. cbn. by rewrite lookup_insert_eq. }
    split; [done|]. split; [done|]. split; [|split; [done|]; split_and!].
    + intros w Hw. rewrite B2. rewrite A2 in Hw. by apply Hsep.
    + by rewrite A2.
    + rewrite B2. tauto.
    + intros j Hj. by rewrite A3, He2, He'.
    + intros j Hj. rewrite B3, Her by done. case_decide; [|done]. by apply He'.
Qed.

(** ** [fork] *)

(** A running process whose parts are in order: its memory, stack and files,
    its directory [ip], its proxy [n] of namespace [p], and the namespace [q]
    its children get, with the ancestors [qs] of that. *)
Record fork_ready (s : state) (l : list Z) (R H : list nat) (c : nat) (x : proc)
    (ip : nat) (z : inode) (n p q : nat) (qs : list nat) : Prop := {
  fr_mem : proc_mem s l c x;
  fr_lock : s_pt_lock s = false;
  fr_state : p_state x = RUNNING;
  fr_stack : in_use (mem_of s) l (p_kstack x);
  fr_frame : p_tf x = p_kstack x + 4096 - 76;
  fr_ft : ft_lock (s_ft (s_sys s)) = false;
  fr_files f : f ∈ open_files (p_ofile x) → ∃ y, ft_file (s_ft (s_sys s)) !! f = Some y ∧ 1 ≤ f_ref y;
  fr_ic : ic_lock (k_ic (s_k (s_sys s))) = false;
  fr_cwd : p_cwd x = Some ip;
  fr_inode : ic_inode (k_ic (s_k (s_sys s))) !! ip = Some z;
  fr_name : length (p_name x) = 16%nat;
  fr_unused i y : s_proc s !! i = Some y → p_state y = UNUSED →
    p_ofile y = replicate (length (p_ofile x)) None ∧ length (p_name y) = 16%nat ∧
    length (p_pids y) = PID_NAMESPACE_MAX_DEPTH;
  fr_ns : ns_inv (s_ns s) R H;
  fr_proxy : p_nsproxy x = Some n;
  fr_held : n ∈ R;
  fr_space : space_of (s_ns s) n = Some p;
  fr_child : match p_child_pid_namespace x with Some q' => q = q' ∧ q ∈ H | None => q = p end;
  fr_chain : ns_chain (pt_pid_namespaces (s_ns s)) (q :: qs);
  fr_nodup : NoDup (q :: qs);
  fr_depth : (length (q :: qs) ≤ PID_NAMESPACE_MAX_DEPTH)%nat;
}.

(** The child in its entry. *)
Definition forked (l : list pid_namespace) (c : nat) (x : proc) (y : proc) (q : nat) (qs : list nat) (n : nat)
    (pgdir : Z) (name : list Z) : proc :=
  set_p_state RUNNABLE (child_of l q qs n (set_p_name name (set_p_cwd (p_cwd x) (set_p_ofile (p_ofile x)
    (set_p_parent (Some c) (set_p_sz (p_sz x) (set_p_pgdir pgdir y))))))).

(** The updates of the last steps, collected. *)
Lemma fork_state_eq s m ft ic np y1 y2 y3 t :
  s_pt_lock s = false →
  let s1 := set_ic ic (set_ft ft (set_s_proc (<[np:=y1]> (s_proc s)) (set_mem m s))) in
  let s2 := set_s_proc (<[np:=y2]> (s_proc s1)) (set_s_ns t s1) in
  let s3 := set_s_pt_lock true s2 in
  set_s_pt_lock false (set_s_proc (<[np:=y3]> (s_proc s3)) s3) =
    set_s_ns t (set_ic ic (set_ft ft (set_s_proc (<[np:=y3]> (s_proc s)) (set_mem m s)))).
Proof.
  intros Hl. destruct s. cbn in *. subst. rewrite !list_insert_insert_eq. reflexivity.
Qed.

(** From the copied memory to the end. *)
Lemma fork_rest_run s0 s l R H c x ip z n p q qs np y v d :
  fork_ready s0 l R H c x ip z n p q qs →
  s_pt_lock s = false → s_proc s !! c = Some x → s_proc s !! np = Some y → c ≠ np →
  s_ft (s_sys s) = s_ft (s_sys s0) → s_k (s_sys s) = s_k (s_sys s0) → s_ns s = s_ns s0 →
  p_kstack y = v → p_tf y = v + 4096 - 76 → v ≠ p_kstack x → v mod PGSIZE = 0 →
  p_ofile y = replicate (length (p_ofile x)) None → length (p_name y) = 16%nat →
  length (p_pids y) = PID_NAMESPACE_MAX_DEPTH →
  km_pages (mem_of s) !! v = Some d → length d = Z.to_nat PGSIZE →
  km_pages (mem_of s) !! p_kstack x = km_pages (mem_of s0) !! p_kstack x →
  let rest := (fork_frame np x;; fork_files np x;; pid ← fork_pids c np;
    acquire ptable_l;; updproc np (set_p_state RUNNABLE);; release ptable_l;; mret pid) in
  (no_proxy (s_ns s0) x ∧ rest s = Panic "namespace out of max!") ∨
  ∃ d3 n' t name, length d3 = Z.to_nat PGSIZE ∧ length name = 16%nat ∧
    let m3 := set_km_pages (<[v:=d3]> (km_pages (mem_of s))) (mem_of s) in
    let y' := set_p_state RUNNABLE (child_of (pt_pid_namespaces (s_ns s)) q qs n'
      (set_p_name name (set_p_cwd (Some ip) (set_p_ofile (p_ofile x) y)))) in
    rest s = Ret (get_namespace_pid y' (Some p))
      (set_s_ns t (set_ic (ref_inode ip z s) (set_ft (FTable false (dup_refs (ft_file (s_ft (s_sys s))) (open_files (p_ofile x))))
        (set_s_proc (<[np:=y']> (s_proc s)) (set_mem m3 s))))) ∧
    ns_inv t (n' :: R) H ∧ space_of t n' = Some q ∧
    (∀ r, is_Some (pt_pid_namespaces (s_ns s) !! r) → next_pid (pt_pid_namespaces t) r =
      if decide (r ∈ q :: qs) then s32 (next_pid (pt_pid_namespaces (s_ns s)) r + 1) else next_pid (pt_pid_namespaces (s_ns s)) r) ∧
    ∀ i, 0 ≤ i < 19 → frame_word m3 v i = if decide (i = 7) then 0 else u32 (frame_word (mem_of s0) (p_kstack x) i).
Proof.
  intros F Hlk Hx Hy Hne Eft Ek Ens Hks Htf Hvx Hva Hof Hnm Hpids Hd Hld Hdx rest. unfold rest.
  pose proof (fr_stack _ _ _ _ _ _ _ _ _ _ _ _ F) as (Hpx & _ & _ & dx & Hdx0 & _).
  subst v. destruct (fork_frame_run s np x y Hy Htf) as (d3 & Hl3 & Hrun3 & Hfr3);
    [apply F|done|done|by apply page_aligned|eauto|rewrite Hdx, Hdx0; by eexists|].
  kstep Hrun3. set (m3 := set_km_pages _ _) in *. set (sA := set_mem m3 s).
  destruct (fork_files_run sA np x y ip z) as (name & Hnl & Hrun4); try done; cbn;
    rewrite ?Eft, ?Ek; try apply F. kstep Hrun4. set (y1 := set_p_name name _). set (sB := set_ic _ _).
  assert (HBx : s_proc sB !! c = Some x) by (cbn; by rewrite list_lookup_insert_ne).
  assert (HBy : s_proc sB !! np = Some y1) by (by apply (insert_lookup _ _ _ _ Hy)).
  destruct (fork_pids_run sB c np x y1 R H n q p qs) as [[? Hp]|(n' & t & Hrun5 & Ht & Hn' & Hnext)];
    try done; cbn [s_ns sB set_ic set_ft set_s_proc set_s_sys sA set_mem]; rewrite ?Ens; try apply F.
  { pose proof (fr_child _ _ _ _ _ _ _ _ _ _ _ _ F) as Hch. destruct (p_child_pid_namespace x); [done|].
    rewrite Hch. apply F. }
  { left. split; [by rewrite <- Ens|]. by apply K_bind_Panic. }
  right. exists d3, n', t, name. split; [done|]. split; [done|]. cbv zeta. kstep Hrun5.
  change (s_ns sB) with (s_ns s) in *. set (y2 := child_of _ q qs n' y1). set (sC := set_s_proc _ (set_s_ns t sB)).
  set (sD := set_s_pt_lock true sC).
  rewrite (K_bind_Ret _ _ sC tt sD) by (unfold acquire; cbn; by rewrite Hlk).
  assert (HD : s_proc sD !! np = Some y2) by (by apply (insert_lookup _ _ _ _ HBy)).
  kstep (updproc_run sD np (set_p_state RUNNABLE) y2 HD). set (sE := set_s_proc _ sD).
  rewrite (K_bind_Ret _ _ sE tt (set_s_pt_lock false sE)) by done. rewrite <- Ens in *.
  split_and!; [|done|done|done|].
  - unfold sE, sD, sC, sB. unfold mret, K_ret. f_equal. rewrite <- Eft.
    exact (fork_state_eq s m3 _ (ref_inode ip z s) np y1 y2 (set_p_state RUNNABLE y2) t Hlk).
  - intros i Hi. rewrite Hfr3 by done. unfold frame_word, pde. by rewrite Hdx.
Qed.

(** What a failed [fork] leaves: only the numbers in an unused entry. *)
Definition fork_failed (s s' : state) (l l' : list Z) : Prop :=
  (∀ v, v ∈ l' ↔ v ∈ l) ∧ s_ns s' = s_ns s ∧ s_ft (s_sys s') = s_ft (s_sys s) ∧ s_k (s_sys s') = s_k (s_sys s) ∧
  ∀ i y, s_proc s' !! i = Some y → p_state y ≠ UNUSED → s_proc s !! i = Some y.

(** The child that [fork] made. *)
Record fork_child (s s' : state) (l' : list Z) (R H : list nat) (c : nat) (x : proc) (ip : nat) (z : inode)
    (q : nat) (qs : list nat) (np : nat) (y : proc) : Prop := {
  fc_unused y0 : s_proc s !! np = Some y0 → p_state y0 = UNUSED;
  fc_entry : s_proc s' !! np = Some y;
  fc_state : p_state y = RUNNABLE;
  fc_parent : p_parent y = Some c;
  fc_sz : p_sz y = p_sz x;
  fc_space : space_ok (mem_of s') l' (p_pgdir y);
  fc_separate : separate (mem_of s') (p_pgdir x) (p_pgdir y);
  fc_memory j : 0 ≤ j < NUSER → uent (mem_of s') (p_pgdir y) j =
    if decide (j < npages (p_sz x)) then uent (mem_of s) (p_pgdir x) j else None;
  fc_frame i : 0 ≤ i < 19 → frame_word (mem_of s') (p_kstack y) i =
    if decide (i = 7) then 0 else u32 (frame_word (mem_of s) (p_kstack x) i);
  fc_ofile : p_ofile y = p_ofile x;
  fc_files : s_ft (s_sys s') = FTable false (dup_refs (ft_file (s_ft (s_sys s))) (open_files (p_ofile x)));
  fc_cwd : p_cwd y = p_cwd x;
  fc_inode : k_ic (s_k (s_sys s')) = ref_inode ip z s;
  fc_ns : ∃ n', p_nsproxy y = Some n' ∧ ns_inv (s_ns s') (n' :: R) H ∧ space_of (s_ns s') n' = Some q;
  fc_pids : ∃ y0, s_proc s !! np = Some y0 ∧ p_pids y = child_pids (pt_pid_namespaces (s_ns s)) (q :: qs) y0;
  fc_next r : is_Some (pt_pid_namespaces (s_ns s) !! r) → next_pid (pt_pid_namespaces (s_ns s')) r =
    if decide (r ∈ q :: qs) then s32 (next_pid (pt_pid_namespaces (s_ns s)) r + 1) else next_pid (pt_pid_namespaces (s_ns s)) r;
}.

(** The parent's memory, seen from the other parts of the state. *)
Lemma proc_mem_change s s' l l' c x :
  proc_mem s l c x → s_cur s' = s_cur s → s_proc s' !! c = Some x → space_ok (mem_of s') l' (p_pgdir x) →
  (∀ j, 0 ≤ j < NUSER → uent (mem_of s') (p_pgdir x) j = uent (mem_of s) (p_pgdir x) j) → proc_mem s' l' c x.
Proof.
  intros [P1 P2 P3 P4 P5] Hc Hp Hs He. split; [congruence|done|done|done|]. intros j Hj.
  pose proof (npages_range _ P3). rewrite He by lia. by apply P5.
Qed.

(** The steps of [fork] up to the copy, with a free entry [np]. *)
Section entry.
Context (s : state) (l : list Z) (R H : list nat) (c : nat) (x : proc) (ip : nat) (z : inode) (n p q : nat) (qs : list nat).
Context (F : fork_ready s l R H c x ip z n p q qs).
Context (np : nat) (y0 : proc) (Eu : unused_proc 0 (s_proc s) = Some np).
Context (Hy0 : s_proc s !! np = Some y0) (Hun : p_state y0 = UNUSED).

Lemma entry_other : c ≠ np.
Proof. intros ->. pose proof (pm_proc _ _ _ _ (fr_mem _ _ _ _ _ _ _ _ _ _ _ _ F)). pose proof (fr_state _ _ _ _ _ _ _ _ _ _ _ _ F). congruence. Qed.
Lemma entry_used y' i y : s_proc s !! i = Some y → p_state y ≠ UNUSED → <[np:=y']> (s_proc s) !! i = Some y.
Proof. intros Hi Hst. rewrite list_lookup_insert_ne; [done|]. intros ->. congruence. Qed.
Lemma entry_failed y' : p_state y' = UNUSED →
  ∀ i y, <[np:=y']> (s_proc s) !! i = Some y → p_state y ≠ UNUSED → s_proc s !! i = Some y.
Proof. intros Hst i y [(<- & -> & _)|[_ Hi]]%list_lookup_insert_cases; [done|]. done. Qed.

Lemma fork_no_stack : l = [] →
  ∃ s', fork s = Ret (-1) s' ∧ proc_mem s' l c x ∧ mem_of s' = mem_of s ∧ fork_failed s s' l l ∧
    ∀ i y, s_proc s !! i = Some y → p_state y ≠ UNUSED → s_proc s' !! i = Some y.
Proof.
  intros ->. pose proof (fr_mem _ _ _ _ _ _ _ _ _ _ _ _ F) as Hm. pose proof Hm as [P1 P2 P3 P4 P5].
  unfold fork. kstep (myproc_run s c P1).
  pose proof (allocproc_run s [] np y0 (fr_lock _ _ _ _ _ _ _ _ _ _ _ _ F) Eu Hy0 (pt_mem _ _ _ (sp_pt _ _ _ P4))) as Ha.
  cbn in Ha. kstep Ha. eexists. split; [done|]. split_and!; [|done| |].
  - eapply proc_mem_change; [exact Hm|done| |done|done]. cbn. by apply (entry_used _ c x P2); rewrite (fr_state _ _ _ _ _ _ _ _ _ _ _ _ F).
  - split_and!; try done. by apply entry_failed.
  - intros i y. by apply entry_used.
Qed.
(** The state after [allocproc] and [copyuvm]. *)
Definition copied (m : kmem) (y : proc) : state :=
  set_mem m (set_s_proc (<[np:=y]> (s_proc s)) (set_s_nextpid (s32 (s_nextpid s + 1)) s)).

Lemma copied_upd m y f : updproc np f (copied m y) = Ret tt (copied m (f y)).
Proof.
  rewrite (updproc_run (copied m y) np f y) by (by apply (insert_lookup _ _ _ _ Hy0)).
  unfold copied, set_mem. cbn. by rewrite list_insert_insert_eq.
Qed.
Lemma copied_mem {A} (op : K kmem A) m y a m' : op m = Ret a m' → in_mem op (copied m y) = Ret a (copied m' y).
Proof. intros Hop. exact (in_mem_Ret op (copied m y) a m' Hop). Qed.
Lemma copied_parent m y : s_proc (copied m y) !! c = Some x.
Proof. cbn. rewrite list_lookup_insert_ne; [apply F|]. pose proof entry_other. congruence. Qed.
Lemma copied_entry m y : s_proc (copied m y) !! np = Some y.
Proof. cbn. by apply (insert_lookup _ _ _ _ Hy0). Qed.

Lemma fork_copied v l1 :
  l = v :: l1 →
  ∃ pgdir m2 l2 d, let y1 := set_p_pgdir pgdir (embryo (s_nextpid s) v y0) in
    km_pages m2 !! v = Some d ∧ length d = Z.to_nat PGSIZE ∧ (∀ w, w ∉ v :: l1 → km_pages m2 !! w = km_pages (mem_of s) !! w) ∧
    fork s = (if pgdir =? 0 then
        y ← getproc np; in_mem (kfree (p_kstack y));; updproc np (set_p_kstack 0);; updproc np (set_p_state UNUSED);; mret (-1)
      else updproc np (set_p_sz (p_sz x));; updproc np (set_p_parent (Some c));;
        fork_frame np x;; fork_files np x;; pid ← fork_pids c np;
        acquire ptable_l;; updproc np (set_p_state RUNNABLE);; release ptable_l;; mret pid) (copied m2 y1) ∧
    ((pgdir = 0 ∧ Z.of_nat (length l1) ≤ npages (p_sz x) + 1026 ∧ ∃ m3, kfree v m2 = Ret tt m3 ∧ space_ok m3 (v :: l2) (p_pgdir x) ∧ (∀ w, w ∈ v :: l2 ↔ w ∈ v :: l1) ∧
        ∀ j, 0 ≤ j < NUSER → uent m3 (p_pgdir x) j = uent (mem_of s) (p_pgdir x) j) ∨
     (pgdir ≠ 0 ∧ ∀ d3, length d3 = Z.to_nat PGSIZE → let m3 := set_km_pages (<[v:=d3]> (km_pages m2)) m2 in
        space_ok m3 l2 (p_pgdir x) ∧ space_ok m3 l2 pgdir ∧ separate m3 (p_pgdir x) pgdir ∧
        (∀ j, 0 ≤ j < NUSER → uent m3 (p_pgdir x) j = uent (mem_of s) (p_pgdir x) j) ∧
        ∀ j, 0 ≤ j < NUSER → uent m3 pgdir j =
          if decide (j < npages (p_sz x)) then uent (mem_of s) (p_pgdir x) j else None)).
Proof.
  intros El. pose proof (fr_mem _ _ _ _ _ _ _ _ _ _ _ _ F) as Hm. pose proof Hm as [P1 P2 P3 P4 P5].
  pose proof (allocproc_run s l np y0 (fr_lock _ _ _ _ _ _ _ _ _ _ _ _ F) Eu Hy0 (pt_mem _ _ _ (sp_pt _ _ _ P4))) as Ha.
  clear Hm. rewrite El in Ha, P4. cbn zeta in Ha. destruct Ha as (m1 & d & Hk & Hld & Ha).
  destruct (fork_memory (mem_of s) v l1 (p_pgdir x) (p_sz x) m1 d P4 P3 P5 Hk Hld) as (pgdir & m2 & l2 & Hcp & Hv2 & Hw2 & Hcase).
  exists pgdir, m2, l2, d. cbv zeta. split; [done|]. split; [done|]. split; [done|]. split.
  - unfold fork. kstep (myproc_run s c P1). kstep Ha. set (mA := set_km_pages _ m1) in *. set (yA := embryo _ v y0).
    change (set_mem mA _) with (copied mA yA). kstep (getproc_run (copied mA yA) c x (copied_parent mA yA)). kstep (copied_mem _ mA yA _ _ Hcp).
    kstep (copied_upd m2 yA (set_p_pgdir pgdir)). done.
  - destruct Hcase as [(-> & ? & m3 & ? & ? & ? & _ & ?)|[? Hd3]]; [left; eauto 10|right]. split; [done|].
    intros d3 Hd. destruct (Hd3 d3 Hd) as (? & ? & ? & _ & _ & _ & ? & ?). done.
Qed.
Lemma fork_no_copy v l2 m2 m3 y1 :
  kfree v m2 = Ret tt m3 → p_kstack y1 = v → space_ok m3 (v :: l2) (p_pgdir x) → (∀ w, w ∈ v :: l2 ↔ w ∈ l) →
  (∀ j, 0 ≤ j < NUSER → uent m3 (p_pgdir x) j = uent (mem_of s) (p_pgdir x) j) →
  ∃ s', (y ← getproc np; in_mem (kfree (p_kstack y));; updproc np (set_p_kstack 0);;
         updproc np (set_p_state UNUSED);; mret (-1)) (copied m2 y1) = Ret (-1) s' ∧
    proc_mem s' (v :: l2) c x ∧ mem_of s' = m3 ∧ fork_failed s s' l (v :: l2) ∧
    ∀ i y, s_proc s !! i = Some y → p_state y ≠ UNUSED → s_proc s' !! i = Some y.
Proof.
  intros Hf Hk Hs Hl He. kstep (getproc_run _ np y1 (copied_entry m2 y1)). rewrite Hk. kstep (copied_mem _ _ y1 _ _ Hf).
  kstep (copied_upd m3 y1 (set_p_kstack 0)). kstep (copied_upd m3 (set_p_kstack 0 y1) (set_p_state UNUSED)).
  eexists. split; [done|]. split_and!; [|done| |].
  - eapply proc_mem_change; [apply F|done|apply copied_parent|done|done].
  - split_and!; try done. by apply entry_failed.
  - intros i y. by apply entry_used.
Qed.

Lemma fork_success v l1 l2 pgdir m2 d :
  l = v :: l1 → pgdir ≠ 0 → km_pages m2 !! v = Some d → length d = Z.to_nat PGSIZE →
  (∀ w, w ∉ v :: l1 → km_pages m2 !! w = km_pages (mem_of s) !! w) →
  (∀ d3, length d3 = Z.to_nat PGSIZE → let m3 := set_km_pages (<[v:=d3]> (km_pages m2)) m2 in
     space_ok m3 l2 (p_pgdir x) ∧ space_ok m3 l2 pgdir ∧ separate m3 (p_pgdir x) pgdir ∧
     (∀ j, 0 ≤ j < NUSER → uent m3 (p_pgdir x) j = uent (mem_of s) (p_pgdir x) j) ∧
     ∀ j, 0 ≤ j < NUSER → uent m3 pgdir j = if decide (j < npages (p_sz x)) then uent (mem_of s) (p_pgdir x) j else None) →
  let tail := (updproc np (set_p_sz (p_sz x));; updproc np (set_p_parent (Some c));;
    fork_frame np x;; fork_files np x;; pid ← fork_pids c np;
    acquire ptable_l;; updproc np (set_p_state RUNNABLE);; release ptable_l;; mret pid) in
  let s2 := copied m2 (set_p_pgdir pgdir (embryo (s_nextpid s) v y0)) in
  (no_proxy (s_ns s) x ∧ tail s2 = Panic "namespace out of max!") ∨
  ∃ y s', tail s2 = Ret (get_namespace_pid y (Some p)) s' ∧ proc_mem s' l2 c x ∧
    (∀ j, 0 ≤ j < NUSER → uent (mem_of s') (p_pgdir x) j = uent (mem_of s) (p_pgdir x) j) ∧
    (∀ i y, s_proc s !! i = Some y → p_state y ≠ UNUSED → s_proc s' !! i = Some y) ∧
    fork_child s s' l2 R H c x ip z q qs np y.
Proof.
  intros El Hpg Hv Hld Hw Hd3 tail s2. unfold tail, s2. kstep (copied_upd m2 (set_p_pgdir pgdir (embryo (s_nextpid s) v y0)) (set_p_sz (p_sz x))).
  kstep (copied_upd m2 (set_p_sz (p_sz x) (set_p_pgdir pgdir (embryo (s_nextpid s) v y0))) (set_p_parent (Some c))).
  set (y1 := set_p_parent (Some c) _).
  pose proof (fr_stack _ _ _ _ _ _ _ _ _ _ _ _ F) as (_ & _ & Hkl & _). rewrite El in Hkl.
  pose proof (km_addr _ _ (pt_mem _ _ _ (sp_pt _ _ _ (pm_space _ _ _ _ (fr_mem _ _ _ _ _ _ _ _ _ _ _ _ F))))) as Hva.
  rewrite El in Hva. apply Forall_cons in Hva as [[Hva _] _].
  destruct (fr_unused _ _ _ _ _ _ _ _ _ _ _ _ F np y0 Hy0 Hun) as (U1 & U2 & U3).
  destruct (fork_rest_run s (copied m2 y1) l R H c x ip z n p q qs np y1 v d F)
    as [Hp|(d3 & n' & t & name & Hl3 & Hnl & Hrun & Ht & Hn' & Hnext & Hfr)]; try done.
  { apply F. } { apply copied_parent. } { apply copied_entry. } { apply entry_other. }
  { intros ->. apply Hkl. left. } { by apply page_aligned. } { by apply Hw. }
  { by left. }
  right. eexists _, _. split; [exact Hrun|]. destruct (Hd3 d3 Hl3) as (S1 & S2 & S3 & S4 & S5).
  assert (Hused : ∀ y' i y, s_proc s !! i = Some y → p_state y ≠ UNUSED → <[np:=y']> (<[np:=y1]> (s_proc s)) !! i = Some y).
  { intros y' i y Hi Hst. rewrite list_insert_insert_eq. by apply entry_used. }
  split_and!; [|exact S4|intros i y; apply Hused|].
  - eapply proc_mem_change; [apply F|done| |exact S1|exact S4]. apply Hused; [apply F|].
    by rewrite (fr_state _ _ _ _ _ _ _ _ _ _ _ _ F).
  - split; try done.
    + intros y Hy. congruence.
    + cbn. by apply (insert_lookup _ _ _ _ (copied_entry m2 y1)).
    + cbn. by rewrite (fr_cwd _ _ _ _ _ _ _ _ _ _ _ _ F).
    + eauto.
    + exists y0. split; [done|]. cbn. done.
Qed.
End entry.

(** C4: [fork].  With a free entry and memory, the child is a runnable copy of
    the parent: the same memory contents in pages of its own, the same
    registers but for a zero in [eax], the same open files and directory with
    one more reference each, and a pid in its namespace and in every ancestor
    of it; the result is the child's pid in the namespace of the parent.
    The result is -1 only when the table has no unused entry or the free list
    is shorter than a bound on what the copy needs, and then nothing that is
    in use has changed.  The parent and all other processes stay as they are
    in both cases.  [fork] panics only when the child needs a new proxy and
    the table of proxies is full. *)
Theorem fork_spec s l R H c x ip z n p q qs :
  fork_ready s l R H c x ip z n p q qs →
  (no_proxy (s_ns s) x ∧ fork s = Panic "namespace out of max!") ∨
  ∃ r s' l', fork s = Ret r s' ∧ proc_mem s' l' c x ∧
    (∀ j, 0 ≤ j < NUSER → uent (mem_of s') (p_pgdir x) j = uent (mem_of s) (p_pgdir x) j) ∧
    (∀ i y, s_proc s !! i = Some y → p_state y ≠ UNUSED → s_proc s' !! i = Some y) ∧
    ((r = -1 ∧ fork_failed s s' l l' ∧
      (unused_proc 0 (s_proc s) = None ∨ Z.of_nat (length l) ≤ npages (p_sz x) + 1027)) ∨
     ∃ np y, fork_child s s' l' R H c x ip z q qs np y ∧ r = get_namespace_pid y (Some p)).
Proof.
  intros F. pose proof (fr_lock _ _ _ _ _ _ _ _ _ _ _ _ F) as Hlk. pose proof (fr_mem _ _ _ _ _ _ _ _ _ _ _ _ F) as Hm.
  pose proof (unused_proc_spec 0 (s_proc s)) as Hu. destruct (unused_proc 0 (s_proc s)) as [np|] eqn:Eu.
  2:{ right. exists (-1), s, l. unfold fork. kstep (myproc_run s c (pm_cur _ _ _ _ Hm)). kstep (allocproc_none s Hlk Eu).
      split_and!; try done. left. split_and!; try done. by left. }
  destruct Hu as (? & y0 & -> & Hy0 & Hun). rewrite Nat.add_0_l in *. rename x0 into np. destruct l as [|v l1].
  { right. destruct (fork_no_stack s [] R H c x ip z n p q qs F np y0) as (s' & ? & ? & E & ? & ?); [done..|].
    exists (-1), s', []. split_and!; try done; [by rewrite E|]. left.
    split_and!; [done|done|]. right. pose proof (npages_range _ (pm_sz _ _ _ _ Hm)). cbn. lia. }
  destruct (fork_copied s (v :: l1) R H c x ip z n p q qs F np y0) with (v := v) (l1 := l1)
    as (pgdir & m2 & l2 & d & Hv & Hd & Hw & -> & [(-> & Hsh & m3 & Hf & Hs & Hl & He)|[Hpg Hd3]]); [done..| |].
  - right. destruct (fork_no_copy s (v :: l1) R H c x ip z n p q qs F np y0) with (v := v) (l2 := l2) (m2 := m2) (m3 := m3)
      (y1 := set_p_pgdir 0 (embryo (s_nextpid s) v y0)) as (s' & ? & ? & E & ? & ?); [done..|].
    exists (-1), s', (v :: l2). split_and!; try done; [by rewrite E|]. left. split_and!; [done|done|]. right. cbn. lia.
  - destruct (Z.eqb_spec pgdir 0); [done|].
    destruct (fork_success s (v :: l1) R H c x ip z n p q qs F np y0) with (v := v) (l1 := l1) (l2 := l2) (pgdir := pgdir)
      (m2 := m2) (d := d) as [Hp|(y & s' & ? & ? & ? & ? & ?)]; [done..|by left|right].
    exists (get_namespace_pid y (Some p)), s', l2. split_and!; try done. right. eauto.
Qed.

End fork.

(** ** Examples *)

#[local] Instance ex_code : Code := {| trapret_addr := 0x80105000; forkret_addr := 0x80103000; initcode := [] |}.
#[local] Instance ex_fork_devsw : DevSw := {| devsw_read := λ _, None; devsw_write := λ _, None |}.

(** The first process, in the namespace that [userinit] makes. *)
Definition ex_ns : nstate :=
  match create_nsproxy None true bss_nstate with
  | Ret _ t => t
  | _ => bss_nstate
  end.
Definition ex_parent : proc := set_p_cwd (Some 0%nat) (set_p_nsproxy (Some 0%nat) ex_process).
Definition ex_running (m : kmem) : state :=
  State (Sys (reboot []) (FTable false []) m ∅) false (ex_parent :: replicate 63 bss_proc) 1 (Some 0%nat)
    ex_ns (Some 0%nat) 0 0 0 false false 0.

Lemma ex_ns_inv : ns_inv ex_ns [0%nat] [].
Proof.
  apply nstep_reachable. eapply rtc_l; [|apply rtc_refl]. apply step_userinit. vm_compute. reflexivity.
Qed.

Lemma ex_fork_ready m l :
  space_ok (LK:=ex_linker) m l ex_pd → uent m ex_pd 0 = Some (7, fill_page 0) →
  km_pages m !! ex_kstack = Some (fill_page 0) → ex_kstack ∉ l →
  fork_ready (LK:=ex_linker) (ex_running m) l [0%nat] [] 0 ex_parent 0 bss_inode 0 0 0 [].
Proof.
  intros Hs He Hk Hl. split.
  - split; [reflexivity|reflexivity|cbn; unfold KERNBASE; lia|exact Hs|].
    intros j Hj. change (npages (p_sz ex_parent)) with 1 in Hj. replace j with 0 by lia. exists (7, fill_page 0). exact He.
  - reflexivity.
  - reflexivity.
  - split; [reflexivity|]. split; [done|]. split; [exact Hl|]. exists (fill_page 0). split; [exact Hk|reflexivity].
  - reflexivity.
  - reflexivity.
  - intros f Hf. by apply elem_of_nil in Hf.
  - reflexivity.
  - reflexivity.
  - reflexivity.
  - reflexivity.
  - intros i y Hi Hy. destruct i as [|i]; [cbn in Hi; by injection Hi as <-|]. change (replicate 63 bss_proc !! i = Some y) in Hi.
    apply lookup_replicate in Hi as [-> _]. done.
  - apply ex_ns_inv.
  - reflexivity.
  - left.
  - reflexivity.
  - reflexivity.
  - eexists. split; [reflexivity|]. done.
  - apply NoDup_singleton.
  - cbn. unfold PID_NAMESPACE_MAX_DEPTH. lia.
Qed.

Lemma fork_spec_witness :
  ∃ m r s' l', fork (LK:=ex_linker) (ex_running m) = Ret r s' ∧ proc_mem (LK:=ex_linker) s' l' 0 ex_parent.
Proof.
  destruct ex_mem_grown as (m & l & Hs & He & Hk & Hl). exists m.
  destruct (fork_spec (LK:=ex_linker) eq_refl eq_refl (conj eq_refl eq_refl) _ _ _ _ _ _ _ _ _ _ _ _ (ex_fork_ready m l Hs He Hk Hl))
    as [[[[? [=]] _] _]|(r & s' & l' & Hrun & Hm & _)]. exists r, s', l'. split; [exact Hrun|exact Hm].
Defined.
