(* ===== verification/Userinit.v ===== *)
(** * Userinit: the first process

    How many pages [setupkvm] needs, what [inituvm] makes of an empty address
    space, and the process that [userinit] leaves for the scheduler. *)

From Stdlib Require Import ZArith Lia.
From stdpp Require Import base numbers strings gmap list relations.
From S2P Require Import Prelude CString Memlayout Kalloc Vm PageTable Namespace Kernel Fs Loopdev File Proc UserMem Fork.
Open Scope Z_scope.

Section userinit.
Context {LK : Linker} {CD : Code} {DS : DevSw}.
Context (kend_above : KERNBASE < kend).
Context (kdata_aligned : kdata mod PGSIZE = 0) (kdata_above : KERNLINK < kdata < P2V PHYSTOP).

(** ** The page tables of the kernel *)

Lemma tab_frame m m' pd j : km_pages m' !! pd = km_pages m !! pd → tab m' pd j = tab m pd j.
Proof. intros E. unfold tab, pde. by rewrite E. Qed.

(** [walkpgdir] makes no table but the one it looks for. *)
Lemma walk_tabs m l pd a r m' j :
  pt_ok m l pd → 0 ≤ a < 2 ^ 32 → walkpgdir pd a true m = Ret r m' → 0 ≤ j < 1024 → j ≠ PDX a → tab m' pd j = tab m pd j.
Proof.
  intros Hp Ha Hw Hj Hne. assert (Hi : 0 ≤ PDX a < 1024).
  { rewrite PDX_page by done. apply dir_index. unfold PGSIZE. split; [apply Z.div_pos|apply Z.div_lt_upper_bound]; lia. }
  destruct (tab m pd (PDX a)) as [t|] eqn:Et; [rewrite (walk_existing m l pd a true t) in Hw by done; by injection Hw as _ <-|].
  revert Hw. unfold walkpgdir. kstep (read_pte_run _ _ _ (PDX a) (pt_dir _ _ _ Hp)).
  unfold tab in Et. destruct (present (pde m pd (PDX a))); [done|]. cbn [negb].
  pose proof (kalloc_run m l (pt_mem _ _ _ Hp)) as Hk. destruct l as [|v l']; [kstep Hk; by intros [= _ <-]|].
  destruct Hk as (m1 & Hk & Hm1 & Hpg & _). kstep Hk. pose proof (km_addr _ _ (pt_mem _ _ _ Hp)) as [[_ Hvr] _]%Forall_cons.
  destruct (Z.eqb_spec v 0); [lia|]. destruct (new_table_mem m m1 v l' pd (PDX a) Hp Hm1 Hpg Hi) as (m2 & Hrun & _ & _ & _ & _ & _ & _ & Ht).
  intros E. assert (m' = m2) as ->; [|by rewrite Ht, decide_False].
  apply K_bind_inv in Hrun as ([] & m3 & E3 & Hrun). apply (K_bind_inv _ _ _ _ _) in E as ([] & m4 & E4 & E).
  rewrite E3 in E4. injection E4 as <-. by rewrite (K_bind_Ret _ _ _ _ _ Hrun) in E; injection E as _ <-.
Qed.

Lemma mappages_loop_tabs n m l pd p pa perm r m' j :
  pt_ok m l pd → (0 < n)%nat → 0 ≤ p → p + Z.of_nat n ≤ 2 ^ 20 →
  (∀ j, p ≤ j < p + Z.of_nat n → present (pte_of m pd j) = false) →
  0 ≤ pa → pa + Z.of_nat n * PGSIZE ≤ 2 ^ 32 → pa mod PGSIZE = 0 → 0 ≤ perm < PGSIZE →
  mappages_loop n pd (p * PGSIZE) ((p + Z.of_nat n - 1) * PGSIZE) pa perm m = Ret r m' →
  0 ≤ j < 1024 → j < p / 1024 ∨ (p + Z.of_nat n - 1) / 1024 < j → tab m' pd j = tab m pd j.
Proof.
  revert m l p pa. induction n as [|n IH]; intros m l p pa Hp Hn Hp0 Hpn Hnp Hpa Hpan Hal Hperm; [lia|]. intros E Hj Hout.
  cbn [mappages_loop] in E. destruct (page_range p) as [Ha Hdiv]; [lia|].
  assert (Hmono : p / 1024 ≤ (p + Z.of_nat (S n) - 1) / 1024) by (apply Z.div_le_mono; lia).
  assert (Hne : j ≠ PDX (p * PGSIZE)) by (rewrite PDX_page, Hdiv by done; lia).
  destruct (walk_alloc m l pd _ Hp Ha) as (r1 & m1 & l1 & Hw & Hs & _ & Hcase).
  pose proof (walk_tabs m l pd _ r1 m1 j Hp Ha Hw Hj Hne) as Ht1.
  destruct (map_page_run m l pd p pa perm) as [(m2 & Hw' & _)|(pt & m2 & e & m3 & l3 & Hw' & Hr & He & Hset & Hs3 & Hmap)];
    [done|lia|apply Hnp; lia|unfold PGSIZE in *; lia|done|done| |]; rewrite Hw in Hw'; injection Hw' as -> ->.
  { revert E. kstep Hw. by intros [= _ <-]. }
  revert E. kstep Hw. kstep Hr. rewrite He. change (Z.lor (Z.lor pa perm) PTE_P) with (mk_pte pa perm). kstep Hset.
  rewrite Hdiv in Hcase. destruct Hcase as [Htab _]. destruct (pt_tab _ _ _ (ps_ok _ _ _ _ _ Hs) _ _ (dir_index p ltac:(lia)) Htab) as [_ Hpt].
  assert (Ht3 : tab m3 pd j = tab m pd j).
  { rewrite <- Ht1. apply tab_frame. destruct pt as [t i]. cbn in Hpt. by eapply write_frame. }
  destruct (Z.eqb_spec (p * PGSIZE) ((p + Z.of_nat (S n) - 1) * PGSIZE)) as [E|E]; [by intros [= _ <-]|].
  assert (0 < n)%nat by (unfold PGSIZE in E; destruct n; lia). intros Hrun. rewrite <- Ht3.
  assert (p / 1024 ≤ (p + 1) / 1024) by (apply Z.div_le_mono; lia).
  rewrite !u32_small in Hrun by (unfold PGSIZE in *; lia). apply (IH m3 l3 (p + 1) (pa + PGSIZE)); try done; try lia.
  - apply Hs3.
  - intros i Hi. rewrite Hmap by lia. rewrite decide_False by lia. apply Hnp. lia.
  - rewrite <- Zplus_mod_idemp_l, Hal. done.
  - replace ((p + 1) * PGSIZE) with (p * PGSIZE + PGSIZE) by lia.
    replace (p + 1 + Z.of_nat n - 1) with (p + Z.of_nat (S n) - 1) by lia. done.
  - replace (p + 1 + Z.of_nat n - 1) with (p + Z.of_nat (S n) - 1) by lia. lia.
Qed.

Lemma mappages_tabs n m l pd p pa perm r m' j :
  pt_ok m l pd → 0 < n → 0 ≤ p → p + n ≤ 2 ^ 20 →
  (∀ j, p ≤ j < p + n → present (pte_of m pd j) = false) →
  0 ≤ pa → pa + n * PGSIZE ≤ 2 ^ 32 → pa mod PGSIZE = 0 → 0 ≤ perm < PGSIZE →
  mappages pd (p * PGSIZE) (n * PGSIZE) pa perm m = Ret r m' →
  0 ≤ j < 1024 → j < p / 1024 ∨ (p + n - 1) / 1024 < j → tab m' pd j = tab m pd j.
Proof.
  intros Hp Hn Hp0 Hpn Hnp Hpa Hpan Hal Hperm Hrun Hj Hout. rewrite mappages_pages in Hrun by lia.
  apply (mappages_loop_tabs (Z.to_nat n) m l pd p pa perm r); try done; try (rewrite Z2Nat.id by lia; done); lia.
Qed.

(** Directory entry [i] is for a region of [ks]. *)
Definition kdir (ks : list kmap_entry) (i : Z) : Prop :=
  ∃ k, k ∈ ks ∧ kfirst k / 1024 ≤ i ≤ (kfirst k + kcount k - 1) / 1024.

(** [map_kernel] takes pages from the free list only for tables of its
    regions, and gives up when there is none left. *)
Lemma map_kernel_tabs ks lo m l pd r m' :
  space_ok m l pd → NUSER ≤ lo → regions lo ks → (∀ n, lo ≤ n < 2 ^ 20 → present (pte_of m pd n) = false) →
  map_kernel pd ks m = Ret r m' →
  ∃ m1 l1, space_ok m1 l1 pd ∧ (∀ w, w ∈ l ∨ owned m pd w → w ∈ l1 ∨ owned m1 pd w) ∧
    (∀ i, 0 ≤ i < NUSER → upage m1 pd i = upage m pd i) ∧
    (∀ i, 0 ≤ i < 1024 → is_Some (tab m1 pd i) → is_Some (tab m pd i) ∨ kdir ks i) ∧
    (r = 0 ∧ l1 = [] ∨ r = pd ∧ m1 = m').
Proof.
  revert lo m l. induction ks as [|k ks IH]; intros lo m l Hs Hlo Hreg Hnp; cbn [map_kernel].
  { intros [= <- <-]. exists m, l. split_and!; try done; [by left|by right]. }
  destruct Hreg as (R1 & R2 & R3 & R4 & R5 & R6 & R7 & R8 & R9 & Hreg).
  destruct (mappages_run (kcount k) m l pd (kfirst k) (km_phys_start k) (km_perm k))
    as (r1 & m1 & l1 & c & Hrun & Hps & Hc & Hmap & Hcase);
    [apply Hs|done|unfold NUSER in *; lia|done|intros; apply Hnp; lia|done|done|done|done|].
  assert (Htab : ∀ i, 0 ≤ i < 1024 → is_Some (tab m1 pd i) → is_Some (tab m pd i) ∨ kdir (k :: ks) i).
  { intros i Hi Hsome. destruct (decide (kfirst k / 1024 ≤ i ≤ (kfirst k + kcount k - 1) / 1024)).
    - right. exists k. split; [left|done].
    - left. rewrite <- (mappages_tabs (kcount k) m l pd (kfirst k) (km_phys_start k) (km_perm k) r1 m1 i); try done.
      + apply Hs.
      + unfold NUSER in *. lia.
      + intros; apply Hnp; lia.
      + lia. }
  rewrite R2, R3. kstep Hrun. destruct (pstep_sstep pd m l m1 l1 Hs Hps) as [Hss He].
  { intros i Hi. rewrite Hmap by (by apply user_range). by rewrite decide_False by lia. }
  assert (Hup : ∀ i, 0 ≤ i < NUSER → upage m1 pd i = upage m pd i).
  { intros i Hi. apply upage_ext. rewrite Hmap by (by apply user_range). by rewrite decide_False by lia. }
  assert (Hown : ∀ w, w ∈ l ∨ owned m pd w → w ∈ l1 ∨ owned m1 pd w) by (intros w; apply Hss).
  destruct Hcase as [[-> ->]|(-> & ? & ->)]; cbn [Z.ltb Z.compare].
  - intros E. destruct (IH (kfirst k + kcount k) m1 l1) as (m2 & l2 & S2 & O2 & U2 & T2 & C2); [apply Hss|lia|done| |done|].
    { intros n Hn. rewrite Hmap, decide_False by (unfold NUSER in *; lia). apply Hnp. lia. }
    exists m2, l2. split_and!; [done| | | |done].
    + intros w Hw. by apply O2, Hown.
    + intros i Hi. by rewrite U2, Hup.
    + intros i Hi Hi2. destruct (T2 i Hi Hi2) as [?|(k' & ? & ?)]; [by apply Htab|right]. exists k'. split; [by right|done].
  - intros (u & m3 & _ & [= <- <-])%K_bind_inv. exists m1, []. split_and!; [apply Hss|done..|by left].
Qed.

Lemma kmap_dirs i : kdir kmap i → 512 ≤ i < 568 ∨ 1016 ≤ i < 1024.
Proof.
  assert (Hk : kdata = kdata / PGSIZE * PGSIZE) by (pose proof (Z.div_mod kdata PGSIZE); unfold PGSIZE in *; lia).
  set (q := kdata / PGSIZE) in *. change (P2V PHYSTOP) with 0x8E000000 in *. unfold KERNLINK, KERNBASE, EXTMEM, PGSIZE in *.
  assert (HV : V2P kdata = (q - 0x80000) * 4096) by (unfold V2P, KERNBASE; rewrite u32_small by lia; lia).
  intros (k & Hi & Hd). assert (Hdir : ∀ a n, kfirst k = a → kcount k = n → a / 1024 ≤ i ≤ (a + n - 1) / 1024) by (intros; by subst).
  assert (Hdiv : ∀ a b : Z, b = a * PGSIZE → b / PGSIZE = a) by (intros a b ->; unfold PGSIZE; apply Z.div_mul; lia).
  clear Hd. unfold kmap in Hi. rewrite !elem_of_cons, elem_of_nil, HV in Hi. unfold kfirst, kcount, PGSIZE in Hdir, Hdiv.
  destruct Hi as [->|[->|[->|[->|[]]]]]; cbn [km_virt km_phys_start km_phys_end] in Hdir.
  - specialize (Hdir 0x80000 0x100 eq_refl eq_refl). change (512 ≤ i ≤ 512) in Hdir. lia.
  - specialize (Hdir 0x80100 (q - 0x80100) eq_refl). change (V2P _) with 0x100000 in Hdir.
    rewrite u32_small in Hdir by lia. specialize (Hdir ltac:(apply Hdiv; lia)).
    assert ((0x80100 + (q - 0x80100) - 1) / 1024 < 568) by (apply Z.div_lt_upper_bound; lia).
    change (0x80100 / 1024) with 512 in Hdir. lia.
  - specialize (Hdir q (0x8E000 - q) eq_refl). unfold PHYSTOP in Hdir. rewrite u32_small in Hdir by lia. specialize (Hdir ltac:(apply Hdiv; lia)).
    assert (512 ≤ q / 1024) by (apply Z.div_le_lower_bound; lia).
    assert ((q + (0x8E000 - q) - 1) / 1024 < 568) by (apply Z.div_lt_upper_bound; lia). lia.
  - specialize (Hdir 0xFE000 0x2000 eq_refl eq_refl). change (1016 ≤ i ≤ 1023) in Hdir. lia.
Qed.

(** A directory and 64 tables: [setupkvm] takes at most 65 pages, and gives
    up only when there are no more. *)
Lemma setupkvm_pages m l r m' : kmem_ok m l → setupkvm m = Ret r m' →
  (r = 0 ∧ Z.of_nat (length l) ≤ 65) ∨ ∃ l', space_ok m' l' r ∧ Z.of_nat (length l) ≤ Z.of_nat (length l') + 65.
Proof.
  intros Hm E. pose proof (kalloc_run m l Hm) as Hk. unfold setupkvm in E. destruct l as [|v l].
  { rewrite (K_bind_Ret _ _ _ _ _ Hk) in E. injection E as <- _. left. cbn. lia. }
  destruct Hk as (m1 & Hk & Hm1 & Hpg & _). rewrite (K_bind_Ret _ _ _ _ _ Hk) in E.
  pose proof (km_addr _ _ Hm) as [[Hpa Hvr] _]%Forall_cons. pose proof (km_nodup _ _ Hm) as [Hvl Hnd]%NoDup_cons.
  destruct (Z.eqb_spec v 0); [lia|]. set (m2 := set_km_pages (<[v:=fill_page 0]> (km_pages m1)) m1).
  rewrite (K_bind_Ret _ _ _ _ m2) in E by done. change (DEVSPACE <? P2V PHYSTOP) with false in E.
  assert (Hz : km_pages m2 !! v = Some (fill_page 0)) by (cbn; by rewrite lookup_insert_eq).
  destruct (empty_space m2 l v) as (Hs & Hp & He & Ho); [by apply kmem_ok_write| |done|].
  { do 3 (split; [done|]). exists (fill_page 0). by rewrite fill_page_length. }
  destruct (map_kernel_tabs kmap NUSER m2 l v r m' Hs) as (m3 & l3 & S3 & O3 & U3 & T3 & C3); [done|by apply kmap_regions|intros j _; by rewrite Hp|done|].
  set (all := v :: omap (tab m3 v) (seqZ 512 56 ++ seqZ 1016 8)). assert (Hsub : v :: l ⊆+ l3 ++ all).
  { apply NoDup_submseteq; [apply Hm|]. intros w Hw. unfold all. rewrite elem_of_app, elem_of_cons, list_elem_of_omap.
    destruct (O3 w) as [?|[[?|(i & Hi & Hti)]|(i & Hi & Hui)]].
    - rewrite Ho. apply elem_of_cons in Hw. tauto.
    - by left.
    - by right; left.
    - right. right. exists i. split; [|done]. rewrite elem_of_app, !elem_of_seqZ. destruct (T3 i Hi) as [[t Ht]|Hd]; [by rewrite Hti| |].
      + unfold tab, pde in Ht. by rewrite Hz, word_fill_0 in Ht.
      + apply kmap_dirs in Hd. lia.
    - rewrite U3 in Hui by done. unfold upage in Hui. by rewrite Hp in Hui. }
  apply submseteq_length in Hsub. unfold all in Hsub. rewrite length_app in Hsub. cbn [length] in Hsub |- *.
  pose proof (length_omap_le (tab m3 v) (seqZ 512 56 ++ seqZ 1016 8)) as Hle. rewrite length_app, !length_seqZ in Hle.
  destruct C3 as [[-> ->]|[-> ->]]; [left; cbn in Hsub; lia|right]. exists l3. split; [done|lia].
Qed.

(** The free list of a memory is one list. *)
Lemma kmem_ok_inj m l l' : kmem_ok m l → kmem_ok m l' → l = l'.
Proof.
  intros [_ H1 _ A1] [_ H2 _ A2]. revert l' H1 H2 A1 A2. generalize (km_freelist m) as p. induction l as [|v l IH]; intros p [|v' l'] H1 H2 A1 A2.
  - done.
  - cbn in H1. destruct H2 as [-> _]. apply Forall_cons in A2 as [[_ ?] _]. lia.
  - cbn in H2. destruct H1 as [-> _]. apply Forall_cons in A1 as [[_ ?] _]. lia.
  - destruct H1 as (-> & d & Hd & _ & H1), H2 as (<- & d' & Hd' & _ & H2). rewrite Hd in Hd'. injection Hd' as <-.
    apply Forall_cons in A1 as [_ A1], A2 as [_ A2]. f_equal. by eapply IH.
Qed.

Lemma setupkvm_enough m l : kmem_ok m l → 65 < Z.of_nat (length l) →
  ∃ pgdir m' l', setupkvm m = Ret pgdir m' ∧ space_ok m' l' pgdir ∧ (∀ w, w ∈ l' ∨ owned m' pgdir w ↔ w ∈ l) ∧
    (∀ w, w ∉ l → km_pages m' !! w = km_pages m !! w) ∧ (∀ i, 0 ≤ i < NUSER → uent m' pgdir i = None) ∧
    (∀ n, 0 ≤ n < 2 ^ 20 → pte_of m' pgdir n = default 0 (kmap_pte kmap n)) ∧ Z.of_nat (length l) ≤ Z.of_nat (length l') + 65.
Proof.
  intros Hm Hl. destruct (setupkvm_run kend_above kdata_aligned kdata_above m l Hm) as (pgdir & m' & l' & E & F & Hcase).
  exists pgdir, m', l'. split; [done|]. destruct (setupkvm_pages m l pgdir m' Hm E) as [[_ ?]|(lx & Sx & Hla)]; [lia|].
  destruct Hcase as [(-> & _)|(Hne & Sa & Oa & Ua & Pa)]; [pose proof (pt_dir _ _ _ (sp_pt _ _ _ Sx)) as (_ & ? & _); lia|].
  rewrite (kmem_ok_inj m' lx l') in Hla by (apply Sx || apply Sa). done.
Qed.

(** ** [inituvm] *)

Lemma inituvm_run m l pd init :
  space_ok m l pd → (∀ i, 0 ≤ i < NUSER → uent m pd i = None) → 1027 < Z.of_nat (length l) → Z.of_nat (length init) < PGSIZE →
  ∃ m' l', inituvm pd init m = Ret tt m' ∧ sstep pd m l m' l' ∧
    ∀ j, 0 ≤ j < NUSER → uent m' pd j = if decide (j = 0) then Some (7, init ++ replicate (Z.to_nat PGSIZE - length init) 0) else None.
Proof.
  intros Hs Hn Hl Hi. destruct l as [|v l]; [cbn in Hl; lia|]. unfold inituvm. rewrite (proj2 (Z.leb_gt _ _)) by done.
  destruct (hold_page m v l pd (fill_page 0) Hs (fill_page_length 0)) as (m1 & Hk & Hv0 & Hs2 & Huse & Hpg & Hno & Hown & _ & Hent).
  kstep Hk. destruct (Z.eqb_spec v 0); [done|]. set (m2 := set_km_pages (<[v:=fill_page 0]> (km_pages m1)) m1) in *.
  rewrite (K_bind_Ret _ _ m1 tt m2) by done.
  assert (Hzero : 0 ≤ 0 < NUSER) by (unfold NUSER; lia). assert (Hz : km_pages m2 !! v = Some (fill_page 0)) by (cbn; by rewrite lookup_insert_eq).
  destruct (map_held m2 l pd v (fill_page 0) 0 (Z.lor PTE_W PTE_U)) as (r & m3 & l3 & Hmap & Hcase); try done.
  { eapply uent_None; [done|done|]. rewrite Hent by done. by apply Hn. }
  change (0 * PGSIZE) with 0 in Hmap. kstep Hmap. destruct Hcase as [(-> & -> & Hss & He)|(-> & Hs3 & Hup & Hfr & Ho3 & He)].
  { exfalso. assert (Hex : exhausted pd m2 l 0).
    { exists m3, v. split_and!; [apply Hss| |].
      - intros w Hw. left. apply (ss_owned _ _ _ _ _ Hss) in Hw as [[]%elem_of_nil|?]; done.
      - intros j Hj. rewrite He, Hent by lia. apply Hn. lia. }
    apply exhausted_short in Hex; [cbn [length] in Hl; lia|apply Hs2|unfold NUSER; lia]. }
  assert (He0 : uent m3 pd 0 = Some (7, fill_page 0)) by (by rewrite He).
  destruct (uent_Some m3 l3 pd 0 7 (fill_page 0) Hs3 Hzero He0) as (_ & v' & _ & _ & _ & _ & _ & Hv' & Hd & _).
  rewrite Hup in Hv'. injection Hv' as <-. rewrite (K_bind_Ret (read_page v) _ m3 (fill_page 0) m3) by (unfold read_page; kred; by rewrite Hd).
  set (d := init ++ replicate (Z.to_nat PGSIZE - length init) 0). assert (Ed : list_inserts 0 init (fill_page 0) = d).
  { unfold fill_page. replace (Z.to_nat PGSIZE) with (length init + (Z.to_nat PGSIZE - length init))%nat at 1 by lia.
    rewrite replicate_add. apply list_inserts_0_r. by rewrite length_replicate. }
  rewrite Ed. assert (Hld : length d = Z.to_nat PGSIZE) by (unfold d; rewrite length_app, length_replicate; lia).
  destruct (space_write m3 l3 pd 0 v 7 (fill_page 0) d Hs3 Hzero He0 Hup Hld) as (Hss & Hsame & Hu).
  exists (set_km_pages (<[v:=d]> (km_pages m3)) m3), l3. split; [done|]. split.
  - split; [apply Hss| |].
    + intros w [? ?]%not_elem_of_cons Hw. cbn. rewrite lookup_insert_ne, Hfr by (done || by rewrite Hown).
      cbn. rewrite lookup_insert_ne by done. by rewrite Hpg.
    + intros w. rewrite Hsame, Ho3, Hown, elem_of_cons. tauto.
  - intros j Hj. rewrite Hu by done. case_decide; [done|]. rewrite He, decide_False, Hent by done. by apply Hn.
Qed.

(** ** The trap frame *)

Lemma write_word_run m v d i x :
  v mod PGSIZE = 0 → 0 ≤ i < 1024 → km_pages m !! v = Some d →
  write_word (v + 4 * i) x m = Ret tt (set_km_pages (<[v:=set_word d (Z.to_nat i) x]> (km_pages m)) m).
Proof.
  intros Hv Hi Hd. destruct (word_addr v i Hv Hi) as [_ ->]. unfold write_pte, read_page, write_page. kred. cbn. by rewrite Hd.
Qed.

Lemma zero_words_run n m v d b :
  v mod PGSIZE = 0 → km_pages m !! v = Some d → length d = Z.to_nat PGSIZE → 0 ≤ b → b + Z.of_nat n ≤ 1024 →
  ∃ d', length d' = Z.to_nat PGSIZE ∧ zero_words n (v + 4 * b) m = Ret tt (set_km_pages (<[v:=d']> (km_pages m)) m) ∧
    ∀ j, 0 ≤ j → word d' (Z.to_nat j) = if decide (b ≤ j < b + Z.of_nat n) then 0 else word d (Z.to_nat j).
Proof.
  intros Hv. revert m d b. induction n as [|n IH]; intros m d b Hd Hl Hb Hn; cbn [zero_words].
  { exists d. split; [done|]. split; [rewrite insert_id by done; by destruct m|]. intros j _. by rewrite decide_False by lia. }
  kstep (write_word_run m v d b 0 Hv ltac:(lia) Hd). set (d1 := set_word d (Z.to_nat b) 0).
  destruct (IH (set_km_pages (<[v:=d1]> (km_pages m)) m) d1 (b + 1)) as (d' & Hl' & E & Hw); [cbn; by rewrite lookup_insert_eq|unfold d1; by rewrite set_word_length|lia|lia|].
  exists d'. split; [done|]. split.
  - replace (v + 4 * b + 4) with (v + 4 * (b + 1)) by lia. rewrite E. cbn. by rewrite insert_insert_eq.
  - intros j Hj. rewrite Hw by done. unfold d1. destruct (decide (j = b)) as [->|].
    + rewrite decide_False, decide_True by lia. apply word_set_eq. rewrite Hl. unfold PGSIZE. lia.
    + rewrite word_set_ne by lia. repeat case_decide; done || lia.
Qed.

(** The words of the first trap frame: at the start of [initcode] in user
    mode, with interrupts on and the stack at the end of its page. *)
Definition first_frame : list Z := [0; 0; 0; 0; 0; 0; 0; 0; 0; 0; UDATA; UDATA; 0; 0; 0; UCODE; FL_IF; PGSIZE; UDATA].

(** The assignments of [userinit] to the frame at [tf]. *)
Definition init_frame (tf : Z) : K kmem unit :=
  zero_words 19 tf;;
  write_word (tf + TF_CS) UCODE;;
  write_word (tf + TF_DS) UDATA;;
  write_word (tf + TF_ES) UDATA;;
  write_word (tf + TF_SS) UDATA;;
  write_word (tf + TF_EFLAGS) FL_IF;;
  write_word (tf + TF_ESP) PGSIZE;;
  write_word (tf + TF_EIP) 0.

Lemma init_frame_run m v d :
  v mod PGSIZE = 0 → km_pages m !! v = Some d → length d = Z.to_nat PGSIZE →
  ∃ d', length d' = Z.to_nat PGSIZE ∧ let m' := set_km_pages (<[v:=d']> (km_pages m)) m in
    init_frame (v + 4096 - 76) m = Ret tt m' ∧ ∀ i, 0 ≤ i < 19 → frame_word m' v i = nth (Z.to_nat i) first_frame 0.
Proof.
  intros Hv Hd Hl. destruct (zero_words_run 19 m v d 1005 Hv Hd Hl) as (d0 & Hl0 & E0 & Hw0); [lia|lia|].
  unfold init_frame. replace (v + 4096 - 76) with (v + 4 * 1005) by lia. kstep E0.
  assert (Hstep : ∀ d i x (k : K kmem unit), 0 ≤ i < 1024 →
    (write_word (v + 4 * i) x;; k) (set_km_pages (<[v:=d]> (km_pages m)) m) =
    k (set_km_pages (<[v:=set_word d (Z.to_nat i) x]> (km_pages m)) m)).
  { intros d1 i x k Hi. assert (E : km_pages (set_km_pages (<[v:=d1]> (km_pages m)) m) !! v = Some d1) by (cbn; by rewrite lookup_insert_eq).
    rewrite (K_bind_Ret _ _ _ _ _ (write_word_run _ v d1 i x Hv Hi E)). cbn. by rewrite insert_insert_eq. }
  replace (v + 4 * 1005 + TF_CS) with (v + 4 * 1020) by (unfold TF_CS; lia). replace (v + 4 * 1005 + TF_DS) with (v + 4 * 1016) by (unfold TF_DS; lia).
  replace (v + 4 * 1005 + TF_ES) with (v + 4 * 1015) by (unfold TF_ES; lia). replace (v + 4 * 1005 + TF_SS) with (v + 4 * 1023) by (unfold TF_SS; lia).
  replace (v + 4 * 1005 + TF_EFLAGS) with (v + 4 * 1021) by (unfold TF_EFLAGS; lia). replace (v + 4 * 1005 + TF_ESP) with (v + 4 * 1022) by (unfold TF_ESP; lia).
  replace (v + 4 * 1005 + TF_EIP) with (v + 4 * 1019) by (unfold TF_EIP; lia). rewrite !Hstep by lia.
  match goal with |- context [<[v:=?e]> (km_pages m)] => set (d6 := e) end.
  exists (set_word d6 1019 0). split; [unfold d6; by rewrite !set_word_length|]. cbv zeta. split.
  - rewrite (write_word_run _ v d6 1019 0 Hv ltac:(lia)) by (cbn; by rewrite lookup_insert_eq). cbn. by rewrite insert_insert_eq.
  - assert (Hw : ∀ d i j x, length d = Z.to_nat PGSIZE → (i < 1024)%nat → word (set_word d i x) j = if decide (j = i) then u32 x else word d j).
    { intros d1 i j x Hd1 Hi. case_decide; [subst; apply word_set_eq; rewrite Hd1; unfold PGSIZE; lia|by rewrite word_set_ne]. }
    intros i Hi. unfold frame_word, pde. cbn [km_pages set_km_pages]. rewrite lookup_insert_eq. unfold d6.
    rewrite !Hw by (rewrite ?set_word_length; done || lia). rewrite Hw0, (decide_True _ _ (P := 1005 ≤ _ < _)) by lia.
    assert (Hc : i = Z.of_nat (Z.to_nat i)) by lia. revert Hc Hi. generalize (Z.to_nat i) as n. clear. intros n -> Hi.
    do 19 (destruct n as [|n]; [reflexivity|]). lia.
Qed.

(** ** [userinit] *)

(** The cache of inodes after the root was looked up, and the namespaces
    after the first process got its pid. *)
Definition first_ic : icache :=
  ICache false (set_i_ref 1 (set_i_inum ROOTINO (set_i_dev ROOTDEV bss_inode)) :: replicate (NINODE - 1) bss_inode).
Definition first_ns : nstate :=
  NState false (NsProxy 1 (Some 0%nat) :: replicate (NNAMESPACE - 1) (NsProxy 0 None)) false
    (PidNamespace 1 None false 2 1 false :: replicate (NNAMESPACE - 1) bss_pid_namespace).

Lemma namei_root CP LO k : k_ic k = bss_icache → namei (CP:=CP) (LO:=LO) root_path k = Ret (Some 0%nat) (set_k_ic first_ic k).
Proof.
  intros Hk. assert (E : iget ROOTDEV ROOTINO (k_ic k) = Ret 0%nat first_ic) by (rewrite Hk; vm_compute; reflexivity).
  unfold namei, namex. change (root_path !! 0%nat) with (Some SLASH). unfold deref.
  rewrite (K_bind_Ret _ _ k (Some 0%nat, replicate DIRSIZ 0) (set_k_ic first_ic k)); [done|].
  rewrite (K_bind_Ret (mret SLASH) _ k SLASH k) by done. rewrite Z.eqb_refl. kstep (zoom_Ret ic_l _ k _ _ E). reflexivity.
Qed.

Lemma first_ns_run :
  create_nsproxy None true bss_nstate = Ret 0%nat ex_ns ∧ alloc_new_pid 0 ex_ns = Ret 1 first_ns ∧
  getns 0 ex_ns = Ret (NsProxy 1 (Some 0%nat)) ex_ns ∧ getns 0 first_ns = Ret (NsProxy 1 (Some 0%nat)) first_ns.
Proof. split_and!; vm_compute; reflexivity. Qed.

(** The kernel before [userinit], with free pages [l]: tables as the loader
    left them. *)
Record fresh (s : state) (l : list Z) : Prop := {
  fs_lock : s_pt_lock s = false;
  fs_mem : kmem_ok (mem_of s) l;
  fs_pages : 1100 < Z.of_nat (length l);
  fs_proc : s_proc s = replicate NPROC bss_proc;
  fs_ic : k_ic (s_k (s_sys s)) = bss_icache;
  fs_ns : s_ns s = bss_nstate;
}.

Definition first_name : list Z := initcode_name ++ replicate 7 0.
Definition first_proc (v pgdir : Z) : proc :=
  Proc PGSIZE pgdir v RUNNABLE 1 None (v + 4096 - 76) (v + 4096 - 76 - 4 - 20) None false (replicate NOFILE None) (Some 0%nat)
    first_name (Some 0%nat) None ((Some 0%nat, 1) :: replicate (PID_NAMESPACE_MAX_DEPTH - 1) (None, 0)) 0.

Section steps.
Context (s : state).

(** [s] with the process [y] in the first entry, memory [m], cached inodes
    [c] and namespaces [t]. *)
Definition filled (lk : bool) (m : kmem) (y : proc) (c : icache) (t : nstate) : state :=
  State (Sys (set_k_ic c (s_k (s_sys s))) (s_ft (s_sys s)) m (s_pipes (s_sys s))) lk (y :: replicate (NPROC - 1) bss_proc)
    (s32 (s_nextpid s + 1)) (Some 0%nat) t (s_cur s) (s_kpgdir s) (s_cr3 s) (s_esp0 s) (s_first s) (s_tickslock s) (s_ticks s).

Lemma filled_upd lk m y c t f : updproc 0 f (filled lk m y c t) = Ret tt (filled lk m (f y) c t).
Proof. done. Qed.
Lemma filled_get lk m y c t : getproc 0 (filled lk m y c t) = Ret y (filled lk m y c t).
Proof. done. Qed.
Lemma filled_mem {A} (op : K kmem A) lk m y c t a m' : op m = Ret a m' → in_mem op (filled lk m y c t) = Ret a (filled lk m' y c t).
Proof. intros Hop. exact (in_mem_Ret op (filled lk m y c t) a m' Hop). Qed.
Lemma filled_ns {A} (op : K nstate A) lk m y c t a t' : op t = Ret a t' → zoom ns_l op (filled lk m y c t) = Ret a (filled lk m y c t').
Proof. intros Hop. exact (zoom_ns op (filled lk m y c t) a t' Hop). Qed.
Lemma filled_root lk m y t : in_fs (λ CP LO, namei root_path) (filled lk m y bss_icache t) = Ret (Some 0%nat) (filled lk m y first_ic t).
Proof.
  unfold in_fs. set (u := filled lk m y bss_icache t). pose proof (namei_root (cur_of u) (@loop_ops (cur_of u) DS 2) (s_k (s_sys u)) eq_refl) as E.
  exact (zoom_Ret sys_l _ u _ _ (zoom_Ret k_l _ _ _ _ E)).
Qed.

(** The memory of the first process. *)
Record first_mem (m m' : kmem) (l l' : list Z) (v pgdir : Z) : Prop := {
  fm_space : space_ok m' l' pgdir;
  fm_stack : in_use m' l' v ∧ ¬ owned m' pgdir v;
  fm_pages w : w ∈ l ↔ w = v ∨ w ∈ l' ∨ owned m' pgdir w;
  fm_rest w : w ∉ l → km_pages m' !! w = km_pages m !! w;
  fm_user j : 0 ≤ j < NUSER →
    uent m' pgdir j = if decide (j = 0) then Some (7, initcode ++ replicate (Z.to_nat PGSIZE - length initcode) 0) else None;
  fm_frame i : 0 ≤ i < 19 → frame_word m' v i = nth (Z.to_nat i) first_frame 0;
}.

Lemma first_mem_run m v l m1 d : kmem_ok m (v :: l) → kalloc m = Ret v m1 → length d = Z.to_nat PGSIZE →
  1099 < Z.of_nat (length l) → Z.of_nat (length initcode) < PGSIZE →
  ∃ pgdir ma mb mc l', setupkvm (set_km_pages (<[v:=d]> (km_pages m1)) m1) = Ret pgdir ma ∧ pgdir ≠ 0 ∧
    inituvm pgdir initcode ma = Ret tt mb ∧ init_frame (v + 4096 - 76) mb = Ret tt mc ∧ first_mem m mc (v :: l) l' v pgdir.
Proof.
  intros Hm Hk Hd Hl Hi. destruct (kalloc_run m (v :: l) Hm) as (m1' & Hk' & Hm1 & Hpg & _). rewrite Hk in Hk'. injection Hk' as <-.
  pose proof (km_addr _ _ Hm) as [[Hpa Hvr] _]%Forall_cons. pose proof (km_nodup _ _ Hm) as [Hvl Hnd]%NoDup_cons.
  set (m2 := set_km_pages (<[v:=d]> (km_pages m1)) m1). assert (Hm2 : kmem_ok m2 l) by (by apply kmem_ok_write).
  assert (Hv2 : km_pages m2 !! v = Some d) by (cbn; by rewrite lookup_insert_eq).
  destruct (setupkvm_enough m2 l Hm2) as (pgdir & ma & la & Ea & Sa & Oa & Fa & Ua & _ & Hla); [lia|].
  assert (Hne : pgdir ≠ 0) by (pose proof (pt_dir _ _ _ (sp_pt _ _ _ Sa)) as (_ & ? & _); lia).
  destruct (inituvm_run ma la pgdir initcode Sa Ua) as (mb & lb & Eb & [Sb Fb Ob] & Ub); [lia|done|].
  assert (Hv : v ∉ lb ∧ ¬ owned mb pgdir v) by (specialize (Ob v); specialize (Oa v); tauto).
  assert (Hva : v ∉ la ∧ ¬ owned ma pgdir v) by (specialize (Oa v); tauto).
  assert (Hvb : km_pages mb !! v = Some d) by (rewrite Fb, Fa by tauto; done).
  destruct (init_frame_run mb v d) as (d' & Hd' & Ec & Hframe); [by apply page_aligned|done|done|].
  set (mc := set_km_pages (<[v:=d']> (km_pages mb)) mb) in *.
  destruct (space_same mb lb mc lb pgdir Sb) as (Sc & Oc & _ & Uc).
  { apply kmem_ok_write; [apply Sb|tauto]. }
  { intros w Hw. destruct (owned_in_use _ _ _ _ Sb Hw) as (_ & _ & ? & _). split; [done|]. cbn. rewrite lookup_insert_ne; [done|]. intros ->. tauto. }
  exists pgdir, ma, mb, mc, lb. do 4 (split; [done|]). split.
  - done.
  - rewrite Oc. split; [|tauto]. do 2 (split; [done|]). split; [tauto|]. exists d'. cbn. by rewrite lookup_insert_eq.
  - intros w. rewrite elem_of_cons, Oc, Ob, Oa. tauto.
  - intros w [? ?]%not_elem_of_cons. cbn. specialize (Oa w). rewrite lookup_insert_ne, Fb, Fa by (done || tauto).
    cbn. rewrite lookup_insert_ne by done. by rewrite Hpg.
  - intros j Hj. rewrite Uc by done. by apply Ub.
  - done.
Qed.

Lemma userinit_run l : fresh s l → Z.of_nat (length initcode) < PGSIZE →
  ∃ m v pgdir l', userinit s = Ret tt (filled false m (first_proc v pgdir) first_ic first_ns) ∧ pgdir ≠ 0 ∧ first_mem (mem_of s) m l l' v pgdir.
Proof.
  intros [F1 F2 F3 F4 F5 F6] Hi. destruct l as [|v l]; [cbn in F3; lia|]. cbn [length] in F3.
  assert (Hu : unused_proc 0 (s_proc s) = Some 0%nat) by (by rewrite F4). assert (Hy : s_proc s !! 0%nat = Some bss_proc) by (by rewrite F4).
  pose proof (allocproc_run s (v :: l) 0 bss_proc F1 Hu Hy F2) as (m1 & d & Hk & Hd & Ea). cbn zeta in Ea.
  destruct (first_mem_run (mem_of s) v l m1 d F2 Hk Hd) as (pgdir & ma & mb & mc & l' & E1 & Hne & E2 & E3 & Hfm); [lia|done|].
  exists mc, v, pgdir, l'. split; [|done]. unfold userinit. kstep Ea. set (m0 := set_km_pages _ m1) in *.
  set (y := embryo _ v bss_proc). set (sA := set_mem m0 _).
  assert (EA : modify (set_s_initproc (Some 0%nat)) sA = Ret tt (filled false m0 y bss_icache bss_nstate)).
  { unfold modify, sA, filled. rewrite F4, <- F5, <- F6. destruct s as [[k ft km pp]]. cbn in *. subst. by destruct k. }
  kstep EA. rewrite (K_bind_Ret (deref (Some 0%nat)) _ _ 0%nat _ eq_refl). kstep (filled_mem _ false m0 y bss_icache bss_nstate _ _ E1).
  rewrite (K_bind_Ret _ _ _ _ _ (filled_upd _ _ _ _ _ _)). destruct (Z.eqb_spec pgdir 0); [done|].
  rewrite (K_bind_Ret _ _ _ _ _ (filled_mem _ _ _ _ _ _ _ _ E2)). rewrite (K_bind_Ret _ _ _ _ _ (filled_upd _ _ _ _ _ _)).
  rewrite (K_bind_Ret _ _ _ _ _ (filled_get _ _ _ _ _)).
  match goal with |- context [filled false mb ?e] => set (y1 := e) end. change (p_tf y1) with (v + 4096 - 76). cbv zeta.
  unfold init_frame in E3. do 7 (apply K_bind_inv in E3 as ([] & ? & ? & E3)).
  do 8 (erewrite (K_bind_Ret (in_mem _)); [|by apply filled_mem]).
  assert (En : safestrcpy (p_name y1) initcode_name 16 = Some first_name) by (vm_compute; reflexivity). rewrite En.
  rewrite (K_bind_Ret (deref (Some first_name)) _ _ first_name _ eq_refl), (K_bind_Ret _ _ _ _ _ (filled_upd _ _ _ _ _ _)).
  rewrite (K_bind_Ret _ _ _ _ _ (filled_root _ _ _ _)), (K_bind_Ret _ _ _ _ _ (filled_upd _ _ _ _ _ _)).
  destruct first_ns_run as (N1 & N2 & N3 & N4). rewrite (K_bind_Ret _ _ _ _ _ (filled_ns _ _ _ _ _ _ _ _ N1)), (K_bind_Ret _ _ _ _ _ (filled_upd _ _ _ _ _ _)).
  rewrite (K_bind_Ret _ _ _ _ _ (filled_get _ _ _ _ _)).
  match goal with |- context [filled false mc ?e] => set (y2 := e) end.
  assert (Ep : pid_ns_of y2 (filled false mc y2 first_ic ex_ns) = Ret (Some 0%nat) (filled false mc y2 first_ic ex_ns)).
  { unfold pid_ns_of. change (p_nsproxy y2) with (Some 0%nat). rewrite (K_bind_Ret (deref (Some 0%nat)) _ _ 0%nat _ eq_refl).
    by rewrite (K_bind_Ret _ _ _ _ _ (filled_ns _ _ _ _ _ _ _ _ N3)). }
  kstep Ep. rewrite (K_bind_Ret (deref (Some 0%nat)) _ _ 0%nat _ eq_refl). rewrite (K_bind_Ret _ _ _ _ _ (filled_ns _ _ _ _ _ _ _ _ N2)).
  rewrite (K_bind_Ret _ _ _ _ _ (filled_upd _ _ _ _ _ _)). reflexivity.
Qed.

(** The scheduler switches to it: what [fork_spec] asks of a running process
    holds as soon as [forkret] has released the lock. *)
Lemma first_switch m0 m l l' v pgdir : first_mem m0 m l l' v pgdir → pgdir ≠ 0 → ft_lock (s_ft (s_sys s)) = false →
  ∃ s2, (acquire ptable_l;; switch_to 0) (filled false m (first_proc v pgdir) first_ic first_ns) = Ret tt s2 ∧
    s_cr3 s2 = V2P pgdir ∧ s_esp0 s2 = u32 (v + 4096) ∧ mem_of s2 = m ∧
    fork_ready (set_s_pt_lock false s2) l' [0%nat] [] 0 (set_p_state RUNNING (first_proc v pgdir)) 0
      (set_i_ref 1 (set_i_inum ROOTINO (set_i_dev ROOTDEV bss_inode))) 0 0 0 [].
Proof.
  intros [Hs [Hst _] _ _ Hu _] Hne Hft. pose proof Hst as (_ & Hv & _).
  unfold acquire, switch_to, switchuvm, getproc, updproc. kred. cbn. destruct (Z.eqb_spec v 0); [lia|]. destruct (Z.eqb_spec pgdir 0); [done|].
  eexists. split; [done|]. do 3 (split; [done|]). split; try done.
  - split; [done|done|cbn; unfold PGSIZE, KERNBASE; lia|done|]. intros j Hj. change (npages _) with 1 in Hj.
    replace j with 0 by lia. cbn -[uent]. rewrite Hu by done. by eexists.
  - intros f Hf. by apply elem_of_nil in Hf.
  - intros i y Hi Hy. destruct i as [|i]; [cbn in Hi; by injection Hi as <-|].
    change (replicate (NPROC - 1) bss_proc !! i = Some y) in Hi. apply lookup_replicate in Hi as [-> _]. done.
  - pose proof (ns_inv_bump ex_ns [0%nat] [] 0 ex_ns_inv) as Hb.
    assert (set_pt_pid_namespaces (bump (pt_pid_namespaces ex_ns) 0) ex_ns = first_ns) as E by (vm_compute; reflexivity).
    by rewrite E in Hb.
  - left.
  - eexists. split; [reflexivity|]. done.
  - apply NoDup_singleton.
  - cbn. unfold PID_NAMESPACE_MAX_DEPTH. lia.
Qed.
End steps.
End userinit.
