(* ===== verification/Wait.v ===== *)
(** * Wait: collecting and killing processes

    [wait] frees everything an exited child has; [kill] finds its victim by
    the pid in the namespace of the caller. *)

From Stdlib Require Import ZArith Lia.
From stdpp Require Import base numbers strings gmap list relations.
From S2P Require Import Prelude Memlayout Kalloc Vm PageTable Namespace Kernel Crash Fs File Proc Userarg UserMem Fork.
Open Scope Z_scope.

Section wait.
Context {LK : Linker}.

(** ** [kill] *)

Lemma find_ns_pid_spec k l ns pid :
  match find_ns_pid k l ns pid with
  | Some i => ∃ j y, i = (k + j)%nat ∧ l !! j = Some y ∧ get_namespace_pid y ns = pid
  | None => Forall (λ y, get_namespace_pid y ns ≠ pid) l
  end.
Proof.
  revert k. induction l as [|x l IH]; intros k; cbn [find_ns_pid]; [done|].
  destruct (Z.eqb_spec (get_namespace_pid x ns) pid).
  - exists 0%nat, x. split_and!; [lia|done|done].
  - specialize (IH (S k)). destruct (find_ns_pid (S k) l ns pid) as [i|]; [|by constructor].
    destruct IH as (j & y & -> & ? & ?). exists (S j), y. split_and!; [lia|done|done].
Qed.

Lemma find_pid_none (l : list pid_entry) ns : Forall (λ e, e.1 ≠ ns) l → find_pid l ns = 0.
Proof. induction 1 as [|[o v] l Ho _ IH]; [done|]. cbn [find_pid]. by rewrite decide_False. Qed.

(** What [kill] does to the process it finds. *)
Definition killed_proc (y : proc) : proc :=
  let y := set_p_killed true y in
  if decide (p_state y = SLEEPING) then set_p_state RUNNABLE y else y.

Lemma kill_run s c x n q pid :
  s_pt_lock s = false → s_cur s = Some c → s_proc s !! c = Some x → p_nsproxy x = Some n → space_of (s_ns s) n = Some q →
  match find_ns_pid 0 (s_proc s) (Some q) pid with
  | Some i => ∃ y, s_proc s !! i = Some y ∧ get_namespace_pid y (Some q) = pid ∧
      kill pid s = Ret 0 (set_s_proc (<[i:=killed_proc y]> (s_proc s)) s)
  | None => kill pid s = Ret (-1) s
  end.
Proof.
  intros Hlk Hcur Hx Hn Hq. pose proof (find_ns_pid_spec 0 (s_proc s) (Some q) pid) as Hf. unfold kill.
  set (sA := set_s_pt_lock true s). rewrite (K_bind_Ret _ _ s tt sA) by (unfold acquire; cbn; by rewrite Hlk).
  kstep (myproc_run sA c Hcur). kstep (getproc_run sA c x Hx). kstep (pid_ns_of_run sA x n q Hn Hq).
  rewrite (K_bind_Ret _ _ sA (s_proc s) sA) by done.
  destruct (find_ns_pid 0 (s_proc s) (Some q) pid) as [i|].
  - destruct Hf as (j & y & -> & Hy & Hpid). rewrite Nat.add_0_l. exists y. split; [done|]. split; [done|].
    kstep (getproc_run sA j y Hy). unfold kill_process.
    erewrite (K_bind_Ret _ _ sA tt).
    2:{ kstep (updproc_run sA j (set_p_killed true) y Hy).
        erewrite (K_bind_Ret (updproc j _)); [|apply updproc_run; by apply (insert_lookup _ _ _ _ Hy)].
        apply updproc_run. cbn. rewrite list_insert_insert_eq. by apply (insert_lookup _ _ _ _ Hy). }
    unfold release. cbn. rewrite !list_insert_insert_eq. unfold set_s_pt_lock, set_s_proc. cbn. rewrite Hlk.
    reflexivity.
  - unfold release. kred. cbn. by destruct s; cbn in *; subst.
Qed.

(** ** [wait] *)

(** The locks other than that of the process table. *)
Lemma ncli_zero k : ncli k = 0 → s_pt_lock k = false ∧ s_tickslock k = false ∧ ncli (set_s_pt_lock true k) = 1.
Proof.
  set (sum := foldr (λ b n, Z.b2z b + n) 0).
  assert (Hpos : ∀ l, 0 ≤ sum l) by (intros l; induction l as [|b l IH]; [done|]; change (0 ≤ Z.b2z b + sum l); destruct b; cbn [Z.b2z]; lia).
  assert (Hall : ∀ l, sum l = 0 → ∀ b, b ∈ l → b = false).
  { induction l as [|b0 l IH]; intros H0 b Hb; [by apply elem_of_nil in Hb|]. specialize (Hpos l). change (Z.b2z b0 + sum l = 0) in H0.
    destruct b0; cbn in H0; [lia|]. apply elem_of_cons in Hb as [->|Hb]; [done|]. by apply IH. }
  intros H0. pose proof (Hall _ H0) as Hf. assert (Hp : s_pt_lock k = false) by (apply Hf; by left).
  split; [done|]. split; [apply Hf; do 11 right; left|].
  change (ncli k) with (Z.b2z (s_pt_lock k) + sum (tail (locks k))) in H0. rewrite Hp in H0. cbn in H0.
  change (ncli (set_s_pt_lock true k)) with (1 + sum (tail (locks k))). cbn. lia.
Qed.

(** Sleeping with the lock of the process table only. *)
Lemma sleep_run s c x chan : ncli s = 0 → s_cur s = Some c → s_proc s !! c = Some x →
  sleep chan None (set_s_pt_lock true s) =
    Ret tt (set_s_pt_lock true (set_s_proc (<[c:=set_p_state SLEEPING (set_p_chan chan x)]> (s_proc s)) s)).
Proof.
  intros Hn Hc Hx. destruct (ncli_zero s Hn) as (_ & _ & Hn1). set (sA := set_s_pt_lock true s). unfold sleep.
  rewrite (K_bind_Ret _ _ sA (Some c) sA) by (unfold gets; cbn; by rewrite Hc). rewrite (K_bind_Ret (mret tt) _ sA tt sA) by done.
  kstep (updproc_run sA c (set_p_chan chan) x Hx). set (sB := set_s_proc _ sA).
  assert (HB : s_proc sB !! c = Some (set_p_chan chan x)) by (by apply (insert_lookup _ _ _ _ Hx)).
  kstep (updproc_run sB c (set_p_state SLEEPING) _ HB). set (sC := set_s_proc _ sB).
  assert (HC : s_proc sC !! c = Some (set_p_state SLEEPING (set_p_chan chan x))) by (by apply (insert_lookup _ _ _ _ HB)).
  unfold sched. kstep (myproc_run sC c Hc). kstep (getproc_run sC c _ HC). erewrite K_bind_Ret by reflexivity. cbn [negb s_pt_lock sC set_s_proc sB sA set_s_pt_lock].
  rewrite (K_bind_Ret (gets ncli) _ sC 1 sC) by (unfold gets; change (ncli sC) with (ncli sA); unfold sA; by rewrite Hn1).
  change (negb (1 =? 1)) with false. cbv iota. rewrite decide_False by done. unfold sC, sB. cbn. by rewrite list_insert_insert_eq.
Qed.

Lemma find_zombie_spec k l c b :
  match find_zombie k l c b with
  | (Some i, _) => ∃ j y, i = (k + j)%nat ∧ l !! j = Some y ∧ p_parent y = Some c ∧ p_state y = ZOMBIE
  | (None, b') => Forall (λ y, p_parent y = Some c → p_state y ≠ ZOMBIE) l ∧
      (b' = true ↔ b = true ∨ Exists (λ y, p_parent y = Some c) l)
  end.
Proof.
  revert k b. induction l as [|x l IH]; intros k b; cbn [find_zombie].
  { split; [done|]. rewrite Exists_nil. tauto. }
  destruct (decide (p_parent x = Some c)) as [Hp|Hp]; [destruct (decide (p_state x = ZOMBIE)) as [Hz|Hz]|].
  - exists 0%nat, x. split_and!; [lia|done..].
  - specialize (IH (S k) true). destruct (find_zombie (S k) l c true) as [[i|] b'].
    + destruct IH as (j & y & -> & ? & ? & ?). exists (S j), y. split_and!; [lia|done..].
    + destruct IH as [IH1 IH2]. split; [by constructor|]. rewrite Exists_cons. tauto.
  - specialize (IH (S k) b). destruct (find_zombie (S k) l c b) as [[i|] b'].
    + destruct IH as (j & y & -> & ? & ? & ?). exists (S j), y. split_and!; [lia|done..].
    + destruct IH as [IH1 IH2]. split; [by constructor|]. rewrite Exists_cons. tauto.
Qed.

Context (kend_above : KERNBASE < kend).

(** An exited child: its memory and kernel stack. *)
Record zombie_mem (m : kmem) (l : list Z) (y : proc) : Prop := {
  zm_space : space_ok m l (p_pgdir y);
  zm_stack : in_use m l (p_kstack y);
  zm_other : ¬ owned m (p_pgdir y) (p_kstack y);
}.

(** The entry that [wait] leaves. *)
Definition reaped (y : proc) : proc :=
  set_p_exit_state 0 (set_p_child_pid_namespace None (set_p_name (<[0%nat:=0]> (p_name y)) (set_p_state UNUSED
    (set_p_killed false (set_p_parent None (set_p_pids (replicate PID_NAMESPACE_MAX_DEPTH (None, 0))
    (set_p_pid 0 (set_p_kstack 0 y)))))))).

Lemma reap_memory m l y :
  zombie_mem m l y →
  ∃ m1 m2 l2, kfree (p_kstack y) m = Ret tt m1 ∧ freevm (p_pgdir y) m1 = Ret tt m2 ∧ kmem_ok m2 l2 ∧
    (∀ v, v ∈ l2 ↔ v ∈ l ∨ v = p_kstack y ∨ owned m (p_pgdir y) v) ∧
    ∀ v, v ∉ l2 → km_pages m2 !! v = km_pages m !! v.
Proof.
  intros [Hs (Hpa & Hr & Hl & _) Hno]. set (v := p_kstack y) in *.
  destruct (kfree_run m l v (pt_mem _ _ _ (sp_pt _ _ _ Hs)) Hpa Hr Hl) as [Hf Hm1]. set (m1 := KMem _ _ _ _) in *.
  destruct (space_same m l m1 (v :: l) (p_pgdir y) Hs Hm1) as (H1 & H2 & _).
  { intros w Hw. assert (w ≠ v) by (intros ->; done). destruct (owned_in_use _ _ _ _ Hs Hw) as (_ & _ & ? & _).
    split; [by apply not_elem_of_cons|]. cbn. by rewrite lookup_insert_ne. }
  destruct (freevm_run kend_above m1 (v :: l) (p_pgdir y) H1) as (m2 & l2 & Hf2 & Hm2 & Hl2 & Hfr2).
  exists m1, m2, l2. split_and!; try done.
  - intros w. rewrite Hl2, elem_of_cons, H2. tauto.
  - intros w Hw. rewrite Hfr2 by done. cbn. rewrite lookup_insert_ne; [done|]. intros <-. apply Hw, Hl2. left. left.
Qed.

(** C20: [wait].  When the caller has a child that has exited, [wait] returns the
    pid of one such child in the namespace of the caller, frees its kernel
    stack and all pages of its memory, makes its entry unused, and changes
    nothing else.  When none has exited: without children, and when the caller
    is killed, it returns -1 and changes nothing; otherwise, called with no
    lock held, it sleeps on the caller's own entry, keeping the lock of the
    process table for the switch, and changes nothing else. *)
Theorem wait_spec s l c x n q :
  s_pt_lock s = false → s_cur s = Some c → s_proc s !! c = Some x → p_nsproxy x = Some n → space_of (s_ns s) n = Some q →
  (∀ i y, s_proc s !! i = Some y → p_parent y = Some c → p_state y = ZOMBIE → zombie_mem (mem_of s) l y) →
  (∃ i y m' l', s_proc s !! i = Some y ∧ p_parent y = Some c ∧ p_state y = ZOMBIE ∧
     wait s = Ret (Some (get_namespace_pid y (Some q)))
       (set_mem m' (set_s_proc (<[i:=reaped y]> (s_proc s)) s)) ∧ kmem_ok m' l' ∧
     (∀ v, v ∈ l' ↔ v ∈ l ∨ v = p_kstack y ∨ owned (mem_of s) (p_pgdir y) v) ∧
     ∀ v, v ∉ l' → km_pages m' !! v = km_pages (mem_of s) !! v) ∨
  (Forall (λ y, p_parent y = Some c → p_state y ≠ ZOMBIE) (s_proc s) ∧
   (Forall (λ y, p_parent y ≠ Some c) (s_proc s) ∨ p_killed x = true → wait s = Ret (Some (-1)) s) ∧
   (Exists (λ y, p_parent y = Some c) (s_proc s) → p_killed x = false → ncli s = 0 →
      wait s = Ret None (set_s_pt_lock true
        (set_s_proc (<[c:=set_p_state SLEEPING (set_p_chan (Some (ChanProc c)) x)]> (s_proc s)) s)))).
Proof.
  intros Hlk Hcur Hx Hn Hq Hzm. pose proof (find_zombie_spec 0 (s_proc s) c false) as Hz.
  set (sA := set_s_pt_lock true s).
  assert (Hwait : wait s = wait_round c sA).
  { unfold wait. kstep (myproc_run s c Hcur). rewrite (K_bind_Ret _ _ s tt sA); [done|]. unfold acquire. cbn. by rewrite Hlk. }
  rewrite Hwait. unfold wait_round. rewrite (K_bind_Ret _ _ sA (s_proc s) sA) by done.
  destruct (find_zombie 0 (s_proc s) c false) as [[i|] havekids].
  - left. destruct Hz as (j & y & -> & Hy & Hpy & Hzy). rewrite Nat.add_0_l. exists j, y.
    destruct (reap_memory _ _ _ (Hzm j y Hy Hpy Hzy)) as (m1 & m2 & l2 & Hf1 & Hf2 & Hm2 & Hl2 & Hfr2).
    exists m2, l2. split_and!; try done. kstep (getproc_run sA c x Hx). kstep (pid_ns_of_run sA x n q Hn Hq).
    unfold reap. erewrite K_bind_Ret; [reflexivity|]. kstep (getproc_run sA j y Hy).
    kstep (in_mem_Ret _ sA _ _ Hf1). kstep (updproc_run (set_mem m1 sA) j (set_p_kstack 0) y Hy).
    set (sB := set_s_proc _ _). kstep (in_mem_Ret (freevm (p_pgdir y)) sB _ _ Hf2).
    assert (HB : s_proc sB !! j = Some (set_p_kstack 0 y)) by (by apply (insert_lookup _ _ _ _ Hy)).
    erewrite (K_bind_Ret (updproc j _)); [|by apply (updproc_run (set_mem m2 sB) j _ _ HB)].
    unfold release. cbn. rewrite list_insert_insert_eq. unfold set_s_pt_lock, set_s_proc, set_mem. cbn. rewrite Hlk. done.
  - right. destruct Hz as [Hz1 Hz2]. split; [done|]. kstep (getproc_run sA c x Hx). split.
    2:{ intros He Hk Hn0. rewrite (proj2 Hz2 (or_intror He)), Hk. cbn [negb orb]. by kstep (sleep_run s c x (Some (ChanProc c)) Hn0 Hcur Hx). }
    intros Hnone.
    assert (negb havekids || p_killed x = true) as ->.
    { destruct Hnone as [Hnone| ->]; [|by rewrite orb_true_r]. destruct havekids; [|done].
      destruct (proj1 Hz2 eq_refl) as [|He]; [done|]. apply Exists_exists in He as (y & Hy & Hp).
      rewrite Forall_forall in Hnone. by destruct (Hnone y Hy). }
    unfold release. kred. cbn. by destruct s; cbn in *; subst.
Qed.

(** [kill(0)] kills a process of another namespace.  [get_namespace_pid]
    gives 0 for a process that has no pid in the namespace, so the process in
    the first entry of the table, [init], is what a process outside its
    namespace kills with [kill(0)], and [kill] returns 0. *)
Theorem kill_zero_outside s c x n q y :
  s_pt_lock s = false → s_cur s = Some c → s_proc s !! c = Some x → p_nsproxy x = Some n → space_of (s_ns s) n = Some q →
  s_proc s !! 0%nat = Some y → Forall (λ e, e.1 ≠ Some q) (p_pids y) →
  ∃ s', kill 0 s = Ret 0 s' ∧ s_proc s' !! 0%nat = Some (killed_proc y) ∧ p_killed (killed_proc y) = true.
Proof.
  intros Hlk Hcur Hx Hn Hq Hy Hpids. pose proof (kill_run s c x n q 0 Hlk Hcur Hx Hn Hq) as Hk.
  assert (H0 : get_namespace_pid y (Some q) = 0).
  { by apply find_pid_none, Forall_take. }
  destruct (s_proc s) as [|y' l] eqn:El; [done|]. injection Hy as ->. cbn [find_ns_pid] in Hk.
  rewrite H0 in Hk. cbn [Z.eqb] in Hk. destruct Hk as (y' & [= <-] & _ & ->). eexists. split; [done|]. split; [done|].
  unfold killed_proc. by case_decide.
Qed.

End wait.

(** ** Examples *)

(** A process in a namespace of its own, with [init] in the first entry; and
    one that has exited, with its parent. *)
Definition ex_init : proc := set_p_pids [(Some 0%nat, 1); (None, 0); (None, 0); (None, 0)] ex_parent.
Definition ex_ns2 : nstate :=
  NState false ([NsProxy 1 (Some 0%nat); NsProxy 1 (Some 1%nat)] ++ replicate 8 (NsProxy 0 None)) false
    ([PidNamespace 1 None false 3 1 false; PidNamespace 1 (Some 0%nat) false 2 2 false] ++ replicate 8 bss_pid_namespace).
Definition ex_inner : proc :=
  set_p_nsproxy (Some 1%nat) (set_p_pids [(Some 1%nat, 1); (Some 0%nat, 2); (None, 0); (None, 0)] ex_parent).
Definition ex_two : state :=
  State (Sys (reboot []) (FTable false []) ex_mem ∅) false (ex_init :: ex_inner :: replicate 62 bss_proc) 3 (Some 0%nat)
    ex_ns2 (Some 1%nat) 0 0 0 false false 0.

Lemma kill_zero_outside_witness :
  ∃ s', kill 0 ex_two = Ret 0 s' ∧ s_proc s' !! 0%nat = Some (killed_proc ex_init) ∧ p_killed (killed_proc ex_init) = true.
Proof.
  apply (kill_zero_outside ex_two 1 ex_inner 1 1 ex_init); try reflexivity.
  apply (bool_decide_unpack _). vm_compute. exact I.
Defined.

Definition ex_zombie : proc :=
  set_p_parent (Some 0%nat) (set_p_pgdir ex_pd (set_p_kstack ex_kstack (set_p_state ZOMBIE
    (set_p_pids [(Some 0%nat, 2); (None, 0); (None, 0); (None, 0)] bss_proc)))).
Definition ex_wait : state :=
  State (Sys (reboot []) (FTable false []) ex_mem ∅) false (ex_init :: ex_zombie :: replicate 62 bss_proc) 3 (Some 0%nat)
    ex_ns2 (Some 0%nat) 0 0 0 false false 0.

(** The parent of a child that still runs. *)
Definition ex_waits : state :=
  set_s_proc (ex_init :: set_p_state RUNNABLE ex_zombie :: replicate 62 bss_proc) ex_wait.

Lemma wait_spec_witness :
  (∃ i y m', s_proc ex_wait !! i = Some y ∧ p_state y = ZOMBIE ∧
    wait (LK:=ex_linker) ex_wait = Ret (Some (get_namespace_pid y (Some 0%nat)))
      (set_mem m' (set_s_proc (<[i:=reaped y]> (s_proc ex_wait)) ex_wait))) ∧
  ∃ s', wait (LK:=ex_linker) ex_waits = Ret None s' ∧ p_state <$> s_proc s' !! 0%nat = Some SLEEPING.
Proof.
  destruct ex_mem_ok as (H1 & _ & H3). split.
  - destruct (wait_spec (LK:=ex_linker) eq_refl ex_wait [0x80300000; 0x80200000] 0 ex_init 0 0)
      as [(i & y & m' & l' & Hy & _ & Hz & Hw & _)|[Hno _]]; try reflexivity.
    + intros i y Hi _ Hz. destruct i as [|[|i]].
      * injection Hi as <-. discriminate Hz.
      * injection Hi as <-. split; [exact H1| |exact H3]. split; [reflexivity|]. split; [done|].
        split; [intros ?%list_elem_of_In; cbn in *; unfold ex_kstack in *; lia|].
        exists (fill_page 0). split; [|reflexivity]. cbn. rewrite lookup_insert_ne by (unfold ex_pd, ex_kstack; lia). by rewrite lookup_insert_eq.
      * change (replicate 62 bss_proc !! i = Some y) in Hi. apply lookup_replicate in Hi as [-> _]. discriminate Hz.
    + exists i, y, m'. split; [exact Hy|]. split; [exact Hz|exact Hw].
    + exfalso. apply (Forall_lookup_1 _ _ 1%nat ex_zombie Hno); reflexivity.
  - assert (Hnz : ∀ i y, s_proc ex_waits !! i = Some y → p_state y ≠ ZOMBIE).
    { intros [|[|i]] y Hi; [injection Hi as <-; discriminate..|].
      change (replicate 62 bss_proc !! i = Some y) in Hi. apply lookup_replicate in Hi as [-> _]. discriminate. }
    destruct (wait_spec (LK:=ex_linker) eq_refl ex_waits [0x80300000; 0x80200000] 0 ex_init 0 0)
      as [(i & y & m' & l' & Hy & _ & Hz & _)|(_ & _ & Hsleep)]; try reflexivity.
    + intros i y Hi _ Hz. by destruct (Hnz i y Hi).
    + by destruct (Hnz i y Hy).
    + eexists. split; [apply Hsleep; [|reflexivity|reflexivity]|reflexivity]. right. left. reflexivity.
Defined.
