(* ===== verification/Exec.v ===== *)
(** * Exec: running a program (exec.c, elf.h, [loaduvm] of vm.c)

    The ELF headers are read from the file's bytes.  [argv] is the list of the
    argument strings, each with its NUL. *)

From Stdlib Require Import ZArith Lia.
From stdpp Require Import base numbers strings gmap list.
From S2P Require Import Prelude CString Memlayout Kalloc Vm Kernel Sleeplock Bio Log Fs Loopdev File Proc.
Open Scope Z_scope.

Definition MAXARG : nat := 32.
Definition ELF_MAGIC : Z := 0x464C457F.
Definition ELF_PROG_LOAD : Z := 1.
Definition ELFHDR : Z := 52.
Definition PROGHDR : Z := 32.

(** The fields of [struct elfhdr] and [struct proghdr] that are used. *)
Definition elf_magic (h : list Z) : Z := word h 0.
Definition elf_entry (h : list Z) : Z := word h 6.
Definition elf_phoff (h : list Z) : Z := word h 7.
Definition elf_phnum (h : list Z) : Z := le_val (take 2 (drop 44 h)).
Definition ph_type (h : list Z) : Z := word h 0.
Definition ph_off (h : list Z) : Z := word h 1.
Definition ph_vaddr (h : list Z) : Z := word h 2.
Definition ph_filesz (h : list Z) : Z := word h 4.
Definition ph_memsz (h : list Z) : Z := word h 5.

Section exec.
Context {LK : Linker} {CD : Code} {DS : DevSw}.

(** The loop of [loaduvm]: one round for every page. *)
Fixpoint loaduvm_loop (fuel : nat) (pgdir addr : Z) (ip : nat) (offset i sz : Z) : K state Z :=
  if i <? sz then
    match fuel with
    | O => nofuel
    | S fuel =>
        pte ← in_mem (walkpgdir pgdir (u32 (addr + i)) false);
        match pte with
        | None => panic "loaduvm: address should exist"
        | Some pte =>
            e ← in_mem (read_pte pte);
            let v := P2V (PTE_ADDR e) in
            let n := if sz - i <? PGSIZE then sz - i else PGSIZE in
            '(r, bytes) ← in_fs (λ CP LO, readi ip (u32 (offset + i)) n);
            d ← in_mem (read_page v);
            in_mem (write_page v (list_inserts 0 bytes d));;
            if negb (r =? n) then mret (-1)
            else loaduvm_loop fuel pgdir addr ip offset (i + PGSIZE) sz
        end
    end
  else mret 0.
Definition loaduvm (pgdir addr : Z) (ip : nat) (offset sz : Z) : K state Z :=
  if negb (addr mod PGSIZE =? 0) then panic "loaduvm: addr must be page aligned" else
  loaduvm_loop (Z.to_nat (sz / PGSIZE + 1)) pgdir addr ip offset 0 sz.

(** The loop over the program headers, [n] of them left: the size of the
    image, or [None] for [goto bad]. *)
Fixpoint load_segments (n : nat) (pgdir : Z) (ip : nat) (off sz : Z) : K state (option Z) :=
  match n with
  | O => mret (Some sz)
  | S n =>
      '(r, ph) ← in_fs (λ CP LO, readi ip off PROGHDR);
      if negb (r =? PROGHDR) then mret None else
      if negb (ph_type ph =? ELF_PROG_LOAD) then load_segments n pgdir ip (u32 (off + PROGHDR)) sz else
      if ph_memsz ph <? ph_filesz ph then mret None else
      if u32 (ph_vaddr ph + ph_memsz ph) <? ph_vaddr ph then mret None else
      sz ← in_mem (allocuvm pgdir sz (u32 (ph_vaddr ph + ph_memsz ph)));
      if sz =? 0 then mret None else
      if negb (ph_vaddr ph mod PGSIZE =? 0) then mret None else
      r ← loaduvm pgdir (ph_vaddr ph) ip (ph_off ph) (ph_filesz ph);
      if r <? 0 then mret None else
      load_segments n pgdir ip (u32 (off + PROGHDR)) sz
  end.

(** The loop that pushes the argument strings: the stack pointer and the
    pointers to the strings, or [None] for [goto bad]. *)
Fixpoint push_args (argc : nat) (argv : list (list Z)) (pgdir sp : Z) : K state (option (Z * list Z)) :=
  match argv with
  | [] => mret (Some (sp, []))
  | s :: argv =>
      if (MAXARG <=? argc)%nat then mret None else
      len ← deref (strlen s);
      let sp := Z.land (u32 (sp - (len + 1))) (u32 (Z.lnot 3)) in
      r ← in_mem (copyout pgdir sp s (len + 1));
      if r <? 0 then mret None else
      r ← push_args (S argc) argv pgdir sp;
      mret ((λ r, (r.1, sp :: r.2)) <$> r)
  end.

(** The part of [path] after the last slash. *)
Fixpoint last_elem (path last : list Z) : list Z :=
  match path with
  | [] => last
  | c :: path => if c =? 0 then last else last_elem path (if c =? SLASH then path else last)
  end.

(** [bad:] *)
Definition exec_bad (pgdir : Z) (ip : option nat) : K state Z :=
  (if pgdir =? 0 then mret tt else in_mem (freevm pgdir));;
  (match ip with
   | None => mret tt
   | Some ip =>
       in_fs (λ CP LO, iunlockput ip);;
       in_fs (λ CP LO, end_op)
   end);;
  mret (-1).

(** From the image loaded ([sz] bytes) on. *)
Definition exec_stack (path : list Z) (argv : list (list Z)) (pgdir sz entry : Z) : K state Z :=
  let sz := PGROUNDUP sz in
  sz ← in_mem (allocuvm pgdir sz (u32 (sz + 2 * PGSIZE)));
  if sz =? 0 then exec_bad pgdir None else
  in_mem (clearpteu pgdir (u32 (sz - 2 * PGSIZE)));;
  r ← push_args 0 argv pgdir sz;
  match r with
  | None => exec_bad pgdir None
  | Some (sp, ptrs) =>
      let argc := Z.of_nat (length ptrs) in
      let ustack := [0xffffffff; argc; u32 (sp - (argc + 1) * 4)] ++ ptrs ++ [0] in
      let sp := u32 (sp - (3 + argc + 1) * 4) in
      r ← in_mem (copyout pgdir sp (concat (map (le_bytes 4) ustack)) ((3 + argc + 1) * 4));
      if r <? 0 then exec_bad pgdir None else
      c ← myproc;
      x ← getproc c;
      name ← deref (safestrcpy (p_name x) (last_elem path path) 16);
      updproc c (set_p_name name);;
      let oldpgdir := p_pgdir x in
      updproc c (set_p_pgdir pgdir);;
      updproc c (set_p_sz sz);;
      in_mem (write_word (p_tf x + TF_EIP) entry);;
      in_mem (write_word (p_tf x + TF_ESP) sp);;
      switchuvm c;;
      in_mem (freevm oldpgdir);;
      mret 0
  end.

Definition exec (path : list Z) (argv : list (list Z)) : K state Z :=
  in_fs (λ CP LO, begin_op);;
  o ← in_fs (λ CP LO, namei path);
  match o with
  | None =>
      in_fs (λ CP LO, end_op);;
      mret (-1)
  | Some ip =>
      in_fs (λ CP LO, ilock (Some ip));;
      '(r, elf) ← in_fs (λ CP LO, readi ip 0 ELFHDR);
      if negb (r =? ELFHDR) then exec_bad 0 (Some ip) else
      if negb (elf_magic elf =? ELF_MAGIC) then exec_bad 0 (Some ip) else
      pgdir ← in_mem setupkvm;
      if pgdir =? 0 then exec_bad 0 (Some ip) else
      sz ← load_segments (Z.to_nat (elf_phnum elf)) pgdir ip (elf_phoff elf) 0;
      match sz with
      | None => exec_bad pgdir (Some ip)
      | Some sz =>
          in_fs (λ CP LO, iunlockput ip);;
          in_fs (λ CP LO, end_op);;
          exec_stack path argv pgdir sz (elf_entry elf)
      end
  end.

End exec.
