(* ===== verification/Sysfile.v ===== *)
(** * Sysfile: the system calls (sysfile.c, sysproc.c, sysnamespace.c, syscall.c)

    Every system call of the table, and [syscall] itself.  A call that gives
    the processor away ([exit], a [wait] or [sleep] that has to wait) returns
    [None]: the process goes on when it is scheduled again. *)

From Stdlib Require Import ZArith Lia.
From stdpp Require Import base numbers strings gmap list.
From S2P Require Import Prelude CString Memlayout Kalloc Vm Namespace Pipe Kernel Sleeplock Bio Log MntTable.
From S2P Require Import Fs Loopdev Mount File Proc Userarg Exec.
Open Scope Z_scope.

Definition O_RDONLY : Z := 0.
Definition O_WRONLY : Z := 1.
Definition O_RDWR : Z := 2.
Definition O_CREATE : Z := 0x200.

Section sysfile.
Context {LK : Linker} {CD : Code} {DS : DevSw}.

(** ** Descriptors *)

(** The descriptor and its file. *)
Definition argfd (n : Z) : K state (option (nat * nat)) :=
  o ← argint n;
  match o with
  | None => mret None
  | Some fd =>
      if (fd <? 0) || (Z.of_nat NOFILE <=? fd) then mret None else
      c ← myproc;
      x ← getproc c;
      match p_ofile x !! Z.to_nat fd with
      | Some (Some f) => mret (Some (Z.to_nat fd, f))
      | Some None => mret None
      | None => fault
      end
  end.

(** The loop of [fdalloc], from descriptor [fd] on. *)
Fixpoint free_fd (fd : nat) (l : list (option nat)) : option nat :=
  match l with
  | [] => None
  | None :: _ => Some fd
  | Some _ :: l => free_fd (S fd) l
  end.
Definition fdalloc (f : nat) : K state Z :=
  c ← myproc;
  x ← getproc c;
  match free_fd 0 (take NOFILE (p_ofile x)) with
  | Some fd =>
      updproc c (λ x, set_p_ofile (<[fd:=Some f]> (p_ofile x)) x);;
      mret (Z.of_nat fd)
  | None => mret (-1)
  end.

(** [myproc()->ofile[fd] = 0;] *)
Definition clear_fd (fd : nat) : K state unit :=
  c ← myproc;
  updproc c (λ x, set_p_ofile (<[fd:=None]> (p_ofile x)) x).

Definition sys_dup : K state Z :=
  o ← argfd 0;
  match o with
  | None => mret (-1)
  | Some (_, f) =>
      fd ← fdalloc f;
      if fd <? 0 then mret (-1) else
      in_files (zoom ft_l (filedup f));;
      mret fd
  end.

(** The arguments of [read] and [write]: the file, the buffer and the size. *)
Definition arg_io : K state (option (nat * Z * Z)) :=
  o ← argfd 0;
  match o with
  | None => mret None
  | Some (_, f) =>
      n ← argint 2;
      match n with
      | None => mret None
      | Some n =>
          p ← argptr 1 n;
          mret ((λ p, (f, p, n)) <$> p)
      end
  end.

Definition killed : K state bool :=
  c ← myproc;
  x ← getproc c;
  mret (p_killed x).

Definition sys_read : K state Z :=
  o ← arg_io;
  match o with
  | None => mret (-1)
  | Some (f, p, n) =>
      b ← killed;
      '(r, bytes) ← in_file (λ CP LO, fileread b f n);
      store_bytes p bytes;;
      mret r
  end.

Definition sys_write : K state Z :=
  o ← arg_io;
  match o with
  | None => mret (-1)
  | Some (f, p, n) =>
      b ← killed;
      bytes ← load_bytes (Z.to_nat n) p;
      in_file (λ CP LO, filewrite b f bytes n)
  end.

Definition sys_close : K state Z :=
  o ← argfd 0;
  match o with
  | None => mret (-1)
  | Some (fd, f) =>
      clear_fd fd;;
      in_file (λ CP LO, fileclose f);;
      mret 0
  end.

(** [struct stat] is 20 bytes; the bytes between the fields stay. *)
Definition store_stat (p : Z) (st : stat) : K state unit :=
  store_bytes p (le_bytes 2 (st_type st));;
  store_bytes (p + 4) (le_bytes 4 (st_dev st));;
  store_bytes (p + 8) (le_bytes 4 (st_ino st));;
  store_bytes (p + 12) (le_bytes 2 (st_nlink st));;
  store_bytes (p + 16) (le_bytes 4 (st_size st)).

Definition sys_fstat : K state Z :=
  o ← argfd 0;
  match o with
  | None => mret (-1)
  | Some (_, f) =>
      p ← argptr 1 20;
      match p with
      | None => mret (-1)
      | Some p =>
          st ← in_file (λ CP LO, filestat f);
          match st with
          | None => mret (-1)
          | Some st => store_stat p st;; mret 0
          end
      end
  end.

(** ** Names *)

(** [end_op(); return r;] *)
Definition end_with {A} (r : A) : K state A :=
  in_fs (λ CP LO, end_op);;
  mret r.

(** Change a field of a locked inode and write it to the disk. *)
Definition change_inode {CP : CurProc} {LO : LoopOps} (ip : nat) (f : inode → inode) : K kernel unit :=
  upd_inode ip f;;
  iupdate ip.
Definition add_nlink (d : Z) (x : inode) : inode := set_i_nlink (s16 (i_nlink x + d)) x.

(** [bad:] of [sys_link]. *)
Definition link_bad (ip : nat) : K state Z :=
  in_fs (λ CP LO, ilock (Some ip);; change_inode ip (add_nlink (-1));; iunlockput ip);;
  end_with (-1).

Definition sys_link : K state Z :=
  old ← argstr 0;
  new ← argstr 1;
  match old, new with
  | Some old, Some new =>
      in_fs (λ CP LO, begin_op);;
      o ← in_fs (λ CP LO, namei old);
      match o with
      | None => end_with (-1)
      | Some ip =>
          in_fs (λ CP LO, ilock (Some ip));;
          x ← in_fs (λ CP LO, inode_of ip);
          if i_type x =? T_DIR then
            in_fs (λ CP LO, iunlockput ip);;
            end_with (-1)
          else
          in_fs (λ CP LO, change_inode ip (add_nlink 1);; iunlock (Some ip));;
          '(o, name) ← in_fs (λ CP LO, nameiparent new (replicate DIRSIZ 0));
          match o with
          | None => link_bad ip
          | Some dp =>
              in_fs (λ CP LO, ilock (Some dp));;
              y ← in_fs (λ CP LO, inode_of dp);
              x ← in_fs (λ CP LO, inode_of ip);
              r ← (if negb (i_dev y =? i_dev x) then mret (-1)
                   else in_fs (λ CP LO, dirlink dp name (i_inum x)));
              if r <? 0 then
                in_fs (λ CP LO, iunlockput dp);;
                link_bad ip
              else
              in_fs (λ CP LO, iunlockput dp;; iput ip);;
              end_with 0
          end
      end
  | _, _ => mret (-1)
  end.

(** The loop of [isdirempty] from [off] on. *)
Fixpoint isdirempty_loop {CP : CurProc} {LO : LoopOps} (fuel : nat) (dp : nat) (off : Z) : K kernel bool :=
  x ← inode_of dp;
  if off <? i_size x then
    match fuel with
    | O => nofuel
    | S fuel =>
        de ← read_dirent dp off "isdirempty: readi";
        if negb (de_inum de =? 0) then mret false else isdirempty_loop fuel dp (off + DIRENT)
    end
  else mret true.
Definition isdirempty {CP : CurProc} {LO : LoopOps} (dp : nat) : K kernel bool :=
  x ← inode_of dp;
  isdirempty_loop (Z.to_nat (i_size x / DIRENT + 1)) dp (2 * DIRENT).

(** [bad:] of [sys_unlink]. *)
Definition unlink_bad (dp : nat) : K state Z :=
  in_fs (λ CP LO, iunlockput dp);;
  end_with (-1).

(** The names ["."] and [".."]. *)
Definition dot_name : list Z := [DOT; 0].
Definition dotdot_name : list Z := [DOT; DOT; 0].

Definition sys_unlink : K state Z :=
  path ← argstr 0;
  match path with
  | None => mret (-1)
  | Some path =>
      in_fs (λ CP LO, begin_op);;
      '(o, name) ← in_fs (λ CP LO, nameiparent path (replicate DIRSIZ 0));
      match o with
      | None => end_with (-1)
      | Some dp =>
          in_fs (λ CP LO, ilock (Some dp));;
          c1 ← deref (namecmp name dot_name);
          c2 ← deref (namecmp name dotdot_name);
          if (c1 =? 0) || (c2 =? 0) then unlink_bad dp else
          o ← in_fs (λ CP LO, dirlookup dp name);
          match o with
          | None => unlink_bad dp
          | Some (ip, off) =>
              in_fs (λ CP LO, ilock (Some ip));;
              x ← in_fs (λ CP LO, inode_of ip);
              if i_nlink x <? 1 then panic "unlink: nlink < 1" else
              empty ← (if i_type x =? T_DIR then in_fs (λ CP LO, isdirempty ip) else mret true);
              if (i_type x =? T_DIR) && negb empty then
                in_fs (λ CP LO, iunlockput ip);;
                unlink_bad dp
              else
              r ← in_fs (λ CP LO, writei dp (replicate (Z.to_nat DIRENT) 0) off DIRENT);
              if negb (r =? DIRENT) then panic "unlink: writei" else
              (if i_type x =? T_DIR then in_fs (λ CP LO, change_inode dp (add_nlink (-1))) else mret tt);;
              in_fs (λ CP LO, iunlockput dp);;
              in_fs (λ CP LO, change_inode ip (add_nlink (-1));; iunlockput ip);;
              end_with 0
          end
      end
  end.

(** The new inode, locked; [None] is the null pointer. *)
Definition create {CP : CurProc} {LO : LoopOps} (path : list Z) (type major minor : Z) :
    K kernel (option nat) :=
  '(o, name) ← nameiparent path (replicate DIRSIZ 0);
  match o with
  | None => mret None
  | Some dp =>
      ilock (Some dp);;
      o ← dirlookup dp name;
      match o with
      | Some (ip, _) =>
          iunlockput dp;;
          ilock (Some ip);;
          x ← inode_of ip;
          if (type =? T_FILE) && (i_type x =? T_FILE) then mret (Some ip) else
          iunlockput ip;;
          mret None
      | None =>
          y ← inode_of dp;
          ip ← ialloc (i_dev y) type;
          ilock (Some ip);;
          change_inode ip (λ x, set_i_nlink 1 (set_i_minor (s16 minor) (set_i_major (s16 major) x)));;
          x ← inode_of ip;
          (if type =? T_DIR then
             change_inode dp (add_nlink 1);;
             r ← dirlink ip dot_name (i_inum x);
             if r <? 0 then panic "create dots" else
             r ← dirlink ip dotdot_name (i_inum y);
             if r <? 0 then panic "create dots" else mret tt
           else mret tt);;
          r ← dirlink dp name (i_inum x);
          if r <? 0 then panic "create: dirlink" else
          iunlockput dp;;
          mret (Some ip)
      end
  end.

(** The inode that [sys_open] opens, locked; [None] after an error. *)
Definition open_inode {CP : CurProc} {LO : LoopOps} (path : list Z) (omode : Z) : K kernel (option nat) :=
  if negb (Z.land omode O_CREATE =? 0) then create path T_FILE 0 0 else
  o ← namei path;
  match o with
  | None => mret None
  | Some ip =>
      ilock (Some ip);;
      x ← inode_of ip;
      if (i_type x =? T_DIR) && negb (omode =? O_RDONLY) then
        iunlockput ip;;
        mret None
      else mret (Some ip)
  end.

Definition sys_open : K state Z :=
  path ← argstr 0;
  omode ← argint 1;
  match path, omode with
  | Some path, Some omode =>
      in_fs (λ CP LO, begin_op);;
      o ← in_fs (λ CP LO, open_inode path omode);
      match o with
      | None => end_with (-1)
      | Some ip =>
          f ← in_files (zoom ft_l filealloc);
          fd ← (match f with None => mret (-1) | Some f => fdalloc f end);
          match f with
          | None =>
              in_fs (λ CP LO, iunlockput ip);;
              end_with (-1)
          | Some f =>
              if fd <? 0 then
                in_file (λ CP LO, fileclose f);;
                in_fs (λ CP LO, iunlockput ip);;
                end_with (-1)
              else
              in_fs (λ CP LO, iunlock (Some ip));;
              in_fs (λ CP LO, end_op);;
              let wronly := negb (Z.land omode O_WRONLY =? 0) in
              let rdwr := negb (Z.land omode O_RDWR =? 0) in
              in_files (zoom ft_l (updfile f (λ x,
                File FD_INODE (f_ref x) (negb wronly) (wronly || rdwr) (f_pipe x) (Some ip) 0)));;
              mret fd
          end
      end
  | _, _ => mret (-1)
  end.

(** The common rest of [sys_mkdir] and [sys_mknod]. *)
Definition create_node (path : option (list Z)) (type major minor : Z) : K state Z :=
  o ← (match path with
       | None => mret None
       | Some path => in_fs (λ CP LO, create path type major minor)
       end);
  match o with
  | None => end_with (-1)
  | Some ip =>
      in_fs (λ CP LO, iunlockput ip);;
      end_with 0
  end.
Definition sys_mkdir : K state Z :=
  in_fs (λ CP LO, begin_op);;
  path ← argstr 0;
  create_node path T_DIR 0 0.
Definition sys_mknod : K state Z :=
  in_fs (λ CP LO, begin_op);;
  path ← argstr 0;
  major ← argint 1;
  minor ← argint 2;
  match major, minor with
  | Some major, Some minor => create_node path T_DEV major minor
  | _, _ => end_with (-1)
  end.

Definition sys_chdir : K state Z :=
  c ← myproc;
  in_fs (λ CP LO, begin_op);;
  path ← argstr 0;
  o ← (match path with None => mret None | Some path => in_fs (λ CP LO, namei path) end);
  match o with
  | None => end_with (-1)
  | Some ip =>
      in_fs (λ CP LO, ilock (Some ip));;
      x ← in_fs (λ CP LO, inode_of ip);
      if negb (i_type x =? T_DIR) then
        in_fs (λ CP LO, iunlockput ip);;
        end_with (-1)
      else
      in_fs (λ CP LO, iunlock (Some ip));;
      y ← getproc c;
      cwd ← deref (p_cwd y);
      in_fs (λ CP LO, iput cwd);;
      in_fs (λ CP LO, end_op);;
      updproc c (set_p_cwd (Some ip));;
      mret 0
  end.

(** The loop of [sys_exec], [n] arguments more at most. *)
Fixpoint fetch_args (n : nat) (uargv : Z) : K state (option (list (list Z))) :=
  match n with
  | O => mret None
  | S n =>
      o ← fetchint uargv;
      match o with
      | None => mret None
      | Some uarg =>
          if uarg =? 0 then mret (Some []) else
          s ← fetchstr (u32 uarg);
          match s with
          | None => mret None
          | Some s =>
              r ← fetch_args n (u32 (uargv + 4));
              mret (cons s <$> r)
          end
      end
  end.
Definition sys_exec : K state Z :=
  path ← argstr 0;
  uargv ← argint 1;
  match path, uargv with
  | Some path, Some uargv =>
      argv ← fetch_args MAXARG (u32 uargv);
      match argv with
      | None => mret (-1)
      | Some argv => exec path argv
      end
  | _, _ => mret (-1)
  end.

Definition sys_pipe : K state Z :=
  fd ← argptr 0 8;
  match fd with
  | None => mret (-1)
  | Some fd =>
      o ← in_file (λ CP LO, pipealloc);
      match o with
      | None => mret (-1)
      | Some (rf, wf) =>
          fd0 ← fdalloc rf;
          fd1 ← (if fd0 <? 0 then mret (-1) else fdalloc wf);
          if fd1 <? 0 then
            (if 0 <=? fd0 then clear_fd (Z.to_nat fd0) else mret tt);;
            in_file (λ CP LO, fileclose rf);;
            in_file (λ CP LO, fileclose wf);;
            mret (-1)
          else
          store_bytes fd (le_bytes 4 fd0);;
          store_bytes (fd + 4) (le_bytes 4 fd1);;
          mret 0
      end
  end.

(** ** Processes (sysproc.c, sysnamespace.c) *)

(** With an [int] argument. *)
Definition with_int {A} (n : Z) (r : A) (f : Z → K state A) : K state A :=
  o ← argint n;
  match o with None => mret r | Some i => f i end.

Definition sys_fork : K state Z := fork.
Definition sys_exit : K state (option Z) :=
  with_int 0 (Some (-1)) (λ status, exit status;; mret None).
Definition sys_wait : K state (option Z) := wait.
Definition sys_kill : K state Z := with_int 0 (-1) kill.
Definition sys_getpid : K state Z :=
  c ← myproc;
  x ← getproc c;
  mret (p_pid x).
Definition sys_sbrk : K state Z :=
  with_int 0 (-1) (λ n,
    c ← myproc;
    x ← getproc c;
    let addr := s32 (p_sz x) in
    r ← growproc n;
    mret (if r <? 0 then -1 else addr)).

(** The address of [ticks], as a channel. *)
Definition ticks_chan : waitchan := ChanAddr 0.

(** A round of the loop of [sys_sleep], with the lock: [None] when the process
    goes to sleep.  The comparison is one of [uint]s. *)
Definition sys_sleep_round (n ticks0 : Z) : K state (option Z) :=
  t ← gets s_ticks;
  if u32 (t - ticks0) <? u32 n then
    b ← killed;
    if b : bool then
      release ticks_l;;
      mret (Some (-1))
    else
      sleep (Some ticks_chan) (Some ticks_l);;
      mret None
  else
    release ticks_l;;
    mret (Some 0).
Definition sys_sleep : K state (option Z) :=
  with_int 0 (Some (-1)) (λ n,
    acquire ticks_l;;
    ticks0 ← gets s_ticks;
    sys_sleep_round n ticks0).
Definition sys_uptime : K state Z :=
  acquire ticks_l;;
  t ← gets s_ticks;
  release ticks_l;;
  mret (s32 t).
Definition sys_unshare : K state Z := with_int 0 (-1) unshare.

(** ** The table *)

Definition returns (m : K state Z) : K state (option Z) :=
  r ← m;
  mret (Some r).

(** [syscalls[num]()] for the numbers of syscall.h. *)
Definition syscalls (num : Z) : option (K state (option Z)) :=
  match num with
  | 1 => Some (returns sys_fork)
  | 2 => Some sys_exit
  | 3 => Some sys_wait
  | 4 => Some (returns sys_pipe)
  | 5 => Some (returns sys_read)
  | 6 => Some (returns sys_kill)
  | 7 => Some (returns sys_exec)
  | 8 => Some (returns sys_fstat)
  | 9 => Some (returns sys_chdir)
  | 10 => Some (returns sys_dup)
  | 11 => Some (returns sys_getpid)
  | 12 => Some (returns sys_sbrk)
  | 13 => Some sys_sleep
  | 14 => Some (returns sys_uptime)
  | 15 => Some (returns sys_open)
  | 16 => Some (returns sys_write)
  | 17 => Some (returns sys_mknod)
  | 18 => Some (returns sys_unlink)
  | 19 => Some (returns sys_link)
  | 20 => Some (returns sys_mkdir)
  | 21 => Some (returns sys_close)
  | 22 => Some (returns (
      dev ← argstr 0; mnt ← argstr 1; in_fs (λ CP LO, sys_mount dev mnt)))
  | 23 => Some (returns (mnt ← argstr 0; in_fs (λ CP LO, sys_umount mnt)))
  | 24 => Some (returns sys_unshare)
  | _ => None
  end.

(** The result goes to [tf->eax] of the process, unless it was switched away;
    the value is whether the process goes on. *)
Definition syscall : K state bool :=
  c ← myproc;
  x ← getproc c;
  num ← in_mem (read_word (p_tf x + TF_EAX));
  match syscalls (s32 num) with
  | None =>
      in_mem (write_word (p_tf x + TF_EAX) (u32 (-1)));;
      mret true
  | Some f =>
      r ← f;
      match r with
      | None => mret false
      | Some v =>
          x ← getproc c;
          in_mem (write_word (p_tf x + TF_EAX) (u32 v));;
          mret true
      end
  end.

End sysfile.
