(* ===== verification/Ulib.v ===== *)
(** * Ulib: the user library, ulib.c and printf.c

    A [char*] is the list of the characters from where it points to the end of
    its array, as in CString.v, and [None] is an access past the end.  What
    [printf] writes is the list of the bytes it passes to [write]. *)

From Stdlib Require Import ZArith Lia.
From stdpp Require Import base numbers strings list.
From S2P Require Import Prelude.
Open Scope Z_scope.

(** ** ulib.c *)

(** [strcpy(s, t)]: the array [s] afterwards. *)
Fixpoint strcpy (s t : list Z) : option (list Z) :=
  match s, t with
  | _ :: s, c :: t => if c =? 0 then Some (0 :: s) else cons c <$> strcpy s t
  | _, _ => None
  end.

Fixpoint strcmp (p q : list Z) : option Z :=
  match p, q with
  | a :: p, b :: q => if negb (a =? 0) && (a =? b) then strcmp p q else Some (u8 a - u8 b)
  | _, _ => None
  end.

Fixpoint ustrlen (s : list Z) : option Z :=
  match s with
  | [] => None
  | c :: s => if c =? 0 then Some 0 else Z.succ <$> ustrlen s
  end.

(** The index of the first [c] in the string. *)
Fixpoint strchr (s : list Z) (c : Z) : option (option nat) :=
  match s with
  | [] => None
  | a :: s => if a =? 0 then Some None else if a =? c then Some (Some 0%nat) else option_map (option_map S) (strchr s c)
  end.

Definition NEWLINE : Z := 10.
Definition CR : Z := 13.

(** The loop of [gets], with [k] characters of room: the characters stored and
    the input left.  [input] is what [read] gives, a character at a time; it
    returns 0 at the end. *)
Fixpoint gets_loop (k : nat) (input : list Z) : list Z * list Z :=
  match k, input with
  | O, _ => ([], input)
  | S _, [] => ([], [])
  | S k, c :: input =>
      if (c =? NEWLINE) || (c =? CR) then ([c], input)
      else let '(l, rest) := gets_loop k input in (c :: l, rest)
  end.
Definition ugets (buf : list Z) (max : Z) (input : list Z) : option (list Z * list Z) :=
  let '(l, rest) := gets_loop (Z.to_nat (max - 1)) input in
  if (length l <? length buf)%nat then Some (l ++ 0 :: drop (S (length l)) buf, rest) else None.

Fixpoint atoi_loop (n : Z) (s : list Z) : option Z :=
  match s with
  | [] => None
  | c :: s => if (48 <=? c) && (c <=? 57) then atoi_loop (s32 (n * 10 + c - 48)) s else Some n
  end.
Definition atoi (s : list Z) : option Z := atoi_loop 0 s.

(** ** printf.c *)

Definition PERCENT : Z := 37.
Definition MINUS : Z := 45.

(** The digit loop of both [printint]s: [buf] has the characters stored so far,
    the last first, in an array of 16.  A number of 32 bits has at most 32
    digits. *)
Fixpoint printint_loop (fuel : nat) (digits : list Z) (base x : Z) (buf : list Z) : option (list Z) :=
  match fuel with
  | O => None
  | S fuel =>
      d ← digits !! Z.to_nat (x mod base);
      if (16 <=? length buf)%nat then None else
      let buf := d :: buf in
      let x := x / base in
      if x =? 0 then Some buf else printint_loop fuel digits base x buf
  end.

(** The characters that [printint] prints, from the end of [buf]. *)
Definition printint_of (digits : list Z) (xx base : Z) (sgn : bool) : option (list Z) :=
  let neg := sgn && (xx <? 0) in
  let x := u32 (if neg then - xx else xx) in
  buf ← printint_loop 32 digits base x [];
  if neg then if (16 <=? length buf)%nat then None else Some (MINUS :: buf) else Some buf.

Definition digits : list Z := [48; 49; 50; 51; 52; 53; 54; 55; 56; 57; 65; 66; 67; 68; 69; 70].
Definition printint : Z → Z → bool → option (list Z) := printint_of digits.

Definition null_text : list Z := [40; 110; 117; 108; 108; 41].

(** The characters of the string up to its NUL. *)
Fixpoint chars (s : list Z) : option (list Z) :=
  match s with
  | [] => None
  | c :: s => if c =? 0 then Some [] else cons c <$> chars s
  end.

Section printf.
(** The array that an address points into. *)
Context (str : Z → list Z).

(** The string of the argument of [%s]. *)
Definition string_arg (a : Z) : option (list Z) := if a =? 0 then Some null_text else chars (str a).

(** [printf(fd, fmt, ...)]; [ap] are the words after [fmt], [percent] says that
    the state is ['%']. *)
Fixpoint printf_loop (percent : bool) (fmt ap : list Z) : option (list Z) :=
  match fmt with
  | [] => None
  | ch :: fmt =>
      if ch =? 0 then Some [] else
      let c := u8 ch in
      if negb percent then
        if c =? PERCENT then printf_loop true fmt ap else cons c <$> printf_loop false fmt ap
      else if c =? 100 then
        match ap with
        | a :: ap => out ← printint (s32 a) 10 true; app out <$> printf_loop false fmt ap
        | [] => None
        end
      else if (c =? 120) || (c =? 112) then
        match ap with
        | a :: ap => out ← printint (s32 a) 16 false; app out <$> printf_loop false fmt ap
        | [] => None
        end
      else if c =? 115 then
        match ap with
        | a :: ap => out ← string_arg a; app out <$> printf_loop false fmt ap
        | [] => None
        end
      else if c =? 99 then
        match ap with
        | a :: ap => cons (u8 a) <$> printf_loop false fmt ap
        | [] => None
        end
      else if c =? PERCENT then cons c <$> printf_loop false fmt ap
      else app [PERCENT; c] <$> printf_loop false fmt ap
  end.
Definition printf (fmt ap : list Z) : option (list Z) := printf_loop false fmt ap.
End printf.

Lemma ustrlen_app t junk : Forall (λ c, c ≠ 0) t → ustrlen (t ++ 0 :: junk) = Some (Z.of_nat (length t)).
Proof.
  induction 1 as [|c t Hc _ IH]; [done|]. cbn -[Z.eqb]. rewrite (proj2 (Z.eqb_neq _ _) Hc), IH. cbn. f_equal. lia.
Qed.

(** ** Numbers *)

(** The value of a string of digits. *)
Definition value (ds : list Z) : Z := fold_left (λ n c, n * 10 + (c - 48)) ds 0.
Definition is_digit (c : Z) : Prop := 48 ≤ c ≤ 57.

Lemma fold_value ds n : fold_left (λ n c, n * 10 + (c - 48)) ds n = n * 10 ^ Z.of_nat (length ds) + value ds.
Proof.
  unfold value. revert n. induction ds as [|c ds IH]; intros n; cbn [fold_left length]; [rewrite Z.pow_0_r; lia|].
  rewrite (IH (n * 10 + (c - 48))), (IH (0 * 10 + (c - 48))). rewrite Nat2Z.inj_succ, Z.pow_succ_r by lia. lia.
Qed.
Lemma value_cons c ds : value (c :: ds) = (c - 48) * 10 ^ Z.of_nat (length ds) + value ds.
Proof. unfold value at 1. cbn. rewrite fold_value. lia. Qed.

Lemma s32_eq_mod a b : a mod 2 ^ 32 = b mod 2 ^ 32 → s32 a = s32 b.
Proof. intros H. unfold s32. f_equal. by rewrite <- Zplus_mod_idemp_l, H, Zplus_mod_idemp_l. Qed.
Lemma s32_step n c : s32 (s32 n * 10 + c - 48) = s32 (n * 10 + (c - 48)).
Proof.
  apply s32_eq_mod. unfold s32. replace (((n + 2 ^ 31) mod 2 ^ 32 - 2 ^ 31) * 10 + c - 48) with (((n + 2 ^ 31) mod 2 ^ 32) * 10 + (c - 48 - 2 ^ 31 * 10)) by lia.
  rewrite <- Zplus_mod_idemp_l, Zmult_mod_idemp_l, Zplus_mod_idemp_l. f_equal. lia.
Qed.

(** [atoi] on digits, modulo the width of [int]. *)
Lemma atoi_loop_digits ds c t n : Forall is_digit ds → ¬ is_digit c →
  atoi_loop (s32 n) (ds ++ c :: t) = Some (s32 (fold_left (λ n c, n * 10 + (c - 48)) ds n)).
Proof.
  intros Hds Hc. revert n. induction Hds as [|d ds Hd _ IH]; intros n; cbn.
  - unfold is_digit in Hc. destruct (Z.leb_spec 48 c), (Z.leb_spec c 57); cbn; try done; lia.
  - unfold is_digit in Hd. rewrite (proj2 (Z.leb_le 48 d)), (proj2 (Z.leb_le d 57)) by lia. cbn. by rewrite s32_step, IH.
Qed.
Lemma atoi_digits ds c t : Forall is_digit ds → ¬ is_digit c → atoi (ds ++ c :: t) = Some (s32 (value ds)).
Proof. intros Hds Hc. unfold atoi. change 0 with (s32 0) at 1. by apply atoi_loop_digits. Qed.

(** The digits of [x] in base [b], the highest first. *)
Definition numeral (b x : Z) (l : list Z) : Prop :=
  Forall (λ d, 0 ≤ d < b) l ∧ fold_left (λ n d, n * b + d) l 0 = x ∧ l ≠ [] ∧ (head l = Some 0 → l = [0]).

Lemma numeral_snoc b q r l : 1 < b → 0 < q → 0 ≤ r < b → numeral b q l → numeral b (b * q + r) (l ++ [r]).
Proof.
  intros Hb Hq Hr (Hf & Hv & Hne & Hz). split; [apply Forall_app; split; [done|by apply Forall_singleton]|]. split; [rewrite fold_left_app; cbn; lia|].
  split; [by destruct l|]. destruct l as [|d l]; [done|]. cbn. intros [= ->]. specialize (Hz eq_refl). injection Hz as ->. cbn in Hv. lia.
Qed.

Lemma printint_loop_spec fuel k digits base x buf :
  1 < base ≤ Z.of_nat (length digits) → 0 ≤ x < base ^ Z.of_nat k → (k ≤ fuel)%nat → (0 < k)%nat → (length buf + k ≤ 16)%nat →
  ∃ l ds, printint_loop fuel digits base x buf = Some (ds ++ buf) ∧ numeral base x l ∧ (length l ≤ k)%nat ∧
    Forall2 (λ d c, digits !! Z.to_nat d = Some c) l ds.
Proof.
  intros Hb. revert fuel x buf. induction k as [|k IH]; intros fuel x buf Hx Hk H0 Hbuf; [lia|]. destruct fuel as [|fuel]; [lia|].
  cbn [printint_loop]. pose proof (Z.mod_pos_bound x base ltac:(lia)) as Hm. pose proof (Z.div_mod x base ltac:(lia)) as Hdm.
  destruct (lookup_lt_is_Some_2 digits (Z.to_nat (x mod base))) as [c Hc]; [lia|]. rewrite Hc. cbn [mbind option_bind].
  rewrite (proj2 (Nat.leb_gt 16 (length buf))) by lia. destruct (Z.eqb_spec (x / base) 0) as [E|E].
  - exists [x mod base], [c]. split; [done|]. split; [|split; [cbn; lia|by repeat constructor]].
    split; [by apply Forall_singleton|]. split; [cbn; lia|]. split; [done|]. by intros [= ->].
  - rewrite Nat2Z.inj_succ, Z.pow_succ_r in Hx by lia. assert (Hq : 0 < x / base < base ^ Z.of_nat k).
    { pose proof (Z.div_pos x base). split; [lia|]. apply Z.div_lt_upper_bound; lia. }
    destruct k as [|k]; [cbn in Hq; lia|].
    destruct (IH fuel (x / base) (c :: buf)) as (l & ds & Hr & Hn & Hl & Hf); [lia|lia|lia|cbn; lia|].
    exists (l ++ [x mod base]), (ds ++ [c]). rewrite Hr, <- (assoc_L (++)). split; [done|]. split.
    + rewrite Hdm at 1. apply numeral_snoc; [lia|lia|done|done].
    + split; [rewrite length_app; cbn; lia|]. apply Forall2_app; [done|]. by repeat constructor.
Qed.

Lemma numeral_value l ds : Forall2 (λ d c, digits !! Z.to_nat d = Some c) l ds → Forall (λ d, 0 ≤ d < 10) l →
  Forall is_digit ds ∧ ∀ n, fold_left (λ n c, n * 10 + (c - 48)) ds n = fold_left (λ n d, n * 10 + d) l n.
Proof.
  induction 1 as [|d c l ds Hd _ IH]; intros Hl; [by split|]. apply Forall_cons in Hl as [Hd' Hl]. destruct (IH Hl) as [IH1 IH2].
  assert (c = 48 + d).
  { assert (d = 0 ∨ d = 1 ∨ d = 2 ∨ d = 3 ∨ d = 4 ∨ d = 5 ∨ d = 6 ∨ d = 7 ∨ d = 8 ∨ d = 9) as Hc by lia.
    repeat destruct Hc as [->|Hc]; [..|subst d]; by injection Hd as <-. }
  subst c. split; [constructor; [unfold is_digit; lia|done]|]. intros n. cbn. rewrite IH2. f_equal. lia.
Qed.

(** What [printint] prints in base 10: the digits of the number's magnitude,
    without leading zeros, after a sign. *)
Lemma printint_decimal xx : - 2 ^ 31 ≤ xx < 2 ^ 31 →
  ∃ ds, printint xx 10 true = Some (if xx <? 0 then MINUS :: ds else ds) ∧ Forall is_digit ds ∧ value ds = Z.abs xx ∧
    (length ds ≤ 10)%nat ∧ ds ≠ [] ∧ (head ds = Some 48 → ds = [48]).
Proof.
  intros Hx. unfold printint, printint_of. cbn [andb]. set (x := u32 _). assert (E : x = Z.abs xx).
  { unfold x. destruct (Z.ltb_spec xx 0); rewrite u32_small by lia; lia. }
  destruct (printint_loop_spec 32 10 digits 10 x []) as (l & ds & Hr & (Hf & Hv & Hne & Hz) & Hl & H2); [cbn; lia|cbn; lia|lia|lia|cbn; lia|].
  rewrite Hr, app_nil_r. cbn [mbind option_bind]. destruct (numeral_value l ds H2 Hf) as [Hd Hval]. pose proof (Forall2_length _ _ _ H2) as Hlen.
  exists ds. rewrite (proj2 (Nat.leb_gt 16 (length ds))) by lia. split; [by destruct (xx <? 0)|]. split; [done|].
  split; [unfold value; rewrite Hval; congruence|]. split; [lia|]. split; [intros ->; by destruct l|].
  intros Hh. destruct H2 as [|d c l ds Hdc H2]; [done|]. injection Hh as ->. apply Forall_cons in Hf as [Hd0 _].
  assert (d = 0) as ->. { destruct (Z.to_nat d) as [|n] eqn:En; [lia|]. do 15 (destruct n as [|n]; [done|]). done. }
  specialize (Hz eq_refl). injection Hz as ->. by inversion H2.
Qed.

(** What [printf] writes for [%d], [atoi] reads back: for every [int] the
    text is a minus sign if it is negative, then at most ten digits without
    leading zeros, whose value is the magnitude, and [atoi] of the text of a
    number that is not negative is the number.  The buffer of 16 characters
    does not overflow. *)
Theorem printf_atoi str x : - 2 ^ 31 ≤ x < 2 ^ 31 →
  ∃ ds, printf str [PERCENT; 100; 0] [u32 x] = Some (if x <? 0 then MINUS :: ds else ds) ∧
    Forall is_digit ds ∧ value ds = Z.abs x ∧ (length ds ≤ 10)%nat ∧ (head ds = Some 48 → ds = [48]) ∧
    ∀ junk, (0 ≤ x → atoi (ds ++ 0 :: junk) = Some x) ∧ (x < 0 → atoi (ds ++ 0 :: junk) = Some (s32 (- x))).
Proof.
  intros Hx. destruct (printint_decimal x Hx) as (ds & Hp & Hd & Hv & Hl & _ & Hz). exists ds. unfold printf. cbn -[s32 u32 printint].
  rewrite s32_u32, s32_small, Hp by lia. cbn. rewrite app_nil_r. split; [done|]. do 4 (split; [done|]).
  intros junk. rewrite (atoi_digits ds 0 junk Hd), Hv by (unfold is_digit; lia). split; intros; f_equal; [rewrite s32_small; lia|f_equal; lia].
Qed.

Lemma printf_atoi_witness : ∃ ds, printf (λ _, []) [PERCENT; 100; 0] [u32 (-2147483648)] = Some (MINUS :: ds) ∧
  value ds = 2147483648 ∧ (length ds ≤ 10)%nat.
Proof. destruct (printf_atoi (λ _, []) (-2147483648)) as (ds & Hp & _ & Hv & Hl & _); [lia|]. by exists ds. Defined.
