(* ===== verification/Grep.v ===== *)
(** * Grep: the pattern matcher and the line filter of grep.c

    A [char*] is the list of characters from where it points to the end of its
    array, as in CString.v, and [None] an access past the end.  The patterns
    are given their meaning as sets of strings, and the matcher is shown to
    decide it.  [grep] reads its input in the pieces that [read] returns. *)

From Stdlib Require Import ZArith Lia.
From stdpp Require Import base numbers strings sets list.
From S2P Require Import Prelude CString Ulib.
Open Scope Z_scope.

Definition DOLLAR : Z := 36.
Definition STAR : Z := 42.
Definition ANY : Z := 46.
Definition CARET : Z := 94.

(** ** The matcher *)

(** [matchstar(c, re, text)], with [here] for [matchhere(re, .)]. *)
Fixpoint matchstar (here : list Z → option bool) (c : Z) (text : list Z) : option bool :=
  r ← here text;
  if r : bool then Some true else
  match text with
  | [] => None
  | t :: text => if negb (t =? 0) && ((t =? c) || (c =? ANY)) then matchstar here c text else Some false
  end.

Fixpoint matchhere (re text : list Z) {struct re} : option bool :=
  match re with
  | [] => None
  | r0 :: re1 =>
      if r0 =? 0 then Some true else
      match re1 with
      | [] => None
      | r1 :: re2 =>
          if r1 =? STAR then matchstar (matchhere re2) r0 text else
          match text with
          | [] => None
          | t :: text =>
              if (r0 =? DOLLAR) && (r1 =? 0) then Some (t =? 0) else
              if negb (t =? 0) && ((r0 =? ANY) || (r0 =? t)) then matchhere re1 text
              else Some false
          end
      end
  end.

(** The loop of [match]. *)
Fixpoint match_loop (re text : list Z) {struct text} : option bool :=
  r ← matchhere re text;
  if r : bool then Some true else
  match text with
  | [] => None
  | t :: text => if t =? 0 then Some false else match_loop re text
  end.

Definition match_ (re text : list Z) : option bool :=
  match re with
  | [] => None
  | r0 :: re1 => if r0 =? CARET then matchhere re1 text else match_loop re text
  end.

(** ** The filter *)

(** The inner loop: the lines written, and what [p] points to after it.  Each
    round takes at least the newline, so the length is fuel enough. *)
Fixpoint grep_lines (fuel : nat) (pattern p : list Z) : option (list (list Z) * list Z) :=
  match fuel with
  | O => None
  | S fuel =>
      q ← strchr p NEWLINE;
      match q with
      | None => Some ([], p)
      | Some i =>
          let line := take i p in
          m ← match_ pattern (line ++ [0] ++ drop (S i) p);
          '(out, rest) ← grep_lines fuel pattern (drop (S i) p);
          Some (if m : bool then (line ++ [NEWLINE]) :: out else out, rest)
      end
  end.

(** The outer loop: [buf] holds the [m] bytes kept so far, [reads] are the
    results of [read], until one is empty. *)
Fixpoint grep (pattern buf : list Z) (reads : list (list Z)) : option (list (list Z)) :=
  match reads with
  | [] | [] :: _ => Some []
  | bytes :: reads =>
      let data := buf ++ bytes in
      '(out, p) ← grep_lines (S (length data)) pattern (data ++ [0]);
      let keep := if decide (length p = S (length data)) then [] else take (length p - 1) p in
      rest ← grep pattern keep reads;
      Some (out ++ rest)
  end.

(** ** What a pattern means *)

Inductive item : Type :=
| One (c : Z)
| Many (c : Z).

(** The items of a pattern, and whether it ends in [$]. *)
Fixpoint items (re : list Z) : list item * bool :=
  match re with
  | [] => ([], false)
  | c :: re1 =>
      match re1 with
      | [] => if c =? DOLLAR then ([], true) else ([One c], false)
      | s :: re2 => if s =? STAR then (Many c :: (items re2).1, (items re2).2)
                    else (One c :: (items re1).1, (items re1).2)
      end
  end.

Definition accepts (c x : Z) : Prop := c = ANY ∨ c = x.

(** The strings that a list of items describes. *)
Fixpoint describes (l : list item) (w : list Z) : Prop :=
  match l with
  | [] => w = []
  | One c :: l => ∃ x v, w = x :: v ∧ accepts c x ∧ describes l v
  | Many c :: l => ∃ u v, w = u ++ v ∧ Forall (accepts c) u ∧ describes l v
  end.

(** The pattern matches at the start of the text. *)
Definition matches_at (re text : list Z) : Prop :=
  ∃ w rest, text = w ++ rest ∧ describes (items re).1 w ∧ ((items re).2 = true → rest = []).

Definition matches (re text : list Z) : Prop :=
  match re with
  | c :: re' => if c =? CARET then matches_at re' text else ∃ pre post, text = pre ++ post ∧ matches_at re post
  | [] => True
  end.

(** ** The matcher decides the meaning *)

Lemma matches_at_nil text : matches_at [] text.
Proof. exists [], text. done. Qed.
Lemma matches_at_end text : matches_at [DOLLAR] text ↔ text = [].
Proof.
  split; [|intros ->; by exists [], []]. intros (w & rest & -> & Hw & Hr). cbn in Hw, Hr. subst w. by apply Hr.
Qed.
Lemma matches_at_star c re text :
  matches_at (c :: STAR :: re) text ↔ ∃ u v, text = u ++ v ∧ Forall (accepts c) u ∧ matches_at re v.
Proof.
  unfold matches_at. cbn. split.
  - intros (w & rest & -> & (u & v & -> & Hu & Hv) & Hr). exists u, (v ++ rest). rewrite (assoc_L (++)). split; [done|].
    split; [done|]. by exists v, rest.
  - intros (u & v & -> & Hu & w & rest & -> & Hw & Hr). exists (u ++ w), rest. rewrite (assoc_L (++)). split; [done|].
    split; [|done]. by exists u, w.
Qed.
Lemma matches_at_one c re text :
  head re ≠ Some STAR → c ≠ DOLLAR ∨ re ≠ [] →
  matches_at (c :: re) text ↔ ∃ x t, text = x :: t ∧ accepts c x ∧ matches_at re t.
Proof.
  intros Hs Hd. assert (E : items (c :: re) = (One c :: (items re).1, (items re).2)).
  { destruct re as [|s re]; cbn in *.
    - destruct (Z.eqb_spec c DOLLAR); [|done]. by destruct Hd.
    - destruct (Z.eqb_spec s STAR); [congruence|done]. }
  unfold matches_at. rewrite E. cbn. split.
  - intros (w & rest & -> & (x & v & -> & Hx & Hv) & Hr). exists x, (v ++ rest). split; [done|]. split; [done|]. by exists v, rest.
  - intros (x & t & -> & Hx & w & rest & -> & Hw & Hr). exists (x :: w), rest. split; [done|]. split; [|done]. by exists x, w.
Qed.

(** [f] decides [P] on strings without a NUL, whatever follows the NUL. *)
Definition decides (f : list Z → option bool) (P : list Z → Prop) : Prop :=
  ∀ text junk, 0 ∉ text → ∃ b, f (text ++ 0 :: junk) = Some b ∧ (b = true ↔ P text).

Lemma matchstar_decides here P c :
  decides here P → decides (matchstar here c) (λ text, ∃ u v, text = u ++ v ∧ Forall (accepts c) u ∧ P v).
Proof.
  intros Hh text junk. induction text as [|t text IH]; intros Hn.
  - destruct (Hh [] junk Hn) as (b & Hb & HP). cbn in Hb |- *. rewrite Hb. cbn. exists b. split; [by destruct b|].
    rewrite HP. split; [intros ?; exists [], []; done|]. intros (u & v & E & _ & ?). symmetry in E. by apply app_nil in E as [-> ->].
  - apply not_elem_of_cons in Hn as [Ht Hn]. destruct (Hh (t :: text) junk) as (b & Hb & HP); [by apply not_elem_of_cons|].
    cbn in Hb |- *. rewrite Hb. cbn. destruct b.
    { exists true. split; [done|]. split; [|done]. intros _. exists [], (t :: text). split; [done|]. split; [done|]. by apply HP. }
    assert (HnP : ¬ P (t :: text)) by (intros ?%HP; done).
    rewrite (proj2 (Z.eqb_neq t 0)) by done. cbn [negb andb].
    assert (Hacc : (t =? c) || (c =? ANY) = true ↔ accepts c t).
    { unfold accepts. rewrite orb_true_iff, !Z.eqb_eq. split; intros [->| ->]; auto. }
    destruct ((t =? c) || (c =? ANY)).
    + destruct (IH Hn) as (b & Hb' & Hiff). exists b. split; [done|]. rewrite Hiff. split.
      * intros (u & v & -> & Hu & Hv). exists (t :: u), v. split; [done|]. split; [|done]. constructor; [by apply Hacc|done].
      * intros (u & v & E & Hu & Hv). destruct u as [|x u]; [cbn in E; by subst v|]. injection E as -> ->.
        apply Forall_cons in Hu as [_ Hu]. by exists u, v.
    + exists false. split; [done|]. split; [done|]. intros (u & v & E & Hu & Hv).
      destruct u as [|x u]; [cbn in E; by subst v|]. injection E as -> ->. apply Forall_cons in Hu as [?%Hacc _]. done.
Qed.

Lemma matchhere_decides re : 0 ∉ re → decides (matchhere (re ++ [0])) (matches_at re).
Proof.
  remember (length re) as n eqn:En. revert re En. induction n as [n IH] using lt_wf_ind. intros re -> Hn text junk Ht.
  destruct re as [|r0 re]; [exists true; split; [done|]; split; [intros _; apply matches_at_nil|done]|].
  apply not_elem_of_cons in Hn as [H0 Hn]. cbn [app]. cbn [matchhere]. rewrite (proj2 (Z.eqb_neq r0 0)) by done.
  assert (Hone : head re ≠ Some STAR → r0 ≠ DOLLAR ∨ re ≠ [] → ∃ b,
    match text ++ 0 :: junk with
    | [] => None
    | t :: text => if negb (t =? 0) && ((r0 =? ANY) || (r0 =? t)) then matchhere (re ++ [0]) text else Some false
    end = Some b ∧ (b = true ↔ matches_at (r0 :: re) text)).
  { intros Hs Hd. destruct text as [|t text]; cbn [app].
    - exists false. split; [done|]. rewrite matches_at_one by done. split; [done|]. by intros (x & t & ? & _).
    - apply not_elem_of_cons in Ht as [Ht0 Ht]. rewrite (proj2 (Z.eqb_neq t 0)) by done. cbn [negb andb].
      assert (Hacc : (r0 =? ANY) || (r0 =? t) = true ↔ accepts r0 t) by (unfold accepts; by rewrite orb_true_iff, !Z.eqb_eq).
      destruct ((r0 =? ANY) || (r0 =? t)).
      + destruct (IH (length re) ltac:(cbn; lia) re eq_refl Hn text junk Ht) as (b & -> & Hb). exists b. split; [done|].
        rewrite matches_at_one, Hb by done. split; [intros; exists t, text; split; [done|]; split; [by apply Hacc|done]|].
        intros (x & v & [= -> ->] & _ & ?). done.
      + exists false. split; [done|]. rewrite matches_at_one by done. split; [done|].
        intros (x & v & [= -> ->] & ?%Hacc & _). done. }
  destruct re as [|r1 re]; cbn [app].
  - change (0 =? STAR) with false. cbv iota. destruct (Z.eqb_spec r0 DOLLAR) as [->|Hd]; cbn [Z.eqb andb].
    + setoid_rewrite matches_at_end. destruct text as [|t text]; cbn [app]; [by exists true|].
      apply not_elem_of_cons in Ht as [Ht0 _]. exists false. rewrite (proj2 (Z.eqb_neq t 0)) by done. done.
    + apply Hone; [done|by left].
  - apply not_elem_of_cons in Hn as [H1 Hn]. destruct (Z.eqb_spec r1 STAR) as [->|Hs].
    + destruct (matchstar_decides (matchhere (re ++ [0])) (matches_at re) r0) with (text := text) (junk := junk) as (b & Hb & HP);
        [by apply (IH (length re)); [cbn; lia|..]|done|]. exists b. split; [exact Hb|]. by rewrite matches_at_star.
    + rewrite (proj2 (Z.eqb_neq r1 0)), andb_false_r by done. apply Hone; [cbn; congruence|by right].
Qed.

Lemma match_loop_decides re P :
  decides (matchhere re) P → decides (match_loop re) (λ text, ∃ pre post, text = pre ++ post ∧ P post).
Proof.
  intros Hh text junk. induction text as [|t text IH]; intros Hn.
  - destruct (Hh [] junk Hn) as (b & Hb & HP). cbn in Hb |- *. rewrite Hb. cbn. exists b. split; [by destruct b|].
    rewrite HP. split; [intros ?; exists [], []; done|]. intros (u & v & E & ?). symmetry in E. by apply app_nil in E as [-> ->].
  - apply not_elem_of_cons in Hn as [Ht Hn]. destruct (Hh (t :: text) junk) as (b & Hb & HP); [by apply not_elem_of_cons|].
    cbn in Hb |- *. rewrite Hb. cbn. destruct b.
    { exists true. split; [done|]. split; [|done]. intros _. exists [], (t :: text). split; [done|]. by apply HP. }
    assert (HnP : ¬ P (t :: text)) by (intros ?%HP; done).
    rewrite (proj2 (Z.eqb_neq t 0)) by done. destruct (IH Hn) as (b & Hb' & Hiff). exists b. split; [done|]. rewrite Hiff. split.
    + intros (u & v & -> & Hv). by exists (t :: u), v.
    + intros (u & v & E & Hv). destruct u as [|x u]; [cbn in E; by subst v|]. injection E as -> ->. by exists u, v.
Qed.

Lemma match_decides re : 0 ∉ re → decides (match_ (re ++ [0])) (matches re).
Proof.
  intros Hn. destruct re as [|c re]; cbn [app match_ matches].
  - intros text junk Ht. exists true. split; [|done]. change (0 =? CARET) with false. by destruct text.
  - pose proof Hn as [Hc Hn']%not_elem_of_cons. unfold decides, match_, matches.
    destruct (c =? CARET); [by apply matchhere_decides|]. apply match_loop_decides. by apply (matchhere_decides (c :: re)).
Qed.

(** ** The filter prints the matching lines *)

(** The lines of the input that are complete, and what follows them. *)
Fixpoint lines (s : list Z) : list (list Z) * list Z :=
  match s with
  | [] => ([], [])
  | c :: s =>
      if c =? NEWLINE then ([] :: (lines s).1, (lines s).2) else
      match lines s with
      | ([], r) => ([], c :: r)
      | (l :: ls, r) => ((c :: l) :: ls, r)
      end
  end.

Lemma lines_none s : NEWLINE ∉ s → lines s = ([], s).
Proof.
  induction s as [|c s IH]; [done|]. intros [Hc Hs]%not_elem_of_cons. cbn. rewrite (proj2 (Z.eqb_neq c NEWLINE)) by done.
  by rewrite IH.
Qed.
Lemma lines_cons l s : NEWLINE ∉ l → lines (l ++ NEWLINE :: s) = (l :: (lines s).1, (lines s).2).
Proof.
  induction l as [|c l IH]; [done|]. intros [Hc Hs]%not_elem_of_cons. cbn. rewrite (proj2 (Z.eqb_neq c NEWLINE)) by done.
  by rewrite IH.
Qed.
(** The first line, if there is one. *)
Lemma first_line s : NEWLINE ∉ s ∨ ∃ l r, s = l ++ NEWLINE :: r ∧ NEWLINE ∉ l.
Proof.
  induction s as [|c s IH]; [left; by intros ?%elem_of_nil|]. destruct (decide (c = NEWLINE)) as [->|Hc].
  { right. exists [], s. split; [done|]. by intros ?%elem_of_nil. }
  destruct IH as [IH|(l & r & -> & Hl)].
  - left. by apply not_elem_of_cons.
  - right. exists (c :: l), r. split; [done|]. by apply not_elem_of_cons.
Qed.

Lemma lines_app s s' : lines (s ++ s') = ((lines s).1 ++ (lines ((lines s).2 ++ s')).1, (lines ((lines s).2 ++ s')).2).
Proof.
  remember (length s) as n eqn:En. revert s En. induction n as [n IH] using lt_wf_ind. intros s ->.
  destruct (first_line s) as [Hs|(l & r & -> & Hl)].
  - rewrite (lines_none s Hs). cbn. by destruct (lines (s ++ s')).
  - rewrite <- (assoc_L (++)). cbn [app]. rewrite !lines_cons by done. cbn [fst snd].
    rewrite (IH (length r)) by (done || rewrite length_app; cbn; lia). done.
Qed.

Lemma strchr_line l s : NEWLINE ∉ l → 0 ∉ l → strchr (l ++ NEWLINE :: s) NEWLINE = Some (Some (length l)).
Proof.
  induction l as [|c l IH]; [done|]. intros [Hc Hs]%not_elem_of_cons [H0 Hz]%not_elem_of_cons. cbn.
  rewrite (proj2 (Z.eqb_neq c 0)), (proj2 (Z.eqb_neq c NEWLINE)), IH by done. done.
Qed.
Lemma strchr_none l s : NEWLINE ∉ l → 0 ∉ l → strchr (l ++ 0 :: s) NEWLINE = Some None.
Proof.
  induction l as [|c l IH]; [done|]. intros [Hc Hs]%not_elem_of_cons [H0 Hz]%not_elem_of_cons. cbn.
  rewrite (proj2 (Z.eqb_neq c 0)), (proj2 (Z.eqb_neq c NEWLINE)), IH by done. done.
Qed.

(** What [grep] prints of the lines [ls]. *)
Definition selects (re l : list Z) : bool := default false (match_ (re ++ [0]) (l ++ [0])).
Definition printed (re : list Z) (ls : list (list Z)) : list (list Z) :=
  (λ l, l ++ [NEWLINE]) <$> filter (λ l, selects re l = true) ls.

Lemma selects_match re l junk : 0 ∉ re → 0 ∉ l → match_ (re ++ [0]) (l ++ 0 :: junk) = Some (selects re l).
Proof.
  intros Hr Hl. unfold selects. destruct (match_decides re Hr l junk Hl) as (b & -> & Hb).
  destruct (match_decides re Hr l [] Hl) as (b' & -> & Hb'). cbn. f_equal. destruct b, b'; naive_solver.
Qed.

Lemma grep_lines_run fuel re data :
  0 ∉ re → 0 ∉ data → (length data < fuel)%nat →
  grep_lines fuel (re ++ [0]) (data ++ [0]) = Some (printed re (lines data).1, (lines data).2 ++ [0]).
Proof.
  revert data. induction fuel as [|fuel IH]; intros data Hr Hd Hf; [lia|]. cbn [grep_lines].
  destruct (first_line data) as [Hs|(l & r & -> & Hl)].
  - rewrite (strchr_none data []) by done. cbn. by rewrite (lines_none data Hs).
  - assert (H0 : 0 ∉ l ∧ 0 ∉ r) by set_solver. destruct H0 as [H0 H1]. rewrite <- (assoc_L (++)). cbn [app].
    rewrite strchr_line by done. cbn [mbind option_bind]. rewrite take_app_length.
    replace (drop (S (length l)) (l ++ NEWLINE :: r ++ [0])) with (r ++ [0]).
    2:{ rewrite <- Nat.add_1_r, drop_app_add. done. }
    cbn [app]. rewrite selects_match by done. cbn [mbind option_bind]. rewrite length_app in Hf. cbn in Hf.
    rewrite IH by (done || lia). cbn [mbind option_bind]. rewrite lines_cons by done. cbn [fst snd]. unfold printed.
    rewrite filter_cons. destruct (selects re l); [by rewrite decide_True|by rewrite decide_False].
Qed.

Lemma lines_rest s : NEWLINE ∉ (lines s).2 ∧ (lines s).2 ⊆ s ∧ (NEWLINE ∈ s → (length (lines s).2 < length s)%nat).
Proof.
  remember (length s) as n eqn:En. revert s En. induction n as [n IH] using lt_wf_ind. intros s ->.
  destruct (first_line s) as [Hs|(l & r & -> & Hl)]; [by rewrite (lines_none s Hs)|].
  destruct (IH (length r) ltac:(rewrite length_app; cbn; lia) r eq_refl) as (H1 & H2 & H3).
  rewrite lines_cons, length_app by done. cbn. split; [done|]. split; [set_solver|]. intros _.
  destruct (first_line r) as [Hr|(l' & r' & Er & _)]; [rewrite (lines_none r Hr); cbn; lia|].
  pose proof (H3 ltac:(rewrite Er; set_solver)). lia.
Qed.

Lemma grep_run re buf reads :
  0 ∉ re → 0 ∉ buf → NEWLINE ∉ buf → Forall (λ bytes, 0 ∉ bytes ∧ NEWLINE ∈ bytes) reads →
  grep (re ++ [0]) buf reads = Some (printed re (lines (buf ++ concat reads)).1).
Proof.
  intros Hr. revert buf. induction reads as [|bytes reads IH]; intros buf Hb Hbn Hreads.
  { cbn. by rewrite app_nil_r, lines_none. }
  apply Forall_cons in Hreads as [[H0 Hnl] Hreads]. cbn [grep]. destruct bytes as [|b bytes]; [by apply elem_of_nil in Hnl|].
  set (data := buf ++ b :: bytes). assert (Hd : 0 ∉ data ∧ NEWLINE ∈ data) by (unfold data; set_solver). destruct Hd as [Hd Hdn].
  rewrite grep_lines_run by (done || lia). cbn [mbind option_bind]. destruct (lines_rest data) as (L1 & L2 & L3). specialize (L3 Hdn).
  rewrite length_app. cbn [length]. rewrite decide_False by lia.
  replace (length (lines data).2 + 1 - 1)%nat with (length (lines data).2) by lia. rewrite take_app_length.
  rewrite IH by set_solver. cbn [mbind option_bind concat]. rewrite (assoc_L (++)). fold data.
  rewrite (lines_app data (concat reads)). cbn [fst]. unfold printed. by rewrite filter_app, fmap_app.
Qed.

(** C29: the matcher of [grep] decides the meaning of patterns: with [^], [$],
    [.] and [*] read as usual, [match] returns whether a part of the text, or
    for [^] its beginning, is described by the pattern.  It always returns and
    reads no character beyond the NULs. *)
Theorem grep_match re text junk :
  0 ∉ re → 0 ∉ text → ∃ b, match_ (re ++ [0]) (text ++ 0 :: junk) = Some b ∧ (b = true ↔ matches re text).
Proof. intros Hr Ht. by apply match_decides. Qed.

Lemma grep_match_witness : ∃ b, match_ ([94; 97; 42; 98] ++ [0]) ([97; 97; 98; 99] ++ 0 :: []) = Some b ∧
  (b = true ↔ matches [94; 97; 42; 98] [97; 97; 98; 99]).
Proof. apply (grep_match [94; 97; 42; 98] [97; 97; 98; 99] []); set_solver. Defined.

(** When every piece that [read] returns has a newline, [grep] prints
    exactly the complete lines of the input that match, in order, however the
    input is cut into pieces.  When a piece has no newline, [grep] forgets the
    part of a line it has: of the line [abc], read as [a] and [bc], it prints
    nothing for the pattern [a]. *)
Theorem grep_prints_matching_lines :
  (∀ re reads, 0 ∉ re → Forall (λ bytes, 0 ∉ bytes ∧ NEWLINE ∈ bytes) reads →
     grep (re ++ [0]) [] reads = Some (printed re (lines (concat reads)).1) ∧
     ∀ l, l ∈ (lines (concat reads)).1 → 0 ∉ l → (selects re l = true ↔ matches re l)) ∧
  (grep [97; 0] [] [[97; 98; 99; 10]] = Some [[97; 98; 99; 10]] ∧ grep [97; 0] [] [[97]; [98; 99; 10]] = Some []).
Proof.
  split; [|vm_compute; done]. intros re reads Hr Hreads. split.
  - apply grep_run; [done|set_solver|set_solver|done].
  - intros l _ Hl. unfold selects. destruct (match_decides re Hr l [] Hl) as (b & -> & Hb). done.
Qed.
