(* ===== verification/Umalloc.v ===== *)
(** * Umalloc: the user-level memory allocator (umalloc.c)

    The memory is a table of headers by address.  [base] is the address of the
    static header; [sbrk] is the system call, whose success also depends on the
    kernel's free pages.  The free list is circular, through [ptr], in the order
    of addresses; the invariant [heap_ok] names its blocks and the blocks that
    are in use. *)

From Stdlib Require Import ZArith Lia.
From stdpp Require Import base numbers strings gmap list relations.
From S2P Require Import Prelude Memlayout.
Open Scope Z_scope.

(** [union header]: 8 bytes. *)
Record header : Type := Header {
  h_ptr : Z;
  h_size : Z; (** in headers *)
}.
Definition HDR : Z := 8.

Record heap : Type := Heap {
  hp_mem : gmap Z header;
  hp_freep : Z;
  hp_brk : Z;
}.
Definition set_hp_mem (v : gmap Z header) (h : heap) : heap := Heap v (hp_freep h) (hp_brk h).
Definition set_hp_freep (v : Z) (h : heap) : heap := Heap (hp_mem h) v (hp_brk h).
Definition set_hp_brk (v : Z) (h : heap) : heap := Heap (hp_mem h) (hp_freep h) v.

Definition gethdr (p : Z) : K heap header := λ h, deref (hp_mem h !! p) h.
Definition puthdr (p : Z) (x : header) : K heap unit := modify (λ h, set_hp_mem (<[p:=x]> (hp_mem h)) h).
Definition set_ptr (p v : Z) : K heap unit :=
  x ← gethdr p;
  puthdr p (Header v (h_size x)).
Definition set_size (p v : Z) : K heap unit :=
  x ← gethdr p;
  puthdr p (Header (h_ptr x) v).
(** [p->s.size = v] in memory that was no header so far. *)
Definition new_size (p v : Z) : K heap unit :=
  x ← gets (λ h, hp_mem h !! p);
  puthdr p (Header (from_option h_ptr 0 x) v).

Section umalloc.
(** The address of [base], and whether the kernel finds the pages for [n] bytes
    more at a break. *)
Context (base : Z) (grows : Z → Z → bool).

(** The loop of [free]: the block before [bp].  One round of the list is
    enough. *)
Fixpoint free_place (fuel : nat) (bp p : Z) : K heap Z :=
  x ← gethdr p;
  if (p <? bp) && (bp <? h_ptr x) then mret p else
  if (h_ptr x <=? p) && ((p <? bp) || (bp <? h_ptr x)) then mret p else
  match fuel with
  | O => nofuel
  | S fuel => free_place fuel bp (h_ptr x)
  end.

Definition free (ap : Z) : K heap unit :=
  let bp := ap - HDR in
  f ← gets hp_freep;
  m ← gets (λ h, size (hp_mem h));
  p ← free_place m bp f;
  b ← gethdr bp;
  x ← gethdr p;
  (if bp + HDR * h_size b =? h_ptr x then
     n ← gethdr (h_ptr x);
     set_size bp (u32 (h_size b + h_size n));;
     set_ptr bp (h_ptr n)
   else set_ptr bp (h_ptr x));;
  x ← gethdr p;
  (if p + HDR * h_size x =? bp then
     b ← gethdr bp;
     set_size p (u32 (h_size x + h_size b));;
     set_ptr p (h_ptr b)
   else set_ptr p bp);;
  modify (set_hp_freep p).

(** The system call: the old break, or -1. *)
Definition sbrk (n : Z) : K heap Z :=
  b ← gets hp_brk;
  let b' := u32 (b + n) in
  if 0 <? n then
    if (b' <? KERNBASE) && grows b n then modify (set_hp_brk b');; mret b else mret (-1)
  else if n <? 0 then
    let b' := if b <=? b' then b else b' in
    if b' =? 0 then mret (-1) else modify (set_hp_brk b');; mret b
  else mret b.

Definition morecore (nu : Z) : K heap Z :=
  let nu := if nu <? 4096 then 4096 else nu in
  p ← sbrk (s32 (nu * HDR));
  if p =? -1 then mret 0 else
  new_size p nu;;
  free (p + HDR);;
  gets hp_freep.

(** The loop of [malloc]. *)
Fixpoint malloc_loop (fuel : nat) (nunits prevp p : Z) : K heap Z :=
  match fuel with
  | O => nofuel
  | S fuel =>
      x ← gethdr p;
      if nunits <=? h_size x then
        if h_size x =? nunits then
          set_ptr prevp (h_ptr x);;
          modify (set_hp_freep prevp);;
          mret (p + HDR)
        else
          let s := h_size x - nunits in
          set_size p s;;
          let p := p + HDR * s in
          new_size p nunits;;
          modify (set_hp_freep prevp);;
          mret (p + HDR)
      else
        f ← gets hp_freep;
        if p =? f then
          p ← morecore nunits;
          if p =? 0 then mret 0 else
          x ← gethdr p;
          malloc_loop fuel nunits p (h_ptr x)
        else malloc_loop fuel nunits p (h_ptr x)
  end.

(** Two rounds of the list, with one block more in the second. *)
Definition malloc (nbytes : Z) : K heap Z :=
  let nunits := u32 (nbytes + HDR - 1) / HDR + 1 in
  f ← gets hp_freep;
  prevp ← (if f =? 0 then
             puthdr base (Header base 0);;
             modify (set_hp_freep base);;
             mret base
           else mret f);
  x ← gethdr prevp;
  m ← gets (λ h, size (hp_mem h));
  malloc_loop (2 * m + 4) nunits prevp (h_ptr x).

(** ** Lists of blocks *)

(** The headers from [a] to [z], through [ptr], are those of the blocks [L]. *)
Fixpoint lseg (m : gmap Z header) (a : Z) (L : list (Z * Z)) (z : Z) : Prop :=
  match L with
  | [] => a = z
  | (b, s) :: L => a = b ∧ ∃ n, m !! b = Some (Header n s) ∧ lseg m n L z
  end.

(** Blocks in the order of addresses between [lo] and [hi], no two adjacent. *)
Fixpoint asc (lo : Z) (L : list (Z * Z)) (hi : Z) : Prop :=
  match L with
  | [] => lo ≤ hi
  | (a, s) :: L => lo < a ∧ 0 < s ∧ asc (a + HDR * s) L hi
  end.
(** The end of the last block. *)
Fixpoint fin (lo : Z) (L : list (Z * Z)) : Z :=
  match L with
  | [] => lo
  | (a, s) :: L => fin (a + HDR * s) L
  end.

Lemma lseg_app m a L1 L2 z : lseg m a (L1 ++ L2) z ↔ ∃ b, lseg m a L1 b ∧ lseg m b L2 z.
Proof.
  revert a. induction L1 as [|[b s] L1 IH]; intros a; cbn.
  - split; [by exists a|]. by intros (b & -> & ?).
  - split.
    + intros (-> & n & Hn & (c & ? & ?)%IH). exists c. split; [|done]. split; [done|]. by exists n.
    + intros (c & (-> & n & Hn & ?) & ?). split; [done|]. exists n. split; [done|]. apply IH. by exists c.
Qed.
Lemma lseg_frame m m' a L z : (∀ b s, (b, s) ∈ L → m' !! b = m !! b) → lseg m a L z → lseg m' a L z.
Proof.
  revert a. induction L as [|[b s] L IH]; intros a Hm; cbn; [done|]. intros (-> & n & Hn & Hl). split; [done|].
  exists n. rewrite (Hm b s) by (left). split; [done|]. apply IH; [|done]. intros c t Hc. apply (Hm c t). by right.
Qed.

Lemma asc_app lo L1 L2 hi : asc lo (L1 ++ L2) hi ↔ asc lo L1 (fin lo L1) ∧ asc (fin lo L1) L2 hi.
Proof.
  revert lo. induction L1 as [|[a s] L1 IH]; intros lo; cbn; [split; [intros; split; [lia|done]|tauto]|]. rewrite IH. tauto.
Qed.
Lemma asc_le lo L hi : asc lo L hi → lo ≤ hi.
Proof.
  revert lo. induction L as [|[a s] L IH]; intros lo; cbn; [done|]. intros (? & ? & ?%IH). unfold HDR in *. lia.
Qed.
Lemma asc_weaken lo lo' L hi hi' : asc lo L hi → lo' ≤ lo → hi ≤ hi' → asc lo' L hi'.
Proof.
  revert lo lo'. induction L as [|[a s] L IH]; intros lo lo'; cbn; [lia|]. intros (? & ? & ?) ? ?. split_and!; [lia|done|].
  by eapply IH.
Qed.
Lemma asc_in lo L hi a s : asc lo L hi → (a, s) ∈ L → lo < a ∧ 0 < s ∧ a + HDR * s ≤ hi.
Proof.
  revert lo. induction L as [|[b t] L IH]; intros lo; cbn; [by intros _ ?%elem_of_nil|].
  intros (? & ? & Ha) [[= -> ->]|Hin]%elem_of_cons.
  - apply asc_le in Ha. lia.
  - destruct (IH _ Ha Hin) as (? & ? & ?). unfold HDR in *. lia.
Qed.
Lemma asc_nodup lo L hi : asc lo L hi → NoDup (L.*1).
Proof.
  revert lo. induction L as [|[a s] L IH]; intros lo; cbn; [constructor|]. intros (? & ? & Ha). constructor; [|by eapply IH].
  intros ([b t] & E & Hb)%list_elem_of_fmap. cbn in E. subst b. destruct (asc_in _ _ _ _ _ Ha Hb) as (? & _). unfold HDR in *. lia.
Qed.

(** The blocks below and above an address. *)
Lemma asc_split lo L hi x : asc lo L hi →
  ∃ L1 L2, L = L1 ++ L2 ∧ Forall (λ b, b.1 < x) L1 ∧ Forall (λ b, x ≤ b.1) L2.
Proof.
  revert lo. induction L as [|[a s] L IH]; intros lo; cbn; [by exists [], []|]. intros (? & ? & Ha).
  destruct (decide (a < x)) as [Hx|Hx].
  - destruct (IH _ Ha) as (L1 & L2 & -> & ? & ?). exists ((a, s) :: L1), L2. split; [done|]. by split; [constructor|].
  - exists [], ((a, s) :: L). split_and!; [done|constructor|]. constructor; [cbn; lia|]. apply Forall_forall. intros [b t] Hb.
    destruct (asc_in _ _ _ _ _ Ha Hb). unfold HDR in *. cbn. lia.
Qed.

Definition apart (a s b t : Z) : Prop := a + HDR * s ≤ b ∨ b + HDR * t ≤ a.

(** ** The invariant *)

(** [L] are the free blocks, [A] the blocks in use, from [lo] to the break. *)
Record heap_ok (lo : Z) (h : heap) (L : list (Z * Z)) (A : gmap Z Z) : Prop := {
  ho_base : 0 < base ∧ base + HDR ≤ lo;
  ho_seg : lseg (hp_mem h) base ((base, 0) :: L) base;
  ho_asc : asc (lo - 1) L (hp_brk h);
  ho_brk : lo ≤ hp_brk h < 2 ^ 31;
  ho_freep : hp_freep h ∈ base :: L.*1;
  ho_live a s : A !! a = Some s → lo ≤ a ∧ 0 < s ∧ a + HDR * s ≤ hp_brk h ∧ h_size <$> hp_mem h !! a = Some s;
  ho_apart a s b t : A !! a = Some s → A !! b = Some t → a ≠ b → apart a s b t;
  ho_free a s b t : A !! a = Some s → (b, t) ∈ L → apart a s b t;
}.

(** ** Finding the place of a block *)

(** Addresses increase. *)
Fixpoint incr (X : list (Z * Z)) : Prop :=
  match X with
  | (a, _) :: X => match X with (b, _) :: _ => a < b | [] => True end ∧ incr X
  | [] => True
  end.

Lemma asc_incr lo L hi : asc lo L hi → incr L.
Proof.
  revert lo. induction L as [|[a s] L IH]; intros lo; cbn; [done|]. intros (? & ? & Ha). split; [|by eapply IH].
  destruct L as [|[b t] L]; [done|]. destruct Ha as (? & _). unfold HDR in *. lia.
Qed.
Lemma incr_app X Y : incr (X ++ Y) → incr Y.
Proof. induction X as [|[a s] X IH]; cbn; [done|]. intros [_ H]. by apply IH. Qed.
Lemma incr_app_l X Y : incr (X ++ Y) → incr X.
Proof.
  induction X as [|[a s] X IH]; cbn; [done|]. intros [H1 H2]. split; [|by apply IH]. by destruct X as [|[b t] X].
Qed.

(** The address of the last block. *)
Definition last_addr (X : list (Z * Z)) : Z := default base (last (X.*1)).

Lemma lseg_head m p X z : lseg m p X z → match X with (a, _) :: _ => p = a | [] => p = z end.
Proof. destruct X as [|[a s] X]; cbn; [done|]. by intros [-> _]. Qed.

Lemma walk_up fuel h bp p X L2 :
  lseg (hp_mem h) p (X ++ L2) base → X ≠ [] → incr X → Forall (λ b, b.1 < bp) X → Forall (λ b, bp < b.1) L2 → base < bp →
  (length X ≤ S fuel)%nat → base ≤ p → free_place fuel bp p h = Ret (last_addr X) h.
Proof.
  revert fuel p. induction X as [|[a s] X IH]; intros fuel p Hs Hne Hi HX HL Hb Hf Hp; [done|].
  cbn [app lseg] in Hs. destruct Hs as (-> & n & Hn & Hs). apply Forall_cons in HX as [Ha HX]. cbn in Ha.
  assert (Hg : gethdr a h = Ret (Header n s) h) by (unfold gethdr; by rewrite Hn).
  destruct fuel as [|fuel]; cbn [free_place]; kstep Hg; cbn [h_ptr]; rewrite (proj2 (Z.ltb_lt a bp)) by done; cbn [andb];
    destruct X as [|[b t] X].
  2:{ cbn in Hf. lia. }
  1, 2: cbn [app] in Hs; pose proof (lseg_head _ _ _ _ Hs) as Hh; destruct L2 as [|[c u] L2]; [subst n|subst n; apply Forall_cons in HL as [Hc _]; cbn in Hc];
    [rewrite (proj2 (Z.ltb_ge bp base)) by lia; by rewrite (proj2 (Z.leb_le base a)) by lia|by rewrite (proj2 (Z.ltb_lt bp c)) by done].
  pose proof (lseg_head _ _ _ _ Hs) as Hh. cbn in Hh. subst n. apply Forall_cons in HX as [Hb' HX]. cbn in Hb'.
  destruct Hi as [Hab Hi]. rewrite (proj2 (Z.ltb_ge bp b)) by lia. rewrite (proj2 (Z.leb_gt b a)) by lia. cbn [andb].
  rewrite (IH fuel b); try done; [by constructor|cbn in *; lia|lia].
Qed.

Lemma walk_down fuel h bp p X :
  lseg (hp_mem h) p X base → X ≠ [] → incr X → Forall (λ b, bp ≤ b.1) X → base < bp →
  free_place (length X + fuel) bp p h = free_place fuel bp base h.
Proof.
  revert p. induction X as [|[a s] X IH]; intros p Hs Hne Hi HX Hb; [done|].
  cbn [lseg] in Hs. destruct Hs as (-> & n & Hn & Hs). apply Forall_cons in HX as [Ha HX]. cbn in Ha.
  assert (Hg : gethdr a h = Ret (Header n s) h) by (unfold gethdr; by rewrite Hn).
  cbn [length Nat.add free_place]. kstep Hg. cbn [h_ptr]. rewrite (proj2 (Z.ltb_ge a bp)) by lia. cbn [andb orb].
  pose proof (lseg_head _ _ _ _ Hs) as Hh. destruct X as [|[b t] X].
  - subst n. rewrite (proj2 (Z.ltb_ge bp base)) by lia. rewrite andb_false_r. done.
  - subst n. destruct Hi as [Hab Hi]. rewrite (proj2 (Z.leb_gt b a)) by lia. cbn [andb]. by apply IH.
Qed.

Lemma blocks_nodup lo h L A : heap_ok lo h L A → NoDup (((base, 0) :: L).*1).
Proof.
  intros Hh. cbn. constructor; [|eapply asc_nodup, Hh]. intros ([b t] & E & Hb)%list_elem_of_fmap. cbn in E. subst b.
  destruct (asc_in _ _ _ _ _ (ho_asc _ _ _ _ Hh) Hb). pose proof (ho_base _ _ _ _ Hh). unfold HDR in *. lia.
Qed.

Lemma heap_length lo h L A : heap_ok lo h L A → (S (length L) ≤ size (hp_mem h))%nat.
Proof.
  intros Hh. set (B := (base, 0) :: L). pose proof (blocks_nodup _ _ _ _ Hh : NoDup (B.*1)) as Hnd.
  assert (Hsub : list_to_set (B.*1) ⊆ dom (hp_mem h)).
  { intros x Hx%elem_of_list_to_set. apply list_elem_of_fmap in Hx as ([b t] & -> & Hb'). apply elem_of_dom.
    pose proof (ho_seg _ _ _ _ Hh) as Hs. fold B in Hs. apply list_elem_of_split in Hb' as (B1 & B2 & E). rewrite E in Hs.
    apply lseg_app in Hs as (c & _ & _ & n & Hn & _). by exists (Header n t). }
  apply subseteq_size in Hsub. rewrite size_list_to_set, size_dom in Hsub by done. by rewrite length_fmap in Hsub.
Qed.

Lemma free_place_run lo h L1 L2 A bp :
  heap_ok lo h (L1 ++ L2) A → lo ≤ bp → Forall (λ b, b.1 < bp) L1 → Forall (λ b, bp < b.1) L2 →
  free_place (size (hp_mem h)) bp (hp_freep h) h = Ret (last_addr ((base, 0) :: L1)) h.
Proof.
  intros Hh Hbp H1 H2. pose proof (ho_base _ _ _ _ Hh) as [_ Hb]. pose proof (heap_length _ _ _ _ Hh) as Hlen.
  rewrite length_app in Hlen. pose proof (ho_seg _ _ _ _ Hh) as Hs. set (B1 := (base, 0) :: L1) in *.
  assert (Hi : incr (B1 ++ L2)).
  { cbn. split; [|eapply asc_incr, Hh]. destruct (L1 ++ L2) as [|[b t] L] eqn:E; [done|].
    pose proof (ho_asc _ _ _ _ Hh) as Ha. destruct Ha as (? & _). unfold HDR in *. lia. }
  assert (HB1 : Forall (λ b, b.1 < bp) B1) by (constructor; [cbn; unfold HDR in *; lia|done]).
  change (lseg (hp_mem h) base (B1 ++ L2) base) in Hs. unfold HDR in Hb.
  assert (Hf : hp_freep h ∈ (B1 ++ L2).*1) by apply Hh.
  apply list_elem_of_fmap in Hf as ([f s] & -> & [Hf|Hf]%elem_of_app); cbn [fst].
  - apply list_elem_of_split in Hf as (U & X & E). rewrite E in *.
    assert (El : last_addr (U ++ (f, s) :: X) = last_addr ((f, s) :: X)).
    { unfold last_addr. rewrite fmap_app, last_app. cbn. by destruct (last (f :: X.*1)) eqn:El; [|apply last_None in El]. }
    rewrite El. apply Forall_app in HB1 as [HU HX]. rewrite <- (assoc_L (++)) in *.
    apply lseg_app in Hs as (c & _ & Hs). pose proof (lseg_head _ _ _ _ Hs) as Hc. cbn in Hc. subst c.
    assert (Hbf : base ≤ f).
    { destruct U as [|u U]; [by injection E as <- <- <-|]. injection E as _ E.
      destruct (asc_in _ _ _ f s (ho_asc _ _ _ _ Hh)) as (? & _); [|lia]. apply elem_of_app. left. rewrite E. set_solver. }
    eapply walk_up; try done; [|lia|].
    + apply incr_app in Hi. by apply incr_app_l in Hi.
    + assert (length (U ++ (f, s) :: X) = S (length L1)) by (rewrite <- E; done). rewrite length_app in *. lia.
  - apply list_elem_of_split in Hf as (U & X & E). rewrite E in *.
    pose proof Hs as Hs0. apply lseg_app in Hs as (c & _ & Hs). apply lseg_app in Hs as (d & _ & Hs).
    pose proof (lseg_head _ _ _ _ Hs) as Hc. cbn in Hc. subst d. pose proof H2 as [_ HX]%Forall_app.
    rewrite !length_app in Hlen. cbn [length] in Hlen.
    replace (size (hp_mem h)) with (length ((f, s) :: X) + (size (hp_mem h) - length ((f, s) :: X)))%nat by (cbn; lia).
    rewrite (walk_down _ h bp f ((f, s) :: X)); try done; [| | |lia].
    + eapply walk_up; try done; [by apply incr_app_l in Hi|lia|cbn; lia].
    + apply incr_app in Hi. by apply incr_app in Hi.
    + eapply Forall_impl; [exact HX|]. cbn. lia.
Qed.

(** ** [free] *)

Lemma gethdr_run h a x : hp_mem h !! a = Some x → gethdr a h = Ret x h.
Proof. intros Ha. unfold gethdr. by rewrite Ha. Qed.
Lemma set_ptr_run h a x v : hp_mem h !! a = Some x →
  set_ptr a v h = Ret tt (set_hp_mem (<[a:=Header v (h_size x)]> (hp_mem h)) h).
Proof. intros Ha. unfold set_ptr. by kstep (gethdr_run h a x Ha). Qed.
Lemma set_size_run h a x v : hp_mem h !! a = Some x →
  set_size a v h = Ret tt (set_hp_mem (<[a:=Header (h_ptr x) v]> (hp_mem h)) h).
Proof. intros Ha. unfold set_size. by kstep (gethdr_run h a x Ha). Qed.
Lemma new_size_run h a v :
  new_size a v h = Ret tt (set_hp_mem (<[a:=Header (from_option h_ptr 0 (hp_mem h !! a)) v]> (hp_mem h)) h).
Proof. done. Qed.
(** Both fields of one header. *)
Lemma set_both_run h a x s v : hp_mem h !! a = Some x →
  (set_size a s;; set_ptr a v) h = Ret tt (set_hp_mem (<[a:=Header v s]> (hp_mem h)) h).
Proof.
  intros Ha. kstep (set_size_run h a x s Ha). erewrite set_ptr_run by (cbn; by rewrite lookup_insert_eq).
  unfold set_hp_mem. cbn. by rewrite insert_insert_eq.
Qed.

(** The freed block with the block after it, when they touch. *)
Definition join_next (bp sz : Z) (L2 : list (Z * Z)) : Z * list (Z * Z) :=
  match L2 with
  | (n, s) :: L => if bp + HDR * sz =? n then (sz + s, L) else (sz, L2)
  | [] => (sz, [])
  end.
(** The list with the block, joined to the block before it when they touch. *)
Definition put_block (P : list (Z * Z)) (p s bp sz : Z) (L2 : list (Z * Z)) : list (Z * Z) :=
  let '(sz, L) := join_next bp sz L2 in
  if p + HDR * s =? bp then P ++ (p, s + sz) :: L else P ++ (p, s) :: (bp, sz) :: L.

Lemma free_exec h P p s bp sz x L2 :
  free_place (size (hp_mem h)) bp (hp_freep h) h = Ret p h →
  lseg (hp_mem h) base (P ++ (p, s) :: L2) base → hp_mem h !! bp = Some x → h_size x = sz → p ≠ bp →
  Forall (λ b, b.1 ≠ bp) (P ++ L2) → NoDup ((P ++ (p, s) :: L2).*1) → base < bp → 0 < sz →
  Forall (λ b, 0 ≤ b.2 < 2 ^ 28) (P ++ (p, s) :: L2) → sz < 2 ^ 28 →
  ∃ m', free (bp + HDR) h = Ret tt (Heap m' p (hp_brk h)) ∧ lseg m' base (put_block P p s bp sz L2) base ∧
    ∀ y, y ≠ bp → y ≠ p → m' !! y = hp_mem h !! y.
Proof.
  intros Hp Hs Hx Hsz Hne Hbn Hnd Hbb Hpos Hsmall Hsz28. apply lseg_app in Hs as (? & HP & -> & n & Hn & HL2).
  rewrite fmap_app in Hnd. apply NoDup_app in Hnd as (_ & HndP & [HpL _]%NoDup_cons). apply Forall_app in Hbn as [HbP HbL].
  apply Forall_app in Hsmall as [_ [Hs28 HL28]%Forall_cons]. cbn in Hs28.
  assert (HpP : Forall (λ b, b.1 ≠ p) P).
  { apply Forall_forall. intros [b t] Hb E. cbn in E. subst b. apply (HndP p); [by apply list_elem_of_fmap; exists (p, t)|left]. }
  assert (HpL' : Forall (λ b, b.1 ≠ p) L2).
  { apply Forall_forall. intros [b t] Hb E. cbn in E. subst b. apply HpL. by apply list_elem_of_fmap; exists (p, t). }
  assert (Hkeep : ∀ Q m', Forall (λ b, b.1 ≠ bp) Q → Forall (λ b, b.1 ≠ p) Q → (∀ y, y ≠ bp → y ≠ p → m' !! y = hp_mem h !! y) →
    ∀ a z, lseg (hp_mem h) a Q z → lseg m' a Q z).
  { intros Q m' H1 H2 Hm a z. apply lseg_frame. intros b t Hb. rewrite Forall_forall in H1, H2. apply Hm; [apply (H1 _ Hb)|apply (H2 _ Hb)]. }
  unfold free. replace (bp + HDR - HDR) with bp by lia.
  rewrite (K_bind_Ret _ _ h (hp_freep h) h), (K_bind_Ret _ _ h (size (hp_mem h)) h) by done. kstep Hp.
  kstep (gethdr_run h bp x Hx). kstep (gethdr_run h p _ Hn). cbn [h_ptr]. rewrite Hsz.
  destruct (join_next bp sz L2) as [sz2 L] eqn:Ej.
  assert (Hup : ∃ nx, (if bp + HDR * sz =? n then
      n0 ← gethdr n; set_size bp (u32 (sz + h_size n0));; set_ptr bp (h_ptr n0) else set_ptr bp n) h =
      Ret tt (set_hp_mem (<[bp:=Header nx sz2]> (hp_mem h)) h) ∧ lseg (hp_mem h) nx L base ∧ 0 < sz2 < 2 ^ 29 ∧
      Forall (λ b, b.1 ≠ bp) L ∧ Forall (λ b, b.1 ≠ p) L).
  { unfold join_next in Ej. destruct L2 as [|[n' sn] L2].
    - injection Ej as <- <-. cbn in HL2. subst n. exists base. rewrite (proj2 (Z.eqb_neq _ _)) by (unfold HDR; lia).
      rewrite (set_ptr_run h bp x base Hx), Hsz. split; [done|]. split; [done|]. split; [lia|done].
    - destruct HL2 as (-> & nx & Hnx & HL). apply Forall_cons in HbL as [Hbn HbL], HpL' as [Hpn HpL'], HL28 as [Hsn _]. cbn in Hsn.
      destruct (Z.eqb_spec (bp + HDR * sz) n'); injection Ej as <- <-.
      + exists nx. kstep (gethdr_run h n' _ Hnx). cbn [h_size h_ptr]. rewrite (u32_small (sz + sn)) by lia.
        rewrite (set_both_run h bp x _ _ Hx). split; [done|]. split; [done|]. split; [lia|done].
      + exists n'. rewrite (set_ptr_run h bp x n' Hx), Hsz. split; [done|]. split; [by split; [|exists nx]|]. split; [lia|].
        by split; constructor. }
  destruct Hup as (nx & Hup & HL & Hsz2 & HbL' & HpL2). rewrite (K_bind_Ret _ _ _ _ _ Hup).
  set (m1 := <[bp:=Header nx sz2]> (hp_mem h)). set (h1 := set_hp_mem m1 h).
  assert (Hn1 : hp_mem h1 !! p = Some (Header n s)) by (cbn; unfold m1; by rewrite lookup_insert_ne).
  kstep (gethdr_run h1 p _ Hn1). cbn [h_size]. unfold put_block. rewrite Ej.
  assert (Hb1 : hp_mem h1 !! bp = Some (Header nx sz2)) by (cbn; unfold m1; by rewrite lookup_insert_eq).
  destruct (Z.eqb_spec (p + HDR * s) bp) as [E|E].
  - exists (<[p:=Header nx (s + sz2)]> m1). rewrite (K_bind_Ret _ _ h1 tt (set_hp_mem (<[p:=Header nx (s + sz2)]> m1) h1)).
    2:{ kstep (gethdr_run h1 bp _ Hb1). cbn [h_size h_ptr]. rewrite (u32_small (s + sz2)) by lia. by rewrite (set_both_run h1 p _ _ _ Hn1). }
    split; [done|]. assert (Hm : ∀ y, y ≠ bp → y ≠ p → <[p:=Header nx (s + sz2)]> m1 !! y = hp_mem h !! y).
    { intros y ? ?. rewrite lookup_insert_ne by done. unfold m1. by rewrite lookup_insert_ne. }
    split; [|done]. apply lseg_app. exists p. split; [by apply (Hkeep P)|]. split; [done|]. exists nx. split; [by rewrite lookup_insert_eq|].
    by apply (Hkeep L).
  - exists (<[p:=Header bp s]> m1). rewrite (K_bind_Ret _ _ h1 tt (set_hp_mem (<[p:=Header bp s]> m1) h1)) by (by rewrite (set_ptr_run h1 p _ bp Hn1)).
    split; [done|]. assert (Hm : ∀ y, y ≠ bp → y ≠ p → <[p:=Header bp s]> m1 !! y = hp_mem h !! y).
    { intros y ? ?. rewrite lookup_insert_ne by done. unfold m1. by rewrite lookup_insert_ne. }
    split; [|done]. apply lseg_app. exists p. split; [by apply (Hkeep P)|]. split; [done|]. exists bp. split; [by rewrite lookup_insert_eq|].
    split; [done|]. exists nx. split; [rewrite lookup_insert_ne by done; unfold m1; by rewrite lookup_insert_eq|]. by apply (Hkeep L).
Qed.

Lemma join_next_spec bp sz m L2 hi :
  asc m L2 hi → bp + HDR * sz ≤ hi → 0 < sz → Forall (λ b, bp + HDR * sz ≤ b.1) L2 →
  let '(sz2, L) := join_next bp sz L2 in (length L ≤ length L2)%nat ∧ sz ≤ sz2 ∧ asc (bp + HDR * sz2) L hi ∧ (∀ b, b ∈ L → b ∈ L2) ∧
    (∀ a s, (∀ b t, (b, t) ∈ L2 → apart a s b t) → 0 < s → apart a s bp sz → apart a s bp sz2).
Proof.
  intros Ha Hhi Hpos Hab. unfold join_next. destruct L2 as [|[n sn] L].
  { split; [done|]. split; [lia|]. split; [done|]. split; [done|]. auto. }
  destruct Ha as (_ & Hsn & Ha). apply Forall_cons in Hab as [Hn _]. cbn in Hn.
  destruct (Z.eqb_spec (bp + HDR * sz) n) as [E|E].
  - split; [cbn; lia|]. split; [lia|]. split; [|split; [intros b Hb; by right|]].
    + replace (bp + HDR * (sz + sn)) with (n + HDR * sn) by lia. done.
    + intros a s Hap Hs Hb. pose proof (Hap n sn ltac:(left)). unfold apart, HDR in *. lia.
  - split; [done|]. split; [lia|]. split; [|split; [done|auto]]. cbn. split; [lia|]. done.
Qed.

Lemma free_list_ok lo h L1 L2 A bp sz P p s :
  heap_ok lo h (L1 ++ L2) A → A !! bp = Some sz → Forall (λ b, b.1 < bp) L1 → Forall (λ b, bp < b.1) L2 →
  (base, 0) :: L1 = P ++ [(p, s)] →
  ∃ L', put_block P p s bp sz L2 = (base, 0) :: L' ∧ asc (lo - 1) L' (hp_brk h) ∧ p ∈ base :: L'.*1 ∧
    (length L' ≤ S (length (L1 ++ L2)))%nat ∧ (∃ b t, (b, t) ∈ L' ∧ sz ≤ t) ∧
    (∀ a t, A !! a = Some t → a ≠ bp → ∀ b u, (b, u) ∈ L' → apart a t b u).
Proof.
  intros Hh Hbp H1 H2 EP. pose proof (ho_asc _ _ _ _ Hh) as Ha. apply asc_app in Ha as [Ha1 Ha2].
  destruct (ho_live _ _ _ _ Hh bp sz Hbp) as (Hlo & Hpos & Hhi & _). pose proof (ho_base _ _ _ _ Hh) as [_ Hb].
  assert (Hup : Forall (λ b, bp + HDR * sz ≤ b.1) L2).
  { apply Forall_forall. intros [b t] Hbt. cbn. pose proof (ho_free _ _ _ _ Hh bp sz b t Hbp ltac:(apply elem_of_app; by right)) as Hap.
    rewrite Forall_forall in H2. specialize (H2 _ Hbt). cbn in H2. destruct (asc_in _ _ _ b t Ha2 Hbt) as (_ & ? & _).
    unfold apart, HDR in *. lia. }
  pose proof (join_next_spec bp sz _ L2 _ Ha2 Hhi Hpos Hup) as Hj. unfold put_block. destruct (join_next bp sz L2) as [sz2 L].
  destruct Hj as (HlL & Hsz2 & HaL & HinL & HapL).
  assert (Hother : ∀ a t, A !! a = Some t → a ≠ bp → apart a t bp sz2 ∧ 0 < t ∧ ∀ b u, (b, u) ∈ L1 ++ L → apart a t b u).
  { intros a t Hat Hne. destruct (ho_live _ _ _ _ Hh a t Hat) as (_ & Ht & _). split; [|split; [done|]].
    - apply HapL; [|done|by apply (ho_apart _ _ _ _ Hh)]. intros b u Hbu. apply (ho_free _ _ _ _ Hh); [done|]. apply elem_of_app. by right.
    - intros b u [Hbu|Hbu]%elem_of_app; apply (ho_free _ _ _ _ Hh); try done; apply elem_of_app; [by left|right; by apply HinL]. }
  destruct P as [|[q r] P].
  - injection EP as <- <- ->. rewrite (proj2 (Z.eqb_neq _ _)) by (unfold HDR in *; lia). exists ((bp, sz2) :: L). split; [done|].
    split; [cbn; split_and!; [lia|lia|done]|]. split; [left|]. split; [cbn; lia|]. split; [exists bp, sz2; split; [left|done]|].
    intros a t Hat Hne b u Hbu.
    destruct (Hother a t Hat Hne) as (O1 & _ & O3). apply elem_of_cons in Hbu as [[= -> ->]|Hbu]; [done|by apply O3].
  - injection EP as <- <- ->. apply asc_app in Ha1 as [HaP (Hp1 & Hs & _)].
    assert (Hps : p + HDR * s ≤ bp).
    { pose proof (ho_free _ _ _ _ Hh bp sz p s Hbp ltac:(set_solver)) as Hap. apply Forall_app in H1 as [_ [H1 _]%Forall_cons]. cbn in H1.
      unfold apart, HDR in *. lia. }
    destruct (Z.eqb_spec (p + HDR * s) bp) as [E|E].
    + exists (P ++ (p, s + sz2) :: L). split; [done|]. split; [|split; [|split; [rewrite !length_app; cbn; lia|split; [exists p, (s + sz2); split; [set_solver|lia]|]]]].
      * apply asc_app. split; [done|]. cbn. split_and!; [done|lia|]. by replace (p + HDR * (s + sz2)) with (bp + HDR * sz2) by lia.
      * right. rewrite fmap_app. cbn. set_solver.
      * intros a t Hat Hne b u Hbu. destruct (Hother a t Hat Hne) as (O1 & O2 & O3).
        apply elem_of_app in Hbu as [Hbu|[[= -> ->]|Hbu]%elem_of_cons]; [apply O3; set_solver| |apply O3; set_solver].
        pose proof (O3 p s ltac:(set_solver)). unfold apart, HDR in *. lia.
    + exists (P ++ (p, s) :: (bp, sz2) :: L). split; [done|]. split; [|split; [|split; [rewrite !length_app; cbn; lia|split; [exists bp, sz2; split; [set_solver|lia]|]]]].
      * apply asc_app. split; [done|]. cbn. split_and!; [done|done|lia|lia|done].
      * right. rewrite fmap_app. cbn. set_solver.
      * intros a t Hat Hne b u Hbu. destruct (Hother a t Hat Hne) as (O1 & O2 & O3).
        apply elem_of_app in Hbu as [Hbu|[[= -> ->]|[[= -> ->]|Hbu]%elem_of_cons]%elem_of_cons]; try done; apply O3; set_solver.
Qed.

(** The live blocks' memory. *)
Definition same_live (A : gmap Z Z) (h h' : heap) : Prop :=
  ∀ a s y, A !! a = Some s → a ≤ y < a + HDR * s → hp_mem h' !! y = hp_mem h !! y.

Lemma last_split X : X ≠ [] → ∃ P s, X = P ++ [(last_addr X, s)].
Proof.
  intros HX. destruct X as [|x X _] using rev_ind; [done|]. exists X, x.2. unfold last_addr. rewrite fmap_app. change ([x].*1) with [x.1]. rewrite last_snoc. cbn. by destruct x.
Qed.

Lemma free_ok lo h L A bp sz :
  heap_ok lo h L A → A !! bp = Some sz →
  ∃ h' L', free (bp + HDR) h = Ret tt h' ∧ heap_ok lo h' L' (delete bp A) ∧ hp_brk h' = hp_brk h ∧
    same_live (delete bp A) h h' ∧ (length L' ≤ S (length L))%nat ∧ ∃ b t, (b, t) ∈ L' ∧ sz ≤ t.
Proof.
  intros Hh Hbp. destruct (ho_live _ _ _ _ Hh bp sz Hbp) as (Hlo & Hpos & Hhi & Hsz). pose proof (ho_base _ _ _ _ Hh) as [Hb0 Hb].
  destruct (asc_split _ _ _ bp (ho_asc _ _ _ _ Hh)) as (L1 & L2 & -> & H1 & H2').
  assert (H2 : Forall (λ b, bp < b.1) L2).
  { apply Forall_forall. intros [b t] Hbt. rewrite Forall_forall in H2'. pose proof (H2' _ Hbt) as Hle. cbn in Hle |- *.
    pose proof (ho_free _ _ _ _ Hh bp sz b t Hbp ltac:(set_solver)) as Hap.
    destruct (asc_in _ _ _ b t (ho_asc _ _ _ _ Hh)) as (_ & ? & _); [set_solver|]. unfold apart, HDR in *. lia. }
  pose proof (free_place_run lo h L1 L2 A bp Hh Hlo H1 H2) as Hp.
  destruct (last_split ((base, 0) :: L1)) as (P & s & EP); [done|]. set (p := last_addr ((base, 0) :: L1)) in *.
  destruct (free_list_ok lo h L1 L2 A bp sz P p s Hh Hbp H1 H2 EP) as (L' & Ep & Hasc & Hfp & HlL & Hfit & Hap).
  assert (EB : (base, 0) :: L1 ++ L2 = P ++ (p, s) :: L2).
  { change ((base, 0) :: L1 ++ L2) with (((base, 0) :: L1) ++ L2). rewrite EP, <- (assoc_L (++)). done. }
  destruct (hp_mem h !! bp) as [x|] eqn:Hx; [|done]. injection Hsz as Hsz.
  assert (Hpin : (p, s) ∈ (base, 0) :: L1 ++ L2) by (rewrite EB; set_solver).
  assert (Hpa : ∀ a t, A !! a = Some t → a ≠ bp → p < a ∨ a + HDR * t ≤ p).
  { intros a t Hat Hne. destruct (ho_live _ _ _ _ Hh a t Hat) as (? & ? & _).
    apply elem_of_cons in Hpin as [[= E _]|Hin]; [left; unfold HDR in *; lia|].
    pose proof (ho_free _ _ _ _ Hh a t p s Hat Hin). destruct (asc_in _ _ _ p s (ho_asc _ _ _ _ Hh) Hin). unfold apart, HDR in *. lia. }
  assert (Hpb : p < bp).
  { assert (Hin : (p, s) ∈ (base, 0) :: L1) by (rewrite EP; set_solver). apply elem_of_cons in Hin as [[= -> _]|Hin]; [unfold HDR in *; lia|].
    rewrite Forall_forall in H1. apply (H1 _ Hin). }
  pose proof (ho_brk _ _ _ _ Hh) as Hlim.
  destruct (free_exec h P p s bp sz x L2) as (m' & Hrun & Hseg & Hm); try done.
  - rewrite <- EB. apply Hh.
  - lia.
  - assert (Hall : Forall (λ b, b.1 ≠ bp) ((base, 0) :: L1 ++ L2)).
    { constructor; [cbn; unfold HDR in *; lia|]. apply Forall_app. split; (eapply Forall_impl; [eassumption|]); cbn; lia. }
    rewrite EB in Hall. apply Forall_app in Hall as [? [_ ?]%Forall_cons]. by apply Forall_app.
  - rewrite <- EB. by eapply blocks_nodup.
  - unfold HDR in *. lia.
  - rewrite <- EB. constructor; [cbn; lia|]. apply Forall_forall. intros [b t] Hbt.
    destruct (asc_in _ _ _ _ _ (ho_asc _ _ _ _ Hh) Hbt) as (? & ? & ?). cbn. unfold HDR in *. lia.
  - unfold HDR in *. lia.
  - exists (Heap m' p (hp_brk h)), L'. split; [done|]. rewrite Ep in Hseg.
    assert (Hlive : ∀ a t y, A !! a = Some t → a ≠ bp → a ≤ y < a + HDR * t → m' !! y = hp_mem h !! y).
    { intros a t y Hat Hne Hy. pose proof (Hpa a t Hat Hne). pose proof (ho_apart _ _ _ _ Hh a t bp sz Hat Hbp Hne).
      apply Hm; unfold apart, HDR in *; lia. }
    split; [|split; [done|split; [|done]]].
    + split; try done.
      * intros a t [Hne Hat]%lookup_delete_Some. destruct (ho_live _ _ _ _ Hh a t Hat) as (? & ? & ? & ?). cbn.
        rewrite (Hlive a t a) by (done || unfold HDR in *; lia). done.
      * intros a t b u [? ?]%lookup_delete_Some [? ?]%lookup_delete_Some. by apply (ho_apart _ _ _ _ Hh).
      * intros a t b u [? ?]%lookup_delete_Some. by apply Hap.
    + intros a t y [Hne Hat]%lookup_delete_Some Hy. cbn. by apply (Hlive a t).
Qed.

(** ** [malloc] *)

Lemma asc_apart lo X q s Y hi : asc lo (X ++ (q, s) :: Y) hi → ∀ b t, (b, t) ∈ X ++ Y → apart q s b t.
Proof.
  intros [Hx (Hq & Hs & Hy)]%asc_app b t [Hb|Hb]%elem_of_app.
  - destruct (asc_in _ _ _ _ _ Hx Hb) as (_ & _ & ?). right. lia.
  - destruct (asc_in _ _ _ _ _ Hy Hb) as (? & _). left. lia.
Qed.
Lemma apart_sym a s b t : apart a s b t → apart b t a s.
Proof. unfold apart. tauto. Qed.

(** The header before [q] in the list is no part of a live block. *)
Lemma start_free lo h L A a s b t y :
  heap_ok lo h L A → A !! a = Some s → (b, t) ∈ (base, 0) :: L → a ≤ y < a + HDR * s → y ≠ b.
Proof.
  intros Hh Ha Hb Hy ->. destruct (ho_live _ _ _ _ Hh a s Ha) as (? & ? & _). pose proof (ho_base _ _ _ _ Hh) as [_ ?].
  apply elem_of_cons in Hb as [[= -> ->]|Hb]; [unfold HDR in *; lia|]. pose proof (ho_free _ _ _ _ Hh a s b t Ha Hb).
  destruct (asc_in _ _ _ _ _ (ho_asc _ _ _ _ Hh) Hb) as (_ & ? & _). unfold apart, HDR in *. lia.
Qed.

(** What [malloc] gives: a new block [a] of [n] headers. *)
Definition allocated_block (lo : Z) (A : gmap Z Z) (n : Z) (h : heap) (a : Z) (h' : heap) : Prop :=
  A !! a = None ∧ same_live A h h' ∧ ∃ L', heap_ok lo h' L' (<[a:=n]> A).

(** Marking part of a free block as in use. *)
Lemma take_block lo h L A h' L' a n q s :
  heap_ok lo h L A → (q, s) ∈ L → 0 < n → q ≤ a → a + HDR * n ≤ q + HDR * s →
  (∀ b t, (b, t) ∈ L' → apart a n b t ∧ ∃ u, (b, u) ∈ L ∧ t ≤ u) →
  lseg (hp_mem h') base ((base, 0) :: L') base → asc (lo - 1) L' (hp_brk h') → hp_brk h' = hp_brk h →
  hp_freep h' ∈ base :: L'.*1 → h_size <$> hp_mem h' !! a = Some n → same_live A h h' →
  allocated_block lo A n h a h'.
Proof.
  intros Hh Hq Hn Hqa Han HL' Hseg Hasc Hbrk Hf Hsz Hlive.
  assert (Hap : ∀ b t, A !! b = Some t → apart a n b t).
  { intros b t Hb. pose proof (ho_free _ _ _ _ Hh b t q s Hb Hq). destruct (ho_live _ _ _ _ Hh b t Hb) as (_ & ? & _).
    unfold apart, HDR in *. lia. }
  assert (Hnone : A !! a = None).
  { destruct (A !! a) as [t|] eqn:E; [exfalso|done]. pose proof (Hap a t E). destruct (ho_live _ _ _ _ Hh a t E) as (_ & ? & _).
    unfold apart, HDR in *. lia. }
  split; [done|]. split; [done|]. exists L'. destruct (asc_in _ _ _ _ _ (ho_asc _ _ _ _ Hh) Hq) as (? & ? & ?).
  split; try done; rewrite ?Hbrk.
  - apply Hh.
  - apply Hh.
  - intros b t [[<- <-]|[Hne Hb]]%lookup_insert_Some; [split_and!; [lia|done|lia|done]|].
    destruct (ho_live _ _ _ _ Hh b t Hb) as (? & ? & ? & ?). rewrite (Hlive b t b) by (done || unfold HDR in *; lia). done.
  - intros b t c u [[<- <-]|[Hne Hb]]%lookup_insert_Some [[<- <-]|[Hne' Hc]]%lookup_insert_Some ?; try done.
    + by apply Hap.
    + by apply apart_sym, Hap.
    + by apply (ho_apart _ _ _ _ Hh).
  - intros b t c u [[<- <-]|[Hne Hb]]%lookup_insert_Some Hc; [by apply HL'|].
    destruct (HL' c u Hc) as (_ & v & Hv & Hle). pose proof (ho_free _ _ _ _ Hh b t c v Hb Hv). unfold apart, HDR in *. lia.
Qed.

(** The two ways to take [n] headers from block [q] after [prevp]. *)
Lemma alloc_exact lo h X P prevp sp q n Y A :
  let L := (X ++ (q, n) :: Y) in
  heap_ok lo h L A → (base, 0) :: X = P ++ [(prevp, sp)] → 0 < n →
  ∃ x h', hp_mem h !! q = Some x ∧ h_size x = n ∧ (set_ptr prevp (h_ptr x);; modify (set_hp_freep prevp);; mret (q + HDR)) h = Ret (q + HDR) h' ∧
    allocated_block lo A n h q h'.
Proof.
  intros L Hh EP Hn. pose proof (ho_seg _ _ _ _ Hh) as Hseg. unfold L in Hseg.
  change (lseg (hp_mem h) base (((base, 0) :: X) ++ (q, n) :: Y) base) in Hseg. rewrite EP, <- (assoc_L (++)) in Hseg.
  apply lseg_app in Hseg as (? & HP & -> & ? & Hpv & -> & nq & Hq & HY).
  assert (Hin : (prevp, sp) ∈ (base, 0) :: X) by (rewrite EP; set_solver).
  pose proof (blocks_nodup _ _ _ _ Hh) as Hnd. unfold L in Hnd.
  change ((base, 0) :: X ++ (q, n) :: Y) with (((base, 0) :: X) ++ (q, n) :: Y) in Hnd. rewrite EP, <- (assoc_L (++)), fmap_app in Hnd.
  cbn [app fmap list_fmap] in Hnd. apply NoDup_app in Hnd as (_ & HdP & Hnd2). cbn in Hnd2. apply NoDup_cons in Hnd2 as [Hpq _].
  exists (Header nq n). eexists. split; [done|]. split; [done|]. cbn [h_ptr]. split.
  { kstep (set_ptr_run h prevp _ nq Hpv). reflexivity. }
  set (m' := <[prevp:=Header nq (h_size (Header q sp))]> (hp_mem h)).
  assert (Hm : ∀ y, y ≠ prevp → m' !! y = hp_mem h !! y) by (intros; unfold m'; by rewrite lookup_insert_ne).
  eapply (take_block lo h L A _ (X ++ Y) q n q n); try done; [unfold L; set_solver|..].
  - intros b t Hb. split; [eapply asc_apart; [apply Hh|done]|]. exists t. split; [unfold L; set_solver|done].
  - change (lseg m' base (((base, 0) :: X) ++ Y) base). rewrite EP, <- (assoc_L (++)). apply lseg_app. exists prevp. split.
    + eapply lseg_frame; [|exact HP]. intros b t Hb. apply Hm. intros ->. apply (HdP prevp); [by apply list_elem_of_fmap; exists (prevp, t)|left].
    + split; [done|]. exists nq. split; [unfold m'; by rewrite lookup_insert_eq|]. eapply lseg_frame; [|exact HY].
      intros b t Hb. apply Hm. intros ->. apply Hpq. right. by apply list_elem_of_fmap; exists (prevp, t).
  - cbn. pose proof (ho_asc _ _ _ _ Hh) as [Hx (? & ? & Hy)]%asc_app. apply asc_app. split; [done|].
    eapply asc_weaken; [exact Hy|unfold HDR in *; lia|done].
  - cbn. apply elem_of_cons in Hin as [[= -> _]|Hin]; [left|right]. apply list_elem_of_fmap. exists (prevp, sp). split; [done|]. set_solver.
  - cbn. rewrite Hm; [by rewrite Hq|]. intros ->. apply Hpq. left.
  - intros a s y Ha Hy. cbn. apply Hm. apply (start_free lo h L A a s prevp sp); try done. unfold L. set_solver.
Qed.

Lemma alloc_split lo h X prevp sp q s n Y A :
  let L := (X ++ (q, s) :: Y) in
  heap_ok lo h L A → (prevp, sp) ∈ (base, 0) :: X → 0 < n < s →
  ∃ x h', hp_mem h !! q = Some x ∧ h_size x = s ∧ 
    (set_size q (s - n);; new_size (q + HDR * (s - n)) n;; modify (set_hp_freep prevp);; mret (q + HDR * (s - n) + HDR)) h =
      Ret (q + HDR * (s - n) + HDR) h' ∧ allocated_block lo A n h (q + HDR * (s - n)) h'.
Proof.
  intros L Hh Hprev Hn. pose proof (ho_seg _ _ _ _ Hh) as Hseg. unfold L in Hseg.
  change (lseg (hp_mem h) base (((base, 0) :: X) ++ (q, s) :: Y) base) in Hseg.
  apply lseg_app in Hseg as (? & HX & -> & nq & Hq & HY). set (a := q + HDR * (s - n)).
  pose proof (ho_asc _ _ _ _ Hh) as Hasc. pose proof (asc_apart _ _ _ _ _ _ Hasc) as Hap.
  destruct (asc_in _ _ _ q s Hasc) as (Hqlo & _ & _); [unfold L; set_solver|]. pose proof (ho_base _ _ _ _ Hh) as [_ Hb].
  assert (Hne : ∀ b t, (b, t) ∈ ((base, 0) :: X) ++ Y → b ≠ q ∧ b ≠ a).
  { intros b t [[[= -> ->]|Hx]%elem_of_cons|Hy]%elem_of_app; [unfold a, HDR in *; lia|..].
    all: pose proof (Hap b t ltac:(set_solver)) as Hbt; destruct (asc_in _ _ _ b t Hasc) as (_ & ? & _); [unfold L; set_solver|].
    all: unfold apart, a, HDR in *; lia. }
  exists (Header nq s). eexists. split; [done|]. split; [done|]. split.
  { kstep (set_size_run h q _ (s - n) Hq). cbn [h_ptr]. fold a. set (h1 := set_hp_mem _ h). kstep (new_size_run h1 a n). reflexivity. }
  set (m' := <[a:=_]> _). assert (Hm : ∀ y, y ≠ q → y ≠ a → m' !! y = hp_mem h !! y).
  { intros y ? ?. unfold m'. rewrite lookup_insert_ne by done. cbn. by rewrite lookup_insert_ne. }
  assert (Haq : a ≠ q) by (unfold a, HDR; lia).
  eapply (take_block lo h L A _ (X ++ (q, s - n) :: Y) a n q s); try done; [unfold L; set_solver|lia|unfold a, HDR; lia|unfold a, HDR; lia|..].
  - intros b t [Hb'|[[= -> ->]|Hb']%elem_of_cons]%elem_of_app.
    2:{ split; [right; unfold a; lia|]. exists s. split; [unfold L; set_solver|lia]. }
    all: split; [|exists t; split; [unfold L; set_solver|done]]; pose proof (Hap b t ltac:(set_solver)); unfold apart, a, HDR in *; lia.
  - change (lseg m' base (((base, 0) :: X) ++ (q, s - n) :: Y) base). apply lseg_app. exists q. split.
    + eapply lseg_frame; [|exact HX]. intros b t Hb'. destruct (Hne b t ltac:(set_solver)). by apply Hm.
    + split; [done|]. exists nq. split; [unfold m'; rewrite lookup_insert_ne by done; cbn; by rewrite lookup_insert_eq|].
      eapply lseg_frame; [|exact HY]. intros b t Hb'. destruct (Hne b t ltac:(set_solver)). by apply Hm.
  - cbn. apply asc_app in Hasc as [Hx (? & ? & Hy)]. apply asc_app. split; [done|]. cbn. split_and!; [done|lia|].
    eapply asc_weaken; [exact Hy|unfold HDR in *; lia|done].
  - cbn. apply elem_of_cons in Hprev as [[= -> _]|Hin]; [left|right]. apply list_elem_of_fmap. exists (prevp, sp). split; [done|]. set_solver.
  - cbn. unfold m'. by rewrite lookup_insert_eq.
  - intros b t y Hbt Hy. cbn. apply Hm.
    + apply (start_free lo h L A b t q s); try done. unfold L. set_solver.
    + intros ->. pose proof (ho_free _ _ _ _ Hh b t q s Hbt ltac:(unfold L; set_solver)). unfold apart, a, HDR in *. lia.
Qed.

Lemma same_live_trans A h1 h2 h3 : same_live A h1 h2 → same_live A h2 h3 → same_live A h1 h3.
Proof. intros H12 H23 a s y Ha Hy. by rewrite (H23 a s y), (H12 a s y). Qed.

(** [sbrk] gives the memory for [nu] headers. *)
Definition can_grow (h : heap) (nu : Z) : Prop :=
  hp_brk h + HDR * nu < KERNBASE ∧ grows (hp_brk h) (HDR * nu) = true.
Definition asked (nu : Z) : Z := if nu <? 4096 then 4096 else nu.

Lemma sbrk_run lo h L A nu : heap_ok lo h L A → 0 < nu < 2 ^ 28 →
  sbrk (s32 (nu * HDR)) h = Ret (hp_brk h) (set_hp_brk (hp_brk h + HDR * nu) h) ∧ can_grow h nu ∨
  sbrk (s32 (nu * HDR)) h = Ret (-1) h ∧ ¬ can_grow h nu.
Proof.
  intros Hh Hnu. pose proof (ho_brk _ _ _ _ Hh). pose proof (ho_base _ _ _ _ Hh). unfold sbrk.
  rewrite s32_small by (unfold HDR; lia). rewrite (K_bind_Ret _ _ h (hp_brk h) h) by done.
  rewrite (proj2 (Z.ltb_lt 0 (nu * HDR))) by (unfold HDR; lia). rewrite u32_small by (unfold HDR in *; lia).
  rewrite (Z.mul_comm nu HDR). unfold can_grow. destruct (Z.ltb_spec (hp_brk h + HDR * nu) KERNBASE); cbn [andb].
  - destruct (grows _ _); [by left|right]. split; [done|]. by intros [_ ?].
  - right. split; [done|]. lia.
Qed.

(** The new memory as a block in use. *)
Lemma extend_ok lo h L A nu : heap_ok lo h L A → 0 < nu → can_grow h nu →
  let h' := set_hp_mem (<[hp_brk h:=Header (from_option h_ptr 0 (hp_mem h !! hp_brk h)) nu]> (hp_mem h))
    (set_hp_brk (hp_brk h + HDR * nu) h) in
  A !! hp_brk h = None ∧ heap_ok lo h' L (<[hp_brk h:=nu]> A) ∧ same_live A h h'.
Proof.
  intros Hh Hnu [Hmax _] h'. pose proof (ho_brk _ _ _ _ Hh) as Hb. pose proof (ho_base _ _ _ _ Hh) as Hb0. set (k := hp_brk h) in *.
  assert (Hlive : ∀ a s, A !! a = Some s → lo ≤ a ∧ 0 < s ∧ a + HDR * s ≤ k) by (intros a s Ha; by destruct (ho_live _ _ _ _ Hh a s Ha) as (? & ? & ? & _)).
  assert (Hfree : ∀ a s, (a, s) ∈ L → 0 < s ∧ a + HDR * s ≤ k) by (intros a s Ha; by destruct (asc_in _ _ _ _ _ (ho_asc _ _ _ _ Hh) Ha) as (_ & ? & ?)).
  assert (Hm : ∀ y, y < k → hp_mem h' !! y = hp_mem h !! y) by (intros y Hy; cbn; rewrite lookup_insert_ne by lia; done).
  assert (Hsame : same_live A h h') by (intros a s y Ha Hy; apply Hm; destruct (Hlive a s Ha); lia).
  split; [destruct (A !! k) as [s|] eqn:E; [|done]; destruct (Hlive k s E); unfold HDR in *; lia|]. split; [|done]. split.
  - done.
  - eapply lseg_frame; [|apply Hh]. intros b t [[= -> ->]|Hbt]%elem_of_cons; apply Hm; [unfold HDR in *; lia|].
    destruct (Hfree b t Hbt). unfold HDR in *. lia.
  - cbn. eapply asc_weaken; [apply Hh|done|unfold HDR; lia].
  - cbn. unfold KERNBASE, HDR in *. lia.
  - apply Hh.
  - intros a s [[<- <-]|[Hne Ha]]%lookup_insert_Some; cbn.
    + rewrite lookup_insert_eq. split_and!; [lia|done|lia|done].
    + destruct (ho_live _ _ _ _ Hh a s Ha) as (? & ? & ? & ?). rewrite lookup_insert_ne by done. split_and!; try done. unfold HDR in *. fold k in H1. lia.
  - intros a s b t [[<- <-]|[Hne Ha]]%lookup_insert_Some [[<- <-]|[Hne' Hbt]]%lookup_insert_Some ?; try done.
    + right. by apply Hlive.
    + left. by apply Hlive.
    + by apply (ho_apart _ _ _ _ Hh).
  - intros a s b t [[<- <-]|[Hne Ha]]%lookup_insert_Some Hbt; [right; by apply Hfree|]. by apply (ho_free _ _ _ _ Hh).
Qed.

Lemma morecore_ok lo h L A nu : heap_ok lo h L A → 0 < nu < 2 ^ 28 →
  (morecore nu h = Ret 0 h ∧ ¬ can_grow h (asked nu)) ∨
  ∃ h' L', morecore nu h = Ret (hp_freep h') h' ∧ heap_ok lo h' L' A ∧ same_live A h h' ∧
    (length L' ≤ S (length L))%nat ∧ ∃ b t, (b, t) ∈ L' ∧ nu ≤ t.
Proof.
  intros Hh Hnu. unfold morecore. fold (asked nu). assert (Ha : nu ≤ asked nu ∧ 0 < asked nu < 2 ^ 28).
  { unfold asked. destruct (Z.ltb_spec nu 4096); lia. }
  destruct (sbrk_run lo h L A (asked nu) Hh) as [[Hs Hg]|[Hs Hg]]; [lia| |left]; rewrite (K_bind_Ret _ _ _ _ _ Hs); [right|done].
  pose proof (ho_brk _ _ _ _ Hh). pose proof (ho_base _ _ _ _ Hh). rewrite (proj2 (Z.eqb_neq _ _)) by (unfold HDR in *; lia).
  destruct (extend_ok lo h L A (asked nu) Hh) as (Hn & Hh' & Hsame); [lia|done|]. set (h1 := set_hp_mem _ _) in *.
  rewrite (K_bind_Ret _ _ _ tt h1) by apply new_size_run.
  destruct (free_ok lo h1 L _ (hp_brk h) (asked nu) Hh') as (h2 & L2 & Hf & Hh2 & _ & Hs2 & Hl & b & t & Hbt & Ht); [by rewrite lookup_insert_eq|].
  rewrite delete_insert_id in Hh2, Hs2 by done. exists h2, L2. rewrite (K_bind_Ret _ _ _ _ _ Hf).
  split; [done|]. split; [done|]. split; [by eapply same_live_trans|]. split; [done|]. exists b, t. split; [done|lia].
Qed.

(** The header at place [i] points to the block at the place after it. *)
Lemma lseg_next m a B z i x s : lseg m a B z → B !! i = Some (x, s) → m !! x = Some (Header (default z (B.*1 !! S i)) s).
Proof.
  revert a i. induction B as [|[b t] B IH]; intros a i; [done|]. intros (-> & n & Hn & Hs) Hi. destruct i as [|i].
  - injection Hi as -> ->. rewrite Hn. cbn. do 2 f_equal. pose proof (lseg_head _ _ _ _ Hs) as Hh. destruct B as [|[c u] B]; cbn in *; by subst.
  - cbn in Hi. by rewrite (IH n i Hs Hi).
Qed.
Lemma pred_unique m a B z x y s t q :
  lseg m a B z → NoDup (B.*1) → (x, s) ∈ B → (y, t) ∈ B → q ≠ z → m !! x = Some (Header q s) → m !! y = Some (Header q t) → x = y.
Proof.
  intros Hs Hnd [i Hi]%list_elem_of_lookup [j Hj]%list_elem_of_lookup Hq Hx Hy.
  rewrite (lseg_next _ _ _ _ _ _ _ Hs Hi) in Hx. rewrite (lseg_next _ _ _ _ _ _ _ Hs Hj) in Hy. injection Hx as Hx. injection Hy as Hy.
  destruct (B.*1 !! S i) as [qi|] eqn:Ei; [|done]. destruct (B.*1 !! S j) as [qj|] eqn:Ej; [|done]. cbn in Hx, Hy. subst.
  assert (S i = S j) as [= ->] by (by eapply NoDup_lookup). rewrite Hi in Hj. by injection Hj.
Qed.

(** The loop of [malloc] at a block that fits. *)
Lemma alloc_at lo h L A fuel n prevp sp q t :
  heap_ok lo h L A → 0 < n ≤ t → (q, t) ∈ L → (prevp, sp) ∈ (base, 0) :: L → hp_mem h !! prevp = Some (Header q sp) →
  ∃ a h', malloc_loop (S fuel) n prevp q h = Ret (a + HDR) h' ∧ allocated_block lo A n h a h'.
Proof.
  intros Hh Hn Hq Hp Hm. pose proof (ho_seg _ _ _ _ Hh) as Hs. pose proof (ho_base _ _ _ _ Hh) as Hb0.
  destruct (asc_in _ _ _ _ _ (ho_asc _ _ _ _ Hh) Hq) as (Hqlo & _). apply list_elem_of_split in Hq as (X & Y & ->).
  destruct (last_split ((base, 0) :: X)) as (P & s & EP); [done|]. set (pv := last_addr _) in *.
  assert (Epv : prevp = pv).
  { eapply (pred_unique _ _ _ _ prevp pv sp s q Hs); [by eapply blocks_nodup|done| |unfold HDR in *; lia|done|].
    - change ((base, 0) :: X ++ (q, t) :: Y) with (((base, 0) :: X) ++ (q, t) :: Y). rewrite EP. set_solver.
    - change ((base, 0) :: X ++ (q, t) :: Y) with (((base, 0) :: X) ++ (q, t) :: Y) in Hs. rewrite EP, <- (assoc_L (++)) in Hs.
      apply lseg_app in Hs as (? & _ & -> & ? & Hpv & -> & _). done. }
  subst prevp. cbn [malloc_loop]. destruct (decide (n = t)) as [<-|Hne].
  - destruct (alloc_exact lo h X P pv s q n Y A Hh EP) as (x & h' & Hx & Hxs & Hr & Ha); [lia|]. exists q, h'. split; [|done].
    kstep (gethdr_run h q x Hx). rewrite Hxs, Z.leb_refl, Z.eqb_refl. exact Hr.
  - destruct (alloc_split lo h X pv s q t n Y A Hh) as (x & h' & Hx & Hxs & Hr & Ha); [rewrite EP; set_solver|lia|]. eexists _, h'. split; [|done].
    kstep (gethdr_run h q x Hx). rewrite Hxs, (proj2 (Z.leb_le n t)) by lia. rewrite (proj2 (Z.eqb_neq t n)) by lia. exact Hr.
Qed.

(** Blocks that are too small are passed. *)
Lemma scan_skip fuel n prevp p p' X h :
  lseg (hp_mem h) p X p' → Forall (λ b, b.2 < n ∧ b.1 ≠ hp_freep h) X →
  malloc_loop (length X + fuel) n prevp p h = malloc_loop fuel n (default prevp (last (X.*1))) p' h.
Proof.
  revert prevp p. induction X as [|[a s] X IH]; intros prevp p; [by intros -> _|].
  intros (-> & x & Hx & Hs) [[Hsn Hf] HX]%Forall_cons. cbn in Hsn, Hf. cbn [length Nat.add malloc_loop]. kstep (gethdr_run h a _ Hx).
  cbn [h_size h_ptr]. rewrite (proj2 (Z.leb_gt n s)) by lia. rewrite (K_bind_Ret _ _ h (hp_freep h) h) by done.
  rewrite (proj2 (Z.eqb_neq a (hp_freep h))) by done. rewrite (IH a x Hs HX). cbn. by destruct X as [|[b t] X]; cbn; [|destruct (last (b :: X.*1)) eqn:El; [|apply last_None in El]].
Qed.

(** The ring of blocks, seen from the block after [freep]. *)
Lemma ring_from lo h L A : heap_ok lo h L A →
  ∃ s n1 R, hp_mem h !! hp_freep h = Some (Header n1 s) ∧ lseg (hp_mem h) n1 R (hp_freep h) ∧
    Forall (λ b, b.1 ≠ hp_freep h) R ∧ R ++ [(hp_freep h, s)] ≡ₚ (base, 0) :: L.
Proof.
  intros Hh. pose proof (ho_seg _ _ _ _ Hh) as Hs. pose proof (blocks_nodup _ _ _ _ Hh) as Hnd.
  pose proof (ho_freep _ _ _ _ Hh : hp_freep h ∈ ((base, 0) :: L).*1) as Hf. set (B := (base, 0) :: L) in *. set (f := hp_freep h) in *.
  apply list_elem_of_fmap in Hf as ([f' s] & E & (U & W & EB)%list_elem_of_split). cbn in E. subst f'. rewrite EB in Hs, Hnd |- *.
  apply lseg_app in Hs as (? & HU & -> & n1 & Hn1 & HW). exists s, n1, (W ++ U). split; [done|].
  split; [apply lseg_app; by exists base|]. split.
  - rewrite fmap_app in Hnd. apply NoDup_app in Hnd as (_ & H1 & [H2 _]%NoDup_cons). apply Forall_forall. intros [b t] Hb E. cbn in E. subst b.
    apply elem_of_app in Hb as [Hb|Hb]; [apply H2|apply (H1 f); [|left]]; apply list_elem_of_fmap; by exists (f, t).
  - solve_Permutation.
Qed.

Lemma lseg_last m a X q : X ≠ [] → lseg m a X q → ∃ p s, last (X.*1) = Some p ∧ (p, s) ∈ X ∧ m !! p = Some (Header q s).
Proof.
  intros HX. destruct X as [|[p s] X _] using rev_ind; [done|]. intros (c & _ & -> & n & Hn & <-)%lseg_app. exists p, s.
  rewrite fmap_app. cbn. rewrite last_snoc. split_and!; [done|set_solver|done].
Qed.
Lemma first_fit (n : Z) (R : list (Z * Z)) : (∃ b t, (b, t) ∈ R ∧ n ≤ t) →
  ∃ X q t Y, R = X ++ (q, t) :: Y ∧ n ≤ t ∧ Forall (λ b, b.2 < n) X.
Proof.
  induction R as [|[a s] R IH]; intros (b & t & Hb & Ht); [by apply elem_of_nil in Hb|].
  destruct (decide (n ≤ s)); [by exists [], a, s, R|]. apply elem_of_cons in Hb as [[= -> ->]|Hb]; [done|].
  destruct IH as (X & q & u & Y & -> & ? & ?); [by exists b, t|]. exists ((a, s) :: X), q, u, Y. split_and!; [done|done|].
  constructor; [cbn; lia|done].
Qed.

(** A round of the list finds the first block that fits. *)
Lemma scan_fit lo h L A fuel n n1 s1 :
  heap_ok lo h L A → hp_mem h !! hp_freep h = Some (Header n1 s1) → 0 < n → (∃ b t, (b, t) ∈ L ∧ n ≤ t) → (S (length L) ≤ fuel)%nat →
  ∃ a h', malloc_loop fuel n (hp_freep h) n1 h = Ret (a + HDR) h' ∧ allocated_block lo A n h a h'.
Proof.
  intros Hh Hn1 Hn (b & t & Hb & Ht) Hfuel. destruct (ring_from _ _ _ _ Hh) as (s & n2 & R & Hf & HR & Hne & Hperm). set (f := hp_freep h) in *.
  rewrite Hf in Hn1. injection Hn1 as -> ->. destruct (first_fit n (R ++ [(f, s1)])) as (X & q & u & Y & E & Hu & HX).
  { exists b, t. rewrite Hperm. split; [by right|done]. }
  assert (Hlen : length (X ++ (q, u) :: Y) = S (length L)) by (rewrite <- E; by rewrite Hperm). rewrite length_app in Hlen. cbn in Hlen.
  assert (HXf : Forall (λ b, b.1 ≠ f) X).
  { destruct Y as [|y Y _] using rev_ind; [by apply app_inj_tail in E as [<- _]|].
    rewrite app_comm_cons, (assoc_L (++)) in E. apply app_inj_tail in E as [-> _]. by apply Forall_app in Hne as [? _]. }
  assert (Hall : lseg (hp_mem h) f ((f, s1) :: X ++ (q, u) :: Y) n1).
  { rewrite <- E. split; [done|]. exists n1. split; [done|]. apply lseg_app. exists f. split; [done|]. split; [done|]. by exists n1. }
  change ((f, s1) :: X ++ (q, u) :: Y) with (((f, s1) :: X) ++ (q, u) :: Y) in Hall. apply lseg_app in Hall as (? & Hx & -> & _).
  assert (Hin : ∀ y, y ∈ (f, s1) :: X → y ∈ (base, 0) :: L).
  { intros y [->|Hy]%elem_of_cons; rewrite <- Hperm; [set_solver|]. rewrite E. set_solver. }
  destruct (lseg_last (hp_mem h) f ((f, s1) :: X) q ltac:(done) Hx) as (p & sp & Hlast & Hp & Hpq). destruct Hx as (_ & n2 & Hn2 & Hx). rewrite Hf in Hn2. injection Hn2 as <-.
  replace fuel with (length X + S (fuel - S (length X)))%nat by lia. rewrite (scan_skip _ n f n1 q X h Hx).
  2:{ apply Forall_and. by split. }
  replace (default f (last X.*1)) with p. 2:{ cbn in Hlast. destruct (X.*1) as [|x l]; cbn in *; [congruence|by rewrite Hlast]. }
  apply (alloc_at lo h L A _ n p sp q u Hh); [lia| |by apply Hin|done].
  assert (Hq : (q, u) ∈ (base, 0) :: L) by (rewrite <- Hperm, E; set_solver). apply elem_of_cons in Hq as [[= -> ->]|Hq]; [lia|done].
Qed.

(** The result of [malloc] for [n] headers. *)
Definition malloc_result (lo : Z) (A : gmap Z Z) (n : Z) (h : heap) (r : Z) (h' : heap) : Prop :=
  (r = 0 ∧ ¬ can_grow h (asked n) ∧ same_live A h h' ∧ ∃ L', heap_ok lo h' L' A) ∨
  (r ≠ 0 ∧ allocated_block lo A n h (r - HDR) h').

Lemma allocated_result lo A n h0 h a h' : same_live A h0 h → 0 < lo → allocated_block lo A n h a h' → malloc_result lo A n h0 (a + HDR) h'.
Proof.
  intros H0 Hlo (Ha & Hs & L' & HL). right. destruct (ho_live _ _ _ _ HL a n) as (? & _); [by rewrite lookup_insert_eq|].
  replace (a + HDR - HDR) with a by lia. split; [unfold HDR in *; lia|]. split; [done|]. split; [by eapply same_live_trans|by exists L'].
Qed.

Lemma malloc_loop_ok lo h L A fuel n n1 s1 :
  heap_ok lo h L A → hp_mem h !! hp_freep h = Some (Header n1 s1) → 0 < n < 2 ^ 28 → (2 * S (length L) + 1 ≤ fuel)%nat →
  ∃ r h', malloc_loop fuel n (hp_freep h) n1 h = Ret r h' ∧ malloc_result lo A n h r h'.
Proof.
  intros Hh Hn1 Hn Hfuel. pose proof (ho_base _ _ _ _ Hh) as Hb0.
  destruct (decide (Exists (λ b, n ≤ b.2) L)) as [HE|HE].
  { apply Exists_exists in HE as ([b t] & Hb & Ht). destruct (scan_fit lo h L A fuel n n1 s1 Hh Hn1) as (a & h' & Hr & Ha); [lia|by exists b, t|lia|].
    exists (a + HDR), h'. split; [done|]. apply (allocated_result _ _ _ _ h); [done|unfold HDR in *; lia|done]. }
  apply not_Exists_Forall in HE; [|intros b; apply _]. destruct (ring_from _ _ _ _ Hh) as (s & n2 & R & Hf & HR & Hne & Hperm). set (f := hp_freep h) in *.
  rewrite Hf in Hn1. injection Hn1 as -> ->.
  assert (Hsmall : Forall (λ b, b.2 < n) (R ++ [(f, s1)])).
  { rewrite Hperm. constructor; [cbn; lia|]. eapply Forall_impl; [exact HE|]. cbn. lia. }
  apply Forall_app in Hsmall as [HRs [Hs1 _]%Forall_cons]. cbn in Hs1.
  assert (Hlen : length (R ++ [(f, s1)]) = S (length L)) by (by rewrite Hperm). rewrite length_app in Hlen. cbn in Hlen.
  replace fuel with (length R + S (fuel - S (length R)))%nat by lia. rewrite (scan_skip _ n f n1 f R h HR) by (apply Forall_and; by split).
  cbn [malloc_loop]. kstep (gethdr_run h f _ Hf). cbn [h_size h_ptr]. rewrite (proj2 (Z.leb_gt n s1)) by lia.
  rewrite (K_bind_Ret _ _ h f h) by done. rewrite Z.eqb_refl.
  destruct (morecore_ok lo h L A n Hh Hn) as [[Hm Hg]|(h2 & L2 & Hm & Hh2 & Hs2 & Hl2 & Hfit)]; rewrite (K_bind_Ret _ _ _ _ _ Hm).
  { exists 0, h. split; [done|]. left. split_and!; [done|done|done|by exists L]. }
  assert (Hf2 : 0 < hp_freep h2).
  { pose proof (ho_freep _ _ _ _ Hh2) as [->|Hin]%elem_of_cons; [lia|]. apply list_elem_of_fmap in Hin as ([b t] & -> & Hb).
    destruct (asc_in _ _ _ _ _ (ho_asc _ _ _ _ Hh2) Hb). unfold HDR in *. cbn. lia. }
  rewrite (proj2 (Z.eqb_neq (hp_freep h2) 0)) by lia. destruct (ring_from _ _ _ _ Hh2) as (s2 & n2 & _ & Hf2' & _).
  kstep (gethdr_run h2 _ _ Hf2'). cbn [h_ptr]. destruct (scan_fit lo h2 L2 A (fuel - S (length R)) n n2 s2 Hh2 Hf2') as (a & h' & Hr & Ha); [lia|done|lia|].
  exists (a + HDR), h'. split; [done|]. apply (allocated_result _ _ _ _ h2); [done|unfold HDR in *; lia|done].
Qed.

(** ** A program that uses the allocator *)

(** The headers that [malloc] takes for [nbytes]. *)
Definition units (nbytes : Z) : Z := (nbytes + HDR - 1) / HDR + 1.

Lemma units_spec n : 0 ≤ n < 2 ^ 31 - 16 → u32 (n + HDR - 1) / HDR + 1 = units n ∧ 0 < units n < 2 ^ 28 ∧ n ≤ HDR * (units n - 1).
Proof.
  intros Hn. unfold units. rewrite u32_small by (unfold HDR; lia). split; [done|]. unfold HDR. split; [|].
  - pose proof (Z.div_pos (n + 8 - 1) 8). pose proof (Z.div_lt_upper_bound (n + 8 - 1) 8 (2 ^ 28 - 1)). lia.
  - pose proof (Z.mul_succ_div_gt (n + 8 - 1) 8). lia.
Qed.

(** [free] is called with a block in use; the program writes what it likes after
    the headers of its blocks. *)
Inductive ustep : heap * gmap Z Z → heap * gmap Z Z → Prop :=
  | us_malloc h A n r h' : 0 ≤ n < 2 ^ 31 - 16 → malloc n h = Ret r h' →
      ustep (h, A) (h', if r =? 0 then A else <[r - HDR:=units n]> A)
  | us_free h A a s h' : A !! a = Some s → free (a + HDR) h = Ret tt h' → ustep (h, A) (h', delete a A)
  | us_write h A a s y x : A !! a = Some s → a + HDR ≤ y < a + HDR * s →
      ustep (h, A) (set_hp_mem (<[y:=x]> (hp_mem h)) h, A).

(** Before the first call of [malloc]. *)
Definition heap_start (lo : Z) (h : heap) : Prop :=
  0 < base ∧ base + HDR ≤ lo ∧ hp_freep h = 0 ∧ hp_brk h = lo ∧ lo < 2 ^ 31.
Definition heap_inv (lo : Z) (h : heap) (A : gmap Z Z) : Prop :=
  heap_start lo h ∧ A = ∅ ∨ ∃ L, heap_ok lo h L A.

Lemma heap_first lo h : heap_start lo h →
  heap_ok lo (set_hp_freep base (set_hp_mem (<[base:=Header base 0]> (hp_mem h)) h)) [] ∅.
Proof.
  intros (? & ? & ? & ? & ?). split; try done; cbn.
  - split; [done|]. exists base. by rewrite lookup_insert_eq.
  - lia.
  - lia.
  - left.
Qed.

Lemma malloc_ok lo h A n : heap_inv lo h A → 0 ≤ n < 2 ^ 31 - 16 →
  ∃ r h', malloc n h = Ret r h' ∧ malloc_result lo A (units n) h r h'.
Proof.
  intros Hi Hn. destruct (units_spec n Hn) as (Eu & Hu & _). unfold malloc. rewrite Eu. rewrite (K_bind_Ret _ _ h (hp_freep h) h) by done.
  assert (∃ h0 L, (if hp_freep h =? 0 then puthdr base (Header base 0);; modify (set_hp_freep base);; mret base else mret (hp_freep h)) h
    = Ret (hp_freep h0) h0 ∧ heap_ok lo h0 L A ∧ same_live A h h0 ∧ hp_brk h0 = hp_brk h) as (h0 & L & E & Hh & Hs & Hb).
  { destruct Hi as [[Hs ->]|[L Hh]].
    - eexists _, []. split; [|split; [by apply heap_first|by split]]. destruct Hs as (_ & _ & -> & _). done.
    - exists h, L. split; [|by split_and!]. destruct (Z.eqb_spec (hp_freep h) 0) as [E|]; [|done]. exfalso.
      pose proof (ho_base _ _ _ _ Hh) as ?. pose proof (ho_freep _ _ _ _ Hh) as Hf. rewrite E in Hf.
      apply elem_of_cons in Hf as [?|Hin]; [lia|]. apply list_elem_of_fmap in Hin as ([b t] & Eb & Hb).
      destruct (asc_in _ _ _ _ _ (ho_asc _ _ _ _ Hh) Hb). unfold HDR in *. cbn in Eb. lia. }
  rewrite (K_bind_Ret _ _ _ _ _ E). destruct (ring_from _ _ _ _ Hh) as (s1 & n1 & _ & Hf & _). kstep (gethdr_run h0 _ _ Hf). cbn [h_ptr].
  rewrite (K_bind_Ret _ _ h0 (size (hp_mem h0)) h0) by done. pose proof (heap_length _ _ _ _ Hh).
  destruct (malloc_loop_ok lo h0 L A (2 * size (hp_mem h0) + 4) (units n) n1 s1 Hh Hf Hu) as (r & h' & Hr & Hres); [lia|].
  exists r, h'. split; [done|]. unfold malloc_result, allocated_block, can_grow in *. rewrite Hb in Hres.
  destruct Hres as [(? & ? & ? & ?)|(? & ? & ? & ?)]; [left|right]; split_and!; try done; by eapply same_live_trans.
Qed.

Lemma write_ok lo h L A a s y x : heap_ok lo h L A → A !! a = Some s → a + HDR ≤ y < a + HDR * s →
  heap_ok lo (set_hp_mem (<[y:=x]> (hp_mem h)) h) L A.
Proof.
  intros Hh Ha Hy. assert (Hm : ∀ b, b ≠ y → <[y:=x]> (hp_mem h) !! b = hp_mem h !! b) by (intros; by rewrite lookup_insert_ne).
  split; try apply Hh.
  - eapply lseg_frame; [|apply Hh]. intros b t Hb. apply Hm. apply not_eq_sym. eapply (start_free lo h L A a s b t); [done|done|done|].
    unfold HDR in *. lia.
  - intros b t Hb. destruct (ho_live _ _ _ _ Hh b t Hb) as (? & ? & ? & ?). cbn. rewrite Hm; [done|]. intros ->.
    destruct (decide (a = y)) as [->|Hne]; [unfold HDR in *; lia|]. pose proof (ho_apart _ _ _ _ Hh a s y t Ha Hb Hne). unfold apart, HDR in *. lia.
Qed.

Lemma ustep_inv lo x y : ustep x y → heap_inv lo x.1 x.2 → heap_inv lo y.1 y.2.
Proof.
  intros [h A n r h' Hn Hr|h A a s h' Ha Hr|h A a s z v Ha Hz]; cbn; intros Hi.
  - destruct (malloc_ok lo h A n Hi Hn) as (r' & h'' & Hr' & Hres). rewrite Hr in Hr'. injection Hr' as <- <-. right.
    destruct Hres as [(-> & _ & _ & L' & HL)|(Hne & _ & _ & L' & HL)]; [by exists L'|]. rewrite (proj2 (Z.eqb_neq r 0)) by done. by exists L'.
  - destruct Hi as [[_ ->]|[L Hh]]; [done|]. destruct (free_ok lo h L A a s Hh Ha) as (h2 & L' & Hf & Hh' & _). rewrite Hr in Hf.
    injection Hf as <-. right. by exists L'.
  - destruct Hi as [[_ ->]|[L Hh]]; [done|]. right. exists L. by eapply write_ok.
Qed.

(** C28: whatever a program does with [malloc], for sizes below [2 ^ 31 - 16],
    with [free] of blocks it holds and with the bytes of its blocks, the
    blocks it holds lie between the first break and the current one and do not
    overlap; [malloc] returns, either 0 because [sbrk] refused, or a block of
    at least [n] bytes that overlaps none of the others; [free] of a block
    returns; and neither changes a byte of the blocks that stay in use. *)
Theorem malloc_safe lo h0 h A :
  heap_start lo h0 → rtc ustep (h0, ∅) (h, A) →
  (∀ a s, A !! a = Some s → lo ≤ a ∧ 0 < s ∧ a + HDR * s ≤ hp_brk h) ∧
  (∀ a s b t, A !! a = Some s → A !! b = Some t → a ≠ b → apart a s b t) ∧
  (∀ n, 0 ≤ n < 2 ^ 31 - 16 → ∃ r h', malloc n h = Ret r h' ∧ same_live A h h' ∧
    (r = 0 ∧ ¬ can_grow h (asked (units n)) ∨
     lo ≤ r - HDR ∧ r + n ≤ hp_brk h' ∧ ∀ b t, A !! b = Some t → r + n ≤ b ∨ b + HDR * t ≤ r - HDR)) ∧
  (∀ a s, A !! a = Some s → ∃ h', free (a + HDR) h = Ret tt h' ∧ same_live (delete a A) h h').
Proof.
  intros H0 Hsteps. assert (Hi : heap_inv lo h A).
  { change (heap_inv lo (h, A).1 (h, A).2). remember (h, A) as y. assert (Hx : heap_inv lo (h0, (∅ : gmap Z Z)).1 (h0, (∅ : gmap Z Z)).2) by (by left).
    clear Heqy H0. induction Hsteps as [|x y z Hxy _ IH]; [done|]. by eapply IH, ustep_inv. }
  split; [|split; [|split]].
  - destruct Hi as [[_ ->]|[L Hh]]; [done|]. intros a s Ha. by destruct (ho_live _ _ _ _ Hh a s Ha) as (? & ? & ? & _).
  - destruct Hi as [[_ ->]|[L Hh]]; [done|]. apply Hh.
  - intros n Hn. destruct (malloc_ok lo h A n Hi Hn) as (r & h' & Hr & Hres). destruct (units_spec n Hn) as (_ & Hu & Hfit). exists r, h'. split; [done|].
    destruct Hres as [(-> & ? & ? & _)|(Hne & Hnew & Hs & L' & HL)]; [split; [done|by left]|]. split; [done|]. right.
    destruct (ho_live _ _ _ _ HL (r - HDR) (units n)) as (? & _ & ? & _); [by rewrite lookup_insert_eq|].
    split; [done|]. split; [unfold HDR in *; lia|]. intros b t Hb. destruct (decide (r - HDR = b)) as [<-|Hneq]; [congruence|].
    pose proof (ho_apart _ _ _ _ HL (r - HDR) (units n) b t) as Hap. rewrite lookup_insert_eq, lookup_insert_ne in Hap by done.
    specialize (Hap eq_refl Hb Hneq). unfold apart, HDR in *. lia.
  - destruct Hi as [[_ ->]|[L Hh]]; [done|]. intros a s Ha. destruct (free_ok lo h L A a s Hh Ha) as (h' & L' & Hf & _ & _ & Hs & _). by exists h'.
Qed.

End umalloc.

(** A program at address 64 whose break is 4096: two blocks are taken and the
    first is given back. *)
Definition ex_heap : heap := Heap ∅ 0 4096.
Definition ex_heap1 : heap := run_state (malloc 64 (λ _ _, true) 100) ex_heap.
Definition ex_heap2 : heap := run_state (malloc 64 (λ _ _, true) 20) ex_heap1.
Definition ex_heap3 : heap := run_state (free 36760) ex_heap2.

Lemma malloc_safe_witness :
  ∃ r h', malloc 64 (λ _ _, true) 50 ex_heap3 = Ret r h' ∧ r ≠ 0 ∧ (r + 50 ≤ 36720 ∨ 36720 + HDR * 4 ≤ r - HDR).
Proof.
  destruct (malloc_safe 64 (λ _ _, true) 4096 ex_heap ex_heap3 {[36720 := 4]}) as (_ & _ & Hm & _).
  - by vm_compute.
  - eapply rtc_l; [apply (us_malloc _ _ ex_heap ∅ 100 36760 ex_heap1); [done|by vm_compute]|].
    eapply rtc_l; [apply (us_malloc _ _ ex_heap1 _ 20 36728 ex_heap2); [done|by vm_compute]|].
    eapply rtc_l; [apply (us_free _ _ ex_heap2 _ 36752 14 ex_heap3); [by vm_compute|by vm_compute]|]. apply rtc_refl.
  - destruct (Hm 50) as (r & h' & Hr & _ & Hres); [lia|]. destruct Hres as [(Er & Hg)|(Hlo & _ & Hap)].
    + exfalso. apply Hg. split; vm_compute; reflexivity.
    + exists r, h'. split; [done|]. split; [unfold HDR in *; lia|]. by apply Hap.
Defined.
