(* ===== verification/Kbd.v ===== *)
(** * Kbd: the keyboard driver (kbd.c, kbd.h)

    [kbdgetc] turns the scan codes of the keyboard into characters.  Its state
    is the static word [shift]; the ports it reads are the arguments [st] and
    [data].  The specification keeps the modifiers as named flags. *)

From Stdlib Require Import ZArith Lia.
From stdpp Require Import base numbers list.
From S2P Require Import Prelude.
Open Scope Z_scope.

Definition KBS_DIB : Z := 1.
Definition SHIFT : Z := Z.shiftl 1 0.
Definition CTL : Z := Z.shiftl 1 1.
Definition ALT : Z := Z.shiftl 1 2.
Definition CAPSLOCK : Z := Z.shiftl 1 3.
Definition NUMLOCK : Z := Z.shiftl 1 4.
Definition SCROLLLOCK : Z := Z.shiftl 1 5.
Definition E0ESC : Z := Z.shiftl 1 6.

Definition KEY_HOME : Z := 0xE0.
Definition KEY_END : Z := 0xE1.
Definition KEY_UP : Z := 0xE2.
Definition KEY_DN : Z := 0xE3.
Definition KEY_LF : Z := 0xE4.
Definition KEY_RT : Z := 0xE5.
Definition KEY_PGUP : Z := 0xE6.
Definition KEY_PGDN : Z := 0xE7.
Definition KEY_INS : Z := 0xE8.
Definition KEY_DEL : Z := 0xE9.

(** [C(x)], as the [uchar] stored in a table. *)
Definition ctl (x : Z) : Z := u8 (x - 64).

(** An initialiser of [uchar[256]]: the first elements, and the designated
    ones; the rest is 0. *)
Definition byte_table (first : list Z) (rest : list (Z * Z)) : list Z :=
  foldr (λ p t, <[Z.to_nat p.1:=p.2]> t) (first ++ replicate (256 - length first) 0) rest.

Definition shiftcode : list Z :=
  byte_table [] [(0x1D, CTL); (0x2A, SHIFT); (0x36, SHIFT); (0x38, ALT); (0x9D, CTL); (0xB8, ALT)].
Definition togglecode : list Z :=
  byte_table [] [(0x3A, CAPSLOCK); (0x45, NUMLOCK); (0x46, SCROLLLOCK)].

Definition extended : list (Z * Z) :=
  [(0xC8, KEY_UP); (0xD0, KEY_DN); (0xC9, KEY_PGUP); (0xD1, KEY_PGDN); (0xCB, KEY_LF); (0xCD, KEY_RT);
   (0x97, KEY_HOME); (0xCF, KEY_END); (0xD2, KEY_INS); (0xD3, KEY_DEL)].

Definition normalmap : list Z :=
  byte_table
    [0; 0x1B; 49; 50; 51; 52; 53; 54;
     55; 56; 57; 48; 45; 61; 8; 9;
     113; 119; 101; 114; 116; 121; 117; 105;
     111; 112; 91; 93; 10; 0; 97; 115;
     100; 102; 103; 104; 106; 107; 108; 59;
     39; 96; 0; 92; 122; 120; 99; 118;
     98; 110; 109; 44; 46; 47; 0; 42;
     0; 32; 0; 0; 0; 0; 0; 0;
     0; 0; 0; 0; 0; 0; 0; 55;
     56; 57; 45; 52; 53; 54; 43; 49;
     50; 51; 48; 46; 0; 0; 0; 0]
    ((0x9C, 10) :: (0xB5, 47) :: extended).

Definition shiftmap : list Z :=
  byte_table
    [0; 0x1B; 33; 64; 35; 36; 37; 94;
     38; 42; 40; 41; 95; 43; 8; 9;
     81; 87; 69; 82; 84; 89; 85; 73;
     79; 80; 123; 125; 10; 0; 65; 83;
     68; 70; 71; 72; 74; 75; 76; 58;
     34; 126; 0; 124; 90; 88; 67; 86;
     66; 78; 77; 60; 62; 63; 0; 42;
     0; 32; 0; 0; 0; 0; 0; 0;
     0; 0; 0; 0; 0; 0; 0; 55;
     56; 57; 45; 52; 53; 54; 43; 49;
     50; 51; 48; 46; 0; 0; 0; 0]
    ((0x9C, 10) :: (0xB5, 47) :: extended).

Definition ctlmap : list Z :=
  byte_table
    [0; 0; 0; 0; 0; 0; 0; 0;
     0; 0; 0; 0; 0; 0; 0; 0;
     ctl 81; ctl 87; ctl 69; ctl 82; ctl 84; ctl 89; ctl 85; ctl 73;
     ctl 79; ctl 80; 0; 0; 13; 0; ctl 65; ctl 83;
     ctl 68; ctl 70; ctl 71; ctl 72; ctl 74; ctl 75; ctl 76; 0;
     0; 0; 0; ctl 92; ctl 90; ctl 88; ctl 67; ctl 86;
     ctl 66; ctl 78; ctl 77; 0; 0; ctl 47; 0; 0]
    ((0x9C, 13) :: (0xB5, ctl 47) :: extended).

Definition charcode : list (list Z) := [normalmap; shiftmap; ctlmap; ctlmap].

(** The change of case at the end of [kbdgetc]. *)
Definition swap_case (c : Z) : Z :=
  if (97 <=? c) && (c <=? 122) then c + 65 - 97
  else if (65 <=? c) && (c <=? 90) then c + 97 - 65
  else c.

(** [~x] on an [uint]. *)
Definition unot (x : Z) : Z := 2 ^ 32 - 1 - x.

Definition kbdgetc (st data : Z) : K Z Z :=
  if Z.land st KBS_DIB =? 0 then mret (-1) else
  shift ← gets (λ s, s);
  if data =? 0xE0 then modify (λ _, Z.lor shift E0ESC);; mret 0
  else if negb (Z.land data 0x80 =? 0) then
    let data := if negb (Z.land shift E0ESC =? 0) then data else Z.land data 0x7F in
    code ← deref (shiftcode !! Z.to_nat data);
    modify (λ _, Z.land shift (unot (Z.lor code E0ESC)));;
    mret 0
  else
    let esc := negb (Z.land shift E0ESC =? 0) in
    let data := if esc then Z.lor data 0x80 else data in
    let shift := if esc then Z.land shift (unot E0ESC) else shift in
    code ← deref (shiftcode !! Z.to_nat data);
    let shift := Z.lor shift code in
    toggle ← deref (togglecode !! Z.to_nat data);
    let shift := Z.lxor shift toggle in
    modify (λ _, shift);;
    map ← deref (charcode !! Z.to_nat (Z.land shift (Z.lor CTL SHIFT)));
    c ← deref (map !! Z.to_nat data);
    mret (if negb (Z.land shift CAPSLOCK =? 0) then swap_case c else c).

(** ** The keyboard by its keys *)

(** Which modifiers are held, which are on, and whether an escape came last. *)
Record keys : Type := Keys {
  k_shift : bool; k_ctl : bool; k_alt : bool;
  k_caps : bool; k_num : bool; k_scroll : bool;
  k_esc : bool;
}.
Definition word_of (k : keys) : Z :=
  Z.b2z (k_shift k) + 2 * Z.b2z (k_ctl k) + 4 * Z.b2z (k_alt k) + 8 * Z.b2z (k_caps k) +
  16 * Z.b2z (k_num k) + 32 * Z.b2z (k_scroll k) + 64 * Z.b2z (k_esc k).

Definition is_shift (key : Z) : bool := (key =? 0x2A) || (key =? 0x36).
Definition is_ctl (key : Z) : bool := (key =? 0x1D) || (key =? 0x9D).
Definition is_alt (key : Z) : bool := (key =? 0x38) || (key =? 0xB8).

(** Key [key] goes down or up; the high bit of a key says that its code had an
    escape. *)
Definition press (key : Z) (k : keys) : keys :=
  Keys (k_shift k || is_shift key) (k_ctl k || is_ctl key) (k_alt k || is_alt key)
       (xorb (k_caps k) (key =? 0x3A)) (xorb (k_num k) (key =? 0x45)) (xorb (k_scroll k) (key =? 0x46)) false.
Definition release_key (key : Z) (k : keys) : keys :=
  Keys (k_shift k && negb (is_shift key)) (k_ctl k && negb (is_ctl key)) (k_alt k && negb (is_alt key))
       (k_caps k) (k_num k) (k_scroll k) false.
Definition escaped (k : keys) : keys :=
  Keys (k_shift k) (k_ctl k) (k_alt k) (k_caps k) (k_num k) (k_scroll k) true.

(** The character of a key: control wins over shift, caps lock swaps the case
    of letters. *)
Definition key_char (key : Z) (k : keys) : Z :=
  let map := if k_ctl k then ctlmap else if k_shift k then shiftmap else normalmap in
  let c := nth (Z.to_nat key) map 0 in
  if k_caps k then swap_case c else c.

Definition decode (data : Z) (k : keys) : Z * keys :=
  if data =? 0xE0 then (0, escaped k)
  else if 0x80 <=? data then (0, release_key (if k_esc k then data else data - 0x80) k)
  else let key := if k_esc k then data + 0x80 else data in (key_char key (press key k), press key k).

Definition all_keys : list keys :=
  a ← [false; true]; b ← [false; true]; c ← [false; true]; d ← [false; true]; e ← [false; true]; f ← [false; true]; g ← [false; true];
  [Keys a b c d e f g].

#[global] Instance keys_eq_dec : EqDecision keys.
Proof. solve_decision. Defined.

Lemma all_keys_in k : k ∈ all_keys.
Proof. destruct k as [[] [] [] [] [] [] []]; apply (bool_decide_eq_true_1 _); vm_compute; reflexivity. Qed.

(** The driver against the keyboard by its keys, for one code and state. *)
Definition agrees (data : Z) (k : keys) : bool :=
  match kbdgetc KBS_DIB data (word_of k) with
  | Ret c s => (c =? (decode data k).1) && (s =? word_of (decode data k).2) && (0 <=? c) && (c <? 256)
  | _ => false
  end.
Lemma agrees_all : forallb (λ data, forallb (agrees data) all_keys) (seqZ 0 256) = true.
Proof. vm_compute. reflexivity. Qed.

(** A letter, its capital and its control character are on one key. *)
Definition letter_key (key : Z) : bool :=
  let c := nth (Z.to_nat key) normalmap 0 in
  if (97 <=? c) && (c <=? 122)
  then (nth (Z.to_nat key) shiftmap 0 =? c - 32) && (nth (Z.to_nat key) ctlmap 0 =? c - 96)
  else true.
Lemma letter_keys : forallb letter_key (seqZ 0 256) = true.
Proof. vm_compute. reflexivity. Qed.

Lemma forallb_range (f : Z → bool) n : forallb f (seqZ 0 n) = true → ∀ i, 0 ≤ i < n → f i = true.
Proof. intros H i Hi. rewrite forallb_forall in H. apply H, list_elem_of_In, elem_of_seqZ. lia. Qed.

Lemma kbdgetc_run st data k : Z.land st KBS_DIB ≠ 0 → 0 ≤ data < 256 →
  kbdgetc st data (word_of k) = Ret (decode data k).1 (word_of (decode data k).2) ∧ 0 ≤ (decode data k).1 < 256.
Proof.
  intros Hst Hd. pose proof (forallb_range _ 256 agrees_all data Hd) as Ha. rewrite forallb_forall in Ha.
  specialize (Ha k (proj1 (list_elem_of_In _ _) (all_keys_in k))). unfold agrees in Ha.
  assert (E : kbdgetc st data = kbdgetc KBS_DIB data) by (unfold kbdgetc; by rewrite (proj2 (Z.eqb_neq _ _) Hst)). rewrite E.
  destruct (kbdgetc KBS_DIB data (word_of k)) as [c s|msg|on| |]; try done. rewrite !andb_true_iff, !Z.eqb_eq, Z.leb_le, Z.ltb_lt in Ha.
  destruct Ha as [[[-> ->] H0] H1]. split; [done|lia].
Qed.

(** C36: With the modifiers in the bits of one word, [kbdgetc] computes what the
    keyboard by its keys says: for every scan code and every state it stays
    inside its tables, returns the character of the key under the modifiers
    that are held or on (0 for an escape or a release), and updates exactly
    the bits that the key stands for.  A key that types a letter types its
    capital with shift and its control character with control. *)
Theorem kbdgetc_decodes st data k : Z.land st KBS_DIB ≠ 0 → 0 ≤ data < 256 →
  kbdgetc st data (word_of k) = Ret (decode data k).1 (word_of (decode data k).2) ∧
  0 ≤ (decode data k).1 < 256 ∧
  ∀ key, 0 ≤ key < 256 → 97 ≤ nth (Z.to_nat key) normalmap 0 ≤ 122 →
    let c := nth (Z.to_nat key) normalmap 0 in
    nth (Z.to_nat key) shiftmap 0 = c - 32 ∧ nth (Z.to_nat key) ctlmap 0 = c - 96.
Proof.
  intros Hst Hd. destruct (kbdgetc_run st data k Hst Hd) as [E Hr]. split; [done|]. split; [done|].
  intros key Hk Hc. pose proof (forallb_range _ 256 letter_keys key Hk) as Hl.
  unfold letter_key in Hl. rewrite (proj2 (Z.leb_le _ _) (proj1 Hc)), (proj2 (Z.leb_le _ _) (proj2 Hc)) in Hl. cbn [andb] in Hl.
  rewrite andb_true_iff, !Z.eqb_eq in Hl. done.
Qed.

(** The key [a] with shift held types [A]. *)
Lemma kbdgetc_decodes_witness : kbdgetc 1 0x1E (word_of (Keys true false false false false false false)) = Ret 65 1.
Proof.
  destruct (kbdgetc_decodes 1 0x1E (Keys true false false false false false false)) as [H _]; [done|lia|].
  rewrite H. vm_compute. reflexivity.
Defined.
