(* ===== verification/Console.v ===== *)
(** * Console: console.c and uart.c

    The state has the input ring with its three indices, the bytes sent to the
    serial port, the screen memory and the cursor register.  [consoleintr]
    takes the characters that its argument [getc] returns until a negative
    one.  [consoleread] runs in segments that hold the lock, from its start or
    from a wakeup to its end or to the next [sleep]. *)

From Stdlib Require Import ZArith Lia.
From stdpp Require Import base numbers strings list relations.
From S2P Require Import Prelude Ulib.
Open Scope Z_scope.

Definition BACKSPACE : Z := 0x100.
Definition INPUT_BUF : Z := 128.
(** [C(x)]. *)
Definition Ctl (x : Z) : Z := x - 64.

Record console : Type := MkCons {
  in_buf : list Z;
  in_r : Z; (** read index *)
  in_w : Z; (** write index *)
  in_e : Z; (** edit index *)
  co_lock : bool;
  co_locking : bool;
  co_panicked : bool;
  co_uart : bool; (** there is a serial port *)
  co_sent : list Z; (** the bytes sent to it *)
  co_crt : Z → Z; (** the screen memory *)
  co_pos : Z; (** the cursor register *)
  co_woken : bool; (** [wakeup(&input.r)] was called *)
}.
Definition set_in_buf v s := MkCons v (in_r s) (in_w s) (in_e s) (co_lock s) (co_locking s) (co_panicked s) (co_uart s) (co_sent s) (co_crt s) (co_pos s) (co_woken s).
Definition set_in_r v s := MkCons (in_buf s) v (in_w s) (in_e s) (co_lock s) (co_locking s) (co_panicked s) (co_uart s) (co_sent s) (co_crt s) (co_pos s) (co_woken s).
Definition set_in_w v s := MkCons (in_buf s) (in_r s) v (in_e s) (co_lock s) (co_locking s) (co_panicked s) (co_uart s) (co_sent s) (co_crt s) (co_pos s) (co_woken s).
Definition set_in_e v s := MkCons (in_buf s) (in_r s) (in_w s) v (co_lock s) (co_locking s) (co_panicked s) (co_uart s) (co_sent s) (co_crt s) (co_pos s) (co_woken s).
Definition set_co_lock v s := MkCons (in_buf s) (in_r s) (in_w s) (in_e s) v (co_locking s) (co_panicked s) (co_uart s) (co_sent s) (co_crt s) (co_pos s) (co_woken s).
Definition set_co_locking v s := MkCons (in_buf s) (in_r s) (in_w s) (in_e s) (co_lock s) v (co_panicked s) (co_uart s) (co_sent s) (co_crt s) (co_pos s) (co_woken s).
Definition set_co_panicked v s := MkCons (in_buf s) (in_r s) (in_w s) (in_e s) (co_lock s) (co_locking s) v (co_uart s) (co_sent s) (co_crt s) (co_pos s) (co_woken s).
Definition set_co_uart v s := MkCons (in_buf s) (in_r s) (in_w s) (in_e s) (co_lock s) (co_locking s) (co_panicked s) v (co_sent s) (co_crt s) (co_pos s) (co_woken s).
Definition set_co_sent v s := MkCons (in_buf s) (in_r s) (in_w s) (in_e s) (co_lock s) (co_locking s) (co_panicked s) (co_uart s) v (co_crt s) (co_pos s) (co_woken s).
Definition set_co_crt v s := MkCons (in_buf s) (in_r s) (in_w s) (in_e s) (co_lock s) (co_locking s) (co_panicked s) (co_uart s) (co_sent s) v (co_pos s) (co_woken s).
Definition set_co_pos v s := MkCons (in_buf s) (in_r s) (in_w s) (in_e s) (co_lock s) (co_locking s) (co_panicked s) (co_uart s) (co_sent s) (co_crt s) v (co_woken s).
Definition set_co_woken v s := MkCons (in_buf s) (in_r s) (in_w s) (in_e s) (co_lock s) (co_locking s) (co_panicked s) (co_uart s) (co_sent s) (co_crt s) (co_pos s) v.

(** ** Output *)

(** [acquire] and [release] of [cons.lock] by the running processor. *)
Definition cons_acquire : K console unit :=
  l ← gets co_lock;
  if l : bool then panic "acquire" else modify (set_co_lock true).
Definition cons_release : K console unit :=
  l ← gets co_lock;
  if l : bool then modify (set_co_lock false) else panic "release".

(** uart.c: the wait for the status bit ends after 128 rounds. *)
Definition uartputc (c : Z) : K console unit :=
  u ← gets co_uart;
  if u : bool then modify (λ s, set_co_sent (co_sent s ++ [u8 c]) s) else mret tt.

(** Screen memory: one cell, the cells from [a] to [b], and the lines moved up. *)
Definition put_cell (i v : Z) (crt : Z → Z) : Z → Z := λ j, if j =? i then v else crt j.
Definition clear_cells (a b : Z) (crt : Z → Z) : Z → Z := λ j, if (a <=? j) && (j <? b) then 0 else crt j.
Definition scroll_cells (crt : Z → Z) : Z → Z := λ j, if (0 <=? j) && (j <? 23 * 80) then crt (j + 80) else crt j.

Definition cgaputc (c : Z) : K console unit :=
  pos ← gets co_pos;
  pos ← (if c =? NEWLINE then mret (pos + (80 - pos mod 80))
         else if c =? BACKSPACE then mret (if 0 <? pos then pos - 1 else pos)
         else
           modify (λ s, set_co_crt (put_cell pos (Z.lor (Z.land c 255) 0x0700) (co_crt s)) s);;
           mret (pos + 1));
  if (pos <? 0) || (25 * 80 <? pos) then panic "pos under/overflow" else
  pos ← (if 24 <=? pos / 80 then
           modify (λ s, set_co_crt (scroll_cells (co_crt s)) s);;
           let pos := pos - 80 in
           modify (λ s, set_co_crt (clear_cells pos (24 * 80) (co_crt s)) s);;
           mret pos
         else mret pos);
  modify (set_co_pos pos);;
  modify (λ s, set_co_crt (put_cell pos (Z.lor 32 0x0700) (co_crt s)) s).

Definition consputc (c : Z) : K console unit :=
  p ← gets co_panicked;
  if p : bool then blocked "panicked" else
  (if c =? BACKSPACE then uartputc 8;; uartputc 32;; uartputc 8 else uartputc c);;
  cgaputc c.

(** The digits of the kernel's [printint] are small letters. *)
Definition cdigits : list Z := [48; 49; 50; 51; 52; 53; 54; 55; 56; 57; 97; 98; 99; 100; 101; 102].
Definition cprintint : Z → Z → bool → option (list Z) := printint_of cdigits.

(** The value of a [char] as an [int]. *)
Definition schar (c : Z) : Z := (c + 128) mod 256 - 128.

Section cprintf.
Context (str : Z → list Z).

(** The characters that the loop of [cprintf] passes to [consputc]. *)
Fixpoint cprintf_loop (fmt argp : list Z) : option (list Z) :=
  match fmt with
  | [] => None
  | ch :: fmt =>
      let c := u8 ch in
      if c =? 0 then Some [] else
      if negb (c =? PERCENT) then cons c <$> cprintf_loop fmt argp else
      match fmt with
      | [] => None
      | ch :: fmt =>
          let c := u8 ch in
          if c =? 0 then Some [] else
          if c =? 100 then
            match argp with
            | a :: argp => out ← cprintint (s32 a) 10 true; app out <$> cprintf_loop fmt argp
            | [] => None
            end
          else if (c =? 120) || (c =? 112) then
            match argp with
            | a :: argp => out ← cprintint (s32 a) 16 false; app out <$> cprintf_loop fmt argp
            | [] => None
            end
          else if c =? 115 then
            match argp with
            | a :: argp => out ← string_arg str a; app (schar <$> out) <$> cprintf_loop fmt argp
            | [] => None
            end
          else if c =? PERCENT then cons PERCENT <$> cprintf_loop fmt argp
          else app [PERCENT; c] <$> cprintf_loop fmt argp
      end
  end.

Definition cprintf (fmt argp : list Z) : K console unit :=
  locking ← gets co_locking;
  (if locking : bool then cons_acquire else mret tt);;
  out ← deref (cprintf_loop fmt argp);
  for_each out consputc;;
  if locking : bool then cons_release else mret tt.
End cprintf.

(** ** Input *)

(** The index of a byte of the ring. *)
Definition slot (i : Z) : nat := Z.to_nat (i mod INPUT_BUF).

(** The loop of [C('U')]; at most the ring is erased. *)
Fixpoint kill_line (fuel : nat) : K console unit :=
  match fuel with
  | O => nofuel
  | S fuel =>
      s ← gets (λ s, s);
      if in_e s =? in_w s then mret tt else
      c ← deref (in_buf s !! slot (u32 (in_e s - 1)));
      if c =? NEWLINE then mret tt else
      modify (set_in_e (u32 (in_e s - 1)));;
      consputc BACKSPACE;;
      kill_line fuel
  end.

(** One round of the loop of [consoleintr], for the [switch] on [c]. *)
Definition input_char (c : Z) : K console unit :=
  s ← gets (λ s, s);
  if c =? Ctl 80 then mret tt
  else if c =? Ctl 85 then kill_line (S (Z.to_nat INPUT_BUF))
  else if (c =? Ctl 72) || (c =? 0x7f) then
    if in_e s =? in_w s then mret tt else
    modify (set_in_e (u32 (in_e s - 1)));;
    consputc BACKSPACE
  else if negb (c =? 0) && (u32 (in_e s - in_r s) <? INPUT_BUF) then
    let c := if c =? CR then NEWLINE else c in
    deref (in_buf s !! slot (in_e s));;
    modify (set_in_buf (<[slot (in_e s):=u8 c]> (in_buf s)));;
    modify (set_in_e (u32 (in_e s + 1)));;
    consputc c;;
    s ← gets (λ s, s);
    if (c =? NEWLINE) || (c =? Ctl 68) || (in_e s =? u32 (in_r s + INPUT_BUF)) then
      modify (set_in_w (in_e s));;
      modify (set_co_woken true)
    else mret tt
  else mret tt.

(** [chars] are the values of [getc] before the first negative one. *)
Definition consoleintr (cs : list Z) : K console unit :=
  cons_acquire;;
  for_each cs input_char;;
  cons_release.

(** A segment of [consoleread]: [target] characters were asked for, [got] are
    stored.  It ends with what it returns, or asleep. *)
Inductive rstep : Type :=
| RDone (ret : Z) (got : list Z)
| RSleep (got : list Z).

Fixpoint read_loop (fuel : nat) (killed : bool) (target : Z) (got : list Z) : K console rstep :=
  let n := target - Z.of_nat (length got) in
  if n <=? 0 then mret (RDone (target - n) got) else
  match fuel with
  | O => nofuel
  | S fuel =>
      s ← gets (λ s, s);
      if in_r s =? in_w s then mret (if killed then RDone (-1) got else RSleep got) else
      c ← deref (in_buf s !! slot (in_r s));
      modify (set_in_r (u32 (in_r s + 1)));;
      if schar c =? Ctl 68 then
        (if n <? target then modify (set_in_r (in_r s)) else mret tt);;
        mret (RDone (target - n) got)
      else
        let got := got ++ [c] in
        if schar c =? NEWLINE then mret (RDone (target - n + 1) got) else read_loop fuel killed target got
  end.

(** At most the ring is read before the next [sleep]. *)
Definition consoleread (killed : bool) (target : Z) (got : list Z) : K console rstep :=
  cons_acquire;;
  r ← read_loop (S (Z.to_nat INPUT_BUF)) killed target got;
  cons_release;;
  mret r.

Definition consolewrite (buf : list Z) : K console Z :=
  cons_acquire;;
  for_each buf (λ c, consputc (Z.land c 0xff));;
  cons_release;;
  mret (Z.of_nat (length buf)).
