(* ===== verification/ConsoleLines.v ===== *)
(** * ConsoleLines: the console as a line editor

    The specification of the input side is a pair: the characters that are
    ready to be read and the line that is being edited.  The ring of console.c
    with its three indices, which wrap around, implements it, for the
    interrupt and for the readers.  The output side keeps the cursor on the
    screen. *)

From Stdlib Require Import ZArith Lia.
From stdpp Require Import base numbers strings list relations.
From S2P Require Import Prelude Ulib Console.
Open Scope Z_scope.

(** ** Output *)

(** The cursor is on one of the first 24 lines. *)
Definition screen_ok (s : console) : Prop := 0 ≤ co_pos s < 24 * 80 ∧ co_panicked s = false.
(** The bytes that a call of [consputc] sends. *)
Definition sends (c : Z) : list Z := if c =? BACKSPACE then [8; 32; 8] else [u8 c].
(** Nothing but the output changed; the cells outside the 24 lines did not. *)
Record printed (cs : list Z) (s s' : console) : Prop := {
  pr_screen : screen_ok s';
  pr_buf : in_buf s' = in_buf s; pr_r : in_r s' = in_r s; pr_w : in_w s' = in_w s; pr_e : in_e s' = in_e s;
  pr_lock : co_lock s' = co_lock s; pr_locking : co_locking s' = co_locking s; pr_woken : co_woken s' = co_woken s;
  pr_uart : co_uart s' = co_uart s;
  pr_sent : co_sent s' = co_sent s ++ (if co_uart s then concat (sends <$> cs) else []);
  pr_cells i : i < 0 ∨ 24 * 80 ≤ i → co_crt s' i = co_crt s i;
}.

Lemma printed_refl s : screen_ok s → printed [] s s.
Proof. intros Hs. split; try done. destruct (co_uart s); by rewrite app_nil_r. Qed.
Lemma printed_trans cs1 cs2 s1 s2 s3 : printed cs1 s1 s2 → printed cs2 s2 s3 → printed (cs1 ++ cs2) s1 s3.
Proof.
  intros [] []. split; try congruence; try done.
  - rewrite pr_sent1, pr_sent0, pr_uart0, fmap_app, concat_app, <- (assoc_L (++)). by destruct (co_uart s1).
  - intros i Hi. by rewrite pr_cells1, pr_cells0.
Qed.

(** The cells that [cgaputc] writes and where it leaves the cursor. *)
Lemma cgaputc_run c s : 0 ≤ co_pos s < 24 * 80 → ∃ crt pos, cgaputc c s = Ret tt (set_co_crt crt (set_co_pos pos s)) ∧
  0 ≤ pos < 24 * 80 ∧ ∀ i, i < 0 ∨ 24 * 80 ≤ i → crt i = co_crt s i.
Proof.
  intros Hp. pose proof (Z.mod_pos_bound (co_pos s) 80 ltac:(lia)) as Hm. pose proof (Z.div_mod (co_pos s) 80 ltac:(lia)) as Hdm.
  assert (Hend : ∀ crt p, 0 ≤ p ≤ 24 * 80 → (∀ i, i < 0 ∨ 24 * 80 ≤ i → crt i = co_crt s i) → ∃ crt' pos,
    ((if (p <? 0) || (25 * 80 <? p) then panic "pos under/overflow" else
     pos ← (if 24 <=? p / 80 then
           modify (λ s, set_co_crt (scroll_cells (co_crt s)) s);;
           let pos := p - 80 in
           modify (λ s, set_co_crt (clear_cells pos (24 * 80) (co_crt s)) s);;
           mret pos
         else mret p);
     modify (set_co_pos pos);;
     modify (λ s, set_co_crt (put_cell pos (Z.lor 32 0x0700) (co_crt s)) s)) : K console unit) (set_co_crt crt s) = Ret tt (set_co_crt crt' (set_co_pos pos s)) ∧
    0 ≤ pos < 24 * 80 ∧ ∀ i, i < 0 ∨ 24 * 80 ≤ i → crt' i = co_crt s i).
  { intros crt p Hpr Hc. rewrite (proj2 (Z.ltb_ge p 0)), (proj2 (Z.ltb_ge (25 * 80) p)) by lia. cbn [orb].
    destruct (Z.leb_spec 24 (p / 80)) as [H24|H24].
    - assert (p = 24 * 80) as ->. { pose proof (Z.mul_div_le p 80). lia. }
      eexists _, _. split; [reflexivity|]. split; [lia|]. intros i Hi. cbn [co_crt set_co_crt set_co_pos]. unfold put_cell, clear_cells, scroll_cells.
      rewrite (proj2 (Z.eqb_neq i _)) by lia. replace ((24 * 80 - 80 <=? i) && (i <? 24 * 80)) with false by (symmetry; apply andb_false_iff; lia).
      replace ((0 <=? i) && (i <? 23 * 80)) with false by (symmetry; apply andb_false_iff; lia). by apply Hc.
    - eexists _, _. split; [reflexivity|]. assert (p < 24 * 80). { pose proof (Z.mul_succ_div_gt p 80). lia. }
      split; [lia|]. intros i Hi. unfold put_cell. cbn [co_crt set_co_crt set_co_pos]. rewrite (proj2 (Z.eqb_neq i _)) by lia. by apply Hc. }
  assert (Es : set_co_crt (co_crt s) s = s) by (by destruct s). unfold cgaputc. rewrite (K_bind_Ret _ _ s (co_pos s) s) by done.
  destruct (c =? NEWLINE).
  { rewrite (K_bind_Ret _ _ s (co_pos s + (80 - co_pos s mod 80)) s) by done. destruct (Hend (co_crt s) (co_pos s + (80 - co_pos s mod 80))) as (crt & pos & H & ?); [|done|].
    - assert (co_pos s / 80 < 24) by (apply Z.div_lt_upper_bound; lia). lia.
    - rewrite Es in H. by exists crt, pos. }
  destruct (c =? BACKSPACE).
  { set (p := if 0 <? co_pos s then co_pos s - 1 else co_pos s). rewrite (K_bind_Ret _ _ s p s) by done.
    destruct (Hend (co_crt s) p) as (crt & pos & H & ?); [unfold p; destruct (Z.ltb_spec 0 (co_pos s)); lia|done|]. rewrite Es in H. by exists crt, pos. }
  set (crt := put_cell (co_pos s) (Z.lor (Z.land c 255) 0x0700) (co_crt s)). rewrite (K_bind_Ret _ _ s (co_pos s + 1) (set_co_crt crt s)) by done.
  apply (Hend crt (co_pos s + 1)); [lia|]. intros i Hi. unfold crt, put_cell. by rewrite (proj2 (Z.eqb_neq i _)) by lia.
Qed.

Lemma uartputc_run c s : uartputc c s = Ret tt (set_co_sent (co_sent s ++ (if co_uart s then [u8 c] else [])) s).
Proof. unfold uartputc. kred. destruct s as [? ? ? ? ? ? ? [] ? ? ? ?]; cbn; by rewrite ?app_nil_r. Qed.
Lemma sends_run c s : (if c =? BACKSPACE then uartputc 8;; uartputc 32;; uartputc 8 else uartputc c) s =
  Ret tt (set_co_sent (co_sent s ++ (if co_uart s then sends c else [])) s).
Proof.
  unfold sends. destruct (c =? BACKSPACE); [|apply uartputc_run]. kstep (uartputc_run 8 s). kstep (uartputc_run 32 (set_co_sent (co_sent s ++ (if co_uart s then [u8 8] else [])) s)).
  rewrite uartputc_run. unfold set_co_sent. cbn. rewrite <- !(assoc_L (++)). by destruct (co_uart s).
Qed.

Lemma consputc_run c s : screen_ok s → ∃ s', consputc c s = Ret tt s' ∧ printed [c] s s'.
Proof.
  intros [Hp Hn]. unfold consputc. rewrite (K_bind_Ret _ _ s (co_panicked s) s) by done. rewrite Hn.
  kstep (sends_run c s). set (s1 := set_co_sent _ s).
  destruct (cgaputc_run c s1 Hp) as (crt & pos & -> & Hpos & Hc). eexists. split; [done|]. split; try done. cbn. by rewrite app_nil_r.
Qed.

Lemma consputc_each cs s : screen_ok s → ∃ s', for_each cs consputc s = Ret tt s' ∧ printed cs s s'.
Proof.
  revert s. induction cs as [|c cs IH]; intros s Hs; [exists s; by split; [|apply printed_refl]|]. cbn [for_each].
  destruct (consputc_run c s Hs) as (s1 & H1 & P1). kstep H1. destruct (IH s1 (pr_screen _ _ _ P1)) as (s2 & H2 & P2).
  exists s2. split; [done|]. by apply (printed_trans [c] cs s s1 s2).
Qed.

(** ** The ring *)

Lemma slot_u32 x : slot (u32 x) = slot x.
Proof. unfold slot, u32, INPUT_BUF. f_equal. rewrite Z.mod_mod_divide; [done|]. exists (2 ^ 25). lia. Qed.
Lemma slot_lt x : (slot x < 128)%nat.
Proof. unfold slot, INPUT_BUF. pose proof (Z.mod_pos_bound x 128). lia. Qed.
Lemma slot_ne r i j : 0 ≤ i < j → j < 128 → slot (r + i) ≠ slot (r + j).
Proof.
  intros Hi Hj E. unfold slot, INPUT_BUF in E. pose proof (Z.mod_pos_bound (r + i) 128). pose proof (Z.mod_pos_bound (r + j) 128).
  assert (E' : (r + i) mod 128 = (r + j) mod 128) by lia. pose proof (Z.div_mod (r + i) 128). pose proof (Z.div_mod (r + j) 128). lia.
Qed.

(** The ring holds [l] from index [r] on. *)
Definition holds (buf : list Z) (r : Z) (l : list Z) : Prop :=
  ∀ i x, l !! i = Some x → buf !! slot (r + Z.of_nat i) = Some x.

Lemma holds_snoc buf r l x : length buf = 128%nat → (length l < 128)%nat → holds buf r l →
  holds (<[slot (r + Z.of_nat (length l)):=x]> buf) r (l ++ [x]).
Proof.
  intros Hb Hl Hh i y [Hi|[Hge Hi]]%lookup_app_Some.
  - pose proof (lookup_lt_Some _ _ _ Hi). rewrite list_lookup_insert_ne; [by apply Hh|]. intros E. symmetry in E. revert E. apply slot_ne; lia.
  - apply list_lookup_singleton_Some in Hi as [Hi ->]. replace i with (length l) by lia. apply list_lookup_insert_eq. rewrite Hb. apply slot_lt.
Qed.
Lemma holds_app buf r l l' : holds buf r (l ++ l') → holds buf r l.
Proof. intros Hh i x Hi. apply Hh. by apply lookup_app_l_Some. Qed.
Lemma holds_cons buf r x l : holds buf r (x :: l) → buf !! slot r = Some x ∧ holds buf (u32 (r + 1)) l.
Proof.
  intros Hh. split; [replace r with (r + Z.of_nat 0) by lia; by apply Hh|]. intros i y Hi. specialize (Hh (S i) y Hi).
  rewrite <- Hh. f_equal. rewrite <- (slot_u32 (u32 (r + 1) + _)), u32_add_l, slot_u32. f_equal. lia.
Qed.

(** ** The line editor *)

Record editor : Type := Editor {
  ed_ready : list Z; (** what readers can take *)
  ed_line : list Z; (** what can still be edited *)
}.

Record edits (s : console) (d : editor) : Prop := {
  es_buf : length (in_buf s) = 128%nat;
  es_r : 0 ≤ in_r s < 2 ^ 32;
  es_w : in_w s = u32 (in_r s + Z.of_nat (length (ed_ready d)));
  es_e : in_e s = u32 (in_r s + Z.of_nat (length (ed_ready d ++ ed_line d)));
  es_fits : (length (ed_ready d ++ ed_line d) ≤ 128)%nat;
  es_holds : holds (in_buf s) (in_r s) (ed_ready d ++ ed_line d);
  es_bytes : Forall is_byte (ed_ready d);
  es_line : Forall (λ c, is_byte c ∧ c ≠ NEWLINE) (ed_line d);
}.

(** The characters that end a line. *)
Definition ends_input (c : Z) : bool := (c =? NEWLINE) || (c =? Ctl 68).

(** A key: what the editor becomes, what is echoed, and whether readers are
    woken. *)
Definition key (c : Z) (d : editor) : editor * list Z * bool :=
  let '(Editor ready line) := d in
  if c =? Ctl 80 then (d, [], false)
  else if c =? Ctl 85 then (Editor ready [], replicate (length line) BACKSPACE, false)
  else if (c =? Ctl 72) || (c =? 0x7f) then
    match line with
    | [] => (d, [], false)
    | _ => (Editor ready (removelast line), [BACKSPACE], false)
    end
  else if negb (c =? 0) && (length (ready ++ line) <? 128)%nat then
    let c := if c =? CR then NEWLINE else c in
    let line := line ++ [c] in
    if ends_input c || (128 <=? length (ready ++ line))%nat then (Editor (ready ++ line) [], [c], true)
    else (Editor ready line, [c], false)
  else (d, [], false).

Lemma u32_sub_len r (n k : nat) : 0 ≤ r < 2 ^ 32 → (n ≤ k ≤ 128)%nat →
  (u32 (r + Z.of_nat k) = u32 (r + Z.of_nat n) ↔ k = n) ∧ u32 (u32 (r + Z.of_nat k) - u32 (r + Z.of_nat n)) = Z.of_nat (k - n).
Proof.
  intros Hr Hn. unfold u32. split.
  - split; [|by intros ->]. intros E. pose proof (Z.div_mod (r + Z.of_nat k) (2 ^ 32)). pose proof (Z.div_mod (r + Z.of_nat n) (2 ^ 32)).
    pose proof (Z.mod_pos_bound (r + Z.of_nat k) (2 ^ 32)). assert ((r + Z.of_nat k) / 2 ^ 32 = (r + Z.of_nat n) / 2 ^ 32); lia.
  - rewrite <- Zminus_mod. replace (r + Z.of_nat k - (r + Z.of_nat n)) with (Z.of_nat (k - n)) by lia. apply Z.mod_small. lia.
Qed.

(** The output [cs] was echoed and readers woken if [woke]; the input may have
    changed. *)
Record echoed (cs : list Z) (woke : bool) (s s' : console) : Prop := {
  ec_screen : screen_ok s';
  ec_lock : co_lock s' = co_lock s; ec_locking : co_locking s' = co_locking s;
  ec_woken : co_woken s' = co_woken s || woke; ec_uart : co_uart s' = co_uart s;
  ec_sent : co_sent s' = co_sent s ++ (if co_uart s then concat (sends <$> cs) else []);
  ec_cells i : i < 0 ∨ 24 * 80 ≤ i → co_crt s' i = co_crt s i;
}.

Lemma echoed_refl s : screen_ok s → echoed [] false s s.
Proof. intros Hs. split; try done; [by rewrite orb_false_r|]. destruct (co_uart s); by rewrite app_nil_r. Qed.
Lemma echoed_trans cs1 cs2 w1 w2 s1 s2 s3 : echoed cs1 w1 s1 s2 → echoed cs2 w2 s2 s3 → echoed (cs1 ++ cs2) (w1 || w2) s1 s3.
Proof.
  intros [] []. split; try congruence; try done.
  - by rewrite ec_woken1, ec_woken0, orb_assoc.
  - rewrite ec_sent1, ec_sent0, ec_uart0, fmap_app, concat_app, <- (assoc_L (++)). by destruct (co_uart s1).
  - intros i Hi. by rewrite ec_cells1, ec_cells0.
Qed.
Lemma printed_echoed cs s s' : printed cs s s' → echoed cs false s s'.
Proof. intros []. split; try done. by rewrite orb_false_r. Qed.
Lemma printed_edits cs s s' d : printed cs s s' → edits s d → edits s' d.
Proof. intros [] []. split; rewrite ?pr_buf0, ?pr_r0, ?pr_w0, ?pr_e0; done. Qed.

(** [input.e--]. *)
Lemma edits_erase s ready line x : edits s (Editor ready (line ++ [x])) → edits (set_in_e (u32 (in_e s - 1)) s) (Editor ready line) ∧
  in_e s ≠ in_w s ∧ in_buf s !! slot (u32 (in_e s - 1)) = Some x.
Proof.
  intros [Hb Hr Hw He Hf Hh Hy Hl]. cbn in *. rewrite (assoc_L (++)), length_app in *. cbn in *.
  split; [|split].
  - split; cbn; try done.
    + rewrite He, u32_sub_l. f_equal. lia.
    + lia.
    + by eapply holds_app.
    + by apply Forall_app in Hl as [? _].
  - rewrite He, Hw. intros E. apply (u32_sub_len _ (length ready) (length (ready ++ line) + 1) Hr) in E; rewrite length_app in *; lia.
  - rewrite <- (Hh (length (ready ++ line)) x) by (apply list_lookup_middle; done). f_equal.
    rewrite He, u32_sub_l, slot_u32. f_equal. lia.
Qed.
Lemma edits_empty s ready : edits s (Editor ready []) → in_e s = in_w s.
Proof. intros [_ _ Hw He _ _ _ _]. cbn in *. rewrite app_nil_r in He. congruence. Qed.

Lemma erase_run s ready line x : edits s (Editor ready (line ++ [x])) → screen_ok s → ∃ s',
  consputc BACKSPACE (set_in_e (u32 (in_e s - 1)) s) = Ret tt s' ∧ edits s' (Editor ready line) ∧ echoed [BACKSPACE] false s s'.
Proof.
  intros Hd Hs. destruct (edits_erase _ _ _ _ Hd) as (Hd1 & _). destruct (consputc_run BACKSPACE (set_in_e (u32 (in_e s - 1)) s)) as (s' & Hp & P); [done|].
  exists s'. split; [done|]. split; [by eapply printed_edits|]. apply printed_echoed in P. by destruct P.
Qed.

Lemma kill_line_run fuel s ready line : edits s (Editor ready line) → screen_ok s → (length line < fuel)%nat → ∃ s',
  kill_line fuel s = Ret tt s' ∧ edits s' (Editor ready []) ∧ echoed (replicate (length line) BACKSPACE) false s s'.
Proof.
  revert s line. induction fuel as [|fuel IH]; intros s line Hd Hs Hl; [lia|]. cbn [kill_line]. rewrite (K_bind_Ret _ _ s s s) by done.
  destruct line as [|x line _] using rev_ind.
  - rewrite (edits_empty _ _ Hd), Z.eqb_refl. exists s. split; [done|]. split; [done|]. by apply echoed_refl.
  - destruct (edits_erase _ _ _ _ Hd) as (_ & Hne & Hx). rewrite (proj2 (Z.eqb_neq _ _) Hne), Hx. cbn [deref]. rewrite (K_bind_Ret _ _ s x s) by done.
    assert (x ≠ NEWLINE) as Hxn. { pose proof (es_line _ _ Hd) as Hf. cbn in Hf. apply Forall_app in Hf as [_ [[_ ?] _]%Forall_cons]. done. }
    rewrite (proj2 (Z.eqb_neq _ _) Hxn). destruct (erase_run _ _ _ _ Hd Hs) as (s1 & H1 & Hd1 & E1). rewrite length_app in *. cbn in Hl.
    destruct (IH s1 line Hd1 (ec_screen _ _ _ _ E1) ltac:(lia)) as (s2 & H2 & Hd2 & E2). exists s2. split; [|split; [done|]].
    + rewrite (K_bind_Ret _ _ s tt (set_in_e (u32 (in_e s - 1)) s)) by done. by kstep H1.
    + cbn [length]. rewrite Nat.add_1_r. by apply (echoed_trans [BACKSPACE] _ false false s s1 s2).
Qed.

(** The line with a new character that may end it. *)
Record added (s : console) (ready line : list Z) (c : Z) : Prop := {
  ad_buf : length (in_buf s) = 128%nat;
  ad_r : 0 ≤ in_r s < 2 ^ 32;
  ad_w : in_w s = u32 (in_r s + Z.of_nat (length ready));
  ad_e : in_e s = u32 (in_r s + Z.of_nat (length (ready ++ line ++ [c])));
  ad_fits : (length (ready ++ line ++ [c]) ≤ 128)%nat;
  ad_holds : holds (in_buf s) (in_r s) (ready ++ line ++ [c]);
  ad_bytes : Forall is_byte (ready ++ line ++ [c]);
  ad_line : Forall (λ c, is_byte c ∧ c ≠ NEWLINE) line;
}.

Lemma added_start s ready line c : edits s (Editor ready line) → (length (ready ++ line) < 128)%nat → is_byte c →
  added (set_in_e (u32 (in_e s + 1)) (set_in_buf (<[slot (in_e s):=u8 c]> (in_buf s)) s)) ready line c.
Proof.
  intros [Hb Hr Hw He Hf Hh Hy Hl] Hlt Hc. cbn in *. assert (u8 c = c) as -> by (apply Z.mod_small; unfold is_byte in Hc; lia).
  split; cbn; try done; rewrite ?length_insert, ?(assoc_L (++)); try done.
  - rewrite He, u32_add_l, (length_app (ready ++ line)). cbn. f_equal. lia.
  - rewrite (length_app (ready ++ line)). cbn. lia.
  - rewrite He, slot_u32. by apply holds_snoc.
  - apply Forall_app. split; [|by apply Forall_singleton]. apply Forall_app. split; [done|]. eapply Forall_impl; [exact Hl|]. cbn. tauto.
Qed.
Lemma added_printed cs s s' ready line c : printed cs s s' → added s ready line c → added s' ready line c.
Proof. intros [] []. split; rewrite ?pr_buf0, ?pr_r0, ?pr_w0, ?pr_e0; done. Qed.
Lemma added_edits s ready line c : added s ready line c → c ≠ NEWLINE → edits s (Editor ready (line ++ [c])).
Proof.
  intros [] Hc. split; try done; cbn.
  - by apply Forall_app in ad_bytes0 as [? _].
  - rewrite !Forall_app in ad_bytes0. destruct ad_bytes0 as (_ & _ & [Hb _]%Forall_cons). apply Forall_app. split; [done|]. by apply Forall_singleton.
Qed.
Lemma added_commit s ready line c : added s ready line c → edits (set_co_woken true (set_in_w (in_e s) s)) (Editor (ready ++ line ++ [c]) []).
Proof. intros []. split; cbn; rewrite ?app_nil_r; try done. Qed.

Lemma input_char_run c s d : edits s d → screen_ok s → is_byte c → ∃ s',
  input_char c s = Ret tt s' ∧ edits s' (key c d).1.1 ∧ echoed (key c d).1.2 (key c d).2 s s'.
Proof.
  intros Hd Hs Hc. destruct d as [ready line]. unfold input_char, key. rewrite (K_bind_Ret _ _ s s s) by done.
  assert (Hnone : ∃ s', (mret tt : K console unit) s = Ret tt s' ∧ edits s' (Editor ready line) ∧ echoed [] false s s') by (exists s; split; [done|]; split; [done|by apply echoed_refl]).
  destruct (c =? Ctl 80); [done|]. destruct (c =? Ctl 85).
  { pose proof (es_fits _ _ Hd) as Hf. cbn in Hf. rewrite length_app in Hf. apply kill_line_run; [done|done|]. unfold INPUT_BUF. lia. }
  destruct ((c =? Ctl 72) || (c =? 0x7f)).
  { destruct line as [|x line _] using rev_ind; [by rewrite (edits_empty _ _ Hd), Z.eqb_refl|].
    destruct (edits_erase _ _ _ _ Hd) as (_ & Hne & _). rewrite (proj2 (Z.eqb_neq _ _) Hne). destruct (erase_run _ _ _ _ Hd Hs) as (s1 & H1 & Hd1 & E1).
    exists s1. rewrite (K_bind_Ret _ _ s tt (set_in_e (u32 (in_e s - 1)) s)) by done. split; [done|].
    assert (Er : removelast (line ++ [x]) = line) by (by rewrite removelast_last). destruct (line ++ [x]) eqn:El; [by destruct line|]. by rewrite Er. }
  assert (Elen : u32 (in_e s - in_r s) = Z.of_nat (length (ready ++ line))).
  { destruct Hd as [_ Hr _ He Hf _ _ _]. cbn in *. destruct (u32_sub_len (in_r s) 0 (length (ready ++ line)) Hr ltac:(lia)) as [_ E].
    rewrite Z.add_0_r, <- He in E. rewrite (u32_small (in_r s)) in E by done. rewrite E. lia. }
  rewrite Elen. unfold INPUT_BUF. replace (Z.of_nat (length (ready ++ line)) <? 128) with (length (ready ++ line) <? 128)%nat.
  2:{ destruct (Nat.ltb_spec (length (ready ++ line)) 128), (Z.ltb_spec (Z.of_nat (length (ready ++ line))) 128); try done; lia. }
  destruct (negb (c =? 0) && (length (ready ++ line) <? 128)%nat) eqn:Ec; [|done]. apply andb_true_iff in Ec as [_ Hlt%Nat.ltb_lt].
  set (c1 := if c =? CR then NEWLINE else c). assert (Hc1 : is_byte c1) by (unfold c1, is_byte, NEWLINE; destruct (c =? CR); [lia|done]).
  destruct (lookup_lt_is_Some_2 (in_buf s) (slot (in_e s))) as [x Hx]; [rewrite (es_buf _ _ Hd); apply slot_lt|]. rewrite Hx. cbn [deref].
  rewrite (K_bind_Ret _ _ s x s) by done. rewrite (K_bind_Ret _ _ s tt (set_in_buf (<[slot (in_e s):=u8 c1]> (in_buf s)) s)) by done.
  pose proof (added_start s ready line c1 Hd Hlt Hc1) as Ha. set (s1 := set_in_e _ _) in Ha. rewrite (K_bind_Ret _ _ _ tt s1) by done.
  destruct (consputc_run c1 s1) as (s2 & H2 & P2); [done|]. kstep H2. rewrite (K_bind_Ret _ _ s2 s2 s2) by done.
  apply (added_printed _ _ _ _ _ _ P2) in Ha. assert (E2 : echoed [c1] false s s2) by (apply printed_echoed in P2; by destruct P2).
  assert (Efull : (in_e s2 =? u32 (in_r s2 + 128)) = (128 <=? length (ready ++ line ++ [c1]))%nat).
  { rewrite (ad_e _ _ _ _ Ha). pose proof (ad_fits _ _ _ _ Ha). destruct (u32_sub_len (in_r s2) (length (ready ++ line ++ [c1])) 128 (ad_r _ _ _ _ Ha) ltac:(lia)) as [E _].
    change (Z.of_nat 128) with 128 in E. destruct (Z.eqb_spec (u32 (in_r s2 + Z.of_nat (length (ready ++ line ++ [c1])))) (u32 (in_r s2 + 128))) as [E'|E'].
    - symmetry in E'. apply E in E'. symmetry. apply Nat.leb_le. lia.
    - symmetry. apply Nat.leb_gt. destruct (decide (128 = length (ready ++ line ++ [c1]))%nat); [|lia]. destruct E'. symmetry. by apply E. }
  rewrite Efull. fold (ends_input c1). destruct (ends_input c1 || (128 <=? length (ready ++ line ++ [c1]))%nat) eqn:Eend.
  - eexists. split; [reflexivity|]. split; [by apply added_commit|]. destruct E2. split; try done. cbn. by rewrite orb_true_r.
  - exists s2. split; [done|]. split; [|done]. apply added_edits; [done|]. intros E. rewrite E in Eend. done.
Qed.

(** Several keys. *)
Fixpoint keys (cs : list Z) (d : editor) : editor * list Z * bool :=
  match cs with
  | [] => (d, [], false)
  | c :: cs =>
      let '(d1, out1, woke1) := key c d in
      let '(d2, out2, woke2) := keys cs d1 in
      (d2, out1 ++ out2, woke1 || woke2)
  end.

Lemma input_chars_run cs s d : edits s d → screen_ok s → Forall is_byte cs → ∃ s',
  for_each cs input_char s = Ret tt s' ∧ edits s' (keys cs d).1.1 ∧ echoed (keys cs d).1.2 (keys cs d).2 s s'.
Proof.
  intros Hd Hs Hcs. revert s d Hd Hs. induction Hcs as [|c cs Hc _ IH]; intros s d Hd Hs; cbn [for_each keys].
  - exists s. split; [done|]. split; [done|by apply echoed_refl].
  - destruct (input_char_run c s d Hd Hs Hc) as (s1 & H1 & Hd1 & E1). kstep H1. destruct (key c d) as [[d1 o1] w1]. cbn in Hd1, E1.
    destruct (IH s1 d1 Hd1 (ec_screen _ _ _ _ E1)) as (s2 & H2 & Hd2 & E2). destruct (keys cs d1) as [[d2 o2] w2]. cbn in *.
    exists s2. split; [done|]. split; [done|]. by eapply echoed_trans.
Qed.

Lemma edits_lock b s d : edits s d → edits (set_co_lock b s) d.
Proof. by intros []. Qed.

Lemma consoleintr_run cs s d : edits s d → screen_ok s → co_lock s = false → Forall is_byte cs → ∃ s',
  consoleintr cs s = Ret tt s' ∧ edits s' (keys cs d).1.1 ∧ echoed (keys cs d).1.2 (keys cs d).2 s s'.
Proof.
  intros Hd Hs Hl Hcs. unfold consoleintr. rewrite (K_bind_Ret _ _ s tt (set_co_lock true s)).
  2:{ unfold cons_acquire. kred. by rewrite Hl. }
  destruct (input_chars_run cs (set_co_lock true s) d) as (s1 & H1 & Hd1 & E1); [by apply edits_lock|done|done|]. kstep H1.
  exists (set_co_lock false s1). split; [|split; [by apply edits_lock|]].
  - unfold cons_release. kred. by rewrite (ec_lock _ _ _ _ E1).
  - destruct E1. split; try done.
Qed.

(** ** Readers *)

(** What a segment of [consoleread] takes from the ready characters. *)
Fixpoint take_ready (killed : bool) (target : Z) (got ready : list Z) : rstep * list Z :=
  let n := Z.of_nat (length got) in
  if target <=? n then (RDone n got, ready) else
  match ready with
  | [] => (if killed then RDone (-1) got else RSleep got, [])
  | c :: rest =>
      if c =? Ctl 68 then (RDone n got, if decide (got = []) then rest else ready)
      else if c =? NEWLINE then (RDone (n + 1) (got ++ [c]), rest)
      else take_ready killed target (got ++ [c]) rest
  end.

Lemma schar_byte c x : is_byte c → 0 ≤ x < 128 → (schar c =? x) = (c =? x).
Proof.
  unfold is_byte, schar. intros Hc Hx. destruct (decide (c < 128)).
  - rewrite Z.mod_small by lia. f_equal. lia.
  - replace ((c + 128) mod 256) with (c - 128) by (apply (Z.mod_unique _ _ 1); lia).
    destruct (Z.eqb_spec (c - 128 - 128) x), (Z.eqb_spec c x); try done; lia.
Qed.

Lemma edits_take s c ready line : edits s (Editor (c :: ready) line) →
  in_r s ≠ in_w s ∧ in_buf s !! slot (in_r s) = Some c ∧ is_byte c ∧ edits (set_in_r (u32 (in_r s + 1)) s) (Editor ready line).
Proof.
  intros [Hb Hr Hw He Hf Hh Hy Hl]. cbn -[Z.of_nat] in *. destruct (holds_cons _ _ _ _ Hh) as [H1 H2]. apply Forall_cons in Hy as [Hc Hy].
  rewrite length_app in Hf. split; [|split; [done|]; split; [done|]].
  - destruct (u32_sub_len (in_r s) 0 (S (length ready)) Hr ltac:(lia)) as [E _]. rewrite Z.add_0_r, (u32_small (in_r s)) in E by done.
    rewrite Hw. intros E'. symmetry in E'. apply E in E'. done.
  - split; cbn -[Z.of_nat]; try done; [apply u32_range|rewrite Hw, u32_add_l; f_equal; lia|rewrite He, u32_add_l; f_equal; lia|rewrite length_app; lia].
Qed.
Lemma edits_none s line : edits s (Editor [] line) → in_r s = in_w s.
Proof. intros [_ Hr Hw _ _ _ _ _]. cbn in Hw. rewrite Z.add_0_r, u32_small in Hw; done. Qed.

(** The state of the input side apart from the read index. *)
Definition only_read (s s' : console) : Prop := s' = set_in_r (in_r s') s.

(** Two returns of equal numbers. *)
Ltac ret_lia := cbn [fst snd]; unfold mret, K_ret, mbind, K_bind; repeat f_equal; lia.

Lemma read_loop_run fuel killed target got s ready line : edits s (Editor ready line) → (length ready < fuel)%nat → ∃ s',
  read_loop fuel killed target got s = Ret (take_ready killed target got ready).1 s' ∧
  edits s' (Editor (take_ready killed target got ready).2 line) ∧ only_read s s'.
Proof.
  revert fuel got s. induction ready as [|c ready IH]; intros fuel got s Hd Hf; (destruct fuel as [|fuel]; [lia|]); cbn [read_loop take_ready].
  all: destruct (Z.leb_spec target (Z.of_nat (length got))) as [Hn|Hn].
  1, 3: rewrite (proj2 (Z.leb_le _ 0)) by lia; exists s; split; [ret_lia|]; split; [done|by destruct s].
  all: rewrite (proj2 (Z.leb_gt _ 0)) by lia; rewrite (K_bind_Ret _ _ s s s) by done.
  - rewrite (edits_none _ _ Hd), Z.eqb_refl. exists s. split; [by destruct killed|]. split; [done|by destruct s].
  - destruct (edits_take _ _ _ _ Hd) as (Hne & Hc & Hb & Hd1). rewrite (proj2 (Z.eqb_neq _ _) Hne), Hc. cbn [deref]. rewrite (K_bind_Ret _ _ s c s) by done.
    set (s1 := set_in_r (u32 (in_r s + 1)) s) in *. rewrite (K_bind_Ret _ _ s tt s1) by done.
    rewrite !schar_byte by (done || unfold Ctl, NEWLINE; lia). destruct (c =? Ctl 68).
    + replace (target - Z.of_nat (length got) <? target) with (negb (bool_decide (got = []))).
      2:{ destruct got as [|g got]; cbn -[Z.of_nat]; [rewrite Z.sub_0_r; symmetry; apply Z.ltb_irrefl|symmetry; apply Z.ltb_lt; lia]. }
      destruct (decide (got = [])) as [Hg|Hg].
      * rewrite bool_decide_eq_true_2 by done. cbn [negb]. exists s1. split; [ret_lia|]. split; [done|by destruct s].
      * rewrite bool_decide_eq_false_2 by done. cbn [negb]. exists s. split; [|by split; [|destruct s]].
        rewrite (K_bind_Ret _ _ s1 tt (set_in_r (in_r s) s1)) by done. replace (set_in_r (in_r s) s1) with s by (by destruct s). ret_lia.
    + destruct (c =? NEWLINE).
      * exists s1. split; [ret_lia|]. split; [done|by destruct s].
      * cbn [length] in Hf. destruct (IH fuel (got ++ [c]) s1 Hd1 ltac:(lia)) as (s2 & H2 & Hd2 & O2). exists s2. split; [done|]. split; [done|].
        unfold only_read in *. rewrite O2. by destruct s.
Qed.

Lemma consoleread_run killed target got s ready line : edits s (Editor ready line) → co_lock s = false → ∃ s',
  consoleread killed target got s = Ret (take_ready killed target got ready).1 s' ∧
  edits s' (Editor (take_ready killed target got ready).2 line) ∧ only_read s s'.
Proof.
  intros Hd Hl. unfold consoleread. rewrite (K_bind_Ret _ _ s tt (set_co_lock true s)). 2:{ unfold cons_acquire. kred. by rewrite Hl. }
  pose proof (es_fits _ _ Hd) as Hf. cbn in Hf. rewrite length_app in Hf.
  destruct (read_loop_run (S (Z.to_nat INPUT_BUF)) killed target got (set_co_lock true s) ready line) as (s1 & H1 & Hd1 & O1); [by apply edits_lock|unfold INPUT_BUF; lia|].
  kstep H1. exists (set_co_lock false s1). split; [|split; [by apply edits_lock|]].
  - unfold cons_release. kred. by rewrite O1.
  - unfold only_read in *. rewrite O1. destruct s. cbn in *. by subst.
Qed.

Lemma consolewrite_run buf s : screen_ok s → co_lock s = false → Forall is_byte buf → ∃ s',
  consolewrite buf s = Ret (Z.of_nat (length buf)) s' ∧ printed buf s s'.
Proof.
  intros Hs Hl Hb. unfold consolewrite. rewrite (K_bind_Ret _ _ s tt (set_co_lock true s)). 2:{ unfold cons_acquire. kred. by rewrite Hl. }
  assert (E : ∀ t, for_each buf (λ c, consputc (Z.land c 0xff)) t = for_each buf consputc t).
  { induction Hb as [|c buf Hc _ IH]; intros t; [done|]. cbn [for_each]. unfold mbind, K_bind. change 0xff with (Z.ones 8).
    rewrite Z.land_ones, Z.mod_small by (unfold is_byte in Hc; lia). by destruct (consputc c t). }
  destruct (consputc_each buf (set_co_lock true s) Hs) as (s1 & H1 & P1). rewrite <- E in H1. kstep H1.
  exists (set_co_lock false s1). rewrite (K_bind_Ret _ _ s1 tt (set_co_lock false s1)).
  2:{ unfold cons_release. kred. by rewrite (pr_lock _ _ _ P1). }
  split; [done|]. destruct P1. split; try done.
Qed.

(** C34: The console implements the line editor.  From any state of the ring,
    also when its indices wrap around: the interrupt with any characters
    edits the line, echoes and commits lines as [keys] says (the table that
    [procdump] prints after ^P is left out); a reader takes
    from the ready characters what [take_ready] says, up to a newline, an
    end of file or the number asked for, and changes only the read index;
    writing sends every byte to the serial port.  None of them panics, waits
    or writes outside the ring or the 24 lines of the screen. *)
Theorem console_refines s d : edits s d → screen_ok s → co_lock s = false →
  (∀ cs, Forall is_byte cs → ∃ s', consoleintr cs s = Ret tt s' ∧ edits s' (keys cs d).1.1 ∧ echoed (keys cs d).1.2 (keys cs d).2 s s') ∧
  (∀ killed target got, let r := take_ready killed target got (ed_ready d) in
    ∃ s', consoleread killed target got s = Ret r.1 s' ∧ edits s' (Editor r.2 (ed_line d)) ∧ only_read s s') ∧
  (∀ buf, Forall is_byte buf → ∃ s', consolewrite buf s = Ret (Z.of_nat (length buf)) s' ∧ edits s' d ∧ printed buf s s').
Proof.
  intros Hd Hs Hl. split; [intros cs Hcs; by apply consoleintr_run|]. destruct d as [ready line]. split; [intros; by apply consoleread_run|].
  intros buf Hb. destruct (consolewrite_run buf s Hs Hl Hb) as (s' & H & P). exists s'. split; [done|]. split; [by eapply printed_edits|done].
Qed.

(** ** Sleeping readers *)

Inductive rstate : Type :=
| Awake
| Asleep
| Returned (ret : Z).
Record reader : Type := Reader {
  rd_target : Z;
  rd_got : list Z;
  rd_state : rstate;
}.

(** [wakeup(&input.r)]. *)
Definition wake (r : reader) : reader :=
  match rd_state r with Asleep => Reader (rd_target r) (rd_got r) Awake | _ => r end.
Definition after (target : Z) (r : rstep) : reader :=
  match r with
  | RDone ret got => Reader target got (Returned ret)
  | RSleep got => Reader target got Asleep
  end.

(** An interrupt, a new reader, and a segment of one that is awake; a killed
    process is awake. *)
Inductive cstep : console * list reader → console * list reader → Prop :=
| cs_keys s rs cs s' : Forall is_byte cs → consoleintr cs (set_co_woken false s) = Ret tt s' →
    cstep (s, rs) (s', if co_woken s' then wake <$> rs else rs)
| cs_open s rs n : cstep (s, rs) (s, rs ++ [Reader n [] Awake])
| cs_read s rs i r killed s' x : rs !! i = Some r → rd_state r = Awake →
    consoleread killed (rd_target r) (rd_got r) s = Ret x s' → cstep (s, rs) (s', <[i:=after (rd_target r) x]> rs)
| cs_kill s rs i r : rs !! i = Some r → rd_state r = Asleep → cstep (s, rs) (s, <[i:=wake r]> rs).

Definition console_inv (x : console * list reader) : Prop :=
  ∃ d, edits x.1 d ∧ screen_ok x.1 ∧ co_lock x.1 = false ∧ (ed_ready d ≠ [] → Forall (λ r, rd_state r ≠ Asleep) x.2).

Lemma wake_awake rs : Forall (λ r, rd_state r ≠ Asleep) (wake <$> rs).
Proof. apply Forall_fmap, Forall_forall. intros r _. cbn. unfold wake. by destruct (rd_state r) eqn:E; [rewrite E| |rewrite E]. Qed.

(** Keys make characters ready only when they wake the readers. *)
Lemma keys_ready cs d : (keys cs d).2 = false → ed_ready (keys cs d).1.1 = ed_ready d.
Proof.
  revert d. induction cs as [|c cs IH]; intros d; cbn [keys]; [done|].
  assert (H1 : (key c d).2 = false → ed_ready (key c d).1.1 = ed_ready d).
  { destruct d as [ready line]. unfold key. destruct (c =? Ctl 80); [done|]. destruct (c =? Ctl 85); [done|].
    destruct ((c =? Ctl 72) || (c =? 0x7f)); [by destruct line|]. destruct (negb (c =? 0) && _); [|done].
    by destruct (ends_input _ || _). }
  destruct (key c d) as [[d1 o1] w1]. specialize (IH d1). destruct (keys cs d1) as [[d2 o2] w2]. cbn in *.
  intros [-> ->]%orb_false_iff. rewrite IH by done. by apply H1.
Qed.

(** A reader that sleeps has emptied the ready characters. *)
Lemma take_asleep killed target got ready got' rest :
  take_ready killed target got ready = (RSleep got', rest) → rest = [].
Proof.
  revert got. induction ready as [|c ready IH]; intros got; cbn [take_ready]; destruct (target <=? _); try done.
  - destruct killed; [done|]. by intros [= _ <-].
  - destruct (c =? Ctl 68); [done|]. destruct (c =? NEWLINE); [done|]. apply IH.
Qed.
Lemma take_suffix killed target got ready : ready = [] → (take_ready killed target got ready).2 = [].
Proof. intros ->. cbn. by destruct (target <=? _). Qed.

Lemma console_step x y : cstep x y → console_inv x → console_inv y.
Proof.
  intros Hstep (d & Hd & Hs & Hl & Hr).
  destruct Hstep as [s rs cs s' Hcs H|s rs n|s rs i r killed s' x Hi Ha H|s rs i r Hi Ha]; cbn in *.
  - destruct (consoleintr_run cs (set_co_woken false s) d) as (s'' & H' & Hd' & E); [by destruct Hd|done|done|done|]. rewrite H in H'. injection H' as <-.
    exists (keys cs d).1.1. split; [done|]. split; [apply E|]. split; [by etrans; [apply (ec_lock _ _ _ _ E)|]|]. cbn. intros Hne.
    pose proof (ec_woken _ _ _ _ E) as Ew. cbn in Ew. rewrite Ew. destruct ((keys cs d).2) eqn:Ek; [apply wake_awake|]. apply Hr. by rewrite <- (keys_ready cs d Ek).
  - exists d. do 3 (split; [done|]). intros Hne. apply Forall_app. split; [by apply Hr|by apply Forall_singleton].
  - destruct d as [ready line]. destruct (consoleread_run killed (rd_target r) (rd_got r) s ready line Hd Hl) as (s'' & H' & Hd' & O). rewrite H in H'. injection H' as -> <-.
    exists (Editor (take_ready killed (rd_target r) (rd_got r) ready).2 line). split; [done|]. unfold only_read in O. rewrite O. split; [done|]. split; [done|]. cbn.
    intros Hne. assert (Hready : ready ≠ []) by (intros ->; by rewrite take_suffix in Hne).
    apply Forall_insert; [by apply Hr|]. destruct (take_ready killed (rd_target r) (rd_got r) ready) as [[ret got|got] rest] eqn:Et; [done|].
    by apply take_asleep in Et.
  - exists d. do 3 (split; [done|]). intros Hne. apply Forall_insert; [by apply Hr|]. unfold wake. by rewrite Ha.
Qed.

(** C35: No reader sleeps while there is something to read.  In every state that
    interrupts and any number of readers reach, however they interleave, some
    process sleeps in [consoleread] only when no character is ready; so each
    reader that is not asleep gets its characters at its next segment, which
    always ends. *)
Theorem console_no_lost_wakeup s rs : edits s (Editor [] []) → screen_ok s → co_lock s = false →
  ∀ s' rs', rtc cstep (s, rs) (s', rs') → ∃ d, edits s' d ∧
    (∀ i r, rs' !! i = Some r → rd_state r = Asleep → ed_ready d = []) ∧
    ∀ i r killed, rs' !! i = Some r → rd_state r = Awake → ∃ x s'', consoleread killed (rd_target r) (rd_got r) s' = Ret x s''.
Proof.
  intros Hd Hs Hl s' rs' Hsteps. assert (Hi : console_inv (s', rs')).
  { assert (H0 : console_inv (s, rs)) by (exists (Editor [] []); split_and!; done). clear -Hsteps H0. remember (s, rs) as x. remember (s', rs') as y.
    clear Heqx Heqy. induction Hsteps as [|x y z Hxy _ IH]; [done|]. by eapply IH, console_step. }
  destruct Hi as (d & Hd' & Hs' & Hl' & Hr'). exists d. split; [done|]. split.
  - intros i r Hi Ha. destruct (decide (ed_ready d = [])) as [|Hne]; [done|]. specialize (Hr' Hne). cbn in Hr'. by apply (Forall_lookup_1 _ _ _ _ Hr' Hi) in Ha.
  - intros i r killed Hi Ha. destruct d as [ready line]. destruct (consoleread_run killed (rd_target r) (rd_got r) s' ready line Hd' Hl') as (s'' & H & _). eauto.
Qed.

(** ** Examples *)

(** The ring near the end of its index range. *)
Definition ex_cons : console :=
  MkCons (replicate 128 0) 4294967295 4294967295 4294967295 false true false true [] (λ _, 0) 0 false.

Lemma ex_cons_edits : edits ex_cons (Editor [] []).
Proof. split; try done; cbn; lia. Qed.

(** [ab], backspace, [c], newline: the reader gets [ac] and the newline. *)
Lemma console_refines_witness : ∃ s1 s2, consoleintr [97; 98; 8; 99; 13] ex_cons = Ret tt s1 ∧
  edits s1 (Editor [97; 99; 10] []) ∧ co_sent s1 = [97; 98; 8; 32; 8; 99; 10] ∧
  consoleread false 100 [] s1 = Ret (RDone 3 [97; 99; 10]) s2.
Proof.
  destruct (console_refines ex_cons (Editor [] []) ex_cons_edits) as [H1 _]; [by split; cbn; [lia|]|done|].
  destruct (H1 [97; 98; 8; 99; 13]) as (s1 & E1 & D1 & P1). { repeat (constructor; [unfold is_byte; lia|]). constructor. }
  destruct (console_refines s1 _ D1) as (_ & H2 & _); [apply P1|by rewrite (ec_lock _ _ _ _ P1)|].
  destruct (H2 false 100 []) as (s2 & E2 & _). exists s1, s2. split; [done|]. split; [exact D1|]. split; [by rewrite (ec_sent _ _ _ _ P1)|exact E2].
Defined.

Lemma console_no_lost_wakeup_witness : ∃ d, edits ex_cons d ∧
  ∀ i r, [Reader 5 [] Asleep] !! i = Some r → rd_state r = Asleep → ed_ready d = [].
Proof.
  destruct (console_no_lost_wakeup ex_cons [Reader 5 [] Awake] ex_cons_edits ltac:(by split; cbn; [lia|]) eq_refl ex_cons [Reader 5 [] Asleep])
    as (d & Hd & H & _); [|by exists d].
  apply rtc_once. apply (cs_read ex_cons [Reader 5 [] Awake] 0 (Reader 5 [] Awake) false ex_cons (RSleep [])); by vm_compute.
Defined.
