(* ===== verification/Printf.v ===== *)
(** * Printf: the kernel's and the user's formatted output

    console.c and printf.c have a formatter each.  Both are shown to print the
    same text, up to the case of hexadecimal digits, on the formats that both
    know. *)

From Stdlib Require Import ZArith Lia.
From stdpp Require Import base numbers list.
From S2P Require Import Prelude Ulib Console.
Open Scope Z_scope.

(** The byte of a character, with capitals as small letters. *)
Definition fold_case (c : Z) : Z := let b := u8 c in if (65 <=? b) && (b <=? 90) then b + 32 else b.
Definition folded (o : option (list Z)) : option (list Z) := option_map (map fold_case) o.

(** The format has no [%c], which only printf.c knows. *)
Fixpoint no_char (percent : bool) (fmt : list Z) : bool :=
  match fmt with
  | [] => true
  | c :: fmt => if percent then negb (c =? 99) && no_char false fmt else no_char (c =? PERCENT) fmt
  end.

Lemma printint_fold fuel base x buf buf' : map fold_case buf = map fold_case buf' →
  folded (printint_loop fuel digits base x buf) = folded (printint_loop fuel cdigits base x buf').
Proof.
  revert x buf buf'. induction fuel as [|fuel IH]; intros x buf buf' E; cbn [printint_loop]; [done|].
  assert (Hl : length buf = length buf') by (apply (f_equal length) in E; by rewrite !length_map in E).
  assert (Hd : fold_case <$> (digits !! Z.to_nat (x mod base)) = fold_case <$> (cdigits !! Z.to_nat (x mod base))).
  { destruct (Z.to_nat (x mod base)) as [|n]; [done|]. do 15 (destruct n as [|n]; [done|]). done. }
  destruct (digits !! _) as [d|], (cdigits !! _) as [d'|]; cbn in Hd; try done. injection Hd as Hd. cbn [mbind option_bind]. rewrite <- Hl.
  destruct (16 <=? length buf)%nat; [done|]. assert (E' : map fold_case (d :: buf) = map fold_case (d' :: buf')) by (cbn; by rewrite Hd, E).
  destruct (x / base =? 0); [unfold folded; cbn; by rewrite Hd, E|by apply IH].
Qed.

Lemma printint_of_fold xx base sgn : folded (printint_of digits xx base sgn) = folded (printint_of cdigits xx base sgn).
Proof.
  unfold printint_of. pose proof (printint_fold 32 base (u32 (if sgn && (xx <? 0) then - xx else xx)) [] [] eq_refl) as H.
  destruct (printint_loop 32 digits _ _ _) as [l|], (printint_loop 32 cdigits _ _ _) as [l'|]; try done.
  injection H as H. cbn [mbind option_bind]. assert (Hl : length l = length l') by (apply (f_equal length) in H; by rewrite !length_map in H).
  rewrite <- Hl. destruct (sgn && (xx <? 0)); [|unfold folded; cbn; by f_equal]. destruct (16 <=? length l)%nat; [done|]. unfold folded. cbn. by rewrite H.
Qed.

Lemma folded_app l l' o o' : map fold_case l = map fold_case l' → folded o = folded o' → folded (app l <$> o) = folded (app l' <$> o').
Proof. intros Hl Ho. destruct o, o'; try done. unfold folded in *. cbn in *. injection Ho as Ho. f_equal. by rewrite !map_app, Hl, Ho. Qed.
Lemma folded_bind o o' p p' : folded o = folded o' → folded p = folded p' →
  folded (out ← o; app out <$> p) = folded (out ← o'; app out <$> p').
Proof. intros Ho Hp. destruct o, o'; try done. injection Ho as Ho. by apply folded_app. Qed.

Lemma fold_schar c : is_byte c → fold_case (schar c) = fold_case c.
Proof.
  intros Hc. unfold fold_case, schar, u8. replace (((c + 128) mod 256 - 128) mod 2 ^ 8) with (c mod 2 ^ 8); [done|].
  change (2 ^ 8) with 256. rewrite Zminus_mod_idemp_l. f_equal. lia.
Qed.
Lemma chars_bytes s l : chars s = Some l → Forall is_byte s → Forall is_byte l.
Proof.
  revert l. induction s as [|c s IH]; intros l; cbn; [done|]. intros E [Hc Hs]%Forall_cons. destruct (c =? 0); [by injection E as <-|].
  destruct (chars s) as [l'|]; [|done]. injection E as <-. constructor; [done|]. by apply IH.
Qed.
Lemma string_arg_bytes str a l : (∀ p, Forall is_byte (str p)) → string_arg str a = Some l → Forall is_byte l.
Proof.
  intros Hs. unfold string_arg. destruct (a =? 0); [|intros E; by eapply chars_bytes].
  intros [= <-]. unfold null_text. repeat (constructor; [unfold is_byte; lia|]). constructor.
Qed.

Lemma u8_byte c : is_byte c → u8 c = c.
Proof. intros Hc. apply Z.mod_small. unfold is_byte in Hc. lia. Qed.

(** The kernel's [printint] has room for every [int]. *)
Lemma cprintint_total xx base sgn : base = 10 ∨ base = 16 ∧ sgn = false → is_Some (cprintint (s32 xx) base sgn).
Proof.
  intros Hb. unfold cprintint, printint_of. set (x := u32 _). pose proof (u32_range (if sgn && (s32 xx <? 0) then - s32 xx else s32 xx)) as Hx. fold x in Hx.
  destruct (printint_loop_spec 32 10 cdigits base x []) as (l & ds & -> & _ & Hl & H2); [destruct Hb as [->|[-> _]]; cbn; lia| |lia|lia|cbn; lia|].
  { destruct Hb as [->|[-> _]]; cbn -[Z.pow] in *; change (10 ^ 10) with 10000000000; change (16 ^ 10) with 1099511627776; lia. }
  rewrite app_nil_r. cbn [mbind option_bind]. pose proof (Forall2_length _ _ _ H2). destruct (sgn && _); [|done].
  by rewrite (proj2 (Nat.leb_gt 16 (length ds))) by lia.
Qed.

(** The arguments are there for the format: a number or a terminated string. *)
Fixpoint supplied (str : Z → list Z) (fmt argp : list Z) : Prop :=
  match fmt with
  | [] => False
  | ch :: fmt =>
      if u8 ch =? 0 then True else
      if negb (u8 ch =? PERCENT) then supplied str fmt argp else
      match fmt with
      | [] => False
      | ch :: fmt =>
          let c := u8 ch in
          if c =? 0 then True else
          if (c =? 100) || (c =? 120) || (c =? 112) then
            match argp with _ :: argp => supplied str fmt argp | [] => False end
          else if c =? 115 then
            match argp with a :: argp => is_Some (string_arg str a) ∧ supplied str fmt argp | [] => False end
          else supplied str fmt argp
      end
  end.

Lemma cprintf_total str fmt argp : supplied str fmt argp → is_Some (cprintf_loop str fmt argp).
Proof.
  assert (Hmap : ∀ l o, is_Some o → is_Some (app l <$> o : option (list Z))) by (intros l o [x ->]; done).
  assert (Hcons : ∀ c o, is_Some o → is_Some (cons c <$> o : option (list Z))) by (intros l o [x ->]; done).
  assert (Hbind : ∀ (o o' : option (list Z)), is_Some o → is_Some o' → is_Some (out ← o; app out <$> o')) by (intros o o' [x ->] [y ->]; done).
  revert argp. induction fmt as [|c|c c2 fmt IH IH2] using list_ind2; intros argp; [done|..]; cbn [supplied cprintf_loop].
  - destruct (u8 c =? 0); [done|]. by destruct (negb _).
  - destruct (u8 c =? 0); [done|]. destruct (negb (u8 c =? PERCENT)); [intros H; by apply Hcons, IH2|].
    destruct (u8 c2 =? 0); [done|]. destruct (u8 c2 =? 100); cbn [orb].
    { destruct argp as [|a argp]; [done|]. intros H. apply Hbind; [apply cprintint_total; by left|by apply IH]. }
    destruct ((u8 c2 =? 120) || (u8 c2 =? 112)); cbn [orb].
    { destruct argp as [|a argp]; [done|]. intros H. apply Hbind; [apply cprintint_total; by right|by apply IH]. }
    destruct (u8 c2 =? 115).
    { destruct argp as [|a argp]; [done|]. intros [[l ->] H]. cbn [mbind option_bind]. by apply Hmap, IH. }
    destruct (u8 c2 =? PERCENT); intros H; [by apply Hcons, IH|by apply Hmap, IH].
Qed.

(** The two formatters agree.  For every format of bytes without [%c] and
    every list of arguments, [printf] of the user library and [cprintf] of the
    kernel print the same characters up to the case of letters, or both read
    past the end of the format, of the arguments or of a string. *)
Theorem printf_cprintf str fmt ap : (∀ p, Forall is_byte (str p)) → Forall is_byte fmt → no_char false fmt = true →
  folded (printf str fmt ap) = folded (cprintf_loop str fmt ap).
Proof.
  intros Hstr. unfold printf. revert ap. induction fmt as [|c|c c2 fmt IH IH2] using list_ind2; intros ap Hb Hn; [done|..].
  - apply Forall_cons in Hb as [Hc _]. cbn -[u8]. rewrite (u8_byte c Hc). destruct (c =? 0); [done|]. by destruct (c =? PERCENT).
  - apply Forall_cons in Hb as [Hc [Hc2 Hb]%Forall_cons]. cbn [printf_loop cprintf_loop]. rewrite (u8_byte c Hc), (u8_byte c2 Hc2). cbn [negb].
    destruct (Z.eqb_spec c 0) as [->|H0]; [done|]. cbn [no_char] in Hn. destruct (c =? PERCENT) eqn:Ep; cbn [negb].
    2:{ pose proof (IH2 ap ltac:(by constructor) Hn) as H. cbn [printf_loop cprintf_loop] in H. rewrite (u8_byte c2 Hc2) in H.
        exact (folded_app [c] [c] _ _ eq_refl H). }
    destruct (c2 =? 0) eqn:E0; [done|]. cbn [negb] in *. apply andb_true_iff in Hn as [H99 Hn]. apply negb_true_iff in H99. rewrite H99.
    destruct (c2 =? 100); [destruct ap as [|a ap]; [done|]; apply folded_bind; [apply printint_of_fold|by apply IH]|].
    destruct ((c2 =? 120) || (c2 =? 112)); [destruct ap as [|a ap]; [done|]; apply folded_bind; [apply printint_of_fold|by apply IH]|].
    destruct (c2 =? 115).
    + destruct ap as [|a ap]; [done|]. destruct (string_arg str a) as [l|] eqn:El; [|done]. cbn [mbind option_bind]. apply folded_app; [|by apply IH].
      apply string_arg_bytes in El; [|done]. clear -El. induction El as [|x l Hx _ IHl]; [done|]. cbn. by rewrite (fold_schar x Hx), IHl.
    + destruct (Z.eqb_spec c2 PERCENT) as [->|]; [by apply (folded_app [PERCENT] [PERCENT]), IH|by apply (folded_app [PERCENT; c2] [PERCENT; c2]), IH].
Qed.

(** ["%x!"] with 255. *)
Lemma printf_cprintf_witness : folded (printf (λ _, []) [37; 120; 33; 0] [255]) = Some [102; 102; 33].
Proof.
  rewrite (printf_cprintf (λ _, []) [37; 120; 33; 0] [255]); [vm_compute; reflexivity|constructor| |reflexivity].
  repeat (constructor; [unfold is_byte; lia|]). constructor.
Defined.
