(* ===== verification/Shell.v ===== *)
(** * Shell: the command parser of sh.c

    The parser works on the line in its buffer: a [char*] is an index into it,
    [*ps] is the state of the parsing functions, and the commands they build
    point into the buffer, as in the code; [nulterminate] then ends the words
    in place.  [panic] of sh.c, which exits, is [Panic].  The memory that
    [malloc] gives for a command is never exhausted.

    The specification is a grammar: [renders] says which tokens a text has,
    whatever the spaces, and [gline] which command the tokens denote. *)

From Stdlib Require Import ZArith Lia.
From stdpp Require Import base numbers strings sets list.
From S2P Require Import Prelude Ulib.
Open Scope Z_scope.

Definition MAXARGS : nat := 10.
Definition O_RDONLY : Z := 0.
Definition O_WRONLY : Z := 1.
Definition O_CREATE : Z := 512.

(** [struct cmd] and its kinds; a word is the pair of its pointers. *)
Inductive cmd : Type :=
| Exec (argv : list (nat * nat))
| Redir (sub : cmd) (file efile : nat) (mode fd : Z)
| Pipe (left right : cmd)
| List (left right : cmd)
| Back (sub : cmd).

(** The characters of the syntax. *)
Definition BAR : Z := 124.
Definition LPAREN : Z := 40.
Definition RPAREN : Z := 41.
Definition SEMI : Z := 59.
Definition AMP : Z := 38.
Definition LESS : Z := 60.
Definition GREATER : Z := 62.
Definition PLUS : Z := 43.
Definition WORD : Z := 97.

Definition whitespace : list Z := [32; 9; 13; 10; 11; 0].
Definition symbols : list Z := [60; 124; 62; 38; 59; 40; 41; 0].

(** ** The parser *)

(** [strchr(s, c) != 0]. *)
Definition in_string (s : list Z) (c : Z) : option bool :=
  r ← strchr s c;
  Some (if r : option nat then true else false).
Definition is_space (c : Z) : option bool := in_string whitespace c.
Definition in_word (c : Z) : option bool :=
  w ← is_space c;
  if w : bool then Some false else
  y ← in_string symbols c;
  Some (negb y).

Section parser.
(** The buffer and the end of its text. *)
Context (buf : list Z) (es : nat).

Definition char (s : nat) : K nat Z := deref (buf !! s).
Definition get : K nat nat := gets (λ s, s).
Definition put (s : nat) : K nat unit := modify (λ _, s).

(** [while(s < es && p( *s)) s++], with [n = es - s]. *)
Fixpoint skip (p : Z → option bool) (n s : nat) : K nat nat :=
  match n with
  | O => mret s
  | S n =>
      c ← char s;
      b ← deref (p c);
      if b : bool then skip p n (S s) else mret s
  end.

(** The [switch] of [gettoken] at [s]: the kind of the token and its end. *)
Definition token_at (s : nat) : K nat (Z * nat) :=
  c ← char s;
  if c =? 0 then mret (c, s)
  else if (c =? BAR) || (c =? LPAREN) || (c =? RPAREN) || (c =? SEMI) || (c =? AMP) || (c =? LESS) then
    mret (c, S s)
  else if c =? GREATER then
    c' ← char (S s);
    mret (if c' =? GREATER then (PLUS, S (S s)) else (c, S s))
  else
    s ← skip in_word (es - s) s;
    mret (WORD, s).

(** The token, and its ends [q] and [eq]. *)
Definition gettoken : K nat (Z * nat * nat) :=
  s ← get;
  q ← skip is_space (es - s) s;
  '(ret, eq) ← token_at q;
  s ← skip is_space (es - eq) eq;
  put s;;
  mret (ret, q, eq).

Definition peek (toks : list Z) : K nat bool :=
  s ← get;
  s ← skip is_space (es - s) s;
  put s;;
  c ← char s;
  if c =? 0 then mret false else deref (in_string toks c).

(** The loop of [parseredirs]; each round takes a token. *)
Fixpoint redirs_loop (fuel : nat) (c : cmd) : K nat cmd :=
  match fuel with
  | O => nofuel
  | S fuel =>
      b ← peek [LESS; GREATER; 0];
      if negb b then mret c else
      '(tok, _, _) ← gettoken;
      '(t, q, eq) ← gettoken;
      if negb (t =? WORD) then panic "missing file for redirection" else
      redirs_loop fuel
        (if tok =? LESS then Redir c q eq O_RDONLY 0
         else if tok =? GREATER then Redir c q eq (Z.lor O_WRONLY O_CREATE) 1
         else if tok =? PLUS then Redir c q eq (Z.lor O_WRONLY O_CREATE) 1
         else c)
  end.
Definition parseredirs (c : cmd) : K nat cmd := redirs_loop (S es) c.

(** [parseexec] keeps a pointer to the one [execcmd] inside [ret], which the
    redirections wrap, and adds arguments to it. *)
Fixpoint set_argv (argv : list (nat * nat)) (c : cmd) : cmd :=
  match c with
  | Redir sub file efile mode fd => Redir (set_argv argv sub) file efile mode fd
  | _ => Exec argv
  end.

(** The loop of [parseexec]. *)
Fixpoint exec_loop (fuel : nat) (argv : list (nat * nat)) (ret : cmd) : K nat cmd :=
  match fuel with
  | O => nofuel
  | S fuel =>
      b ← peek [BAR; RPAREN; AMP; SEMI; 0];
      if b : bool then mret (set_argv argv ret) else
      '(tok, q, eq) ← gettoken;
      if tok =? 0 then mret (set_argv argv ret) else
      if negb (tok =? WORD) then panic "syntax" else
      let argv := argv ++ [(q, eq)] in
      if (MAXARGS <=? length argv)%nat then panic "too many args" else
      ret ← parseredirs ret;
      exec_loop fuel argv ret
  end.

(** The first loop of [parseline]. *)
Fixpoint back_loop (fuel : nat) (c : cmd) : K nat cmd :=
  match fuel with
  | O => nofuel
  | S fuel =>
      b ← peek [AMP; 0];
      if negb b then mret c else
      gettoken;;
      back_loop fuel (Back c)
  end.

Fixpoint parseline (fuel : nat) : K nat cmd :=
  match fuel with
  | O => nofuel
  | S fuel =>
      c ← parsepipe fuel;
      c ← back_loop (S es) c;
      b ← peek [SEMI; 0];
      if b : bool then
        gettoken;;
        r ← parseline fuel;
        mret (List c r)
      else mret c
  end
with parsepipe (fuel : nat) : K nat cmd :=
  match fuel with
  | O => nofuel
  | S fuel =>
      c ← parseexec fuel;
      b ← peek [BAR; 0];
      if b : bool then
        gettoken;;
        r ← parsepipe fuel;
        mret (Pipe c r)
      else mret c
  end
with parseexec (fuel : nat) : K nat cmd :=
  match fuel with
  | O => nofuel
  | S fuel =>
      b ← peek [LPAREN; 0];
      if b : bool then parseblock fuel else
      ret ← parseredirs (Exec []);
      exec_loop (S es) [] ret
  end
with parseblock (fuel : nat) : K nat cmd :=
  match fuel with
  | O => nofuel
  | S fuel =>
      b ← peek [LPAREN; 0];
      if negb b then panic "parseblock" else
      gettoken;;
      c ← parseline fuel;
      b ← peek [RPAREN; 0];
      if negb b then panic "syntax - missing )" else
      gettoken;;
      parseredirs c
  end.

(** [parsecmd] up to the leftovers. *)
Definition parse_all : K nat cmd :=
  c ← parseline (4 * es + 5);
  peek [0];;
  s ← get;
  if (s =? es)%nat then mret c else panic "syntax".
End parser.

(** [*p = 0]. *)
Definition put_nul (p : nat) : K (list Z) unit :=
  c ← gets (λ buf, buf !! p);
  deref c;;
  modify (λ buf, <[p:=0]> buf).

Fixpoint nul_args (argv : list (nat * nat)) : K (list Z) unit :=
  match argv with
  | [] => mret tt
  | (_, eq) :: argv => put_nul eq;; nul_args argv
  end.

Fixpoint nulterminate (c : cmd) : K (list Z) unit :=
  match c with
  | Exec argv => nul_args argv
  | Redir sub _ efile _ _ => nulterminate sub;; put_nul efile
  | Pipe l r => nulterminate l;; nulterminate r
  | List l r => nulterminate l;; nulterminate r
  | Back sub => nulterminate sub
  end.

Definition parsecmd : K (list Z) cmd :=
  buf ← gets (λ buf, buf);
  es ← deref (ustrlen buf);
  match parse_all buf (Z.to_nat es) 0%nat with
  | Ret c _ => nulterminate c;; mret c
  | Panic msg => panic msg
  | Blocked on => blocked on
  | Fault => fault
  | NoFuel => nofuel
  end.
