(* ===== verification/ShellSpec.v ===== *)
(** * ShellSpec: the shell's parser against a grammar

    [renders] is the lexical grammar, [gline] the grammar of commands.  The
    parser of Shell.v is shown to accept exactly the lines that the grammar
    derives, to return the command that the grammar gives, and to end every
    word of it in the buffer. *)

From Stdlib Require Import ZArith Lia.
From stdpp Require Import base numbers strings sets list.
From S2P Require Import Prelude Ulib Shell.
Open Scope Z_scope.

(** ** Characters and tokens *)

Definition spaces : list Z := [32; 9; 13; 10; 11].
Definition syms : list Z := [60; 124; 62; 38; 59; 40; 41].
Definition wordc (c : Z) : bool := bool_decide (c ∉ spaces ∧ c ∉ syms ∧ c ≠ 0).

Inductive token : Type :=
| TBar | TLparen | TRparen | TSemi | TAmp | TLess | TGreater | TAppend
| TWord (w : list Z).

#[global] Instance token_eq_dec : EqDecision token.
Proof. solve_decision. Defined.

(** The symbols of one character that are not the start of a longer one. *)
Definition symbol (k : token) : option Z :=
  match k with
  | TBar => Some BAR
  | TLparen => Some LPAREN
  | TRparen => Some RPAREN
  | TSemi => Some SEMI
  | TAmp => Some AMP
  | TLess => Some LESS
  | _ => None
  end.
(** The first character, and what [gettoken] returns. *)
Definition starts (k : token) : option Z :=
  match k with
  | TGreater | TAppend => Some GREATER
  | TWord w => head w
  | k => symbol k
  end.
Definition code (k : token) : Z :=
  match k with
  | TGreater => GREATER
  | TAppend => PLUS
  | TWord _ => WORD
  | k => default 0 (symbol k)
  end.

(** The tokens of a text. *)
Inductive renders : list token → list Z → Prop :=
| rn_end : renders [] []
| rn_space c l t : c ∈ spaces → renders l t → renders l (c :: t)
| rn_symbol k c l t : symbol k = Some c → renders l t → renders (k :: l) (c :: t)
| rn_greater l t : head t ≠ Some GREATER → renders l t → renders (TGreater :: l) (GREATER :: t)
| rn_append l t : renders l t → renders (TAppend :: l) (GREATER :: GREATER :: t)
| rn_word w l t : w ≠ [] → Forall (λ c, wordc c = true) w → from_option wordc false (head t) = false →
    renders l t → renders (TWord w :: l) (w ++ t).

Lemma in_string_eq l c : 0 ∉ l → in_string (l ++ [0]) c = Some (bool_decide (c ∈ l)).
Proof.
  unfold in_string. induction l as [|a l IH]; intros Hl; cbn -[Z.eqb]; [by rewrite bool_decide_eq_false_2 by set_solver|].
  rewrite (proj2 (Z.eqb_neq a 0)) by set_solver. destruct (Z.eqb_spec a c) as [->|Hne]; cbn; [by rewrite bool_decide_eq_true_2 by set_solver|].
  specialize (IH ltac:(set_solver)). destruct (strchr (l ++ [0]) c) as [[n|]|]; cbn in *; [..|done]; rewrite IH; f_equal; apply bool_decide_ext; set_solver.
Qed.
Lemma is_space_eq c : is_space c = Some (bool_decide (c ∈ spaces)).
Proof. apply (in_string_eq spaces). unfold spaces. set_solver. Qed.
Lemma in_symbols_eq c : in_string symbols c = Some (bool_decide (c ∈ syms)).
Proof. apply (in_string_eq syms). unfold syms. set_solver. Qed.
Lemma in_word_eq c : c ≠ 0 → in_word c = Some (wordc c).
Proof.
  intros Hc. unfold in_word, wordc. rewrite is_space_eq, in_symbols_eq. cbn.
  destruct (decide (c ∈ spaces)) as [H1|H1].
  { rewrite (bool_decide_eq_true_2 _ H1), bool_decide_eq_false_2; [done|]. tauto. }
  rewrite (bool_decide_eq_false_2 _ H1). cbn. f_equal. destruct (decide (c ∈ syms)) as [H2|H2].
  - rewrite (bool_decide_eq_true_2 _ H2), bool_decide_eq_false_2; [done|]. tauto.
  - rewrite (bool_decide_eq_false_2 _ H2), bool_decide_eq_true_2; done.
Qed.

(** How many characters a loop passes. *)
Fixpoint span (f : Z → bool) (t : list Z) : nat :=
  match t with
  | [] => 0
  | c :: t => if f c then S (span f t) else 0
  end.

Lemma span_le f t : (span f t ≤ length t)%nat.
Proof. induction t as [|c t IH]; cbn; [lia|]. destruct (f c); lia. Qed.
Lemma span_app f w t : Forall (λ c, f c = true) w → from_option f false (head t) = false → span f (w ++ t) = length w.
Proof. intros Hw Ht. induction Hw as [|c w Hc _ IH]; cbn; [destruct t as [|c t]; cbn in *; [done|by rewrite Ht]|]. by rewrite Hc, IH. Qed.
Lemma span_stop f t : from_option f false (head (drop (span f t) t)) = false.
Proof. induction t as [|c t IH]; cbn; [done|]. destruct (f c) eqn:E; cbn; [done|by rewrite E]. Qed.

Definition spacec (c : Z) : bool := bool_decide (c ∈ spaces).

Lemma renders_skip l t : renders l t → renders l (drop (span spacec t) t).
Proof.
  induction 1 as [|c l t Hc Hr IH|k c l t Hk Hr IH|l t Ht Hr IH|l t Hr IH|w l t Hw Hf Ht Hr IH]; cbn; [constructor|..].
  - unfold spacec at 1. by rewrite (bool_decide_eq_true_2 _ Hc).
  - replace (spacec c) with false; [by apply rn_symbol|]. by destruct k; simplify_eq/=.
  - by constructor.
  - by constructor.
  - destruct w as [|c w]; [done|]. cbn. replace (spacec c) with false; [by apply (rn_word (c :: w))|].
    apply Forall_cons in Hf as [Hc _]. unfold wordc in Hc. apply bool_decide_eq_true in Hc as [Hc _]. unfold spacec. by rewrite bool_decide_eq_false_2.
Qed.
Lemma renders_length l t : renders l t → (length l ≤ length t)%nat.
Proof. induction 1; cbn; rewrite ?length_app; try lia. destruct w; cbn in *; [done|lia]. Qed.

(** Every text has tokens. *)
Lemma renders_total t : Forall (λ c, c ≠ 0) t → ∃ l, renders l t.
Proof.
  remember (length t) as n eqn:En. revert t En. induction (lt_wf n) as [n _ IH]; intros t -> Ht. destruct t as [|c t]; [exists []; constructor|].
  apply Forall_cons in Ht as [Hc Ht]. destruct (decide (c ∈ spaces)) as [Hs|Hs].
  { destruct (IH (length t) ltac:(cbn; lia) t eq_refl Ht) as [l Hl]. exists l. by constructor. }
  destruct (decide (c ∈ syms)) as [Hy|Hy].
  - destruct (IH (length t) ltac:(cbn; lia) t eq_refl Ht) as [l Hl].
    assert (∀ k, symbol k = Some c → ∃ l', renders l' (c :: t)) as Hsym by (intros k Hk; exists (k :: l); by apply rn_symbol).
    unfold syms in Hy. rewrite !elem_of_cons in Hy. destruct Hy as [->|[->|[->|[->|[->|[->|[->|Hy]]]]]]].
    + by apply (Hsym TLess).
    + by apply (Hsym TBar).
    + destruct (decide (head t = Some GREATER)) as [Hg|Hg]; [|exists (TGreater :: l); by constructor].
      destruct t as [|c t]; [done|]. injection Hg as ->. apply Forall_cons in Ht as [_ Ht].
      destruct (IH (length t) ltac:(cbn; lia) t eq_refl Ht) as [l' Hl']. exists (TAppend :: l'). by apply rn_append.
    + by apply (Hsym TAmp).
    + by apply (Hsym TSemi).
    + by apply (Hsym TLparen).
    + by apply (Hsym TRparen).
    + by apply elem_of_nil in Hy.
  - set (n := span wordc t). assert (Hw : wordc c = true) by (by apply bool_decide_eq_true_2).
    destruct (IH (length (drop n t)) ltac:(rewrite length_drop; cbn; lia) (drop n t) eq_refl) as [l Hl]; [by apply Forall_drop|].
    exists (TWord (c :: take n t) :: l). replace (c :: t) with ((c :: take n t) ++ drop n t) by (cbn; by rewrite take_drop).
    apply rn_word; [done| |apply span_stop|done]. constructor; [done|]. unfold n. clear. induction t as [|d t IH]; cbn; [constructor|].
    destruct (wordc d) eqn:E; [|constructor]. by constructor.
Qed.

(** ** The grammar *)

(** A command, with its words as strings. *)
Inductive command : Type :=
| CExec (argv : list (list Z))
| CRedir (c : command) (file : list Z) (mode fd : Z)
| CPipe (left right : command)
| CList (left right : command)
| CBack (c : command).

Definition redir : Type := list Z * Z * Z.

(** What [<], [>] and [>>] open, and as which descriptor. *)
Definition redir_of (k : token) : option (Z * Z) :=
  match k with
  | TLess => Some (O_RDONLY, 0)
  | TGreater | TAppend => Some (Z.lor O_WRONLY O_CREATE, 1)
  | _ => None
  end.

(** The redirections, the first innermost. *)
Fixpoint wrap (c : command) (r : list redir) : command :=
  match r with
  | [] => c
  | (w, mode, fd) :: r => wrap (CRedir c w mode fd) r
  end.

(** Arguments and redirections, in any order. *)
Inductive simple : list token → list (list Z) → list redir → Prop :=
| si_nil : simple [] [] []
| si_word w l a r : simple l a r → simple (TWord w :: l) (w :: a) r
| si_redir k w mode fd l a r : redir_of k = Some (mode, fd) → simple l a r →
    simple (k :: TWord w :: l) a ((w, mode, fd) :: r).

Fixpoint backs (n : nat) (c : command) : command :=
  match n with
  | O => c
  | S n => backs n (CBack c)
  end.

Inductive gline : command → list token → Prop :=
| gl_pipe n c l : gpipe c l → gline (backs n c) (l ++ replicate n TAmp)
| gl_list n c l c2 l2 : gpipe c l → gline c2 l2 → gline (CList (backs n c) c2) (l ++ replicate n TAmp ++ TSemi :: l2)
with gpipe : command → list token → Prop :=
| gp_exec c l : gexec c l → gpipe c l
| gp_pipe c l c2 l2 : gexec c l → gpipe c2 l2 → gpipe (CPipe c c2) (l ++ TBar :: l2)
with gexec : command → list token → Prop :=
| ge_simple l a r : simple l a r → (length a < MAXARGS)%nat → gexec (wrap (CExec a) r) l
| ge_block c l l2 r : gline c l → simple l2 [] r → gexec (wrap c r) (TLparen :: l ++ TRparen :: l2).

Scheme gline_mut := Minimality for gline Sort Prop
  with gpipe_mut := Minimality for gpipe Sort Prop
  with gexec_mut := Minimality for gexec Sort Prop.
Combined Scheme grammar_ind from gline_mut, gpipe_mut, gexec_mut.

(** ** The functions on tokens *)

(** The redirections at the start of the tokens: none if a file is missing. *)
Fixpoint tredirs (l : list token) : option (list redir * list token) :=
  match l with
  | k :: l' =>
      match redir_of k with
      | Some (mode, fd) =>
          match l' with
          | TWord w :: l'' => '(r, rest) ← tredirs l''; Some ((w, mode, fd) :: r, rest)
          | _ => None
          end
      | None => Some ([], l)
      end
  | [] => Some ([], l)
  end.

(** The arguments and redirections at the start, with [n] arguments before. *)
Fixpoint targs (n : nat) (l : list token) : string + list (list Z) * list redir * list token :=
  match l with
  | [] => inr ([], [], [])
  | TWord w :: l' =>
      if (MAXARGS <=? S n)%nat then inl "too many args"%string else
      match targs (S n) l' with
      | inr (a, r, rest) => inr (w :: a, r, rest)
      | inl msg => inl msg
      end
  | k :: l' =>
      match redir_of k with
      | Some (mode, fd) =>
          match l' with
          | TWord w :: l'' =>
              match targs n l'' with
              | inr (a, r, rest) => inr (a, (w, mode, fd) :: r, rest)
              | inl msg => inl msg
              end
          | _ => inl "missing file for redirection"%string
          end
      | None => if decide (k = TLparen) then inl "syntax"%string else inr ([], [], l)
      end
  end.

(** The tokens that end a simple command. *)
Definition stops (l : list token) : bool :=
  match l with
  | [] | TBar :: _ | TRparen :: _ | TAmp :: _ | TSemi :: _ => true
  | _ => false
  end.
Definition no_redir (l : list token) : Prop := ∀ k l', l = k :: l' → redir_of k = None.

Lemma tredirs_sound l r rest : tredirs l = Some (r, rest) → ∃ l1, l = l1 ++ rest ∧ simple l1 [] r ∧ no_redir rest.
Proof.
  revert r. induction l as [|k|k k2 l IH _] using list_ind2; intros r; cbn.
  - intros [= <- <-]. exists []. split_and!; [done|constructor|]. by intros ? ? [=].
  - destruct (redir_of k) as [[mode fd]|] eqn:Ek; [done|]. intros [= <- <-]. exists []. split_and!; [done|constructor|]. intros ? ? [= <- <-]. done.
  - destruct (redir_of k) as [[mode fd]|] eqn:Ek.
    + destruct k2 as [| | | | | | | |w]; try done. destruct (tredirs l) as [[r' rest']|]; cbn; [|done]. intros [= <- <-].
      destruct (IH r' eq_refl) as (l1 & -> & Hs & Hn). exists (k :: TWord w :: l1). split_and!; [done|by constructor|done].
    + intros [= <- <-]. exists []. split_and!; [done|constructor|]. intros ? ? [= <- <-]. done.
Qed.
Lemma tredirs_complete l r rest : simple l [] r → no_redir rest → tredirs (l ++ rest) = Some (r, rest).
Proof.
  intros Hs Hn. remember [] as a eqn:Ea. induction Hs as [|w l a r _ _|k w mode fd l a r Hk _ IH]; [|done|].
  - cbn. destruct rest as [|k rest]; [done|]. cbn. by rewrite (Hn k rest eq_refl).
  - cbn. rewrite Hk, IH by done. done.
Qed.

Lemma targs_tredirs n l : targs n l =
  match tredirs l with
  | None => inl "missing file for redirection"%string
  | Some (r, rest) => match targs n rest with inr (a, r', rest') => inr (a, r ++ r', rest') | inl msg => inl msg end
  end.
Proof.
  induction l as [|k|k k2 l IH _] using list_ind2; [done|..].
  - destruct k as [| | | | | | | |w]; try done. cbn [tredirs redir_of]. by destruct (targs n [TWord w]) as [|[[? ?] ?]].
  - destruct (redir_of k) as [[mode fd]|] eqn:Ek.
    + cbn [targs tredirs]. rewrite Ek. destruct k2 as [| | | | | | | |w]; try (by destruct k). 
      destruct k; try done; rewrite IH; destruct (tredirs l) as [[r rest]|]; try done; cbn; by destruct (targs n rest) as [|[[? ?] ?]].
    + cbn [tredirs]. rewrite Ek. by destruct (targs n (k :: k2 :: l)) as [|[[? ?] ?]].
Qed.

Lemma targs_sound n l a r rest : (n < MAXARGS)%nat → targs n l = inr (a, r, rest) →
  ∃ l1, l = l1 ++ rest ∧ simple l1 a r ∧ (n + length a < MAXARGS)%nat ∧ stops rest = true.
Proof.
  revert n a r. assert (∀ k l n a r, (n < MAXARGS)%nat → redir_of k = None → k ≠ TLparen → (∀ w, k ≠ TWord w) → @inr string _ ([], [], k :: l) = inr (a, r, rest) →
    ∃ l1, k :: l = l1 ++ rest ∧ simple l1 a r ∧ (n + length a < MAXARGS)%nat ∧ stops rest = true) as Hstop.
  { intros k l' n a r Hn Hk Hp Hw [= <- <- <-]. exists []. split_and!; [done|constructor|cbn; lia|]. destruct k; try done. by destruct (Hw w). }
  induction l as [|k|k k2 l IH IH2] using list_ind2; intros n a r Hn.
  - intros [= <- <- <-]. exists []. split_and!; [done|constructor|cbn; lia|done].
  - destruct k as [| | | | | | | |w]; cbn [targs redir_of]; intros E; try (by apply (Hstop _ _ n) in E); try done.
    destruct (Nat.leb_spec MAXARGS (S n)); [done|]. injection E as <- <- <-. exists [TWord w]. split_and!; [done|repeat constructor|cbn; lia|done].
  - destruct k as [| | | | | | | |w]; cbn [targs redir_of]; intros E; try (by apply (Hstop _ _ n) in E); try done.
    1-3: destruct k2 as [| | | | | | | |w]; try done; destruct (targs n l) as [|[[a' r'] rest']] eqn:El; [done|]; injection E as <- <- <-;
      destruct (IH n a' r' Hn El) as (l1 & -> & Hs & Ha & Hst);
      match goal with |- context [?k :: TWord ?w :: l1 ++ _] => exists (k :: TWord w :: l1) end; split_and!; [done|by constructor|done|done].
    destruct (Nat.leb_spec MAXARGS (S n)); [done|]. change (match targs (S n) (k2 :: l) with inr (a, r, rest) => inr (w :: a, r, rest) | inl msg => inl msg end = inr (a, r, rest)) in E.
    destruct (targs (S n) (k2 :: l)) as [|[[a' r'] rest']] eqn:El; [done|]. injection E as <- <- <-.
    destruct (IH2 (S n) a' r' ltac:(lia) El) as (l1 & E & Hs & Ha & Hst). rewrite E. exists (TWord w :: l1). split_and!; [done|by constructor|cbn; lia|done].
Qed.
Lemma targs_complete n l a r rest : simple l a r → (n + length a < MAXARGS)%nat → stops rest = true → targs n (l ++ rest) = inr (a, r, rest).
Proof.
  intros Hs. revert n. induction Hs as [|w l a r _ IH|k w mode fd l a r Hk _ IH]; intros n Hn Hr; cbn [app].
  - by destruct rest as [|[] rest].
  - cbn in Hn. cbn [targs]. rewrite (proj2 (Nat.leb_gt MAXARGS (S n))) by lia. by rewrite IH by (done || lia).
  - destruct k; try done; injection Hk as <- <-; cbn [targs redir_of]; by rewrite IH.
Qed.

Lemma head_drop (t : list Z) s : head (drop s t) = t !! s.
Proof. rewrite <- (Nat.add_0_r s) at 2. rewrite <- lookup_drop. by destruct (drop s t). Qed.
Lemma drop_cons (t : list Z) s c u : drop s t = c :: u → drop (S s) t = u.
Proof. intros E. by rewrite <- Nat.add_1_r, <- drop_drop, E. Qed.

(** The command of the parser with its strings in the buffer is [g]. *)
Fixpoint reads (b : list Z) (c : cmd) (g : command) : Prop :=
  match c, g with
  | Exec argv, CExec a => Forall2 (λ p w, chars (drop p.1 b) = Some w) argv a
  | Redir c file _ mode fd, CRedir g w mode' fd' => reads b c g ∧ chars (drop file b) = Some w ∧ mode = mode' ∧ fd = fd'
  | Pipe c1 c2, CPipe g1 g2 => reads b c1 g1 ∧ reads b c2 g2
  | List c1 c2, CList g1 g2 => reads b c1 g1 ∧ reads b c2 g2
  | Back c, CBack g => reads b c g
  | _, _ => False
  end.

Lemma chars_app w t : 0 ∉ w → chars (w ++ 0 :: t) = Some w.
Proof.
  induction w as [|c w IH]; intros Hw; [done|]. cbn -[Z.eqb]. rewrite (proj2 (Z.eqb_neq c 0)) by set_solver. by rewrite IH by set_solver.
Qed.
Lemma wordc_nonzero w : Forall (λ c, wordc c = true) w → 0 ∉ w.
Proof. intros Hw H0. rewrite Forall_forall in Hw. by apply Hw in H0. Qed.
Lemma renders_nonzero l t : renders l t → Forall (λ c, c ≠ 0) t.
Proof.
  induction 1 as [|c l t Hc Hr IH|k c l t Hk Hr IH|l t Ht Hr IH|l t Hr IH|w l t Hw Hf Ht Hr IH]; [constructor|..].
  - constructor; [|done]. intros ->. unfold spaces in Hc. set_solver.
  - constructor; [|done]. by destruct k; simplify_eq/=.
  - by constructor.
  - by repeat (constructor; [done|]).
  - apply Forall_app. split; [|done]. apply Forall_forall. intros c Hc ->. by apply wordc_nonzero in Hf.
Qed.
Lemma ustrlen_text t junk : Forall (λ c, c ≠ 0) t → ustrlen (t ++ 0 :: junk) = Some (Z.of_nat (length t)).
Proof.
  induction 1 as [|c t Hc _ IH]; [done|]. cbn -[Z.eqb Z.of_nat]. rewrite (proj2 (Z.eqb_neq c 0)) by done. rewrite IH. cbn -[Z.of_nat]. f_equal. lia.
Qed.

Section lexer.
Context (text junk : list Z) (text_ok : Forall (λ c, c ≠ 0) text).
Let es : nat := length text.
Let buf : list Z := text ++ 0 :: junk.

(** The tokens [l] are left at [s]. *)
Definition rest_at (s : nat) (l : list token) : Prop := (s ≤ length text)%nat ∧ renders l (drop s text).
(** The word [w] is between [q] and [eq]. *)
Definition word_at (q eq : nat) (w : list Z) : Prop :=
  (q ≤ eq ≤ length text)%nat ∧ take (eq - q) (drop q text) = w ∧ Forall (λ c, wordc c = true) w ∧
  from_option wordc false (text !! eq) = false.

Lemma char_run s st : (s ≤ es)%nat → char buf s st = Ret (default 0 (text !! s)) st.
Proof.
  intros Hs. unfold char, buf. destruct (decide (s < es)%nat) as [Hlt|Hge].
  - destruct (lookup_lt_is_Some_2 text s Hlt) as [c Hc]. by rewrite (lookup_app_l_Some _ _ _ _ Hc), Hc.
  - rewrite lookup_app_r, (lookup_ge_None_2 text) by (unfold es in *; lia). replace (s - length text)%nat with 0%nat by (unfold es in *; lia). done.
Qed.
Lemma char_drop s c u st : drop s text = c :: u → char buf s st = Ret c st ∧ c ≠ 0 ∧ (S s ≤ es)%nat.
Proof.
  intros E. assert (Hc : text !! s = Some c) by (by rewrite <- head_drop, E). pose proof (lookup_lt_Some _ _ _ Hc). unfold es.
  rewrite char_run, Hc by (unfold es; lia). split_and!; [done| |lia]. apply (Forall_lookup_1 _ _ _ _ text_ok Hc).
Qed.

Lemma skip_run p f n s st : (∀ c, c ≠ 0 → p c = Some (f c)) → n = (es - s)%nat → (s ≤ es)%nat →
  skip buf p n s st = Ret (s + span f (drop s text))%nat st.
Proof.
  intros Hp. revert s. induction n as [|n IH]; intros s Hn Hs; cbn [skip].
  { rewrite drop_ge by (unfold es in *; lia). cbn. by rewrite Nat.add_0_r. }
  destruct (lookup_lt_is_Some_2 text s) as [c Hc]; [unfold es in *; lia|]. apply drop_S in Hc as E. rewrite E.
  destruct (char_drop s c _ st E) as (Hch & Hc0 & _). kstep Hch. rewrite Hp by done. cbn [span].
  destruct (f c); kred; [|by rewrite Nat.add_0_r]. rewrite IH by lia. f_equal. lia.
Qed.

Lemma skip_spaces s l st : rest_at s l → ∃ s', skip buf is_space (es - s) s st = Ret s' st ∧ rest_at s' l ∧
  from_option spacec false (head (drop s' text)) = false.
Proof.
  intros [Hs Hr]. exists (s + span spacec (drop s text))%nat. split; [apply skip_run; [|done|done]|].
  { intros c _. apply is_space_eq. }
  pose proof (span_le spacec (drop s text)) as Hle. rewrite length_drop in Hle. split; [|rewrite <- drop_drop; apply span_stop].
  split; [lia|]. rewrite <- drop_drop. by apply renders_skip.
Qed.

(** The first character, when it is no space. *)
Lemma renders_head l t : renders l t → from_option spacec false (head t) = false →
  match l with [] => t = [] | k :: _ => ∃ c, starts k = Some c ∧ head t = Some c end.
Proof.
  destruct 1 as [|c l t Hc Hr|k c l t Hk Hr|l t Ht Hr|l t Hr|w l t Hw Hf Ht Hr]; cbn; try done.
  - unfold spacec. by rewrite (bool_decide_eq_true_2 _ Hc).
  - intros _. exists c. by destruct k.
  - by exists GREATER.
  - by exists GREATER.
  - intros _. destruct w as [|c w]; [done|]. by exists c.
Qed.

Lemma peek_run ts s l : 0 ∉ ts → rest_at s l → ∃ s', rest_at s' l ∧ (l = [] → s' = es) ∧
  peek buf es (ts ++ [0]) s = Ret (match l with [] => false | k :: _ => from_option (λ c, bool_decide (c ∈ ts)) false (starts k) end) s'.
Proof.
  intros Hts Hr. destruct (skip_spaces s l s Hr) as (s' & Hs & Hr' & Hsp). exists s'. split; [done|].
  unfold peek, get, put. rewrite (K_bind_Ret _ _ s s s) by done. kstep Hs. rewrite (K_bind_Ret _ _ s tt s') by done.
  pose proof (renders_head _ _ (proj2 Hr') Hsp) as Hh. destruct l as [|k l].
  - assert (s' = es) as ->. { pose proof (f_equal length Hh) as E. rewrite length_drop in E. cbn in E. destruct Hr'. unfold es. lia. }
    split; [done|]. kstep (char_run es es ltac:(done)). by rewrite lookup_ge_None_2.
  - split; [done|]. destruct Hh as (c & Hc & Hh). destruct (drop s' text) as [|c' u] eqn:E; [done|]. injection Hh as ->.
    destruct (char_drop s' c u s' E) as (Hch & Hc0 & _). kstep Hch. rewrite Hc. cbn [default from_option].
    rewrite (proj2 (Z.eqb_neq c 0)) by done. by rewrite in_string_eq.
Qed.

Lemma token_at_run q l st : rest_at q l → from_option spacec false (head (drop q text)) = false → ∃ eq,
  token_at buf es q st = Ret (from_option code 0 (head l), eq) st ∧ rest_at eq (tail l) ∧ ∀ w, head l = Some (TWord w) → word_at q eq w.
Proof.
  intros [Hq Hl] Hsp. unfold token_at. remember (drop q text) as t eqn:Et. symmetry in Et. assert (Hlen : length t = (es - q)%nat) by (subst t; by rewrite length_drop).
  destruct Hl as [|c l t Hc Hl|k c l t Hk Hl|l t Ht Hl|l t Hl|w l t Hw Hf Ht Hl]; cbn [head tail default from_option].
  - exists q. kstep (char_run q st Hq). rewrite <- head_drop, Et. split; [done|]. split; [|done]. split; [done|]. rewrite Et. constructor.
  - cbn in Hsp. unfold spacec in Hsp. by rewrite (bool_decide_eq_true_2 _ Hc) in Hsp.
  - destruct (char_drop q _ _ st Et) as (Hch & Hc0 & Hq'). kstep Hch. exists (S q). apply drop_cons in Et.
    split; [by destruct k; simplify_eq/=|]. split; [|by destruct k; simplify_eq/=]. split; [done|]. by rewrite Et.
  - destruct (char_drop q _ _ st Et) as (Hch & _ & Hq'). kstep Hch. exists (S q). apply drop_cons in Et.
    split; [|split; [by split; [|rewrite Et]|done]]. cbn. kstep (char_run (S q) st Hq'). rewrite <- head_drop, Et. 
    destruct t as [|c t]; [done|]. cbn in Ht |- *. destruct (Z.eqb_spec c GREATER) as [->|]; [done|]. done.
  - destruct (char_drop q _ _ st Et) as (Hch & _ & Hq'). kstep Hch. exists (S (S q)). apply drop_cons in Et.
    destruct (char_drop (S q) _ _ st Et) as (Hch' & _ & Hq''). apply drop_cons in Et. split; [by cbn; kstep Hch'|].
    split; [|done]. by split; [|rewrite Et].
  - exists (q + length w)%nat. destruct w as [|c w]; [done|]. destruct (char_drop q c (w ++ t) st Et) as (Hch & Hc0 & _). kstep Hch.
    assert (Hwc : wordc c = true) by (by apply Forall_cons in Hf as [? _]). rewrite (proj2 (Z.eqb_neq c 0)) by done.
    unfold wordc in Hwc. apply bool_decide_eq_true in Hwc as (_ & Hsy & _). 
    assert (∀ x, x ∈ syms → (c =? x) = false) as Hx by (intros x Hx; apply Z.eqb_neq; by intros ->).
    rewrite !Hx by (unfold syms; set_solver). cbn [orb]. rewrite (K_bind_Ret _ _ _ _ _ (skip_run in_word wordc (es - q) q st in_word_eq eq_refl Hq)).
    rewrite Et, (span_app wordc (c :: w) t Hf Ht). assert (Ed : drop (q + length (c :: w)) text = t).
    { by rewrite <- drop_drop, Et, drop_app_length. }
    rewrite length_app in Hlen. split; [done|]. split; [split; [unfold es in *; lia|by rewrite Ed]|].
    intros w' [= <-]. split; [unfold es in *; lia|]. replace (q + length (c :: w) - q)%nat with (length (c :: w)) by lia.
    rewrite Et, take_app_length. split; [done|]. split; [done|]. by rewrite <- head_drop, Ed.
Qed.

Lemma gettoken_run s l : rest_at s l → ∃ q eq s',
  gettoken buf es s = Ret (from_option code 0 (head l), q, eq) s' ∧ rest_at s' (tail l) ∧
  ∀ w, head l = Some (TWord w) → word_at q eq w.
Proof.
  intros Hr. destruct (skip_spaces s l s Hr) as (q & Hs & Hq & Hsp). destruct (token_at_run q l s Hq Hsp) as (eq & Ht & Hr' & Hw).
  destruct (skip_spaces eq (tail l) s Hr') as (s' & Hs' & Hr'' & _). exists q, eq, s'. split; [|done].
  unfold gettoken, get, put. rewrite (K_bind_Ret _ _ s s s) by done. kstep Hs. kstep Ht. by kstep Hs'.
Qed.

(** The command of the parser stands for a command of the grammar. *)
Fixpoint denotes (c : cmd) (g : command) : Prop :=
  match c, g with
  | Exec argv, CExec a => Forall2 (λ p w, word_at p.1 p.2 w) argv a
  | Redir c q eq mode fd, CRedir g w mode' fd' => denotes c g ∧ word_at q eq w ∧ mode = mode' ∧ fd = fd'
  | Pipe c1 c2, CPipe g1 g2 => denotes c1 g1 ∧ denotes c2 g2
  | List c1 c2, CList g1 g2 => denotes c1 g1 ∧ denotes c2 g2
  | Back c, CBack g => denotes c g
  | _, _ => False
  end.

(** ** The loops *)

(** Whether the next token starts with a character of [ts]. *)
Definition next_in (ts : list Z) (l : list token) : bool :=
  match l with
  | [] => false
  | k :: _ => from_option (λ c, bool_decide (c ∈ ts)) false (starts k)
  end.

Lemma rest_word s w l : rest_at s (TWord w :: l) → w ≠ [] ∧ Forall (λ c, wordc c = true) w.
Proof. intros [_ Hr]. remember (TWord w :: l) as l' eqn:El. induction Hr; simplify_eq/=; auto. Qed.
Lemma next_in_word s ts w l : rest_at s (TWord w :: l) → ts ⊆ syms → next_in ts (TWord w :: l) = false.
Proof.
  intros [Hne Hf]%rest_word Hts. destruct w as [|c w]; [done|]. apply Forall_cons in Hf as [Hc _]. cbn. apply bool_decide_eq_false_2.
  unfold wordc in Hc. apply bool_decide_eq_true in Hc as (_ & Hc & _). set_solver.
Qed.

Lemma redirs_run fuel c g s l : denotes c g → rest_at s l → (length l < fuel)%nat →
  match tredirs l with
  | Some (r, rest) => ∃ c' s', redirs_loop buf es fuel c s = Ret c' s' ∧ denotes c' (wrap g r) ∧ rest_at s' rest
  | None => redirs_loop buf es fuel c s = Panic "missing file for redirection"
  end.
Proof.
  revert c g s l. induction fuel as [|fuel IH]; intros c g s l Hd Hr Hl; [lia|]. cbn [redirs_loop].
  destruct (peek_run [LESS; GREATER] s l ltac:(set_solver) Hr) as (s1 & Hr1 & _ & Hp).
  change ([LESS; GREATER] ++ [0]) with [LESS; GREATER; 0] in Hp. kstep Hp. destruct l as [|k l]; [by exists c, s1|].
  cbn [tredirs]. destruct (redir_of k) as [[mode fd]|] eqn:Ek.
  - assert (from_option (λ c, bool_decide (c ∈ [LESS; GREATER])) false (starts k) = true) as -> by (by destruct k).
    destruct (gettoken_run s1 _ Hr1) as (q1 & e1 & s2 & Ht & Hr2 & _). cbn [negb]. kstep Ht. cbn [head tail from_option] in *.
    destruct (gettoken_run s2 _ Hr2) as (q & e & s3 & Ht2 & Hr3 & Hw). kstep Ht2.
    destruct l as [|k2 l]; [done|]. destruct k2 as [| | | | | | | |w]; try done. specialize (Hw w eq_refl). cbn [head tail from_option code] in *. rewrite Z.eqb_refl. cbn [negb].
    set (c2 := if code k =? LESS then _ else _). assert (Hd2 : denotes c2 (CRedir g w mode fd)).
    { unfold c2. destruct k; simplify_eq/=; by split_and!. }
    cbn [length] in Hl. specialize (IH c2 _ s3 l Hd2 Hr3 ltac:(lia)). destruct (tredirs l) as [[r rest]|]; exact IH.
  - assert (from_option (λ c, bool_decide (c ∈ [LESS; GREATER])) false (starts k) = false) as ->.
    { destruct k; try done. apply (next_in_word s1 [LESS; GREATER] w l Hr1). unfold syms. set_solver. }
    by exists c, s1.
Qed.

Lemma wrap_app g r1 r2 : wrap g (r1 ++ r2) = wrap (wrap g r1) r2.
Proof. revert g. induction r1 as [|[[w m] f] r1 IH]; intros g; [done|]. cbn. apply IH. Qed.

Lemma set_argv_denotes argv a c r : denotes c (wrap (CExec []) r) → Forall2 (λ p w, word_at p.1 p.2 w) argv a →
  denotes (set_argv argv c) (wrap (CExec a) r).
Proof.
  intros Hc Ha. revert c Hc. induction r as [|[[w m] f] r IH] using rev_ind; intros c; [by destruct c|].
  rewrite !wrap_app. cbn. destruct c; cbn; try done. intros (Hc & ?). split; [|done]. by apply IH.
Qed.

Lemma exec_run fuel l : ∀ argv a0 c r0 s,
  denotes c (wrap (CExec []) r0) → Forall2 (λ p w, word_at p.1 p.2 w) argv a0 → rest_at s l → (length l < fuel ≤ S es)%nat →
  match targs (length argv) l with
  | inr (a, r, rest) => ∃ c' s', (c ← parseredirs buf es c; exec_loop buf es fuel argv c) s = Ret c' s' ∧
      denotes c' (wrap (CExec (a0 ++ a)) (r0 ++ r)) ∧ rest_at s' rest
  | inl msg => (c ← parseredirs buf es c; exec_loop buf es fuel argv c) s = Panic msg
  end.
Proof.
  revert l. induction fuel as [|fuel IH]; intros l argv a0 c r0 s Hd Ha Hr Hl; [lia|]. rewrite targs_tredirs.
  pose proof (redirs_run (S es) c _ s l Hd Hr ltac:(lia)) as Hred. destruct (tredirs l) as [[r rest]|] eqn:Et; [|by rewrite (K_bind_Panic _ _ _ _ Hred)].
  destruct Hred as (c1 & s1 & Hred & Hd1 & Hr1). unfold parseredirs. kstep Hred. rewrite <- wrap_app in Hd1.
  apply tredirs_sound in Et as (l1 & -> & _ & Hno). rewrite length_app in Hl. cbn [exec_loop].
  destruct (peek_run [BAR; RPAREN; AMP; SEMI] s1 rest ltac:(set_solver) Hr1) as (s2 & Hr2 & _ & Hp).
  change ([BAR; RPAREN; AMP; SEMI] ++ [0]) with [BAR; RPAREN; AMP; SEMI; 0] in Hp. kstep Hp.
  assert (Hend : ∃ c', set_argv argv c1 = c' ∧ denotes c' (wrap (CExec (a0 ++ [])) (r0 ++ r ++ []))).
  { exists (set_argv argv c1). split; [done|]. rewrite !app_nil_r. by apply set_argv_denotes. }
  destruct Hend as (c' & Hc' & Hd'). destruct rest as [|k rest].
  - destruct (gettoken_run s2 [] Hr2) as (q & e & s3 & Ht & Hr3 & _). kstep Ht. cbn. rewrite Hc'. by exists c', s3.
  - assert (redir_of k = None) as Hk by (by eapply Hno).
    destruct k as [| | | | | | | |w]; try done; cbn [targs redir_of]; try (rewrite decide_False by done; rewrite Hc'; by exists c', s2).
    + rewrite decide_True by done. replace (from_option _ false (starts TLparen)) with false by done. destruct (gettoken_run s2 _ Hr2) as (q & e & s3 & Ht & _). by kstep Ht.
    + replace (from_option _ false (starts (TWord w))) with false by (symmetry; apply (next_in_word s2 [BAR; RPAREN; AMP; SEMI] w rest Hr2); unfold syms; set_solver).
      destruct (gettoken_run s2 _ Hr2) as (q & e & s3 & Ht & Hr3 & Hw). kstep Ht. specialize (Hw w eq_refl). cbn [head tail from_option code] in *.
      rewrite Z.eqb_refl. change (WORD =? 0) with false. cbn [negb]. rewrite length_app. cbn [length]. rewrite Nat.add_1_r.
      destruct (MAXARGS <=? S (length argv))%nat; [done|]. cbn [length] in Hl.
      specialize (IH rest (argv ++ [(q, e)]) (a0 ++ [w]) c1 (r0 ++ r) s3 Hd1 ltac:(apply Forall2_app; [done|by apply Forall2_cons]) Hr3 ltac:(lia)).
      rewrite length_app in IH. cbn [length] in IH. rewrite Nat.add_1_r in IH.
      destruct (targs (S (length argv)) rest) as [msg|[[a r'] rest']]; [done|]. destruct IH as (c2 & s4 & HIH & Hd2 & Hr4).
      exists c2, s4. split; [done|]. split; [|done]. by rewrite <- !(assoc_L (++)) in Hd2.
Qed.

Lemma back_run fuel n c g s rest : denotes c g → rest_at s (replicate n TAmp ++ rest) → head rest ≠ Some TAmp → (n < fuel)%nat →
  ∃ c' s', back_loop buf es fuel c s = Ret c' s' ∧ denotes c' (backs n g) ∧ rest_at s' rest.
Proof.
  revert n c g s. induction fuel as [|fuel IH]; intros n c g s Hd Hr Hh Hn; [lia|]. cbn [back_loop].
  destruct (peek_run [AMP] s _ ltac:(set_solver) Hr) as (s1 & Hr1 & _ & Hp). change ([AMP] ++ [0]) with [AMP; 0] in Hp. kstep Hp.
  destruct n as [|n]; cbn [replicate app] in *.
  - exists c, s1. replace (match rest with [] => false | k :: _ => _ end) with false; [done|]. destruct rest as [|k rest]; [done|].
    destruct k; try done. symmetry. apply (next_in_word s1 [AMP] w rest Hr1). unfold syms. set_solver.
  - destruct (gettoken_run s1 _ Hr1) as (q & e & s2 & Ht & Hr2 & _). replace (from_option _ false (starts TAmp)) with true by done. cbn [negb]. kstep Ht. apply (IH n (Back c) (CBack g) s2); [done|done|done|lia].
Qed.

(** ** What the parser returns *)

Lemma peek_symbol k c s l : symbol k = Some c → rest_at s l → ∃ s', rest_at s' l ∧
  peek buf es [c; 0] s = Ret (bool_decide (head l = Some k)) s'.
Proof.
  intros Hk Hr. assert (Hc : c ∈ syms ∧ 0 ∉ [c]) by (unfold syms; destruct k; simplify_eq/=; set_solver).
  destruct (peek_run [c] s l (proj2 Hc) Hr) as (s' & Hr' & _ & Hp). exists s'. split; [done|]. etrans; [exact Hp|]. f_equal.
  destruct l as [|k' l]; [done|]. cbn [head]. destruct k' as [| | | | | | | |w]; try (by destruct k; simplify_eq/=).
  etrans; [apply (next_in_word s' [c] w l Hr'); set_solver|]. by destruct k.
Qed.

Lemma amp_split l : ∃ n rest, l = replicate n TAmp ++ rest ∧ head rest ≠ Some TAmp.
Proof.
  induction l as [|k l (n & rest & -> & Hr)]; [by exists 0%nat, []|]. destruct (decide (k = TAmp)) as [->|Hk].
  - by exists (S n), rest.
  - exists 0%nat, (k :: replicate n TAmp ++ rest). split; [done|]. cbn. congruence.
Qed.

Definition messages : list string :=
  ["missing file for redirection"; "syntax"; "too many args"; "syntax - missing )"]%string.

(** The parser [m] takes tokens that [G] derives, or panics. *)
Definition sound (G : command → list token → Prop) (m : K nat cmd) (l : list token) (s : nat) : Prop :=
  wp m messages (λ c s', ∃ g l1 rest, l = l1 ++ rest ∧ G g l1 ∧ denotes c g ∧ rest_at s' rest) s.

Lemma rest_length s l : rest_at s l → (length l ≤ es)%nat.
Proof. intros [Hs Hr]. apply renders_length in Hr. rewrite length_drop in Hr. unfold es. lia. Qed.

Lemma targs_message n l msg : targs n l = inl msg → msg ∈ messages.
Proof.
  revert n. induction l as [|k|k k2 l IH IH2] using list_ind2; intros n; [done|..]; intros E.
  - destruct k; cbn [targs redir_of] in E; try (rewrite decide_False in E by done; done); try (injection E as <-; set_solver).
    destruct (MAXARGS <=? S n)%nat; [|done]. injection E as <-. set_solver.
  - destruct k; try (cbn [targs redir_of] in E; rewrite decide_False in E by done; done); try (injection E as <-; set_solver).
    1-3: cbn [targs redir_of] in E; destruct k2; try (injection E as <-; set_solver); destruct (targs n l) as [m|[[? ?] ?]] eqn:El; [|done];
      injection E as <-; by apply (IH n).
    change ((if (MAXARGS <=? S n)%nat then inl "too many args"%string else match targs (S n) (k2 :: l) with inr (a, r, rest) => inr (w :: a, r, rest) | inl msg => inl msg end) = inl msg) in E.
    destruct (MAXARGS <=? S n)%nat; [injection E as <-; set_solver|]. destruct (targs (S n) (k2 :: l)) as [m|[[? ?] ?]] eqn:El; [|done].
    injection E as <-. by apply (IH2 (S n)).
Qed.

Lemma exec_sound l s : rest_at s l → sound gexec (c ← parseredirs buf es (Exec []); exec_loop buf es (S es) [] c) l s.
Proof.
  intros Hr. pose proof (rest_length _ _ Hr) as Hl.
  pose proof (exec_run (S es) l [] [] (Exec []) [] s ltac:(by constructor) ltac:(constructor) Hr ltac:(lia)) as Hx. cbn [length] in Hx.
  unfold sound, wp. destruct (targs 0 l) as [msg|[[a r] rest]] eqn:Et.
  - rewrite Hx. by eapply targs_message.
  - destruct Hx as (c' & s' & -> & Hd & Hr'). destruct (targs_sound 0 l a r rest ltac:(unfold MAXARGS; lia) Et) as (l1 & -> & Hs & Ha & _).
    eexists _, l1, rest. split; [done|]. split; [by apply ge_simple|]. done.
Qed.

Lemma parse_sound fuel : ∀ s l, rest_at s l →
  ((4 * length l + 4 ≤ fuel)%nat → sound gline (parseline buf es fuel) l s) ∧
  ((4 * length l + 3 ≤ fuel)%nat → sound gpipe (parsepipe buf es fuel) l s) ∧
  ((4 * length l + 2 ≤ fuel)%nat → sound gexec (parseexec buf es fuel) l s) ∧
  ((4 * length l + 1 ≤ fuel)%nat → head l = Some TLparen → sound gexec (parseblock buf es fuel) l s).
Proof.
  induction fuel as [|fuel IH]; intros s l Hr; [lia|].
  destruct (IH s l Hr) as (IHl & IHp & IHe & IHb). split; [|split; [|split]]; intros Hf; unfold sound in *.
  - cbn [parseline]. eapply wp_bind, wp_mono; [apply IHp; lia|]. intros c s1 (g & l1 & l2 & -> & Hg & Hd & Hr1). rewrite length_app in Hf.
    destruct (amp_split l2) as (n & rest & -> & Hh). rewrite length_app, length_replicate in Hf. pose proof (rest_length _ _ Hr1) as Hle. rewrite length_app, length_replicate in Hle.
    destruct (back_run (S es) n c g s1 rest Hd Hr1 Hh ltac:(lia)) as (c2 & s2 & Hb & Hd2 & Hr2). wp_step Hb.
    destruct (peek_symbol TSemi SEMI s2 rest eq_refl Hr2) as (s3 & Hr3 & Hp). wp_step Hp. case_bool_decide as Hs.
    + destruct rest as [|k rest]; [done|]. injection Hs as ->. destruct (gettoken_run s3 _ Hr3) as (q & e & s4 & Ht & Hr4 & _). wp_step Ht.
      cbn in Hf, Hr4. destruct (IH s4 rest Hr4) as (IHl2 & _). eapply wp_bind, wp_mono; [apply IHl2; lia|].
      intros c3 s5 (g3 & l3 & l4 & -> & Hg3 & Hd3 & Hr5). apply wp_ret. exists (CList (backs n g) g3), (l1 ++ replicate n TAmp ++ TSemi :: l3), l4.
      split; [by rewrite <- !(assoc_L (++))|]. split; [by constructor|done].
    + apply wp_ret. exists (backs n g), (l1 ++ replicate n TAmp), rest. split; [by rewrite <- (assoc_L (++))|]. split; [by constructor|done].
  - cbn [parsepipe]. eapply wp_bind, wp_mono; [apply IHe; lia|]. intros c s1 (g & l1 & l2 & -> & Hg & Hd & Hr1). rewrite length_app in Hf.
    destruct (peek_symbol TBar BAR s1 l2 eq_refl Hr1) as (s2 & Hr2 & Hp). wp_step Hp. case_bool_decide as Hs.
    + destruct l2 as [|k l2]; [done|]. injection Hs as ->. destruct (gettoken_run s2 _ Hr2) as (q & e & s3 & Ht & Hr3 & _). wp_step Ht.
      cbn in Hf, Hr3. destruct (IH s3 l2 Hr3) as (_ & IHp2 & _). eapply wp_bind, wp_mono; [apply IHp2; lia|].
      intros c3 s5 (g3 & l3 & l4 & -> & Hg3 & Hd3 & Hr5). apply wp_ret. exists (CPipe g g3), (l1 ++ TBar :: l3), l4.
      split; [by rewrite <- !(assoc_L (++))|]. split; [by constructor|done].
    + apply wp_ret. exists g, l1, l2. split; [done|]. split; [by constructor|done].
  - cbn [parseexec]. destruct (peek_symbol TLparen LPAREN s l eq_refl Hr) as (s1 & Hr1 & Hp). wp_step Hp.
    destruct (IH s1 l Hr1) as (_ & _ & _ & IHb1). case_bool_decide as Hs; [apply IHb1; [lia|done]|]. by apply exec_sound.
  - intros Hh. destruct l as [|k l]; [done|]. injection Hh as ->. cbn [parseblock].
    destruct (peek_symbol TLparen LPAREN s _ eq_refl Hr) as (s1 & Hr1 & Hp). wp_step Hp. rewrite bool_decide_eq_true_2 by done. cbn [negb].
    destruct (gettoken_run s1 _ Hr1) as (q & e & s2 & Ht & Hr2 & _). wp_step Ht. cbn in Hf, Hr2. destruct (IH s2 l Hr2) as (IHl2 & _).
    eapply wp_bind, wp_mono; [apply IHl2; lia|]. intros c s3 (g & l1 & l2 & -> & Hg & Hd & Hr3).
    destruct (peek_symbol TRparen RPAREN s3 l2 eq_refl Hr3) as (s4 & Hr4 & Hp4). wp_step Hp4. case_bool_decide as Hs; [|apply wp_Panic; set_solver]. cbn [negb].
    destruct l2 as [|k l2]; [done|]. injection Hs as ->. destruct (gettoken_run s4 _ Hr4) as (q2 & e2 & s5 & Ht5 & Hr5 & _). wp_step Ht5. cbn in Hr5.
    pose proof (redirs_run (S es) c g s5 l2 Hd Hr5 ltac:(pose proof (rest_length _ _ Hr5); lia)) as Hx. unfold parseredirs, wp.
    destruct (tredirs l2) as [[r rest]|] eqn:Et; [|rewrite Hx; set_solver]. destruct Hx as (c' & s' & -> & Hd' & Hr').
    apply tredirs_sound in Et as (l3 & -> & Hs3 & _). exists (wrap g r), (TLparen :: l1 ++ TRparen :: l3), rest.
    split; [cbn; by rewrite <- !(assoc_L (++))|]. split; [by constructor|done].
Qed.

(** Whatever the grammar derives is parsed, up to what follows it. *)
Definition complete (F : list token → Prop) (m : nat → K nat cmd) (k : nat) (g : command) (l : list token) : Prop :=
  ∀ rest s fuel, F rest → rest_at s (l ++ rest) → (4 * length l + k ≤ fuel)%nat →
    ∃ c s', m fuel s = Ret c s' ∧ denotes c g ∧ rest_at s' rest.
Definition ends_line (l : list token) : Prop := l = [] ∨ head l = Some TRparen.
Definition ends_pipe (l : list token) : Prop := stops l = true ∧ head l ≠ Some TBar.
Definition ends_exec (l : list token) : Prop := stops l = true.

Lemma ends_line_pipe n l : ends_line l → ends_pipe (replicate n TAmp ++ l).
Proof. intros [->|H]; destruct n; split; try done; destruct l as [|[] l]; done. Qed.
Lemma ends_semi n l : ends_pipe (replicate n TAmp ++ TSemi :: l).
Proof. by destruct n. Qed.

Lemma complete_block g l l2 r : complete ends_line (parseline buf es) 4 g l → simple l2 [] r →
  complete ends_exec (parseblock buf es) 1 (wrap g r) (TLparen :: l ++ TRparen :: l2).
Proof.
  intros IH Hs rest s fuel Hrest Hr Hf. destruct fuel as [|fuel]; [lia|]. cbn [app length] in *. rewrite length_app in Hf.
  rewrite <- (assoc_L (++)) in Hr. cbn [app] in Hr. cbn [parseblock].
  destruct (peek_symbol TLparen LPAREN s _ eq_refl Hr) as (s1 & Hr1 & Hp). kstep Hp. rewrite bool_decide_eq_true_2 by done. cbn [negb].
  destruct (gettoken_run s1 _ Hr1) as (q & e & s2 & Ht & Hr2 & _). kstep Ht. cbn [tail] in Hr2.
  destruct (IH (TRparen :: l2 ++ rest) s2 fuel) as (c & s3 & Hl & Hd & Hr3); [by right|done|lia|]. kstep Hl.
  destruct (peek_symbol TRparen RPAREN s3 _ eq_refl Hr3) as (s4 & Hr4 & Hp4). kstep Hp4. rewrite bool_decide_eq_true_2 by done. cbn [negb].
  destruct (gettoken_run s4 _ Hr4) as (q2 & e2 & s5 & Ht5 & Hr5 & _). kstep Ht5. cbn [tail] in Hr5.
  pose proof (redirs_run (S es) c g s5 _ Hd Hr5 ltac:(pose proof (rest_length _ _ Hr5); lia)) as Hx.
  rewrite (tredirs_complete l2 r rest Hs) in Hx; [exact Hx|]. intros k l' ->. by destruct k.
Qed.

Lemma complete_simple l a r : simple l a r → (length a < MAXARGS)%nat →
  complete ends_exec (parseexec buf es) 2 (wrap (CExec a) r) l.
Proof.
  intros Hs Ha rest s fuel Hrest Hr Hf. destruct fuel as [|fuel]; [lia|]. cbn [parseexec].
  destruct (peek_symbol TLparen LPAREN s _ eq_refl Hr) as (s1 & Hr1 & Hp). kstep Hp.
  rewrite bool_decide_eq_false_2. 2:{ destruct Hs; cbn; [by destruct rest as [|[] rest]|done|]. intros [= ->]. done. }
  pose proof (exec_run (S es) _ [] [] (Exec []) [] s1 ltac:(by constructor) ltac:(constructor) Hr1 ltac:(pose proof (rest_length _ _ Hr1); lia)) as Hx.
  cbn [length] in Hx. rewrite (targs_complete 0 l a r rest Hs) in Hx by (done || lia). exact Hx.
Qed.

Lemma parse_complete :
  (∀ g l, gline g l → complete ends_line (parseline buf es) 4 g l) ∧
  (∀ g l, gpipe g l → complete ends_pipe (parsepipe buf es) 3 g l) ∧
  (∀ g l, gexec g l → complete ends_exec (parseexec buf es) 2 g l).
Proof.
  apply grammar_ind.
  - intros n g l _ IH rest s fuel Hrest Hr Hf. destruct fuel as [|fuel]; [lia|]. rewrite length_app in Hf. rewrite <- (assoc_L (++)) in Hr. cbn [parseline].
    destruct (IH (replicate n TAmp ++ rest) s fuel) as (c & s1 & Hp & Hd & Hr1); [by apply ends_line_pipe|done|lia|]. kstep Hp.
    assert (Hh : head rest ≠ Some TAmp ∧ head rest ≠ Some TSemi) by (destruct Hrest as [->| ->]; done).
    destruct (back_run (S es) n c g s1 rest Hd Hr1 (proj1 Hh)) as (c2 & s2 & Hb & Hd2 & Hr2).
    { pose proof (rest_length _ _ Hr1) as Hle. rewrite length_app, length_replicate in Hle. lia. }
    kstep Hb. destruct (peek_symbol TSemi SEMI s2 rest eq_refl Hr2) as (s3 & Hr3 & Hp3). kstep Hp3. rewrite bool_decide_eq_false_2 by apply Hh. by exists c2, s3.
  - intros n g l g2 l2 _ IH _ IH2 rest s fuel Hrest Hr Hf. destruct fuel as [|fuel]; [lia|]. rewrite !length_app in Hf. cbn [length] in Hf. rewrite <- !(assoc_L (++)) in Hr. cbn [parseline].
    destruct (IH (replicate n TAmp ++ TSemi :: l2 ++ rest) s fuel) as (c & s1 & Hp & Hd & Hr1); [apply ends_semi|done|lia|]. kstep Hp.
    destruct (back_run (S es) n c g s1 _ Hd Hr1 ltac:(done)) as (c2 & s2 & Hb & Hd2 & Hr2).
    { pose proof (rest_length _ _ Hr1) as Hle. rewrite length_app, length_replicate in Hle. lia. }
    kstep Hb. destruct (peek_symbol TSemi SEMI s2 _ eq_refl Hr2) as (s3 & Hr3 & Hp3). kstep Hp3. rewrite bool_decide_eq_true_2 by done.
    destruct (gettoken_run s3 _ Hr3) as (q & e & s4 & Ht & Hr4 & _). kstep Ht. cbn [tail] in Hr4.
    destruct (IH2 rest s4 fuel) as (c5 & s5 & Hp5 & Hd5 & Hr5); [done|done|lia|]. kstep Hp5. by exists (List c2 c5), s5.
  - intros g l _ IH rest s fuel [Hrest Hbar] Hr Hf. destruct fuel as [|fuel]; [lia|]. cbn [parsepipe].
    destruct (IH rest s fuel) as (c & s1 & Hp & Hd & Hr1); [done|done|lia|]. kstep Hp.
    destruct (peek_symbol TBar BAR s1 rest eq_refl Hr1) as (s3 & Hr3 & Hp3). kstep Hp3. rewrite bool_decide_eq_false_2 by done. by exists c, s3.
  - intros g l g2 l2 _ IH _ IH2 rest s fuel Hrest Hr Hf. destruct fuel as [|fuel]; [lia|]. rewrite length_app in Hf. cbn [length] in Hf. rewrite <- !(assoc_L (++)) in Hr. cbn [parsepipe].
    destruct (IH (TBar :: l2 ++ rest) s fuel) as (c & s1 & Hp & Hd & Hr1); [done|done|lia|]. kstep Hp.
    destruct (peek_symbol TBar BAR s1 _ eq_refl Hr1) as (s3 & Hr3 & Hp3). kstep Hp3. rewrite bool_decide_eq_true_2 by done.
    destruct (gettoken_run s3 _ Hr3) as (q & e & s4 & Ht & Hr4 & _). kstep Ht. cbn [tail] in Hr4.
    destruct (IH2 rest s4 fuel) as (c5 & s5 & Hp5 & Hd5 & Hr5); [done|done|lia|]. kstep Hp5. by exists (Pipe c c5), s5.
  - intros l a r Hs Ha. by apply complete_simple.
  - intros g l l2 r _ IH Hs rest s fuel Hrest Hr Hf. destruct fuel as [|fuel]; [lia|]. cbn [parseexec].
    destruct (peek_symbol TLparen LPAREN s _ eq_refl Hr) as (s1 & Hr1 & Hp). kstep Hp. rewrite bool_decide_eq_true_2 by done.
    apply (complete_block g l l2 r IH Hs rest s1 fuel Hrest Hr1). lia.
Qed.

Lemma rest_end l : rest_at es l → l = [].
Proof.
  intros [_ Hr]. rewrite drop_ge in Hr by done. remember [] as t eqn:Et in Hr. destruct Hr; try done. by destruct w.
Qed.

Lemma parse_all_sound l : renders l text →
  wp (parse_all buf es) messages (λ c _, ∃ g, gline g l ∧ denotes c g) 0%nat.
Proof.
  intros Hl. assert (Hr : rest_at 0 l) by (split; [lia|done]). pose proof (rest_length _ _ Hr).
  unfold parse_all. eapply wp_bind, wp_mono; [apply (parse_sound _ 0 l Hr); lia|]. intros c s (g & l1 & rest & -> & Hg & Hd & Hr1).
  destruct (peek_run [] s rest ltac:(set_solver) Hr1) as (s2 & Hr2 & _ & Hp). wp_step Hp. eapply wp_bind, wp_gets.
  destruct (Nat.eqb_spec s2 es) as [->|]; [|apply wp_Panic; set_solver]. apply rest_end in Hr2 as ->. rewrite app_nil_r in *. apply wp_ret. by exists g.
Qed.

Lemma parse_all_complete g l : renders l text → gline g l → ∃ c s, parse_all buf es 0%nat = Ret c s ∧ denotes c g.
Proof.
  intros Hl Hg. assert (Hr : rest_at 0 (l ++ [])) by (rewrite app_nil_r; split; [lia|done]). pose proof (rest_length _ _ Hr) as Hle. rewrite app_nil_r in Hle.
  destruct (proj1 parse_complete g l Hg [] 0%nat (4 * es + 5)%nat) as (c & s & Hp & Hd & Hr1); [by left|done|lia|].
  destruct (peek_run [] s [] ltac:(set_solver) Hr1) as (s2 & Hr2 & Hend & Hp2). exists c, s2. split; [|done].
  unfold parse_all. kstep Hp. kstep Hp2. rewrite (Hend eq_refl). unfold get. rewrite (K_bind_Ret _ _ es es es) by done. by rewrite Nat.eqb_refl.
Qed.

(** ** Ending the words *)

(** [b] has the word characters of the text. *)
Definition keeps_words (b : list Z) : Prop :=
  length b = length buf ∧ ∀ i c, text !! i = Some c → wordc c = true → b !! i = Some c.
Fixpoint ended (b : list Z) (c : cmd) : Prop :=
  match c with
  | Exec argv => Forall (λ p, b !! p.2 = Some 0) argv
  | Redir c _ efile _ _ => ended b c ∧ b !! efile = Some 0
  | Pipe c1 c2 | List c1 c2 => ended b c1 ∧ ended b c2
  | Back c => ended b c
  end.
Definition more_ended (b b' : list Z) : Prop := ∀ i, b !! i = Some 0 → b' !! i = Some 0.

Lemma ended_mono b b' c : more_ended b b' → ended b c → ended b' c.
Proof.
  intros Hm. induction c as [argv|c IH q e m f|c1 IH1 c2 IH2|c1 IH1 c2 IH2|c IH]; cbn; try naive_solver.
  intros H. eapply Forall_impl; [exact H|]. auto.
Qed.

Lemma put_nul_run b q e w : keeps_words b → word_at q e w → ∃ b', put_nul e b = Ret tt b' ∧ keeps_words b' ∧ more_ended b b' ∧ b' !! e = Some 0.
Proof.
  intros [Hl Hk] ((Hq & He) & _ & _ & Hw). assert (Hlt : (e < length b)%nat) by (rewrite Hl; unfold buf; rewrite length_app; cbn; lia).
  destruct (lookup_lt_is_Some_2 b e Hlt) as [c Hc]. exists (<[e:=0]> b). unfold put_nul. rewrite (K_bind_Ret _ _ b (b !! e) b) by done. rewrite Hc.
  split; [done|]. split; [split; [by rewrite length_insert|]|].
  - intros i c' Hi Hc'. rewrite list_lookup_insert_ne; [by apply Hk|]. intros ->. rewrite Hi in Hw. cbn in Hw. congruence.
  - split; [|by apply list_lookup_insert_eq]. intros i Hi. destruct (decide (i = e)) as [->|]; [by apply list_lookup_insert_eq|by rewrite list_lookup_insert_ne].
Qed.

Lemma nul_args_run argv a b : Forall2 (λ p w, word_at p.1 p.2 w) argv a → keeps_words b →
  ∃ b', nul_args argv b = Ret tt b' ∧ keeps_words b' ∧ more_ended b b' ∧ Forall (λ p, b' !! p.2 = Some 0) argv.
Proof.
  intros Ha. revert b. induction Ha as [|[q e] w argv a Hw _ IH]; intros b Hb; [exists b; do 2 (split; [done|]); split; [by intros ?|by apply Forall_nil]|]. cbn [nul_args].
  destruct (put_nul_run b q e w Hb Hw) as (b1 & Hp & Hb1 & Hm1 & He). kstep Hp. destruct (IH b1 Hb1) as (b2 & Hn & Hb2 & Hm2 & Hf).
  exists b2. split; [done|]. split; [done|]. split; [unfold more_ended in *; auto|]. constructor; [by apply Hm2|done].
Qed.

Lemma nul_run c g b : denotes c g → keeps_words b → ∃ b', nulterminate c b = Ret tt b' ∧ keeps_words b' ∧ more_ended b b' ∧ ended b' c.
Proof.
  revert g b. assert (Htwo : ∀ c1 c2 b, (∀ b, keeps_words b → ∃ b', nulterminate c1 b = Ret tt b' ∧ keeps_words b' ∧ more_ended b b' ∧ ended b' c1) →
    (∀ b, keeps_words b → ∃ b', nulterminate c2 b = Ret tt b' ∧ keeps_words b' ∧ more_ended b b' ∧ ended b' c2) → keeps_words b →
    ∃ b', (nulterminate c1;; nulterminate c2) b = Ret tt b' ∧ keeps_words b' ∧ more_ended b b' ∧ ended b' c1 ∧ ended b' c2).
  { intros c1 c2 b H1 H2 Hb. destruct (H1 b Hb) as (b1 & Hn1 & Hb1 & Hm1 & He1). destruct (H2 b1 Hb1) as (b2 & Hn2 & Hb2 & Hm2 & He2).
    exists b2. kstep Hn1. split; [done|]. split; [done|]. split; [unfold more_ended in *; auto|]. split; [by eapply ended_mono|done]. }
  induction c as [argv|c IH q e m f|c1 IH1 c2 IH2|c1 IH1 c2 IH2|c IH]; intros g b Hd Hb; destruct g as [a|g w m' f'|g1 g2|g1 g2|g]; try done; cbn [nulterminate ended].
  - by apply (nul_args_run _ a).
  - destruct Hd as (Hd & Hw & _). destruct (IH g b Hd Hb) as (b1 & Hn1 & Hb1 & Hm1 & He1).
    destruct (put_nul_run b1 q e w Hb1 Hw) as (b2 & Hp & Hb2 & Hm2 & He). exists b2. kstep Hn1. split; [done|]. split; [done|].
    split; [unfold more_ended in *; auto|]. split; [by eapply ended_mono|done].
  - destruct Hd as [Hd1 Hd2]. apply Htwo; [intros b' Hb'; by apply (IH1 g1)|intros b' Hb'; by apply (IH2 g2)|done].
  - destruct Hd as [Hd1 Hd2]. apply Htwo; [intros b' Hb'; by apply (IH1 g1)|intros b' Hb'; by apply (IH2 g2)|done].
  - by apply (IH g).
Qed.

Lemma word_read b q e w : keeps_words b → word_at q e w → b !! e = Some 0 → chars (drop q b) = Some w.
Proof.
  intros [Hl Hk] ((Hq & He) & Hw & Hf & _) Hz. assert (Hlen : length w = (e - q)%nat) by (rewrite <- Hw, length_take, length_drop; lia).
  assert (Hpre : take (e - q) (drop q b) = w).
  { apply list_eq. intros i. rewrite lookup_take. case_decide as Hi; [|symmetry; apply lookup_ge_None; lia].
    destruct (lookup_lt_is_Some_2 w i) as [c Hc]; [lia|]. rewrite Hc, lookup_drop. apply Hk; [|by apply (Forall_lookup_1 _ _ _ _ Hf Hc)].
    rewrite <- Hw, lookup_take in Hc. case_decide; [|done]. by rewrite lookup_drop in Hc. }
  rewrite <- (take_drop (e - q) (drop q b)), Hpre, drop_drop. replace (q + (e - q))%nat with e by lia. rewrite (drop_S _ _ _ Hz).
  apply chars_app. by apply wordc_nonzero.
Qed.

Lemma denotes_reads b c g : keeps_words b → ended b c → denotes c g → reads b c g.
Proof.
  intros Hb. revert g. induction c as [argv|c IH q e m f|c1 IH1 c2 IH2|c1 IH1 c2 IH2|c IH]; intros g He Hd; destruct g as [a|g w m' f'|g1 g2|g1 g2|g]; try done; cbn in *.
  - induction Hd as [|p w argv a Hw _ IH]; [constructor|]. apply Forall_cons in He as [He1 He2]. constructor; [by eapply word_read|by apply IH].
  - destruct Hd as (Hd & Hw & -> & ->), He as [He1 He2]. split_and!; [by apply IH|by eapply word_read|done|done].
  - naive_solver.
  - naive_solver.
  - by apply IH.
Qed.

Lemma keeps_start : keeps_words buf.
Proof. split; [done|]. intros i c Hi _. by apply lookup_app_l_Some. Qed.

Lemma parsecmd_Ret c g s : parse_all buf es 0%nat = Ret c s → denotes c g → ∃ b, parsecmd buf = Ret c b ∧ reads b c g.
Proof.
  intros Hp Hd. destruct (nul_run c g buf Hd keeps_start) as (b & Hn & Hb & _ & He). exists b. split; [|by apply denotes_reads].
  unfold parsecmd. rewrite (K_bind_Ret _ _ buf buf buf) by done. rewrite (ustrlen_text text junk text_ok : ustrlen buf = _). cbn [deref].
  rewrite (K_bind_Ret _ _ buf (Z.of_nat es) buf) by done. rewrite Nat2Z.id, Hp. by kstep Hn.
Qed.
Lemma parsecmd_Panic msg : parse_all buf es 0%nat = Panic msg → parsecmd buf = Panic msg.
Proof.
  intros Hp. unfold parsecmd. rewrite (K_bind_Ret _ _ buf buf buf) by done. rewrite (ustrlen_text text junk text_ok : ustrlen buf = _). cbn [deref].
  rewrite (K_bind_Ret _ _ buf (Z.of_nat es) buf) by done. by rewrite Nat2Z.id, Hp.
Qed.

End lexer.

(** ** The parser and the grammar *)

Lemma parsecmd_complete text junk l g : renders l text → gline g l →
  ∃ c b, parsecmd (text ++ 0 :: junk) = Ret c b ∧ reads b c g.
Proof.
  intros Hl Hg. pose proof (renders_nonzero _ _ Hl) as Ht. destruct (parse_all_complete text junk Ht g l Hl Hg) as (c & s & Hp & Hd).
  destruct (parsecmd_Ret text junk Ht c g s Hp Hd) as (b & Hb & Hr). by exists c, b.
Qed.

(** C31: The parser of the shell accepts exactly the lines of the grammar.  On
    every line it stops: it returns a command that the grammar derives from
    the tokens of the line, every word of which is a terminated string in the
    buffer, or it exits with one of four messages.  On every line that the
    grammar derives it returns, with the command derived. *)
Theorem parsecmd_spec text junk : Forall (λ c, c ≠ 0) text →
  wp parsecmd messages (λ c b, ∃ l g, renders l text ∧ gline g l ∧ reads b c g) (text ++ 0 :: junk) ∧
  ∀ l g, renders l text → gline g l → ∃ c b, parsecmd (text ++ 0 :: junk) = Ret c b ∧ reads b c g.
Proof.
  intros Ht. split; [|intros l g; apply parsecmd_complete]. destruct (renders_total text Ht) as [l Hl].
  pose proof (parse_all_sound text junk Ht l Hl) as Hp. unfold wp in Hp.
  destruct (parse_all _ _ _) as [c s|msg|on| |] eqn:E; try done.
  - destruct Hp as (g & Hg & Hd). destruct (parsecmd_Ret text junk Ht c g s E Hd) as (b & Hb & Hr). unfold wp. rewrite Hb. by exists l, g.
  - unfold wp. by rewrite (parsecmd_Panic text junk Ht msg E).
Qed.

(** [a;b] in a buffer of ten characters. *)
Lemma parsecmd_spec_witness : ∃ c b, parsecmd ([97; 59; 98] ++ 0 :: replicate 6 0) = Ret c b ∧
  reads b c (CList (CExec [[97]]) (CExec [[98]])).
Proof.
  destruct (parsecmd_spec [97; 59; 98] (replicate 6 0)) as [_ H]; [by repeat (constructor; [done|])|].
  apply (H [TWord [97]; TSemi; TWord [98]]).
  - apply (rn_word [97] _ [59; 98]); [done|by constructor|done|]. apply (rn_symbol TSemi); [done|].
    apply (rn_word [98] [] []); [done|by constructor|done|constructor].
  - apply (gl_list 0 (CExec [[97]]) [TWord [97]] (CExec [[98]]) [TWord [98]]).
    + apply gp_exec, (ge_simple _ [[97]] []); [repeat constructor|cbn; unfold MAXARGS; lia].
    + apply (gl_pipe 0 (CExec [[98]]) [TWord [98]]), gp_exec, (ge_simple _ [[98]] []); [repeat constructor|cbn; unfold MAXARGS; lia].
Defined.
