(* ===== verification/ShellShow.v ===== *)
(** * ShellShow: every command can be written and is read back

    [show] writes a command as tokens, with parentheses where the grammar
    needs them; [unlex] writes tokens as text.  The parser of the shell reads
    the text of every command back to that command. *)

From Stdlib Require Import ZArith Lia.
From stdpp Require Import base numbers strings sets list.
From S2P Require Import Prelude Ulib Shell ShellSpec.
Open Scope Z_scope.

(** ** Writing *)

Definition good_word (w : list Z) : Prop := w ≠ [] ∧ Forall (λ c, wordc c = true) w.

(** The commands that the shell has a syntax for. *)
Fixpoint good (g : command) : Prop :=
  match g with
  | CExec a => (length a < MAXARGS)%nat ∧ Forall good_word a
  | CRedir g w mode fd => good g ∧ good_word w ∧ ((mode, fd) = (O_RDONLY, 0) ∨ (mode, fd) = (Z.lor O_WRONLY O_CREATE, 1))
  | CPipe g1 g2 | CList g1 g2 => good g1 ∧ good g2
  | CBack g => good g
  end.

Definition paren (b : bool) (l : list token) : list token := if b then TLparen :: l ++ [TRparen] else l.

(** Level 0 is a line, 1 a command before [&], 2 a pipeline, 3 one of its parts. *)
Fixpoint show (level : nat) (g : command) : list token :=
  match g with
  | CExec a => TWord <$> a
  | CRedir g w _ fd => show 3 g ++ [if fd =? 0 then TLess else TGreater; TWord w]
  | CPipe g1 g2 => paren (2 <? level)%nat (show 3 g1 ++ TBar :: show 2 g2)
  | CBack g => paren (1 <? level)%nat (show 1 g ++ [TAmp])
  | CList g1 g2 => paren (0 <? level)%nat (show 1 g1 ++ TSemi :: show 0 g2)
  end.

(** A token and a space after it. *)
Definition spell (k : token) : list Z :=
  match k with
  | TGreater => [GREATER]
  | TAppend => [GREATER; GREATER]
  | TWord w => w
  | k => match symbol k with Some c => [c] | None => [] end
  end.
Definition unlex (l : list token) : list Z := concat ((λ k, spell k ++ [32]) <$> l).

Definition good_token (k : token) : Prop := match k with TWord w => good_word w | _ => True end.

Lemma unlex_renders l : Forall good_token l → renders l (unlex l).
Proof.
  induction 1 as [|k l Hk _ IH]; [constructor|]. unfold unlex in *. cbn [fmap list_fmap concat]. rewrite <- (assoc_L (++)).
  assert (Hsp : renders l ([32] ++ concat ((λ k, spell k ++ [32]) <$> l))) by (apply rn_space; [unfold spaces; set_solver|done]).
  destruct k as [| | | | | | | |w]; try (by apply rn_symbol); [by apply rn_greater|by apply rn_append|].
  destruct Hk as [Hne Hf]. by apply rn_word.
Qed.

(** ** The text is derived *)

Lemma simple_words a : simple (TWord <$> a) a [].
Proof. induction a; cbn; by constructor. Qed.
Lemma simple_snoc l a r k w mode fd : simple l a r → redir_of k = Some (mode, fd) →
  simple (l ++ [k; TWord w]) a (r ++ [(w, mode, fd)]).
Proof. intros Hs Hk. induction Hs; cbn; repeat (constructor; try done). Qed.
Lemma gexec_redir g l k w mode fd : gexec g l → redir_of k = Some (mode, fd) → gexec (CRedir g w mode fd) (l ++ [k; TWord w]).
Proof.
  intros Hg Hk. inversion Hg as [l' a r Hs Ha|g' l' l2 r Hl Hs]; subst.
  - change (CRedir ?g w mode fd) with (wrap g [(w, mode, fd)]). rewrite <- wrap_app. apply ge_simple; [by apply simple_snoc|done].
  - change (CRedir ?g w mode fd) with (wrap g [(w, mode, fd)]). rewrite <- wrap_app. cbn. rewrite <- (assoc_L (++)). apply ge_block; [done|by apply simple_snoc].
Qed.

(** What [show] writes at each level. *)
Definition level_ok (level : nat) (g : command) : Prop :=
  match level with
  | 0%nat => gline g (show 0 g)
  | 1%nat => ∃ n g0 l0, g = backs n g0 ∧ show 1 g = l0 ++ replicate n TAmp ∧ gpipe g0 l0
  | 2%nat => gpipe g (show 2 g)
  | _ => gexec g (show 3 g)
  end.

Lemma level_line g n g0 l0 : g = backs n g0 → gpipe g0 l0 → gline g (l0 ++ replicate n TAmp).
Proof. intros -> Hp. by apply gl_pipe. Qed.
Lemma backs_snoc n g : backs (S n) g = CBack (backs n g).
Proof. revert g. induction n as [|n IH]; intros g; [done|]. cbn in *. by rewrite IH. Qed.
Lemma block_ok g l : gline g l → gexec g (paren true l).
Proof. intros Hl. apply (ge_block g l [] []); [done|constructor]. Qed.

(** A part of a pipeline is a pipeline, which is a line. *)
Lemma exec_levels g : show 1 g = show 3 g → show 2 g = show 3 g → show 0 g = show 3 g → gexec g (show 3 g) →
  level_ok 0 g ∧ level_ok 1 g ∧ level_ok 2 g ∧ level_ok 3 g.
Proof.
  intros E1 E2 E0 Hg. assert (Hp : gpipe g (show 3 g)) by (by constructor). cbn. rewrite E0, E1, E2. split_and!; [|exists 0%nat, g, (show 3 g)|done|done].
  - rewrite <- (app_nil_r (show 3 g)). by apply (gl_pipe 0).
  - by rewrite app_nil_r.
Qed.

Lemma show_ok g : good g → level_ok 0 g ∧ level_ok 1 g ∧ level_ok 2 g ∧ level_ok 3 g.
Proof.
  induction g as [a|g IH w mode fd|g1 IH1 g2 IH2|g1 IH1 g2 IH2|g IH]; cbn [good]; intros Hg.
  - apply exec_levels; try done. apply (ge_simple _ a []); [apply simple_words|apply Hg].
  - destruct Hg as (Hg & _ & Hm). destruct (IH Hg) as (_ & _ & _ & H3). apply exec_levels; try done. cbn [show].
    apply gexec_redir; [done|]. by destruct Hm as [[= -> ->]|[= -> ->]].
  - destruct Hg as [Hg1 Hg2]. destruct (IH1 Hg1) as (_ & _ & _ & H1), (IH2 Hg2) as (_ & _ & H2 & _). cbn [level_ok show paren] in *.
    assert (Hp : gpipe (CPipe g1 g2) (show 3 g1 ++ TBar :: show 2 g2)) by (by constructor).
    assert (Hl : gline (CPipe g1 g2) (show 3 g1 ++ TBar :: show 2 g2)) by (rewrite <- app_nil_r; by apply (gl_pipe 0)).
    split_and!; [done|exists 0%nat; by eexists _, _; split; [|split; [by rewrite app_nil_r|]]|done|by apply block_ok].
  - destruct Hg as [Hg1 Hg2]. destruct (IH1 Hg1) as (_ & (n & g0 & l0 & -> & E1 & H1) & _), (IH2 Hg2) as (H2 & _). cbn [level_ok show paren] in *.
    assert (Hl : gline (CList (backs n g0) g2) (show 1 (backs n g0) ++ TSemi :: show 0 g2)) by (rewrite E1, <- (assoc_L (++)); by constructor).
    assert (He := block_ok _ _ Hl). assert (Hp : gpipe _ _) by (by apply gp_exec).
    split_and!; [done|exists 0%nat; by eexists _, _; split; [|split; [by rewrite app_nil_r|]]|done|done].
  - destruct (IH Hg) as (_ & (n & g0 & l0 & -> & E1 & H1) & _). cbn [level_ok show paren] in *.
    assert (E : show 1 (backs n g0) ++ [TAmp] = l0 ++ replicate (S n) TAmp) by (rewrite E1, <- (assoc_L (++)), <- replicate_cons_app; done).
    assert (Hl : gline (CBack (backs n g0)) (show 1 (backs n g0) ++ [TAmp])) by (rewrite E, <- backs_snoc; by apply gl_pipe).
    assert (He := block_ok _ _ Hl). assert (Hp : gpipe _ _) by (by apply gp_exec).
    split_and!; [done|exists (S n), g0, l0; by rewrite backs_snoc|done|done].
Qed.

Lemma show_good level g : good g → Forall good_token (show level g).
Proof.
  assert (Hpar : ∀ b l, Forall good_token l → Forall good_token (paren b l)).
  { intros [] l Hl; [|done]. constructor; [done|]. apply Forall_app. split; [done|]. by constructor. }
  revert level. induction g as [a|g IH w mode fd|g1 IH1 g2 IH2|g1 IH1 g2 IH2|g IH]; cbn [good show]; intros level Hg.
  - destruct Hg as [_ Ha]. apply Forall_fmap. eapply Forall_impl; [exact Ha|]. done.
  - destruct Hg as (Hg & Hw & _). apply Forall_app. split; [by apply IH|]. constructor; [by destruct (fd =? 0)|]. by constructor.
  - destruct Hg as [Hg1 Hg2]. apply Hpar, Forall_app. split; [by apply IH1|]. constructor; [done|by apply IH2].
  - destruct Hg as [Hg1 Hg2]. apply Hpar, Forall_app. split; [by apply IH1|]. constructor; [done|by apply IH2].
  - apply Hpar, Forall_app. split; [by apply IH|by constructor].
Qed.

(** C32: Every command that has at most nine arguments, words of word characters
    and the redirections of the syntax can be written as a line: [show] gives
    its tokens, and whatever spaces are put between them, the parser reads the
    text back to the command.  [unlex] is one such text. *)
Theorem parse_show g junk : good g →
  (∀ text, renders (show 0 g) text → ∃ c b, parsecmd (text ++ 0 :: junk) = Ret c b ∧ reads b c g) ∧
  renders (show 0 g) (unlex (show 0 g)).
Proof.
  intros Hg. split; [|by apply unlex_renders, show_good]. intros text Ht. apply (parsecmd_complete text junk (show 0 g) g Ht). by apply show_ok.
Qed.

(** [( a ; b ) > c &]. *)
Lemma parse_show_witness :
  let g := CBack (CRedir (CList (CExec [[97]]) (CExec [[98]])) [99] 513 1) in
  ∃ c b, parsecmd (unlex (show 0 g) ++ [0]) = Ret c b ∧ reads b c g.
Proof.
  intros g. destruct (parse_show g []) as [H1 H2]; [|by apply H1].
  assert (Hw : ∀ c, wordc c = true → good_word [c]) by (intros; split; [done|by apply Forall_singleton]).
  assert (He : ∀ c, wordc c = true → good (CExec [[c]])) by (intros; split; [cbn; unfold MAXARGS; lia|by apply Forall_singleton, Hw]).
  split; [split; by apply He|]. split; [by apply Hw|by right].
Defined.
