(* ===== verification/ShellRun.v ===== *)
(** * ShellRun: the processes that the shell starts

    [runcmd] and the loop of [main] are programs over the system calls: a
    value of [prog] is the rest of a process, up to its [exit].  [run] carries
    a program out with the descriptor tables that the kernel's calls give
    (sysfile.c and pipe.c: the lowest free descriptor is taken) and lists what
    its processes do.  The world says for each call that can fail whether it
    does, and for each program that is started how much of the console's
    input it takes.  The events of a child are listed before those that its
    parent has after the [fork], and the pipes move no data here.  The
    specification [wire] says which programs a command starts and on which
    descriptors, [session] what the shell does with the lines it reads. *)

From Stdlib Require Import ZArith Lia.
From stdpp Require Import base numbers strings sets list.
From S2P Require Import Prelude Ulib Shell ShellSpec ShellShow.
Open Scope Z_scope.


(** ** sh.c *)












(** ** Processes *)

Inductive desc : Type :=
| Console
| File (path : list Z) (mode : Z)
| PipeRead (p : nat)
| PipeWrite (p : nat).
#[global] Instance desc_eq_dec : EqDecision desc.
Proof. solve_decision. Defined.

Definition table : Type := list (option desc).

Inductive event : Type :=
| EExec (argv : list (list Z)) (t : table)
| EWait (t : table)
| EPrint (fmt : string) (args : list (list Z))
| EChdir (path : list Z).

(** What happens outside the shell: [w_calls] has an entry for each call of
    [fork], [open], [pipe], [chdir] and [exec] in turn, 0 when it fails and
    otherwise one more than the number of characters that the new program
    takes from the console; the input that is typed; the number of pipes. *)
Record world : Type := World {
  w_calls : list nat;
  w_input : list Z;
  w_pipes : nat;
}.



Definition also (es : list event) (r : option (list event * world)) : option (list event * world) :=
  '(es', w) ← r; Some (es ++ es', w).


(** ** Which programs run, on which descriptors *)






Lemma also_Some es r : also es (Some r) = Some (es ++ r.1, r.2).
Proof. by destruct r. Qed.



(** ** The loop of the shell *)














