(* ===== verification/Uprogs.v ===== *)
(** * Uprogs: user programs (wc.c, cat.c, [fmtname] of ls.c)

    The calls of [read] on a file return its pieces, and then 0 or an error.
    [wc_counts] and [cat_copies] say that the programs do not depend on where
    [read] cuts the file. *)

From Stdlib Require Import ZArith Lia.
From stdpp Require Import base numbers strings list.
From S2P Require Import Prelude Ulib.
Open Scope Z_scope.

(** What the calls of [read] return: pieces, then the last result. *)
Record reads : Type := Reads {
  rd_pieces : list (list Z);
  rd_last : Z; (** 0 or -1 *)
}.

(** ** wc *)

Definition wc_space : list Z := [32; 13; 9; 10; 11; 0].

Record counts : Type := Counts {
  n_l : Z;
  n_w : Z;
  n_c : Z;
  n_inword : bool;
}.

(** The body of the inner loop on a [char]. *)
Definition wc_char (b : Z) (k : counts) : option counts :=
  let c := s32 (n_c k + 1) in
  let l := if b =? NEWLINE then s32 (n_l k + 1) else n_l k in
  r ← strchr wc_space b;
  Some (match r with
        | Some _ => Counts l (n_w k) c false
        | None => if n_inword k then Counts l (n_w k) c true else Counts l (s32 (n_w k + 1)) c true
        end).
Fixpoint wc_piece (buf : list Z) (k : counts) : option counts :=
  match buf with
  | [] => Some k
  | b :: buf => k ← wc_char b k; wc_piece buf k
  end.
Fixpoint wc_pieces (bufs : list (list Z)) (k : counts) : option counts :=
  match bufs with
  | [] => Some k
  | buf :: bufs => k ← wc_piece buf k; wc_pieces bufs k
  end.

(** What is printed: the three numbers, or the message of a read error. *)
Definition wc (r : reads) : option (option (Z * Z * Z)) :=
  k ← wc_pieces (rd_pieces r) (Counts 0 0 0 false);
  Some (if rd_last r <? 0 then None else Some (n_l k, n_w k, n_c k)).

(** ** cat *)

(** The loop of [cat] and the test after it: [ws] is what the calls of
    [write] return.  The result is what was written and the exit status. *)
Fixpoint cat_loop (bufs : list (list Z)) (last : Z) (ws : list Z) (out : list Z) : list Z * Z :=
  match bufs with
  | [] => (out, if last <? 0 then 1 else 0)
  | buf :: bufs =>
      match ws with
      | [] => (out, 1)
      | w :: ws =>
          let out := out ++ take (Z.to_nat w) buf in
          if negb (w =? Z.of_nat (length buf)) then (out, 1) else cat_loop bufs last ws out
      end
  end.
Definition cat (r : reads) (ws : list Z) : list Z * Z := cat_loop (rd_pieces r) (rd_last r) ws [].

(** ** fmtname *)

Definition SLASH : Z := 47.
Definition DIRSIZ : nat := 14.

(** The loop: [i] is one more than the index of [p]. *)
Fixpoint after_slash (path : list Z) (i : nat) : option nat :=
  match i with
  | O => Some 0%nat
  | S i =>
      c ← path !! i;
      if negb (c =? SLASH) then after_slash path i else Some (S i)
  end.

(** [buf] is the static array of [DIRSIZ+1] bytes; the result is the string
    that is returned and [buf] afterwards. *)
Definition fmtname (path buf : list Z) : option (list Z * list Z) :=
  n ← ustrlen path;
  i ← after_slash path (S (Z.to_nat n));
  let p := drop i path in
  len ← ustrlen p;
  if Z.of_nat DIRSIZ <=? len then Some (p, buf) else
  let buf := take (Z.to_nat len) p ++ replicate (DIRSIZ - Z.to_nat len) 32 ++ drop DIRSIZ buf in
  Some (buf, buf).

(** ** The words of a text *)

Definition blank (c : Z) : bool := (c =? 32) || (c =? 13) || (c =? 9) || (c =? 10) || (c =? 11).
Definition is_blank (c : Z) : Prop := blank c = true.
Definition is_black (c : Z) : Prop := blank c = false.

(** [ws] are the maximal runs of characters that are not blank. *)
Inductive tokens : list Z → list (list Z) → Prop :=
| tokens_end b : Forall is_blank b → tokens b []
| tokens_last b w : Forall is_blank b → w ≠ [] → Forall is_black w → tokens (b ++ w) [w]
| tokens_word b w c t ws : Forall is_blank b → w ≠ [] → Forall is_black w → is_blank c → tokens (c :: t) ws →
    tokens (b ++ w ++ c :: t) (w :: ws).

Fixpoint words (inword : bool) (t : list Z) : Z :=
  match t with
  | [] => 0
  | c :: t => if blank c then words false t else (if inword then 0 else 1) + words true t
  end.
Fixpoint lines (t : list Z) : Z :=
  match t with
  | [] => 0
  | c :: t => (if c =? NEWLINE then 1 else 0) + lines t
  end.

Lemma words_blank b iw t : Forall is_blank b → words iw (b ++ t) = words (if b then iw else false) t.
Proof. intros Hb. revert iw. induction Hb as [|c b Hc _ IH]; intros iw; [done|]. cbn. rewrite Hc, IH. by destruct b. Qed.
Lemma words_black w t : Forall is_black w → words true (w ++ t) = words true t.
Proof. induction 1 as [|c w Hc _ IH]; [done|]. cbn. rewrite Hc. done. Qed.
Lemma words_run w t : w ≠ [] → Forall is_black w → words false (w ++ t) = 1 + words true t.
Proof. intros Hw Hb. destruct Hb as [|c w Hc Hb]; [done|]. cbn. rewrite Hc. by rewrite words_black. Qed.

Lemma words_tokens t ws : tokens t ws → words false t = Z.of_nat (length ws).
Proof.
  induction 1 as [b Hb|b w Hb Hw Hbl|b w c t ws Hb Hw Hbl Hc _ IH].
  - pose proof (words_blank b false [] Hb) as H. rewrite app_nil_r in H. rewrite H. by destruct b.
  - rewrite words_blank by done. pose proof (words_run w [] Hw Hbl) as H. rewrite app_nil_r in H. destruct b; by rewrite H.
  - rewrite words_blank by done. assert (H : words false (w ++ c :: t) = Z.of_nat (length (w :: ws))); [|by destruct b].
    rewrite words_run by done. cbn [words length] in *. unfold is_blank in Hc. rewrite Hc in *. lia.
Qed.

(** Every text has such runs. *)
Lemma tokens_total t : ∃ ws, tokens t ws.
Proof.
  induction t as [|c t [ws IH]]; [exists []; by constructor|].
  destruct (blank c) eqn:Hc.
  - exists ws. destruct IH as [b Hb|b w Hb Hw Hbl|b w c' t ws Hb Hw Hbl Hc' Ht].
    + constructor. by constructor.
    + apply (tokens_last (c :: b) w); [by constructor|done|done].
    + apply (tokens_word (c :: b) w c' t ws); [by constructor|done..].
  - destruct IH as [b Hb|b w Hb Hw Hbl|b w c' t ws Hb Hw Hbl Hc' Ht].
    + destruct b as [|c' b]; [exists [[c]]; apply (tokens_last [] [c]); [done|done|by apply Forall_singleton]|].
      exists [[c]]. apply Forall_cons in Hb as [Hc' Hb]. apply (tokens_word [] [c] c' b []); [done|done|by apply Forall_singleton|done|constructor; by constructor].
    + destruct b as [|c' b].
      * exists [c :: w]. apply (tokens_last [] (c :: w)); [done|done|by constructor].
      * apply Forall_cons in Hb as [Hc' Hb]. exists [[c]; w]. apply (tokens_word [] [c] c' (b ++ w) [w]); [done|done|by apply Forall_singleton|done|].
        apply (tokens_last (c' :: b) w); [by constructor|done|done].
    + destruct b as [|c'' b].
      * exists ((c :: w) :: ws). apply (tokens_word [] (c :: w) c' t ws); [done|done|by constructor|done|done].
      * apply Forall_cons in Hb as [Hc'' Hb]. exists ([c] :: w :: ws). apply (tokens_word [] [c] c'' (b ++ w ++ c' :: t) (w :: ws)); [done|done|by apply Forall_singleton|done|].
        apply (tokens_word (c'' :: b) w c' t ws); [by constructor|done..].
Qed.

Lemma s32_add_l x y : s32 (s32 x + y) = s32 (x + y).
Proof.
  unfold s32. f_equal. replace ((x + 2 ^ 31) mod 2 ^ 32 - 2 ^ 31 + y + 2 ^ 31) with ((x + 2 ^ 31) mod 2 ^ 32 + y) by lia.
  rewrite Zplus_mod_idemp_l. f_equal. lia.
Qed.

Lemma wc_char_spec b l w c iw : wc_char b (Counts (s32 l) (s32 w) (s32 c) iw) =
  Some (Counts (s32 (l + lines [b])) (s32 (w + words iw [b])) (s32 (c + 1)) (negb (blank b))).
Proof.
  unfold wc_char. cbn -[s32 Z.eqb]. change (32 =? 0) with false. change (13 =? 0) with false. change (9 =? 0) with false.
  change (10 =? 0) with false. change (11 =? 0) with false. change (0 =? 0) with true. cbv iota. rewrite !s32_add_l.
  assert (Hl : (if b =? NEWLINE then s32 (l + 1) else s32 l) = s32 (l + ((if b =? NEWLINE then 1 else 0) + 0))) by (destruct (b =? NEWLINE); f_equal; lia).
  rewrite Hl. unfold blank. rewrite !(Z.eqb_sym b).
  generalize (s32 (l + ((if NEWLINE =? b then 1 else 0) + 0))). intros nl.
  destruct (32 =? b), (13 =? b), (9 =? b), (10 =? b), (11 =? b); try (cbn -[s32 Z.eqb]; by rewrite !Z.add_0_r).
  destruct iw; cbn -[s32 Z.eqb]; by rewrite ?Z.add_0_r.
Qed.

Definition ends_in_word (iw : bool) (t : list Z) : bool := match last t with Some c => negb (blank c) | None => iw end.

Lemma wc_piece_spec t l w c iw : wc_piece t (Counts (s32 l) (s32 w) (s32 c) iw) =
  Some (Counts (s32 (l + lines t)) (s32 (w + words iw t)) (s32 (c + Z.of_nat (length t))) (ends_in_word iw t)).
Proof.
  revert l w c iw. induction t as [|b t IH]; intros l w c iw; cbn [wc_piece]; [cbn; by rewrite !Z.add_0_r|].
  rewrite wc_char_spec. cbn [mbind option_bind]. rewrite IH. f_equal. f_equal.
  - f_equal. cbn. lia.
  - f_equal. cbn. destruct (blank b), iw; cbn; lia.
  - f_equal. cbn [length]. lia.
  - unfold ends_in_word. rewrite last_cons. by destruct (last t).
Qed.

Lemma wc_pieces_concat bufs k : wc_pieces bufs k = wc_piece (concat bufs) k.
Proof.
  revert k. induction bufs as [|buf bufs IH]; intros k; [done|]. cbn [wc_pieces concat].
  assert (H : ∀ t t' k, wc_piece (t ++ t') k = wc_piece t k ≫= wc_piece t').
  { induction t as [|b t IHt]; intros t' k'; [done|]. cbn [wc_piece app]. destruct (wc_char b k'); [apply IHt|done]. }
  rewrite H. destruct (wc_piece buf k); [apply IH|done].
Qed.

(** Counting does not depend on how [read] cuts the file.  For every
    sequence of pieces, [wc] prints the number of newlines, of maximal runs
    of characters that are not blank and of bytes of the whole file, as
    [int]s; after a read error it prints the message instead.  Every text has
    its runs. *)
Theorem wc_counts bufs last : let t := concat bufs in
  (∃ ws, tokens t ws) ∧ ∀ ws, tokens t ws →
    wc (Reads bufs last) = Some (if last <? 0 then None
      else Some (s32 (lines t), s32 (Z.of_nat (length ws)), s32 (Z.of_nat (length t)))).
Proof.
  intros t. split; [apply tokens_total|]. intros ws Hws. unfold wc. cbn [rd_pieces rd_last]. rewrite wc_pieces_concat.
  change (Counts 0 0 0 false) with (Counts (s32 0) (s32 0) (s32 0) false). fold t. rewrite wc_piece_spec. cbn [mbind option_bind n_l n_w n_c].
  by rewrite !Z.add_0_l, (words_tokens t ws Hws).
Qed.

(** [a b] cut inside: two words. *)
Lemma wc_counts_witness : wc (Reads [[97; 98]; [99; 32; 100; 10]] 0) = Some (Some (1, 2, 6)).
Proof.
  destruct (wc_counts [[97; 98]; [99; 32; 100; 10]] 0) as [_ H]. apply (H [[97; 98; 99]; [100]]).
  apply (tokens_word [] [97; 98; 99] 32 [100; 10] [[100]]); [done|done|by repeat constructor|done|].
  apply (tokens_word [32] [100] 10 [] []); [by repeat constructor|done|by repeat constructor|done|].
  constructor. by repeat constructor.
Defined.

(** ** Copying *)

Lemma cat_loop_spec bufs last ws out : let r := cat_loop bufs last ws out in
  out `prefix_of` r.1 ∧ r.1 `prefix_of` out ++ concat bufs ∧ (r.2 = 0 → r.1 = out ++ concat bufs) ∧
  (Forall2 (λ buf w, w = Z.of_nat (length buf)) bufs ws → 0 ≤ last → r.2 = 0).
Proof.
  revert ws out. induction bufs as [|buf bufs IH]; intros ws out; cbn [cat_loop concat].
  { cbn. rewrite app_nil_r. split_and!; [done..|]. intros _ Hl. by rewrite (proj2 (Z.ltb_ge _ _)) by lia. }
  destruct ws as [|w ws]; cbn [fst snd].
  { split_and!; [done|by eexists|done|]. intros H. by inversion H. }
  destruct (Z.eqb_spec w (Z.of_nat (length buf))) as [->|Hw]; cbn [negb fst snd].
  - rewrite Nat2Z.id, take_ge by done. destruct (IH ws (out ++ buf)) as (H1 & H2 & H3 & H4). rewrite <- (assoc_L (++)) in H2, H3.
    split_and!; [|done|done|].
    + etrans; [|exact H1]. by eexists.
    + intros Hf. apply Forall2_cons in Hf as [_ Hf]. by apply H4.
  - split_and!; [by eexists| |done|].
    + apply prefix_app. exists (drop (Z.to_nat w) buf ++ concat bufs). by rewrite (assoc_L (++)), take_drop.
    + intros [H _]%Forall2_cons. done.
Qed.

(** What [cat] has written is always the beginning of the file, whatever
    [write] returns, and the whole of it when [cat] exits with 0, which it
    does when every call writes its piece and no [read] fails. *)
Lemma cat_copies r ws : (cat r ws).1 `prefix_of` concat (rd_pieces r) ∧
  ((cat r ws).2 = 0 → (cat r ws).1 = concat (rd_pieces r)) ∧
  (Forall2 (λ buf w, w = Z.of_nat (length buf)) (rd_pieces r) ws → 0 ≤ rd_last r → (cat r ws).2 = 0).
Proof. destruct (cat_loop_spec (rd_pieces r) (rd_last r) ws []) as (_ & H2 & H3 & H4). done. Qed.

(** ** Names *)

Lemma after_slash_name dir name rest : (dir = [] ∨ last dir = Some SLASH) → Forall (λ c, c ≠ SLASH) name →
  after_slash (dir ++ name ++ rest) (length dir + length name) = Some (length dir).
Proof.
  intros Hd. revert rest. induction name as [|c name IH] using rev_ind; intros rest Hn.
  - rewrite Nat.add_0_r. destruct Hd as [->|Hd]; [done|]. apply last_Some in Hd as [d ->].
    rewrite length_app, Nat.add_comm. cbn [length Nat.add after_slash]. rewrite <- (assoc_L (++)). cbn [app]. by rewrite list_lookup_middle.
  - apply Forall_app in Hn as [Hn [Hc _]%Forall_cons]. rewrite length_app, Nat.add_assoc, Nat.add_comm. cbn [length Nat.add after_slash].
    assert (E : (dir ++ (name ++ [c]) ++ rest) !! (length dir + length name)%nat = Some c).
    { rewrite (assoc_L (++)), (assoc_L (++) dir), <- (assoc_L (++) (dir ++ name)). cbn [app]. apply list_lookup_middle. by rewrite length_app. }
    rewrite E. cbn [mbind option_bind]. rewrite (proj2 (Z.eqb_neq _ _) Hc). cbn [negb].
    rewrite <- (assoc_L (++) name). by apply IH.
Qed.

(** [fmtname] gives the last component of the path, padded with blanks to
    [DIRSIZ] characters, in the static buffer, or the component itself when it
    is as long. *)
Lemma fmtname_spec dir name junk buf : (dir = [] ∨ last dir = Some SLASH) →
  Forall (λ c, c ≠ 0) dir → Forall (λ c, c ≠ 0 ∧ c ≠ SLASH) name →
  fmtname (dir ++ name ++ 0 :: junk) buf =
    if (DIRSIZ <=? length name)%nat then Some (name ++ 0 :: junk, buf)
    else let b := name ++ replicate (DIRSIZ - length name) 32 ++ drop DIRSIZ buf in Some (b, b).
Proof.
  intros Hd Hdz Hn. unfold fmtname.
  assert (Hn0 : Forall (λ c, c ≠ 0) name) by (eapply Forall_impl; [exact Hn|naive_solver]).
  assert (Hns : Forall (λ c, c ≠ SLASH) name) by (eapply Forall_impl; [exact Hn|naive_solver]).
  rewrite (assoc_L (++)), ustrlen_app, <- (assoc_L (++)) by (by apply Forall_app). cbn [mbind option_bind].
  rewrite Nat2Z.id, length_app. cbn [after_slash]. rewrite (assoc_L (++)), list_lookup_middle by (by rewrite length_app). cbn [mbind option_bind].
  change (negb (0 =? SLASH)) with true. cbv iota. rewrite <- (assoc_L (++)), after_slash_name by done. cbn [mbind option_bind].
  rewrite drop_app_length, ustrlen_app by done. cbn [mbind option_bind]. rewrite Nat2Z.id.
  destruct (Nat.leb_spec DIRSIZ (length name)); [by rewrite (proj2 (Z.leb_le _ _)) by lia|]. rewrite (proj2 (Z.leb_gt _ _)) by lia.
  by rewrite take_app_length.
Qed.
