(* ===== verification/Trap.v ===== *)
(** * Trap: interrupts, exceptions and system calls ([trap] of trap.c,
    [kbdintr] of kbd.c, [uartintr] of uart.c)

    The machine is the kernel of Proc.v and Sysfile.v with the console of
    Console.v, the keyboard of Kbd.v and the disk driver of Ide.v.  [trap] is
    cut where it gives the processor up: it ends with the return to the
    interrupted code or with the switch to the scheduler, and [trap_syscall_end] and [trap_resume] are the rest of it
    when the process runs again in a system call or after [yield]. *)

From Stdlib Require Import ZArith Lia.
From stdpp Require Import base numbers strings gmap list.
From S2P Require Import Prelude Kalloc Vm PageTable Namespace Pipe Kernel Fs Loopdev File Proc Userarg UserMem Fork Wait Sysfile.
From S2P Require Import Ide Ulib Kbd Console ConsoleLines Printf.
Open Scope Z_scope.

Definition T_SYSCALL : Z := 64.
Definition T_IRQ0 : Z := 32.
Definition IRQ_TIMER : Z := 0.
Definition IRQ_KBD : Z := 1.
Definition IRQ_COM1 : Z := 4.
Definition IRQ_IDE : Z := 14.
Definition IRQ_SPURIOUS : Z := 31.

(** The fields of [struct trapframe] that [trap] uses, and its address. *)
Record trapframe : Type := TrapFrame {
  tf_addr : Z;
  tf_trapno : Z;
  tf_err : Z;
  tf_eip : Z;
  tf_cs : Z;
}.

Record machine : Type := Machine {
  mc_kernel : state;
  mc_cons : console;
  mc_shift : Z; (** the static [shift] of [kbdgetc] *)
  mc_scan : list Z; (** scan codes in the keyboard controller *)
  mc_serial : list Z; (** bytes in the serial port *)
  mc_ide : ide; (** the disk driver *)
  mc_eoi : nat; (** interrupts acknowledged *)
}.
Definition set_mc_kernel v s := Machine v (mc_cons s) (mc_shift s) (mc_scan s) (mc_serial s) (mc_ide s) (mc_eoi s).
Definition set_mc_cons v s := Machine (mc_kernel s) v (mc_shift s) (mc_scan s) (mc_serial s) (mc_ide s) (mc_eoi s).
Definition set_mc_shift v s := Machine (mc_kernel s) (mc_cons s) v (mc_scan s) (mc_serial s) (mc_ide s) (mc_eoi s).
Definition set_mc_scan v s := Machine (mc_kernel s) (mc_cons s) (mc_shift s) v (mc_serial s) (mc_ide s) (mc_eoi s).
Definition set_mc_serial v s := Machine (mc_kernel s) (mc_cons s) (mc_shift s) (mc_scan s) v (mc_ide s) (mc_eoi s).
Definition set_mc_ide v s := Machine (mc_kernel s) (mc_cons s) (mc_shift s) (mc_scan s) (mc_serial s) v (mc_eoi s).
Definition set_mc_eoi v s := Machine (mc_kernel s) (mc_cons s) (mc_shift s) (mc_scan s) (mc_serial s) (mc_ide s) v.
Definition kernel_l : lens machine state := Lens mc_kernel set_mc_kernel.
Definition cons_l : lens machine console := Lens mc_cons set_mc_cons.
Definition mide_l : lens machine ide := Lens mc_ide set_mc_ide.
Definition shift_l : lens machine Z := Lens mc_shift set_mc_shift.

(** How [trap] ends. *)
Inductive tres : Type := TReturn | TSwitch.

(** The characters of a format. *)
Fixpoint text (s : string) : list Z :=
  match s with
  | EmptyString => [0]
  | String c s => Z.of_nat (Ascii.nat_of_ascii c) :: text s
  end.

Section trap.
Context {LK : Linker} {CD : Code} {DS : DevSw}.
Context (latency : Z → Z → nat) (cpuid cr2 : Z).

Definition in_k {A} (m : K state A) : K machine A := zoom kernel_l m.

Definition lapiceoi : K machine unit := modify (λ s, set_mc_eoi (S (mc_eoi s)) s).

(** The address of [input.r], as a channel. *)
Definition input_chan : waitchan := ChanAddr 1.

(** [consoleintr(getc)] with the characters that [getc] returns. *)
Definition console_interrupt (cs : list Z) : K machine unit :=
  zoom cons_l (consoleintr cs);;
  w ← gets (λ s, co_woken (mc_cons s));
  if w : bool then
    zoom cons_l (modify (set_co_woken false));;
    in_k (wakeup (Some input_chan))
  else mret tt.

(** The values of [kbdgetc] while the controller has scan codes. *)
Fixpoint kbd_chars (scan : list Z) : K Z (list Z) :=
  match scan with
  | [] => mret []
  | d :: scan =>
      c ← kbdgetc KBS_DIB d;
      cs ← kbd_chars scan;
      mret (c :: cs)
  end.
Definition kbdintr : K machine unit :=
  scan ← gets mc_scan;
  cs ← zoom shift_l (kbd_chars scan);
  modify (set_mc_scan []);;
  console_interrupt cs.

Definition uartintr : K machine unit :=
  u ← gets (λ s, co_uart (mc_cons s));
  cs ← gets mc_serial;
  if u : bool then
    modify (set_mc_serial []);;
    console_interrupt cs
  else console_interrupt [].

(** The address of a buffer, as a channel. *)
Definition buf_chan (b : nat) : waitchan := ChanAddr (2 + Z.of_nat b).

(** [ideintr] of Ide.v, with its [wakeup]. *)
Definition ide_interrupt : K machine unit :=
  n ← gets (λ s, length (id_woken (mc_ide s)));
  zoom mide_l (Ide.ideintr latency);;
  bs ← gets (λ s, drop n (id_woken (mc_ide s)));
  for_each bs (λ b, in_k (wakeup (Some (buf_chan b)))).

Definition cur_killed : K state bool :=
  c ← myproc;
  x ← getproc c;
  mret (p_killed x).

(** [cprintf]; [name] is the string that an argument 1 points to. *)
Definition kprintf (name : list Z) (fmt : string) (args : list Z) : K machine unit :=
  zoom cons_l (cprintf (λ a, if a =? 1 then name else []) (text fmt) (u32 <$> args)).

Definition timer : K state unit :=
  acquire ticks_l;;
  modify (λ s, set_s_ticks (u32 (s_ticks s + 1)) s);;
  wakeup (Some ticks_chan);;
  release ticks_l.

(** A trap that nobody expects. *)
Definition unexpected (tf : trapframe) : K machine unit :=
  cur ← gets (λ s, s_cur (mc_kernel s));
  match cur with
  | Some c =>
      if Z.land (tf_cs tf) 3 =? 0 then
        kprintf [] "unexpected trap %d from cpu %d eip %x (cr2=0x%x)
" [tf_trapno tf; cpuid; tf_eip tf; cr2];;
        panic "trap"
      else
        x ← in_k (getproc c);
        kprintf (p_name x) "pid %d %s: trap %d err %d on cpu %d eip 0x%x addr 0x%x--kill proc
" [p_pid x; 1; tf_trapno tf; tf_err tf; cpuid; tf_eip tf; cr2];;
        in_k (updproc c (set_p_killed true))
  | None =>
      kprintf [] "unexpected trap %d from cpu %d eip %x (cr2=0x%x)
" [tf_trapno tf; cpuid; tf_eip tf; cr2];;
      panic "trap"
  end.

(** The [switch] of [trap]. *)
Definition dispatch (tf : trapframe) : K machine unit :=
  let no := tf_trapno tf in
  if no =? T_IRQ0 + IRQ_TIMER then
    (if cpuid =? 0 then in_k timer else mret tt);;
    lapiceoi
  else if no =? T_IRQ0 + IRQ_IDE then
    ide_interrupt;;
    lapiceoi
  else if no =? T_IRQ0 + IRQ_IDE + 1 then mret tt
  else if no =? T_IRQ0 + IRQ_KBD then
    kbdintr;;
    lapiceoi
  else if no =? T_IRQ0 + IRQ_COM1 then
    uartintr;;
    lapiceoi
  else if (no =? T_IRQ0 + 7) || (no =? T_IRQ0 + IRQ_SPURIOUS) then
    kprintf [] "cpu%d: spurious interrupt at %x:%x
" [cpuid; tf_cs tf; tf_eip tf];;
    lapiceoi
  else unexpected tf.

(** [if(myproc() && myproc()->killed && (tf->cs&3) == DPL_USER) exit(0);] and
    the rest of [trap]. *)
Definition exit_if_killed (tf : trapframe) (rest : K machine tres) : K machine tres :=
  cur ← gets (λ s, s_cur (mc_kernel s));
  match cur with
  | None => rest
  | Some c =>
      x ← in_k (getproc c);
      if p_killed x && (Z.land (tf_cs tf) 3 =? DPL_USER) then
        in_k (exit 0);;
        mret TSwitch
      else rest
  end.

Definition trap_syscall_end : K machine tres :=
  k ← in_k cur_killed;
  if k : bool then
    in_k (exit 0);;
    mret TSwitch
  else mret TReturn.

Definition trap (tf : trapframe) : K machine tres :=
  if tf_trapno tf =? T_SYSCALL then
    k ← in_k cur_killed;
    if k : bool then
      in_k (exit 0);;
      mret TSwitch
    else
      c ← in_k myproc;
      in_k (updproc c (set_p_tf (tf_addr tf)));;
      b ← in_k syscall;
      if b : bool then trap_syscall_end else mret TSwitch
  else
    dispatch tf;;
    exit_if_killed tf (
      cur ← gets (λ s, s_cur (mc_kernel s));
      match cur with
      | None => mret TReturn
      | Some c =>
          x ← in_k (getproc c);
          if bool_decide (p_state x = RUNNING) && (tf_trapno tf =? T_IRQ0 + IRQ_TIMER) then
            in_k yield;;
            mret TSwitch
          else exit_if_killed tf (mret TReturn)
      end).

(** [trap] after the switch of [yield]. *)
Definition trap_resume (tf : trapframe) : K machine tres :=
  in_k yield_return;;
  exit_if_killed tf (mret TReturn).
(** ** Killed processes *)

(** The running process, if there is one, is not killed. *)
Definition alive (s : machine) : Prop :=
  ∀ c, s_cur (mc_kernel s) = Some c → ∃ x, s_proc (mc_kernel s) !! c = Some x ∧ p_killed x = false.

Definition user_mode (tf : trapframe) : Prop := Z.land (tf_cs tf) 3 = DPL_USER.

Lemma in_k_inv {A} (m : K state A) s a s' : in_k m s = Ret a s' → ∃ k, m (mc_kernel s) = Ret a k ∧ s' = set_mc_kernel k s.
Proof. apply (zoom_Ret_inv kernel_l). Qed.

Lemma in_k_run {A} (m : K state A) s a k : m (mc_kernel s) = Ret a k → in_k m s = Ret a (set_mc_kernel k s).
Proof. apply (zoom_Ret kernel_l). Qed.

Lemma set_mc_kernel_same s : set_mc_kernel (mc_kernel s) s = s.
Proof. by destruct s. Qed.

Lemma getproc_inv c s x s' : in_k (getproc c) s = Ret x s' → s' = s ∧ s_proc (mc_kernel s) !! c = Some x.
Proof.
  intros (k & E & ->)%in_k_inv. unfold getproc in E. kred_in E. destruct (s_proc (mc_kernel s) !! c); [|done].
  injection E as -> <-. by rewrite set_mc_kernel_same.
Qed.

(** A return passes the check with a process that is not killed. *)
Lemma exit_if_killed_inv tf rest s s' : user_mode tf → exit_if_killed tf rest s = Ret TReturn s' → alive s ∧ rest s = Ret TReturn s'.
Proof.
  intros Hu. unfold exit_if_killed, alive. kred. destruct (s_cur (mc_kernel s)) as [c|]; [|by split].
  destruct (in_k (getproc c) s) as [x s1|msg|on| |] eqn:Eg; try done. apply getproc_inv in Eg as [-> Hx].
  rewrite Hu, Z.eqb_refl, andb_true_r. destruct (p_killed x) eqn:Ek; [by destruct (in_k (exit 0) s)|].
  intros E. split; [|done]. intros c' [= <-]. eauto.
Qed.

Lemma trap_syscall_end_inv s s' : trap_syscall_end s = Ret TReturn s' → alive s'.
Proof.
  unfold trap_syscall_end. intros (b & s1 & E1 & E2)%K_bind_inv. destruct b.
  { apply K_bind_inv in E2 as (? & ? & _ & E2). done. }
  injection E2 as <-. apply in_k_inv in E1 as (k & E1 & ->). unfold cur_killed, myproc, getproc in E1. kred_in E1.
  destruct (s_cur (mc_kernel s)) as [c|] eqn:Ec; [|done]. destruct (s_proc (mc_kernel s) !! c) as [x|] eqn:Ex; [|done].
  injection E1 as Hk <-. rewrite set_mc_kernel_same. intros c' Hc. rewrite Ec in Hc. injection Hc as <-. eauto.
Qed.

Lemma trap_tail_inv tf s s' : user_mode tf →
  (cur ← gets (λ s, s_cur (mc_kernel s));
   match cur with
   | None => mret TReturn
   | Some c =>
       x ← in_k (getproc c);
       if bool_decide (p_state x = RUNNING) && (tf_trapno tf =? T_IRQ0 + IRQ_TIMER) then
         in_k yield;;
         mret TSwitch
       else exit_if_killed tf (mret TReturn)
   end) s = Ret TReturn s' → alive s'.
Proof.
  intros Hu. unfold alive. kred. destruct (s_cur (mc_kernel s)) as [c|] eqn:Ec.
  2:{ intros [= <-] c. by rewrite Ec. }
  destruct (in_k (getproc c) s) as [x s1|msg|on| |] eqn:Eg; try done. apply getproc_inv in Eg as [-> Hx].
  destruct (_ && _); [by destruct (in_k yield s)|]. intros [Ha [= <-]]%exit_if_killed_inv; done.
Qed.

(** The running process is killed. *)
Definition killed (s : machine) : Prop :=
  ∃ c x, s_cur (mc_kernel s) = Some c ∧ s_proc (mc_kernel s) !! c = Some x ∧ p_killed x = true.

(** [exit(0)], which switches to the scheduler for good. *)
Definition exits : K machine tres := in_k (exit 0);; mret TSwitch.

Lemma cur_killed_run s c x : s_cur (mc_kernel s) = Some c → s_proc (mc_kernel s) !! c = Some x → in_k cur_killed s = Ret (p_killed x) s.
Proof.
  intros Hc Hx. rewrite (in_k_run cur_killed s (p_killed x) (mc_kernel s)); [by rewrite set_mc_kernel_same|].
  unfold cur_killed, myproc, getproc. kred. by rewrite Hc, Hx.
Qed.

Lemma exit_if_killed_killed tf rest s : user_mode tf → killed s → exit_if_killed tf rest s = exits s.
Proof.
  intros Hu (c & x & Hc & Hx & Hk). unfold exit_if_killed. erewrite K_bind_Ret; [|reflexivity]. rewrite Hc.
  erewrite K_bind_Ret; [|by apply in_k_run, getproc_run]. rewrite Hk, Hu. cbn. by rewrite set_mc_kernel_same.
Qed.

Lemma trap_syscall_end_killed s : killed s → trap_syscall_end s = exits s.
Proof. intros (c & x & Hc & Hx & Hk). unfold trap_syscall_end. kstep (cur_killed_run s c x Hc Hx). by rewrite Hk. Qed.

(** A system call of a process that is not killed. *)
Lemma trap_syscall_run tf s s1 c x : tf_trapno tf = T_SYSCALL → s_cur (mc_kernel s) = Some c → s_proc (mc_kernel s) !! c = Some x →
  p_killed x = false → (in_k (updproc c (set_p_tf (tf_addr tf)));; in_k syscall) s = Ret true s1 → trap tf s = trap_syscall_end s1.
Proof.
  intros Hno Hc Hx Hk E. unfold trap. rewrite Hno, Z.eqb_refl. kstep (cur_killed_run s c x Hc Hx). rewrite Hk.
  rewrite (K_bind_Ret (in_k myproc) _ s c s).
  2:{ rewrite (in_k_run myproc s c (mc_kernel s)); [by rewrite set_mc_kernel_same|]. unfold myproc. kred. by rewrite Hc. }
  apply K_bind_inv in E as ([] & s2 & E1 & E2). kstep E1. by kstep E2.
Qed.

(** C15: A killed process does not run user code again.  Where [trap] enters a
    system call, where a system call is over, at once or after it slept,
    where an interrupt of user code has been handled, and where the process
    runs again after [yield]: if the running process is killed there, [trap]
    does what [exit(0)] does from that state and switches away; and whenever
    [trap] returns to user mode the running process is not killed. *)
Theorem killed_never_returns tf s :
  (tf_trapno tf = T_SYSCALL → killed s → trap tf s = exits s) ∧
  (tf_trapno tf = T_SYSCALL → ∀ c x s1, s_cur (mc_kernel s) = Some c → s_proc (mc_kernel s) !! c = Some x → p_killed x = false →
    (in_k (updproc c (set_p_tf (tf_addr tf)));; in_k syscall) s = Ret true s1 → killed s1 → trap tf s = exits s1) ∧
  (killed s → trap_syscall_end s = exits s) ∧
  (tf_trapno tf ≠ T_SYSCALL → user_mode tf → ∀ s1, dispatch tf s = Ret tt s1 → killed s1 → trap tf s = exits s1) ∧
  (user_mode tf → ∀ s1, in_k yield_return s = Ret tt s1 → killed s1 → trap_resume tf s = exits s1) ∧
  ∀ s', (trap tf s = Ret TReturn s' → tf_trapno tf = T_SYSCALL ∨ user_mode tf → alive s') ∧
    (trap_syscall_end s = Ret TReturn s' → alive s') ∧
    (trap_resume tf s = Ret TReturn s' → user_mode tf → alive s').
Proof.
  split_and!; [..|intros s'; split_and!; [|apply trap_syscall_end_inv|]].
  - intros Hno (c & x & Hc & Hx & Hk). unfold trap. rewrite Hno, Z.eqb_refl. kstep (cur_killed_run s c x Hc Hx). by rewrite Hk.
  - intros Hno c x s1 Hc Hx Hk E Hk1. rewrite (trap_syscall_run tf s s1 c x Hno Hc Hx Hk E). by apply trap_syscall_end_killed.
  - apply trap_syscall_end_killed.
  - intros Hno Hu s1 E Hk. unfold trap. rewrite (proj2 (Z.eqb_neq _ _)) by done. kstep E. by apply exit_if_killed_killed.
  - intros Hu s1 E Hk. unfold trap_resume. kstep E. by apply exit_if_killed_killed.
  - unfold trap. destruct (Z.eqb_spec (tf_trapno tf) T_SYSCALL) as [_|Hne].
    + intros (b & s1 & _ & E)%K_bind_inv _. destruct b; [by apply K_bind_inv in E as (? & ? & _ & E)|].
      apply K_bind_inv in E as (c & s2 & _ & E). apply K_bind_inv in E as ([] & s3 & _ & E).
      apply K_bind_inv in E as (b & s4 & _ & E). destruct b; [|done]. by eapply trap_syscall_end_inv.
    + intros (u & s1 & _ & E)%K_bind_inv [?|Hu]; [done|]. apply exit_if_killed_inv in E as [_ E]; [|done]. by eapply trap_tail_inv.
  - unfold trap_resume. intros (u & s1 & _ & E)%K_bind_inv Hu. by apply exit_if_killed_inv in E as [Ha [= <-]].
Qed.

(** ** What traps do *)

(** The console is at rest, with the editor state [d]. *)
Record cons_ready (s : console) (d : editor) : Prop := {
  cr_edits : edits s d;
  cr_screen : screen_ok s;
  cr_lock : co_lock s = false;
  cr_woken : co_woken s = false;
}.

(** The processes that sleep on a channel are woken. *)
Definition woken (chan : waitchan) (k : state) : state := set_s_proc (wake_one (Some chan) <$> s_proc k) k.

Lemma wakeup_run chan k : s_pt_lock k = false → wakeup (Some chan) k = Ret tt (woken chan k).
Proof. intros Hl. unfold wakeup, wakeup1, acquire, release, woken. kred. cbn. rewrite Hl. cbn. destruct k. cbn in *. by subst. Qed.

Lemma cprintf_run str fmt args s d : supplied str fmt args → cons_ready s d →
  ∃ con, cprintf str fmt args s = Ret tt con ∧ cons_ready con d ∧ co_locking con = co_locking s ∧ co_uart con = co_uart s.
Proof.
  intros [out Hout]%cprintf_total [He Hs Hl Hw]. set (s1 := if co_locking s then set_co_lock true s else s).
  destruct (consputc_each out s1) as (s2 & E2 & P2); [by unfold s1; destruct (co_locking s)|].
  assert (Hl1 : co_locking s1 = co_locking s ∧ co_lock s1 = co_locking s ∧ co_uart s1 = co_uart s).
  { unfold s1. destruct (co_locking s) eqn:El; split_and!; cbn; congruence. }
  destruct Hl1 as (Hl1 & Hl2 & Hu1). pose proof (pr_locking _ _ _ P2) as Hl3. pose proof (pr_uart _ _ _ P2) as Hu2.
  exists (if co_locking s then set_co_lock false s2 else s2). split; [|split; [|by destruct (co_locking s); cbn; split; congruence]].
  - unfold cprintf. erewrite K_bind_Ret; [|reflexivity].
    rewrite (K_bind_Ret _ _ s tt s1); [|unfold s1, cons_acquire; destruct (co_locking s); [kred; by rewrite Hl|done]].
    rewrite Hout. erewrite K_bind_Ret; [|reflexivity]. kstep E2. unfold cons_release. destruct (co_locking s); [|done].
    kred. by rewrite (pr_lock _ _ _ P2), Hl2.
  - assert (He1 : edits s1 d) by (unfold s1; destruct (co_locking s); [by apply edits_lock|done]).
    pose proof (printed_edits _ _ _ _ P2 He1) as He2.
    assert (Hw2 : co_woken s2 = false) by (rewrite (pr_woken _ _ _ P2); unfold s1; by destruct (co_locking s)).
    assert (Hlk : co_lock s2 = co_locking s) by (by rewrite (pr_lock _ _ _ P2), Hl2).
    destruct (co_locking s); split; try done; try apply P2. by apply edits_lock.
Qed.

Lemma kprintf_run name fmt args s d : supplied (λ a, if a =? 1 then name else []) (text fmt) (u32 <$> args) → cons_ready (mc_cons s) d →
  ∃ con, kprintf name fmt args s = Ret tt (set_mc_cons con s) ∧ cons_ready con d.
Proof.
  intros Hsup Hr. destruct (cprintf_run _ _ _ _ _ Hsup Hr) as (con & E & Hr' & _). exists con. split; [|done].
  by apply (zoom_Ret cons_l).
Qed.

(** Characters arrive at the console. *)
Definition typed (cs : list Z) (d : editor) (k : state) : state := if (keys cs d).2 then woken input_chan k else k.

Lemma console_interrupt_run cs s d : cons_ready (mc_cons s) d → Forall is_byte cs → s_pt_lock (mc_kernel s) = false →
  ∃ con, console_interrupt cs s = Ret tt (set_mc_kernel (typed cs d (mc_kernel s)) (set_mc_cons con s)) ∧ cons_ready con (keys cs d).1.1.
Proof.
  intros [He Hs Hl Hw] Hcs Hpt. destruct (consoleintr_run cs (mc_cons s) d He Hs Hl Hcs) as (con & E & He' & Hec).
  pose proof (ec_woken _ _ _ _ Hec) as Hw'. rewrite Hw in Hw'. cbn [orb] in Hw'. unfold console_interrupt, typed.
  rewrite (K_bind_Ret _ _ s tt (set_mc_cons con s)) by (by apply (zoom_Ret cons_l)). erewrite K_bind_Ret; [|reflexivity].
  cbn [mc_cons set_mc_cons]. rewrite Hw'. destruct (keys cs d).2.
  - exists (set_co_woken false con). split; [|split; try done; [by destruct He'|apply Hec|cbn; by rewrite (ec_lock _ _ _ _ Hec)]].
    erewrite K_bind_Ret; [|reflexivity]. apply in_k_run. by apply wakeup_run.
  - exists con. split; [by destruct s|]. split; [done|apply Hec|by rewrite (ec_lock _ _ _ _ Hec)|done].
Qed.

(** The characters of scan codes. *)
Fixpoint decode_all (scan : list Z) (k : Kbd.keys) : list Z * Kbd.keys :=
  match scan with
  | [] => ([], k)
  | d :: scan => let r := decode_all scan (decode d k).2 in ((decode d k).1 :: r.1, r.2)
  end.

Lemma kbd_chars_run scan k : Forall is_byte scan →
  kbd_chars scan (Kbd.word_of k) = Ret (decode_all scan k).1 (Kbd.word_of (decode_all scan k).2) ∧ Forall is_byte (decode_all scan k).1.
Proof.
  intros Hs. revert k. induction Hs as [|d scan Hd _ IH]; intros k; [done|]. cbn [kbd_chars decode_all].
  destruct (kbdgetc_run KBS_DIB d k) as [E Hr]; [done|done|]. kstep E. destruct (IH (decode d k).2) as [E' Hr']. kstep E'.
  split; [done|]. by constructor.
Qed.

Lemma timer_run k : s_pt_lock k = false → s_tickslock k = false →
  timer k = Ret tt (woken ticks_chan (set_s_ticks (u32 (s_ticks k + 1)) k)).
Proof.
  intros Hp Ht. unfold timer. rewrite (K_bind_Ret _ _ k tt (set_s_tickslock true k)) by (unfold acquire; cbn; by rewrite Ht).
  erewrite K_bind_Ret; [|reflexivity]. erewrite K_bind_Ret; [|by apply wakeup_run]. unfold release. cbn. destruct k. cbn in *. by subst.
Qed.

Lemma yield_run k c x : s_cur k = Some c → s_proc k !! c = Some x → ncli k = 0 →
  yield k = Ret tt (set_s_pt_lock true (set_s_proc (alter (set_p_state RUNNABLE) c (s_proc k)) k)).
Proof.
  intros Hc Hx Hn. destruct (ncli_zero k Hn) as (Hp & _ & Hn1). unfold yield, acquire, sched, updproc, myproc, getproc. kred. cbn -[ncli].
  rewrite Hp. cbn -[ncli]. rewrite Hc. cbn -[ncli]. rewrite Hc. cbn -[ncli]. rewrite list_lookup_alter, decide_True, Hx by done. cbn -[ncli].
  match goal with |- context [ncli ?k'] => change (ncli k') with (ncli (set_s_pt_lock true k)) end. rewrite Hn1. cbn. by destruct k.
Qed.

(** Process [c] runs user code, no lock is held and the devices are at rest. *)
Record running (s : machine) (c : nat) (x : proc) (d : editor) (k : Kbd.keys) : Prop := {
  rn_cur : s_cur (mc_kernel s) = Some c;
  rn_proc : s_proc (mc_kernel s) !! c = Some x;
  rn_state : p_state x = RUNNING;
  rn_alive : p_killed x = false;
  rn_locks : ncli (mc_kernel s) = 0;
  rn_cons : cons_ready (mc_cons s) d;
  rn_kbd : mc_shift s = Kbd.word_of k;
  rn_scan : Forall is_byte (mc_scan s);
}.

(** The interrupts that [trap] knows. *)
Definition expected : list Z :=
  [T_SYSCALL; T_IRQ0 + IRQ_TIMER; T_IRQ0 + IRQ_IDE; T_IRQ0 + IRQ_IDE + 1; T_IRQ0 + IRQ_KBD; T_IRQ0 + IRQ_COM1; T_IRQ0 + 7; T_IRQ0 + IRQ_SPURIOUS].

(** The woken processes include no running one. *)
Lemma woken_running chan k c x : s_proc k !! c = Some x → p_state x = RUNNING → s_proc (woken chan k) !! c = Some x.
Proof. intros Hx Hr. unfold woken. cbn. rewrite list_lookup_fmap, Hx. cbn. unfold wake_one. rewrite decide_False; [done|]. rewrite Hr. by intros [? _]. Qed.

Lemma dispatch_unexpected tf : tf_trapno tf ∉ expected → dispatch tf = unexpected tf ∧ (tf_trapno tf =? T_SYSCALL) = false.
Proof.
  unfold expected. rewrite !not_elem_of_cons. intros (H1 & H2 & H3 & H4 & H5 & H6 & H7 & H8 & _). unfold dispatch.
  by rewrite !(proj2 (Z.eqb_neq _ _)) by done.
Qed.

(** The check with a process that is not killed. *)
Lemma exit_if_killed_alive tf rest s c x : s_cur (mc_kernel s) = Some c → s_proc (mc_kernel s) !! c = Some x → p_killed x = false →
  exit_if_killed tf rest s = rest s.
Proof.
  intros Hc Hx Hk. unfold exit_if_killed. erewrite K_bind_Ret; [|reflexivity]. rewrite Hc.
  erewrite K_bind_Ret; [|by apply in_k_run, getproc_run]. rewrite Hk. cbn [andb]. by rewrite set_mc_kernel_same.
Qed.

(** What a clock interrupt does to the kernel: only the first processor
    counts. *)
Definition tick (k : state) : state :=
  if cpuid =? 0 then woken ticks_chan (set_s_ticks (u32 (s_ticks k + 1)) k) else k.

Lemma trap_timer tf s c x d k : running s c x d k → tf_trapno tf = T_IRQ0 + IRQ_TIMER →
  let k1 := tick (mc_kernel s) in
  trap tf s = Ret TSwitch (set_mc_eoi (S (mc_eoi s))
    (set_mc_kernel (set_s_pt_lock true (set_s_proc (alter (set_p_state RUNNABLE) c (s_proc k1)) k1)) s)).
Proof.
  intros [Hc Hx Hr Ha Hn _ _ _] Hno k1. destruct (ncli_zero _ Hn) as (Hp & Ht & _).
  assert (Hk1 : s_proc k1 !! c = Some x ∧ s_cur k1 = Some c ∧ ncli k1 = 0).
  { unfold k1, tick. destruct (cpuid =? 0); [|done]. split; [by apply woken_running|done]. }
  destruct Hk1 as (Hx1 & Hc1 & Hn1).
  assert (Ed : dispatch tf s = Ret tt (set_mc_eoi (S (mc_eoi s)) (set_mc_kernel k1 s))).
  { unfold dispatch. rewrite Hno, Z.eqb_refl. unfold k1, tick. destruct (cpuid =? 0).
    - by rewrite (K_bind_Ret _ _ _ _ _ (in_k_run timer s _ _ (timer_run _ Hp Ht))).
    - erewrite K_bind_Ret; [|reflexivity]. by destruct s. }
  unfold trap. rewrite Hno. change (T_IRQ0 + IRQ_TIMER =? T_SYSCALL) with false. cbv iota. kstep Ed.
  rewrite (exit_if_killed_alive tf _ _ c x) by done. erewrite K_bind_Ret; [|reflexivity]. cbn [mc_kernel set_mc_eoi set_mc_kernel].
  rewrite Hc1. erewrite K_bind_Ret; [|by apply in_k_run, getproc_run].
  rewrite bool_decide_true by done. rewrite Z.eqb_refl. cbn [andb].
  erewrite K_bind_Ret; [|apply in_k_run; by eapply yield_run]. done.
Qed.

(** The disk driver's part of a disk interrupt. *)
Definition wake_bufs (bs : list nat) (k : state) : state := foldl (λ k b, woken (buf_chan b) k) k bs.

Lemma wake_bufs_run bs k s c x : s_pt_lock k = false → s_proc k !! c = Some x → p_state x = RUNNING →
  for_each bs (λ b, in_k (wakeup (Some (buf_chan b)))) (set_mc_kernel k s) = Ret tt (set_mc_kernel (wake_bufs bs k) s) ∧
  s_cur (wake_bufs bs k) = s_cur k ∧ s_proc (wake_bufs bs k) !! c = Some x.
Proof.
  revert k. induction bs as [|b bs IH]; intros k Hp Hx Hr; cbn [for_each]; [done|].
  rewrite (K_bind_Ret _ _ _ _ _ (in_k_run _ _ _ _ (wakeup_run (buf_chan b) (mc_kernel (set_mc_kernel k s)) Hp))).
  destruct (IH (woken (buf_chan b) k) Hp) as (E & Hc & Hx'); [by apply woken_running|done|]. split; [exact E|]. split; [|exact Hx'].
  exact Hc.
Qed.

Lemma trap_disk tf s c x d k dk : running s c x d k → tf_trapno tf = T_IRQ0 + IRQ_IDE → Ide.ideintr latency (mc_ide s) = Ret tt dk →
  trap tf s = Ret TReturn (set_mc_eoi (S (mc_eoi s)) (set_mc_ide dk
    (set_mc_kernel (wake_bufs (drop (length (id_woken (mc_ide s))) (id_woken dk)) (mc_kernel s)) s))).
Proof.
  intros [Hc Hx Hr Ha Hn _ _ _] Hno E. destruct (ncli_zero _ Hn) as (Hp & _ & _). set (bs := drop _ _).
  destruct (wake_bufs_run bs (mc_kernel s) (set_mc_ide dk s) c x Hp Hx Hr) as (Ew & Hc' & Hx').
  assert (Ed : dispatch tf s = Ret tt (set_mc_eoi (S (mc_eoi s)) (set_mc_ide dk (set_mc_kernel (wake_bufs bs (mc_kernel s)) s)))).
  { unfold dispatch. rewrite Hno. change (T_IRQ0 + IRQ_IDE =? T_IRQ0 + IRQ_TIMER) with false. rewrite Z.eqb_refl. cbv iota.
    rewrite (K_bind_Ret ide_interrupt _ s tt (set_mc_ide dk (set_mc_kernel (wake_bufs bs (mc_kernel s)) s))); [reflexivity|].
    unfold ide_interrupt. erewrite K_bind_Ret; [|reflexivity].
    erewrite K_bind_Ret; [|exact (zoom_Ret mide_l _ s _ _ E)]. erewrite K_bind_Ret; [|reflexivity]. exact Ew. }
  unfold trap. rewrite Hno. change (T_IRQ0 + IRQ_IDE =? T_SYSCALL) with false. cbv iota. kstep Ed.
  rewrite Hc in Hc'. rewrite (exit_if_killed_alive tf _ _ c x) by done. erewrite K_bind_Ret; [|reflexivity].
  cbn [mc_kernel set_mc_eoi set_mc_kernel set_mc_ide]. rewrite Hc'. erewrite K_bind_Ret; [|by apply in_k_run, getproc_run].
  change (T_IRQ0 + IRQ_IDE =? T_IRQ0 + IRQ_TIMER) with false. rewrite andb_false_r, set_mc_kernel_same. by rewrite (exit_if_killed_alive tf _ _ c x).
Qed.

Lemma trap_keyboard tf s c x d k : running s c x d k → tf_trapno tf = T_IRQ0 + IRQ_KBD →
  let '(cs, k') := decode_all (mc_scan s) k in
  ∃ con, trap tf s = Ret TReturn (Machine (typed cs d (mc_kernel s)) con (Kbd.word_of k') [] (mc_serial s) (mc_ide s) (S (mc_eoi s))) ∧
    cons_ready con (keys cs d).1.1.
Proof.
  intros [Hc Hx Hr Ha Hn Hcr Hk Hs] Hno. destruct (ncli_zero _ Hn) as (Hp & _ & _).
  destruct (kbd_chars_run (mc_scan s) k Hs) as [Ek Hb]. destruct (decode_all (mc_scan s) k) as [cs k']. cbn [fst snd] in *.
  set (s1 := set_mc_scan [] (set_mc_shift (Kbd.word_of k') s)).
  destruct (console_interrupt_run cs s1 d Hcr Hb Hp) as (con & Ec & Hcr'). exists con. split; [|done].
  assert (Hx' : s_proc (typed cs d (mc_kernel s)) !! c = Some x) by (unfold typed; destruct (keys cs d).2; [by apply woken_running|done]).
  assert (Hc' : s_cur (typed cs d (mc_kernel s)) = Some c) by (unfold typed; by destruct (keys cs d).2).
  unfold trap, dispatch. rewrite Hno.
  change (T_IRQ0 + IRQ_KBD =? T_SYSCALL) with false. change (T_IRQ0 + IRQ_KBD =? T_IRQ0 + IRQ_TIMER) with false.
  change (T_IRQ0 + IRQ_KBD =? T_IRQ0 + IRQ_IDE) with false. change (T_IRQ0 + IRQ_KBD =? T_IRQ0 + IRQ_IDE + 1) with false. rewrite Z.eqb_refl.
  erewrite K_bind_Ret. 2:{ erewrite K_bind_Ret; [reflexivity|]. unfold kbdintr. erewrite K_bind_Ret; [|reflexivity].
    erewrite K_bind_Ret; [|apply (zoom_Ret shift_l); cbn; rewrite Hk; exact Ek]. erewrite K_bind_Ret; [exact Ec|reflexivity]. }
  rewrite (exit_if_killed_alive tf _ _ c x) by done. erewrite K_bind_Ret; [|reflexivity]. cbn [mc_kernel set_mc_eoi set_mc_kernel].
  change (mc_kernel s1) with (mc_kernel s). rewrite Hc'. erewrite K_bind_Ret; [|by apply in_k_run, getproc_run].
  rewrite andb_false_r, set_mc_kernel_same.
  by rewrite (exit_if_killed_alive tf _ _ c x).
Qed.

(** An exception in user code. *)
Lemma trap_exception tf s c x d k : running s c x d k → tf_trapno tf ∉ expected → user_mode tf → is_Some (chars (p_name x)) →
  ∃ con, cons_ready con d ∧
    trap tf s = exits (set_mc_kernel (set_s_proc (alter (set_p_killed true) c (s_proc (mc_kernel s))) (mc_kernel s)) (set_mc_cons con s)).
Proof.
  intros [Hc Hx Hr Ha Hn Hcr Hk Hs] Hno Hu Hname. destruct (dispatch_unexpected tf Hno) as [Ed Eno].
  destruct (kprintf_run (p_name x) "pid %d %s: trap %d err %d on cpu %d eip 0x%x addr 0x%x--kill proc
" [p_pid x; 1; tf_trapno tf; tf_err tf; cpuid; tf_eip tf; cr2] s d) as (con & Ep & Hcr'); [|done|].
  { lazy -[u32 chars is_Some]. change (u32 1) with 1. split; [exact Hname|exact I]. }
  exists con. split; [done|]. unfold trap. rewrite Eno, Ed. unfold unexpected, user_mode in *.
  erewrite K_bind_Ret. 2:{ erewrite K_bind_Ret; [|reflexivity]. rewrite Hc, Hu. cbn [Z.eqb DPL_USER].
    erewrite K_bind_Ret; [|by apply in_k_run, getproc_run]. rewrite set_mc_kernel_same. kstep Ep. reflexivity. }
  unfold exit_if_killed. erewrite K_bind_Ret; [|reflexivity]. cbn. rewrite Hc.
  erewrite K_bind_Ret; [|apply in_k_run, getproc_run; cbn; by rewrite list_lookup_alter, decide_True, Hx by done].
  cbn [p_killed set_p_killed]. by rewrite Hu.
Qed.

(** An exception in the kernel. *)
Lemma trap_kernel_exception tf s d : tf_trapno tf ∉ expected → Z.land (tf_cs tf) 3 = 0 → cons_ready (mc_cons s) d → trap tf s = Panic "trap".
Proof.
  intros Hno Hk Hcr. destruct (dispatch_unexpected tf Hno) as [Ed Eno]. unfold trap. rewrite Eno, Ed.
  destruct (kprintf_run [] "unexpected trap %d from cpu %d eip %x (cr2=0x%x)
" [tf_trapno tf; cpuid; tf_eip tf; cr2] s d) as (con & Ep & _); [lazy; exact I|done|].
  apply K_bind_Panic. unfold unexpected. erewrite K_bind_Ret; [|reflexivity]. rewrite Hk. cbn [Z.eqb].
  destruct (s_cur (mc_kernel s)); by kstep Ep.
Qed.

(** C16: What a trap does while a process that is not killed runs user code
    with no lock held.  A clock interrupt on the first processor adds 1 to the
    ticks and wakes exactly the processes that sleep on the clock; on every
    processor it is acknowledged, makes the process runnable and gives up the
    processor, with nothing else changed.  A keyboard interrupt decodes the
    waiting scan codes, edits the input line, wakes the readers of the console
    if a line is complete, is acknowledged, and returns.  A disk interrupt
    does what the driver does, wakes the processes that sleep on the buffers
    that it wakes, is acknowledged, and returns.  An exception in user mode
    prints a message, marks the running process killed, no other one, and
    calls [exit(0)].  An exception in the kernel panics. *)
Theorem trap_spec tf s c x d k : running s c x d k →
  (tf_trapno tf = T_IRQ0 + IRQ_TIMER →
    let k1 := tick (mc_kernel s) in
    trap tf s = Ret TSwitch (set_mc_eoi (S (mc_eoi s))
      (set_mc_kernel (set_s_pt_lock true (set_s_proc (alter (set_p_state RUNNABLE) c (s_proc k1)) k1)) s))) ∧
  (tf_trapno tf = T_IRQ0 + IRQ_KBD →
    let '(cs, k') := decode_all (mc_scan s) k in
    ∃ con, trap tf s = Ret TReturn (Machine (typed cs d (mc_kernel s)) con (Kbd.word_of k') [] (mc_serial s) (mc_ide s) (S (mc_eoi s))) ∧
      cons_ready con (keys cs d).1.1) ∧
  (tf_trapno tf = T_IRQ0 + IRQ_IDE → ∀ dk, Ide.ideintr latency (mc_ide s) = Ret tt dk →
    trap tf s = Ret TReturn (set_mc_eoi (S (mc_eoi s)) (set_mc_ide dk
      (set_mc_kernel (wake_bufs (drop (length (id_woken (mc_ide s))) (id_woken dk)) (mc_kernel s)) s)))) ∧
  (tf_trapno tf ∉ expected → user_mode tf → is_Some (chars (p_name x)) →
    ∃ con, cons_ready con d ∧ trap tf s = exits
      (set_mc_kernel (set_s_proc (alter (set_p_killed true) c (s_proc (mc_kernel s))) (mc_kernel s)) (set_mc_cons con s))) ∧
  (tf_trapno tf ∉ expected → Z.land (tf_cs tf) 3 = 0 → trap tf s = Panic "trap").
Proof.
  intros Hr. split_and!.
  - intros. by eapply trap_timer.
  - intros. by eapply trap_keyboard.
  - intros. by eapply trap_disk.
  - intros. by eapply trap_exception.
  - intros. eapply trap_kernel_exception; [done|done|apply Hr].
Qed.

End trap.

(** ** Examples *)

#[local] Instance ex_trap_code : Code := {| trapret_addr := 0x80105000; forkret_addr := 0x80103000; initcode := [] |}.
#[local] Instance ex_trap_devsw : DevSw := {| devsw_read := λ _, None; devsw_write := λ _, None |}.

(** A process runs, another sleeps on the clock, and the key [a] was pressed. *)
Definition ex_runner : proc := set_p_name (105 :: replicate 15 0) ex_process.
Definition ex_sleeper : proc := set_p_chan (Some ticks_chan) (set_p_state SLEEPING bss_proc).
Definition ex_machine : machine :=
  Machine (set_s_proc (ex_runner :: ex_sleeper :: replicate 62 bss_proc) (ex_state ex_mem)) ex_cons 0 [0x1E] [] wit_ide 0.

Lemma ex_machine_running : running ex_machine 0 ex_runner (Editor [] []) (Keys false false false false false false false).
Proof.
  split; try reflexivity; [|by apply Forall_singleton; unfold is_byte; lia].
  split; [apply ex_cons_edits|split; [cbn; lia|done]|reflexivity|reflexivity].
Qed.

Lemma trap_spec_witness :
  (∃ s', trap (LK:=ex_linker) (λ _ _, 1%nat) 0 0 (TrapFrame 0 32 0 0 0x1b) ex_machine = Ret TSwitch s' ∧
    p_state <$> (s_proc (mc_kernel s') !! 1%nat) = Some RUNNABLE ∧ s_ticks (mc_kernel s') = 1) ∧
  (∃ s', trap (LK:=ex_linker) (λ _ _, 1%nat) 0 0 (TrapFrame 0 33 0 0 0x1b) ex_machine = Ret TReturn s' ∧ edits (mc_cons s') (Editor [] [97])).
Proof.
  split.
  - destruct (trap_spec (LK:=ex_linker) (λ _ _, 1%nat) 0 0 (TrapFrame 0 32 0 0 0x1b) _ _ _ _ _ ex_machine_running) as (H & _).
    eexists. split; [by apply H|]. split; reflexivity.
  - destruct (trap_spec (LK:=ex_linker) (λ _ _, 1%nat) 0 0 (TrapFrame 0 33 0 0 0x1b) _ _ _ _ _ ex_machine_running) as (_ & H & _).
    destruct (H eq_refl) as (con & E & Hc). eexists. split; [exact E|]. apply Hc.
Defined.

(** The same process, killed. *)
Definition ex_killed : machine :=
  set_mc_kernel (set_s_proc (<[0%nat:=set_p_killed true ex_runner]> (s_proc (mc_kernel ex_machine))) (mc_kernel ex_machine)) ex_machine.

Lemma killed_never_returns_witness :
  trap (LK:=ex_linker) (λ _ _, 1%nat) 0 0 (TrapFrame 0 64 0 0 0x1b) ex_killed = exits (LK:=ex_linker) ex_killed ∧
  trap (LK:=ex_linker) (λ _ _, 1%nat) 0 0 (TrapFrame 0 47 0 0 0x1b) ex_killed = exits (LK:=ex_linker) ex_killed ∧
  trap (LK:=ex_linker) (λ _ _, 1%nat) 0 0 (TrapFrame 0 47 0 0 0x1b) ex_machine = Ret TReturn ex_machine ∧ alive ex_machine.
Proof.
  assert (E : trap (LK:=ex_linker) (λ _ _, 1%nat) 0 0 (TrapFrame 0 47 0 0 0x1b) ex_machine = Ret TReturn ex_machine) by reflexivity.
  assert (Hk : killed ex_killed) by (exists 0%nat, (set_p_killed true ex_runner); split; [reflexivity|split; reflexivity]).
  split; [|split; [|split; [exact E|]]].
  - destruct (killed_never_returns (LK:=ex_linker) (λ _ _, 1%nat) 0 0 (TrapFrame 0 64 0 0 0x1b) ex_killed) as (H & _).
    exact (H eq_refl Hk).
  - destruct (killed_never_returns (LK:=ex_linker) (λ _ _, 1%nat) 0 0 (TrapFrame 0 47 0 0 0x1b) ex_killed) as (_ & _ & _ & H & _).
    exact (H ltac:(discriminate) eq_refl ex_killed eq_refl Hk).
  - destruct (killed_never_returns (LK:=ex_linker) (λ _ _, 1%nat) 0 0 (TrapFrame 0 47 0 0 0x1b) ex_machine) as (_ & _ & _ & _ & _ & H).
    destruct (H ex_machine) as [H' _]. apply H'; [exact E|]. right. reflexivity.
Defined.
