(* ===== verification/Main.v ===== *)
(** * Main: starting the kernel ([main], [mpmain], [startothers] of main.c,
    [consoleinit] of console.c, [uartinit] of uart.c, [picinit] of picirq.c,
    [mycpu] and [cpuid] of proc.c)

    The board is the kernel of Proc.v with the devices of Mp.v, Apic.v, Seg.v,
    Console.v and Ide.v.  [main] runs every initialisation in the order of the
    code, from the memory that the loader left to the call of [scheduler]. *)

From Stdlib Require Import ZArith Lia.
From stdpp Require Import base numbers strings gmap list.
From S2P Require Import Mp Seg Apic.
From S2P Require Import Prelude CString Memlayout Kalloc Vm PageTable Namespace Kernel Bio MntTable Fs Loopdev File Proc UserMem Fork Userinit.
From S2P Require Import Ulib Console ConsoleLines Printf Trap Ide.
Open Scope Z_scope.

Definition COM1 : Z := 0x3f8.
Definition IO_PIC1 : Z := 0x20.
Definition IO_PIC2 : Z := 0xA0.

Record board : Type := Board {
  b_kernel : state;
  b_cons : console;
  b_mp : mpstate;
  b_lapic : Apic.lapic;
  b_ioapic : ioapic;
  b_ide : ide; (** the disk driver and its controller *)
  b_code : list Z; (** the start code at 0x7000 *)
  b_cpus : list Seg.cpu; (** segments and task states of the processors *)
  b_idt : list fields;
  b_ports : list (Z * Z); (** the writes to I/O ports, in order *)
  b_others : list (Z * list Z); (** the processors started: APIC id and the words below the start code *)
  b_running : list nat; (** the processors that entered [scheduler] *)
}.
Definition set_b_kernel v s := Board v (b_cons s) (b_mp s) (b_lapic s) (b_ioapic s) (b_ide s) (b_code s) (b_cpus s) (b_idt s) (b_ports s) (b_others s) (b_running s).
Definition set_b_cons v s := Board (b_kernel s) v (b_mp s) (b_lapic s) (b_ioapic s) (b_ide s) (b_code s) (b_cpus s) (b_idt s) (b_ports s) (b_others s) (b_running s).
Definition set_b_mp v s := Board (b_kernel s) (b_cons s) v (b_lapic s) (b_ioapic s) (b_ide s) (b_code s) (b_cpus s) (b_idt s) (b_ports s) (b_others s) (b_running s).
Definition set_b_lapic v s := Board (b_kernel s) (b_cons s) (b_mp s) v (b_ioapic s) (b_ide s) (b_code s) (b_cpus s) (b_idt s) (b_ports s) (b_others s) (b_running s).
Definition set_b_ioapic v s := Board (b_kernel s) (b_cons s) (b_mp s) (b_lapic s) v (b_ide s) (b_code s) (b_cpus s) (b_idt s) (b_ports s) (b_others s) (b_running s).
Definition set_b_ide v s := Board (b_kernel s) (b_cons s) (b_mp s) (b_lapic s) (b_ioapic s) v (b_code s) (b_cpus s) (b_idt s) (b_ports s) (b_others s) (b_running s).
Definition set_b_code v s := Board (b_kernel s) (b_cons s) (b_mp s) (b_lapic s) (b_ioapic s) (b_ide s) v (b_cpus s) (b_idt s) (b_ports s) (b_others s) (b_running s).
Definition set_b_cpus v s := Board (b_kernel s) (b_cons s) (b_mp s) (b_lapic s) (b_ioapic s) (b_ide s) (b_code s) v (b_idt s) (b_ports s) (b_others s) (b_running s).
Definition set_b_idt v s := Board (b_kernel s) (b_cons s) (b_mp s) (b_lapic s) (b_ioapic s) (b_ide s) (b_code s) (b_cpus s) v (b_ports s) (b_others s) (b_running s).
Definition set_b_ports v s := Board (b_kernel s) (b_cons s) (b_mp s) (b_lapic s) (b_ioapic s) (b_ide s) (b_code s) (b_cpus s) (b_idt s) v (b_others s) (b_running s).
Definition set_b_others v s := Board (b_kernel s) (b_cons s) (b_mp s) (b_lapic s) (b_ioapic s) (b_ide s) (b_code s) (b_cpus s) (b_idt s) (b_ports s) v (b_running s).
Definition set_b_running v s := Board (b_kernel s) (b_cons s) (b_mp s) (b_lapic s) (b_ioapic s) (b_ide s) (b_code s) (b_cpus s) (b_idt s) (b_ports s) (b_others s) v.

(** The local APIC is there once [mpinit] has set the pointer to it. *)
Definition set_present (p : bool) (s : Apic.lapic) : Apic.lapic := Lapic p (la_id s) (la_ver s) (la_busy s) (la_log s).
Definition lapic_l : lens board Apic.lapic :=
  Lens (λ s, set_present (negb (Mp.lapic (b_mp s) =? 0)) (b_lapic s)) set_b_lapic.
Definition bcons_l : lens board console := Lens b_cons set_b_cons.
Definition mp_l : lens board mpstate := Lens b_mp set_b_mp.
Definition ioapic_l : lens board ioapic := Lens b_ioapic set_b_ioapic.
(** The state of [ideinit]. *)
Definition ideio_l : lens board (ide * ioapic) := Lens (λ s, (b_ide s, b_ioapic s)) (λ v s, set_b_ide (fst v) (set_b_ioapic (snd v) s)).
Definition bkernel_l : lens board state := Lens b_kernel set_b_kernel.

(** What the machine shows to [main]: the memory of the BIOS, the status
    register of the serial port, the addresses of the trap handlers, of
    [mpenter] and of [entrypgdir], the code of entryother.S, how long the
    drives are busy, and whether the processor with an APIC id comes up when
    it is started. *)
Class Hardware : Type := {
  bios : memory;
  uart_status : Z;
  vectors : Z → Z;
  mpenter_addr : Z;
  entrypgdir_addr : Z;
  entryother : list Z;
  drive_latency : Z → Z → nat;
  comes_up : Z → bool;
}.

Section main.
Context {LK : Linker} {CD : Code} {DS : DevSw} {HW : Hardware}.

Definition in_kernel {A} (m : K state A) : K board A := zoom bkernel_l m.
Definition outb (port data : Z) : K board unit := modify (λ s, set_b_ports (b_ports s ++ [(port, data)]) s).

(** proc.c; interrupts are off while [main] runs. *)
Fixpoint find_cpu (ids : list Z) (i : nat) (apicid : Z) : option nat :=
  match ids with
  | [] => None
  | id :: ids => if id =? apicid then Some i else find_cpu ids (S i) apicid
  end.
Definition mycpu : K board nat :=
  apicid ← zoom lapic_l lapicid;
  ids ← gets (λ s, take (ncpu (b_mp s)) (cpus (b_mp s)));
  match find_cpu ids 0 apicid with
  | Some i => mret i
  | None => panic "unknown apicid
"
  end.
Definition cpuid : K board nat := mycpu.

(** [seginit] on the processor that runs it. *)
Definition seginit_cpu : K board unit :=
  i ← cpuid;
  modify (λ s, set_b_cpus (alter seginit i (b_cpus s)) s).

Definition picinit : K board unit :=
  outb (IO_PIC1 + 1) 0xFF;;
  outb (IO_PIC2 + 1) 0xFF.

(** The entries of [devsw] are the class [DevSw]. *)
Definition consoleinit : K board unit :=
  zoom bcons_l (modify (Console.set_co_lock false));;
  zoom bcons_l (modify (set_co_locking true));;
  zoom ioapic_l (ioapicenable Trap.IRQ_KBD 0).

(** The two reads that acknowledge old interrupts have no effect here. *)
Definition uartinit : K board unit :=
  outb (COM1 + 2) 0;;
  outb (COM1 + 3) 0x80;;
  outb (COM1 + 0) (115200 / 9600);;
  outb (COM1 + 1) 0;;
  outb (COM1 + 3) 0x03;;
  outb (COM1 + 4) 0;;
  outb (COM1 + 1) 0x01;;
  if uart_status =? 0xFF then mret tt else
  zoom bcons_l (modify (set_co_uart true));;
  zoom ioapic_l (ioapicenable Trap.IRQ_COM1 0);;
  for_each [120; 118; 54; 46; 46; 46; 10] (λ c, zoom bcons_l (uartputc c)).

(** [ideinit] of ide.c on the board. *)
Definition ideinit_board : K board unit :=
  n ← gets (λ s, ncpu (b_mp s));
  zoom ideio_l (ideinit drive_latency (Z.of_nat n)).

(** The body of the loop of [startothers] for processor [c]: the stack and
    the other two words below the start code, the start signal, and the wait
    for [c->started]. *)
Definition start_cpu (c : nat) : K board unit :=
  me ← mycpu;
  if (c =? me)%nat then mret tt else
  ids ← gets (λ s, cpus (b_mp s));
  apicid ← deref (ids !! c);
  stack ← in_kernel (in_mem kalloc);
  modify (λ s, set_b_others (b_others s ++ [(apicid, [stack + Proc.KSTACKSIZE; mpenter_addr; V2P entrypgdir_addr])]) s);;
  zoom lapic_l (lapicstartap apicid 0x7000);;
  if comes_up apicid then modify (λ s, set_b_running (b_running s ++ [c]) s) else blocked "startothers".
Definition startothers : K board unit :=
  modify (set_b_code entryother);;
  n ← gets (λ s, ncpu (b_mp s));
  for_each (seq 0 n) start_cpu.

(** [mpmain], up to the call of [scheduler]; [b_running] has the processor
    once [started] is set.  [idtinit] loads the address of [b_idt]. *)
Definition mpmain : K board unit :=
  i ← cpuid;
  zoom bcons_l (cprintf (λ _, []) (text "cpu%d: starting %d
") [u32 (Z.of_nat i); u32 (Z.of_nat i)]);;
  modify (λ s, set_b_running (b_running s ++ [i]) s).

(** [fuel] bounds the loop of [mpinit]. *)
Definition main (fuel : nat) : K board unit :=
  in_kernel (in_mem (kinit1 kend (P2V (4 * 1024 * 1024))));;
  in_kernel kvmalloc;;
  zoom mp_l (mpinit bios fuel);;
  zoom lapic_l lapicinit;;
  seginit_cpu;;
  picinit;;
  zoom ioapic_l ioapicinit;;
  consoleinit;;
  uartinit;;
  in_kernel pinit;;
  modify (set_b_idt (tvinit vectors));;
  in_kernel (modify (set_s_tickslock false));;
  in_kernel (zoom sys_l (zoom k_l (zoom bc_l binit)));;
  in_kernel (zoom sys_l (zoom ft_l fileinit));;
  ideinit_board;;
  startothers;;
  in_kernel (in_mem (kinit2 (P2V (4 * 1024 * 1024)) (P2V PHYSTOP)));;
  in_kernel (zoom sys_l (zoom k_l (zoom ldev_l loopdevinit)));;
  in_kernel (zoom sys_l (zoom k_l (zoom mnt_l mountinit)));;
  in_kernel userinit;;
  mpmain.

(** ** Memory *)

Context (kend_above : KERNBASE < kend) (kend_low : kend + 80 * PGSIZE ≤ P2V (4 * 1024 * 1024)).
Context (kdata_aligned : kdata mod PGSIZE = 0) (kdata_above : KERNLINK < kdata < P2V PHYSTOP).

Lemma many_pages l p n : (∀ i, 0 ≤ i < Z.of_nat n → p + PGSIZE * i ∈ l) → (n ≤ length l)%nat.
Proof.
  intros Hl. assert (Hsub : pages_from p n ⊆+ l).
  { apply NoDup_submseteq.
    - unfold pages_from. apply NoDup_fmap_2; [|apply NoDup_seq]. intros i j E. unfold PGSIZE in E. lia.
    - intros v (i & Hi & ->)%elem_of_pages_from. by apply Hl. }
  apply submseteq_length in Hsub. unfold pages_from in Hsub. by rewrite length_fmap, length_seq in Hsub.
Qed.

Lemma kinit1_run m : km_freelist m = 0 → ∃ m' l, kinit1 kend (P2V (4 * 1024 * 1024)) m = Ret tt m' ∧ kmem_ok m' l ∧
  (∀ v, v ∈ l → v + PGSIZE ≤ P2V (4 * 1024 * 1024)) ∧ 79 ≤ Z.of_nat (length l).
Proof.
  intros Hf. change (P2V (4 * 1024 * 1024)) with 0x80400000 in *. set (m1 := set_km_use_lock false (set_km_lock false m)).
  assert (Hm1 : kmem_ok m1 []) by (split; cbn; [done|done|constructor|done]).
  destruct (freerange_run kend 0x80400000 m1 []) as (m2 & E & _ & _ & l & Hm & Hl);
    [done|done|unfold KERNBASE in *; lia|change (P2V PHYSTOP) with 0x8E000000; unfold PGSIZE in *; lia|by vm_compute|set_solver|].
  exists m2, l. split; [done|]. split; [done|]. split; [intros v [[]%elem_of_nil|?]%Hl; lia|].
  pose proof (many_pages l (0x80400000 - PGSIZE * 79) 79) as Hn. cut (79 ≤ length l)%nat; [lia|]. apply Hn. intros i Hi. apply Hl. right.
  split_and!; [|unfold PGSIZE in *; lia..]. replace (0x80400000 - PGSIZE * 79 + PGSIZE * i) with ((0x80400 - 79 + i) * PGSIZE) by (unfold PGSIZE; lia).
  apply Z.mod_mul. done.
Qed.

Lemma kinit2_run m l : kmem_ok m l → (∀ v, v ∈ l → v + PGSIZE ≤ P2V (4 * 1024 * 1024)) →
  ∃ m' l', kinit2 (P2V (4 * 1024 * 1024)) (P2V PHYSTOP) m = Ret tt m' ∧ kmem_ok m' l' ∧
    (∀ v, v ∈ l' ↔ v ∈ l ∨ (v mod PGSIZE = 0 ∧ P2V (4 * 1024 * 1024) ≤ v ∧ v + PGSIZE ≤ P2V PHYSTOP)) ∧
    (∀ w, w < P2V (4 * 1024 * 1024) → km_pages m' !! w = km_pages m !! w) ∧ 1100 < Z.of_nat (length l').
Proof.
  intros Hm Hl. change (P2V (4 * 1024 * 1024)) with 0x80400000 in *. change (P2V PHYSTOP) with 0x8E000000 in *.
  destruct (freerange_run 0x80400000 0x8E000000 m l) as (m2 & E & _ & Hfr & l2 & Hm2 & Hl2);
    [done|unfold PGSIZE in *; lia|by vm_compute|by vm_compute|done| |].
  { intros v Hv. apply Hl in Hv. unfold PGSIZE in *. lia. }
  exists (set_km_use_lock true m2), l2. split; [unfold kinit2; by kstep E|]. split; [by destruct Hm2|]. split; [done|].
  split; [intros w Hw; apply Hfr; by left|]. pose proof (many_pages l2 0x80400000 1101) as Hn. cut (1101 ≤ length l2)%nat; [lia|].
  apply Hn. intros i Hi. apply Hl2. right. split_and!; [|unfold PGSIZE; lia..].
  replace (0x80400000 + PGSIZE * i) with ((0x80400 + i) * PGSIZE) by (unfold PGSIZE; lia). apply Z.mod_mul. done.
Qed.

Lemma free_page_data m l w : kmem_ok m l → w ∈ l → ∃ d, km_pages m !! w = Some d ∧ length d = Z.to_nat PGSIZE.
Proof.
  intros [_ Hc _ _]. revert Hc. generalize (km_freelist m) as p. induction l as [|v l IH]; intros p Hc Hw; [by apply elem_of_nil in Hw|].
  destruct Hc as (-> & d & Hd & Hl & Hc). apply elem_of_cons in Hw as [->|Hw]; [by exists d|by eapply IH].
Qed.

(** A space on pages that stay as they are. *)
Definition intact (m : kmem) (l : list Z) (pd : Z) : Prop :=
  space_ok m l pd ∧ ∀ n, 0 ≤ n < 2 ^ 20 → pte_of m pd n = default 0 (kmap_pte kmap n).

Lemma intact_same m l m' l' pd :
  intact m l pd → kmem_ok m' l' → (∀ w, owned m pd w → w ∉ l' ∧ km_pages m' !! w = km_pages m !! w) →
  intact m' l' pd ∧ ∀ w, owned m' pd w ↔ owned m pd w.
Proof.
  intros [Hs Hp] Hm Hw. destruct (space_same m l m' l' pd Hs Hm Hw) as (H1 & H2 & H3 & _). split; [|done]. split; [done|].
  intros n Hn. by rewrite H3, Hp.
Qed.

(** Pages of kernel stacks: in use, and of no address space. *)
Definition stacks_ok (m : kmem) (l : list Z) (pds : list Z) (stacks : list Z) : Prop :=
  NoDup stacks ∧ ∀ w, w ∈ stacks → in_use m l w ∧ ∀ pd, pd ∈ pds → ¬ owned m pd w.

Lemma boot_memory m0 : km_freelist m0 = 0 →
  ∃ m1 kp m2 l2, kinit1 kend (P2V (4 * 1024 * 1024)) m0 = Ret tt m1 ∧ setupkvm m1 = Ret kp m2 ∧ kmem_ok m2 l2 ∧ (NCPU ≤ length l2)%nat ∧
  ∀ stacks l3 m3, l2 = stacks ++ l3 → kmem_ok m3 l3 → km_pages m3 = km_pages m2 →
  ∃ m4 l4, kinit2 (P2V (4 * 1024 * 1024)) (P2V PHYSTOP) m3 = Ret tt m4 ∧ kmem_ok m4 l4 ∧ 1100 < Z.of_nat (length l4) ∧
  ∀ m5 l5 v pgdir, first_mem m4 m5 l4 l5 v pgdir →
    intact m5 l5 kp ∧ separate m5 kp pgdir ∧ stacks_ok m5 l5 [kp; pgdir] (v :: stacks).
Proof.
  intros Hf. destruct (kinit1_run m0 Hf) as (m1 & l1 & E1 & Hm1 & Hl1 & Hn1).
  destruct (setupkvm_enough kend_above kdata_aligned kdata_above m1 l1 Hm1) as (kp & m2 & l2 & E2 & S2 & O2 & _ & _ & P2 & Hn2); [lia|].
  exists m1, kp, m2, l2. do 2 (split; [done|]). split; [apply S2|]. split; [unfold NCPU; lia|]. intros stacks l3 m3 -> Hm3 Hpg3.
  assert (Hlow : ∀ w, w ∈ stacks ++ l3 ∨ owned m2 kp w → w + PGSIZE ≤ P2V (4 * 1024 * 1024)) by (intros w Hw; apply Hl1, O2; tauto).
  destruct (kinit2_run m3 l3 Hm3) as (m4 & l4 & E4 & Hm4 & Hl4 & Hfr4 & Hn4).
  { intros v Hv. apply Hlow. left. apply elem_of_app. by right. }
  exists m4, l4. do 3 (split; [done|]). intros m5 l5 v pgdir [S5 [U5 N5] O5 F5 _ _].
  assert (Hold : ∀ w, w ∈ stacks ∨ owned m2 kp w → w ∉ l4 ∧ km_pages m5 !! w = km_pages m2 !! w ∧ w ≠ v ∧ ¬ owned m5 pgdir w).
  { intros w Hw. assert (w + PGSIZE ≤ P2V (4 * 1024 * 1024)) as Hwl by (apply Hlow; rewrite elem_of_app; tauto).
    assert (w ∉ l4) as Hw4.
    { intros [Hw3|?]%Hl4; [|unfold PGSIZE in *; lia]. destruct Hw as [Hw|Hw].
      - pose proof (km_nodup _ _ (pt_mem _ _ _ (sp_pt _ _ _ S2))) as (_ & Hd & _)%NoDup_app. by apply (Hd w).
      - destruct (owned_in_use _ _ _ _ S2 Hw) as (_ & _ & Hn & _). apply Hn, elem_of_app. by right. }
    split; [done|]. split; [rewrite F5, Hfr4, Hpg3 by (done || unfold PGSIZE in *; lia); done|]. specialize (O5 w). split; [intros ->|]; tauto. }
  assert (Hm5 : kmem_ok m5 l5) by apply S5.
  destruct (intact_same m2 (stacks ++ l3) m5 l5 kp (conj S2 P2) Hm5) as [I5 Ho5].
  { intros w Hw. destruct (Hold w (or_intror Hw)) as (Hw4 & Hp & _). split; [|done]. specialize (O5 w). tauto. }
  split; [done|]. split; [intros w Hw; apply Ho5 in Hw; by apply (Hold w (or_intror Hw))|]. split.
  - apply NoDup_cons. split; [intros Hv; by destruct (Hold v (or_introl Hv)) as (_ & _ & ? & _)|].
    pose proof (km_nodup _ _ (pt_mem _ _ _ (sp_pt _ _ _ S2))) as (? & _)%NoDup_app. done.
  - intros w [->|Hw]%elem_of_cons.
    + split; [done|]. intros pd [->|[->|[]%elem_of_nil]%elem_of_cons]%elem_of_cons; [|done].
      intros Hv%Ho5. by destruct (Hold v (or_intror Hv)) as (_ & _ & ? & _).
    + destruct (Hold w (or_introl Hw)) as (Hw4 & Hp & _ & Hno). assert (Hin : w ∈ stacks ++ l3) by (apply elem_of_app; by left).
      pose proof (pt_mem _ _ _ (sp_pt _ _ _ S2)) as Hm2. destruct (free_page_data _ _ _ Hm2 Hin) as (d & Hd & Hld).
      pose proof (proj1 (Forall_forall _ _) (km_addr _ _ Hm2) w Hin) as [Ha Hr]. split.
      { do 2 (split; [done|]). split; [specialize (O5 w); tauto|]. exists d. by rewrite Hp. }
      intros pd [->|[->|[]%elem_of_nil]%elem_of_cons]%elem_of_cons; [|done]. intros Hk%Ho5.
      by destruct (owned_in_use _ _ _ _ S2 Hk) as (_ & _ & ? & _).
Qed.

(** ** Devices *)

(** Code that returns and leaves the APIC the same but for its registers. *)
Definition same_apic (s s' : Apic.lapic) : Prop := la_present s' = la_present s ∧ la_id s' = la_id s.
Definition keeps {A} (m : K Apic.lapic A) : Prop := ∀ s, ∃ a s', m s = Ret a s' ∧ same_apic s s'.

Lemma keeps_bind {A B} (m : K Apic.lapic A) (f : A → K Apic.lapic B) : keeps m → (∀ a, keeps (f a)) → keeps (m ≫= f).
Proof.
  intros Hm Hf s. destruct (Hm s) as (a & s1 & E1 & [P1 I1]). destruct (Hf a s1) as (b & s2 & E2 & [P2 I2]).
  exists b, s2. rewrite (K_bind_Ret _ _ _ _ _ E1). split; [done|]. split; congruence.
Qed.
Lemma keeps_ret {A} (a : A) : keeps (mret a).
Proof. intros s. by exists a, s. Qed.
Lemma keeps_gets {A} (f : Apic.lapic → A) : keeps (gets f).
Proof. intros s. by exists (f s), s. Qed.
Lemma keeps_emit e : keeps (emit e).
Proof. intros s. by eexists _, _. Qed.
Lemma keeps_delivery {A} (k : K Apic.lapic A) : keeps k → keeps (busy ← gets la_busy; delivery_loop (S busy);; k).
Proof.
  intros Hk s. erewrite K_bind_Ret by reflexivity. assert (Hd : ∀ fuel s, (la_busy s < fuel)%nat → ∃ s', delivery_loop fuel s = Ret tt s' ∧ same_apic s s').
  { clear s. induction fuel as [|fuel IH]; intros s Hn; [lia|]. cbn [delivery_loop]. erewrite K_bind_Ret by reflexivity.
    destruct (la_busy s) as [|n] eqn:Eb; [by exists s|]. erewrite K_bind_Ret by reflexivity.
    destruct (IH (Lapic (la_present s) (la_id s) (la_ver s) n (la_log s))) as (s' & E & H); [cbn; lia|]. by exists s'. }
  destruct (Hd (S (la_busy s)) s) as (s1 & E1 & [P1 I1]); [lia|]. kstep E1. destruct (Hk s1) as (a & s2 & E2 & [P2 I2]).
  exists a, s2. split; [done|]. split; congruence.
Qed.

Lemma lapicinit_keeps : keeps lapicinit.
Proof.
  unfold lapicinit, lapicw. apply keeps_bind; [apply keeps_gets|]. intros p. destruct (negb p); [apply keeps_ret|].
  do 6 (apply keeps_bind; [apply keeps_emit|intros _]). apply keeps_bind; [apply keeps_gets|]. intros ver.
  apply keeps_bind; [destruct (4 <=? _); [apply keeps_emit|apply keeps_ret]|intros _].
  do 6 (apply keeps_bind; [apply keeps_emit|intros _]). apply keeps_delivery, keeps_emit.
Qed.

Lemma lapicstartap_keeps apicid addr : keeps (lapicstartap apicid addr).
Proof. unfold lapicstartap, send_startup, lapicw. repeat (apply keeps_bind; [|intros _]); apply keeps_emit. Qed.

(** ** The board, part by part *)

Section parts.
Context (k : state) (c : console) (mp : mpstate) (la : Apic.lapic) (io : ioapic) (dk : ide) (en : list Z) (cp : list Seg.cpu) (idt : list fields)
  (po : list (Z * Z)) (ot : list (Z * list Z)) (ru : list nat).
Let s := Board k c mp la io dk en cp idt po ot ru.

Lemma run_kernel {A} (op : K state A) a k' : op k = Ret a k' → in_kernel op s = Ret a (Board k' c mp la io dk en cp idt po ot ru).
Proof. intros E. exact (zoom_Ret bkernel_l op s a k' E). Qed.
Lemma run_cons {A} (op : K console A) a c' : op c = Ret a c' → zoom bcons_l op s = Ret a (Board k c' mp la io dk en cp idt po ot ru).
Proof. intros E. exact (zoom_Ret bcons_l op s a c' E). Qed.
Lemma run_mp {A} (op : K mpstate A) a mp' : op mp = Ret a mp' → zoom mp_l op s = Ret a (Board k c mp' la io dk en cp idt po ot ru).
Proof. intros E. exact (zoom_Ret mp_l op s a mp' E). Qed.
Lemma run_ioapic {A} (op : K ioapic A) a io' : op io = Ret a io' → zoom ioapic_l op s = Ret a (Board k c mp la io' dk en cp idt po ot ru).
Proof. intros E. exact (zoom_Ret ioapic_l op s a io' E). Qed.
Lemma run_out p v : outb p v s = Ret tt (Board k c mp la io dk en cp idt (po ++ [(p, v)]) ot ru).
Proof. done. Qed.

Context (Hmp : Mp.lapic mp ≠ 0).
Lemma run_lapic {A} (op : K Apic.lapic A) : keeps op →
  ∃ a la', zoom lapic_l op s = Ret a (Board k c mp la' io dk en cp idt po ot ru) ∧ la_present la' = true ∧ la_id la' = la_id la.
Proof.
  intros Hk. destruct (Hk (lget lapic_l s)) as (a & la' & E & [P I]). exists a, la'. split; [exact (zoom_Ret lapic_l op s a la' E)|].
  split; [rewrite P|by rewrite I]. cbn. by destruct (Z.eqb_spec (Mp.lapic mp) 0).
Qed.

Lemma run_mycpu me : la_present la = true → find_cpu (take (ncpu mp) (cpus mp)) 0 (Z.shiftr (la_id la) 24) = Some me → mycpu s = Ret me s.
Proof.
  intros Hp Hme. unfold mycpu. rewrite (K_bind_Ret (zoom lapic_l lapicid) _ s (Z.shiftr (la_id la) 24) s).
  - erewrite K_bind_Ret by reflexivity. cbn [b_mp s]. by rewrite Hme.
  - assert (E : lget lapic_l s = la) by (cbn; destruct (Z.eqb_spec (Mp.lapic mp) 0); [done|]; destruct la; cbn in *; by subst).
    rewrite (zoom_Ret lapic_l lapicid s (Z.shiftr (la_id la) 24) la); [done|]. rewrite E. unfold lapicid. kred. by rewrite Hp.
Qed.
End parts.

(** ** The other processors *)

Definition others (me j n : nat) : list nat := filter (λ c, c ≠ me) (seq j n).
Definition start_info (mp : mpstate) (c : nat) (stack : Z) : Z * list Z :=
  (cpus mp !!! c, [stack + Proc.KSTACKSIZE; mpenter_addr; V2P entrypgdir_addr]).

Lemma startothers_run n j k c mp la io dk en cp idt po ot ru me l :
  Mp.lapic mp ≠ 0 → la_present la = true → find_cpu (take (ncpu mp) (cpus mp)) 0 (Z.shiftr (la_id la) 24) = Some me →
  kmem_ok (mem_of k) l → (n ≤ length l)%nat →
  (∀ i, (j ≤ i < j + n)%nat → i ≠ me → ∃ id, cpus mp !! i = Some id ∧ comes_up id = true) →
  ∃ m' la' stacks l', for_each (seq j n) start_cpu (Board k c mp la io dk en cp idt po ot ru) =
      Ret tt (Board (set_mem m' k) c mp la' io dk en cp idt po (ot ++ zip_with (start_info mp) (others me j n) stacks) (ru ++ others me j n)) ∧
    l = stacks ++ l' ∧ length stacks = length (others me j n) ∧ kmem_ok m' l' ∧ km_pages m' = km_pages (mem_of k) ∧
    la_present la' = true ∧ la_id la' = la_id la.
Proof.
  intros Hmp. revert j k la ot ru l. induction n as [|n IH]; intros j k la ot ru l Hp Hme Hm Hl Hup; cbn [seq for_each].
  { exists (mem_of k), la, [], l. unfold others. cbn. rewrite !app_nil_r. split; [|done]. by destruct k as [[]]. }
  unfold others. cbn [seq]. rewrite filter_cons. fold (others me (S j) n).
  pose proof (run_mycpu k c mp la io dk en cp idt po ot ru Hmp me Hp Hme) as Ecpu. destruct (decide (j = me)) as [->|Hj].
  { rewrite decide_False by (intros H; by apply H). rewrite (K_bind_Ret _ _ _ tt (Board k c mp la io dk en cp idt po ot ru)); [|unfold start_cpu; kstep Ecpu; by rewrite Nat.eqb_refl].
    apply IH; try done; [lia|]. intros i Hi. apply Hup. lia. }
  rewrite decide_True by done. destruct (Hup j) as (id & Hid & Hu); [lia|done|]. destruct l as [|v l]; [cbn in Hl; lia|].
  destruct (kalloc_run (mem_of k) (v :: l) Hm) as (m1 & Ek & Hm1 & Hpg & _).
  destruct (run_lapic (set_mem m1 k) c mp la io dk en cp idt po (ot ++ [start_info mp j v]) ru Hmp _ (lapicstartap_keeps id 0x7000)) as ([] & la1 & El & Hp1 & Hi1).
  destruct (IH (S j) (set_mem m1 k) la1 (ot ++ [start_info mp j v]) (ru ++ [j]) l) as (m' & la' & stacks & l' & E & Hl' & Hn & Hm' & Hpg' & Hp' & Hi');
    [done|by rewrite Hi1|done|cbn in Hl; lia|intros i Hi; apply Hup; lia|].
  exists m', la', (v :: stacks), l'. split; [|split_and!; [by rewrite Hl'|cbn; by rewrite Hn|done|by rewrite Hpg'|done|by rewrite Hi', Hi1]].
  rewrite (K_bind_Ret _ _ _ tt (Board (set_mem m1 k) c mp la1 io dk en cp idt po (ot ++ [start_info mp j v]) (ru ++ [j]))).
  - rewrite E. cbn [zip_with]. rewrite <- !(assoc_L (++)). by destruct k as [[]].
  - unfold start_cpu. kstep Ecpu. rewrite (proj2 (Nat.eqb_neq j me)) by done. erewrite K_bind_Ret by reflexivity. cbn [b_mp]. rewrite Hid.
    rewrite (K_bind_Ret (deref (Some id)) _ _ id _ eq_refl). rewrite (K_bind_Ret _ _ _ _ _ (run_kernel _ _ _ _ _ _ _ _ _ _ _ _ _ _ _ (in_mem_Ret _ _ _ _ Ek))).
    erewrite K_bind_Ret by reflexivity. unfold start_info in El |- *. rewrite (list_lookup_total_correct _ _ _ Hid) in El |- *.
    cbn -[lapicstartap zoom]. kstep El. by rewrite Hu.
Qed.

(** ** Console and interrupts *)

Lemma uart_sends cs k c mp la io dk en cp idt po ot ru : co_uart c = true →
  for_each cs (λ x, zoom bcons_l (uartputc x)) (Board k c mp la io dk en cp idt po ot ru) =
    Ret tt (Board k (set_co_sent (co_sent c ++ (u8 <$> cs)) c) mp la io dk en cp idt po ot ru).
Proof.
  revert c. induction cs as [|x cs IH]; intros c Hu; cbn [for_each].
  { cbn. rewrite app_nil_r. by destruct c. }
  assert (E : uartputc x c = Ret tt (set_co_sent (co_sent c ++ [u8 x]) c)) by (unfold uartputc; kred; by rewrite Hu).
  rewrite (K_bind_Ret _ _ _ _ _ (run_cons k c mp la io dk en cp idt po ot ru _ _ _ E)), IH by done.
  cbn. by rewrite <- (assoc_L (++)).
Qed.

(** The interrupts that are routed by the consoles, to the first processor. *)
Definition wired (i : Z) : option (Z * Z) :=
  if (i =? Trap.IRQ_KBD) || (i =? Trap.IRQ_COM1) && negb (uart_status =? 0xFF) then Some (Trap.T_IRQ0 + i, 0) else None.

Lemma consoles_run k c mp la io dk en cp idt po ot ru d : edits c d → screen_ok c → co_woken c = false →
  let s := Board k c mp la io dk en cp idt po ot ru in
  ∃ c' io' po' s1 s2, zoom ioapic_l ioapicinit s = Ret tt s1 ∧ consoleinit s1 = Ret tt s2 ∧
    uartinit s2 = Ret tt (Board k c' mp la io' dk en cp idt po' ot ru) ∧ cons_ready c' d ∧ co_locking c' = true ∧
    ∀ i, 0 ≤ i ≤ Z.land (Z.shiftr (io_data io REG_VER) 16) 0xFF → route io' i = wired i.
Proof.
  intros He Hs Hw s. set (calls := (Trap.IRQ_KBD, 0) :: if uart_status =? 0xFF then [] else [(Trap.IRQ_COM1, 0)]).
  destruct (ioapic_routes io calls) as (io' & E & Hr).
  { unfold calls. apply Forall_cons. split; [unfold Trap.IRQ_KBD; cbn; lia|].
    destruct (uart_status =? 0xFF); [by apply Forall_nil|]. apply Forall_singleton. unfold Trap.IRQ_COM1. cbn. lia. }
  apply K_bind_inv in E as ([] & io1 & E1 & E). unfold calls in E. cbn [for_each] in E. apply K_bind_inv in E as ([] & io2 & E2 & E).
  set (c1 := set_co_locking true (Console.set_co_lock false c)).
  assert (Hc1 : ∀ b u, cons_ready (set_co_sent u (set_co_uart b c1)) d) by (intros; split; [by destruct He|done..]).
  assert (Ec : consoleinit (Board k c mp la io1 dk en cp idt po ot ru) = Ret tt (Board k c1 mp la io2 dk en cp idt po ot ru)).
  { unfold consoleinit. do 2 (erewrite K_bind_Ret by reflexivity). exact (run_ioapic k c1 mp la io1 dk en cp idt po ot ru _ _ _ E2). }
  assert (Hwire : ∀ i, 0 ≤ i ≤ Z.land (Z.shiftr (io_data io REG_VER) 16) 0xFF → route io' i = wired i).
  { intros i Hi. rewrite Hr by done. unfold calls, wired. destruct (uart_status =? 0xFF); cbn [rev app routes negb].
    - rewrite andb_false_r, orb_false_r. destruct (Z.eqb_spec i Trap.IRQ_KBD); by subst.
    - rewrite andb_true_r. destruct (Z.eqb_spec i Trap.IRQ_KBD) as [->|]; [done|]. destruct (Z.eqb_spec i Trap.IRQ_COM1) as [->|]; done. }
  unfold uartinit. destruct (uart_status =? 0xFF).
  - injection E as <-. eexists c1, io2, _, _, _. split; [exact (run_ioapic k c mp la io dk en cp idt po ot ru _ _ _ E1)|]. split; [exact Ec|].
    split; [do 7 (rewrite (K_bind_Ret _ _ _ _ _ (run_out _ _ _ _ _ _ _ _ _ _ _ _ _ _))); reflexivity|]. split; [|done]. specialize (Hc1 (co_uart c) (co_sent c)).
    by destruct c.
  - apply K_bind_inv in E as ([] & io3 & E3 & [= <-]). eexists _, io3, _, _, _. split; [exact (run_ioapic k c mp la io dk en cp idt po ot ru _ _ _ E1)|].
    split; [exact Ec|]. split.
    + change (ioapicenable Trap.IRQ_COM1 0 io2 = Ret tt io3) in E3. do 7 (rewrite (K_bind_Ret _ _ _ _ _ (run_out _ _ _ _ _ _ _ _ _ _ _ _ _ _))).
      rewrite (K_bind_Ret _ _ _ _ _ (run_cons _ _ _ _ _ _ _ _ _ _ _ _ (modify (set_co_uart true)) tt (set_co_uart true c1) eq_refl)). rewrite (K_bind_Ret _ _ _ _ _ (run_ioapic _ _ _ _ _ _ _ _ _ _ _ _ _ _ _ E3)). by apply uart_sends.
    + split; [apply Hc1|done].
Qed.

(** The last processor gets the interrupts of the disk. *)
Definition routed (n : nat) (i : Z) : option (Z * Z) :=
  if i =? Trap.IRQ_IDE then Some (Trap.T_IRQ0 + Trap.IRQ_IDE, Z.of_nat n - 1) else wired i.

Lemma ideinit_board_run k c mp la io dk en cp idt po ot ru : drives (id_ata dk) → quiet (id_ata dk) → (1 ≤ ncpu mp ≤ NCPU)%nat →
  ∃ a io', ideinit_board (Board k c mp la io dk en cp idt po ot ru) =
      Ret tt (Board k c mp la io' (set_id_havedisk1 true (set_id_ata a (set_id_lock false dk))) en cp idt po ot ru) ∧
    drives a ∧ quiet a ∧ a_disk (ata_finish a) = a_disk (ata_finish (id_ata dk)) ∧
    ∀ i, 0 ≤ i → route io' i = if i =? Trap.IRQ_IDE then Some (Trap.T_IRQ0 + Trap.IRQ_IDE, Z.of_nat (ncpu mp) - 1) else route io i.
Proof.
  intros Hd Hq Hn. unfold NCPU in Hn.
  destruct (ideinit_run drive_latency dk io (Z.of_nat (ncpu mp)) Hd Hq) as (a & io' & E & Ha & Hqa & Hk & Hr); [lia|].
  exists a, io'. split; [|done]. unfold ideinit_board. erewrite K_bind_Ret by reflexivity. exact (zoom_Ret ideio_l _ _ _ _ E).
Qed.

(** ** [main] *)

(** The mount list with the root file system. *)
Definition first_mnt : gmntst :=
  GMnt false (MntEnt 0 None 1 None :: replicate (NMNT - 1) (MntEnt 0 None 0 None)) (Some 0%nat) (Some 0%nat).
Lemma mountinit_run : mountinit bss_gmnt = Ret tt first_mnt.
Proof. vm_compute. reflexivity. Qed.

(** The board when the boot loader calls [main]: zero tables; [mp] is what
    [mpinit] finds, [me] the boot processor; the others come up; both drives
    are there and have no data to transfer. *)
Record powered (fuel : nat) (s : board) (mp : mpstate) (me : nat) : Prop := {
  pw_free : km_freelist (mem_of (b_kernel s)) = 0;
  pw_cache : k_bc (s_k (s_sys (b_kernel s))) = bss_bcache;
  pw_inodes : k_ic (s_k (s_sys (b_kernel s))) = bss_icache;
  pw_mounts : k_mnt (s_k (s_sys (b_kernel s))) = bss_gmnt;
  pw_procs : s_proc (b_kernel s) = replicate NPROC bss_proc;
  pw_ns : s_ns (b_kernel s) = bss_nstate;
  pw_cons : edits (b_cons s) (Editor [] []) ∧ screen_ok (b_cons s) ∧ co_woken (b_cons s) = false;
  pw_table : mpinit bios fuel (b_mp s) = Ret tt mp;
  pw_lapic : Mp.lapic mp ≠ 0;
  pw_drives : drives (id_ata (b_ide s)) ∧ quiet (id_ata (b_ide s));
  pw_ncpu : (ncpu mp ≤ NCPU)%nat;
  pw_me : find_cpu (take (ncpu mp) (cpus mp)) 0 (Z.shiftr (la_id (b_lapic s)) 24) = Some me;
  pw_up i : (i < ncpu mp)%nat → i ≠ me → ∃ id, cpus mp !! i = Some id ∧ comes_up id = true;
}.

(** The board when the boot processor enters [scheduler]. *)
Record booted (s s' : board) (mp : mpstate) (me : nat) (v pgdir : Z) (l stacks : list Z) : Prop := {
  bt_procs : s_proc (b_kernel s') = first_proc v pgdir :: replicate (NPROC - 1) bss_proc;
  bt_mounts : k_mnt (s_k (s_sys (b_kernel s'))) = first_mnt;
  bt_init : s_initproc (b_kernel s') = Some 0%nat;
  bt_disk : k_disk (s_k (s_sys (b_kernel s'))) = k_disk (s_k (s_sys (b_kernel s)));
  bt_run : ∃ k, (acquire ptable_l;; switch_to 0) (b_kernel s') = Ret tt k ∧ s_cr3 k = V2P pgdir ∧
    fork_ready (set_s_pt_lock false k) l [0%nat] [] 0 (set_p_state RUNNING (first_proc v pgdir)) 0
      (set_i_ref 1 (set_i_inum ROOTINO (set_i_dev ROOTDEV bss_inode))) 0 0 0 [];
  bt_user j : 0 ≤ j < NUSER → uent (mem_of (b_kernel s')) pgdir j =
    if decide (j = 0) then Some (7, initcode ++ replicate (Z.to_nat PGSIZE - length initcode) 0) else None;
  bt_frame i : 0 ≤ i < 19 → frame_word (mem_of (b_kernel s')) v i = nth (Z.to_nat i) first_frame 0;
  bt_kernel : intact (mem_of (b_kernel s')) l (s_kpgdir (b_kernel s'));
  bt_separate : separate (mem_of (b_kernel s')) (s_kpgdir (b_kernel s')) pgdir;
  bt_stacks : stacks_ok (mem_of (b_kernel s')) l [s_kpgdir (b_kernel s'); pgdir] (v :: stacks);
  bt_others : length stacks = length (others me 0 (ncpu mp)) ∧
    b_others s' = b_others s ++ zip_with (start_info mp) (others me 0 (ncpu mp)) stacks;
  bt_running : b_running s' = b_running s ++ others me 0 (ncpu mp) ++ [me];
  bt_tables : b_idt s' = tvinit vectors ∧ b_cpus s' = alter seginit me (b_cpus s);
  bt_routes i : 0 ≤ i ≤ Z.land (Z.shiftr (io_data (b_ioapic s) REG_VER) 16) 0xFF → route (b_ioapic s') i = routed (ncpu mp) i;
  bt_start : b_code s' = entryother;
  bt_ide : ∃ a, b_ide s' = set_id_havedisk1 true (set_id_ata a (set_id_lock false (b_ide s))) ∧ drives a ∧ quiet a ∧
    a_disk (ata_finish a) = a_disk (ata_finish (id_ata (b_ide s)));
}.

(** The rest of [main] after the devices. *)
Definition main_rest : K board unit :=
  in_kernel pinit;;
  modify (set_b_idt (tvinit vectors));;
  in_kernel (modify (set_s_tickslock false));;
  in_kernel (zoom sys_l (zoom k_l (zoom bc_l binit)));;
  in_kernel (zoom sys_l (zoom ft_l fileinit));;
  ideinit_board;;
  startothers;;
  in_kernel (in_mem (kinit2 (P2V (4 * 1024 * 1024)) (P2V PHYSTOP)));;
  in_kernel (zoom sys_l (zoom k_l (zoom ldev_l loopdevinit)));;
  in_kernel (zoom sys_l (zoom k_l (zoom mnt_l mountinit)));;
  in_kernel userinit;;
  mpmain.

Lemma main_devices fuel k c mp0 la io dk en cp idt po ot ru mp me m1 m2 kp :
  kinit1 kend (P2V (4 * 1024 * 1024)) (mem_of k) = Ret tt m1 → setupkvm m1 = Ret kp m2 →
  edits c (Editor [] []) → screen_ok c → co_woken c = false → mpinit bios fuel mp0 = Ret tt mp → Mp.lapic mp ≠ 0 →
  find_cpu (take (ncpu mp) (cpus mp)) 0 (Z.shiftr (la_id la) 24) = Some me →
  ∃ c' la' io' po', main fuel (Board k c mp0 la io dk en cp idt po ot ru) =
      main_rest (Board (set_s_cr3 (V2P kp) (set_s_kpgdir kp (set_mem m2 k))) c' mp la' io' dk en (alter seginit me cp) idt po' ot ru) ∧
    la_present la' = true ∧ la_id la' = la_id la ∧ cons_ready c' (Editor [] []) ∧
    ∀ i, 0 ≤ i ≤ Z.land (Z.shiftr (io_data io REG_VER) 16) 0xFF → route io' i = wired i.
Proof.
  intros E1 E2 W6 W7 W8 W9 W10 W12.
  destruct (run_lapic (set_s_cr3 (V2P kp) (set_s_kpgdir kp (set_mem m2 k))) c mp la io dk en cp idt po ot ru W10 _ lapicinit_keeps)
    as ([] & la1 & E3 & Hp1 & Hid1). rewrite <- Hid1 in W12.
  unfold main. rewrite (K_bind_Ret _ _ _ _ _ (run_kernel _ _ _ _ _ _ _ _ _ _ _ _ _ _ _ (in_mem_Ret _ _ _ _ E1))).
  assert (Ev : kvmalloc (set_mem m1 k) = Ret tt (set_s_cr3 (V2P kp) (set_s_kpgdir kp (set_mem m2 k)))).
  { unfold kvmalloc. kstep (in_mem_Ret _ (set_mem m1 k) _ _ E2). done. }
  rewrite (K_bind_Ret _ _ _ _ _ (run_kernel _ _ _ _ _ _ _ _ _ _ _ _ _ _ _ Ev)), (K_bind_Ret _ _ _ _ _ (run_mp _ _ _ _ _ _ _ _ _ _ _ _ _ _ _ W9)).
  kstep E3. set (k1 := set_s_cr3 _ _) in *. set (cp1 := alter seginit me cp).
  assert (Es : seginit_cpu (Board k1 c mp la1 io dk en cp idt po ot ru) = Ret tt (Board k1 c mp la1 io dk en cp1 idt po ot ru)).
  { unfold seginit_cpu, cpuid. by kstep (run_mycpu k1 c mp la1 io dk en cp idt po ot ru W10 me Hp1 W12). }
  kstep Es. set (po1 := (po ++ [(IO_PIC1 + 1, 0xFF)]) ++ [(IO_PIC2 + 1, 0xFF)]).
  rewrite (K_bind_Ret picinit _ _ tt (Board k1 c mp la1 io dk en cp1 idt po1 ot ru)) by reflexivity.
  destruct (consoles_run k1 c mp la1 io dk en cp1 idt po1 ot ru (Editor [] []) W6 W7 W8)
    as (c1 & io1 & po2 & sa & sb & Ea & Eb & Ec & Hc1 & _ & Hr1). kstep Ea. kstep Eb. kstep Ec. by exists c1, la1, io1, po2.
Qed.

Lemma main_rest_run k c mp la io dk en cp idt po ot ru me l2 (P : Z → Z → kmem → list Z → list Z → Prop) :
  k_bc (s_k (s_sys k)) = bss_bcache → k_ic (s_k (s_sys k)) = bss_icache → k_mnt (s_k (s_sys k)) = bss_gmnt →
  s_proc k = replicate NPROC bss_proc → s_ns k = bss_nstate → kmem_ok (mem_of k) l2 → (NCPU ≤ length l2)%nat →
  (∀ stacks l3 m3, l2 = stacks ++ l3 → kmem_ok m3 l3 → km_pages m3 = km_pages (mem_of k) →
    ∃ m4 l4, kinit2 (P2V (4 * 1024 * 1024)) (P2V PHYSTOP) m3 = Ret tt m4 ∧ kmem_ok m4 l4 ∧ 1100 < Z.of_nat (length l4) ∧
    ∀ m5 l5 v pgdir, first_mem m4 m5 l4 l5 v pgdir → P v pgdir m5 l5 stacks) →
  Mp.lapic mp ≠ 0 → drives (id_ata dk) → quiet (id_ata dk) → (ncpu mp ≤ NCPU)%nat → la_present la = true → find_cpu (take (ncpu mp) (cpus mp)) 0 (Z.shiftr (la_id la) 24) = Some me →
  (∀ i, (i < ncpu mp)%nat → i ≠ me → ∃ id, cpus mp !! i = Some id ∧ comes_up id = true) →
  cons_ready c (Editor [] []) → Z.of_nat (length initcode) < PGSIZE →
  ∃ a io' k7 c' la' stacks m4 l4 m5 l5 v pgdir, main_rest (Board k c mp la io dk en cp idt po ot ru) =
      Ret tt (Board (filled k7 false m5 (first_proc v pgdir) first_ic first_ns) c' mp la' io' (set_id_havedisk1 true (set_id_ata a (set_id_lock false dk))) entryother cp (tvinit vectors) po
        (ot ++ zip_with (start_info mp) (others me 0 (ncpu mp)) stacks) (ru ++ others me 0 (ncpu mp) ++ [me])) ∧
    length stacks = length (others me 0 (ncpu mp)) ∧ first_mem m4 m5 l4 l5 v pgdir ∧ pgdir ≠ 0 ∧ P v pgdir m5 l5 stacks ∧
    k_disk (s_k (s_sys k7)) = k_disk (s_k (s_sys k)) ∧ k_mnt (s_k (s_sys k7)) = first_mnt ∧ s_kpgdir k7 = s_kpgdir k ∧ ft_lock (s_ft (s_sys k7)) = false ∧
    (drives a ∧ quiet a ∧ a_disk (ata_finish a) = a_disk (ata_finish (id_ata dk))) ∧
    ∀ i, 0 ≤ i → route io' i = if i =? Trap.IRQ_IDE then Some (Trap.T_IRQ0 + Trap.IRQ_IDE, Z.of_nat (ncpu mp) - 1) else route io i.
Proof.
  intros W2 W3 WM W4 W5 Hm2 Hn2 Hmem W10 Hdr Hdq W11 Hp1 W12 W13 Hc1 Hi. unfold main_rest. set (k1 := k) in *.
  rewrite (K_bind_Ret _ _ _ _ _ (run_kernel _ _ _ _ _ _ _ _ _ _ _ _ pinit tt (set_s_pt_lock false k1) eq_refl)). erewrite K_bind_Ret by reflexivity.
  set (k2 := set_s_tickslock false (set_s_pt_lock false k1)).
  rewrite (K_bind_Ret (in_kernel _) _ _ tt (Board k2 c mp la io dk en cp (tvinit vectors) po ot ru)) by reflexivity.
  destruct binit_run as (bc & Eb' & _). rewrite <- W2 in Eb'.
  set (k3 := set_s_sys (set_s_k (set_k_bc bc (s_k (s_sys k2))) (s_sys k2)) k2).
  assert (E4 : zoom sys_l (zoom k_l (zoom bc_l binit)) k2 = Ret tt k3).
  { exact (zoom_Ret sys_l _ k2 _ _ (zoom_Ret k_l _ (s_sys k2) _ _ (zoom_Ret bc_l _ (s_k (s_sys k2)) _ _ Eb'))). }
  rewrite (K_bind_Ret _ _ _ _ _ (run_kernel _ _ _ _ _ _ _ _ _ _ _ _ _ _ _ E4)).
  set (k4 := set_s_sys (set_s_ft (set_ft_lock false (s_ft (s_sys k3))) (s_sys k3)) k3).
  rewrite (K_bind_Ret (in_kernel _) _ _ tt (Board k4 c mp la io dk en cp (tvinit vectors) po ot ru)) by reflexivity.
  assert (Hncpu : (1 ≤ ncpu mp)%nat) by (destruct (ncpu mp); [done|lia]).
  destruct (ideinit_board_run k4 c mp la io dk en cp (tvinit vectors) po ot ru Hdr Hdq) as (da & io1 & Ed & Hda & Hdqa & Hdk & Hdr1); [lia|].
  kstep Ed. clear Ed. set (dk1 := set_id_havedisk1 true _).
  destruct (startothers_run (ncpu mp) 0 k4 c mp la io1 dk1 entryother cp (tvinit vectors) po ot ru me l2) as (m3 & la3 & stacks & l3 & E5 & Hl3 & Hst & Hm3 & Hpg3 & Hp3 & Hid3);
    [done|done|done|done|lia|intros i Hi'; apply W13; lia|].
  rewrite (K_bind_Ret startothers _ (Board k4 c mp la io1 dk1 en cp (tvinit vectors) po ot ru) _ _ E5).
  destruct (Hmem stacks l3 m3 Hl3 Hm3 Hpg3) as (m4 & l4 & E6 & Hm4 & Hn4 & Hfin).
  rewrite (K_bind_Ret _ _ _ _ _ (run_kernel _ _ _ _ _ _ _ _ _ _ _ _ _ _ _ (in_mem_Ret _ (set_mem m3 k4) _ _ E6))).
  set (k5 := set_mem m4 (set_mem m3 k4)).
  set (k6 := set_s_sys (set_s_k (set_k_ldev (set_gl_lock false (k_ldev (s_k (s_sys k5)))) (s_k (s_sys k5))) (s_sys k5)) k5).
  set (ot1 := ot ++ zip_with (start_info mp) (others me 0 (ncpu mp)) stacks). set (ru1 := ru ++ others me 0 (ncpu mp)).
  rewrite (K_bind_Ret (in_kernel _) _ _ tt (Board k6 c mp la3 io1 dk1 entryother cp (tvinit vectors) po ot1 ru1)) by reflexivity.
  set (k7 := set_s_sys (set_s_k (set_k_mnt first_mnt (s_k (s_sys k6))) (s_sys k6)) k6).
  assert (E7 : zoom sys_l (zoom k_l (zoom mnt_l mountinit)) k6 = Ret tt k7).
  { pose proof mountinit_run as E. rewrite <- WM in E.
    exact (zoom_Ret sys_l _ k6 _ _ (zoom_Ret k_l _ (s_sys k6) _ _ (zoom_Ret mnt_l _ (s_k (s_sys k6)) _ _ E))). }
  rewrite (K_bind_Ret _ _ _ _ _ (run_kernel _ _ _ _ _ _ _ _ _ _ _ _ _ _ _ E7)).
  destruct (userinit_run kend_above kdata_aligned kdata_above k7 l4) as (m5 & v & pgdir & l5 & E8 & Hne & Hfm); [split; done|done|].
  rewrite (K_bind_Ret _ _ _ _ _ (run_kernel _ _ _ _ _ _ _ _ _ _ _ _ _ _ _ E8)). set (k8 := filled k7 _ _ _ _ _).
  unfold mpmain, cpuid. rewrite <- Hid3 in W12. kstep (run_mycpu k8 c mp la3 io1 dk1 entryother cp (tvinit vectors) po ot1 ru1 W10 me Hp3 W12).
  destruct (cprintf_run (λ _, []) (text "cpu%d: starting %d
") [u32 (Z.of_nat me); u32 (Z.of_nat me)] c (Editor [] [])) as (c2 & E10 & _); [lazy -[u32]; exact I|done|].
  rewrite (K_bind_Ret _ _ _ _ _ (run_cons k8 c mp la3 io1 dk1 entryother cp (tvinit vectors) po ot1 ru1 _ _ _ E10)).
  exists da, io1, k7, c2, la3, stacks, m4, l4, m5, l5, v, pgdir. split; [|split_and!; by auto].
  unfold ot1, ru1. rewrite (assoc_L (++)). reflexivity.
Qed.

(** C7: Starting the kernel.  For every disk, every serial port, every
    [initcode] shorter than a page and every placement of a kernel that ends
    80 pages below 4 megabytes and whose data start at a page boundary inside
    the mapped memory, when the tables are zero, [mpinit] accepts the table of processors, which names the
    boot processor and whose other processors come up, and both drives are
    there: [main] returns from all initialisations and enters the scheduler.
    The free list lasts for the tables that are made before the rest of memory
    is freed.  Every other processor is started once, on a stack of its own.
    The first process is ready: its memory is the code of [initcode] and
    zeros, its frame starts it at 0 in user mode, and once the scheduler
    switches to it everything holds that [fork] relies on.  The kernel's page
    table maps what [kmap] asks for, apart from the pages of the process.  The
    second drive has been found and the disks are as they were.  The keyboard
    and, when there is one, the serial port interrupt the first processor and
    the disk the last one, with the vectors of [trap], and nothing else
    does. *)
Theorem main_boots fuel s mp me : powered fuel s mp me → Z.of_nat (length initcode) < PGSIZE →
  ∃ s' v pgdir l stacks, main fuel s = Ret tt s' ∧ booted s s' mp me v pgdir l stacks.
Proof.
  intros [W1 W2 W3 WM W4 W5 [W6 [W7 W8]] W9 W10 [WD WQ] W11 W12 W13] Hi. destruct s as [k c mp0 la io dk en cp idt po ot ru].
  cbn [b_kernel b_cons b_mp b_lapic b_ide] in *.
  destruct (boot_memory (mem_of k) W1) as (m1 & kp & m2 & l2 & E1 & E2 & Hm2 & Hn2 & Hmem).
  destruct (main_devices fuel k c mp0 la io dk en cp idt po ot ru mp me m1 m2 kp) as (c1 & la1 & io1 & po1 & Em & Hp1 & Hid1 & Hc1 & Hr1); [done..|].
  rewrite <- Hid1 in W12. set (k1 := set_s_cr3 _ _) in *.
  destruct (main_rest_run k1 c1 mp la1 io1 dk en (alter seginit me cp) idt po1 ot ru me l2 _ W2 W3 WM W4 W5 Hm2 Hn2 Hmem)
    as (a & io2 & k7 & c2 & la2 & stacks & m4 & l4 & m5 & l5 & v & pgdir & Er & Hst & Hfm & Hne & (F1 & F2 & F3) & D7 & M7 & P7 & T7 & Hide & Hr2); [done..|].
  destruct (first_switch k7 m4 m5 l4 l5 v pgdir Hfm Hne T7) as (k9 & E9 & C9 & _ & _ & R9).
  eexists _, v, pgdir, l5, stacks. split; [by rewrite Em|]. split; try done; try apply Hfm.
  - exists k9. split; [exact E9|]. done.
  - cbn. by rewrite P7.
  - cbn. by rewrite P7.
  - cbn. by rewrite P7.
  - intros i Hi'. cbn [b_ioapic] in *. rewrite Hr2 by lia. unfold routed. by rewrite Hr1.
  - by exists a.
Qed.
End main.

(** A machine with two processors, the tables of Mp.v and no serial port; the
    memory below the kernel is arbitrary, the rest is zero. *)
#[local] Instance ex_boot_code : Code := {| trapret_addr := 0x80105000; forkret_addr := 0x80103000; initcode := [0xEB; 0xFE] |}.
#[local] Instance ex_boot_devsw : DevSw := {| devsw_read := λ _, None; devsw_write := λ _, None |}.
#[local] Instance ex_hardware : Hardware := {| bios := wit_memory; uart_status := 0xFF; vectors := λ i, 0x80106000 + 10 * i;
  mpenter_addr := 0x80102F00; entrypgdir_addr := 0x80109000; entryother := [0xFA]; drive_latency := λ _ _, 5%nat; comes_up := λ id, id =? 5 |}.
Definition ex_board : board :=
  Board (State (Sys (bss_kernel []) (FTable false []) (KMem false false 0 ∅) ∅) false (replicate NPROC bss_proc) 1 None bss_nstate None 0 0 0 true false 0)
    (MkCons (replicate 128 0) 0 0 0 false false false false [] (λ _, 0) 0 false) (MpState (replicate NCPU 0) 0 0 0 0)
    (Lapic false 0 0 3 []) (IoApic 0 (λ r, if r =? REG_VER then 0x170011 else 0)) wit_ide [] (replicate NCPU (Cpu (replicate NSEGS []) 0 0 0)) [] [] [] [].

Lemma main_boots_witness :
  ∃ s' v pgdir stack, main (LK:=ex_linker) 100 ex_board = Ret tt s' ∧ b_others s' = [(5, [stack + 4096; 0x80102F00; 0x109000])] ∧ b_running s' = [1%nat; 0%nat] ∧
    s_proc (b_kernel s') !! 0%nat = Some (first_proc v pgdir) ∧ uent (mem_of (b_kernel s')) pgdir 0 = Some (7, [0xEB; 0xFE] ++ replicate (Z.to_nat PGSIZE - 2) 0) ∧
    route (b_ioapic s') 1 = Some (33, 0) ∧ route (b_ioapic s') 4 = None ∧ route (b_ioapic s') 14 = Some (46, 1).
Proof.
  set (mp := MpState ([0; 5] ++ replicate 6 0) 2 7 0xFEE00000 0).
  destruct (main_boots (LK:=ex_linker) eq_refl ltac:(vm_compute; discriminate) eq_refl (conj eq_refl eq_refl) 100 ex_board mp 0)
    as (s' & v & pgdir & l & stacks & E & B).
  - split; try reflexivity.
    + split; [split; try reflexivity|].
      * split; [discriminate|reflexivity].
      * cbn. lia.
      * intros i x Hx. destruct i; discriminate Hx.
      * constructor.
      * constructor.
      * split; [split; [split; [discriminate|reflexivity]|reflexivity]|reflexivity].
    + discriminate.
    + split; [split|]; reflexivity.
    + unfold NCPU. cbn. lia.
    + intros [|[|i]] Hi Hne; [done| |cbn in Hi; lia]. by exists 5.
  - reflexivity.
  - destruct (bt_others _ _ _ _ _ _ _ _ B) as [Hl Ho]. destruct stacks as [|w [|]]; [discriminate Hl| |discriminate Hl].
    exists s', v, pgdir, w. split; [exact E|]. split; [exact Ho|]. split; [exact (bt_running _ _ _ _ _ _ _ _ B)|].
    split; [by rewrite (bt_procs _ _ _ _ _ _ _ _ B)|]. split.
    { pose proof (bt_user _ _ _ _ _ _ _ _ B 0) as Hu. rewrite (decide_True _ _ (eq_refl 0)) in Hu. apply Hu. split; [discriminate|reflexivity]. }
    split_and!; by rewrite (bt_routes _ _ _ _ _ _ _ _ B) by (split; vm_compute; discriminate).
Defined.
