(* ===== verification/Examples.v ===== *)
(** * Examples: runs of the kernel, and the properties at concrete states

    The instances of the context classes for the runs: process 1, whose
    working directory is the root inode, and the loop devices of Loopdev.v
    nested up to two deep.  Every theorem that has hypotheses is applied here
    to a state where they hold. *)

From Stdlib Require Import ZArith Lia.
From stdpp Require Import base numbers strings gmap list.
From S2P Require Import Prelude CString Kernel Sleeplock Bio Log Store Commit Crash Txn MntTable Fs Dinode Bitmap FileData.
From S2P Require Import FileIO Directory Loopdev LoopFile Mount Mkfs.
Open Scope Z_scope.

#[local] Instance ex_proc : CurProc := {| cur_pid := 1; cur_cwd := 0 |}.
#[local] Instance ex_devsw : DevSw := {| devsw_read := λ _, None; devsw_write := λ _, None |}.
#[local] Instance ex_loop : LoopOps := loop_ops 2.

(** ** A small file system *)

Lemma seqZ_check (f : Z → bool) n : forallb f (seqZ 0 n) = true → ∀ i, 0 ≤ i < n → f i = true.
Proof.
  intros H i Hi. rewrite forallb_forall in H. apply H, list_elem_of_In, elem_of_seqZ. lia.
Qed.

(** The file of inode 1 has the three bytes 65, 66, 67 in block 8; inode 2 is a
    directory whose block 9 has the entry [.] and a free entry.  Blocks 0 to 9
    of the 12 are in use: boot block, superblock, log (2 to 5), inodes (6),
    free map (7), the file and the directory. *)
Definition ex_dinode : dinode := DInode T_FILE 0 0 1 3 (8 :: replicate 12 0).
Definition ex_dir_dinode : dinode := DInode T_DIR 0 0 1 32 (9 :: replicate 12 0).
Definition ex_disk : list (list Z) :=
  <[9%nat := [2; 0; 46] ++ replicate 509 0]>
  (<[8%nat := [65; 66; 67] ++ replicate 509 0]>
  (<[7%nat := [255; 3] ++ replicate 510 0]>
  (<[6%nat := put_dinode (put_dinode zero_block 1 ex_dinode) 2 ex_dir_dinode]> small_disk))).

Definition ex_inode : inode :=
  load_dinode ex_dinode (Inode ROOTDEV 1 1 (SleepLock true 1) true 0 0 0 0 0 []).

Definition ex_dir : inode :=
  load_dinode ex_dir_dinode (Inode ROOTDEV 2 1 (SleepLock true 1) true 0 0 0 0 0 []).

(** The kernel inside an operation, with inodes 1 and 2 in the cache. *)
Definition ex_log : logst := LogSt false 2 4 1 false ROOTDEV (LogHeader 0 (replicate 30 0)).
Definition ex_icache : icache := ICache false (<[0%nat := ex_inode]> (<[1%nat := ex_dir]> (replicate NINODE bss_inode))).
Definition ex_k : kernel := first_op ex_log (parse_sb (blk ex_disk 1)) ex_icache (reboot ex_disk).

Lemma ex_layout : layout_ok 2 4 ex_disk.
Proof.
  split; [done|done|vm_compute; discriminate|vm_compute; reflexivity| |vm_compute; reflexivity..].
  apply (bool_decide_unpack _). vm_compute. exact I.
Qed.

Lemma ex_log_inv : log_inv ex_log.
Proof. split; try done. apply NoDup_nil_2. Qed.

Lemma reboot_disk disk : k_disk (reboot disk) = disk.
Proof. unfold reboot. by destruct (binit bss_bcache). Qed.

Lemma ex_tx : tx ex_k ex_disk ∅.
Proof.
  destruct (reboot_store ex_disk) as [Hs Hn]; [apply ex_layout..|].
  apply first_op_tx; [exact Hs|exact Hn|exact ex_log_inv|done|done|done|done| |done].
  rewrite reboot_disk. apply ex_layout.
Qed.

Definition ex_sb : superblock := SuperBlock 12 4 1 4 2 6 7.
Lemma ex_sb_eq : k_sb ex_k = ex_sb.
Proof. vm_compute. reflexivity. Qed.

Lemma ex_data_block b : 0 ≤ b < 12 → ¬ 2 ≤ b < 6 → data_block ex_k b.
Proof.
  intros Hb Ho. split; [|exact Ho]. unfold in_disk, ex_k, first_op. cbn [k_disk set_k_ic set_k_sb set_k_log].
  rewrite reboot_disk. exact Hb.
Qed.

Lemma ex_used b : 0 ≤ b < 12 → used ex_sb ex_disk b = (b <=? 9).
Proof.
  intros Hb. apply eqb_prop.
  by apply (seqZ_check (λ b, eqb (used ex_sb ex_disk b) (b <=? 9)) 12); [vm_compute; reflexivity|].
Qed.

Lemma ex_used_8 : used ex_sb ex_disk 8 = true.
Proof. by rewrite ex_used. Qed.

Lemma ex_BBLOCK b : 0 ≤ b < 12 → BBLOCK b ex_sb = 7.
Proof.
  intros Hb. apply Z.eqb_eq. by apply (seqZ_check (λ b, BBLOCK b ex_sb =? 7) 12); [vm_compute; reflexivity|].
Qed.

Lemma ex_map : map_ok ex_k ex_disk.
Proof.
  split; rewrite ?ex_sb_eq; cbn [sb_size sb_bmapstart ex_sb]; try lia.
  - intros b Hb. rewrite ex_BBLOCK by done. split; [apply ex_data_block; lia|]. split; [lia|].
    by rewrite ex_used.
  - by rewrite ex_used.
  - intros b Hb. rewrite ex_used by done. intros Hu%Z.leb_gt. apply ex_data_block; lia.
Qed.

Lemma ex_cached : cached 0 ex_inode ex_k.
Proof. reflexivity. Qed.

Lemma ex_good b : b = 6 ∨ b = 8 ∨ b = 9 → good_block ex_k ex_disk b.
Proof.
  intros Hb. split; rewrite ?ex_sb_eq; cbn [sb_size ex_sb].
  - lia.
  - rewrite ex_used by lia. lia.
  - apply ex_data_block; lia.
  - intros c Hc. rewrite ex_BBLOCK by done. lia.
Qed.

Lemma ex_faddr n : 0 ≤ n < MAXFILE → faddr ex_disk ex_inode n = if n =? 0 then 8 else 0.
Proof.
  intros Hn. apply Z.eqb_eq.
  by apply (seqZ_check (λ n, faddr ex_disk ex_inode n =? if n =? 0 then 8 else 0) 140); [vm_compute; reflexivity|].
Qed.

Lemma ex_file : file_ok ex_k ex_disk ex_inode.
Proof.
  split; try done.
  - intros n Hn. rewrite ex_faddr by done. destruct (n =? 0); [|done]. intros _. apply ex_good. by right; left.
  - intros n m Hn Hm. rewrite !ex_faddr by done. destruct (Z.eqb_spec n 0), (Z.eqb_spec m 0); congruence.
Qed.

Lemma ex_regular : regular ex_k ex_disk ex_inode.
Proof.
  split; [apply ex_file|done|split; vm_compute; discriminate|]. intros i Hi. change (i_size ex_inode) with 3 in Hi.
  rewrite Z.div_small by (unfold BSIZE; lia). by rewrite ex_faddr.
Qed.

Lemma ex_iblock : iblock ex_k ex_inode = 6.
Proof. vm_compute. reflexivity. Qed.

Lemma ex_inode_ok : inode_ok ex_k ex_disk ex_inode.
Proof.
  split; rewrite ?ex_iblock.
  - apply ex_good. by left.
  - intros m Hm. rewrite ex_faddr by done. by destruct (m =? 0).
  - done.
  - split; try done. apply (bool_decide_unpack _). vm_compute. exact I.
  - vm_compute. reflexivity.
Qed.

(** The directory. *)
Lemma ex_dir_faddr n : 0 ≤ n < MAXFILE → faddr ex_disk ex_dir n = if n =? 0 then 9 else 0.
Proof.
  intros Hn. apply Z.eqb_eq.
  by apply (seqZ_check (λ n, faddr ex_disk ex_dir n =? if n =? 0 then 9 else 0) 140); [vm_compute; reflexivity|].
Qed.

Lemma ex_dir_ok : dir_ok ex_k ex_disk ex_dir.
Proof.
  split; [|done|done|].
  - split; [|done|split; vm_compute; discriminate|].
    + split; try done.
      * intros n Hn. rewrite ex_dir_faddr by done. destruct (n =? 0); [|done]. intros _. apply ex_good. by right; right.
      * intros n m Hn Hm. rewrite !ex_dir_faddr by done. destruct (Z.eqb_spec n 0), (Z.eqb_spec m 0); congruence.
    + intros i Hi. change (i_size ex_dir) with 32 in Hi.
      rewrite Z.div_small by (unfold BSIZE; lia). by rewrite ex_dir_faddr.
  - intros i Hi. change (i_size ex_dir) with 32 in Hi.
    assert ((0 <=? fbyte ex_disk ex_dir i) && (fbyte ex_disk ex_dir i <? 256) = true) as [?%Z.leb_le ?%Z.ltb_lt]%andb_prop.
    { apply (seqZ_check (λ i, (0 <=? fbyte ex_disk ex_dir i) && (fbyte ex_disk ex_dir i <? 256)) 32); [|done].
      vm_compute. reflexivity. }
    done.
Qed.

Lemma ex_dir_cached : cached 1 ex_dir ex_k.
Proof. reflexivity. Qed.

Lemma ex_dir_inode_ok : inode_ok ex_k ex_disk ex_dir.
Proof.
  assert (E : iblock ex_k ex_dir = 6) by (vm_compute; reflexivity). split; rewrite ?E.
  - apply ex_good. by left.
  - intros m Hm. rewrite ex_dir_faddr by done. by destruct (m =? 0).
  - done.
  - split; try done. apply (bool_decide_unpack _). vm_compute. exact I.
  - vm_compute. reflexivity.
Qed.

(** ** Buffers *)

Lemma ex_cache_ok : cache_ok (k_bc (reboot ex_disk)) (reverse (seq 0 NBUF)).
Proof. unfold reboot. by destruct binit_run as (s & -> & _ & H). Qed.

Lemma bget_is_lru_witness :
  bget ROOTDEV 8 (k_bc (reboot ex_disk)) =
  bget_lru ROOTDEV 8 (reverse (seq 0 NBUF)) (k_bc (reboot ex_disk)).
Proof. apply bget_is_lru. apply ex_cache_ok. Defined.

(** The cache with buffer 29 read and held. *)
Definition ex_buf : buf := Buf B_VALID ROOTDEV 8 (SleepLock true 1) 1 zero_block.
Definition ex_bc : bcache := put_buf 29 ex_buf (k_bc (reboot ex_disk)).

Lemma ex_unused b x : bc_buf (k_bc (reboot ex_disk)) !! b = Some x → x = Buf 0 0 0 bss_sleeplock 0 zero_block.
Proof.
  unfold reboot. destruct binit_run as (s & -> & E & _). cbn [k_bc set_k_bc]. rewrite E.
  by intros [-> _]%lookup_replicate.
Qed.

Lemma ex_bc_ok : cache_ok ex_bc (reverse (seq 0 NBUF)).
Proof.
  destruct (cache_ok_lookup _ _ 29%nat ex_cache_ok) as [x Hx].
  { apply elem_of_reverse, elem_of_seq. unfold NBUF. lia. }
  eapply (cache_ok_recycle _ _ ROOTDEV 8); [apply ex_cache_ok| |exact Hx|done|done].
  destruct (List.find _ _) as [b|] eqn:E; [|done]. exfalso. apply find_some in E as [_ E].
  apply has_key_true in E as (y & Hy & Hd & _). apply ex_unused in Hy. subst y. done.
Qed.

Lemma ex_bc_lookup : bc_buf ex_bc !! 29%nat = Some ex_buf.
Proof.
  destruct (cache_ok_lookup _ _ 29%nat ex_cache_ok) as [x Hx].
  { apply elem_of_reverse, elem_of_seq. unfold NBUF. lia. }
  by eapply put_buf_lookup.
Qed.

Lemma brelse_to_front_witness : ∃ s, brelse 29 ex_bc = Ret tt s.
Proof.
  destruct (brelse_to_front (CP := ex_proc) ex_bc _ 29 ex_buf ex_bc_ok ex_bc_lookup eq_refl) as (nx & pv & E & _).
  by eexists.
Defined.

Lemma bread_spec_witness : wp (bread ROOTDEV 8) full_panics (λ b k', ∃ H, store k' ex_disk H) ex_k.
Proof.
  eapply wp_mono.
  - apply (bread_spec ex_k ex_disk ∅ 8 (blk ex_disk 8) (tx_store _ _ _ ex_tx)).
    + intros b h Hb. by rewrite lookup_empty in Hb.
    + apply ex_data_block; lia.
    + vm_compute. reflexivity.
  - intros b k' (_ & _ & _ & S). by eexists.
Defined.

(** ** The blocks *)

Lemma balloc_spec_witness : wp (balloc ROOTDEV) full_panics (λ r _, 0 ≤ r < 12) ex_k.
Proof.
  eapply wp_mono.
  - apply (balloc_spec ex_k ex_disk ∅ ex_tx ex_map (held_ok_empty _ _)).
    exists 10. rewrite ex_sb_eq. split; [done|]. vm_compute. reflexivity.
  - intros r k' (Hr & _). by rewrite ex_sb_eq in Hr.
Defined.

Lemma bfree_spec_witness :
  wp (bfree ROOTDEV 8) full_panics (λ _ k', ∃ D', tx k' D' ∅ ∧ used ex_sb D' 8 = false) ex_k.
Proof.
  pose proof (bfree_spec ex_k ex_disk ∅ 8 ex_tx ex_map (held_ok_empty _ _)) as H. rewrite ex_sb_eq in H.
  rewrite ex_used_8 in H.
  eapply wp_mono; [apply H; split; [discriminate|reflexivity]|].
  intros [] k' (_ & _ & D' & T & Hu). exists D'. split; [exact T|].
  rewrite Hu by (split; [discriminate|reflexivity]). reflexivity.
Defined.

(** The same disk with every block in use. *)
Definition full_disk : list (list Z) := <[7%nat := replicate 512 255]> ex_disk.
Definition full_k : kernel := first_op ex_log ex_sb ex_icache (reboot full_disk).

Lemma full_layout : layout_ok 2 4 full_disk.
Proof.
  split; [done|done|vm_compute; discriminate|vm_compute; reflexivity| |vm_compute; reflexivity..].
  apply (bool_decide_unpack _). vm_compute. exact I.
Qed.

Lemma full_tx : tx full_k full_disk ∅.
Proof.
  destruct (reboot_store full_disk) as [Hs Hn]; [apply full_layout..|].
  apply first_op_tx; [exact Hs|exact Hn|exact ex_log_inv|done|done|done|done| |done].
  rewrite reboot_disk. apply full_layout.
Qed.

Lemma full_used b : 0 ≤ b < 12 → used ex_sb full_disk b = true.
Proof. by apply (seqZ_check (λ b, used ex_sb full_disk b) 12); vm_compute. Qed.

Lemma full_map : map_ok full_k full_disk.
Proof.
  split; change (k_sb full_k) with ex_sb; cbn [sb_size sb_bmapstart ex_sb]; try lia.
  - intros b Hb. rewrite ex_BBLOCK by done. split; [|split; [lia|by rewrite full_used]].
    split; [|cbn; lia]. unfold in_disk, full_k, first_op. cbn [k_disk set_k_ic set_k_sb set_k_log].
    rewrite reboot_disk. split; [done|]. vm_compute. reflexivity.
  - by rewrite full_used.
  - intros b Hb. by rewrite full_used.
Qed.

Lemma balloc_out_of_blocks_witness :
  wp (balloc ROOTDEV) ("balloc: out of blocks"%string :: full_panics) (λ _ _, False) full_k.
Proof.
  apply (balloc_out_of_blocks full_k full_disk ∅ full_tx full_map (held_ok_empty _ _)).
  intros b Hb. by apply full_used.
Defined.

Lemma dinode_roundtrip_witness : get_dinode (put_dinode zero_block 1 ex_dinode) 1 = ex_dinode.
Proof.
  apply (dinode_roundtrip zero_block 1 ex_dinode); [vm_compute; reflexivity|apply ex_inode_ok].
Defined.

(** ** Files *)

Lemma no_root_empty : no_root ∅.
Proof. intros b h Hb. by rewrite lookup_empty in Hb. Qed.

Lemma readi_spec_witness : wp (readi 0 1 100) full_panics (λ r _, r = (2, [66; 67])) ex_k.
Proof.
  eapply wp_mono.
  - apply (readi_spec 0 ex_k ex_disk ∅ ex_inode 1 100 ex_cached (tx_store _ _ _ ex_tx) no_root_empty ex_regular); done.
  - intros r k' (_ & _ & ->). vm_compute. reflexivity.
Defined.

Lemma writei_spec_witness : wp (writei 0 [70; 71] 2 2) fs_panics (λ r _, r = 2) ex_k.
Proof.
  eapply wp_mono.
  - apply (writei_spec 0 ex_k ex_disk ex_inode 2 [70; 71] ex_cached ex_tx ex_map ex_regular ex_inode_ok);
      vm_compute; repeat split; discriminate.
  - by intros r k' [-> _].
Defined.

Lemma write_read_witness :
  wp (_ ← writei 0 [70; 71] 2 2; readi 0 2 2) fs_panics (λ r _, r = (2, [70; 71])) ex_k.
Proof.
  apply (write_read 0 ex_k ex_disk ex_inode 2 [70; 71] ex_cached ex_tx ex_map ex_regular ex_inode_ok);
    vm_compute; repeat split; discriminate.
Defined.

(** ** Directories *)

(** The name [a] is not in the directory, [.] is. *)
Lemma ex_name_a : readable DIRSIZ [97; 0] ∧ Forall is_byte [97; 0] ∧ dir_get ex_disk ex_dir [97; 0] = None.
Proof.
  split; [right; set_solver|]. split; [apply (bool_decide_unpack _); vm_compute; exact I|vm_compute; reflexivity].
Qed.
Lemma ex_name_dot : readable DIRSIZ [46; 0] ∧ Forall is_byte [46; 0] ∧ dir_get ex_disk ex_dir [46; 0] = Some 2.
Proof.
  split; [right; set_solver|]. split; [apply (bool_decide_unpack _); vm_compute; exact I|vm_compute; reflexivity].
Qed.
Lemma ex_free_icache : ic_lock (k_ic ex_k) = false.
Proof. reflexivity. Qed.

Lemma dirlookup_spec_witness :
  wp (dirlookup 1 [46; 0]) dir_panics (λ r k', ∃ ip off y, r = Some (ip, off) ∧ cached ip y k' ∧ i_inum y = 2) ex_k.
Proof.
  destruct ex_name_dot as (H1 & H2 & E). eapply wp_mono.
  - exact (dirlookup_spec 1 ex_k ex_disk ∅ ex_dir [46; 0] ex_dir_cached (tx_store _ _ _ ex_tx) no_root_empty ex_dir_ok
      ex_free_icache H1 H2).
  - rewrite E. intros r k' (_ & k1 & ip & off & z & y & -> & F & -> & Hz & Hg & _). exists ip, off, y.
    split; [reflexivity|]. split; [|apply (got_inode _ _ _ _ _ Hg)].
    exact (cached_with ip z y k1 (cframe_cached _ _ _ _ F Hz)).
Defined.

Lemma dirlink_spec_witness :
  wp (dirlink 1 [97; 0] 1) ("iget: no inodes"%string :: fs_panics)
    (λ r k', r = 0 ∧ ∃ D' x', dir_get D' x' [97; 0] = Some 1 ∧ dir_get D' x' [46; 0] = Some 2) ex_k.
Proof.
  destruct ex_name_a as (H1 & H2 & E). destruct ex_name_dot as (_ & _ & Edot). eapply wp_mono.
  - apply (dirlink_spec 1 ex_k ex_disk ex_dir [97; 0] 1 ex_dir_cached ex_tx ex_map ex_dir_ok ex_dir_inode_ok
      ex_free_icache H1 H2); [lia|vm_compute; reflexivity|exact E].
  - intros r k' [-> (D' & x' & L)]. split; [reflexivity|]. exists D', x'.
    rewrite !(ln_get _ _ _ _ _ _ _ _ _ L). split; [reflexivity|exact Edot].
Defined.

Lemma dirlink_self_deadlock_witness :
  dirlink 1 [46; 0] 1 ex_k = Blocked "acquiresleep" ∨ ∃ msg, msg ∈ dir_panics ∧ dirlink 1 [46; 0] 1 ex_k = Panic msg.
Proof.
  destruct ex_name_dot as (H1 & H2 & E).
  apply (dirlink_self_deadlock 1 ex_k ex_disk ∅ ex_dir [46; 0] 1 ex_dir_cached (tx_store _ _ _ ex_tx) no_root_empty
    ex_dir_ok ex_free_icache H1 H2 E); [reflexivity|reflexivity|].
  intros ip z Hz (Hr & _ & Hi). unfold cached in Hz.
  destruct ip as [|[|ip]]; [cbn in Hz; injection Hz as <-; discriminate|reflexivity|].
  change (replicate (NINODE - 2) bss_inode !! ip = Some z) in Hz.
  apply lookup_replicate in Hz as [-> _]. discriminate.
Defined.

(** ** Loop devices *)

(** Loop device 32 on the file of inode 1, whose block 0 is to be read into
    buffer 29. *)
Definition ex_loop_buf : buf := Buf 0 32 0 (SleepLock true 1) 1 zero_block.
Definition ex_loop_file : inode := set_i_lock (SleepLock false 0) ex_inode.
Definition ex_loop_base : kernel :=
  with_inode 0 ex_loop_file (set_k_ldev (GLoopDev false [LoopDev true (Some 0%nat)]) ex_k).
Definition ex_loop_k : kernel := kput 29 ex_loop_buf ex_loop_base.

Lemma ex_loop_base_store : store ex_loop_base ex_disk ∅.
Proof. apply store_with_inode. destruct (tx_store _ _ _ ex_tx). by split. Qed.

Lemma ex_loop_store : store ex_loop_k ex_disk {[29%nat := (32, 0, zero_block)]}.
Proof.
  destruct (cache_ok_lookup _ _ 29%nat ex_cache_ok) as [x Hx].
  { apply elem_of_reverse, elem_of_seq. unfold NBUF. lia. }
  apply (store_put ex_loop_base ex_disk ∅ 29 x ex_loop_buf (Some (32, 0, zero_block)) ex_loop_base_store Hx).
  - exists (reverse (seq 0 NBUF)). eapply (cache_ok_recycle _ _ 32 0); [apply ex_cache_ok| |exact Hx|done|done].
    destruct (List.find _ _) as [b|] eqn:E; [|done]. exfalso. apply find_some in E as [_ E].
    apply has_key_true in E as (y & Hy & Hd & _). apply ex_unused in Hy. subst y. done.
  - split; [by left|]. do 6 (split; [reflexivity|]). intros E. discriminate E.
  - intros n (E & _). done.
  - apply ex_unused in Hx as ->. intros n (E & _). done.
Qed.

Lemma loop_read_spec_witness :
  wp (loopdev_read_body 29) full_panics (λ _ k', ∃ d', take 3 d' = [65; 66; 67] ∧
    store k' ex_disk (<[29%nat := (32, 0, d')]> {[29%nat := (32, 0, zero_block)]})) ex_loop_k.
Proof.
  assert (Hn : no_root {[29%nat := (32, 0, zero_block)]}).
  { intros b h Hb. apply lookup_singleton_Some in Hb as [_ <-]. discriminate. }
  eapply wp_mono.
  - apply (loop_read_spec 29 0 ex_loop_k ex_disk _ ex_loop_file 32 0 zero_block ex_loop_store Hn);
      [apply lookup_singleton_eq|reflexivity|reflexivity| |reflexivity|reflexivity|reflexivity|discriminate|reflexivity].
    destruct ex_regular as [[F1 F2 F3 F4 F5 F6] R2 R3 R4]. split; [|exact R2|exact R3|exact R4].
    assert (Hg : ∀ a, good_block ex_k ex_disk a → good_block ex_loop_k ex_disk a) by (intros a [G1 G2 G3 G4]; by split).
    split; [exact F1|exact F2| |intros n Hn' Hz; apply Hg, (F4 n Hn' Hz)|exact F5|exact F6].
    intros Hi. apply Hg, F3, Hi.
  - intros [] k' (d' & [Hl Hd] & S & _). exists d'. split; [|exact S]. apply list_eq. intros i. rewrite lookup_take.
    destruct (decide (i < 3)%nat) as [Hi|Hi].
    + rewrite Hd by (unfold BSIZE; lia). destruct i as [|[|[|i]]]; [vm_compute; reflexivity..|lia].
    + symmetry. apply lookup_ge_None. cbn. lia.
Defined.

(** ** The log *)

(** Block 9 set to 65s in the running operation, and the state after. *)
Definition ex_k1 : kernel := run_state (update 9 (fill 65)) ex_k.
Definition ex_D1 : list (list Z) := <[9%nat := fill 65]> ex_disk.

Lemma ex_k1_tx : kframe ex_k ex_k1 ∧ tx ex_k1 ex_D1 ∅.
Proof.
  apply (run_state_wp (update 9 (fill 65)) full_panics (λ k', kframe ex_k k' ∧ tx k' ex_D1 ∅) ex_k).
  - vm_compute. reflexivity.
  - apply (update_tx ex_k ex_disk ∅ 9 (fill 65) ex_tx).
    + intros b h Hb. by rewrite lookup_empty in Hb.
    + apply ex_data_block; lia.
    + apply length_replicate.
Qed.

Lemma ex_k1_logged : logged (k_log ex_k1) = [9].
Proof. vm_compute. reflexivity. Qed.
Lemma ex_k1_disk : k_disk ex_k1 = ex_disk.
Proof.
  rewrite (kframe_disk _ _ (proj1 ex_k1_tx)). unfold ex_k, first_op. cbn [k_disk set_k_ic set_k_sb set_k_log].
  apply reboot_disk.
Qed.
Lemma ex_k1_area : log_start (k_log ex_k1) = 2 ∧ log_size (k_log ex_k1) = 4 ∧ lh_n (log_lh (k_log ex_k1)) = 1.
Proof. vm_compute. repeat split; reflexivity. Qed.
Lemma ex_k1_idle : loop_idle ex_k1.
Proof. vm_compute. reflexivity. Qed.

Lemma ex_k1_layout : layout_ok (log_start (k_log ex_k1)) (log_size (k_log ex_k1)) (k_disk ex_k1).
Proof. destruct ex_k1_area as (E1 & E2 & _). rewrite E1, E2, ex_k1_disk. apply ex_layout. Qed.
Lemma ex_k1_size : log_size (k_log ex_k1) ≤ LOGSIZE.
Proof. destruct ex_k1_area as (_ & E2 & _). rewrite E2. discriminate. Qed.
Lemma ex_k1_sb : 1 ∉ logged (k_log ex_k1).
Proof. rewrite ex_k1_logged. set_solver. Qed.
Lemma ex_k1_empty : hdr_n (blk (k_disk ex_k1) (log_start (k_log ex_k1))) = 0.
Proof. vm_compute. reflexivity. Qed.
Lemma ex_k1_n : 0 < lh_n (log_lh (k_log ex_k1)).
Proof. vm_compute. reflexivity. Qed.

Lemma commit_atomic_witness : wp commit [] (λ _ k', ∃ ws, k_disk k' = apply_writes ws (k_disk ex_k1)) ex_k1.
Proof.
  eapply wp_mono.
  - exact (commit_atomic ex_k1 ex_D1 (tx_store _ _ _ (proj2 ex_k1_tx)) (tx_ready _ _ _ (proj2 ex_k1_tx))
      ex_k1_idle ex_k1_size ex_k1_layout ex_k1_sb ex_k1_empty).
  - intros [] k' (ws & _ & E & _). exists ws. exact E.
Defined.

Lemma commit_leaves_header_witness :
  wp commit [] (λ _ k', hdr_homes (blk (k_disk k') (log_start (k_log ex_k1))) = [9]) ex_k1.
Proof.
  eapply wp_mono.
  - exact (commit_leaves_header ex_k1 ex_D1 (tx_store _ _ _ (proj2 ex_k1_tx)) (tx_ready _ _ _ (proj2 ex_k1_tx))
      ex_k1_idle ex_k1_n).
  - intros [] k' (_ & _ & E). rewrite E. exact ex_k1_logged.
Defined.

(** The state of [ex_k1] committed, and then block 10 set to 66s: the disk has
    the header of the first commit. *)
Definition ex_kc : kernel := run_state commit ex_k1.
Definition ex_kb : kernel := run_state (update 10 (fill 66)) ex_kc.
Definition ex_Db : list (list Z) := <[10%nat := fill 66]> (k_disk ex_kc).

Lemma ex_kc_log : log_start (k_log ex_kc) = 2 ∧ log_size (k_log ex_kc) = 4 ∧ log_outstanding (k_log ex_kc) = 1.
Proof. vm_compute. repeat split; reflexivity. Qed.

Lemma ex_kc_tx : tx ex_kc (k_disk ex_kc) ∅.
Proof.
  destruct ex_kc_log as (E1 & E2 & E3). destruct ex_k1_tx as [_ [S R O Z]].
  assert (log_ready ex_kc ∧ store ex_kc (k_disk ex_kc) ∅) as [R' S'].
  { apply (run_state_wp commit [] (λ k', log_ready k' ∧ store k' (k_disk k') ∅)); [vm_compute; reflexivity|].
    eapply wp_mono; [apply (commit_wp ex_k1 ex_D1 S R ex_k1_idle)|].
    intros [] k' (k1 & Hw & -> & _ & S'). split; [|exact S']. apply log_ready_clear.
    - exact (writes_to_ready _ _ _ Hw R).
    - rewrite (writes_to_log _ _ _ Hw). destruct ex_k1_area as (_ & -> & _). done. }
  split; [exact S'|exact R'|by rewrite E3|by rewrite E2].
Qed.

Lemma ex_kb_tx : kframe ex_kc ex_kb ∧ tx ex_kb ex_Db ∅.
Proof.
  apply (run_state_wp (update 10 (fill 66)) full_panics (λ k', kframe ex_kc k' ∧ tx k' ex_Db ∅) ex_kc).
  - vm_compute. reflexivity.
  - apply (update_tx ex_kc _ ∅ 10 (fill 66) ex_kc_tx).
    + intros b h Hb. by rewrite lookup_empty in Hb.
    + split; vm_compute; [|intros [_ H]; discriminate H]. split; [discriminate|reflexivity].
    + apply length_replicate.
Qed.

Lemma ex_kb_log : log_start (k_log ex_kb) = 2 ∧ log_size (k_log ex_kb) = 4 ∧ logged (k_log ex_kb) = [10] ∧
  lh_n (log_lh (k_log ex_kb)) = 1 ∧ hdr_n (blk (k_disk ex_kb) 2) = 1 ∧ hdr_homes (blk (k_disk ex_kb) 2) = [9] ∧
  length (k_disk ex_kb) = 12%nat.
Proof. vm_compute. repeat split; reflexivity. Qed.
Lemma ex_kb_layout : layout_ok 2 4 (k_disk ex_kb).
Proof.
  split; [done|done|vm_compute; discriminate|vm_compute; reflexivity| |vm_compute; reflexivity..].
  apply (bool_decide_unpack _). vm_compute. exact I.
Qed.
Lemma ex_kb_header : header_ok 2 4 (k_disk ex_kb).
Proof.
  destruct ex_kb_log as (_ & _ & _ & _ & E1 & E2 & E3). split; rewrite ?E1, ?E2, ?E3; [lia|unfold NBUF; lia| |].
  - intros n ->%list_elem_of_singleton. lia.
  - apply NoDup_singleton.
Qed.
Lemma ex_kb_idle : loop_idle ex_kb.
Proof. vm_compute. reflexivity. Qed.

Lemma ex_kb_hyps : let l := k_log ex_kb in
  log_size l ≤ LOGSIZE ∧ layout_ok (log_start l) (log_size l) (k_disk ex_kb) ∧ 1 ∉ logged l ∧
  0 < lh_n (log_lh l) ∧ header_ok (log_start l) (log_size l) (k_disk ex_kb).
Proof.
  cbv zeta. destruct ex_kb_log as (-> & -> & -> & -> & _). split; [discriminate|]. split; [exact ex_kb_layout|].
  split; [set_solver|]. split; [reflexivity|exact ex_kb_header].
Qed.
Lemma ex_kb_block9 disk : replay_outcome ex_kb ex_Db 1 disk → blk disk 9 = fill 66.
Proof.
  unfold replay_outcome. destruct ex_kb_log as (E1 & _ & _ & E4 & _ & E6 & _).
  assert (log_n (k_log ex_kb) = 1%nat) as -> by (unfold log_n; by rewrite E4).
  rewrite decide_True by lia. intros [H _]. rewrite E1, E6 in H. rewrite (H 0%nat 9 eq_refl).
  rewrite decide_True by lia. vm_compute. reflexivity.
Qed.

(** Block 9 was set by the first commit; after a crash in the second, which
    only sets block 10, it has the contents meant for block 10. *)
Lemma stale_log_replayed_witness :
  blk (k_disk ex_kb) 9 = fill 65 ∧ blk ex_Db 9 = fill 65 ∧
  wp commit [] (λ _ k', ∃ ws, k_disk k' = apply_writes ws (k_disk ex_kb) ∧
    wp (initlog ROOTDEV) [] (λ _ k'', blk (k_disk k'') 9 = fill 66)
      (reboot (apply_writes (take 1 ws) (k_disk ex_kb)))) ex_kb.
Proof.
  split; [vm_compute; reflexivity|]. split; [vm_compute; reflexivity|].
  destruct ex_kb_hyps as (H1 & H2 & H3 & H4 & H5). eapply wp_mono.
  - exact (stale_log_replayed ex_kb ex_Db (tx_store _ _ _ (proj2 ex_kb_tx)) (tx_ready _ _ _ (proj2 ex_kb_tx))
      ex_kb_idle H1 H2 H3 H4 H5).
  - intros [] k' (ws & _ & E & _ & _ & Hp). exists ws. split; [exact E|]. eapply wp_mono; [exact (Hp 1%nat)|].
    intros [] k'' H. exact (ex_kb_block9 _ H).
Defined.

Lemma begin_op_reserves_witness : begin_op ex_k = Ret tt (outstand 1 ex_k) ∨ begin_op ex_k ≠ Fault.
Proof.
  destruct (begin_op_reserves ex_k eq_refl) as [[_ E]|[(_ & _ & E)|[E _]]]; [right|right|left; exact E];
    rewrite E; discriminate.
Defined.

(** Block 8 read: it is in buffer 0. *)
Definition ex_k2 : kernel := run_state (bread ROOTDEV 8) ex_k.
Definition ex_held : gmap nat held := {[0%nat := (ROOTDEV, 8, blk ex_disk 8)]}.

Lemma ex_k2_store : k_log ex_k2 = ex_log ∧ store ex_k2 ex_disk ex_held.
Proof.
  assert (wp (bread ROOTDEV 8) full_panics (λ b k', k' = set_k_bc (k_bc k') ex_k ∧ clean_mono ex_k k' ∧
    (∅ : gmap nat held) !! b = None ∧ store k' ex_disk (<[b:=(ROOTDEV, 8, blk ex_disk 8)]> ∅)) ex_k) as H.
  { apply bread_store; [apply ex_tx|done|apply ex_data_block; lia|vm_compute; reflexivity]. }
  apply (run_value_wp _ _ _ _ 0%nat) in H; [|vm_compute; reflexivity].
  destruct H as (F & _ & _ & S). rewrite insert_empty in S. split; [|exact S].
  unfold ex_k2. rewrite F. reflexivity.
Qed.

Lemma ex_k2_outstanding : 1 ≤ log_outstanding (k_log ex_k2).
Proof. rewrite (proj1 ex_k2_store). discriminate. Qed.

Lemma log_write_spec_witness : wp (log_write 0) full_panics (λ _ k', store k' ex_disk ex_held) ex_k2.
Proof.
  eapply wp_mono.
  - exact (log_write_spec ex_k2 ex_disk ex_held 0 8 (blk ex_disk 8) (proj2 ex_k2_store)
      (lookup_singleton_eq 0%nat _) ex_k2_outstanding).
  - intros [] k' (_ & S & _). rewrite list_insert_id in S; [exact S|]. vm_compute. reflexivity.
Defined.

(** ** Strings *)

Lemma memset_fills_witness : memset (λ _, 7) 100 300 6 103 = 44.
Proof. rewrite (memset_fills (λ _, 7) 100 300 6 103); [reflexivity|discriminate]. Defined.

Lemma strncmp_eq_witness : ∃ r, strncmp [65; 66; 0; 1] [65; 66; 0; 2] 4 = Some r ∧
  (r = 0 ↔ cut 4 [65; 66; 0; 1] = cut 4 [65; 66; 0; 2]).
Proof.
  apply (strncmp_eq [65; 66; 0; 1] [65; 66; 0; 2] 4); [left; simpl; lia|left; simpl; lia|..];
    apply (bool_decide_unpack _); vm_compute; exact I.
Defined.

Lemma strncpy_pads_witness : strncpy [9; 9; 9; 9; 9] [65; 0] 4 = Some [65; 0; 0; 0; 9].
Proof. rewrite (strncpy_pads [9; 9; 9; 9; 9] [65; 0] 4); [reflexivity|simpl; lia|]. right; set_solver. Defined.

Lemma safestrcpy_terminates_witness :
  ∃ s', safestrcpy [9; 9; 9; 9; 9] [65; 66; 67; 0] 3 = Some s' ∧ length s' = 5%nat.
Proof.
  destruct (safestrcpy_terminates [9; 9; 9; 9; 9] [65; 66; 67; 0] 3) as (s' & E & L & _);
    [lia|simpl; lia|right; set_solver|]. by exists s'.
Defined.
